(* ===== verification/_CoqProject ===== *)
-Q . S2P
Prelude.v
Sha256.v
Codec.v
Bodies.v
Packet.v
Wire.v
Peer.v
Digits.v
GoLib.v
Sort.v
Conf.v
Coin.v
Amount.v
Base58.v
Bech32.v
Address.v
Script.v
Secp.v
Tx.v
Price.v
Hex.v
Json.v
Reply.v
HttpLib.v
Signer.v
Registry.v
RegistryLaws.v
Discovery.v
DiscoveryLaws.v
Wallet.v
Float.v
Deposit.v
DepositLaws.v
Order.v
XAmount.v
Calendar.v
Decimal.v
Store.v
Activate.v
Utxos.v
Select.v
SelectLaws.v
Fee.v
Server.v
Params.v
Render.v
Round.v
Unmarshal.v
WalletRpc.v
WalletLaws.v
JsonRow.v
Session.v
Persist.v
Node.v
Resume.v
Sweep.v
Track.v
Commands.v
Take.v
Make.v
Views.v
Book.v
Split.v
Rpc.v
Engine.v
Sample.v
SwapFile.v
Retry.v
Market.v
Frame.v
TakeLaws.v
MakeLaws.v
RpcLaws.v
ViewsLaws.v
SplitLaws.v
Safety.v
Recovery.v
Restart.v
Gate.v
Hazards.v
