(* ===== verification/Prelude.v ===== *)
(** * go-xbridge: verification library

    ** The program

    go-xbridge (src/) is a Go daemon for atomic swaps between coins of bitcoin's
    family over the XBridge protocol.  A maker announces an order to a hub (a
    service node), a taker takes it, and the hub walks both through hold, init,
    create, confirm and finish.  Each side locks its coins in a hash time-locked
    output: the maker's secret opens the taker's deposit, and its publication
    opens the maker's; after its lock time a deposit goes back to its owner by a
    refund that was signed together with it.

    - src/proto and src/p2p: packets with signed headers and binary bodies, in the
      message frames of a bitcoin peer; peer discovery; the service-node registry.
    - src/coins, src/config, src/wallet, src/swap: amounts, addresses, scripts and
      transactions of the configured coins, and the wallets behind JSON-RPC.
    - src/api: the engine (one goroutine that owns orders and sessions), its
      workers, its sweeps, its swap file, and the dx* commands of a JSON-RPC server.

    The reader goroutine verifies packets and posts them to the engine; handlers of
    the server run beside it and hand it commands; workers run what needs a wallet
    on a snapshot of a session and post results back; three tickers run the sweeps;
    a writer flushes queued snapshots.  Only the engine changes sessions, so a step
    of it is a function [Node -> Node]; what runs beside it is interleaved between
    the steps.

    ** Conventions

    Bytes are [list byte], strings of the network too (Go strings need not be
    UTF-8); integers are [Z] with their range in the invariants and wrap-around
    written out where the code computes ([wrap], [swrap64]); [float64] is the
    binary64 of the Standard Library's SpecFloat, one rounding per operation.  A Go
    function that can fail is a [res] (value, error text, or runtime panic), a call
    to a wallet a [wres] (value or what the program asks of an error), an RPC handler
    an [rpc] (value, error code with its method, or a crash the server recovers).  Maps are
    stdpp's [gmap]; where the code ranges over a map, the order is an argument
    ([e_keys]).  [sort.Slice] is a class with the laws of a sort (Sort.v).

    Code outside src/ is an argument or an interface: secp256k1 is the class [Secp]
    with its [SecpLaws] (Secp.v, with a small instance that satisfies them for the
    witnesses), RIPEMD-160 a function of 20 bytes, Unicode case mapping beyond ASCII
    a record ([Unicode]), the wallet a [Connector] (Wallet.v), the HTTP exchange with
    it a function (WalletRpc.v).  Of the standard library SHA-256, the
    readers and writers of numbers, hex, base64, HMAC and JSON are executable
    definitions, as far as the sources use them.

    [Env] (Session.v) is what a step of the engine finds around it: clock,
    connectors, configurations, coins, whether the exchange is up.  Its [e_Known] is
    Registry.v's [Known], and the [pick] of a hub its [Pick], both for a registry
    as the network left it.  [n_io] holds the outcomes of the disk and network
    writes to come.  [Ambient] (Rpc.v) adds what a handler finds: random draws, the
    registry, chain tip.

    ** The files and the code they model

    Foundations: Prelude (this file: results, integers, byte slices, record updates,
    tactics), Sha256, Digits and GoLib (numerals, strings, strconv), Sort, Hex, Json
    (parser and decoders), Reply (writer), HttpLib (base64, HMAC, raw members),
    Unmarshal and JsonRow (decoding and encoding Go structs), Float, Decimal, Calendar
    (text of floats and times), Round (division in binary64 is correctly rounded).

    - proto: Codec (body.go), Bodies (command.go, body_types.go), Packet (packet.go).
    - p2p: Wire (message.go, envelope.go, conn.go), Peer (version.go, addr.go),
      Registry and RegistryLaws (servicenode), Discovery and DiscoveryLaws
      (discovery/addrman.go, peer_manager.go).
    - crypto: Secp, Signer (signer.go).
    - config and coins: Conf (conf.go, admit.go), Coin (coin.go), Amount, Base58,
      Bech32 (bech32.go, cashaddr.go), Address, Script (script.go, htlc.go, with the
      meaning of scripts as a specification), Tx (tx.go).
    - swap: Price (price.go), Deposit and DepositLaws (deposit.go and the worker
      tasks of api/swap.go, api/locktime.go).
    - wallet: Wallet (connector.go, CheckDepositTransaction), WalletRpc and WalletLaws
      (rpc.go), Activate (activate.go, conf.go, local.go; reload in api/node.go).
    - api, the engine: Order (order.go, cancel_reason.go), Store (store.go),
      Session (swap.go: the record and its schedules), Persist (persist.go), Node (state, services and packet
      handlers of node.go, swap.go), Resume (worker results), Sweep (refund_sweep.go,
      swap_retry.go, hold_resend.go, stall_watch.go), Track (reconcile.go,
      own_deposit_watch.go), Commands (the engine side of the dx commands), Engine
      (engine.go: the loop, restarts, the writer), SwapFile (the text of the swap file
      and the start from it), Retry (take_retry.go).
    - api, the server: Utxos, Select, SelectLaws, Fee (ownership proofs, utxo_select.go,
      fee_tx.go), XAmount (amounts and ids of response.go), Take and Make (dxTakeOrder,
      dxMakeOrder), Server and Params (server.go, dispatch.go), Render, Views, Book,
      Split (rows, read-only handlers, order book and candles, splits of handlers.go),
      Rpc (the table of handlers).

    Sample and Market are concrete nodes, wallets and hubs for the witnesses.

    Every operation of the code is one definition, composed as the code composes
    them: a handler is one function with its guards in the order of its early
    returns.  The map of the manifest gives the lines of each.

    ** What the theorems show

    - A deposit is never lost (Frame, Safety, Recovery, Restart, SwapFile, Gate).
      [Frame.frame] is the promise of every operation about the sessions, proved
      for each and composed in [Safety.step_frame]; from it [refund_kept],
      [state_forward], and with the disk [intent_before_broadcast],
      [restart_resumes] and, down to the bytes of the file, [restart_from_bytes].
      [refund_due_posted], [refund_settles] and [failed_deposit_retried] say that
      what is due is done; [authority] that only the entitled key moves a swap.
    - The contract on the chain (Script, Deposit): [htlc_spending_exact] over the
      specification of scripts, [claim_reveals_secret], [deposit_refundable],
      [swap_completes] for the two halves together, [lock_margins] for the times,
      [BuildDepositTx_conserves] for the money, [CheckDeposit_sound] for the verdict.
    - Orders (Take, Make, Store, Utxos, Select): [TakeOrder_sound], [MakeOrder_sound],
      [take_never_leaks], [store_invariant], [reserve_exclusive], [proofs_verify],
      [selectPartialUtxos_covers], [prep_balances], [split_balances],
      [retries_bounded].
    - Wallets: [listed_amounts_exact], that no unit is lost in JSON and float64 below
      2^52 units; [reload_all_or_nothing].
    - The server: [serve_gate] and [auth_exact] on who reaches a handler,
      [http_leaves_swaps] on what the handlers can do to a running swap,
      [history_partitions] on a view.
    - The network: [DecodeBody_roundtrip], [Unmarshal_exact], [ReadPacket_returns],
      [ParseServiceNode_exact], [Pick_sound], [ban_holds], [pm_invariant],
      [Tx_roundtrip].
    - Hazards and the Examples named in the findings of the manifest are the behaviour the
      comments of the code rule out, or that loses something: each on a concrete
      state.

    A theorem that is not one of the properties is a lemma of its component; each
    property with hypotheses has a [_witness] beside it that applies it to
    concrete values.

    ** Bounds and fuel

    Recursion that is not structural has fuel, and where the fuel is not a bound of
    the code itself a lemma says that it is enough: [Digits.fuel_enough] (digits of a
    number), [Json.jvalue_fuel] (twice the length of a text, [json_fuel]; the depth of
    10,000 is Go's), [Wire.readMessage_fuel] and [ReadPacket_returns] (the length of
    the stream), [ViewsLaws.descend_explores] (the number of orders, [S (size idx)]),
    [Tx.items_enough].  [shortest_decimal] looks from 10^309 (or 10^21, for prices)
    down to powers finer than any interval of a float; [power_fuel] is above the
    range of binary exponents; [NewPrivateKey] takes 64 draws, each out of range with
    probability 2^-128 (a draw that runs out is an error).  Bounds of the code (a queue
    of 16 tasks, 100,000 intervals of a history, 32 MiB of a request, 1 MiB of a packet)
    are definitions of their own.

    ** Not modelled

    - Output nothing reads back: logs, their deduplication, transcripts
      (src/log, api/txlog.go), the report of disabled coins (api/disabled.go), the
      prose of the help texts (an argument of [dxHelp]).  Of an error the code and
      method are kept, and what the program asks of it, not its words.
    - src/conformance and api/export_conformance.go (entry points of a test
      harness), the test files, and the programs of src/cmd (flags, signals, wiring).
    - Sockets, deadlines, timers and DNS seeds: a stream is its bytes, a timer that
      fires an event, a dial its outcome.  The outbound queue of a connection
      is [write_packet]'s outcome.
    - The branches for a node whose engine does not run (tests): a node here has
      its engine, and a stopped one refuses commands.
    - The system calls around the swap file: a write succeeds as a whole or not at
      all (the code writes aside, syncs and renames), a file put aside keeps its bytes.
    - Preemption inside an engine step: there is none in the code; the handlers'
      stages beside it are split where the code reads shared state.  *)

From Stdlib Require Export ZArith Lia List String.
From Stdlib Require Export Strings.Byte.
From stdpp Require Export base tactics list gmap strings.
From coqutil Require Export Byte Word.LittleEndianList.
#[global] Set Default Goal Selector "1".

Open Scope list_scope.
Open Scope Z_scope.

(** ** Results

    A Go function that returns [(T, error)] is a function into [res T]: a
    value, an [error] (its text), or a runtime panic (an out-of-range slice
    or index, [make] with a negative length). *)

Inductive res (A : Type) : Type :=
| Ok (a : A)
| Err (e : string)
| Panic.
Arguments Ok {A} a.
Arguments Err {A} e%_string.
Arguments Panic {A}.

#[export] Instance res_ret : MRet res := fun A a => Ok a.
#[export] Instance res_bind : MBind res := fun A B f m =>
  match m with Ok a => f a | Err e => Err e | Panic => Panic end.

#[export] Instance res_fmap : FMap res := fun A B f m =>
  match m with Ok a => Ok (f a) | Err e => Err e | Panic => Panic end.

(** [is_ok], [is_err]: the two outcomes that do not crash. *)
Definition is_ok {A} (r : res A) : bool := match r with Ok _ => true | _ => false end.
Definition is_err {A} (r : res A) : bool := match r with Err _ => true | _ => false end.
Definition no_panic {A} (r : res A) : Prop := r <> Panic.

Lemma res_bind_ok {A B} (m : res A) (f : A -> res B) (b : B) :
  m ≫= f = Ok b -> exists a, m = Ok a /\ f a = Ok b.
Proof. destruct m; cbn; intros; simplify_eq; eauto. Qed.

Lemma res_fmap_ok {A B} (m : res A) (f : A -> B) (b : B) :
  f <$> m = Ok b -> exists a, m = Ok a /\ b = f a.
Proof. destruct m; cbn; intros; simplify_eq; eauto. Qed.

Lemma no_panic_fmap {A B} (m : res A) (f : A -> B) : no_panic m -> no_panic (f <$> m).
Proof. by destruct m. Qed.

Lemma res_bind_assoc {A B C} (m : res A) (f : A -> res B) (g : B -> res C) :
  (m ≫= f) ≫= g = m ≫= (fun a => f a ≫= g).
Proof. by destruct m. Qed.

Lemma no_panic_bind {A B} (m : res A) (f : A -> res B) :
  no_panic m -> (forall a, m = Ok a -> no_panic (f a)) -> no_panic (m ≫= f).
Proof. unfold no_panic; destruct m; cbn; naive_solver. Qed.

(** A result that evaluates to a success is one. *)
Lemma is_ok_ex {A} (r : res A) : is_ok r = true -> exists a, r = Ok a.
Proof. destruct r; eauto; done. Qed.

Lemma no_panic_ok {A} (a : A) : no_panic (Ok a).
Proof. done. Qed.
Lemma no_panic_err {A} (e : string) : no_panic (Err e : res A).
Proof. done. Qed.

Create HintDb res.
#[export] Hint Resolve no_panic_ok no_panic_err : res.

(** [if c { return nil, errors.New(e) }] *)
Definition guard_err (c : bool) (e : string) : res unit :=
  if c then Err e else Ok tt.

Lemma guard_err_ok c e u : guard_err c e = Ok u -> c = false.
Proof. by destruct c. Qed.

(** Split every [if] and [match] on a result in the hypothesis [H]. *)
Ltac res_inv H :=
  repeat first
    [ discriminate H
    | match type of H with
      | mbind _ _ = Ok _ =>
          let a := fresh "a" in let E := fresh "E" in
          apply res_bind_ok in H as (a & E & H)
      | (if ?c then _ else _) = _ => let E := fresh "Ec" in destruct c eqn:E
      | (match ?x with _ => _ end) = _ => let E := fresh "Em" in destruct x eqn:E
      end ].

(** Turn boolean comparisons on [Z] into propositions everywhere. *)
Ltac zbool :=
  repeat match goal with
  | H : (_ <? _)%Z = true |- _ => apply Z.ltb_lt in H
  | H : (_ <? _)%Z = false |- _ => apply Z.ltb_ge in H
  | H : (_ <=? _)%Z = true |- _ => apply Z.leb_le in H
  | H : (_ <=? _)%Z = false |- _ => apply Z.leb_gt in H
  | H : (_ =? _)%Z = true |- _ => apply Z.eqb_eq in H
  | H : (_ =? _)%Z = false |- _ => apply Z.eqb_neq in H
  | H : (_ || _)%bool = false |- _ => apply orb_false_iff in H as [? ?]
  | H : (_ && _)%bool = true |- _ => apply andb_true_iff in H as [? ?]
  | H : negb _ = true |- _ => apply negb_true_iff in H
  | H : negb _ = false |- _ => apply negb_false_iff in H
  end.

(** ** Machine integers

    Go's [uint8/16/32/64] are integers in [0, 2^w); its [int] and [int64] are
    two's complement on 64 bits (the daemon's supported targets are 64-bit). *)

Definition uint_ok (w : Z) (v : Z) : Prop := 0 <= v < 2 ^ w.
Definition wrap (w : Z) (v : Z) : Z := v mod 2 ^ w.
Definition swrap64 (v : Z) : Z := (v + 2 ^ 63) mod 2 ^ 64 - 2 ^ 63.

Abbreviation u8_ok := (uint_ok 8).
Abbreviation u16_ok := (uint_ok 16).
Abbreviation u32_ok := (uint_ok 32).
Abbreviation u64_ok := (uint_ok 64).

#[export] Instance uint_ok_dec w v : Decision (uint_ok w v).
Proof. unfold uint_ok; apply _. Defined.

Lemma wrap_small w v : uint_ok w v -> wrap w v = v.
Proof. intros; by apply Z.mod_small. Qed.

Lemma wrap_ok w v : 0 <= w -> uint_ok w (wrap w v).
Proof. intros; apply Z.mod_pos_bound; lia. Qed.

Lemma swrap64_small v : - 2 ^ 63 <= v < 2 ^ 63 -> swrap64 v = v.
Proof. unfold swrap64; intros; rewrite Z.mod_small; lia. Qed.

(** A shifted value and a small one do not overlap. *)
Lemma shiftl_plus a k v : 0 <= k -> 0 <= v < 2 ^ k ->
  Z.lxor (Z.shiftl a k) v = a * 2 ^ k + v /\ Z.lor (Z.shiftl a k) v = a * 2 ^ k + v.
Proof.
  intros Hk Hv. rewrite <- (Z.shiftl_mul_pow2 a k) by done.
  assert (Z.land (Z.shiftl a k) v = 0) as H0.
  { apply Z.bits_inj'. intros i Hi. rewrite Z.land_spec, Z.bits_0.
    destruct (Z.lt_ge_cases i k); [by rewrite Z.shiftl_spec_low|].
    replace v with (v mod 2 ^ k) by (apply Z.mod_small; lia).
    by rewrite Z.mod_pow2_bits_high, andb_false_r by lia. }
  rewrite Z.add_nocarry_lxor by done. split; [done|].
  apply Z.bits_inj'. intros i Hi. apply (f_equal (fun x => Z.testbit x i)) in H0.
  rewrite Z.land_spec, Z.bits_0 in H0. rewrite Z.lor_spec, Z.lxor_spec.
  by destruct (Z.testbit (Z.shiftl a k) i), (Z.testbit v i).
Qed.

(** ** Bytes and Go strings

    A Go [string] and a [[]byte] are both [list byte]; [bytes_of] turns a
    literal into its bytes. *)

Abbreviation bytes := (list byte).
Definition bytes_of (s : string) : bytes := list_byte_of_string s.

#[export] Instance byte_eq_dec : EqDecision byte := Byte.byte_eq_dec.

#[export] Instance byte_countable : Countable byte.
Proof.
  refine (inj_countable' (fun b => Z.to_N (byte.unsigned b)) (fun n => byte.of_Z (Z.of_N n)) _).
  intros b. rewrite Z2N.id by apply byte.unsigned_range. apply byte.of_Z_unsigned.
Defined.

Definition zlen {A} (l : list A) : Z := Z.of_nat (length l).

Lemma zlen_nonneg {A} (l : list A) : 0 <= zlen l.
Proof. unfold zlen; lia. Qed.

Lemma zlen_app {A} (l k : list A) : zlen (l ++ k) = zlen l + zlen k.
Proof. unfold zlen; rewrite length_app; lia. Qed.

Lemma zlen_cons {A} (a : A) l : zlen (a :: l) = 1 + zlen l.
Proof. unfold zlen; cbn [length]; lia. Qed.

(** [binary.LittleEndian.PutUintN] and [UintN] are [le_split] and
    [le_combine]; [BigEndian] reverses. *)

Lemma le_combine_split_small n v :
  uint_ok (8 * Z.of_nat n) v -> le_combine (le_split n v) = v.
Proof.
  unfold uint_ok; intros. rewrite le_combine_split, (Z.mul_comm (Z.of_nat n)), Z.mod_small; done.
Qed.

Lemma le_combine_ok l : uint_ok (8 * zlen l) (le_combine l).
Proof. apply le_combine_bound. Qed.

Definition be_split (n : nat) (v : Z) : bytes := rev (le_split n v).
Definition be_combine (l : bytes) : Z := le_combine (rev l).

Lemma length_be_split n v : length (be_split n v) = n.
Proof. unfold be_split. rewrite length_rev. apply length_le_split. Qed.

Lemma be_combine_split_small n v :
  uint_ok (8 * Z.of_nat n) v -> be_combine (be_split n v) = v.
Proof. unfold be_combine, be_split. rewrite rev_involutive. apply le_combine_split_small. Qed.

Lemma be_split_combine l n : length l = n -> be_split n (be_combine l) = l.
Proof.
  intros <-. unfold be_combine, be_split. rewrite split_le_combine' by apply length_rev.
  apply rev_involutive.
Qed.

Lemma byte_unsigned_ok b : u8_ok (byte.unsigned b).
Proof. apply byte.unsigned_range. Qed.

Lemma byte_of_Z_small v : u8_ok v -> byte.unsigned (byte.of_Z v) = v.
Proof. intros. rewrite byte.unsigned_of_Z. by apply wrap_small. Qed.

(** ** List slices *)

Lemma take_drop_app_len {A} (l k : list A) n :
  n = length l -> take n (l ++ k) = l.
Proof. intros ->. by rewrite take_app_length. Qed.

Lemma drop_app_len {A} (l k : list A) n : n = length l -> drop n (l ++ k) = k.
Proof. intros ->. by rewrite drop_app_length. Qed.

Lemma take_add {A} n m (l : list A) : take (n + m) l = take n l ++ take m (drop n l).
Proof.
  revert l; induction n as [|n IH]; intros [|x l]; cbn; try done.
  - by rewrite take_nil.
  - by rewrite IH.
Qed.

(** [b[lo:hi]], with Go's bounds check against the length. *)
Definition slice {A} (l : list A) (lo hi : Z) : res (list A) :=
  if (0 <=? lo) && (lo <=? hi) && (hi <=? zlen l)
  then Ok (take (Z.to_nat (hi - lo)) (drop (Z.to_nat lo) l))
  else Panic.

(** [a[i]], with Go's bounds check. *)
Definition index {A} (l : list A) (i : Z) : res A :=
  if (0 <=? i) && (i <? zlen l)
  then match l !! Z.to_nat i with Some a => Ok a | None => Panic end
  else Panic.

Lemma index_in_range {A} (l : list A) i :
  0 <= i < zlen l -> exists a, index l i = Ok a /\ l !! Z.to_nat i = Some a.
Proof.
  unfold index, zlen; intros [? ?].
  destruct (Z.leb_spec 0 i); [|lia]. destruct (Z.ltb_spec i (Z.of_nat (length l))); [|lia].
  cbn. destruct (l !! Z.to_nat i) eqn:E; eauto.
  apply lookup_ge_None in E. lia.
Qed.

Lemma slice_in_range {A} (l : list A) lo hi :
  0 <= lo <= hi -> hi <= zlen l ->
  slice l lo hi = Ok (take (Z.to_nat (hi - lo)) (drop (Z.to_nat lo) l)).
Proof.
  unfold slice; intros.
  rewrite !(proj2 (Z.leb_le _ _)) by lia. done.
Qed.

(** Pipeline notation for Go's [w.Op(...)] statement sequences. *)
Declare Scope xb_scope.
Notation "w |>> f" := (f w) (at level 50, left associativity, only parsing) : xb_scope.

(** ** Record updates

    [r <| f := v |>] is the record [r] with field [f] set to [v], and
    [r <| f ::= g |>] the one with [f] changed by [g]. A record declares its
    eta expansion as an instance of [Eta]; the setter of a field is computed
    from it. *)

Class Eta (R : Type) := eta : R -> R.
Class Setter {R T : Type} (p : R -> T) := set : (T -> T) -> R -> R.
#[global] Arguments set {R T} p {_} f r : simpl nomatch.

Ltac build_setter :=
  match goal with |- @Setter ?R ?T ?p =>
    let e := constr:(fun r : R => ltac:(
      let x := eval cbv beta delta [eta] in (eta r) in
      let x := eval hnf in x in exact x)) in
    let t := constr:(fun (f : T -> T) (r : R) => ltac:(
      let b := eval cbv beta in (e r) in
      let b' := eval pattern (p r) in b in
      match b' with ?g _ => let y := eval cbv beta in (g (f (p r))) in exact y end)) in
    exact t
  end.
#[export] Hint Extern 1 (Setter _) => build_setter : typeclass_instances.

Declare Scope update_scope.
Open Scope update_scope.
Notation "r <| f := v |>" := (set f (fun _ => v) r) (at level 12, left associativity, f at level 200, v at level 200) : update_scope.
Notation "r <| f ::= g |>" := (set f g r) (at level 12, left associativity, f at level 200, g at level 200) : update_scope.
