(* ===== verification/Sha256.v ===== *)
(** * SHA-256 (FIPS 180-4)

    Go's [crypto/sha256], the one standard-library hash the code calls,
    written out so that packet digests, P2P checksums and base58check
    addresses evaluate on concrete bytes.  RIPEMD-160 comes from a
    third-party package and stays a parameter where it is used. *)

From S2P Require Import Prelude.

(** 32-bit words. *)
Definition add32 (a b : Z) : Z := wrap 32 (a + b).
Definition rotr (n x : Z) : Z :=
  Z.lor (Z.shiftr x n) (wrap 32 (Z.shiftl x (32 - n))).
Definition not32 (x : Z) : Z := Z.lxor x 4294967295.

Definition sha_K : list Z := [
  1116352408; 1899447441; 3049323471; 3921009573; 961987163; 1508970993;
  2453635748; 2870763221; 3624381080; 310598401; 607225278; 1426881987;
  1925078388; 2162078206; 2614888103; 3248222580; 3835390401; 4022224774;
  264347078; 604807628; 770255983; 1249150122; 1555081692; 1996064986;
  2554220882; 2821834349; 2952996808; 3210313671; 3336571891; 3584528711;
  113926993; 338241895; 666307205; 773529912; 1294757372; 1396182291;
  1695183700; 1986661051; 2177026350; 2456956037; 2730485921; 2820302411;
  3259730800; 3345764771; 3516065817; 3600352804; 4094571909; 275423344;
  430227734; 506948616; 659060556; 883997877; 958139571; 1322822218;
  1537002063; 1747873779; 1955562222; 2024104815; 2227730452; 2361852424;
  2428436474; 2756734187; 3204031479; 3329325298
].

Definition sha_H0 : list Z := [
  1779033703; 3144134277; 1013904242; 2773480762; 1359893119; 2600822924;
  528734635; 1541459225
].

Definition big_sigma0 x := Z.lxor (Z.lxor (rotr 2 x) (rotr 13 x)) (rotr 22 x).
Definition big_sigma1 x := Z.lxor (Z.lxor (rotr 6 x) (rotr 11 x)) (rotr 25 x).
Definition small_sigma0 x := Z.lxor (Z.lxor (rotr 7 x) (rotr 18 x)) (Z.shiftr x 3).
Definition small_sigma1 x := Z.lxor (Z.lxor (rotr 17 x) (rotr 19 x)) (Z.shiftr x 10).
Definition sha_ch x y z := Z.lxor (Z.land x y) (Z.land (not32 x) z).
Definition sha_maj x y z := Z.lxor (Z.lxor (Z.land x y) (Z.land x z)) (Z.land y z).

(** The message followed by 0x80, zeros and the 64-bit big-endian bit length. *)
Definition sha_pad (m : bytes) : bytes :=
  m ++ [x80] ++ repeat x00 (Z.to_nat ((55 - zlen m) mod 64)) ++ be_split 8 (8 * zlen m).

Fixpoint words_of (n : nat) (m : bytes) : list Z :=
  match n with
  | O => []
  | S n => be_combine (take 4 m) :: words_of n (drop 4 m)
  end.

(** Message schedule, most recent word first. *)
Fixpoint sha_extend (n : nat) (w : list Z) : list Z :=
  match n with
  | O => w
  | S n =>
      let t := add32 (add32 (small_sigma1 (nth 1 w 0)) (nth 6 w 0))
                     (add32 (small_sigma0 (nth 14 w 0)) (nth 15 w 0)) in
      sha_extend n (t :: w)
  end.

Definition sha_schedule (block : bytes) : list Z :=
  rev (sha_extend 48 (rev (words_of 16 block))).

Definition sha_round (st : list Z) (kw : Z * Z) : list Z :=
  match st with
  | [a; b; c; d; e; f; g; h] =>
      let '(k, w) := kw in
      let t1 := add32 (add32 h (big_sigma1 e)) (add32 (sha_ch e f g) (add32 k w)) in
      let t2 := add32 (big_sigma0 a) (sha_maj a b c) in
      [add32 t1 t2; a; b; c; add32 d t1; e; f; g]
  | _ => st
  end.

Definition sha_block (h : list Z) (block : bytes) : list Z :=
  zip_with add32 h (fold_left sha_round (zip sha_K (sha_schedule block)) h).

Fixpoint sha_blocks (n : nat) (h : list Z) (m : bytes) : list Z :=
  match n with
  | O => h
  | S n => sha_blocks n (sha_block h (take 64 m)) (drop 64 m)
  end.

(** [sha256.Sum256] *)
Definition Sum256 (m : bytes) : bytes :=
  let p := sha_pad m in
  concat (map (be_split 4) (sha_blocks (Z.to_nat (zlen p / 64)) sha_H0 p)).

(** The digest is always 32 bytes. *)
Lemma sha_round_length st kw : length st = 8%nat -> length (sha_round st kw) = 8%nat.
Proof. intros H. do 9 (destruct st as [|? st]; try done). by destruct kw. Qed.

Lemma sha_rounds_length l st :
  length st = 8%nat -> length (fold_left sha_round l st) = 8%nat.
Proof. revert st; induction l as [|kw l IH]; intros st H; [done|]. by apply IH, sha_round_length. Qed.

Lemma sha_blocks_length n h m : length h = 8%nat -> length (sha_blocks n h m) = 8%nat.
Proof.
  revert h m; induction n as [|n IH]; intros h m H; [done|]. cbn. apply IH.
  unfold sha_block. rewrite length_zip_with, sha_rounds_length; lia.
Qed.

Lemma concat_be4_length l : length (concat (map (be_split 4) l)) = (4 * length l)%nat.
Proof.
  induction l as [|x l IH]; [done|]. cbn [map concat]. rewrite length_app, IH, length_be_split.
  cbn [length]. lia.
Qed.

Lemma Sum256_length m : length (Sum256 m) = 32%nat.
Proof. unfold Sum256. by rewrite concat_be4_length, sha_blocks_length. Qed.

(** FIPS 180-4 test vectors: "abc" and the empty message. *)
Example Sum256_abc :
  be_combine (Sum256 (bytes_of "abc")) =
  0xba7816bf8f01cfea414140de5dae2223b00361a396177a9cb410ff61f20015ad.
Proof. vm_compute. reflexivity. Qed.

Example Sum256_empty :
  be_combine (Sum256 []) =
  0xe3b0c44298fc1c149afbf4c8996fb92427ae41e4649b934ca495991b7852b855.
Proof. vm_compute. reflexivity. Qed.

Example Sum256_two_blocks :
  be_combine (Sum256 (bytes_of "abcdbcdecdefdefgefghfghighijhijkijkljklmklmnlmnomnopnopq")) =
  0x248d6a61d20638b8e5c026930c3e6039a33ce45964ff2167f6ecedd419db06c1.
Proof. vm_compute. reflexivity. Qed.

(** Double SHA-256, Bitcoin's checksum and txid hash. *)
Definition DoubleSHA256 (b : bytes) : bytes := Sum256 (Sum256 b).

Lemma DoubleSHA256_length b : length (DoubleSHA256 b) = 32%nat.
Proof. apply Sum256_length. Qed.
