(* ===== verification/Codec.v ===== *)
(** * proto/body.go: the body field codec

    [BodyWriter] appends XBridge body fields, [BodyReader] reads them back in
    sequence. A writer operation is a function on the buffer; a reader operation is
    state passing on [{data, pos}] with Go's error results.  The class
    [Field] is what the body layouts (Bodies.v) use of a field: its encoding
    is read back whatever surrounds it, and a successful read consumed
    exactly the encoding of what it returned. *)

From S2P Require Import Prelude.

Open Scope xb_scope.

(** ** BodyWriter *)

Record BodyWriter := mkBodyWriter { w_buf : bytes }.

Definition NewBodyWriter : BodyWriter := mkBodyWriter [].

Definition BodyWriter_append (b : bytes) (w : BodyWriter) : BodyWriter :=
  mkBodyWriter (w_buf w ++ b).

Definition BodyWriter_Uint32 (v : Z) (w : BodyWriter) : BodyWriter :=
  BodyWriter_append (le_split 4 v) w.

Definition BodyWriter_Uint64 (v : Z) (w : BodyWriter) : BodyWriter :=
  BodyWriter_append (le_split 8 v) w.

Definition BodyWriter_Uint16 (v : Z) (w : BodyWriter) : BodyWriter :=
  BodyWriter_append (le_split 2 v) w.

Definition BodyWriter_PubKey (p : bytes) (w : BodyWriter) : BodyWriter :=
  BodyWriter_append p w.

Definition BodyWriter_Bytes (b : bytes) (w : BodyWriter) : BodyWriter :=
  BodyWriter_append b w.

Definition BodyWriter_String (s : bytes) (w : BodyWriter) : BodyWriter :=
  BodyWriter_append [x00] (BodyWriter_append s w).

Definition BodyWriter_Hash (h : bytes) (w : BodyWriter) : BodyWriter :=
  BodyWriter_append h w.

Definition BodyWriter_Addr (a : bytes) (w : BodyWriter) : BodyWriter :=
  BodyWriter_append a w.

(** [var b [8]byte; copy(b[:], s)]: at most 8 bytes, zero padded. *)
Definition currency_field (s : bytes) : bytes :=
  take 8 s ++ repeat x00 (8 - length (take 8 s)).

Definition BodyWriter_Currency (s : bytes) (w : BodyWriter) : BodyWriter :=
  BodyWriter_append (currency_field s) w.

Definition BodyWriter_Payload (w : BodyWriter) : bytes := w_buf w.

(** ** BodyReader *)

Record BodyReader := mkBodyReader { r_data : bytes; r_pos : nat }.

Definition NewBodyReader (b : bytes) : BodyReader := mkBodyReader b 0.

Definition BodyReader_remaining (r : BodyReader) : Z :=
  zlen (r_data r) - Z.of_nat (r_pos r).

Definition Reader (A : Type) : Type := BodyReader -> res (A * BodyReader).

#[export] Instance Reader_ret : MRet Reader := fun A a r => Ok (a, r).
#[export] Instance Reader_bind : MBind Reader := fun A B f m r =>
  match m r with
  | Ok (a, r') => f a r'
  | Err e => Err e
  | Panic => Panic
  end.

(** [r.data[r.pos : r.pos+n]] and [r.pos += n]. *)
Definition advance (n : nat) (r : BodyReader) : bytes * BodyReader :=
  (take n (drop (r_pos r) (r_data r)), mkBodyReader (r_data r) (r_pos r + n)).

Definition BodyReader_Uint32 : Reader Z := fun r =>
  if BodyReader_remaining r <? 4 then Err "xbridge: body underflow (uint32)"
  else let '(b, r) := advance 4 r in Ok (le_combine b, r).

Definition BodyReader_Uint64 : Reader Z := fun r =>
  if BodyReader_remaining r <? 8 then Err "xbridge: body underflow (uint64)"
  else let '(b, r) := advance 8 r in Ok (le_combine b, r).

Definition BodyReader_Uint16 : Reader Z := fun r =>
  if BodyReader_remaining r <? 2 then Err "xbridge: body underflow (uint16)"
  else let '(b, r) := advance 2 r in Ok (le_combine b, r).

(** [Bytes(n)]: a negative [n] would reach [make] and panic. *)
Definition BodyReader_Bytes (n : Z) : Reader bytes := fun r =>
  if BodyReader_remaining r <? n then Err "xbridge: body underflow (bytes)"
  else if n <? 0 then Panic
  else Ok (advance (Z.to_nat n) r).

Definition BodyReader_PubKey : Reader bytes := BodyReader_Bytes 33.

(** The scan loop of [String]: how many bytes precede the first NUL. *)
Fixpoint scan_nul (l : bytes) : option nat :=
  match l with
  | [] => None
  | x00 :: _ => Some 0%nat
  | _ :: l => S <$> scan_nul l
  end.

Definition BodyReader_String : Reader bytes := fun r =>
  match scan_nul (drop (r_pos r) (r_data r)) with
  | Some n =>
      Ok (take n (drop (r_pos r) (r_data r)),
          mkBodyReader (r_data r) (r_pos r + n + 1))
  | None => Err "xbridge: unterminated string in body"
  end.

Definition BodyReader_Hash : Reader bytes := BodyReader_Bytes 32.

Definition BodyReader_Addr : Reader bytes := BodyReader_Bytes 20.

(** [for end > 0 && b[end-1] == 0 { end-- }] *)
Fixpoint trim_end (b : bytes) (fin : nat) : nat :=
  match fin with
  | O => O
  | S k => match b !! k with
           | Some x00 => trim_end b k
           | _ => fin
           end
  end.

Definition BodyReader_Currency : Reader bytes :=
  b ← BodyReader_Bytes 8;
  mret (take (trim_end b (length b)) b).

(** The end-of-body check [if r.remaining() != 0 { return err }]. *)
Definition expect_end (e : string) : Reader unit := fun r =>
  if BodyReader_remaining r =? 0 then Ok (tt, r) else Err e.

(** Run a reader on a whole body and drop the reader state, as [Unmarshal]
    does. *)
Definition run_reader {A} (m : Reader A) (data : bytes) : res A :=
  '(a, _) ← m (NewBodyReader data); mret a.

(** ** Fields

    [reader_at pre post] is a reader positioned after [pre], with [post] left. *)
Definition reader_at (pre post : bytes) : BodyReader :=
  mkBodyReader (pre ++ post) (length pre).

(** Reading at [reader_at pre (enc a ++ post)] yields [a] and leaves [post]. *)
Definition reads {A} (m : Reader A) (enc : bytes) (a : A) : Prop :=
  forall pre post,
    m (reader_at pre (enc ++ post)) = Ok (a, reader_at (pre ++ enc) post).

(** Every successful read consumed exactly [enc a], and [wf a] holds. *)
Definition consumes {A} (m : Reader A) (enc : A -> bytes) (wf : A -> Prop) : Prop :=
  forall pre post a r',
    m (reader_at pre post) = Ok (a, r') ->
    wf a /\ exists post', post = enc a ++ post' /\ r' = reader_at (pre ++ enc a) post'.

(** No read panics on a reader positioned inside its data. *)
Definition total {A} (m : Reader A) : Prop :=
  forall pre post, no_panic (m (reader_at pre post)).

(** What the body layouts use of a field codec. *)
Class Field {A} (m : Reader A) (enc : A -> bytes) (wf : A -> Prop) : Prop := {
  field_reads : forall a, wf a -> reads m (enc a) a;
  field_consumes : consumes m enc wf;
  field_total : total m;
}.

Lemma remaining_at pre post : BodyReader_remaining (reader_at pre post) = zlen post.
Proof. unfold BodyReader_remaining, zlen; cbn. rewrite length_app; lia. Qed.

Lemma advance_at pre b post :
  advance (length b) (reader_at pre (b ++ post)) = (b, reader_at (pre ++ b) post).
Proof.
  unfold advance, reader_at; cbn.
  by rewrite drop_app_length, take_app_length, length_app, app_assoc.
Qed.

Lemma zlen_split {A} (l : list A) n :
  0 <= n <= zlen l -> exists a b, l = a ++ b /\ zlen a = n.
Proof.
  intros. exists (take (Z.to_nat n) l), (drop (Z.to_nat n) l).
  rewrite take_drop. split; [done|]. unfold zlen in *. rewrite length_take; lia.
Qed.

Lemma Bytes_reads n b : zlen b = n -> reads (BodyReader_Bytes n) b b.
Proof.
  intros <- pre post. unfold BodyReader_Bytes. rewrite remaining_at, zlen_app.
  pose proof (zlen_nonneg b); pose proof (zlen_nonneg post).
  rewrite !(proj2 (Z.ltb_ge _ _)) by lia.
  unfold zlen at 1; rewrite Nat2Z.id, advance_at; done.
Qed.

Lemma Bytes_consumes n pre post b r' :
  BodyReader_Bytes n (reader_at pre post) = Ok (b, r') ->
  zlen b = n /\ exists post', post = b ++ post' /\ r' = reader_at (pre ++ b) post'.
Proof.
  unfold BodyReader_Bytes. rewrite remaining_at. intros H; res_inv H; zbool.
  destruct (zlen_split post n) as (x & y & -> & <-); [lia|].
  unfold zlen in H; rewrite Nat2Z.id, advance_at in H. simplify_eq. eauto.
Qed.

Lemma Bytes_total n : 0 <= n -> total (BodyReader_Bytes n).
Proof.
  intros Hn pre post. unfold BodyReader_Bytes.
  destruct (_ <? n); [done|]. by rewrite (proj2 (Z.ltb_ge n 0)).
Qed.

Lemma Bytes_field n (Hn : 0 <= n) :
  Field (BodyReader_Bytes n) id (fun b => zlen b = n).
Proof.
  split; [apply Bytes_reads| |by apply Bytes_total].
  intros ????; apply Bytes_consumes.
Qed.

#[export] Instance Hash_field : Field BodyReader_Hash id (fun b => zlen b = 32) :=
  Bytes_field 32 ltac:(lia).
#[export] Instance Addr_field : Field BodyReader_Addr id (fun b => zlen b = 20) :=
  Bytes_field 20 ltac:(lia).
#[export] Instance PubKey_field : Field BodyReader_PubKey id (fun b => zlen b = 33) :=
  Bytes_field 33 ltac:(lia).

(** The three integer readers share this shape. *)
Lemma uint_field (n : nat) (e : string) (m : Reader Z) :
  m = (fun r => if BodyReader_remaining r <? Z.of_nat n then Err e
                else let '(b, r) := advance n r in Ok (le_combine b, r)) ->
  Field m (le_split n) (uint_ok (8 * Z.of_nat n)).
Proof.
  intros ->. split.
  - intros v Hv pre post. rewrite remaining_at, zlen_app.
    pose proof (zlen_nonneg post). unfold zlen at 1. rewrite length_le_split.
    rewrite (proj2 (Z.ltb_ge _ _)) by lia.
    rewrite <- (length_le_split n v) at 1. rewrite advance_at.
    by rewrite le_combine_split_small.
  - intros pre post v r'. rewrite remaining_at. intros H; res_inv H; zbool.
    destruct (zlen_split post (Z.of_nat n)) as (x & y & -> & Hx); [lia|].
    assert (n = length x) as -> by (unfold zlen in Hx; lia).
    rewrite advance_at in Em. simplify_eq.
    split; [apply le_combine_ok|]. exists y. by rewrite split_le_combine'.
  - intros pre post. destruct (_ <? _); cbn; auto with res.
Qed.

#[export] Instance Uint32_field : Field BodyReader_Uint32 (le_split 4) u32_ok.
Proof. by apply (uint_field 4 "xbridge: body underflow (uint32)"). Qed.
#[export] Instance Uint64_field : Field BodyReader_Uint64 (le_split 8) u64_ok.
Proof. by apply (uint_field 8 "xbridge: body underflow (uint64)"). Qed.
#[export] Instance Uint16_field : Field BodyReader_Uint16 (le_split 2) u16_ok.
Proof. by apply (uint_field 2 "xbridge: body underflow (uint16)"). Qed.

(** *** NUL-terminated strings *)

Definition nul_free (s : bytes) : Prop := x00 ∉ s.
#[export] Instance nul_free_dec s : Decision (nul_free s).
Proof. unfold nul_free; apply _. Defined.

Definition string_field (s : bytes) : bytes := s ++ [x00].

Lemma scan_nul_app s post : nul_free s -> scan_nul (s ++ x00 :: post) = Some (length s).
Proof.
  unfold nul_free. induction s as [|c s IH]; intros H; [done|].
  rewrite not_elem_of_cons in H. destruct H as [Hc Hs]. cbn. rewrite IH by done.
  by destruct c.
Qed.

Lemma scan_nul_some l n :
  scan_nul l = Some n ->
  exists post, l = take n l ++ x00 :: post /\ nul_free (take n l) /\ length (take n l) = n.
Proof.
  revert n; induction l as [|c l IH]; intros n H; cbn in H; [done|].
  destruct (decide (c = x00)) as [->|Hc].
  { simplify_eq. exists l. split; [done|]. split; [apply not_elem_of_nil|done]. }
  assert (S <$> scan_nul l = Some n) as H' by (by destruct c). clear H.
  apply fmap_Some in H' as (k & Hk & ->). destruct (IH k Hk) as (post & Hl & Hf & Hn).
  exists post. cbn. rewrite <- Hl, Hn. split_and!; [done| |done].
  by apply not_elem_of_cons.
Qed.

#[export] Instance String_field : Field BodyReader_String string_field nul_free.
Proof.
  split.
  - intros s Hs pre post. unfold BodyReader_String, string_field, reader_at; cbn.
    rewrite drop_app_length, <- app_assoc; cbn. rewrite scan_nul_app by done.
    rewrite take_app_length, <- !app_assoc. cbn. rewrite !length_app. cbn.
    by rewrite Nat.add_assoc.
  - intros pre post s r'. unfold BodyReader_String, reader_at; cbn.
    rewrite drop_app_length. intros H; res_inv H. simplify_eq.
    destruct (scan_nul_some _ _ Em) as (post' & Hl & Hf & Hn).
    split; [done|]. exists post'. unfold string_field. rewrite <- app_assoc.
    split; [done|]. f_equal.
    + by rewrite <- !app_assoc; cbn; rewrite <- Hl.
    + rewrite !length_app, Hn. cbn. lia.
  - intros pre post. unfold BodyReader_String.
    by destruct (scan_nul _).
Qed.

(** *** Currency codes: at most 8 bytes, no trailing NUL *)

Definition currency_ok (s : bytes) : Prop :=
  zlen s <= 8 /\ last s <> Some x00.
#[export] Instance currency_ok_dec s : Decision (currency_ok s).
Proof. unfold currency_ok; apply _. Defined.

Lemma repeat_snoc {A} (a : A) k : repeat a (S k) = repeat a k ++ [a].
Proof. apply repeat_cons. Qed.

Lemma trim_end_app b k m : (m <= length b)%nat -> trim_end (b ++ k) m = trim_end b m.
Proof.
  induction m as [|m IH]; intros Hm; [done|]. cbn.
  rewrite lookup_app_l by lia. by rewrite IH by lia.
Qed.

Lemma trim_end_stop s : last s <> Some x00 -> trim_end s (length s) = length s.
Proof.
  rewrite last_lookup. destruct (length s) as [|n]; [done|]. cbn.
  by destruct (s !! n) as [[]|].
Qed.

Lemma trim_end_pad s k :
  last s <> Some x00 -> trim_end (s ++ repeat x00 k) (length s + k) = length s.
Proof.
  intros Hs. induction k as [|k IH].
  - by rewrite Nat.add_0_r, app_nil_r, trim_end_stop.
  - rewrite Nat.add_succ_r, repeat_snoc, app_assoc. cbn.
    rewrite lookup_app_r; rewrite length_app, repeat_length; [|lia].
    rewrite Nat.sub_diag. cbn. rewrite trim_end_app; [done|].
    rewrite length_app, repeat_length. lia.
Qed.

Lemma trim_end_spec b m :
  (m <= length b)%nat ->
  (trim_end b m <= m)%nat /\
  last (take (trim_end b m) b) <> Some x00 /\
  take m b = take (trim_end b m) b ++ repeat x00 (m - trim_end b m).
Proof.
  induction m as [|m IH]; intros Hm; [cbn; done|].
  destruct (lookup_lt_is_Some_2 b m ltac:(lia)) as [c Hc].
  cbn [trim_end]. rewrite Hc. destruct (decide (c = x00)) as [->|Hne].
  - destruct IH as (H1 & H2 & H3); [lia|]. split_and!; [lia|done|].
    rewrite (take_S_r _ _ _ Hc), H3.
    rewrite (Nat.sub_succ_l _ _ H1), repeat_snoc, app_assoc. done.
  - assert (Hgoal : trim_end b (S m) = S m) by (cbn; rewrite Hc; by destruct c).
    assert ((S m <= S m)%nat /\ last (take (S m) b) <> Some x00 /\
      take (S m) b = take (S m) b ++ repeat x00 (S m - S m)) as G.
    { split_and!; [lia| |by rewrite Nat.sub_diag, app_nil_r].
      rewrite (take_S_r _ _ _ Hc), last_snoc. congruence. }
    cbn in Hgoal. rewrite Hc in Hgoal. by rewrite Hgoal.
Qed.

#[export] Instance Currency_field : Field BodyReader_Currency currency_field currency_ok.
Proof.
  split.
  - intros s [Hl Hs] pre post. unfold zlen in Hl.
    assert (currency_field s = s ++ repeat x00 (8 - length s)) as Hf.
    { unfold currency_field. by rewrite take_ge by lia. }
    assert (length (currency_field s) = 8%nat) as H8.
    { rewrite Hf, length_app, repeat_length. lia. }
    unfold BodyReader_Currency, mbind, Reader_bind.
    rewrite (Bytes_reads 8 (currency_field s)) by (unfold zlen; lia).
    cbn -[take trim_end]. unfold mret, Reader_ret. do 2 f_equal.
    rewrite H8, Hf. replace 8%nat with (length s + (8 - length s))%nat at 2 by lia.
    rewrite trim_end_pad by done. by rewrite take_app_length.
  - intros pre post s r' H. unfold BodyReader_Currency, mbind, Reader_bind in H.
    destruct (BodyReader_Bytes 8 (reader_at pre post)) as [[b r]| |] eqn:E; try done.
    unfold mret, Reader_ret in H. simplify_eq.
    destruct (Bytes_consumes _ _ _ _ _ E) as (Hb & post' & -> & ->).
    assert (length b = 8%nat) as H8 by (unfold zlen in Hb; lia).
    destruct (trim_end_spec b (length b)) as (H1 & H2 & H3); [lia|]. rewrite H8 in *.
    assert (currency_field (take (trim_end b 8) b) = b) as ->.
    { unfold currency_field. rewrite (take_ge (take _ _)) by (rewrite length_take; lia).
      rewrite length_take, H8, Nat.min_l by lia.
      rewrite <- H3. by rewrite take_ge by lia. }
    split; [|eauto]. split; [|done]. unfold zlen. rewrite length_take. lia.
  - intros pre post. unfold BodyReader_Currency, mbind, Reader_bind.
    pose proof (Bytes_total 8 ltac:(lia) pre post) as Hp.
    by destruct (BodyReader_Bytes 8 (reader_at pre post)) as [[]| |].
Qed.

Lemma currency_field_length s : zlen (currency_field s) = 8.
Proof.
  unfold currency_field, zlen. rewrite length_app, repeat_length, length_take. lia.
Qed.
