(* ===== verification/Bodies.v ===== *)
(** * proto/command.go and proto/body_types.go: commands and body layouts

    One record, [_Marshal], [_Unmarshal] and well-formedness predicate per
    [XBridgeCommand] body, the [DecodeBody] dispatch, and, through the class
    [BodyCodec], the round trip, canonicity and totality of each of them.

    A 32-, 20- or 33-byte Go array is a byte list whose length the [_wf]
    predicate fixes.  On an error Go returns the half-filled struct next to
    the error; every caller drops it, and so does [res]. *)

From S2P Require Import Prelude Codec.

Open Scope xb_scope.

(** ** Commands *)

Definition XbcInvalid : Z := 0.
Definition XbcXChatMessage : Z := 2.
Definition XbcTransaction : Z := 3.
Definition XbcPendingTransaction : Z := 4.
Definition XbcTransactionAccepting : Z := 5.
Definition XbcTransactionHold : Z := 6.
Definition XbcTransactionHoldApply : Z := 7.
Definition XbcTransactionInit : Z := 8.
Definition XbcTransactionInitialized : Z := 9.
Definition XbcTransactionCreateA : Z := 10.
Definition XbcTransactionCreatedA : Z := 11.
Definition XbcTransactionCreateB : Z := 12.
Definition XbcTransactionCreatedB : Z := 13.
Definition XbcTransactionConfirmA : Z := 18.
Definition XbcTransactionConfirmedA : Z := 19.
Definition XbcTransactionConfirmB : Z := 20.
Definition XbcTransactionConfirmedB : Z := 21.
Definition XbcTransactionCancel : Z := 22.
Definition XbcTransactionFinished : Z := 24.
Definition XbcTransactionReject : Z := 26.
Definition XbcServicesPing : Z := 50.

Definition commandNames : list (Z * string) := [
  (XbcInvalid, "xbcInvalid");
  (XbcXChatMessage, "xbcXChatMessage");
  (XbcTransaction, "xbcTransaction");
  (XbcPendingTransaction, "xbcPendingTransaction");
  (XbcTransactionAccepting, "xbcTransactionAccepting");
  (XbcTransactionHold, "xbcTransactionHold");
  (XbcTransactionHoldApply, "xbcTransactionHoldApply");
  (XbcTransactionInit, "xbcTransactionInit");
  (XbcTransactionInitialized, "xbcTransactionInitialized");
  (XbcTransactionCreateA, "xbcTransactionCreateA");
  (XbcTransactionCreatedA, "xbcTransactionCreatedA");
  (XbcTransactionCreateB, "xbcTransactionCreateB");
  (XbcTransactionCreatedB, "xbcTransactionCreatedB");
  (XbcTransactionConfirmA, "xbcTransactionConfirmA");
  (XbcTransactionConfirmedA, "xbcTransactionConfirmedA");
  (XbcTransactionConfirmB, "xbcTransactionConfirmB");
  (XbcTransactionConfirmedB, "xbcTransactionConfirmedB");
  (XbcTransactionCancel, "xbcTransactionCancel");
  (XbcTransactionFinished, "xbcTransactionFinished");
  (XbcTransactionReject, "xbcTransactionReject");
  (XbcServicesPing, "xbcServicesPing")
]%string.

Definition XBridgeCommand_String (c : Z) : string :=
  match List.find (fun p => fst p =? c) commandNames with
  | Some (_, s) => s
  | None => "xbcUnknown"
  end.

(** ** UtxoEntry and the utxo array *)

Definition maxUtxoEntries : Z := 65536.
Definition minUtxoEntryBytes : Z := 121.

Record UtxoEntry := mkUtxoEntry {
  Utxo_TxID : bytes;
  Utxo_Vout : Z;
  Utxo_RawAddress : bytes;
  Utxo_Signature : bytes
}.

Definition UtxoEntry_marshal (u : UtxoEntry) (w : BodyWriter) : BodyWriter :=
  (w |>> BodyWriter_Hash (Utxo_TxID u)
     |>> BodyWriter_Uint32 (Utxo_Vout u)
     |>> BodyWriter_Addr (Utxo_RawAddress u)
     |>> BodyWriter_Bytes (Utxo_Signature u)).

Definition UtxoEntry_unmarshal : Reader UtxoEntry :=
  vTxID ← BodyReader_Hash;
  vVout ← BodyReader_Uint32;
  vRawAddress ← BodyReader_Addr;
  vSignature ← BodyReader_Bytes 65;
  mret (mkUtxoEntry vTxID vVout vRawAddress vSignature).

Definition UtxoEntry_wf (u : UtxoEntry) : Prop :=
  zlen (Utxo_TxID u) = 32 /\ u32_ok (Utxo_Vout u) /\
  zlen (Utxo_RawAddress u) = 20 /\ zlen (Utxo_Signature u) = 65.

Definition marshalUtxoArray (utxos : list UtxoEntry) (w : BodyWriter) : BodyWriter :=
  fold_left (fun w u => UtxoEntry_marshal u w) utxos
    (w |>> BodyWriter_Uint32 (wrap 32 (zlen utxos))).

(** [utxos := make([]UtxoEntry, n); for i := range utxos { ... }] *)
Fixpoint read_utxos (n : nat) : Reader (list UtxoEntry) :=
  match n with
  | O => mret []
  | S n => u ← UtxoEntry_unmarshal; us ← read_utxos n; mret (u :: us)
  end.

Definition reader_check (c : BodyReader -> bool) (e : string) : Reader unit := fun r =>
  if c r then Err e else Ok (tt, r).

Definition unmarshalUtxoArray : Reader (list UtxoEntry) :=
  n ← BodyReader_Uint32;
  _ ← reader_check (fun _ => maxUtxoEntries <? n) "xbridge: too many utxos in body";
  _ ← reader_check (fun r => BodyReader_remaining r <? n * minUtxoEntryBytes)
        "xbridge: utxo count exceeds body length";
  read_utxos (Z.to_nat n).

(** The length window of the four confirm bodies:
    [if len(data) <= lo || len(data) > 1000 { return err }]. *)
Definition check_length (data : bytes) (lo : Z) (e : string) : Reader unit :=
  reader_check (fun _ => (zlen data <=? lo) || (1000 <? zlen data)) e.

(** ** Body layouts *)

Record OrderBody := mkOrderBody {
  Order_ID : bytes;
  Order_From : bytes;
  Order_FromCurrency : bytes;
  Order_FromAmount : Z;
  Order_To : bytes;
  Order_ToCurrency : bytes;
  Order_ToAmount : Z;
  Order_Created : Z;
  Order_BlockHash : bytes;
  Order_PartialAllowed : bool;
  Order_MinFromAmount : Z;
  Order_Utxos : list UtxoEntry
}.

Definition OrderBody_Marshal (b : OrderBody) : bytes :=
  (NewBodyWriter
   |>> BodyWriter_Hash (Order_ID b)
   |>> BodyWriter_Addr (Order_From b)
   |>> BodyWriter_Currency (Order_FromCurrency b)
   |>> BodyWriter_Uint64 (Order_FromAmount b)
   |>> BodyWriter_Addr (Order_To b)
   |>> BodyWriter_Currency (Order_ToCurrency b)
   |>> BodyWriter_Uint64 (Order_ToAmount b)
   |>> BodyWriter_Uint64 (Order_Created b)
   |>> BodyWriter_Hash (Order_BlockHash b)
   |>> (if Order_PartialAllowed b then BodyWriter_Uint16 1 else BodyWriter_Uint16 0)
   |>> BodyWriter_Uint64 (Order_MinFromAmount b)
   |>> marshalUtxoArray (Order_Utxos b)
   |>> BodyWriter_Payload).

Definition OrderBody_Unmarshal (data : bytes) : res OrderBody :=
  run_reader (
    vID ← BodyReader_Hash;
    vFrom ← BodyReader_Addr;
    vFromCurrency ← BodyReader_Currency;
    vFromAmount ← BodyReader_Uint64;
    vTo ← BodyReader_Addr;
    vToCurrency ← BodyReader_Currency;
    vToAmount ← BodyReader_Uint64;
    vCreated ← BodyReader_Uint64;
    vBlockHash ← BodyReader_Hash;
    pf ← BodyReader_Uint16;
    vMinFromAmount ← BodyReader_Uint64;
    vUtxos ← unmarshalUtxoArray;
    mret (mkOrderBody vID vFrom vFromCurrency vFromAmount vTo vToCurrency vToAmount
            vCreated vBlockHash (negb (pf =? 0)) vMinFromAmount vUtxos)) data.

Definition utxos_wf (us : list UtxoEntry) : Prop :=
  Forall UtxoEntry_wf us /\ zlen us <= maxUtxoEntries.

Definition OrderBody_wf (b : OrderBody) : Prop :=
  zlen (Order_ID b) = 32 /\ zlen (Order_From b) = 20 /\
  currency_ok (Order_FromCurrency b) /\ u64_ok (Order_FromAmount b) /\
  zlen (Order_To b) = 20 /\ currency_ok (Order_ToCurrency b) /\
  u64_ok (Order_ToAmount b) /\ u64_ok (Order_Created b) /\
  zlen (Order_BlockHash b) = 32 /\ u64_ok (Order_MinFromAmount b) /\
  utxos_wf (Order_Utxos b).

Record PendingTransactionBody := mkPendingTransactionBody {
  Pending_ID : bytes;
  Pending_FromCurrency : bytes;
  Pending_FromAmount : Z;
  Pending_ToCurrency : bytes;
  Pending_ToAmount : Z;
  Pending_HubAddress : bytes;
  Pending_Created : Z;
  Pending_BlockHash : bytes;
  Pending_PartialAllowed : bool;
  Pending_MinFromAmount : Z
}.

Definition PendingTransactionBody_Marshal (b : PendingTransactionBody) : bytes :=
  (NewBodyWriter
   |>> BodyWriter_Hash (Pending_ID b)
   |>> BodyWriter_Currency (Pending_FromCurrency b)
   |>> BodyWriter_Uint64 (Pending_FromAmount b)
   |>> BodyWriter_Currency (Pending_ToCurrency b)
   |>> BodyWriter_Uint64 (Pending_ToAmount b)
   |>> BodyWriter_Addr (Pending_HubAddress b)
   |>> BodyWriter_Uint64 (Pending_Created b)
   |>> BodyWriter_Hash (Pending_BlockHash b)
   |>> (if Pending_PartialAllowed b then BodyWriter_Uint16 1 else BodyWriter_Uint16 0)
   |>> BodyWriter_Uint64 (Pending_MinFromAmount b)
   |>> BodyWriter_Payload).

(** The optional tail: absent (126-byte form), exactly 8 bytes, or malformed. *)
Definition read_optional_min : Reader Z := fun r =>
  if BodyReader_remaining r =? 0 then Ok (0, r)
  else if BodyReader_remaining r =? 8 then BodyReader_Uint64 r
  else Err "xbridge: malformed xbcPendingTransaction body length".

Definition PendingTransactionBody_Unmarshal (data : bytes) : res PendingTransactionBody :=
  run_reader (
    vID ← BodyReader_Hash;
    vFromCurrency ← BodyReader_Currency;
    vFromAmount ← BodyReader_Uint64;
    vToCurrency ← BodyReader_Currency;
    vToAmount ← BodyReader_Uint64;
    vHubAddress ← BodyReader_Addr;
    vCreated ← BodyReader_Uint64;
    vBlockHash ← BodyReader_Hash;
    pf ← BodyReader_Uint16;
    vMinFromAmount ← read_optional_min;
    mret (mkPendingTransactionBody vID vFromCurrency vFromAmount vToCurrency vToAmount
            vHubAddress vCreated vBlockHash (negb (pf =? 0)) vMinFromAmount)) data.

Definition PendingTransactionBody_wf (b : PendingTransactionBody) : Prop :=
  zlen (Pending_ID b) = 32 /\ currency_ok (Pending_FromCurrency b) /\
  u64_ok (Pending_FromAmount b) /\ currency_ok (Pending_ToCurrency b) /\
  u64_ok (Pending_ToAmount b) /\ zlen (Pending_HubAddress b) = 20 /\
  u64_ok (Pending_Created b) /\ zlen (Pending_BlockHash b) = 32 /\
  u64_ok (Pending_MinFromAmount b).

Record AcceptingBody := mkAcceptingBody {
  Accepting_HubAddress : bytes;
  Accepting_ID : bytes;
  Accepting_ServiceNodeFeeTx : bytes;
  Accepting_From : bytes;
  Accepting_FromCurrency : bytes;
  Accepting_FromAmount : Z;
  Accepting_FromBlockHeight : Z;
  Accepting_FromBlockHash : bytes;
  Accepting_To : bytes;
  Accepting_ToCurrency : bytes;
  Accepting_ToAmount : Z;
  Accepting_ToBlockHeight : Z;
  Accepting_ToBlockHash : bytes;
  Accepting_Utxos : list UtxoEntry
}.

Definition AcceptingBody_Marshal (b : AcceptingBody) : bytes :=
  (NewBodyWriter
   |>> BodyWriter_Addr (Accepting_HubAddress b)
   |>> BodyWriter_Hash (Accepting_ID b)
   |>> BodyWriter_Uint32 (wrap 32 (zlen (Accepting_ServiceNodeFeeTx b)))
   |>> BodyWriter_Bytes (Accepting_ServiceNodeFeeTx b)
   |>> BodyWriter_Addr (Accepting_From b)
   |>> BodyWriter_Currency (Accepting_FromCurrency b)
   |>> BodyWriter_Uint64 (Accepting_FromAmount b)
   |>> BodyWriter_Uint32 (Accepting_FromBlockHeight b)
   |>> BodyWriter_Bytes (Accepting_FromBlockHash b)
   |>> BodyWriter_Addr (Accepting_To b)
   |>> BodyWriter_Currency (Accepting_ToCurrency b)
   |>> BodyWriter_Uint64 (Accepting_ToAmount b)
   |>> BodyWriter_Uint32 (Accepting_ToBlockHeight b)
   |>> BodyWriter_Bytes (Accepting_ToBlockHash b)
   |>> marshalUtxoArray (Accepting_Utxos b)
   |>> BodyWriter_Payload).

Definition AcceptingBody_Unmarshal (data : bytes) : res AcceptingBody :=
  run_reader (
    vHubAddress ← BodyReader_Addr;
    vID ← BodyReader_Hash;
    n ← BodyReader_Uint32;
    vServiceNodeFeeTx ← BodyReader_Bytes n;
    vFrom ← BodyReader_Addr;
    vFromCurrency ← BodyReader_Currency;
    vFromAmount ← BodyReader_Uint64;
    vFromBlockHeight ← BodyReader_Uint32;
    fbh ← BodyReader_Bytes 8;
    vTo ← BodyReader_Addr;
    vToCurrency ← BodyReader_Currency;
    vToAmount ← BodyReader_Uint64;
    vToBlockHeight ← BodyReader_Uint32;
    tbh ← BodyReader_Bytes 8;
    vUtxos ← unmarshalUtxoArray;
    mret (mkAcceptingBody vHubAddress vID vServiceNodeFeeTx vFrom vFromCurrency
            vFromAmount vFromBlockHeight fbh vTo vToCurrency vToAmount
            vToBlockHeight tbh vUtxos)) data.

Definition AcceptingBody_wf (b : AcceptingBody) : Prop :=
  zlen (Accepting_HubAddress b) = 20 /\ zlen (Accepting_ID b) = 32 /\
  u32_ok (zlen (Accepting_ServiceNodeFeeTx b)) /\
  zlen (Accepting_From b) = 20 /\ currency_ok (Accepting_FromCurrency b) /\
  u64_ok (Accepting_FromAmount b) /\ u32_ok (Accepting_FromBlockHeight b) /\
  zlen (Accepting_FromBlockHash b) = 8 /\
  zlen (Accepting_To b) = 20 /\ currency_ok (Accepting_ToCurrency b) /\
  u64_ok (Accepting_ToAmount b) /\ u32_ok (Accepting_ToBlockHeight b) /\
  zlen (Accepting_ToBlockHash b) = 8 /\ utxos_wf (Accepting_Utxos b).

Record HoldBody := mkHoldBody {
  Hold_HubAddress : bytes;
  Hold_ID : bytes;
  Hold_FromAmount : Z;
  Hold_ToAmount : Z
}.

Definition HoldBody_Marshal (b : HoldBody) : bytes :=
  (NewBodyWriter
   |>> BodyWriter_Addr (Hold_HubAddress b)
   |>> BodyWriter_Hash (Hold_ID b)
   |>> BodyWriter_Uint64 (Hold_FromAmount b)
   |>> BodyWriter_Uint64 (Hold_ToAmount b)
   |>> BodyWriter_Payload).

Definition HoldBody_Unmarshal (data : bytes) : res HoldBody :=
  run_reader (
    vHubAddress ← BodyReader_Addr;
    vID ← BodyReader_Hash;
    vFromAmount ← BodyReader_Uint64;
    vToAmount ← BodyReader_Uint64;
    _ ← expect_end "xbridge: trailing bytes in xbcTransactionHold body";
    mret (mkHoldBody vHubAddress vID vFromAmount vToAmount)) data.

Definition HoldBody_wf (b : HoldBody) : Prop :=
  zlen (Hold_HubAddress b) = 20 /\
  zlen (Hold_ID b) = 32 /\
  u64_ok (Hold_FromAmount b) /\
  u64_ok (Hold_ToAmount b).

Record HoldApplyBody := mkHoldApplyBody {
  HoldApply_HubAddress : bytes;
  HoldApply_ClientAddress : bytes;
  HoldApply_ID : bytes
}.

Definition HoldApplyBody_Marshal (b : HoldApplyBody) : bytes :=
  (NewBodyWriter
   |>> BodyWriter_Addr (HoldApply_HubAddress b)
   |>> BodyWriter_Addr (HoldApply_ClientAddress b)
   |>> BodyWriter_Hash (HoldApply_ID b)
   |>> BodyWriter_Payload).

Definition HoldApplyBody_Unmarshal (data : bytes) : res HoldApplyBody :=
  run_reader (
    vHubAddress ← BodyReader_Addr;
    vClientAddress ← BodyReader_Addr;
    vID ← BodyReader_Hash;
    _ ← expect_end "xbridge: trailing bytes in xbcTransactionHoldApply body";
    mret (mkHoldApplyBody vHubAddress vClientAddress vID)) data.

Definition HoldApplyBody_wf (b : HoldApplyBody) : Prop :=
  zlen (HoldApply_HubAddress b) = 20 /\
  zlen (HoldApply_ClientAddress b) = 20 /\
  zlen (HoldApply_ID b) = 32.

Record InitBody := mkInitBody {
  Init_ClientAddress : bytes;
  Init_HubAddress : bytes;
  Init_ID : bytes;
  Init_FromAddress : bytes;
  Init_FromCurrency : bytes;
  Init_FromAmount : Z;
  Init_ToAddress : bytes;
  Init_ToCurrency : bytes;
  Init_ToAmount : Z
}.

Definition InitBody_Marshal (b : InitBody) : bytes :=
  (NewBodyWriter
   |>> BodyWriter_Addr (Init_ClientAddress b)
   |>> BodyWriter_Addr (Init_HubAddress b)
   |>> BodyWriter_Hash (Init_ID b)
   |>> BodyWriter_Addr (Init_FromAddress b)
   |>> BodyWriter_Currency (Init_FromCurrency b)
   |>> BodyWriter_Uint64 (Init_FromAmount b)
   |>> BodyWriter_Addr (Init_ToAddress b)
   |>> BodyWriter_Currency (Init_ToCurrency b)
   |>> BodyWriter_Uint64 (Init_ToAmount b)
   |>> BodyWriter_Payload).

Definition InitBody_Unmarshal (data : bytes) : res InitBody :=
  run_reader (
    vClientAddress ← BodyReader_Addr;
    vHubAddress ← BodyReader_Addr;
    vID ← BodyReader_Hash;
    vFromAddress ← BodyReader_Addr;
    vFromCurrency ← BodyReader_Currency;
    vFromAmount ← BodyReader_Uint64;
    vToAddress ← BodyReader_Addr;
    vToCurrency ← BodyReader_Currency;
    vToAmount ← BodyReader_Uint64;
    _ ← expect_end "xbridge: trailing bytes in xbcTransactionInit body";
    mret (mkInitBody vClientAddress vHubAddress vID vFromAddress vFromCurrency vFromAmount vToAddress vToCurrency vToAmount)) data.

Definition InitBody_wf (b : InitBody) : Prop :=
  zlen (Init_ClientAddress b) = 20 /\
  zlen (Init_HubAddress b) = 20 /\
  zlen (Init_ID b) = 32 /\
  zlen (Init_FromAddress b) = 20 /\
  currency_ok (Init_FromCurrency b) /\
  u64_ok (Init_FromAmount b) /\
  zlen (Init_ToAddress b) = 20 /\
  currency_ok (Init_ToCurrency b) /\
  u64_ok (Init_ToAmount b).

Record InitializedBody := mkInitializedBody {
  Initialized_HubAddress : bytes;
  Initialized_ClientAddress : bytes;
  Initialized_ID : bytes
}.

Definition InitializedBody_Marshal (b : InitializedBody) : bytes :=
  (NewBodyWriter
   |>> BodyWriter_Addr (Initialized_HubAddress b)
   |>> BodyWriter_Addr (Initialized_ClientAddress b)
   |>> BodyWriter_Hash (Initialized_ID b)
   |>> BodyWriter_Payload).

Definition InitializedBody_Unmarshal (data : bytes) : res InitializedBody :=
  run_reader (
    vHubAddress ← BodyReader_Addr;
    vClientAddress ← BodyReader_Addr;
    vID ← BodyReader_Hash;
    _ ← expect_end "xbridge: trailing bytes in xbcTransactionInitialized body";
    mret (mkInitializedBody vHubAddress vClientAddress vID)) data.

Definition InitializedBody_wf (b : InitializedBody) : Prop :=
  zlen (Initialized_HubAddress b) = 20 /\
  zlen (Initialized_ClientAddress b) = 20 /\
  zlen (Initialized_ID b) = 32.

Record CreateABody := mkCreateABody {
  CreateA_HubAddress : bytes;
  CreateA_ID : bytes;
  CreateA_BPubKey : bytes
}.

Definition CreateABody_Marshal (b : CreateABody) : bytes :=
  (NewBodyWriter
   |>> BodyWriter_Addr (CreateA_HubAddress b)
   |>> BodyWriter_Hash (CreateA_ID b)
   |>> BodyWriter_PubKey (CreateA_BPubKey b)
   |>> BodyWriter_Payload).

Definition CreateABody_Unmarshal (data : bytes) : res CreateABody :=
  run_reader (
    vHubAddress ← BodyReader_Addr;
    vID ← BodyReader_Hash;
    vBPubKey ← BodyReader_PubKey;
    _ ← expect_end "xbridge: trailing bytes in xbcTransactionCreateA body";
    mret (mkCreateABody vHubAddress vID vBPubKey)) data.

Definition CreateABody_wf (b : CreateABody) : Prop :=
  zlen (CreateA_HubAddress b) = 20 /\
  zlen (CreateA_ID b) = 32 /\
  zlen (CreateA_BPubKey b) = 33.

Record CreatedABody := mkCreatedABody {
  CreatedA_HubAddress : bytes;
  CreatedA_ID : bytes;
  CreatedA_ADepositTxID : bytes;
  CreatedA_HashedSecret : bytes;
  CreatedA_ALockTime : Z;
  CreatedA_RefTxID : bytes;
  CreatedA_RefTx : bytes
}.

Definition CreatedABody_Marshal (b : CreatedABody) : bytes :=
  (NewBodyWriter
   |>> BodyWriter_Addr (CreatedA_HubAddress b)
   |>> BodyWriter_Hash (CreatedA_ID b)
   |>> BodyWriter_String (CreatedA_ADepositTxID b)
   |>> BodyWriter_Addr (CreatedA_HashedSecret b)
   |>> BodyWriter_Uint32 (CreatedA_ALockTime b)
   |>> BodyWriter_String (CreatedA_RefTxID b)
   |>> BodyWriter_String (CreatedA_RefTx b)
   |>> BodyWriter_Payload).

Definition CreatedABody_Unmarshal (data : bytes) : res CreatedABody :=
  run_reader (
    vHubAddress ← BodyReader_Addr;
    vID ← BodyReader_Hash;
    vADepositTxID ← BodyReader_String;
    vHashedSecret ← BodyReader_Addr;
    vALockTime ← BodyReader_Uint32;
    vRefTxID ← BodyReader_String;
    vRefTx ← BodyReader_String;
    mret (mkCreatedABody vHubAddress vID vADepositTxID vHashedSecret vALockTime vRefTxID vRefTx)) data.

Definition CreatedABody_wf (b : CreatedABody) : Prop :=
  zlen (CreatedA_HubAddress b) = 20 /\
  zlen (CreatedA_ID b) = 32 /\
  nul_free (CreatedA_ADepositTxID b) /\
  zlen (CreatedA_HashedSecret b) = 20 /\
  u32_ok (CreatedA_ALockTime b) /\
  nul_free (CreatedA_RefTxID b) /\
  nul_free (CreatedA_RefTx b).

Record CreateBBody := mkCreateBBody {
  CreateB_HubAddress : bytes;
  CreateB_ID : bytes;
  CreateB_APubKey : bytes;
  CreateB_ADepositTxID : bytes;
  CreateB_HashedSecret : bytes;
  CreateB_ALockTime : Z
}.

Definition CreateBBody_Marshal (b : CreateBBody) : bytes :=
  (NewBodyWriter
   |>> BodyWriter_Addr (CreateB_HubAddress b)
   |>> BodyWriter_Hash (CreateB_ID b)
   |>> BodyWriter_PubKey (CreateB_APubKey b)
   |>> BodyWriter_String (CreateB_ADepositTxID b)
   |>> BodyWriter_Addr (CreateB_HashedSecret b)
   |>> BodyWriter_Uint32 (CreateB_ALockTime b)
   |>> BodyWriter_Payload).

Definition CreateBBody_Unmarshal (data : bytes) : res CreateBBody :=
  run_reader (
    vHubAddress ← BodyReader_Addr;
    vID ← BodyReader_Hash;
    vAPubKey ← BodyReader_PubKey;
    vADepositTxID ← BodyReader_String;
    vHashedSecret ← BodyReader_Addr;
    vALockTime ← BodyReader_Uint32;
    mret (mkCreateBBody vHubAddress vID vAPubKey vADepositTxID vHashedSecret vALockTime)) data.

Definition CreateBBody_wf (b : CreateBBody) : Prop :=
  zlen (CreateB_HubAddress b) = 20 /\
  zlen (CreateB_ID b) = 32 /\
  zlen (CreateB_APubKey b) = 33 /\
  nul_free (CreateB_ADepositTxID b) /\
  zlen (CreateB_HashedSecret b) = 20 /\
  u32_ok (CreateB_ALockTime b).

Record CreatedBBody := mkCreatedBBody {
  CreatedB_HubAddress : bytes;
  CreatedB_ID : bytes;
  CreatedB_BDepositTxID : bytes;
  CreatedB_BLockTime : Z;
  CreatedB_RefTxID : bytes;
  CreatedB_RefTx : bytes
}.

Definition CreatedBBody_Marshal (b : CreatedBBody) : bytes :=
  (NewBodyWriter
   |>> BodyWriter_Addr (CreatedB_HubAddress b)
   |>> BodyWriter_Hash (CreatedB_ID b)
   |>> BodyWriter_String (CreatedB_BDepositTxID b)
   |>> BodyWriter_Uint32 (CreatedB_BLockTime b)
   |>> BodyWriter_String (CreatedB_RefTxID b)
   |>> BodyWriter_String (CreatedB_RefTx b)
   |>> BodyWriter_Payload).

Definition CreatedBBody_Unmarshal (data : bytes) : res CreatedBBody :=
  run_reader (
    vHubAddress ← BodyReader_Addr;
    vID ← BodyReader_Hash;
    vBDepositTxID ← BodyReader_String;
    vBLockTime ← BodyReader_Uint32;
    vRefTxID ← BodyReader_String;
    vRefTx ← BodyReader_String;
    mret (mkCreatedBBody vHubAddress vID vBDepositTxID vBLockTime vRefTxID vRefTx)) data.

Definition CreatedBBody_wf (b : CreatedBBody) : Prop :=
  zlen (CreatedB_HubAddress b) = 20 /\
  zlen (CreatedB_ID b) = 32 /\
  nul_free (CreatedB_BDepositTxID b) /\
  u32_ok (CreatedB_BLockTime b) /\
  nul_free (CreatedB_RefTxID b) /\
  nul_free (CreatedB_RefTx b).

Record ConfirmABody := mkConfirmABody {
  ConfirmA_HubAddress : bytes;
  ConfirmA_ID : bytes;
  ConfirmA_BDepositTxID : bytes;
  ConfirmA_BLockTime : Z
}.

Definition ConfirmABody_Marshal (b : ConfirmABody) : bytes :=
  (NewBodyWriter
   |>> BodyWriter_Addr (ConfirmA_HubAddress b)
   |>> BodyWriter_Hash (ConfirmA_ID b)
   |>> BodyWriter_String (ConfirmA_BDepositTxID b)
   |>> BodyWriter_Uint32 (ConfirmA_BLockTime b)
   |>> BodyWriter_Payload).

Definition ConfirmABody_Unmarshal (data : bytes) : res ConfirmABody :=
  run_reader (
    vHubAddress ← BodyReader_Addr;
    vID ← BodyReader_Hash;
    vBDepositTxID ← BodyReader_String;
    vBLockTime ← BodyReader_Uint32;
    _ ← check_length data 56 "xbridge: bad length in xbcTransactionConfirmA body";
    mret (mkConfirmABody vHubAddress vID vBDepositTxID vBLockTime)) data.

Definition ConfirmABody_wf (b : ConfirmABody) : Prop :=
  zlen (ConfirmA_HubAddress b) = 20 /\
  zlen (ConfirmA_ID b) = 32 /\
  nul_free (ConfirmA_BDepositTxID b) /\
  u32_ok (ConfirmA_BLockTime b) /\
  zlen (ConfirmABody_Marshal b) <= 1000.

Record ConfirmedABody := mkConfirmedABody {
  ConfirmedA_HubAddress : bytes;
  ConfirmedA_ID : bytes;
  ConfirmedA_APayTxID : bytes
}.

Definition ConfirmedABody_Marshal (b : ConfirmedABody) : bytes :=
  (NewBodyWriter
   |>> BodyWriter_Addr (ConfirmedA_HubAddress b)
   |>> BodyWriter_Hash (ConfirmedA_ID b)
   |>> BodyWriter_String (ConfirmedA_APayTxID b)
   |>> BodyWriter_Payload).

Definition ConfirmedABody_Unmarshal (data : bytes) : res ConfirmedABody :=
  run_reader (
    vHubAddress ← BodyReader_Addr;
    vID ← BodyReader_Hash;
    vAPayTxID ← BodyReader_String;
    _ ← check_length data 52 "xbridge: bad length in xbcTransactionConfirmedA body";
    mret (mkConfirmedABody vHubAddress vID vAPayTxID)) data.

Definition ConfirmedABody_wf (b : ConfirmedABody) : Prop :=
  zlen (ConfirmedA_HubAddress b) = 20 /\
  zlen (ConfirmedA_ID b) = 32 /\
  nul_free (ConfirmedA_APayTxID b) /\
  zlen (ConfirmedABody_Marshal b) <= 1000.

Record ConfirmBBody := mkConfirmBBody {
  ConfirmB_HubAddress : bytes;
  ConfirmB_ID : bytes;
  ConfirmB_APayTxID : bytes
}.

Definition ConfirmBBody_Marshal (b : ConfirmBBody) : bytes :=
  (NewBodyWriter
   |>> BodyWriter_Addr (ConfirmB_HubAddress b)
   |>> BodyWriter_Hash (ConfirmB_ID b)
   |>> BodyWriter_String (ConfirmB_APayTxID b)
   |>> BodyWriter_Payload).

Definition ConfirmBBody_Unmarshal (data : bytes) : res ConfirmBBody :=
  run_reader (
    vHubAddress ← BodyReader_Addr;
    vID ← BodyReader_Hash;
    vAPayTxID ← BodyReader_String;
    _ ← check_length data 52 "xbridge: bad length in xbcTransactionConfirmB body";
    mret (mkConfirmBBody vHubAddress vID vAPayTxID)) data.

Definition ConfirmBBody_wf (b : ConfirmBBody) : Prop :=
  zlen (ConfirmB_HubAddress b) = 20 /\
  zlen (ConfirmB_ID b) = 32 /\
  nul_free (ConfirmB_APayTxID b) /\
  zlen (ConfirmBBody_Marshal b) <= 1000.

Record ConfirmedBBody := mkConfirmedBBody {
  ConfirmedB_HubAddress : bytes;
  ConfirmedB_ID : bytes;
  ConfirmedB_BPayTxID : bytes
}.

Definition ConfirmedBBody_Marshal (b : ConfirmedBBody) : bytes :=
  (NewBodyWriter
   |>> BodyWriter_Addr (ConfirmedB_HubAddress b)
   |>> BodyWriter_Hash (ConfirmedB_ID b)
   |>> BodyWriter_String (ConfirmedB_BPayTxID b)
   |>> BodyWriter_Payload).

Definition ConfirmedBBody_Unmarshal (data : bytes) : res ConfirmedBBody :=
  run_reader (
    vHubAddress ← BodyReader_Addr;
    vID ← BodyReader_Hash;
    vBPayTxID ← BodyReader_String;
    _ ← check_length data 52 "xbridge: bad length in xbcTransactionConfirmedB body";
    mret (mkConfirmedBBody vHubAddress vID vBPayTxID)) data.

Definition ConfirmedBBody_wf (b : ConfirmedBBody) : Prop :=
  zlen (ConfirmedB_HubAddress b) = 20 /\
  zlen (ConfirmedB_ID b) = 32 /\
  nul_free (ConfirmedB_BPayTxID b) /\
  zlen (ConfirmedBBody_Marshal b) <= 1000.

Record CancelBody := mkCancelBody {
  Cancel_ID : bytes;
  Cancel_Reason : Z
}.

Definition CancelBody_Marshal (b : CancelBody) : bytes :=
  (NewBodyWriter
   |>> BodyWriter_Hash (Cancel_ID b)
   |>> BodyWriter_Uint32 (Cancel_Reason b)
   |>> BodyWriter_Payload).

Definition CancelBody_Unmarshal (data : bytes) : res CancelBody :=
  run_reader (
    vID ← BodyReader_Hash;
    vReason ← BodyReader_Uint32;
    _ ← expect_end "xbridge: trailing bytes in xbcTransactionCancel body";
    mret (mkCancelBody vID vReason)) data.

Definition CancelBody_wf (b : CancelBody) : Prop :=
  zlen (Cancel_ID b) = 32 /\
  u32_ok (Cancel_Reason b).

Record RejectBody := mkRejectBody {
  Reject_ID : bytes;
  Reject_Reason : Z
}.

Definition RejectBody_Marshal (b : RejectBody) : bytes :=
  (NewBodyWriter
   |>> BodyWriter_Hash (Reject_ID b)
   |>> BodyWriter_Uint32 (Reject_Reason b)
   |>> BodyWriter_Payload).

Definition RejectBody_Unmarshal (data : bytes) : res RejectBody :=
  run_reader (
    vID ← BodyReader_Hash;
    vReason ← BodyReader_Uint32;
    _ ← expect_end "xbridge: trailing bytes in xbcTransactionReject body";
    mret (mkRejectBody vID vReason)) data.

Definition RejectBody_wf (b : RejectBody) : Prop :=
  zlen (Reject_ID b) = 32 /\
  u32_ok (Reject_Reason b).

Record FinishedBody := mkFinishedBody {
  Finished_ID : bytes
}.

Definition FinishedBody_Marshal (b : FinishedBody) : bytes :=
  (NewBodyWriter
   |>> BodyWriter_Hash (Finished_ID b)
   |>> BodyWriter_Payload).

Definition FinishedBody_Unmarshal (data : bytes) : res FinishedBody :=
  run_reader (
    vID ← BodyReader_Hash;
    _ ← expect_end "xbridge: trailing bytes in xbcTransactionFinished body";
    mret (mkFinishedBody vID)) data.

Definition FinishedBody_wf (b : FinishedBody) : Prop :=
  zlen (Finished_ID b) = 32.
(** ** DecodeBody *)

Inductive Body : Type :=
| Body_Order (b : OrderBody)
| Body_Pending (b : PendingTransactionBody)
| Body_Accepting (b : AcceptingBody)
| Body_Hold (b : HoldBody)
| Body_HoldApply (b : HoldApplyBody)
| Body_Init (b : InitBody)
| Body_Initialized (b : InitializedBody)
| Body_CreateA (b : CreateABody)
| Body_CreatedA (b : CreatedABody)
| Body_CreateB (b : CreateBBody)
| Body_CreatedB (b : CreatedBBody)
| Body_ConfirmA (b : ConfirmABody)
| Body_ConfirmedA (b : ConfirmedABody)
| Body_ConfirmB (b : ConfirmBBody)
| Body_ConfirmedB (b : ConfirmedBBody)
| Body_Cancel (b : CancelBody)
| Body_Finished (b : FinishedBody)
| Body_Reject (b : RejectBody).

Definition DecodeBody (cmd : Z) (body : bytes) : res Body :=
  if cmd =? XbcTransaction then Body_Order <$> OrderBody_Unmarshal body
  else if cmd =? XbcPendingTransaction then Body_Pending <$> PendingTransactionBody_Unmarshal body
  else if cmd =? XbcTransactionAccepting then Body_Accepting <$> AcceptingBody_Unmarshal body
  else if cmd =? XbcTransactionHold then Body_Hold <$> HoldBody_Unmarshal body
  else if cmd =? XbcTransactionHoldApply then Body_HoldApply <$> HoldApplyBody_Unmarshal body
  else if cmd =? XbcTransactionInit then Body_Init <$> InitBody_Unmarshal body
  else if cmd =? XbcTransactionInitialized then Body_Initialized <$> InitializedBody_Unmarshal body
  else if cmd =? XbcTransactionCreateA then Body_CreateA <$> CreateABody_Unmarshal body
  else if cmd =? XbcTransactionCreatedA then Body_CreatedA <$> CreatedABody_Unmarshal body
  else if cmd =? XbcTransactionCreateB then Body_CreateB <$> CreateBBody_Unmarshal body
  else if cmd =? XbcTransactionCreatedB then Body_CreatedB <$> CreatedBBody_Unmarshal body
  else if cmd =? XbcTransactionConfirmA then Body_ConfirmA <$> ConfirmABody_Unmarshal body
  else if cmd =? XbcTransactionConfirmedA then Body_ConfirmedA <$> ConfirmedABody_Unmarshal body
  else if cmd =? XbcTransactionConfirmB then Body_ConfirmB <$> ConfirmBBody_Unmarshal body
  else if cmd =? XbcTransactionConfirmedB then Body_ConfirmedB <$> ConfirmedBBody_Unmarshal body
  else if cmd =? XbcTransactionCancel then Body_Cancel <$> CancelBody_Unmarshal body
  else if cmd =? XbcTransactionFinished then Body_Finished <$> FinishedBody_Unmarshal body
  else if cmd =? XbcTransactionReject then Body_Reject <$> RejectBody_Unmarshal body
  else Err (String.append "xbridge: no typed body for command " (XBridgeCommand_String cmd)).

(** The command a typed body travels under, and its encoding (the
    [responseBody] interface of the api package). *)
Definition body_command (b : Body) : Z :=
  match b with
  | Body_Order _ => XbcTransaction
  | Body_Pending _ => XbcPendingTransaction
  | Body_Accepting _ => XbcTransactionAccepting
  | Body_Hold _ => XbcTransactionHold
  | Body_HoldApply _ => XbcTransactionHoldApply
  | Body_Init _ => XbcTransactionInit
  | Body_Initialized _ => XbcTransactionInitialized
  | Body_CreateA _ => XbcTransactionCreateA
  | Body_CreatedA _ => XbcTransactionCreatedA
  | Body_CreateB _ => XbcTransactionCreateB
  | Body_CreatedB _ => XbcTransactionCreatedB
  | Body_ConfirmA _ => XbcTransactionConfirmA
  | Body_ConfirmedA _ => XbcTransactionConfirmedA
  | Body_ConfirmB _ => XbcTransactionConfirmB
  | Body_ConfirmedB _ => XbcTransactionConfirmedB
  | Body_Cancel _ => XbcTransactionCancel
  | Body_Finished _ => XbcTransactionFinished
  | Body_Reject _ => XbcTransactionReject
  end.

Definition body_marshal (b : Body) : bytes :=
  match b with
  | Body_Order b => OrderBody_Marshal b
  | Body_Pending b => PendingTransactionBody_Marshal b
  | Body_Accepting b => AcceptingBody_Marshal b
  | Body_Hold b => HoldBody_Marshal b
  | Body_HoldApply b => HoldApplyBody_Marshal b
  | Body_Init b => InitBody_Marshal b
  | Body_Initialized b => InitializedBody_Marshal b
  | Body_CreateA b => CreateABody_Marshal b
  | Body_CreatedA b => CreatedABody_Marshal b
  | Body_CreateB b => CreateBBody_Marshal b
  | Body_CreatedB b => CreatedBBody_Marshal b
  | Body_ConfirmA b => ConfirmABody_Marshal b
  | Body_ConfirmedA b => ConfirmedABody_Marshal b
  | Body_ConfirmB b => ConfirmBBody_Marshal b
  | Body_ConfirmedB b => ConfirmedBBody_Marshal b
  | Body_Cancel b => CancelBody_Marshal b
  | Body_Finished b => FinishedBody_Marshal b
  | Body_Reject b => RejectBody_Marshal b
  end.

Definition body_wf (b : Body) : Prop :=
  match b with
  | Body_Order b => OrderBody_wf b
  | Body_Pending b => PendingTransactionBody_wf b
  | Body_Accepting b => AcceptingBody_wf b
  | Body_Hold b => HoldBody_wf b
  | Body_HoldApply b => HoldApplyBody_wf b
  | Body_Init b => InitBody_wf b
  | Body_Initialized b => InitializedBody_wf b
  | Body_CreateA b => CreateABody_wf b
  | Body_CreatedA b => CreatedABody_wf b
  | Body_CreateB b => CreateBBody_wf b
  | Body_CreatedB b => CreatedBBody_wf b
  | Body_ConfirmA b => ConfirmABody_wf b
  | Body_ConfirmedA b => ConfirmedABody_wf b
  | Body_ConfirmB b => ConfirmBBody_wf b
  | Body_ConfirmedB b => ConfirmedBBody_wf b
  | Body_Cancel b => CancelBody_wf b
  | Body_Finished b => FinishedBody_wf b
  | Body_Reject b => RejectBody_wf b
  end.

(** ** The codec interface *)

(** How a decoded input relates to the canonical encoding: the whole input,
    a prefix of it (the decoder ignores the rest), or equal up to the
    partial-order flag and the optional tail. *)
Inductive Tail := Exact | Prefix | Lax.

Class BodyCodec {T} (marshal : T -> bytes) (unmarshal : bytes -> res T)
    (wf : T -> Prop) (tl : Tail) : Prop := {
  codec_roundtrip : forall b, wf b -> unmarshal (marshal b) = Ok b;
  codec_sound : forall d b, unmarshal d = Ok b ->
    wf b /\ match tl with
            | Exact => d = marshal b
            | Prefix => exists rest, d = marshal b ++ rest
            | Lax => True
            end;
  codec_total : forall d, no_panic (unmarshal d);
}.

(** *** Composition: one step of a reader sequence, in each direction *)

Lemma field_step {A B} (m : Reader A) enc wf `{!Field m enc wf}
    (k : A -> Reader B) pre a post d c :
  d = enc a ++ post -> wf a -> k a (reader_at (pre ++ enc a) post) = c ->
  (m ≫= k) (reader_at pre d) = c.
Proof. intros -> Hw. unfold mbind, Reader_bind. by rewrite (field_reads a Hw). Qed.

(** Read one field forwards, in a goal [(m ≫= k) (reader_at pre d) = c]. *)
Ltac read_field := eapply field_step; [apply _|reflexivity|try done|cbn beta].

Lemma field_inv {A B} (m : Reader A) enc wf `{!Field m enc wf}
    (k : A -> Reader B) pre post b r' :
  (m ≫= k) (reader_at pre post) = Ok (b, r') ->
  exists a post', wf a /\ post = enc a ++ post' /\
    k a (reader_at (pre ++ enc a) post') = Ok (b, r').
Proof.
  unfold mbind, Reader_bind. destruct (m _) as [[a r]| |] eqn:E; try done.
  destruct (field_consumes _ _ _ _ E) as (Hw & post' & -> & ->). eauto 6.
Qed.

Lemma field_no_panic {A B} (m : Reader A) enc wf `{!Field m enc wf}
    (k : A -> Reader B) pre post :
  (forall a pre' post', wf a -> no_panic (k a (reader_at pre' post'))) ->
  no_panic ((m ≫= k) (reader_at pre post)).
Proof.
  intros Hk. unfold mbind, Reader_bind. pose proof (field_total pre post) as Ht.
  destruct (m _) as [[a r]| |] eqn:E; try done.
  destruct (field_consumes _ _ _ _ E) as (Hw & post' & -> & ->). by apply Hk.
Qed.

(** Read one field backwards, in a hypothesis [(m ≫= k) (reader_at pre d) = Ok _]. *)
Ltac inv_field H :=
  let a := fresh "a" in let p := fresh "post" in let w := fresh "Hw" in
  apply (field_inv _ _ _) in H as (a & p & w & -> & H).

(** Checks consume nothing. *)
Lemma check_step {B} c e (k : unit -> Reader B) r :
  c r = false -> (reader_check c e ≫= k) r = k tt r.
Proof. intros H. unfold mbind, Reader_bind, reader_check. by rewrite H. Qed.

Lemma check_inv {B} c e (k : unit -> Reader B) r b r' :
  (reader_check c e ≫= k) r = Ok (b, r') -> c r = false /\ k tt r = Ok (b, r').
Proof. unfold mbind, Reader_bind, reader_check. by destruct (c r). Qed.

Lemma check_no_panic {B} c e (k : unit -> Reader B) r :
  no_panic (k tt r) -> no_panic ((reader_check c e ≫= k) r).
Proof. unfold mbind, Reader_bind, reader_check. by destruct (c r). Qed.

Lemma end_step {B} e (k : unit -> Reader B) pre c :
  k tt (reader_at pre []) = c -> (expect_end e ≫= k) (reader_at pre []) = c.
Proof. intros <-. unfold mbind, Reader_bind, expect_end. by rewrite remaining_at. Qed.

Lemma end_inv {B} e (k : unit -> Reader B) pre post b r' :
  (expect_end e ≫= k) (reader_at pre post) = Ok (b, r') ->
  post = [] /\ k tt (reader_at pre post) = Ok (b, r').
Proof.
  unfold mbind, Reader_bind, expect_end. rewrite remaining_at.
  destruct (Z.eqb_spec (zlen post) 0) as [E|]; [|done].
  destruct post; [done|]. unfold zlen in E; cbn in E; lia.
Qed.

Lemma end_no_panic {B} e (k : unit -> Reader B) r :
  no_panic (k tt r) -> no_panic ((expect_end e ≫= k) r).
Proof. unfold mbind, Reader_bind, expect_end. by destruct (_ =? 0). Qed.

Lemma run_reader_ok {A} (m : Reader A) d a :
  run_reader m d = Ok a <-> exists r', m (reader_at [] d) = Ok (a, r').
Proof.
  unfold run_reader. change (NewBodyReader d) with (reader_at [] d). split.
  - destruct (m _) as [[]| |]; cbn; unfold mret, res_ret; intros; simplify_eq; eauto.
  - intros (r' & H). by rewrite H.
Qed.

Lemma run_reader_intro {A} (m : Reader A) d a r' :
  m (reader_at [] d) = Ok (a, r') -> run_reader m d = Ok a.
Proof. intros H. apply run_reader_ok. eauto. Qed.

Lemma mret_step {A} (x a : A) r : x = a -> (mret x : Reader A) r = Ok (a, r).
Proof. by intros ->. Qed.

Lemma run_reader_no_panic {A} (m : Reader A) d :
  no_panic (m (reader_at [] d)) -> no_panic (run_reader m d).
Proof.
  unfold run_reader. change (NewBodyReader d) with (reader_at [] d).
  by destruct (m _) as [[]| |].
Qed.

(** *** The utxo array is a field *)

Definition utxo_field (u : UtxoEntry) : bytes :=
  Utxo_TxID u ++ le_split 4 (Utxo_Vout u) ++ Utxo_RawAddress u ++ Utxo_Signature u.

Definition utxos_field (us : list UtxoEntry) : bytes :=
  le_split 4 (zlen us) ++ concat (map utxo_field us).

Lemma utxo_field_length u : UtxoEntry_wf u -> zlen (utxo_field u) = 121.
Proof.
  intros (? & ? & ? & ?). unfold utxo_field. rewrite !zlen_app.
  unfold zlen at 2. rewrite length_le_split. lia.
Qed.

Lemma utxos_concat_length us :
  Forall UtxoEntry_wf us -> zlen (concat (map utxo_field us)) = zlen us * 121.
Proof.
  induction 1 as [|u us Hu _ IH]; [done|]. cbn. rewrite zlen_app, IH, utxo_field_length by done.
  unfold zlen; cbn; lia.
Qed.

Local Instance Sig_field : Field (BodyReader_Bytes 65) id (fun b => zlen b = 65) :=
  Bytes_field 65 ltac:(lia).
Local Instance Bytes8_field : Field (BodyReader_Bytes 8) id (fun b => zlen b = 8) :=
  Bytes_field 8 ltac:(lia).

#[export] Instance Utxo_field : Field UtxoEntry_unmarshal utxo_field UtxoEntry_wf.
Proof.
  split.
  - intros u (? & ? & ? & ?) pre post. unfold utxo_field. rewrite <- !app_assoc.
    unfold UtxoEntry_unmarshal. do 4 read_field.
    destruct u; cbn. unfold mret, Reader_ret. by rewrite <- ?app_assoc.
  - intros pre post u r' H. unfold UtxoEntry_unmarshal in H.
    repeat inv_field H.
    unfold mret, Reader_ret in H. simplify_eq. split; [done|].
    eexists. unfold utxo_field; cbn. split; [by rewrite <- !app_assoc|].
    by rewrite <- !app_assoc.
  - intros pre post. unfold UtxoEntry_unmarshal.
    repeat (apply (field_no_panic _ _ _); intros). done.
Qed.

Lemma read_utxos_field n :
  Field (read_utxos n) (fun us => concat (map utxo_field us))
    (fun us => length us = n /\ Forall UtxoEntry_wf us).
Proof.
  induction n as [|n IH]; split.
  - intros us [Hl _] pre post. destruct us; [|done]. cbn. by rewrite app_nil_r.
  - intros pre post us r' H. cbn in H. unfold mret, Reader_ret in H. simplify_eq.
    split; [by split|]. exists post. by rewrite app_nil_r.
  - done.
  - intros [|u us] [Hl Hw] pre post; [done|]. apply Forall_cons in Hw as [? ?].
    cbn [read_utxos concat map]. rewrite <- app_assoc.
    do 2 read_field; [naive_solver|].
    unfold mret, Reader_ret. by rewrite <- ?app_assoc.
  - intros pre post us r' H. cbn [read_utxos] in H.
    inv_field H. inv_field H. destruct_and!.
    unfold mret, Reader_ret in H. simplify_eq. split.
    + split; [cbn; lia|]. by constructor.
    + eexists. cbn. split; [by rewrite <- !app_assoc|]. by rewrite <- !app_assoc.
  - intros pre post. cbn [read_utxos].
    repeat (apply (field_no_panic _ _ _); intros). done.
Qed.

#[export] Instance Utxos_field : Field unmarshalUtxoArray utxos_field utxos_wf.
Proof.
  pose proof read_utxos_field as HR. split.
  - intros us [Hw Hl] pre post. unfold utxos_field, unmarshalUtxoArray.
    rewrite <- app_assoc. pose proof (zlen_nonneg us).
    unfold maxUtxoEntries in *. pose proof (zlen_nonneg post).
    read_field; [unfold uint_ok; lia|].
    rewrite check_step by (apply Z.ltb_ge; lia).
    rewrite check_step; cycle 1.
    { rewrite remaining_at, zlen_app, utxos_concat_length by done.
      apply Z.ltb_ge. unfold minUtxoEntryBytes. lia. }
    rewrite (field_reads (Field := HR (Z.to_nat (zlen us))) us).
    2:{ split; [unfold zlen; lia|done]. }
    by rewrite <- app_assoc.
  - intros pre post us r' H. unfold unmarshalUtxoArray in H.
    apply (field_inv _ _ _) in H as (n & post1 & Hn & -> & H).
    apply check_inv in H as [H1 H]. apply check_inv in H as [H2 H]. zbool.
    destruct (field_consumes (Field := HR (Z.to_nat n)) _ _ _ _ H) as ([Hl Hw] & post2 & -> & ->).
    assert (n = zlen us) as -> by (unfold zlen, uint_ok in *; lia).
    split; [done|]. eexists. unfold utxos_field.
    split; [by rewrite <- !app_assoc|]. by rewrite <- !app_assoc.
  - intros pre post. unfold unmarshalUtxoArray.
    apply (field_no_panic _ _ _); intros. do 2 apply check_no_panic.
    apply (field_total (Field := HR _)).
Qed.

Lemma marshalUtxoArray_buf us w :
  w_buf (marshalUtxoArray us w) = w_buf w ++ utxos_field us.
Proof.
  unfold marshalUtxoArray, utxos_field.
  assert (forall us w, w_buf (fold_left (fun w u => UtxoEntry_marshal u w) us w) =
    w_buf w ++ concat (map utxo_field us)) as ->.
  { clear. induction us as [|u us IH]; intros w; cbn; [by rewrite app_nil_r|].
    rewrite IH. cbn. unfold utxo_field. by rewrite <- !app_assoc. }
  cbn. rewrite <- !app_assoc. do 2 f_equal. unfold wrap.
  rewrite (le_split_mod (zlen us)). done.
Qed.

Lemma BodyWriter_String_field s w :
  BodyWriter_String s w = BodyWriter_append (string_field s) w.
Proof.
  unfold BodyWriter_String, string_field, BodyWriter_append; cbn. by rewrite <- app_assoc.
Qed.

Definition flag_value (p : bool) : Z := if p then 1 else 0.

Lemma flag_field (p : bool) w :
  (if p then BodyWriter_Uint16 1 else BodyWriter_Uint16 0) w =
  BodyWriter_append (le_split 2 (flag_value p)) w.
Proof. by destruct p. Qed.

Lemma flag_value_ok p : u16_ok (flag_value p).
Proof. by destruct p. Qed.

Lemma flag_value_read p : negb (flag_value p =? 0) = p.
Proof. by destruct p. Qed.

(** *** The codec proofs: symbolic execution of the field sequence *)

(** Expose the field encodings of a [_Marshal] as one right-nested append. *)
Ltac expose_marshal M :=
  unfold M, BodyWriter_Payload;
  rewrite ?marshalUtxoArray_buf, ?BodyWriter_String_field, ?flag_field; cbn [w_buf BodyWriter_append BodyWriter_Hash
    BodyWriter_Addr BodyWriter_PubKey BodyWriter_Bytes
    BodyWriter_Currency BodyWriter_Uint16 BodyWriter_Uint32 BodyWriter_Uint64
    NewBodyWriter app];
  rewrite <- ?app_assoc.
Ltac expose_marshal_in M H :=
  unfold M, BodyWriter_Payload in H;
  rewrite ?marshalUtxoArray_buf, ?BodyWriter_String_field, ?flag_field in H; cbn [w_buf BodyWriter_append BodyWriter_Hash
    BodyWriter_Addr BodyWriter_PubKey BodyWriter_Bytes
    BodyWriter_Currency BodyWriter_Uint16 BodyWriter_Uint32 BodyWriter_Uint64
    NewBodyWriter app] in H;
  rewrite <- ?app_assoc in H.

(** A sequence of fields followed by an end check, a length check or nothing.
    [solve_codec_with T] leaves the length window of the confirm bodies to [T]. *)
Ltac decode_marshal M b :=
  let d := fresh "d" in let Hd := fresh "Hd" in let Hd' := fresh "Hd'" in
  remember (M b) as d eqn:Hd;
  eapply run_reader_intro;
  pose proof Hd as Hd'; rewrite <- (app_nil_r (M b)) in Hd';
  expose_marshal_in M Hd';
  rewrite (f_equal (reader_at []) Hd'); clear Hd';
  repeat read_field.

Ltac encode_data M U W :=
  let d := fresh "d" in let b := fresh "b" in let H := fresh "H" in
  intros d b H; unfold U in H; apply run_reader_ok in H as (? & H);
  repeat inv_field H;
  repeat first [ apply end_inv in H as [-> H]
               | unfold check_length in H; apply check_inv in H as [? H] ];
  unfold mret, Reader_ret in H; simplify_eq.

Ltac close_marshal M :=
  lazymatch goal with
  | |- exists _, _ => eexists; expose_marshal M; reflexivity
  | _ => expose_marshal M; rewrite ?app_nil_r; reflexivity
  end.

Ltac solve_codec M U W :=
  split;
  [ let b := fresh "b" in let H := fresh "H" in
    intros b H; unfold W in H; destruct_and? H; unfold U; decode_marshal M b;
    try apply end_step; apply mret_step; by destruct b
  | encode_data M U W;
    (split; [unfold W; cbn; split_and?; done | close_marshal M])
  | intros d; unfold U; apply run_reader_no_panic;
    repeat (apply (field_no_panic _ _ _); intros);
    first [ by apply end_no_panic | by apply check_no_panic | done ] ].

#[export] Instance HoldBody_codec :
  BodyCodec HoldBody_Marshal HoldBody_Unmarshal HoldBody_wf Exact.
Proof. solve_codec HoldBody_Marshal HoldBody_Unmarshal HoldBody_wf. Qed.

#[export] Instance HoldApplyBody_codec :
  BodyCodec HoldApplyBody_Marshal HoldApplyBody_Unmarshal HoldApplyBody_wf Exact.
Proof. solve_codec HoldApplyBody_Marshal HoldApplyBody_Unmarshal HoldApplyBody_wf. Qed.

#[export] Instance InitBody_codec :
  BodyCodec InitBody_Marshal InitBody_Unmarshal InitBody_wf Exact.
Proof. solve_codec InitBody_Marshal InitBody_Unmarshal InitBody_wf. Qed.

#[export] Instance InitializedBody_codec :
  BodyCodec InitializedBody_Marshal InitializedBody_Unmarshal InitializedBody_wf Exact.
Proof. solve_codec InitializedBody_Marshal InitializedBody_Unmarshal InitializedBody_wf. Qed.

#[export] Instance CreateABody_codec :
  BodyCodec CreateABody_Marshal CreateABody_Unmarshal CreateABody_wf Exact.
Proof. solve_codec CreateABody_Marshal CreateABody_Unmarshal CreateABody_wf. Qed.

#[export] Instance CreatedABody_codec :
  BodyCodec CreatedABody_Marshal CreatedABody_Unmarshal CreatedABody_wf Prefix.
Proof. solve_codec CreatedABody_Marshal CreatedABody_Unmarshal CreatedABody_wf. Qed.

#[export] Instance CreateBBody_codec :
  BodyCodec CreateBBody_Marshal CreateBBody_Unmarshal CreateBBody_wf Prefix.
Proof. solve_codec CreateBBody_Marshal CreateBBody_Unmarshal CreateBBody_wf. Qed.

#[export] Instance CreatedBBody_codec :
  BodyCodec CreatedBBody_Marshal CreatedBBody_Unmarshal CreatedBBody_wf Prefix.
Proof. solve_codec CreatedBBody_Marshal CreatedBBody_Unmarshal CreatedBBody_wf. Qed.

#[export] Instance CancelBody_codec :
  BodyCodec CancelBody_Marshal CancelBody_Unmarshal CancelBody_wf Exact.
Proof. solve_codec CancelBody_Marshal CancelBody_Unmarshal CancelBody_wf. Qed.

#[export] Instance RejectBody_codec :
  BodyCodec RejectBody_Marshal RejectBody_Unmarshal RejectBody_wf Exact.
Proof. solve_codec RejectBody_Marshal RejectBody_Unmarshal RejectBody_wf. Qed.

#[export] Instance FinishedBody_codec :
  BodyCodec FinishedBody_Marshal FinishedBody_Unmarshal FinishedBody_wf Exact.
Proof. solve_codec FinishedBody_Marshal FinishedBody_Unmarshal FinishedBody_wf. Qed.

(** The confirm bodies: the length window holds of an encoding because its
    fixed fields alone exceed the lower bound. *)
Ltac solve_confirm M U W :=
  split;
  [ let b := fresh "b" in let H := fresh "H" in
    intros b H; unfold W in H; destruct_and? H; unfold U; decode_marshal M b;
    unfold check_length; rewrite check_step;
    [ apply mret_step; by destruct b
    | apply orb_false_iff; split; [apply Z.leb_gt|apply Z.ltb_ge; by subst];
      subst; expose_marshal M; unfold string_field; rewrite !zlen_app;
      unfold zlen in *; rewrite ?length_le_split; cbn [length]; lia ]
  | encode_data M U W; cbn beta in *; zbool;
    match goal with Hc : zlen _ <= 1000 |- _ /\ ?Q =>
      let Hm := fresh "Hm" in let Hl := fresh "Hl" in let rest := fresh "rest" in
      assert Q as Hm by close_marshal M;
      destruct Hm as [rest Hm]; rewrite Hm, zlen_app in Hc;
      pose proof (zlen_nonneg rest) as Hl;
      (split; [unfold W; split_and?; try assumption; lia|by exists rest])
    end
  | intros d; unfold U; apply run_reader_no_panic;
    repeat (apply (field_no_panic _ _ _); intros); by apply check_no_panic ].

#[export] Instance ConfirmABody_codec :
  BodyCodec ConfirmABody_Marshal ConfirmABody_Unmarshal ConfirmABody_wf Prefix.
Proof. solve_confirm ConfirmABody_Marshal ConfirmABody_Unmarshal ConfirmABody_wf. Qed.

#[export] Instance ConfirmedABody_codec :
  BodyCodec ConfirmedABody_Marshal ConfirmedABody_Unmarshal ConfirmedABody_wf Prefix.
Proof. solve_confirm ConfirmedABody_Marshal ConfirmedABody_Unmarshal ConfirmedABody_wf. Qed.

#[export] Instance ConfirmBBody_codec :
  BodyCodec ConfirmBBody_Marshal ConfirmBBody_Unmarshal ConfirmBBody_wf Prefix.
Proof. solve_confirm ConfirmBBody_Marshal ConfirmBBody_Unmarshal ConfirmBBody_wf. Qed.

#[export] Instance ConfirmedBBody_codec :
  BodyCodec ConfirmedBBody_Marshal ConfirmedBBody_Unmarshal ConfirmedBBody_wf Prefix.
Proof. solve_confirm ConfirmedBBody_Marshal ConfirmedBBody_Unmarshal ConfirmedBBody_wf. Qed.

(** The two layouts with a partial-order flag, and the length-prefixed fee tx. *)

#[export] Instance OrderBody_codec :
  BodyCodec OrderBody_Marshal OrderBody_Unmarshal OrderBody_wf Lax.
Proof.
  split.
  - intros b H. unfold OrderBody_wf in H. destruct_and! H. unfold OrderBody_Unmarshal.
    decode_marshal OrderBody_Marshal b; [apply flag_value_ok|].
    apply mret_step. rewrite flag_value_read. by destruct b.
  - encode_data OrderBody_Marshal OrderBody_Unmarshal OrderBody_wf.
    split; [unfold OrderBody_wf; cbn; split_and!; done|done].
  - intros d. unfold OrderBody_Unmarshal. apply run_reader_no_panic.
    repeat (apply (field_no_panic _ _ _); intros). done.
Qed.

Lemma read_optional_min_no_panic pre post : no_panic (read_optional_min (reader_at pre post)).
Proof.
  unfold read_optional_min. destruct (_ =? 0); [done|]. destruct (_ =? 8); [|done].
  apply (field_total (Field := Uint64_field)).
Qed.

(** A decoded tail is absent (value 0) or one 64-bit field. *)
Lemma read_optional_min_ok pre post v r' :
  read_optional_min (reader_at pre post) = Ok (v, r') ->
  u64_ok v /\ (post = [] /\ v = 0 \/ post = le_split 8 v).
Proof.
  unfold read_optional_min. rewrite remaining_at.
  destruct (Z.eqb_spec (zlen post) 0) as [E|E].
  { intros; simplify_eq. destruct post; [|unfold zlen in E; cbn in E; lia].
    split; [unfold uint_ok; lia|by left]. }
  destruct (Z.eqb_spec (zlen post) 8) as [E8|E8]; [|done]. intros H.
  destruct (field_consumes (Field := Uint64_field) _ _ _ _ H) as (Hw & post' & -> & ->).
  split; [done|]. right. rewrite zlen_app in E8. unfold zlen in E8 at 1.
  rewrite length_le_split in E8. destruct post'; [|unfold zlen in E8; cbn in E8; lia].
  apply app_nil_r.
Qed.

#[export] Instance PendingTransactionBody_codec :
  BodyCodec PendingTransactionBody_Marshal PendingTransactionBody_Unmarshal
    PendingTransactionBody_wf Lax.
Proof.
  split.
  - intros b H. unfold PendingTransactionBody_wf in H. destruct_and! H.
    unfold PendingTransactionBody_Unmarshal.
    decode_marshal PendingTransactionBody_Marshal b; [apply flag_value_ok|].
    unfold mbind, Reader_bind. unfold read_optional_min at 1. rewrite remaining_at, zlen_app.
    unfold zlen. rewrite length_le_split. cbn [length].
    match goal with |- context [BodyReader_Uint64 (reader_at ?pre _)] =>
      rewrite (field_reads (Field := Uint64_field) (Pending_MinFromAmount b) ltac:(done) pre [])
    end.
    apply mret_step. rewrite flag_value_read. by destruct b.
  - encode_data PendingTransactionBody_Marshal PendingTransactionBody_Unmarshal
      PendingTransactionBody_wf.
    unfold mbind, Reader_bind in H.
    destruct (read_optional_min _) as [[v r']| |] eqn:E; try done.
    apply read_optional_min_ok in E as [? _]. simplify_eq.
    split; [unfold PendingTransactionBody_wf; cbn; split_and!; done|done].
  - intros d. unfold PendingTransactionBody_Unmarshal. apply run_reader_no_panic.
    repeat (apply (field_no_panic _ _ _); intros).
    unfold mbind, Reader_bind.
    match goal with |- context [reader_at ?p ?q] =>
      pose proof (read_optional_min_no_panic p q) as Hp end.
    by destruct (read_optional_min _) as [[]| |].
Qed.

#[export] Instance AcceptingBody_codec :
  BodyCodec AcceptingBody_Marshal AcceptingBody_Unmarshal AcceptingBody_wf Prefix.
Proof.
  split.
  - intros b H. unfold AcceptingBody_wf in H. destruct_and! H. unfold AcceptingBody_Unmarshal.
    decode_marshal AcceptingBody_Marshal b; [by apply wrap_ok|].
    rewrite wrap_small by done.
    pose proof (Bytes_field (zlen (Accepting_ServiceNodeFeeTx b)) (zlen_nonneg _)).
    repeat read_field. apply mret_step. by destruct b.
  - encode_data AcceptingBody_Marshal AcceptingBody_Unmarshal AcceptingBody_wf.
    unfold mbind at 1, Reader_bind at 1 in H.
    destruct (BodyReader_Bytes _ _) as [[fee r1]| |] eqn:E; try done.
    apply Bytes_consumes in E as (Hfee & post' & -> & ->). subst.
    repeat inv_field H. unfold mret, Reader_ret in H. simplify_eq.
    split; [unfold AcceptingBody_wf; cbn; split_and!; done|].
    eexists. expose_marshal AcceptingBody_Marshal. cbn. rewrite wrap_small by done. reflexivity.
  - intros d. unfold AcceptingBody_Unmarshal. apply run_reader_no_panic.
    repeat (apply (field_no_panic _ _ _); intros).
    match goal with Hn : u32_ok ?n |- _ =>
      pose proof (Bytes_field n (proj1 Hn)) end.
    repeat (apply (field_no_panic _ _ _); intros). done.
Qed.

(** ** Properties of DecodeBody *)

Definition body_tail (b : Body) : Tail :=
  match b with
  | Body_Order _ | Body_Pending _ => Lax
  | Body_Hold _ | Body_HoldApply _ | Body_Init _ | Body_Initialized _
  | Body_CreateA _ | Body_Cancel _ | Body_Reject _ | Body_Finished _ => Exact
  | _ => Prefix
  end.

(** How the input of a successful decode relates to the encoding of its result. *)
Definition body_covers (d : bytes) (b : Body) : Prop :=
  match body_tail b with
  | Exact => d = body_marshal b
  | Prefix => exists rest, d = body_marshal b ++ rest
  | Lax => True
  end.

(** Reduce the dispatch in [H : DecodeBody cmd d = _] to the branch taken. *)
Ltac decode_cases H :=
  unfold DecodeBody in H;
  repeat match type of H with
  | (if ?c =? ?k then _ else _) = _ => destruct (Z.eqb_spec c k); [subst|]
  end.

(** Evaluate the dispatch on a known command. *)
Ltac dispatch_body :=
  unfold DecodeBody;
  repeat match goal with
  | |- context [if ?a =? ?b then _ else _] =>
      first [ rewrite (Z.eqb_refl a)
            | rewrite (proj2 (Z.eqb_neq a b)) by (vm_compute; discriminate) ]; cbn iota
  end.

(** C37. Round trip of the wire codec: for every one of the 18 typed bodies,
    decoding its encoding under its own command returns the same body. *)
Theorem DecodeBody_roundtrip (b : Body) :
  body_wf b -> DecodeBody (body_command b) (body_marshal b) = Ok b.
Proof.
  destruct b; cbn [body_wf body_command body_marshal]; intros H;
    dispatch_body; by rewrite (codec_roundtrip _ H).
Qed.

Definition sample_cancel : Body := Body_Cancel (mkCancelBody (repeat x07 32) 12).

Lemma DecodeBody_roundtrip_witness :
  body_wf sample_cancel /\
  DecodeBody XbcTransactionCancel (body_marshal sample_cancel) = Ok sample_cancel.
Proof.
  assert (body_wf sample_cancel) as H by (vm_compute; split_and!; done).
  split; [exact H|]. exact (DecodeBody_roundtrip sample_cancel H).
Defined.

(** Decoding is canonical: a body that decodes is well formed, belongs to
    the command it was received under, and the bytes received are its
    encoding: exactly for the fixed-size bodies (no trailing bytes are
    accepted), and up to an ignored tail for the bodies with strings. *)
Theorem DecodeBody_sound (cmd : Z) (d : bytes) (b : Body) :
  DecodeBody cmd d = Ok b ->
  body_wf b /\ body_command b = cmd /\ body_covers d b.
Proof.
  intros H. decode_cases H;
    [apply res_fmap_ok in H as (x & H & ->); apply codec_sound in H as [Hw Ht];
     split; [exact Hw|split; [reflexivity|exact Ht]] .. | discriminate H].
Qed.

Lemma DecodeBody_sound_witness :
  DecodeBody XbcTransactionFinished (repeat x01 32) =
    Ok (Body_Finished (mkFinishedBody (repeat x01 32))) /\
  body_covers (repeat x01 32) (Body_Finished (mkFinishedBody (repeat x01 32))).
Proof.
  assert (DecodeBody XbcTransactionFinished (repeat x01 32) =
    Ok (Body_Finished (mkFinishedBody (repeat x01 32)))) as H by (vm_compute; reflexivity).
  split; [exact H|]. exact (proj2 (proj2 (DecodeBody_sound _ _ _ H))).
Defined.

(** No peer-supplied body crashes the decoder: whatever the command and the
    bytes, [DecodeBody] returns a body or an error and never panics. *)
Theorem DecodeBody_no_panic (cmd : Z) (d : bytes) : no_panic (DecodeBody cmd d).
Proof.
  unfold DecodeBody.
  repeat match goal with
  | |- no_panic (if ?c then _ else _) => destruct c; [apply no_panic_fmap, codec_total|]
  end. apply no_panic_err.
Qed.

(** The two encodings of an open-order broadcast: a decoded
    [xbcPendingTransaction] is 134 bytes long, or 126 bytes long and then has
    no minimum amount; every length in between is refused. *)
Theorem PendingTransactionBody_length (d : bytes) (b : PendingTransactionBody) :
  PendingTransactionBody_Unmarshal d = Ok b ->
  zlen d = 134 \/ (zlen d = 126 /\ Pending_MinFromAmount b = 0).
Proof.
  revert d b. encode_data PendingTransactionBody_Marshal PendingTransactionBody_Unmarshal
    PendingTransactionBody_wf.
  unfold mbind, Reader_bind in H.
  destruct (read_optional_min _) as [[v r']| |] eqn:E; try done.
  apply read_optional_min_ok in E as [_ Ht]. simplify_eq. cbn [Pending_MinFromAmount].
  unfold id. rewrite !zlen_app. rewrite Hw, Hw4, Hw6.
  rewrite !currency_field_length. unfold zlen. rewrite !length_le_split.
  destruct Ht as [[-> ->]| ->]; [right|left]; rewrite ?length_le_split; cbn; lia.
Qed.

Lemma PendingTransactionBody_length_witness :
  exists b, PendingTransactionBody_Unmarshal (repeat x00 126) = Ok b /\
    (zlen (repeat x00 126) = 134 \/
     (zlen (repeat x00 126) = 126 /\ Pending_MinFromAmount b = 0)).
Proof.
  eexists. split; [vm_compute; reflexivity|].
  exact (PendingTransactionBody_length (repeat x00 126) _ ltac:(vm_compute; reflexivity)).
Defined.

(** Allocation bound: the utxo slice a decoded order or accepting body
    carries is capped at 65536 entries and by 121 bytes of input per entry, so
    a crafted count cannot make the decoder allocate more than the packet holds. *)
Theorem utxo_allocation_bound (pre post : bytes) us r' :
  unmarshalUtxoArray (reader_at pre post) = Ok (us, r') ->
  zlen us <= maxUtxoEntries /\ zlen us * minUtxoEntryBytes <= zlen post.
Proof.
  intros H. destruct (field_consumes _ _ _ _ H) as ([Hw Hl] & post' & -> & _).
  split; [exact Hl|]. unfold utxos_field. rewrite !zlen_app, utxos_concat_length by done.
  pose proof (zlen_nonneg post'). pose proof (zlen_nonneg (le_split 4 (zlen us))).
  unfold minUtxoEntryBytes. lia.
Qed.

Lemma utxo_allocation_bound_witness :
  exists us r', unmarshalUtxoArray (reader_at [] (le_split 4 1 ++ repeat x00 121)) = Ok (us, r')
    /\ zlen us * minUtxoEntryBytes <= zlen (le_split 4 1 ++ repeat x00 121).
Proof.
  do 2 eexists. split; [vm_compute; reflexivity|].
  exact (proj2 (utxo_allocation_bound [] (le_split 4 1 ++ repeat x00 121) _ _
    ltac:(vm_compute; reflexivity))).
Defined.
