(* ===== verification/Packet.v ===== *)
(** * proto/packet.go: the 129-byte packet header

    [Packet_Marshal] lays the header out at the offsets the code writes
    (version, command, timestamp, oldSize, size, pubkey at 20, signature at
    53, body at 129); the twelve bytes 117..128 belong to no field: they are
    written as zeros and not read.  [Unmarshal] is the guarded parser, with the version
    gate, the size cap and the exact-length check in the code's order.  The
    process-wide [version.XBridgeProtocolVersion] is the argument [ver]. *)

From S2P Require Import Prelude Sha256 Codec Bodies.

Definition HeaderSize : Z := 129.
Definition PubkeySize : Z := 33.
Definition SigSize : Z := 64.
Definition SigOffset : Z := 53.
Definition MaxBodySize : Z := 1048576.
Definition headerDifference : Z := HeaderSize - 32.

Record Packet := mkPacket {
  Version : Z;
  Command : Z;
  Timestamp : Z;
  OldSize : Z;
  Size : Z;
  Pubkey : bytes;
  Signature : bytes;
  PBody : bytes
}.

(** [now] is [time.Now().Unix()]. *)
Definition NewPacket (ver now cmd : Z) (body : bytes) : Packet :=
  mkPacket ver cmd (wrap 32 now) (wrap 32 (wrap 32 (zlen body) + headerDifference))
    (wrap 32 (zlen body)) (repeat x00 33) (repeat x00 64) body.

Definition Packet_Marshal (p : Packet) : bytes :=
  le_split 4 (Version p) ++
  le_split 4 (Command p) ++
  le_split 4 (Timestamp p) ++
  le_split 4 (OldSize p) ++
  le_split 4 (wrap 32 (zlen (PBody p))) ++
  Pubkey p ++
  Signature p ++
  repeat x00 12 ++
  PBody p.

(** The bytes [Digest] hashes: the packet with the signature region zeroed. *)
Definition digest_preimage (p : Packet) : bytes :=
  let b := Packet_Marshal p in
  take (Z.to_nat SigOffset) b ++ repeat x00 (Z.to_nat SigSize) ++
  drop (Z.to_nat (SigOffset + SigSize)) b.

Definition Packet_Digest (p : Packet) : bytes := Sum256 (digest_preimage p).

(** [binary.LittleEndian.Uint32(data[off:])] *)
Definition u32_at (data : bytes) (off : Z) : Z :=
  le_combine (take 4 (drop (Z.to_nat off) data)).

Definition region (data : bytes) (lo len : Z) : bytes :=
  take (Z.to_nat len) (drop (Z.to_nat lo) data).

Definition Unmarshal (ver : Z) (data : bytes) : res Packet :=
  if zlen data <? HeaderSize then Err "xbridge: data shorter than packet header"
  else
    let version := u32_at data 0 in
    let command := u32_at data 4 in
    let timestamp := u32_at data 8 in
    let oldSize := u32_at data 12 in
    let size := u32_at data 16 in
    if negb (version =? ver) then Err "xbridge: unsupported protocol version"
    else
      let pubkey := region data 20 PubkeySize in
      let signature := region data SigOffset SigSize in
      if MaxBodySize <? size then Err "xbridge: declared body size too large"
      else if zlen data <? HeaderSize + size then
        Err "xbridge: declared body size exceeds data"
      else
        body ← slice data HeaderSize (HeaderSize + size);
        if negb (zlen data =? HeaderSize + size) then
          Err "xbridge: trailing bytes after packet body"
        else Ok (mkPacket version command timestamp oldSize size pubkey signature body).

(** ** Invariants and layout lemmas *)

(** What a parsed (or freshly built and signed) packet satisfies. *)
Definition Packet_wf (p : Packet) : Prop :=
  u32_ok (Version p) /\ u32_ok (Command p) /\ u32_ok (Timestamp p) /\
  u32_ok (OldSize p) /\ Size p = zlen (PBody p) /\ Size p <= MaxBodySize /\
  zlen (Pubkey p) = 33 /\ zlen (Signature p) = 64.

Lemma region_at (a m b : bytes) lo len :
  zlen a = lo -> zlen m = len -> region (a ++ m ++ b) lo len = m.
Proof.
  unfold region, zlen. intros <- <-. rewrite !Nat2Z.id.
  by rewrite drop_app_length, take_app_length.
Qed.

Lemma u32_at_region (a m b : bytes) off :
  zlen a = off -> zlen m = 4 -> u32_at (a ++ m ++ b) off = le_combine m.
Proof. intros Ha Hm. unfold u32_at. f_equal. exact (region_at a m b off 4 Ha Hm). Qed.

Lemma zlen_le_split n v : zlen (le_split n v) = Z.of_nat n.
Proof. unfold zlen. by rewrite length_le_split. Qed.

(** Every input of at least 129 bytes splits into its header fields. *)
Lemma header_split (data : bytes) :
  HeaderSize <= zlen data ->
  exists v c t o s pk sg gap body,
    data = v ++ c ++ t ++ o ++ s ++ pk ++ sg ++ gap ++ body /\
    zlen v = 4 /\ zlen c = 4 /\ zlen t = 4 /\ zlen o = 4 /\ zlen s = 4 /\
    zlen pk = 33 /\ zlen sg = 64 /\ zlen gap = 12.
Proof.
  unfold HeaderSize. intros H.
  destruct (zlen_split data 4) as (v & d1 & -> & Hv); [lia|]. rewrite zlen_app in H.
  destruct (zlen_split d1 4) as (c & d2 & -> & Hc); [lia|]. rewrite zlen_app in H.
  destruct (zlen_split d2 4) as (t & d3 & -> & Ht); [lia|]. rewrite zlen_app in H.
  destruct (zlen_split d3 4) as (o & d4 & -> & Ho); [lia|]. rewrite zlen_app in H.
  destruct (zlen_split d4 4) as (s & d5 & -> & Hs); [lia|]. rewrite zlen_app in H.
  destruct (zlen_split d5 33) as (pk & d6 & -> & Hpk); [lia|]. rewrite zlen_app in H.
  destruct (zlen_split d6 64) as (sg & d7 & -> & Hsg); [lia|]. rewrite zlen_app in H.
  destruct (zlen_split d7 12) as (gap & d8 & -> & Hgap); [lia|]. eauto 25.
Qed.

(** The parser's projections on a split header. *)
Lemma header_fields v c t o s pk sg gap body :
  zlen v = 4 -> zlen c = 4 -> zlen t = 4 -> zlen o = 4 -> zlen s = 4 ->
  zlen pk = 33 -> zlen sg = 64 -> zlen gap = 12 ->
  let data := v ++ c ++ t ++ o ++ s ++ pk ++ sg ++ gap ++ body in
  u32_at data 0 = le_combine v /\ u32_at data 4 = le_combine c /\
  u32_at data 8 = le_combine t /\ u32_at data 12 = le_combine o /\
  u32_at data 16 = le_combine s /\ region data 20 PubkeySize = pk /\
  region data SigOffset SigSize = sg /\ zlen data = HeaderSize + zlen body /\
  drop (Z.to_nat HeaderSize) data = body.
Proof.
  intros Hv Hc Ht Ho Hs Hpk Hsg Hgap data. subst data.
  split_and!.
  - by apply (u32_at_region [] v).
  - by apply (u32_at_region v c).
  - rewrite (app_assoc v c). apply u32_at_region; rewrite ?zlen_app; lia.
  - rewrite (app_assoc c t), (app_assoc v). apply u32_at_region; rewrite ?zlen_app; lia.
  - rewrite (app_assoc t o), (app_assoc c), (app_assoc v).
    apply u32_at_region; rewrite ?zlen_app; lia.
  - rewrite (app_assoc o s), (app_assoc t), (app_assoc c), (app_assoc v).
    apply region_at; [|done]. rewrite !zlen_app; lia.
  - rewrite (app_assoc s pk), (app_assoc o), (app_assoc t), (app_assoc c), (app_assoc v).
    apply region_at; [|done]. unfold SigOffset. rewrite !zlen_app; lia.
  - rewrite !zlen_app. unfold HeaderSize. lia.
  - rewrite (app_assoc sg gap), (app_assoc pk), (app_assoc s), (app_assoc o), (app_assoc t),
      (app_assoc c), (app_assoc v).
    apply drop_app_len. unfold zlen in *. rewrite !length_app. change (Z.to_nat HeaderSize) with 129%nat. lia.
Qed.

Lemma Marshal_length p :
  zlen (Pubkey p) = 33 -> zlen (Signature p) = 64 ->
  zlen (Packet_Marshal p) = HeaderSize + zlen (PBody p).
Proof.
  intros. unfold Packet_Marshal, HeaderSize. rewrite !zlen_app, !zlen_le_split.
  unfold zlen at 3. rewrite repeat_length. lia.
Qed.

Lemma slice_to_end (data : bytes) lo :
  0 <= lo <= zlen data -> slice data lo (zlen data) = Ok (drop (Z.to_nat lo) data).
Proof.
  intros. rewrite slice_in_range by lia. f_equal. apply take_ge.
  unfold zlen in *. rewrite length_drop. lia.
Qed.

(** The zeroed-signature form of the digest preimage. *)
Lemma digest_preimage_eq p :
  zlen (Pubkey p) = 33 -> zlen (Signature p) = 64 ->
  digest_preimage p =
    le_split 4 (Version p) ++ le_split 4 (Command p) ++ le_split 4 (Timestamp p) ++
    le_split 4 (OldSize p) ++ le_split 4 (wrap 32 (zlen (PBody p))) ++ Pubkey p ++
    repeat x00 64 ++ repeat x00 12 ++ PBody p.
Proof.
  intros Hpk Hsg. unfold digest_preimage, Packet_Marshal.
  set (tail := repeat x00 12 ++ PBody p).
  rewrite !app_assoc. rewrite <- (app_assoc _ (Signature p) tail).
  rewrite (take_drop_app_len _ (Signature p ++ tail)).
  2:{ unfold zlen in *. rewrite !length_app, !length_le_split.
      change (Z.to_nat SigOffset) with 53%nat. lia. }
  rewrite (app_assoc _ (Signature p) tail).
  rewrite (drop_app_len _ tail); [by rewrite <- !app_assoc|].
  unfold zlen in *. rewrite !length_app, !length_le_split.
  change (Z.to_nat (SigOffset + SigSize)) with 117%nat. lia.
Qed.

(** ** Properties *)

(** The wire form of [p] with arbitrary bytes in the unused region 117..128. *)
Definition wire_form (p : Packet) (gap : bytes) : bytes :=
  take 117 (Packet_Marshal p) ++ gap ++ drop 129 (Packet_Marshal p).

Lemma wire_form_eq p gap :
  zlen (Pubkey p) = 33 -> zlen (Signature p) = 64 ->
  wire_form p gap =
    le_split 4 (Version p) ++ le_split 4 (Command p) ++ le_split 4 (Timestamp p) ++
    le_split 4 (OldSize p) ++ le_split 4 (wrap 32 (zlen (PBody p))) ++ Pubkey p ++
    Signature p ++ gap ++ PBody p.
Proof.
  intros Hpk Hsg. unfold wire_form, Packet_Marshal.
  rewrite !app_assoc.
  rewrite <- (app_assoc _ (repeat x00 12) (PBody p)).
  rewrite (take_drop_app_len _ (repeat x00 12 ++ PBody p)).
  2:{ unfold zlen in *. rewrite !length_app, !length_le_split. lia. }
  rewrite (app_assoc _ (repeat x00 12) (PBody p)).
  rewrite (drop_app_len _ (PBody p)); [by rewrite <- !app_assoc|].
  unfold zlen in *. rewrite !length_app, !length_le_split, repeat_length. lia.
Qed.

Lemma Marshal_wire_form p :
  zlen (Pubkey p) = 33 -> zlen (Signature p) = 64 ->
  Packet_Marshal p = wire_form p (repeat x00 12).
Proof. intros. by rewrite wire_form_eq. Qed.

Lemma parse_wire_form p gap :
  Packet_wf p -> zlen gap = 12 -> Unmarshal (Version p) (wire_form p gap) = Ok p.
Proof.
  intros (Hv & Hc & Ht & Ho & Hs & Hm & Hpk & Hsg) Hgap.
  rewrite wire_form_eq by done. unfold Unmarshal.
  assert (u32_ok (zlen (PBody p))) as Hb.
  { unfold uint_ok, MaxBodySize in *. pose proof (zlen_nonneg (PBody p)). lia. }
  rewrite (wrap_small 32) by done.
  pose proof (header_fields (le_split 4 (Version p)) (le_split 4 (Command p))
    (le_split 4 (Timestamp p)) (le_split 4 (OldSize p)) (le_split 4 (zlen (PBody p)))
    (Pubkey p) (Signature p) gap (PBody p) (zlen_le_split _ _) (zlen_le_split _ _)
    (zlen_le_split _ _) (zlen_le_split _ _) (zlen_le_split _ _) Hpk Hsg Hgap) as HF.
  cbv zeta in HF. destruct HF as (-> & -> & -> & -> & -> & -> & -> & Hl & Hd).
  rewrite !le_combine_split_small by done. pose proof (zlen_nonneg (PBody p)).
  rewrite <- Hl, slice_to_end, Hd by (unfold HeaderSize in *; lia).
  rewrite Hl. unfold MaxBodySize, HeaderSize in *.
  rewrite !(proj2 (Z.ltb_ge _ _)), !Z.eqb_refl by lia. cbn.
  rewrite <- Hs. by destruct p.
Qed.

Lemma Unmarshal_inv ver data p :
  Unmarshal ver data = Ok p ->
  Version p = ver /\ Packet_wf p /\ exists gap, zlen gap = 12 /\ data = wire_form p gap.
Proof.
  unfold Unmarshal. intros H; res_inv H; zbool. simplify_eq.
  destruct (header_split data)
    as (v & c & t & o & s & pk & sg & gap & body & -> & Hv & Hc & Ht & Ho & Hs & Hpk & Hsg & Hgap);
    [lia|].
  pose proof (header_fields v c t o s pk sg gap body Hv Hc Ht Ho Hs Hpk Hsg Hgap) as HF.
  cbv zeta in HF. destruct HF as (E1 & E2 & E3 & E4 & E5 & E6 & E7 & Hl & Hd).
  rewrite E5 in *.
  match goal with E : slice _ _ _ = Ok _, Hz : zlen _ = HeaderSize + _ |- _ =>
    pose proof (zlen_nonneg body);
    rewrite <- Hz, slice_to_end, Hd in E by (unfold HeaderSize in *; lia); simplify_eq;
    rewrite Hl in Hz; assert (le_combine s = zlen a) as Hsz by lia end.
  rewrite E1, E2, E3, E4, E6, E7, ?Hsz in *.
  assert (forall x : bytes, zlen x = 4 -> u32_ok (le_combine x)) as Hu.
  { intros x Hx. pose proof (le_combine_ok x) as Hk. by rewrite Hx in Hk. }
  split; [done|]. split.
  - unfold Packet_wf; cbn. split_and!; auto; lia.
  - exists gap. split; [done|]. rewrite wire_form_eq by done. cbn.
    rewrite <- Hsz, wrap_small by auto.
    rewrite !split_le_combine' by (unfold zlen in *; lia). done.
Qed.

Lemma Packet_roundtrip_aux ver p :
  Packet_wf p -> Version p = ver -> Unmarshal ver (Packet_Marshal p) = Ok p.
Proof.
  intros Hp <-. rewrite Marshal_wire_form by apply Hp. by apply parse_wire_form.
Qed.

(** Packet round trip: a packet whose version is the process-wide version
    and whose size field matches its body parses back to itself. *)
Theorem Packet_roundtrip (ver : Z) (p : Packet) :
  Packet_wf p -> Version p = ver -> Unmarshal ver (Packet_Marshal p) = Ok p.
Proof. apply Packet_roundtrip_aux. Qed.

Definition sample_packet : Packet :=
  NewPacket 55 1700000000 XbcTransactionCancel (body_marshal sample_cancel).

Lemma Packet_roundtrip_witness :
  Packet_wf sample_packet /\ Unmarshal 55 (Packet_Marshal sample_packet) = Ok sample_packet.
Proof.
  assert (Packet_wf sample_packet) as H by (vm_compute; split_and!; done).
  split; [exact H|]. exact (Packet_roundtrip 55 sample_packet H eq_refl).
Defined.

(** C38. What the parser accepts, exactly: an input parses to [p] if and only if
    [p] carries the configured version, its declared size is its body length
    and within the 1 MiB cap, and the input is the serialization of [p] except
    for the twelve bytes 117..128, which may hold anything. *)
Theorem Unmarshal_exact (ver : Z) (data : bytes) (p : Packet) :
  Unmarshal ver data = Ok p <->
  Version p = ver /\ Packet_wf p /\
  exists gap, zlen gap = 12 /\ data = wire_form p gap.
Proof.
  split; [apply Unmarshal_inv|]. intros (<- & Hp & gap & Hg & ->). by apply parse_wire_form.
Qed.

Lemma Unmarshal_no_panic ver data : no_panic (Unmarshal ver data).
Proof.
  unfold Unmarshal. destruct (Z.ltb_spec (zlen data) HeaderSize); [done|].
  destruct (negb _); [done|]. destruct (_ <? _); [done|].
  destruct (Z.ltb_spec (zlen data) (HeaderSize + u32_at data 16)); [done|].
  pose proof (proj1 (le_combine_ok (take 4 (drop (Z.to_nat 16) data)))).
  rewrite slice_in_range by (unfold u32_at, HeaderSize in *; lia). cbn.
  by destruct (negb _).
Qed.

(** No inbound buffer crashes the packet parser, and a buffer that carries a
    foreign protocol version is refused with the version error whatever its
    declared body size. *)
Theorem Unmarshal_total (ver : Z) (data : bytes) :
  no_panic (Unmarshal ver data) /\
  (HeaderSize <= zlen data -> u32_at data 0 <> ver ->
   Unmarshal ver data = Err "xbridge: unsupported protocol version").
Proof.
  split; [apply Unmarshal_no_panic|].
  intros Hl Hv. unfold Unmarshal. rewrite (proj2 (Z.ltb_ge _ _)) by lia.
  by rewrite (proj2 (Z.eqb_neq _ _)).
Qed.

Lemma Unmarshal_total_witness :
  Unmarshal 56 (Packet_Marshal sample_packet) = Err "xbridge: unsupported protocol version".
Proof.
  apply (proj2 (Unmarshal_total 56 (Packet_Marshal sample_packet)));
    vm_compute; discriminate.
Defined.

Definition with_signature (sg : bytes) (p : Packet) : Packet :=
  mkPacket (Version p) (Command p) (Timestamp p) (OldSize p) (Size p) (Pubkey p) sg (PBody p).

(** The signing digest commits to everything except the signature: setting
    any 64-byte signature leaves the digest unchanged, and two packets with
    the same digest preimage agree on every serialized field but the signature. *)
Theorem digest_commits (p q : Packet) (sg : bytes) :
  Packet_wf p -> Packet_wf q -> zlen sg = 64 ->
  Packet_Digest (with_signature sg p) = Packet_Digest p /\
  (digest_preimage p = digest_preimage q ->
   q = with_signature (Signature q) p).
Proof.
  intros Hp Hq Hsg. destruct Hp as (Hv & Hc & Ht & Ho & Hs & Hm & Hpk & Hsp).
  destruct Hq as (Hv' & Hc' & Ht' & Ho' & Hs' & Hm' & Hpk' & Hsp').
  split.
  - unfold Packet_Digest. by rewrite !digest_preimage_eq.
  - rewrite !digest_preimage_eq by done. intros H.
    repeat (apply app_inj_1 in H as [? H]; [|by rewrite ?length_le_split]).
    apply app_inj_1 in H as [Hpkeq H]; [|unfold zlen in *; lia].
    do 2 apply app_inv_head in H.
    assert (forall a b, u32_ok a -> u32_ok b -> le_split 4 a = le_split 4 b -> a = b) as Hinj.
    { intros a b Ha Hb E. rewrite <- (le_combine_split_small 4 a), <- (le_combine_split_small 4 b) by done.
      by rewrite E. }
    destruct p, q; unfold with_signature; cbn in *. subst.
    f_equal; auto; by apply Hinj.
Qed.

Lemma digest_commits_witness :
  Packet_Digest (with_signature (repeat x09 64) sample_packet) = Packet_Digest sample_packet.
Proof.
  assert (Packet_wf sample_packet) as H by (vm_compute; split_and!; done).
  exact (proj1 (digest_commits sample_packet sample_packet (repeat x09 64) H H eq_refl)).
Defined.
