(* ===== verification/Wire.v ===== *)
(** * p2p: message frames, CompactSize and the xbridge transport envelope

    Models p2p/message.go (the magic/command/length/checksum frame),
    p2p/envelope.go (CompactSize integers and the varint(28+n) envelope around a
    packet), p2p/params.go and the receive loop of p2p/conn.go: [Conn_readMessage]
    reads frames from the byte stream of a connection, dropping those with a bad
    checksum, and [Conn_ReadPacket] hands non-xbridge messages to the connection's
    callback (a parameter, which may panic) and decodes the next packet.  The stream is the list of bytes the peer will ever send; at its
    end [io.ReadFull] fails.  The loops take fuel: every frame is at least 24
    bytes, so the stream's length is enough ([ReadPacket_total]). *)

From S2P Require Import Prelude Sha256 Codec Bodies Packet.

(** [binary.LittleEndian.UintN(b[pos:])], inside the bounds the callers check. *)
Definition le_at (n : nat) (b : bytes) (pos : Z) : Z :=
  le_combine (take n (drop (Z.to_nat pos) b)).

(** ** CompactSize *)

Definition maxCompactSize : Z := 33554432.

Definition writeVarInt (n : Z) : bytes :=
  if n <? 253 then [byte.of_Z n]
  else if n <=? 65535 then byte.of_Z 253 :: le_split 2 n
  else if n <=? 4294967295 then byte.of_Z 254 :: le_split 4 n
  else byte.of_Z 255 :: le_split 8 n.

(** One extended form: [w] more bytes, canonical when at least [lo]. *)
Definition varint_ext (b : bytes) (pos : Z) (w : nat) (lo : Z) : res (Z * Z) :=
  if zlen b <? pos + Z.of_nat w then Err "p2p: varint truncated"
  else
    let v := le_at w b pos in
    if v <? lo then Err "p2p: non-canonical varint"
    else Ok (v, pos + Z.of_nat w).

Definition readVarInt (b : bytes) (pos : Z) : res (Z * Z) :=
  if zlen b <=? pos then Err "p2p: varint truncated"
  else
    first ← index b pos;
    let first := byte.unsigned first in
    let pos := pos + 1 in
    '(v, pos) ←
      (if first <? 253 then Ok (first, pos)
       else if first =? 253 then varint_ext b pos 2 253
       else if first =? 254 then varint_ext b pos 4 65536
       else varint_ext b pos 8 4294967296);
    if maxCompactSize <? v then Err "p2p: varint too large"
    else Ok (v, pos).

(** ** Message frames *)

Definition cmdSize : Z := 12.
Definition MaxPayloadSize : Z := 4000000.
Definition ErrChecksum : string := "p2p: checksum mismatch".

Record Message := mkMessage {
  Magic : bytes;
  MCommand : bytes;
  Length : Z;
  MChecksum : bytes;
  Payload : bytes
}.

Definition Checksum (payload : bytes) : bytes := take 4 (Sum256 (Sum256 payload)).

(** [copy(make([]byte, cmdSize), command)] *)
Definition command_field (cmd : bytes) : bytes :=
  take 12 cmd ++ repeat x00 (12 - length (take 12 cmd)).

Definition Message_Marshal (m : Message) : bytes :=
  Magic m ++ command_field (MCommand m) ++
  le_split 4 (wrap 32 (zlen (Payload m))) ++ MChecksum m ++ Payload m.

(** [for i < end && data[i] != 0 { i++ }]: the bytes before the first NUL. *)
Fixpoint before_nul (l : bytes) : bytes :=
  match l with
  | [] => []
  | b :: l' => if byte_eq_dec b x00 then [] else b :: before_nul l'
  end.

Definition UnmarshalMessage (data : bytes) : res Message :=
  if zlen data <? 4 + cmdSize + 4 + 4 then Err "p2p: message too short"
  else
    let magic := region data 0 4 in
    let command := before_nul (region data 4 cmdSize) in
    let len := u32_at data (4 + cmdSize) in
    let sum := region data (4 + cmdSize + 4) 4 in
    if MaxPayloadSize <? len then Err "p2p: declared payload too large"
    else if zlen data <? (4 + cmdSize + 8) + len then
      Err "p2p: payload shorter than declared length"
    else
      payload ← slice data (4 + cmdSize + 8) (4 + cmdSize + 8 + len);
      if negb (bool_decide (Checksum payload = sum)) then Err ErrChecksum
      else Ok (mkMessage magic command len sum payload).

(** ** The xbridge envelope *)

Definition xbridgeAddrSize : Z := 20.
Definition xbridgeTimestampSize : Z := 8.
Definition xbridgeEnvelopeSize : Z := xbridgeAddrSize + xbridgeTimestampSize.

(** [now] is [time.Now().UnixMicro()]. *)
Definition encodeXBridgePayload (now : Z) (packet dest : bytes) : bytes :=
  let env := dest ++ le_split 8 (wrap 64 now) ++ packet in
  writeVarInt (zlen env) ++ env.

Definition DecodeXBridgePayload (payload : bytes) : res bytes :=
  '(n, off) ← readVarInt payload 0;
  if negb (off + n =? zlen payload) then Err "p2p: xbridge envelope length mismatch"
  else if n <? xbridgeEnvelopeSize then Err "p2p: xbridge envelope too small"
  else slice payload (off + xbridgeEnvelopeSize) (off + n).

(** ** The connection's receive and send paths *)

Definition MainnetMagic : bytes := [xa1; xa0; xa2; xa3].
Definition TestnetMagic : bytes := [x45; x76; x65; xbb].
Definition RegtestMagic : bytes := [xa1; xcf; x7e; xac].
Definition XBridgeNetCommand : bytes := bytes_of "xbridge".

(** [io.ReadFull(c.reader, make([]byte, n))] *)
Definition ReadFull (n : Z) (stream : bytes) : res (bytes * bytes) :=
  if zlen stream <? n then Err (if zlen stream =? 0 then "EOF" else "unexpected EOF")
  else Ok (take (Z.to_nat n) stream, drop (Z.to_nat n) stream).

Definition read_frame (stream : bytes) : res (bytes * bytes) :=
  '(hdr, stream) ← ReadFull (4 + cmdSize + 8) stream;
  let length := u32_at hdr (4 + cmdSize) in
  if MaxPayloadSize <? length then Err "p2p: implausible message length"
  else
    '(payload, stream) ← ReadFull length stream;
    mret (hdr ++ payload, stream).

(** [None]: out of fuel. *)
Fixpoint readMessage (fuel : nat) (magic stream : bytes) : option (res (Message * bytes)) :=
  match fuel with
  | O => None
  | S fuel =>
      match read_frame stream with
      | Ok (frame, stream) =>
          match UnmarshalMessage frame with
          | Ok msg =>
              if negb (bool_decide (Magic msg = magic))
              then Some (Err "p2p: unexpected network magic")
              else Some (Ok (msg, stream))
          | Err e =>
              if String.eqb e ErrChecksum then readMessage fuel magic stream
              else Some (Err e)
          | Panic => Some Panic
          end
      | Err e => Some (Err e)
      | Panic => Some Panic
      end
  end.

Definition Conn_readMessage (magic stream : bytes) : option (res (Message * bytes)) :=
  readMessage (S (length stream)) magic stream.

Section ReadPacket.
Context {St : Type}.
(** The callback of the connection, when one is set: what it makes of the state it
    closes over, [None] where it panics. *)
Variable OnNonXBridge : option (bytes -> bytes -> St -> option St).

Definition notify (cmd payload : bytes) (st : St) : option St :=
  match OnNonXBridge with Some f => f cmd payload st | None => Some st end.

(** A panic of the callback ends the loop, and the program with it. *)
Fixpoint ReadPacket (fuel : nat) (ver : Z) (magic stream : bytes) (st : St)
    : option (res (Packet * bytes) * St) :=
  match fuel with
  | O => None
  | S fuel =>
      match Conn_readMessage magic stream with
      | None => None
      | Some (Err e) => Some (Err e, st)
      | Some Panic => Some (Panic, st)
      | Some (Ok (msg, stream)) =>
          if negb (bool_decide (MCommand msg = XBridgeNetCommand)) then
            match notify (MCommand msg) (Payload msg) st with
            | Some st => ReadPacket fuel ver magic stream st
            | None => Some (Panic, st)
            end
          else
            match DecodeXBridgePayload (Payload msg) with
            | Ok pktBytes =>
                match Unmarshal ver pktBytes with
                | Ok pkt => Some (Ok (pkt, stream), st)
                | Err e => Some (Err e, st)
                | Panic => Some (Panic, st)
                end
            | Err e => Some (Err ("p2p: malformed xbridge envelope: " ++ e)%string, st)
            | Panic => Some (Panic, st)
            end
      end
  end.

Definition Conn_ReadPacket (ver : Z) (magic stream : bytes) (st : St) :=
  ReadPacket (S (length stream)) ver magic stream st.

(** The callback run on the messages of a list, in order. *)
Fixpoint notify_all (ms : list (bytes * bytes)) (st : St) : option St :=
  match ms with
  | [] => Some st
  | (cmd, payload) :: ms => match notify cmd payload st with Some st => notify_all ms st | None => None end
  end.

End ReadPacket.

(** The frame [SendCommand] and the handshake writers build. *)
Definition SendCommand (magic cmd payload : bytes) : bytes :=
  Message_Marshal (mkMessage magic cmd 0 (Checksum payload) payload).

(** What [WritePacket] puts on the wire. *)
Definition WritePacket (magic : bytes) (now : Z) (p : Packet) (dest : bytes) : bytes :=
  let payload := encodeXBridgePayload now (Packet_Marshal p) dest in
  Message_Marshal (mkMessage magic XBridgeNetCommand 0 (Checksum payload) payload).

(** ** CompactSize lemmas *)

Lemma le_at_mid n (pre m post : bytes) pos :
  zlen pre = pos -> length m = n -> le_at n (pre ++ m ++ post) pos = le_combine m.
Proof.
  intros <- Hm. unfold le_at, zlen. rewrite Nat2Z.id, drop_app_length.
  by rewrite take_drop_app_len.
Qed.

Lemma index_mid {A} (pre : list A) a post : index (pre ++ a :: post) (zlen pre) = Ok a.
Proof.
  unfold index. rewrite zlen_app. unfold zlen. cbn [length].
  rewrite (proj2 (Z.leb_le _ _)), (proj2 (Z.ltb_lt _ _)) by lia. cbn [andb].
  by rewrite Nat2Z.id, list_lookup_middle.
Qed.

Lemma varint_ext_mid pre m post w lo :
  length m = w ->
  varint_ext (pre ++ m ++ post) (zlen pre) w lo =
  if le_combine m <? lo then Err "p2p: non-canonical varint"
  else Ok (le_combine m, zlen pre + Z.of_nat w).
Proof.
  intros Hm. unfold varint_ext. rewrite (le_at_mid w pre m post) by done.
  rewrite !zlen_app. pose proof (zlen_nonneg post). unfold zlen at 2.
  by rewrite (proj2 (Z.ltb_ge _ _)) by lia.
Qed.

Lemma unsigned_of_Z_small v : 0 <= v < 256 -> byte.unsigned (byte.of_Z v) = v.
Proof. intros; by apply byte_of_Z_small. Qed.

Lemma zlen_snoc {A} (l : list A) a : zlen l + 1 = zlen (l ++ [a]).
Proof. by rewrite zlen_app. Qed.

(** The four forms, written once: the prefix byte, the width and the value. *)
Lemma varint_read pre v post :
  0 <= v <= maxCompactSize ->
  readVarInt (pre ++ writeVarInt v ++ post) (zlen pre) =
  Ok (v, zlen pre + zlen (writeVarInt v)).
Proof.
  unfold maxCompactSize. intros Hv. unfold readVarInt.
  assert (exists b t, writeVarInt v = b :: t) as (b & t & Hw).
  { unfold writeVarInt. repeat case_match; eauto. }
  rewrite !zlen_app. rewrite (proj2 (Z.leb_gt _ _))
    by (rewrite Hw, zlen_cons; pose proof (zlen_nonneg t); pose proof (zlen_nonneg post); lia).
  rewrite Hw; cbn [app]. rewrite index_mid; cbn [mbind res_bind]. rewrite zlen_snoc with (a := b).
  replace (pre ++ b :: t ++ post) with ((pre ++ [b]) ++ t ++ post) by (by rewrite <- app_assoc).
  unfold writeVarInt in Hw. revert Hw.
  destruct (Z.ltb_spec v 253); [|destruct (Z.leb_spec v 65535); [|destruct (Z.leb_spec v 4294967295)]];
    intros [= Hb Ht]; subst b t; rewrite unsigned_of_Z_small by lia; cbn [Z.ltb Z.eqb Z.compare Pos.compare Pos.compare_cont Pos.eqb].
  - rewrite (proj2 (Z.ltb_lt _ _)) by lia. cbn.
    rewrite (proj2 (Z.ltb_ge _ _)) by (unfold maxCompactSize; lia). unfold zlen; cbn [length]. do 2 f_equal; rewrite ?length_app; cbn; lia.
  - rewrite varint_ext_mid by apply length_le_split.
    rewrite le_combine_split_small by (unfold uint_ok; lia).
    rewrite (proj2 (Z.ltb_ge v 253)) by lia. cbn [mbind res_bind].
    rewrite (proj2 (Z.ltb_ge _ _)) by (unfold maxCompactSize; lia).
    unfold zlen. rewrite length_app. cbn [length]. rewrite length_le_split. do 2 f_equal. lia.
  - rewrite varint_ext_mid by apply length_le_split.
    rewrite le_combine_split_small by (unfold uint_ok; lia).
    rewrite (proj2 (Z.ltb_ge v 65536)) by lia. cbn [mbind res_bind].
    rewrite (proj2 (Z.ltb_ge _ _)) by (unfold maxCompactSize; lia).
    unfold zlen. rewrite length_app. cbn [length]. rewrite length_le_split. do 2 f_equal. lia.
  - lia.
Qed.

Lemma writeVarInt_zlen v : 0 < zlen (writeVarInt v) <= 9.
Proof.
  unfold writeVarInt. repeat case_match; rewrite zlen_cons; unfold zlen;
    rewrite ?length_le_split; cbn; lia.
Qed.

Lemma varint_ext_inv b pos w lo v pos' :
  0 <= pos -> varint_ext b pos w lo = Ok (v, pos') ->
  lo <= v /\ uint_ok (8 * Z.of_nat w) v /\ pos' = pos + Z.of_nat w /\
  exists post, drop (Z.to_nat pos) b = le_split w v ++ post.
Proof.
  unfold varint_ext, le_at. intros Hp H. res_inv H; zbool. simplify_eq.
  set (d := drop (Z.to_nat pos) b) in *.
  assert (length (take w d) = w) as Hl
    by (subst d; rewrite length_take, length_drop; unfold zlen in *; lia).
  split_and!; try done.
  - pose proof (le_combine_ok (take w d)) as Hok. unfold zlen in Hok. by rewrite Hl in Hok.
  - exists (drop w d). by rewrite split_le_combine', take_drop.
Qed.

Lemma varint_inv b pos v pos' :
  0 <= pos -> readVarInt b pos = Ok (v, pos') ->
  0 <= v <= maxCompactSize /\ pos' = pos + zlen (writeVarInt v) /\
  exists post, drop (Z.to_nat pos) b = writeVarInt v ++ post.
Proof.
  unfold readVarInt. intros Hp H. destruct (Z.leb_spec (zlen b) pos); [done|].
  destruct (index_in_range b pos) as (a & Ha & Hl); [lia|].
  rewrite Ha in H. cbn in H. apply res_bind_ok in H as ([v0 p0] & E & H).
  destruct (Z.ltb_spec maxCompactSize v0); [done|]. simplify_eq.
  pose proof (drop_S b a _ Hl) as Hd.
  replace (S (Z.to_nat pos)) with (Z.to_nat (pos + 1)) in Hd by lia.
  pose proof (byte_unsigned_ok a) as Hb. unfold uint_ok in Hb. unfold maxCompactSize in *.
  assert (forall k, byte.unsigned a = k -> a = byte.of_Z k) as Hk
    by (intros k <-; by rewrite byte.of_Z_unsigned).
  unfold writeVarInt. rewrite Hd.
  destruct (Z.ltb_spec (byte.unsigned a) 253); simplify_eq.
  { rewrite (proj2 (Z.ltb_lt _ _)) by lia. rewrite byte.of_Z_unsigned. cbn. eauto with lia. }
  destruct (Z.eqb_spec (byte.unsigned a) 253) as [E1|]; [|destruct (Z.eqb_spec (byte.unsigned a) 254) as [E1|]];
    apply varint_ext_inv in E as (? & Hu & -> & post & Hpost); try lia; unfold uint_ok in Hu.
  - rewrite Hpost, (Hk _ E1), (proj2 (Z.ltb_ge _ _)), (proj2 (Z.leb_le _ _)) by lia.
    rewrite zlen_cons. unfold zlen. rewrite length_le_split. split_and!; eauto; lia.
  - rewrite Hpost, (Hk _ E1), (proj2 (Z.ltb_ge _ _)), (proj2 (Z.leb_gt _ _)), (proj2 (Z.leb_le _ _)) by lia.
    rewrite zlen_cons. unfold zlen. rewrite length_le_split. split_and!; eauto; lia.
Qed.

Lemma readVarInt_no_panic b pos : 0 <= pos -> no_panic (readVarInt b pos).
Proof.
  intros Hp. unfold readVarInt. destruct (Z.leb_spec (zlen b) pos); [done|].
  destruct (index_in_range b pos) as (a & -> & _); [lia|]. cbn [mbind res_bind].
  apply no_panic_bind; [|intros [] _; by case_match].
  unfold varint_ext; repeat case_match; done.
Qed.

(** CompactSize, exactly: the reader accepts a value at a position if and
    only if the bytes there are the canonical encoding the writer emits of a
    value up to 32 MiB, and it advances by that encoding's length; it never
    reads outside the buffer. *)
Theorem CompactSize_exact (b : bytes) (pos v pos' : Z) :
  0 <= pos ->
  no_panic (readVarInt b pos) /\
  (readVarInt b pos = Ok (v, pos') <->
   0 <= v <= maxCompactSize /\ pos' = pos + zlen (writeVarInt v) /\
   exists pre post, b = pre ++ writeVarInt v ++ post /\ zlen pre = pos).
Proof.
  intros Hp. split; [by apply readVarInt_no_panic|]. split.
  - intros H. pose proof H as H'. apply varint_inv in H as (? & ? & post & Hd); [|done].
    split_and!; try done; try lia.
    exists (take (Z.to_nat pos) b), post. rewrite <- Hd, take_drop. split; [done|].
    unfold readVarInt in H'. destruct (Z.leb_spec (zlen b) pos); [done|].
    unfold zlen in *. rewrite length_take. lia.
  - intros (? & -> & pre & post & -> & <-). by apply varint_read.
Qed.

Lemma CompactSize_exact_witness :
  readVarInt (x00 :: writeVarInt 300) 1 = Ok (300, 4).
Proof.
  apply (CompactSize_exact (x00 :: writeVarInt 300) 1 300 4); [lia|].
  split_and!; [lia|vm_compute; discriminate|reflexivity|].
  exists [x00], []. by vm_compute.
Defined.

(** ** Frames *)

Lemma command_field_length cmd : zlen (command_field cmd) = 12.
Proof. unfold command_field, zlen. rewrite length_app, repeat_length, length_take. lia. Qed.

Lemma before_nul_free l : nul_free (before_nul l).
Proof.
  unfold nul_free. induction l as [|b l IH]; cbn; [apply not_elem_of_nil|].
  destruct (byte_eq_dec b x00); [apply not_elem_of_nil|]. by apply not_elem_of_cons.
Qed.

Lemma before_nul_app s t :
  nul_free s -> t = [] \/ head t = Some x00 -> before_nul (s ++ t) = s.
Proof.
  unfold nul_free. intros Hs Ht. induction s as [|b s IH]; cbn.
  - destruct Ht as [->|Ht]; [done|]. destruct t; simplify_eq/=. by destruct (byte_eq_dec x00 x00).
  - apply not_elem_of_cons in Hs as [? ?]. destruct (byte_eq_dec b x00); [congruence|].
    by rewrite IH.
Qed.

Lemma before_nul_split l :
  exists t, l = before_nul l ++ t /\ (t = [] \/ head t = Some x00).
Proof.
  induction l as [|b l (t & Ht & Hh)]; cbn; [by exists []; auto|].
  destruct (byte_eq_dec b x00) as [->|]; [by exists (x00 :: l); auto|].
  exists t. cbn. by rewrite <- Ht.
Qed.

(** The twelve command bytes that carry [cmd]: the name, then anything that
    starts with a NUL. *)
Definition carries (field cmd : bytes) : Prop :=
  zlen field = 12 /\ nul_free cmd /\
  exists pad, field = cmd ++ pad /\ (pad = [] \/ head pad = Some x00).

Lemma command_field_carries cmd :
  zlen cmd <= 12 -> nul_free cmd -> carries (command_field cmd) cmd.
Proof.
  intros Hl Hn. split; [apply command_field_length|]. split; [done|].
  unfold command_field. rewrite take_ge by (unfold zlen in *; lia).
  eexists; split; [done|]. destruct (12 - length cmd)%nat; auto.
Qed.

Lemma carries_before_nul field cmd :
  carries field cmd <-> zlen field = 12 /\ before_nul field = cmd.
Proof.
  split.
  - intros (Hl & Hn & pad & -> & Hp). split; [done|]. by apply before_nul_app.
  - intros (Hl & <-). split; [done|]. split; [apply before_nul_free|].
    apply before_nul_split.
Qed.

(** A frame as bytes: [sum] is the checksum it carries. *)
Definition frame_of (magic field sum payload : bytes) : bytes :=
  magic ++ field ++ le_split 4 (zlen payload) ++ sum ++ payload.

Lemma frame_fields magic field sum payload tl :
  zlen magic = 4 -> zlen field = 12 -> zlen sum = 4 -> zlen payload <= MaxPayloadSize ->
  let d := frame_of magic field sum payload ++ tl in
  region d 0 4 = magic /\ region d 4 12 = field /\ u32_at d 16 = zlen payload /\
  region d 20 4 = sum /\ drop 24 d = payload ++ tl /\ zlen d = 24 + zlen payload + zlen tl.
Proof.
  intros Hm Hf Hs Hp. unfold frame_of.
  set (len := le_split 4 (zlen payload)).
  assert (zlen len = 4) as Hl by apply zlen_le_split.
  rewrite <- !app_assoc. cbv zeta. split_and!.
  - exact (region_at [] magic _ 0 4 eq_refl Hm).
  - exact (region_at magic field _ 4 12 Hm Hf).
  - rewrite (app_assoc magic). rewrite (u32_at_region (magic ++ field) len) by (rewrite ?zlen_app; lia).
    apply le_combine_split_small. unfold uint_ok, MaxPayloadSize in *.
    pose proof (zlen_nonneg payload). lia.
  - rewrite (app_assoc magic), (app_assoc (magic ++ field)).
    apply region_at; rewrite ?zlen_app; lia.
  - rewrite (app_assoc magic), (app_assoc (magic ++ field)), (app_assoc ((magic ++ field) ++ len)).
    apply drop_app_len. unfold zlen in *. rewrite !length_app. lia.
  - rewrite !zlen_app. lia.
Qed.

Lemma frame_split data :
  24 <= zlen data -> u32_at data 16 <= MaxPayloadSize -> 24 + u32_at data 16 <= zlen data ->
  exists magic field sum payload tl,
    data = frame_of magic field sum payload ++ tl /\
    zlen magic = 4 /\ zlen field = 12 /\ zlen sum = 4 /\ zlen payload = u32_at data 16.
Proof.
  intros Hl Hu Hd.
  destruct (zlen_split data 4) as (magic & d1 & -> & Hm); [lia|].
  rewrite zlen_app in *. destruct (zlen_split d1 12) as (field & d2 & -> & Hf); [lia|].
  rewrite zlen_app in *. destruct (zlen_split d2 4) as (len & d3 & -> & Hlen); [lia|].
  rewrite zlen_app in *. destruct (zlen_split d3 4) as (sum & d4 & -> & Hs); [lia|].
  rewrite zlen_app in *. revert Hu Hd. rewrite app_assoc.
  rewrite (u32_at_region (magic ++ field) len) by (rewrite ?zlen_app; lia). intros Hu Hd.
  pose proof (le_combine_ok len) as Hok. unfold uint_ok in Hok.
  destruct (zlen_split d4 (le_combine len)) as (payload & tl & -> & Hp); [lia|].
  exists magic, field, sum, payload, tl. split_and!; try done.
  unfold frame_of. rewrite Hp, split_le_combine' by (unfold zlen in *; lia).
  by rewrite <- !app_assoc.
Qed.

Lemma UnmarshalMessage_frame magic field sum payload tl :
  zlen magic = 4 -> zlen field = 12 -> zlen sum = 4 -> zlen payload <= MaxPayloadSize ->
  UnmarshalMessage (frame_of magic field sum payload ++ tl) =
  if bool_decide (Checksum payload = sum)
  then Ok (mkMessage magic (before_nul field) (zlen payload) sum payload)
  else Err ErrChecksum.
Proof.
  intros Hm Hf Hs Hp.
  destruct (frame_fields magic field sum payload tl Hm Hf Hs Hp) as (E1 & E2 & E3 & E4 & E5 & E6).
  pose proof (zlen_nonneg payload); pose proof (zlen_nonneg tl).
  unfold UnmarshalMessage, cmdSize. change (4 + 12) with 16. change (16 + 4) with 20.
  rewrite E1, E2, E3, E4, E6. rewrite !(proj2 (Z.ltb_ge _ _)) by lia.
  rewrite slice_in_range by (rewrite ?E6; lia). cbn [mbind res_bind].
  replace (Z.to_nat (16 + 8)) with 24%nat by lia. rewrite E5.
  rewrite take_drop_app_len by (unfold zlen; lia). by case_bool_decide.
Qed.

(** What [Message_wf] and a carrying field say: the messages the parser returns. *)
Definition Message_wf (m : Message) : Prop :=
  zlen (Magic m) = 4 /\ zlen (MCommand m) <= 12 /\ nul_free (MCommand m) /\
  Length m = zlen (Payload m) /\ Length m <= MaxPayloadSize /\
  MChecksum m = Checksum (Payload m).

#[export] Instance Message_wf_dec m : Decision (Message_wf m).
Proof. unfold Message_wf; apply _. Defined.

Lemma Checksum_length p : zlen (Checksum p) = 4.
Proof.
  unfold Checksum, zlen. rewrite length_take. pose proof (Sum256_length (Sum256 p)). lia.
Qed.

Lemma UnmarshalMessage_inv data m :
  UnmarshalMessage data = Ok m ->
  Message_wf m /\ exists field tl, carries field (MCommand m) /\
    data = frame_of (Magic m) field (MChecksum m) (Payload m) ++ tl.
Proof.
  intros H. pose proof H as H0. unfold UnmarshalMessage, cmdSize in H.
  change (4 + 12) with 16 in H. res_inv H; zbool. clear H Ec2 E.
  destruct (frame_split data) as (magic & field & sum & payload & tl & -> & Hm & Hf & Hs & Hp); try lia.
  rewrite UnmarshalMessage_frame in H0 by (rewrite ?Hp; done).
  case_bool_decide as Hc; [|done]. simplify_eq. cbn.
  assert (carries field (before_nul field)) as Hcar by by apply carries_before_nul.
  split; [|eauto].
  destruct Hcar as (_ & Hn & pad & Heq & _).
  assert (zlen (before_nul field) <= 12)
    by (rewrite <- Hf; rewrite Heq at 2; rewrite zlen_app; pose proof (zlen_nonneg pad); lia).
  unfold Message_wf; cbn. split_and!; done || lia.
Qed.

(** What the frame parser accepts, exactly: an input parses to [m] if and
    only if [m]'s command is at most 12 NUL-free bytes, its payload is within
    4,000,000 bytes and carries its own double-SHA256 checksum, and the input
    is the frame of [m], with anything after the command's first NUL and
    after the payload; [Message_Marshal] emits such an input. *)
Theorem UnmarshalMessage_exact (data : bytes) (m : Message) :
  (UnmarshalMessage data = Ok m <->
   Message_wf m /\ exists field tl, carries field (MCommand m) /\
     data = frame_of (Magic m) field (MChecksum m) (Payload m) ++ tl) /\
  (Message_wf m -> UnmarshalMessage (Message_Marshal m) = Ok m).
Proof.
  assert (forall field tl, Message_wf m -> carries field (MCommand m) ->
    UnmarshalMessage (frame_of (Magic m) field (MChecksum m) (Payload m) ++ tl) = Ok m) as Hfwd.
  { intros field tl (Hm & Hc & Hn & Hl & Hmax & Hsum) Hcar.
    pose proof (proj1 (carries_before_nul _ _) Hcar) as [Hf Hb].
    rewrite UnmarshalMessage_frame; try done; [|by rewrite Hsum, Checksum_length|lia].
    rewrite bool_decide_true by done. rewrite Hb, <- Hl. by destruct m. }
  split; [split|].
  - apply UnmarshalMessage_inv.
  - intros (Hwf & field & tl & Hcar & ->). by apply Hfwd.
  - intros Hwf. pose proof Hwf as (Hm & Hc & Hn & Hl & Hmax & Hsum).
    rewrite <- (Hfwd (command_field (MCommand m)) []); [|done|by apply command_field_carries].
    unfold Message_Marshal, frame_of. rewrite app_nil_r, wrap_small; [done|].
    unfold MaxPayloadSize, uint_ok in *. pose proof (zlen_nonneg (Payload m)). lia.
Qed.

Definition sample_message : Message :=
  mkMessage MainnetMagic XBridgeNetCommand 3 (Checksum [x01; x02; x03]) [x01; x02; x03].

Lemma UnmarshalMessage_exact_witness :
  UnmarshalMessage (Message_Marshal sample_message) = Ok sample_message.
Proof.
  apply (proj2 (UnmarshalMessage_exact [] sample_message)).
  apply (bool_decide_unpack (Message_wf sample_message)). by vm_compute.
Defined.

(** ** The receive loop *)

Lemma ReadFull_app a b n : zlen a = n -> ReadFull n (a ++ b) = Ok (a, b).
Proof.
  intros <-. unfold ReadFull. rewrite zlen_app. pose proof (zlen_nonneg b).
  rewrite (proj2 (Z.ltb_ge _ _)) by lia. unfold zlen. rewrite Nat2Z.id.
  by rewrite take_app_length, drop_app_length.
Qed.

Lemma ReadFull_inv n s a b : 0 <= n -> ReadFull n s = Ok (a, b) -> s = a ++ b /\ zlen a = n.
Proof.
  unfold ReadFull. intros Hn H. res_inv H; zbool. simplify_eq. rewrite take_drop.
  split; [done|]. unfold zlen in *. rewrite length_take. lia.
Qed.

Lemma read_frame_inv s frame s' :
  read_frame s = Ok (frame, s') -> s = frame ++ s' /\ 24 <= zlen frame.
Proof.
  unfold read_frame. intros H. apply res_bind_ok in H as ([hdr s1] & E & H).
  apply ReadFull_inv in E as [-> Hh]; [|done]. destruct (_ <? _); [done|].
  apply res_bind_ok in H as ([payload s2] & E & H).
  pose proof (le_combine_ok (take 4 (drop (Z.to_nat (4 + cmdSize)) hdr))) as Hu.
  apply ReadFull_inv in E as [-> Hp]; [|apply Hu]. unfold mret, res_ret in H. simplify_eq.
  rewrite <- app_assoc, zlen_app. change (4 + cmdSize + 8) with 24 in Hh.
  pose proof (zlen_nonneg payload). split; [done|lia].
Qed.

Lemma read_frame_app magic field sum payload rest :
  zlen magic = 4 -> zlen field = 12 -> zlen sum = 4 -> zlen payload <= MaxPayloadSize ->
  read_frame (frame_of magic field sum payload ++ rest) =
  Ok (frame_of magic field sum payload, rest).
Proof.
  intros Hm Hf Hs Hp.
  set (hdr := magic ++ field ++ le_split 4 (zlen payload) ++ sum).
  assert (frame_of magic field sum payload = hdr ++ payload) as ->
    by (unfold frame_of, hdr; by rewrite <- !app_assoc).
  assert (zlen hdr = 4 + cmdSize + 8) as Hh
    by (unfold hdr, cmdSize; rewrite !zlen_app, zlen_le_split; lia).
  assert (u32_at hdr (4 + cmdSize) = zlen payload) as Hu.
  { unfold hdr. rewrite (app_assoc magic).
    rewrite (u32_at_region (magic ++ field) (le_split 4 (zlen payload)));
      [|rewrite zlen_app; unfold cmdSize; lia|apply zlen_le_split].
    apply le_combine_split_small. unfold uint_ok, MaxPayloadSize in *.
    pose proof (zlen_nonneg payload). lia. }
  unfold read_frame. rewrite <- app_assoc, ReadFull_app by done. cbn [mbind res_bind].
  rewrite Hu, (proj2 (Z.ltb_ge _ _)) by lia. by rewrite ReadFull_app.
Qed.

Lemma UnmarshalMessage_no_panic data : no_panic (UnmarshalMessage data).
Proof.
  unfold UnmarshalMessage. destruct (Z.ltb_spec (zlen data) (4 + cmdSize + 4 + 4)); [done|].
  destruct (_ <? _); [done|].
  destruct (Z.ltb_spec (zlen data) (4 + cmdSize + 8 + u32_at data (4 + cmdSize))); [done|].
  pose proof (le_combine_ok (take 4 (drop (Z.to_nat (4 + cmdSize)) data))) as Hu.
  rewrite slice_in_range by (unfold u32_at, cmdSize, uint_ok in *; lia).
  cbn. by case_match.
Qed.

Lemma ReadFull_no_panic n s : no_panic (ReadFull n s).
Proof. unfold ReadFull. by case_match. Qed.

Lemma read_frame_no_panic s : no_panic (read_frame s).
Proof.
  unfold read_frame. apply no_panic_bind; [apply ReadFull_no_panic|]. intros [] _.
  case_match; [done|]. apply no_panic_bind; [apply ReadFull_no_panic|]. by intros [].
Qed.

Lemma DecodeXBridgePayload_no_panic p : no_panic (DecodeXBridgePayload p).
Proof.
  unfold DecodeXBridgePayload. apply no_panic_bind; [by apply readVarInt_no_panic|].
  intros [n off] H. apply varint_inv in H as (? & -> & _); [|done].
  pose proof (writeVarInt_zlen n).
  case_match; [done|]. destruct (Z.ltb_spec n xbridgeEnvelopeSize) as [|Hn]; [done|].
  unfold xbridgeEnvelopeSize, xbridgeAddrSize, xbridgeTimestampSize in *.
  zbool. rewrite slice_in_range by lia. done.
Qed.

Lemma readMessage_total fuel magic s :
  (length s < fuel)%nat ->
  exists r, readMessage fuel magic s = Some r /\ no_panic r /\
    forall m s', r = Ok (m, s') -> (length s' < length s)%nat.
Proof.
  revert s. induction fuel as [|fuel IH]; intros s Hf; [lia|]. cbn.
  pose proof (read_frame_no_panic s) as Hnp.
  destruct (read_frame s) as [[frame s1]|e|] eqn:E; [|by eexists|done].
  apply read_frame_inv in E as [-> Hl]. unfold zlen in Hl. rewrite length_app in Hf |- *.
  pose proof (UnmarshalMessage_no_panic frame).
  destruct (UnmarshalMessage frame) as [m|e|]; [|case_match|done].
  - case_match; eexists; (split; [done|]); split; try done. intros; simplify_eq. lia.
  - destruct (IH s1) as (r & Hr & Hp & Hs); [lia|]. exists r. split_and!; try done.
    intros m s' ->. specialize (Hs _ _ eq_refl). lia.
  - by eexists.
Qed.

(** More fuel changes nothing. *)
Lemma readMessage_fuel fuel fuel' magic s r :
  readMessage fuel magic s = Some r -> (fuel <= fuel')%nat -> readMessage fuel' magic s = Some r.
Proof.
  revert fuel' s. induction fuel as [|fuel IH]; intros fuel' s H Hf; [done|].
  destruct fuel' as [|fuel']; [lia|]. cbn in *.
  destruct (read_frame s) as [[frame s1]|e|]; [|done|done].
  destruct (UnmarshalMessage frame) as [m|e|]; [done| |done].
  case_match; [|done]. apply IH; [done|lia].
Qed.

(** How a call of [ReadPacket] on [stream] in the state [st] may end: the callback
    has run on the messages of other commands, in order; a packet leaves a
    shorter stream; and a crash is the callback's on the last of the messages. *)
Definition read_ends {St} (on : option (bytes -> bytes -> St -> option St)) (stream : bytes) (st : St)
    (r : res (Packet * bytes)) (st' : St) : Prop :=
  exists ms, Forall (fun m => m.1 <> XBridgeNetCommand) ms /\ notify_all on ms st = Some st' /\
    match r with
    | Ok (_, rest) => (length rest < length stream)%nat
    | Err _ => True
    | Panic => exists cmd payload, cmd <> XBridgeNetCommand /\ notify on cmd payload st' = None
    end.

Lemma read_ends_here {St} (on : option (bytes -> bytes -> St -> option St)) stream st r :
  match r with Ok (_, rest) => (length rest < length stream)%nat | Err _ => True
    | Panic => exists cmd payload, cmd <> XBridgeNetCommand /\ notify on cmd payload st = None end ->
  read_ends on stream st r st.
Proof. intros H. exists []. done. Qed.

Lemma ReadPacket_total {St} (on : option (bytes -> bytes -> St -> option St)) fuel ver magic s st :
  (length s < fuel)%nat ->
  exists r st', ReadPacket on fuel ver magic s st = Some (r, st') /\ read_ends on s st r st'.
Proof.
  revert s st. induction fuel as [|fuel IH]; intros s st Hf; [lia|].
  cbn [ReadPacket]. unfold Conn_readMessage.
  destruct (readMessage_total (S (length s)) magic s) as (r & -> & Hp & Hs); [lia|].
  destruct r as [[m s']|e|]; [|do 2 eexists; split; [done|by apply read_ends_here]|done].
  specialize (Hs _ _ eq_refl). case_bool_decide as Hc; cbn [negb].
  - pose proof (DecodeXBridgePayload_no_panic (Payload m)) as Hd.
    destruct (DecodeXBridgePayload (Payload m)) as [b|e|]; [|do 2 eexists; split; [done|by apply read_ends_here]|by destruct Hd].
    pose proof (Unmarshal_no_panic ver b) as Hu.
    destruct (Unmarshal ver b); [| |by destruct Hu]; (do 2 eexists; split; [done|by apply read_ends_here]).
  - destruct (notify on (MCommand m) (Payload m) st) as [st1|] eqn:En.
    + destruct (IH s' st1) as (r & st' & -> & ms & Hms & Hall & Hr); [lia|]. do 2 eexists; split; [done|].
      exists ((MCommand m, Payload m) :: ms). split_and!; [by constructor|cbn; by rewrite En|].
      destruct r as [[p rest]|e|]; [lia|done|done].
    + do 2 eexists; split; [done|]. apply read_ends_here. eauto.
Qed.

(** ** A peer's stream: frames to skip, then a packet *)

(** A message of another command, or a frame whose checksum is wrong. *)
Inductive Noise :=
| Other (cmd payload : bytes)
| Corrupt (magic field sum payload : bytes).

Definition noise_ok (n : Noise) : Prop :=
  match n with
  | Other cmd payload =>
      zlen cmd <= 12 /\ nul_free cmd /\ cmd <> XBridgeNetCommand /\
      zlen payload <= MaxPayloadSize
  | Corrupt magic field sum payload =>
      zlen magic = 4 /\ zlen field = 12 /\ zlen sum = 4 /\
      zlen payload <= MaxPayloadSize /\ Checksum payload <> sum
  end.

#[export] Instance noise_ok_dec n : Decision (noise_ok n).
Proof. destruct n; unfold noise_ok; apply _. Defined.

Definition noise_bytes (magic : bytes) (n : Noise) : bytes :=
  match n with
  | Other cmd payload => SendCommand magic cmd payload
  | Corrupt magic field sum payload => frame_of magic field sum payload
  end.

Definition noise_delivered (n : Noise) : list (bytes * bytes) :=
  match n with Other cmd payload => [(cmd, payload)] | Corrupt _ _ _ _ => [] end.

Lemma SendCommand_frame magic cmd payload :
  zlen payload <= MaxPayloadSize ->
  SendCommand magic cmd payload =
  frame_of magic (command_field cmd) (Checksum payload) payload.
Proof.
  intros Hp. unfold SendCommand, Message_Marshal, frame_of; cbn. rewrite wrap_small; [done|].
  unfold MaxPayloadSize, uint_ok in *. pose proof (zlen_nonneg payload). lia.
Qed.

Lemma readMessage_SendCommand magic cmd payload rest :
  zlen magic = 4 -> zlen cmd <= 12 -> nul_free cmd -> zlen payload <= MaxPayloadSize ->
  Conn_readMessage magic (SendCommand magic cmd payload ++ rest) =
  Some (Ok (mkMessage magic cmd (zlen payload) (Checksum payload) payload, rest)).
Proof.
  intros Hm Hc Hn Hp. rewrite SendCommand_frame by done. unfold Conn_readMessage. cbn [readMessage].
  rewrite read_frame_app by (done || apply command_field_length || apply Checksum_length).
  rewrite <- (app_nil_r (frame_of _ _ _ _)).
  rewrite UnmarshalMessage_frame by (done || apply command_field_length || apply Checksum_length).
  rewrite bool_decide_true by done. cbn [Magic]. rewrite bool_decide_true by done. cbn [negb].
  do 3 f_equal. f_equal.
  by apply (carries_before_nul (command_field cmd) cmd), command_field_carries.
Qed.

Lemma readMessage_Corrupt magic' magic field sum payload rest :
  noise_ok (Corrupt magic field sum payload) ->
  Conn_readMessage magic' (frame_of magic field sum payload ++ rest) = Conn_readMessage magic' rest.
Proof.
  intros (Hm & Hf & Hs & Hp & Hsum). unfold Conn_readMessage at 1. cbn [readMessage].
  rewrite read_frame_app by done.
  rewrite <- (app_nil_r (frame_of _ _ _ _)) at 1. rewrite UnmarshalMessage_frame by done.
  rewrite bool_decide_false by done. rewrite String.eqb_refl.
  unfold Conn_readMessage.
  destruct (readMessage_total (S (length rest)) magic' rest) as (r & Hr & _); [lia|].
  rewrite Hr. apply readMessage_fuel with (fuel := S (length rest)); [done|].
  rewrite length_app. unfold frame_of. rewrite !length_app. unfold zlen in *. lia.
Qed.

Lemma encodeXBridgePayload_decode now pkt dest :
  zlen dest = 20 -> zlen pkt <= MaxPayloadSize - 64 ->
  DecodeXBridgePayload (encodeXBridgePayload now pkt dest) = Ok pkt.
Proof.
  intros Hd Hp. unfold encodeXBridgePayload, DecodeXBridgePayload.
  set (env := dest ++ le_split 8 (wrap 64 now) ++ pkt).
  pose proof (zlen_nonneg pkt).
  assert (zlen env = 28 + zlen pkt) as He by (unfold env; rewrite !zlen_app, zlen_le_split; lia).
  pose proof (varint_read [] (zlen env) env) as Hr. cbn [app] in Hr.
  change (zlen []) with 0 in Hr.
  rewrite Hr by (unfold maxCompactSize, MaxPayloadSize in *; lia). cbn [mbind res_bind].
  set (v := writeVarInt (zlen env)).
  rewrite zlen_app, Z.add_0_l, Z.eqb_refl. cbn [negb].
  unfold xbridgeEnvelopeSize, xbridgeAddrSize, xbridgeTimestampSize.
  rewrite (proj2 (Z.ltb_ge _ _)) by lia. pose proof (zlen_nonneg v).
  rewrite slice_in_range by (rewrite ?zlen_app; lia). f_equal.
  replace (Z.to_nat (zlen v + (20 + 8))) with (length v + 28)%nat by (unfold zlen; lia).
  rewrite <- drop_drop, drop_app_length.
  assert (drop 28 env = pkt) as ->.
  { unfold env. rewrite (app_assoc dest). apply drop_app_len.
    rewrite length_app, length_le_split. unfold zlen in *. lia. }
  apply take_ge. unfold zlen in *. lia.
Qed.

Lemma Packet_frame_fits p : Packet_wf p -> zlen (Packet_Marshal p) <= 1048705.
Proof.
  intros (? & ? & ? & ? & Hs & Hm & Hpk & Hsg). unfold MaxBodySize in *.
  rewrite Marshal_length by done. unfold HeaderSize. lia.
Qed.

Lemma WritePacket_SendCommand magic now p dest :
  WritePacket magic now p dest =
  SendCommand magic XBridgeNetCommand (encodeXBridgePayload now (Packet_Marshal p) dest).
Proof. done. Qed.

(** [enough] fuel: one unit per noise frame and one for the packet. *)
Lemma ReadPacket_noise {St} (on : option (bytes -> bytes -> St -> option St)) ver magic now p dest rest noise fuel st st' :
  Packet_wf p -> Version p = ver -> zlen magic = 4 -> zlen dest = 20 ->
  Forall noise_ok noise -> (length noise < fuel)%nat ->
  notify_all on (noise ≫= noise_delivered) st = Some st' ->
  ReadPacket on fuel ver magic
    ((noise ≫= noise_bytes magic) ++ WritePacket magic now p dest ++ rest) st =
  Some (Ok (p, rest), st').
Proof.
  intros Hp Hv Hm Hd Hn. revert fuel st. pose proof (Packet_frame_fits p Hp) as Hfit.
  induction Hn as [|n noise Hok Hn IH]; intros fuel st Hf Hst; (destruct fuel as [|fuel]; [cbn in Hf; lia|]).
  - change ([] ≫= noise_bytes magic) with (@nil byte). rewrite app_nil_l, WritePacket_SendCommand.
    cbn [ReadPacket]. rewrite readMessage_SendCommand; [|done|by vm_compute|..].
    + cbn [MCommand Payload]. rewrite bool_decide_true by done. cbn [negb].
      rewrite encodeXBridgePayload_decode by (unfold MaxPayloadSize; lia || done).
      rewrite Packet_roundtrip_aux by done. by injection Hst as ->.
    + apply (bool_decide_unpack (nul_free XBridgeNetCommand)). by vm_compute.
    + unfold encodeXBridgePayload. rewrite !zlen_app, zlen_le_split.
      pose proof (writeVarInt_zlen (zlen dest + (Z.of_nat 8 + zlen (Packet_Marshal p)))).
      unfold MaxPayloadSize. lia.
  - rewrite !bind_cons, <- app_assoc. rewrite bind_cons in Hst. cbn [length] in Hf. destruct n as [cmd payload|m f s pl].
    + destruct Hok as (Hc & Hnf & Hx & Hpl). cbn [ReadPacket noise_bytes].
      rewrite readMessage_SendCommand by done. cbn [MCommand Payload].
      rewrite bool_decide_false by done. cbn [negb]. cbn [noise_delivered app notify_all] in Hst.
      destruct (notify on cmd payload st); [|done]. apply IH; [lia|done].
    + cbn [ReadPacket noise_bytes]. rewrite readMessage_Corrupt by done.
      exact (IH (S fuel) st ltac:(lia) Hst).
Qed.

(** The transport round trip: a packet sent by [WritePacket] is the packet
    the peer's [ReadPacket] returns, whatever the clock, and after any number of
    messages of other commands (each handed to [OnNonXBridge], in order) and of
    frames with a wrong checksum (dropped without a word); what follows the
    frame stays in the stream. *)
Theorem transport_roundtrip {St} (on : option (bytes -> bytes -> St -> option St)) (ver : Z) (magic dest rest : bytes) (now : Z)
    (p : Packet) (noise : list Noise) (st st' : St) :
  Packet_wf p -> Version p = ver -> zlen magic = 4 -> zlen dest = 20 ->
  Forall noise_ok noise -> notify_all on (noise ≫= noise_delivered) st = Some st' ->
  Conn_ReadPacket on ver magic
    ((noise ≫= noise_bytes magic) ++ WritePacket magic now p dest ++ rest) st =
  Some (Ok (p, rest), st').
Proof.
  intros. unfold Conn_ReadPacket. apply ReadPacket_noise; try done.
  rewrite length_app. assert (length noise <= length (noise ≫= noise_bytes magic))%nat; [|lia].
  clear. induction noise as [|n l IH]; [done|]. rewrite bind_cons, length_app. cbn [length].
  assert (0 < length (noise_bytes magic n))%nat; [|lia].
  destruct n; cbn [noise_bytes]; unfold SendCommand, Message_Marshal, frame_of;
    rewrite !length_app, length_le_split; lia.
Qed.

Definition collect (cmd payload : bytes) (l : list (bytes * bytes)) : option (list (bytes * bytes)) := Some (l ++ [(cmd, payload)]).

Lemma transport_roundtrip_witness :
  Conn_ReadPacket (Some collect) 55 MainnetMagic
    (SendCommand MainnetMagic (bytes_of "ping") [x01] ++
     frame_of MainnetMagic (command_field XBridgeNetCommand) [x00; x00; x00; x00] [x02] ++
     WritePacket MainnetMagic 1700000000000000 sample_packet (repeat x00 20) ++ [x09]) [] =
  Some (Ok (sample_packet, [x09]), [(bytes_of "ping", [x01])]).
Proof.
  pose proof (transport_roundtrip (Some collect) 55 MainnetMagic (repeat x00 20) [x09] 1700000000000000
    sample_packet
    [Other (bytes_of "ping") [x01];
     Corrupt MainnetMagic (command_field XBridgeNetCommand) [x00; x00; x00; x00] [x02]] [] [(bytes_of "ping", [x01])]) as H.
  cbn [mbind list_bind noise_bytes noise_delivered app] in H. rewrite <- !app_assoc in H.
  apply H; clear H.
  - vm_compute; split_and!; done.
  - done.
  - done.
  - done.
  - apply (bool_decide_unpack (Forall noise_ok _)). by vm_compute.
  - reflexivity.
Defined.

(** C39. The receive loop always ends: whatever bytes a peer sends and whatever the
    callback of the connection does, [ReadPacket] returns a packet, with less of
    the stream left, or an error, after it handed the messages of other commands
    to the callback in their order; and it crashes only if the callback does, on
    such a message. *)
Theorem ReadPacket_returns {St} (on : option (bytes -> bytes -> St -> option St)) (ver : Z) (magic stream : bytes) (st : St) :
  exists r st', Conn_ReadPacket on ver magic stream st = Some (r, st') /\ read_ends on stream st r st'.
Proof. apply ReadPacket_total. lia. Qed.
