(* ===== verification/Peer.v ===== *)
(** * p2p: network addresses, the version message and the handshake

    Models p2p/version.go (the [version] payload and its parser), p2p/addr.go
    (the legacy [addr] record list) and [Conn.handshake] of p2p/conn.go.  A
    [net.IP] is its bytes ([nil] is the empty list); [To4], [To16] and
    [net.IPv4] are the net package's.  Slices at the reader's position are
    suffixes of the payload. *)

From S2P Require Import Prelude Sha256 Codec Bodies Packet Wire.

(** ** net.IP *)

Definition v4_prefix : bytes := repeat x00 10 ++ [xff; xff].

Definition IP_To4 (ip : bytes) : option bytes :=
  if zlen ip =? 4 then Some ip
  else if (zlen ip =? 16) && bool_decide (take 12 ip = v4_prefix) then Some (drop 12 ip)
  else None.

Definition IP_To16 (ip : bytes) : option bytes :=
  if zlen ip =? 4 then Some (v4_prefix ++ ip)
  else if zlen ip =? 16 then Some ip
  else None.

(** [net.IPv4(a, b, c, d)] *)
Definition IPv4 (abcd : bytes) : bytes := v4_prefix ++ abcd.

Definition ipTo16 (ip : bytes) : bytes :=
  match IP_To4 ip with
  | Some ip4 => repeat x00 10 ++ [xff; xff] ++ ip4
  | None =>
      match IP_To16 ip with
      | Some ip6 => ip6
      | None => repeat x00 16
      end
  end.

(** The argument is the 16-byte array [b]. *)
Definition netIPFrom16 (b : bytes) : bytes :=
  if bool_decide (take 2 (drop 10 b) = [xff; xff]) then IPv4 (drop 12 b) else b.

(** ** addr records *)

Record AddrEntry := mkAddrEntry {
  a_Time : Z;
  a_Services : Z;
  a_IP : bytes;
  a_Port : Z
}.

Definition MaxAddrRecords : Z := 1000.

(** [binary.BigEndian.Uint16(b[off:off+2])] *)
Definition be16_at (b : bytes) (off : Z) : Z := be_combine (region b off 2).

Fixpoint read_addrs (n : nat) (payload : bytes) (off : Z) : list AddrEntry :=
  match n with
  | O => []
  | S n =>
      if zlen payload <? off + 4 + 8 + 16 + 2 then []
      else
        let t := le_at 4 payload off in
        let svc := le_at 8 payload (off + 4) in
        let ip16 := region payload (off + 12) 16 in
        let port := be16_at payload (off + 28) in
        mkAddrEntry t svc (netIPFrom16 ip16) port :: read_addrs n payload (off + 30)
  end.

Definition ParseAddr (payload : bytes) : res (list AddrEntry) :=
  '(n, off) ← readVarInt payload 0;
  if MaxAddrRecords <? n then Err "p2p: addr payload exceeds 1000 records"
  else Ok (read_addrs (Z.to_nat n) payload off).

Definition marshal_record (a : AddrEntry) : bytes :=
  le_split 4 (a_Time a) ++ le_split 8 (a_Services a) ++ ipTo16 (a_IP a) ++
  be_split 2 (a_Port a).

Definition MarshalAddr (addrs : list AddrEntry) : bytes :=
  writeVarInt (zlen addrs) ++ (addrs ≫= marshal_record).

(** ** The version message *)

Definition ServiceNodeNone : Z := 0.
Definition BitcoinProtocolVersion : Z := 70713.
Definition MinPeerProtoVersion : Z := 70712.
Definition UserAgent_const : bytes := bytes_of "/go-xbridge:0.1.0/".

Record NetAddr := mkNetAddr { n_Services : Z; n_IP : bytes; n_Port : Z }.

Record VersionMessage := mkVersionMessage {
  v_Version : Z;
  v_Services : Z;
  v_Timestamp : Z;
  v_AddrRecv : NetAddr;
  v_AddrFrom : NetAddr;
  v_Nonce : Z;
  v_UserAgent : bytes;
  v_StartHeight : Z;
  v_Relay : bool;
  v_FXRouter : bool
}.

(** [intW(u)] for an unsigned [u]: two's complement. *)
Definition sint (w u : Z) : Z := if u <? 2 ^ (w - 1) then u else u - 2 ^ w.

Definition marshalNetAddr (a : NetAddr) : bytes :=
  le_split 8 (n_Services a) ++ ipTo16 (n_IP a) ++ be_split 2 (n_Port a).

Definition marshalVarStr (s : bytes) : bytes := writeVarInt (zlen s) ++ s.

Definition bool_byte (b : bool) : byte := if b then x01 else x00.

Definition VersionMessage_Marshal (m : VersionMessage) : bytes :=
  le_split 4 (wrap 32 (v_Version m)) ++
  le_split 8 (v_Services m) ++
  le_split 8 (wrap 64 (v_Timestamp m)) ++
  marshalNetAddr (v_AddrRecv m) ++
  marshalNetAddr (v_AddrFrom m) ++
  le_split 8 (v_Nonce m) ++
  marshalVarStr (v_UserAgent m) ++
  le_split 4 (wrap 32 (v_StartHeight m)) ++
  [bool_byte (v_Relay m)] ++
  [bool_byte (v_FXRouter m)].

(** [remote]: the TCP address, if the connection has one; [now] and [nonce] are
    the clock and the random number drawn. *)
Definition NewVersion (remote : option (bytes * Z)) (now nonce : Z) : VersionMessage :=
  let addrRecv :=
    match remote with
    | Some (ip, port) => mkNetAddr ServiceNodeNone ip (wrap 16 port)
    | None => mkNetAddr 0 [] 0
    end in
  mkVersionMessage BitcoinProtocolVersion ServiceNodeNone now addrRecv (mkNetAddr 0 [] 0)
    nonce UserAgent_const 0 false false.

Definition unmarshalNetAddr (b : bytes) : res (NetAddr * Z) :=
  if zlen b <? 26 then Err "p2p: net_addr too short"
  else Ok (mkNetAddr (le_at 8 b 0) (netIPFrom16 (region b 8 16)) (be16_at b 24), 26).

(** The length prefix: any of the four forms, canonical or not, as an [int]. *)
Definition varstr_len (b : bytes) : res (Z * Z) :=
  first ← index b 0;
  let first := byte.unsigned first in
  if first <? 253 then Ok (first, 1)
  else if first =? 253 then
    if zlen b <? 3 then Err "p2p: varstr too short" else Ok (le_at 2 b 1, 3)
  else if first =? 254 then
    if zlen b <? 5 then Err "p2p: varstr too short" else Ok (le_at 4 b 1, 5)
  else
    if zlen b <? 9 then Err "p2p: varstr too short" else Ok (sint 64 (le_at 8 b 1), 9).

Definition unmarshalVarStr (b : bytes) : res (bytes * Z) :=
  if zlen b <? 1 then Err "p2p: varstr too short"
  else
    '(n, pos) ← varstr_len b;
    let fin := swrap64 (pos + n) in
    if zlen b <? fin then Err "p2p: varstr length exceeds payload"
    else s ← slice b pos fin; Ok (s, fin).

Definition from (b : bytes) (pos : Z) : bytes := drop (Z.to_nat pos) b.

Definition flag_at (b : bytes) (pos : Z) : bool :=
  match b !! Z.to_nat pos with Some x => negb (byte.unsigned x =? 0) | None => false end.

Definition UnmarshalVersion (b : bytes) : res VersionMessage :=
  if zlen b <? 4 + 8 + 8 then Err "p2p: version payload too short"
  else
    let version := sint 32 (le_at 4 b 0) in
    let services := le_at 8 b 4 in
    let timestamp := sint 64 (le_at 8 b 12) in
    let pos := 20 in
    '(addrRecv, n) ← unmarshalNetAddr (from b pos);
    let pos := pos + n in
    '(addrFrom, n) ← unmarshalNetAddr (from b pos);
    let pos := pos + n in
    if zlen b <? pos + 8 then Err "p2p: version payload too short (nonce)"
    else
      let nonce := le_at 8 b pos in
      let pos := pos + 8 in
      '(ua, n) ← unmarshalVarStr (from b pos);
      let pos := pos + n in
      if zlen b <? pos + 4 then Err "p2p: version payload too short (start height)"
      else
        let height := sint 32 (le_at 4 b pos) in
        let pos := pos + 4 in
        let relay := (pos <? zlen b) && flag_at b pos in
        let pos := if pos <? zlen b then pos + 1 else pos in
        let fx := (pos <? zlen b) && flag_at b pos in
        Ok (mkVersionMessage version services timestamp addrRecv addrFrom nonce ua height relay fx).

(** ** The handshake

    [out] lists the (command, payload) messages written so far; writes to the
    socket are taken to succeed.  [None]: out of fuel. *)

Definition cmd_version : bytes := bytes_of "version".
Definition cmd_verack : bytes := bytes_of "verack".

Record HsState := mkHs {
  seenVersion : bool;
  seenVerack : bool;
  peerVersion : option VersionMessage;
  out : list (bytes * bytes)
}.

(** The body of the loop, on one message. *)
Definition handshake_step (msg : Message) (h : HsState) : res HsState :=
  if decide (MCommand msg = cmd_version) then
    if seenVersion h then Err "p2p: duplicate version message"
    else
      v ← UnmarshalVersion (Payload msg);
      if v_Version v <? MinPeerProtoVersion then Err "p2p: peer version below minimum"
      else Ok (mkHs true (seenVerack h) (Some v) (out h ++ [(cmd_verack, [])]))
  else if decide (MCommand msg = cmd_verack) then
    Ok (mkHs (seenVersion h) true (peerVersion h) (out h))
  else Ok h.

Fixpoint handshake_loop (fuel : nat) (magic stream : bytes) (h : HsState)
    : option (res (HsState * bytes)) :=
  if seenVersion h && seenVerack h then Some (Ok (h, stream))
  else
    match fuel with
    | O => None
    | S fuel =>
        match Conn_readMessage magic stream with
        | None => None
        | Some (Err e) => Some (Err e)
        | Some Panic => Some Panic
        | Some (Ok (msg, stream)) =>
            match handshake_step msg h with
            | Ok h => handshake_loop fuel magic stream h
            | Err e => Some (Err e)
            | Panic => Some Panic
            end
        end
    end.

Definition handshake (magic : bytes) (own : VersionMessage) (stream : bytes)
    : option (res (HsState * bytes)) :=
  handshake_loop (S (length stream)) magic stream
    (mkHs false false None [(cmd_version, VersionMessage_Marshal own)]).

(** ** IP addresses *)

(** The 16-byte forms that survive a trip through [net.IP]: those with bytes
    10 and 11 at 0xff are IPv4-mapped in full. *)
Definition ip_canonical (ip : bytes) : Prop :=
  zlen ip = 16 /\ (take 2 (drop 10 ip) = [xff; xff] -> take 10 ip = repeat x00 10).

#[export] Instance ip_canonical_dec ip : Decision (ip_canonical ip).
Proof. unfold ip_canonical; apply _. Defined.

Lemma take_12_split (b : bytes) : take 12 b = take 10 b ++ take 2 (drop 10 b).
Proof. exact (take_add 10 2 b). Qed.

Lemma mapped_split (ip : bytes) :
  take 12 ip = v4_prefix <-> take 10 ip = repeat x00 10 /\ take 2 (drop 10 ip) = [xff; xff].
Proof.
  rewrite take_12_split. unfold v4_prefix. split; [|by intros [-> ->]].
  intros H. assert (length (take 10 ip ++ take 2 (drop 10 ip)) = 12%nat) as Hl by by rewrite H.
  apply app_inj_2 in H; [done|].
  rewrite length_app, !length_take, length_drop in Hl. rewrite length_take, length_drop.
  change (length [xff; xff]) with 2%nat. lia.
Qed.

Lemma ipTo16_length ip : zlen (ipTo16 ip) = 16.
Proof.
  unfold ipTo16, IP_To4, IP_To16. destruct (Z.eqb_spec (zlen ip) 4) as [H|].
  { change (repeat x00 10 ++ [xff; xff] ++ ip) with (v4_prefix ++ ip).
    rewrite zlen_app. by rewrite H. }
  destruct (Z.eqb_spec (zlen ip) 16) as [H|]; [|done]. case_bool_decide; cbn [andb]; [|done].
  change (repeat x00 10 ++ [xff; xff] ++ drop 12 ip) with (v4_prefix ++ drop 12 ip).
  unfold zlen in *. rewrite length_app, length_drop. change (length v4_prefix) with 12%nat. lia.
Qed.

Lemma ipTo16_16 ip : zlen ip = 16 -> ipTo16 ip = ip.
Proof.
  intros H. unfold ipTo16, IP_To4, IP_To16. rewrite H. cbn [Z.eqb Pos.eqb andb].
  case_bool_decide as Hm; [|done].
  change (v4_prefix ++ drop 12 ip = ip). rewrite <- Hm. apply take_drop.
Qed.

Lemma netIPFrom16_length b : zlen b = 16 -> zlen (netIPFrom16 b) = 16.
Proof.
  intros H. unfold netIPFrom16, IPv4. case_bool_decide; [|done].
  unfold zlen in *. rewrite length_app, length_drop. change (length v4_prefix) with 12%nat. lia.
Qed.

Lemma netIPFrom16_canonical b : ip_canonical b -> netIPFrom16 b = b.
Proof.
  intros [Hl Hc]. unfold netIPFrom16, IPv4. case_bool_decide as Hm; [|done].
  rewrite <- (proj2 (mapped_split b)) by auto. apply take_drop.
Qed.

Lemma netIPFrom16_fixed b : zlen b = 16 -> (netIPFrom16 b = b <-> ip_canonical b).
Proof.
  intros Hl. split; [|apply netIPFrom16_canonical].
  intros H. split; [done|]. intros Hm. unfold netIPFrom16, IPv4 in H.
  rewrite bool_decide_true in H by done.
  by rewrite <- H.
Qed.

(** Addresses on the wire, exactly: a 16-byte wire address survives parsing
    into a [net.IP] and serializing back if and only if it is IPv4-mapped in
    full whenever bytes 10 and 11 are 0xff; the parser does not look at the
    first ten bytes, so every other such address is silently replaced by the
    IPv4 address in its last four bytes. *)
Theorem netIP_trip_exact (b : bytes) :
  zlen b = 16 ->
  (ipTo16 (netIPFrom16 b) = b <-> ip_canonical b) /\
  (take 2 (drop 10 b) = [xff; xff] -> IP_To4 (netIPFrom16 b) = Some (drop 12 b)).
Proof.
  intros Hl. split.
  - rewrite ipTo16_16 by by apply netIPFrom16_length. by apply netIPFrom16_fixed.
  - intros Hm. unfold netIPFrom16, IPv4. rewrite bool_decide_true by done.
    assert (length (drop 12 b) = 4%nat) as Hd by (rewrite length_drop; unfold zlen in Hl; lia).
    unfold IP_To4, zlen. rewrite length_app, Hd. cbn [Z.eqb andb].
    by rewrite bool_decide_true.
Qed.

(** 2001:db8::ffff:c000:201 is not IPv4-mapped, and is taken for 192.0.2.1. *)
Definition unmapped_v6 : bytes :=
  [x20; x01; x0d; xb8; x00; x00; x00; x00; x00; x00; xff; xff; xc0; x00; x02; x01].

Lemma netIP_trip_exact_witness :
  IP_To4 (netIPFrom16 unmapped_v6) = Some [xc0; x00; x02; x01].
Proof. apply (proj2 (netIP_trip_exact unmapped_v6 eq_refl)). reflexivity. Defined.

(** ** addr lists *)

Definition addr_ok (a : AddrEntry) : Prop :=
  u32_ok (a_Time a) /\ u64_ok (a_Services a) /\ ip_canonical (a_IP a) /\ u16_ok (a_Port a).

#[export] Instance addr_ok_dec a : Decision (addr_ok a).
Proof. unfold addr_ok; apply _. Defined.

Lemma marshal_record_length a : zlen (marshal_record a) = 30.
Proof.
  unfold marshal_record. rewrite !zlen_app, !zlen_le_split, ipTo16_length.
  unfold zlen. rewrite length_be_split. done.
Qed.

Lemma region_mid (pre a m b : bytes) off len :
  zlen pre + zlen a = off -> zlen m = len -> region (pre ++ a ++ m ++ b) off len = m.
Proof.
  intros Ho Hm. rewrite app_assoc. apply region_at; [|done]. rewrite zlen_app. done.
Qed.

Lemma le_at_region n b off : le_at n b off = le_combine (region b off (Z.of_nat n)).
Proof. unfold le_at, region. by rewrite Nat2Z.id. Qed.

Lemma read_record pre a post :
  addr_ok a -> let p := pre ++ marshal_record a ++ post in let off := zlen pre in
  le_at 4 p off = a_Time a /\ le_at 8 p (off + 4) = a_Services a /\
  netIPFrom16 (region p (off + 12) 16) = a_IP a /\ be16_at p (off + 28) = a_Port a.
Proof.
  intros (Ht & Hs & Hip & Hp). cbv zeta. unfold marshal_record, be16_at. rewrite !le_at_region.
  pose proof (ipTo16_length (a_IP a)) as Hl. pose proof (ipTo16_16 _ (proj1 Hip)) as Hip16.
  rewrite <- !app_assoc. split_and!.
  - rewrite (region_at pre); [|done|apply zlen_le_split]. by apply le_combine_split_small.
  - rewrite (region_mid pre (le_split 4 (a_Time a)));
      [|by rewrite zlen_le_split|apply zlen_le_split]. by apply le_combine_split_small.
  - rewrite (app_assoc (le_split 4 _)).
    rewrite (region_mid pre (le_split 4 (a_Time a) ++ le_split 8 (a_Services a)));
      [|rewrite zlen_app, !zlen_le_split; lia|done].
    rewrite Hip16. by apply netIPFrom16_canonical.
  - rewrite (app_assoc (le_split 4 _)), (app_assoc (_ ++ _) (ipTo16 _)).
    rewrite (region_mid pre ((le_split 4 (a_Time a) ++ le_split 8 (a_Services a)) ++ ipTo16 (a_IP a))).
    + apply be_combine_split_small. exact Hp.
    + rewrite !zlen_app, !zlen_le_split, Hl. lia.
    + unfold zlen. by rewrite length_be_split.
Qed.

Lemma read_addrs_prefix pre addrs tail n :
  Forall addr_ok addrs -> zlen addrs <= n -> (zlen addrs < n -> zlen tail < 30) ->
  read_addrs (Z.to_nat n) (pre ++ (addrs ≫= marshal_record) ++ tail) (zlen pre) = addrs.
Proof.
  intros Ha. revert pre n. induction Ha as [|a addrs Ha _ IH]; intros pre n Hn Ht.
  - change (zlen []) with 0 in *. destruct (Z.to_nat n) eqn:En; [done|]. cbn.
    rewrite (proj2 (Z.ltb_lt _ _)); [done|]. rewrite zlen_app. specialize (Ht ltac:(lia)). lia.
  - rewrite zlen_cons in *. pose proof (zlen_nonneg addrs).
    destruct (Z.to_nat n) eqn:En; [lia|]. cbn [read_addrs].
    rewrite bind_cons, <- app_assoc.
    destruct (read_record pre a ((addrs ≫= marshal_record) ++ tail) Ha) as (E1 & E2 & E3 & E4).
    rewrite E1, E2, E3, E4.
    rewrite (proj2 (Z.ltb_ge _ _)).
    2:{ rewrite !zlen_app, marshal_record_length.
        pose proof (zlen_nonneg (addrs ≫= marshal_record)). pose proof (zlen_nonneg tail). lia. }
    f_equal; [by destruct a|]. rewrite app_assoc.
    replace (zlen pre + 30) with (zlen (pre ++ marshal_record a))
      by (rewrite zlen_app, marshal_record_length; done).
    replace n0 with (Z.to_nat (n - 1)) by lia. apply IH; lia.
Qed.

Lemma read_addrs_bound n payload off :
  zlen (read_addrs n payload off) <= Z.of_nat n /\
  (read_addrs n payload off <> [] -> off + 30 * zlen (read_addrs n payload off) <= zlen payload).
Proof.
  revert off. induction n as [|n IH]; intros off; [done|]. cbn.
  destruct (Z.ltb_spec (zlen payload) (off + 4 + 8 + 16 + 2)); [by split; [unfold zlen; cbn; lia|]|].
  rewrite !zlen_cons. destruct (IH (off + 30)) as [H1 H2]. split; [lia|]. intros _.
  destruct (read_addrs n payload (off + 30)); [unfold zlen in *; cbn in *; lia|].
  specialize (H2 ltac:(done)). lia.
Qed.

Lemma ParseAddr_no_panic payload : no_panic (ParseAddr payload).
Proof. unfold ParseAddr. apply no_panic_bind; [by apply readVarInt_no_panic|]. intros [] _. by case_match. Qed.

(** addr gossip: [ParseAddr] returns exactly the records a payload holds, up
    to the declared count, when the tail is too short for one more; so it
    inverts [MarshalAddr] on at most 1000 addresses.  On any payload at all it
    never crashes, and what it returns is at most 1000 records, each of which
    took 30 of the payload's bytes. *)
Theorem ParseAddr_records (addrs : list AddrEntry) (n : Z) (tail payload : bytes) :
  Forall addr_ok addrs -> zlen addrs <= n <= MaxAddrRecords ->
  (zlen addrs < n -> zlen tail < 30) ->
  ParseAddr (writeVarInt n ++ (addrs ≫= marshal_record) ++ tail) = Ok addrs /\
  (forall l, ParseAddr payload = Ok l -> zlen l <= MaxAddrRecords /\ 30 * zlen l <= zlen payload) /\
  no_panic (ParseAddr payload).
Proof.
  unfold MaxAddrRecords. intros Ha Hn Ht. pose proof (zlen_nonneg addrs) as Hz. split_and!.
  - unfold ParseAddr.
    pose proof (varint_read [] n ((addrs ≫= marshal_record) ++ tail)) as Hr.
    cbn [app] in Hr. change (zlen []) with 0 in Hr.
    rewrite Hr by (unfold maxCompactSize; lia). cbn [mbind res_bind].
    rewrite (proj2 (Z.ltb_ge _ _)) by (unfold MaxAddrRecords; lia). f_equal.
    rewrite Z.add_0_l. apply read_addrs_prefix; done || lia.
  - intros l H. unfold ParseAddr in H. apply res_bind_ok in H as ([k off] & E & H).
    apply varint_inv in E as (Hk & -> & _); [|done]. pose proof (writeVarInt_zlen k).
    destruct (Z.ltb_spec MaxAddrRecords k) as [|Hm]; [done|]. unfold MaxAddrRecords in Hm. simplify_eq.
    destruct (read_addrs_bound (Z.to_nat k) payload (0 + zlen (writeVarInt k))) as [H1 H2].
    split; [lia|]. pose proof (zlen_nonneg payload).
    destruct (read_addrs _ _ _); [unfold zlen in *; cbn in *; lia|]. specialize (H2 ltac:(done)). lia.
  - apply ParseAddr_no_panic.
Qed.

Definition sample_addr : AddrEntry :=
  mkAddrEntry 1700000000 5 (IPv4 [x0a; x00; x00; x01]) 41412.

Lemma ParseAddr_records_witness :
  ParseAddr (writeVarInt 3 ++ marshal_record sample_addr ++ [x01; x02]) = Ok [sample_addr].
Proof.
  refine (proj1 (ParseAddr_records [sample_addr] 3 [x01; x02] [] _ _ _)).
  - apply (bool_decide_unpack (Forall addr_ok [sample_addr])). by vm_compute.
  - by vm_compute.
  - by vm_compute.
Defined.

(** ** The version payload *)

Definition netaddr_ok (a : NetAddr) : Prop :=
  u64_ok (n_Services a) /\ ip_canonical (n_IP a) /\ u16_ok (n_Port a).

Definition sint_ok (w v : Z) : Prop := - 2 ^ (w - 1) <= v < 2 ^ (w - 1).

Definition version_ok (m : VersionMessage) : Prop :=
  sint_ok 32 (v_Version m) /\ u64_ok (v_Services m) /\ sint_ok 64 (v_Timestamp m) /\
  netaddr_ok (v_AddrRecv m) /\ netaddr_ok (v_AddrFrom m) /\ u64_ok (v_Nonce m) /\
  zlen (v_UserAgent m) < 2 ^ 62 /\ sint_ok 32 (v_StartHeight m).

#[export] Instance netaddr_ok_dec a : Decision (netaddr_ok a).
Proof. unfold netaddr_ok; apply _. Defined.
#[export] Instance sint_ok_dec w v : Decision (sint_ok w v).
Proof. unfold sint_ok; apply _. Defined.
#[export] Instance version_ok_dec m : Decision (version_ok m).
Proof. unfold version_ok; apply _. Defined.

Lemma sint_wrap w v : 0 < w -> sint_ok w v -> sint w (wrap w v) = v.
Proof.
  unfold sint, wrap, sint_ok. intros Hw Hv.
  assert (2 ^ w = 2 * 2 ^ (w - 1)) as E by (rewrite <- Z.pow_succ_r by lia; f_equal; lia).
  destruct (Z.le_gt_cases 0 v).
  - rewrite Z.mod_small by lia. by rewrite (proj2 (Z.ltb_lt _ _)) by lia.
  - rewrite <- (Z_mod_plus_full v 1 (2 ^ w)), Z.mod_small by lia.
    rewrite (proj2 (Z.ltb_ge _ _)) by lia. lia.
Qed.

Lemma from_app pre b : from (pre ++ b) (zlen pre) = b.
Proof. unfold from, zlen. by rewrite Nat2Z.id, drop_app_length. Qed.

Lemma le_at_front n v b : uint_ok (8 * Z.of_nat n) v -> le_at n (le_split n v ++ b) 0 = v.
Proof.
  intros Hv. transitivity (le_combine (le_split n v)); [|by apply le_combine_split_small].
  apply (le_at_mid n []); [done|apply length_le_split].
Qed.

(** Reading at the end of a known prefix. *)
Lemma le_at_pre n pre v b :
  uint_ok (8 * Z.of_nat n) v -> le_at n (pre ++ le_split n v ++ b) (zlen pre) = v.
Proof.
  intros Hv. rewrite (le_at_mid n pre (le_split n v)) by (done || apply length_le_split).
  by apply le_combine_split_small.
Qed.

Lemma index_head {A} (a : A) l : index (a :: l) 0 = Ok a.
Proof. exact (index_mid [] a l). Qed.

Lemma le_at_1 n x v b : uint_ok (8 * Z.of_nat n) v -> le_at n (x :: le_split n v ++ b) 1 = v.
Proof. exact (le_at_pre n [x] v b). Qed.

Lemma marshalNetAddr_length a : zlen (marshalNetAddr a) = 26.
Proof.
  unfold marshalNetAddr. rewrite !zlen_app, zlen_le_split, ipTo16_length.
  unfold zlen. by rewrite length_be_split.
Qed.

Lemma unmarshalNetAddr_app a b :
  netaddr_ok a -> unmarshalNetAddr (marshalNetAddr a ++ b) = Ok (a, 26).
Proof.
  intros (Hs & Hip & Hp). unfold unmarshalNetAddr.
  rewrite zlen_app, marshalNetAddr_length. pose proof (zlen_nonneg b).
  rewrite (proj2 (Z.ltb_ge _ _)) by lia.
  unfold marshalNetAddr. rewrite <- !app_assoc, le_at_front by done.
  pose proof (ipTo16_length (n_IP a)) as Hl.
  rewrite (region_at (le_split 8 (n_Services a)) (ipTo16 (n_IP a))) by (done || apply zlen_le_split).
  rewrite (ipTo16_16 _ (proj1 Hip)), netIPFrom16_canonical by done.
  unfold be16_at. rewrite (app_assoc (le_split 8 _)).
  rewrite (region_at (le_split 8 (n_Services a) ++ n_IP a) (be_split 2 (n_Port a))).
  - rewrite be_combine_split_small by exact Hp. by destruct a.
  - rewrite zlen_app, zlen_le_split, (proj1 Hip). done.
  - unfold zlen. by rewrite length_be_split.
Qed.

Lemma unmarshalVarStr_app s b :
  zlen s < 2 ^ 62 -> unmarshalVarStr (marshalVarStr s ++ b) = Ok (s, zlen (marshalVarStr s)).
Proof.
  intros Hs. unfold unmarshalVarStr, marshalVarStr. set (v := writeVarInt (zlen s)).
  pose proof (zlen_nonneg s). pose proof (zlen_nonneg b). pose proof (writeVarInt_zlen (zlen s)) as Hv.
  fold v in Hv. rewrite (proj2 (Z.ltb_ge _ _)) by (rewrite !zlen_app; lia).
  assert (varstr_len ((v ++ s) ++ b) = Ok (zlen s, zlen v)) as ->.
  { unfold varstr_len. rewrite <- app_assoc. unfold v, writeVarInt.
    destruct (Z.ltb_spec (zlen s) 253); [|destruct (Z.leb_spec (zlen s) 65535);
      [|destruct (Z.leb_spec (zlen s) 4294967295)]]; cbn [app];
      rewrite index_head; cbn [mbind res_bind]; rewrite unsigned_of_Z_small by lia.
    - by rewrite (proj2 (Z.ltb_lt _ _)) by lia.
    - change (253 <? 253) with false. change (253 =? 253) with true. cbv iota.
      rewrite (proj2 (Z.ltb_ge _ _)), zlen_cons by (rewrite zlen_cons, !zlen_app, zlen_le_split; lia).
      rewrite zlen_le_split. by rewrite le_at_1 by (unfold uint_ok; lia).
    - change (254 <? 253) with false. change (254 =? 253) with false. change (254 =? 254) with true.
      cbv iota.
      rewrite (proj2 (Z.ltb_ge _ _)), zlen_cons by (rewrite zlen_cons, !zlen_app, zlen_le_split; lia).
      rewrite zlen_le_split. by rewrite le_at_1 by (unfold uint_ok; lia).
    - change (255 <? 253) with false. change (255 =? 253) with false. change (255 =? 254) with false.
      cbv iota.
      rewrite (proj2 (Z.ltb_ge _ _)), zlen_cons by (rewrite zlen_cons, !zlen_app, zlen_le_split; lia).
      rewrite zlen_le_split. rewrite le_at_1 by (unfold uint_ok; lia).
      unfold sint. by rewrite (proj2 (Z.ltb_lt _ _)) by lia. }
  cbn [mbind res_bind]. rewrite swrap64_small by lia.
  rewrite (proj2 (Z.ltb_ge _ _)) by (rewrite !zlen_app; lia).
  rewrite slice_in_range by (rewrite ?zlen_app; lia). cbn [mbind res_bind].
  rewrite zlen_app. do 2 f_equal. rewrite <- app_assoc.
  rewrite (drop_app_len v) by (unfold zlen; lia). apply take_drop_app_len. unfold zlen; lia.
Qed.

(** The payload up to the start height. *)
Definition version_base (m : VersionMessage) : bytes :=
  le_split 4 (wrap 32 (v_Version m)) ++
  le_split 8 (v_Services m) ++
  le_split 8 (wrap 64 (v_Timestamp m)) ++
  marshalNetAddr (v_AddrRecv m) ++
  marshalNetAddr (v_AddrFrom m) ++
  le_split 8 (v_Nonce m) ++
  marshalVarStr (v_UserAgent m) ++
  le_split 4 (wrap 32 (v_StartHeight m)).

Definition with_flags (m : VersionMessage) (relay fx : bool) : VersionMessage :=
  mkVersionMessage (v_Version m) (v_Services m) (v_Timestamp m) (v_AddrRecv m) (v_AddrFrom m)
    (v_Nonce m) (v_UserAgent m) (v_StartHeight m) relay fx.

Definition flag (b : bytes) (i : nat) : bool :=
  match b !! i with Some x => negb (byte.unsigned x =? 0) | None => false end.

(** The first six fields, and where the rest starts. *)
Lemma version_head m tl :
  version_ok m ->
  let h := le_split 4 (wrap 32 (v_Version m)) ++ le_split 8 (v_Services m) ++
           le_split 8 (wrap 64 (v_Timestamp m)) in
  let b := h ++ marshalNetAddr (v_AddrRecv m) ++ marshalNetAddr (v_AddrFrom m) ++
           le_split 8 (v_Nonce m) ++ tl in
  zlen h = 20 /\ le_at 4 b 0 = wrap 32 (v_Version m) /\ le_at 8 b 4 = v_Services m /\
  le_at 8 b 12 = wrap 64 (v_Timestamp m) /\
  unmarshalNetAddr (from b 20) = Ok (v_AddrRecv m, 26) /\
  unmarshalNetAddr (from b 46) = Ok (v_AddrFrom m, 26) /\
  le_at 8 b 72 = v_Nonce m /\ from b 80 = tl.
Proof.
  intros (Hv & Hs & Ht & Hr & Hf & Hn & _). cbv zeta.
  set (f1 := le_split 4 (wrap 32 (v_Version m))). set (f2 := le_split 8 (v_Services m)).
  set (f3 := le_split 8 (wrap 64 (v_Timestamp m))).
  assert (zlen f1 = 4) as L1 by apply zlen_le_split.
  assert (zlen f2 = 8) as L2 by apply zlen_le_split.
  assert (zlen f3 = 8) as L3 by apply zlen_le_split.
  pose proof (marshalNetAddr_length (v_AddrRecv m)) as L4.
  pose proof (marshalNetAddr_length (v_AddrFrom m)) as L5.
  assert (zlen (f1 ++ f2 ++ f3) = 20) as L by (rewrite !zlen_app; lia).
  split_and!; [done|..]; rewrite <- ?app_assoc.
  - apply le_at_front. by apply wrap_ok.
  - rewrite <- L1. by apply le_at_pre.
  - rewrite (app_assoc f1). replace 12 with (zlen (f1 ++ f2)) by (rewrite zlen_app; lia).
    apply le_at_pre. by apply wrap_ok.
  - set (pre := f1 ++ f2 ++ f3).
    transitivity (unmarshalNetAddr (from (pre ++ marshalNetAddr (v_AddrRecv m) ++
      marshalNetAddr (v_AddrFrom m) ++ le_split 8 (v_Nonce m) ++ tl) (zlen pre))).
    + unfold pre. rewrite <- !app_assoc. do 2 f_equal; rewrite !zlen_app; lia.
    + rewrite from_app. by apply unmarshalNetAddr_app.
  - set (pre := f1 ++ f2 ++ f3 ++ marshalNetAddr (v_AddrRecv m)).
    transitivity (unmarshalNetAddr (from (pre ++ marshalNetAddr (v_AddrFrom m) ++
      le_split 8 (v_Nonce m) ++ tl) (zlen pre))).
    + unfold pre. rewrite <- !app_assoc. do 2 f_equal; rewrite !zlen_app; lia.
    + rewrite from_app. by apply unmarshalNetAddr_app.
  - set (pre := f1 ++ f2 ++ f3 ++ marshalNetAddr (v_AddrRecv m) ++ marshalNetAddr (v_AddrFrom m)).
    transitivity (le_at 8 (pre ++ le_split 8 (v_Nonce m) ++ tl) (zlen pre)); [|by apply le_at_pre].
    unfold pre. rewrite <- !app_assoc. f_equal; rewrite !zlen_app; lia.
  - set (pre := f1 ++ f2 ++ f3 ++ marshalNetAddr (v_AddrRecv m) ++ marshalNetAddr (v_AddrFrom m) ++
                le_split 8 (v_Nonce m)).
    transitivity (from (pre ++ tl) (zlen pre)); [|apply from_app].
    unfold pre. rewrite <- !app_assoc. f_equal; rewrite !zlen_app, zlen_le_split; lia.
Qed.

Lemma flag_at_tail pre tl k :
  (zlen pre + Z.of_nat k <? zlen (pre ++ tl)) && flag_at (pre ++ tl) (zlen pre + Z.of_nat k) = flag tl k.
Proof.
  unfold flag_at, flag, zlen. rewrite <- Nat2Z.inj_add, Nat2Z.id, length_app.
  rewrite lookup_app_r by lia. replace (length pre + k - length pre)%nat with k by lia.
  destruct (tl !! k) eqn:E; [|by rewrite andb_false_r].
  apply lookup_lt_Some in E. by rewrite (proj2 (Z.ltb_lt _ _)) by lia.
Qed.

Lemma parse_version_base m tl :
  version_ok m ->
  UnmarshalVersion (version_base m ++ tl) = Ok (with_flags m (flag tl 0) (flag tl 1)).
Proof.
  intros Hm. set (sh := le_split 4 (wrap 32 (v_StartHeight m))).
  set (rest := marshalVarStr (v_UserAgent m) ++ sh ++ tl).
  destruct (version_head m rest Hm) as (L & E1 & E2 & E3 & E4 & E5 & E6 & E7). revert L E1 E2 E3 E4 E5 E6 E7.
  set (h := le_split 4 (wrap 32 (v_Version m)) ++ le_split 8 (v_Services m) ++
           le_split 8 (wrap 64 (v_Timestamp m))).
  assert (version_base m ++ tl =
    h ++ marshalNetAddr (v_AddrRecv m) ++ marshalNetAddr (v_AddrFrom m) ++ le_split 8 (v_Nonce m) ++ rest)
    as <- by (unfold version_base, h, rest, sh; by rewrite <- !app_assoc).
  intros L E1 E2 E3 E4 E5 E6 E7. set (b := version_base m ++ tl) in *.
  set (ua := marshalVarStr (v_UserAgent m)) in *.
  pose proof (zlen_nonneg ua) as Lua. pose proof (zlen_nonneg tl) as Ltl.
  assert (zlen sh = 4) as Lsh by apply zlen_le_split.
  assert (zlen (version_base m) = 80 + zlen ua + 4) as Lb.
  { unfold version_base. fold ua sh. rewrite !zlen_app, !zlen_le_split, !marshalNetAddr_length, Lsh. lia. }
  assert (zlen b = 84 + zlen ua + zlen tl) as Lbb by (unfold b; rewrite zlen_app; lia).
  destruct Hm as (Hv & _ & Ht & _ & _ & _ & Hua & Hsh).
  unfold UnmarshalVersion. rewrite (proj2 (Z.ltb_ge _ _)) by lia. cbv zeta.
  rewrite E1, E2, E3, E4. cbn [mbind res_bind]. change (20 + 26) with 46. rewrite E5. cbn [mbind res_bind].
  change (46 + 26) with 72. rewrite (proj2 (Z.ltb_ge _ _)) by lia.
  change (72 + 8) with 80. rewrite E7, E6. unfold rest.
  assert (unmarshalVarStr (ua ++ sh ++ tl) = Ok (v_UserAgent m, zlen ua)) as ->
    by by apply unmarshalVarStr_app.
  cbn [mbind res_bind]. rewrite (proj2 (Z.ltb_ge _ _)) by lia.
  assert (le_at 4 b (80 + zlen ua) = wrap 32 (v_StartHeight m)) as ->.
  { set (pre := h ++ marshalNetAddr (v_AddrRecv m) ++ marshalNetAddr (v_AddrFrom m) ++
                le_split 8 (v_Nonce m) ++ ua).
    transitivity (le_at 4 (pre ++ sh ++ tl) (zlen pre)); [|by apply le_at_pre, wrap_ok].
    unfold b, version_base, pre, h. fold ua sh. rewrite <- !app_assoc. f_equal.
    rewrite !zlen_app, !zlen_le_split, !marshalNetAddr_length. lia. }
  rewrite !sint_wrap by done.
  replace (80 + zlen ua + 4) with (zlen (version_base m) + Z.of_nat 0) by lia.
  unfold b. rewrite flag_at_tail.
  unfold with_flags. f_equal. f_equal.
  destruct tl as [|x tl].
  - rewrite app_nil_r, (proj2 (Z.ltb_ge (zlen (version_base m) + Z.of_nat 0) _)) by lia. cbv iota.
    by rewrite (proj2 (Z.ltb_ge _ _)) by lia.
  - rewrite (proj2 (Z.ltb_lt (zlen (version_base m) + Z.of_nat 0) _)) by (rewrite zlen_app, zlen_cons; pose proof (zlen_nonneg tl); lia).
    replace (zlen (version_base m) + Z.of_nat 0 + 1) with (zlen (version_base m) + Z.of_nat 1) by lia.
    apply flag_at_tail.
Qed.

Lemma flag_bool_byte r f : flag ([bool_byte r] ++ [bool_byte f]) 0 = r /\ flag ([bool_byte r] ++ [bool_byte f]) 1 = f.
Proof. by destruct r, f. Qed.

(** The version message round trip, for every representable message with
    canonical addresses; a peer that leaves out the fxrouter byte, or both
    trailing flags, is read with the missing flags off. *)
Theorem VersionMessage_roundtrip (m : VersionMessage) :
  version_ok m ->
  UnmarshalVersion (VersionMessage_Marshal m) = Ok m /\
  UnmarshalVersion (version_base m ++ [bool_byte (v_Relay m)]) = Ok (with_flags m (v_Relay m) false) /\
  UnmarshalVersion (version_base m) = Ok (with_flags m false false).
Proof.
  intros Hm. split_and!.
  - assert (VersionMessage_Marshal m = version_base m ++ [bool_byte (v_Relay m)] ++ [bool_byte (v_FXRouter m)])
      as -> by (unfold VersionMessage_Marshal, version_base; by rewrite <- !app_assoc).
    rewrite parse_version_base by done.
    destruct (flag_bool_byte (v_Relay m) (v_FXRouter m)) as [-> ->]. by destruct m.
  - rewrite parse_version_base by done. by destruct (v_Relay m).
  - rewrite <- (app_nil_r (version_base m)). by rewrite parse_version_base.
Qed.

Definition sample_version : VersionMessage :=
  mkVersionMessage BitcoinProtocolVersion 0 1700000000
    (mkNetAddr 0 (IPv4 [x0a; x00; x00; x01]) 41412) (mkNetAddr 0 (repeat x00 16) 0)
    12345 UserAgent_const (-1) false true.

Lemma VersionMessage_roundtrip_witness :
  UnmarshalVersion (VersionMessage_Marshal sample_version) = Ok sample_version.
Proof.
  refine (proj1 (VersionMessage_roundtrip sample_version _)).
  apply (bool_decide_unpack (version_ok sample_version)). by vm_compute.
Defined.

(** ** Hostile string lengths *)

Lemma varstr_ff n t :
  u64_ok n ->
  unmarshalVarStr (xff :: le_split 8 n ++ t) =
  let fin := swrap64 (9 + sint 64 n) in
  if 9 + zlen t <? fin then Err "p2p: varstr length exceeds payload"
  else s ← slice (xff :: le_split 8 n ++ t) 9 fin; Ok (s, fin).
Proof.
  intros Hn. pose proof (zlen_nonneg t). unfold unmarshalVarStr, varstr_len.
  rewrite index_head. cbn [mbind res_bind]. change (byte.unsigned xff) with 255.
  change (255 <? 253) with false. change (255 =? 253) with false. change (255 =? 254) with false.
  cbv iota. rewrite le_at_1 by exact Hn.
  assert (zlen (xff :: le_split 8 n ++ t) = 9 + zlen t) as ->
    by (rewrite zlen_cons, zlen_app, zlen_le_split; lia).
  rewrite !(proj2 (Z.ltb_ge _ _)) by lia. done.
Qed.

(** The [int] end position of a 64-bit length. *)
Lemma varstr_end n :
  u64_ok n ->
  (n < 2 ^ 63 - 9 -> swrap64 (9 + sint 64 n) = 9 + n) /\
  (2 ^ 63 - 9 <= n -> swrap64 (9 + sint 64 n) < 9).
Proof.
  unfold uint_ok, sint, swrap64. intros Hn. change (64 - 1) with 63.
  destruct (Z.ltb_spec n (2 ^ 63)); split; intros; try lia.
  - rewrite Z.mod_small; lia.
  - rewrite <- (Z_mod_plus_full _ (-1) (2 ^ 64)), Z.mod_small; lia.
  - rewrite Z.mod_small; lia.
Qed.

Lemma varstr_hostile n t :
  2 ^ 63 - 9 <= n < 2 ^ 64 -> unmarshalVarStr (xff :: le_split 8 n ++ t) = Panic.
Proof.
  intros Hn. assert (u64_ok n) as Hok by (unfold uint_ok; lia).
  rewrite varstr_ff by done. cbv zeta. destruct (varstr_end n Hok) as [_ Hend].
  specialize (Hend ltac:(lia)). pose proof (zlen_nonneg t).
  rewrite (proj2 (Z.ltb_ge _ _)) by lia. unfold slice.
  rewrite (proj2 (Z.leb_gt 9 _)) by lia. by rewrite andb_false_r.
Qed.

(** A parsed prefix: non-negative and inside the buffer, unless the 0xff form
    is used. *)
Lemma varstr_len_inv b n pos :
  0 < zlen b -> varstr_len b = Ok (n, pos) ->
  (1 <= pos <= 5 /\ pos <= zlen b /\ 0 <= n < 2 ^ 32) \/
  (exists u t, u64_ok u /\ b = xff :: le_split 8 u ++ t).
Proof.
  intros Hb H. unfold varstr_len in H. destruct b as [|x b]; [done|].
  rewrite index_head in H. cbn [mbind res_bind] in H.
  pose proof (byte_unsigned_ok x) as Hx. unfold uint_ok in Hx.
  assert (forall k, uint_ok (8 * Z.of_nat k) (le_at k (x :: b) 1) \/ zlen b < Z.of_nat k) as Hle.
  { intros k. destruct (Z.lt_ge_cases (zlen b) (Z.of_nat k)); [by right|left].
    unfold le_at. change (drop (Z.to_nat 1) (x :: b)) with b.
    pose proof (le_combine_ok (take k b)) as Hok. unfold zlen in *.
    by rewrite length_take, Nat.min_l in Hok by lia. }
  rewrite zlen_cons in *. unfold uint_ok in Hle. res_inv H; zbool; simplify_eq.
  - left. lia.
  - left. destruct (Hle 2%nat); lia.
  - left. destruct (Hle 4%nat); lia.
  - right. assert (byte.unsigned x = 255) as E by lia.
    destruct (zlen_split b 8) as (u & t & -> & Hu); [lia|].
    exists (le_combine u), t. pose proof (le_combine_ok u) as Hok. rewrite Hu in Hok. split; [done|].
    rewrite split_le_combine' by (unfold zlen in Hu; lia). f_equal.
    rewrite <- (byte.of_Z_unsigned x), E. done.
Qed.

(** The string parser crashes exactly on 64-bit lengths of 2^63 - 9 and
    above: such a length is negative, or overflows, as an [int], so the
    comparison with the payload length lets it through and the slice panics;
    every other input is parsed or refused. *)
Theorem unmarshalVarStr_panics_exactly (b : bytes) :
  unmarshalVarStr b = Panic <->
  exists n t, b = xff :: le_split 8 n ++ t /\ 2 ^ 63 - 9 <= n < 2 ^ 64.
Proof.
  split; [|by intros (n & t & -> & ?); apply varstr_hostile].
  intros H. pose proof H as H0. unfold unmarshalVarStr in H.
  destruct (Z.ltb_spec (zlen b) 1); [done|].
  destruct (varstr_len b) as [[n pos]|e|] eqn:E; [|done|].
  - cbn [mbind res_bind] in H. apply varstr_len_inv in E as [(Hp & Hp' & Hn)|(u & t & Hu & ->)]; [| |lia].
    + destruct (Z.ltb_spec (zlen b) (swrap64 (pos + n))) as [|Hle]; [done|].
      rewrite swrap64_small in H, Hle by lia. by rewrite slice_in_range in H by lia.
    + destruct (varstr_end u Hu) as [Hlt Hge]. destruct (Z.lt_ge_cases u (2 ^ 63 - 9)) as [Hc|Hc].
      * rewrite varstr_ff in H0 by done. cbv zeta in H0. rewrite Hlt in H0 by done.
        destruct (Z.ltb_spec (9 + zlen t) (9 + u)); [done|].
        rewrite slice_in_range in H0; [done|unfold uint_ok in Hu; lia|].
        rewrite zlen_cons, zlen_app, zlen_le_split. lia.
      * exists u, t. unfold uint_ok in Hu. split; [done|lia].
  - exfalso. unfold varstr_len in E. destruct b as [|x b]; [done|].
    rewrite index_head in E. cbn [mbind res_bind] in E. res_inv E.
Qed.

(** ** Handshake *)

(** A version payload whose user-agent length is the 64-bit [n]. *)
Definition hostile_version (m : VersionMessage) (n : Z) (t : bytes) : bytes :=
  le_split 4 (wrap 32 (v_Version m)) ++ le_split 8 (v_Services m) ++
  le_split 8 (wrap 64 (v_Timestamp m)) ++ marshalNetAddr (v_AddrRecv m) ++
  marshalNetAddr (v_AddrFrom m) ++ le_split 8 (v_Nonce m) ++ xff :: le_split 8 n ++ t.

Lemma hostile_version_length m n t : zlen (hostile_version m n t) = 89 + zlen t.
Proof.
  unfold hostile_version. rewrite !zlen_app, zlen_cons, zlen_app, !zlen_le_split, !marshalNetAddr_length. lia.
Qed.

Lemma hostile_version_panics m n t :
  version_ok m -> 2 ^ 63 - 9 <= n < 2 ^ 64 -> UnmarshalVersion (hostile_version m n t) = Panic.
Proof.
  intros Hm Hn. pose proof (hostile_version_length m n t) as Hl. pose proof (zlen_nonneg t).
  destruct (version_head m (xff :: le_split 8 n ++ t) Hm) as (_ & _ & _ & _ & E4 & E5 & _ & E7).
  rewrite <- !app_assoc in E4, E5, E7. fold (hostile_version m n t) in E4, E5, E7.
  unfold UnmarshalVersion. rewrite (proj2 (Z.ltb_ge _ _)) by lia. cbv zeta.
  rewrite E4. cbn [mbind res_bind]. change (20 + 26) with 46. rewrite E5. cbn [mbind res_bind].
  change (46 + 26) with 72. rewrite (proj2 (Z.ltb_ge _ _)) by lia. change (72 + 8) with 80.
  by rewrite E7, varstr_hostile.
Qed.

(** What holds between two messages of the handshake. *)
Definition hs_inv (own : VersionMessage) (h : HsState) : Prop :=
  let sent := (cmd_version, VersionMessage_Marshal own) in
  if seenVersion h then
    exists v, peerVersion h = Some v /\ MinPeerProtoVersion <= v_Version v /\
      out h = [sent; (cmd_verack, [])]
  else peerVersion h = None /\ out h = [sent].

Lemma handshake_step_inv own msg h h' :
  hs_inv own h -> handshake_step msg h = Ok h' -> hs_inv own h'.
Proof.
  unfold handshake_step, hs_inv. intros Hi H.
  destruct (decide _); [|destruct (decide _); by simplify_eq/=].
  destruct (seenVersion h) eqn:Es; [done|].
  apply res_bind_ok in H as (v & E & H). destruct (Z.ltb_spec (v_Version v) MinPeerProtoVersion); [done|].
  simplify_eq/=. destruct Hi as [_ ->]. eauto.
Qed.

Lemma handshake_loop_inv fuel magic stream own h h' rest :
  hs_inv own h -> handshake_loop fuel magic stream h = Some (Ok (h', rest)) ->
  hs_inv own h' /\ seenVersion h' = true /\ seenVerack h' = true.
Proof.
  revert stream h. induction fuel as [|fuel IH]; intros stream h Hi H; cbn [handshake_loop] in H.
  - destruct (_ && _) eqn:E; [|done]. simplify_eq. by apply andb_true_iff in E.
  - destruct (_ && _) eqn:E; [simplify_eq; by apply andb_true_iff in E|].
    destruct (Conn_readMessage magic stream) as [[[msg s]|e|]|]; try done.
    destruct (handshake_step msg h) eqn:Es; try done.
    eapply IH; [|done]. by eapply handshake_step_inv.
Qed.

Lemma handshake_loop_returns fuel magic stream h :
  (length stream < fuel)%nat -> exists r, handshake_loop fuel magic stream h = Some r.
Proof.
  revert stream h. induction fuel as [|fuel IH]; intros stream h Hf; [lia|].
  cbn [handshake_loop]. case_match; [eauto|]. unfold Conn_readMessage.
  destruct (readMessage_total (S (length stream)) magic stream) as (r & -> & _ & Hs); [lia|].
  destruct r as [[msg s]|e|]; eauto. specialize (Hs _ _ eq_refl).
  destruct (handshake_step msg h); eauto. apply IH. lia.
Qed.

(** The handshake gate: a handshake that completes has recorded exactly one
    version message, of protocol 70712 or newer, has seen a verack, and has
    written its own version and then one verack; on every byte stream the
    handshake comes to an end. *)
Theorem handshake_gate (magic stream : bytes) (own : VersionMessage) (h : HsState) (rest : bytes) :
  (exists r, handshake magic own stream = Some r) /\
  (handshake magic own stream = Some (Ok (h, rest)) ->
   seenVersion h = true /\ seenVerack h = true /\
   exists v, peerVersion h = Some v /\ MinPeerProtoVersion <= v_Version v /\
     out h = [(cmd_version, VersionMessage_Marshal own); (cmd_verack, [])]).
Proof.
  split; [apply handshake_loop_returns; lia|].
  intros H. apply (handshake_loop_inv _ _ _ own) in H as (Hi & Hv & Ha); [|done].
  unfold hs_inv in Hi. rewrite Hv in Hi. done.
Qed.

Lemma handshake_gate_witness :
  exists h, handshake MainnetMagic sample_version
    (SendCommand MainnetMagic cmd_version (VersionMessage_Marshal sample_version) ++
     SendCommand MainnetMagic cmd_verack [] ++ [x01]) = Some (Ok (h, [x01])) /\
  seenVerack h = true.
Proof.
  eexists. match goal with |- ?a = _ /\ _ => assert (a = Some (Ok (mkHs true true (Some sample_version)
    [(cmd_version, VersionMessage_Marshal sample_version); (cmd_verack, [])], [x01]))) as E by (by vm_compute) end.
  split; [exact E|]. exact (proj1 (proj2 (proj2 (handshake_gate _ _ _ _ _) E))).
Defined.

(** A remote peer can crash the handshake: its first message, a version
    message with a valid frame and checksum whose user-agent length is a 64-bit
    value of 2^63 - 9 or above, makes [Conn.handshake] panic on every network
    and whatever the other fields. *)
Theorem handshake_crash (magic rest t : bytes) (own m : VersionMessage) (n : Z) :
  zlen magic = 4 -> version_ok m -> 2 ^ 63 - 9 <= n < 2 ^ 64 -> zlen t <= 1000 ->
  handshake magic own (SendCommand magic cmd_version (hostile_version m n t) ++ rest) = Some Panic.
Proof.
  intros Hm Hv Hn Ht. unfold handshake. cbn [handshake_loop seenVersion seenVerack andb].
  rewrite readMessage_SendCommand; [|done|done|..].
  - unfold handshake_step. cbn [MCommand Payload seenVersion].
    rewrite decide_True by done. by rewrite hostile_version_panics.
  - apply (bool_decide_unpack (nul_free cmd_version)). by vm_compute.
  - rewrite hostile_version_length. unfold MaxPayloadSize. lia.
Qed.

Lemma handshake_crash_witness :
  handshake MainnetMagic sample_version
    (SendCommand MainnetMagic cmd_version (hostile_version sample_version (2 ^ 64 - 1) []) ++ []) = Some Panic.
Proof.
  apply handshake_crash; [done| |lia|done].
  apply (bool_decide_unpack (version_ok sample_version)). by vm_compute.
Defined.
