(* ===== verification/Digits.v ===== *)
(** * Positional notation

    What [math/big] does for this code: [big.Int.Bytes] and [SetBytes] (base
    256), [String] and [SetString] in base 10, and the division loop of the
    base58 encoder, all over one pair of functions: [le_digits] is the loop
    [for x > 0 { x, m = x/b, x%b; out = append(out, m) }] and [of_digits] is
    Horner's rule, most significant digit first.  The loop halves [x] at least,
    so [Z.log2 x + 1] turns of fuel are enough ([of_to_digits]). *)

From S2P Require Import Prelude.

Fixpoint le_digits (fuel : nat) (b x : Z) : list Z :=
  match fuel with
  | O => []
  | S fuel => if x <=? 0 then [] else x mod b :: le_digits fuel b (x / b)
  end.

Definition digits_fuel (x : Z) : nat := S (Z.to_nat (Z.log2 x)).

(** Most significant first, no leading zeros, [[]] for 0. *)
Definition to_digits (b x : Z) : list Z := rev (le_digits (digits_fuel x) b x).

Definition of_digits (b : Z) (l : list Z) : Z := fold_left (fun a d => a * b + d) l 0.

Definition digits_ok (b : Z) (l : list Z) : Prop := Forall (fun d => 0 <= d < b) l.

(** [x.SetBytes(l)] and [x.Bytes()] *)
Definition SetBytes (l : bytes) : Z := of_digits 256 (byte.unsigned <$> l).
Definition Bytes (x : Z) : bytes := byte.of_Z <$> to_digits 256 x.

(** ** Lemmas *)

Fixpoint of_le (b : Z) (l : list Z) : Z :=
  match l with [] => 0 | d :: l => d + b * of_le b l end.

Section Digits.
Context (b : Z) (Hb : 2 <= b).

Lemma of_digits_snoc l d : of_digits b (l ++ [d]) = of_digits b l * b + d.
Proof. unfold of_digits. by rewrite fold_left_app. Qed.

Lemma of_digits_rev l : of_digits b (rev l) = of_le b l.
Proof. induction l as [|d l IH]; [done|]. cbn [rev of_le]. rewrite of_digits_snoc, IH. lia. Qed.

Lemma of_digits_le l : of_digits b l = of_le b (rev l).
Proof. by rewrite <- of_digits_rev, rev_involutive. Qed.

Lemma of_le_digits fuel x : 0 <= x -> x < 2 ^ Z.of_nat fuel -> of_le b (le_digits fuel b x) = x.
Proof.
  revert x. induction fuel as [|fuel IH]; intros x Hx Hf; [change (2 ^ Z.of_nat 0) with 1 in Hf; cbn; lia|].
  cbn. destruct (Z.leb_spec x 0); [cbn; lia|]. cbn.
  rewrite IH.
  - pose proof (Z.div_mod x b). lia.
  - apply Z.div_pos; lia.
  - rewrite Nat2Z.inj_succ, Z.pow_succ_r in Hf by lia. apply Z.div_lt_upper_bound; [lia|nia].
Qed.

Lemma fuel_enough x : 0 <= x -> x < 2 ^ Z.of_nat (digits_fuel x).
Proof.
  unfold digits_fuel. intros Hx. rewrite Nat2Z.inj_succ, Z2Nat.id by apply Z.log2_nonneg.
  destruct (Z.eq_dec x 0) as [->|]; [done|]. apply Z.log2_spec. lia.
Qed.

Lemma of_to_digits x : 0 <= x -> of_digits b (to_digits b x) = x.
Proof. intros. unfold to_digits. rewrite of_digits_rev. apply of_le_digits; [done|]. by apply fuel_enough. Qed.

Lemma le_digits_ok fuel x : digits_ok b (le_digits fuel b x).
Proof.
  revert x. induction fuel as [|fuel IH]; intros x; cbn; [constructor|].
  destruct (x <=? 0); constructor; [apply Z.mod_pos_bound; lia|apply IH].
Qed.

Lemma to_digits_ok x : digits_ok b (to_digits b x).
Proof. apply Forall_rev, le_digits_ok. Qed.

Lemma le_digits_last fuel x :
  0 <= x -> x < 2 ^ Z.of_nat fuel -> last (le_digits fuel b x) <> Some 0.
Proof.
  revert x. induction fuel as [|fuel IH]; intros x Hx Hf; [done|]. cbn.
  destruct (Z.leb_spec x 0); [done|].
  assert (0 <= x / b) by (apply Z.div_pos; lia).
  assert (x / b < 2 ^ Z.of_nat fuel) as Hf'
    by (rewrite Nat2Z.inj_succ, Z.pow_succ_r in Hf by lia; apply Z.div_lt_upper_bound; [lia|nia]).
  specialize (IH (x / b) ltac:(done) Hf'). cbn.
  destruct (le_digits fuel b (x / b)) as [|d l] eqn:E; [|done].
  pose proof (of_le_digits fuel (x / b) ltac:(done) Hf') as Hz. rewrite E in Hz. cbn in Hz.
  pose proof (Z.div_mod x b). intros [=]. lia.
Qed.

Lemma to_digits_head x : 0 <= x -> head (to_digits b x) <> Some 0.
Proof.
  intros Hx. unfold to_digits.
  pose proof (le_digits_last (digits_fuel x) x Hx (fuel_enough x Hx)) as Hl.
  intros H. apply Hl. destruct (rev (le_digits (digits_fuel x) b x)) as [|d l] eqn:E; [done|].
  cbn in H. simplify_eq. apply (f_equal (@rev Z)) in E. rewrite rev_involutive in E. rewrite E. cbn.
  apply last_snoc.
Qed.

Lemma of_le_bound l : digits_ok b l -> 0 <= of_le b l < b ^ zlen l.
Proof.
  induction 1 as [|d l Hd _ IH]; [done|]. cbn. unfold zlen in *. cbn [length].
  rewrite Nat2Z.inj_succ, Z.pow_succ_r by lia. nia.
Qed.

Lemma of_digits_bound l : digits_ok b l -> 0 <= of_digits b l < b ^ zlen l.
Proof.
  intros H. rewrite of_digits_le. unfold zlen. rewrite <- length_rev.
  by apply of_le_bound, Forall_rev.
Qed.

(** Two digit lists of the same value without a zero at the end are equal. *)
Lemma of_le_inj l k :
  digits_ok b l -> digits_ok b k -> last l <> Some 0 -> last k <> Some 0 ->
  of_le b l = of_le b k -> l = k.
Proof.
  assert (forall l, digits_ok b l -> last l <> Some 0 -> of_le b l = 0 -> l = []) as Hz.
  { intros l' Hl. induction Hl as [|d l' Hd Hl IH]; [done|]. cbn. intros Hlast H0.
    pose proof (of_le_bound l' Hl). assert (of_le b l' = 0) as Hl0 by nia.
    destruct l' as [|d' l']; [cbn in *; assert (d = 0) by lia; by subst|].
    by specialize (IH Hlast Hl0). }
  intros Hl. revert k. induction Hl as [|d l Hd Hl IH]; intros k Hk Hll Hlk H.
  - symmetry. apply Hz; try done.
  - destruct Hk as [|e k He Hk]; [by apply Hz; [constructor|..]|]. cbn in H.
    assert (d = e /\ of_le b l = of_le b k) as [-> E].
    { pose proof (of_le_bound l Hl). pose proof (of_le_bound k Hk).
      pose proof (Z.mod_unique_pos (d + b * of_le b l) b (of_le b l) d).
      pose proof (Z.mod_unique_pos (d + b * of_le b l) b (of_le b k) e).
      assert (d = e) by lia. split; [done|]. nia. }
    f_equal. apply IH; try done.
    + by destruct l.
    + by destruct k.
Qed.

Lemma head_rev {A} (l : list A) : head (rev l) = last l.
Proof.
  induction l as [|a l IH] using rev_ind; [done|]. by rewrite rev_app_distr, last_snoc.
Qed.

Lemma to_of_digits l : digits_ok b l -> head l <> Some 0 -> to_digits b (of_digits b l) = l.
Proof.
  intros Hl Hh. pose proof (of_digits_bound l Hl) as [Hnn _].
  assert (rev (to_digits b (of_digits b l)) = rev l) as E.
  { apply of_le_inj.
    - apply Forall_rev, to_digits_ok.
    - by apply Forall_rev.
    - rewrite <- head_rev, rev_involutive. by apply to_digits_head.
    - by rewrite <- head_rev, rev_involutive.
    - rewrite <- !of_digits_le. by apply of_to_digits. }
  apply (f_equal (@rev Z)) in E. by rewrite !rev_involutive in E.
Qed.

Lemma of_digits_zeros k l : of_digits b (replicate k 0 ++ l) = of_digits b l.
Proof. induction k as [|k IH]; [done|]. cbn in *. exact IH. Qed.

Lemma of_digits_app l k : of_digits b (l ++ k) = of_digits b l * b ^ zlen k + of_digits b k.
Proof.
  induction k as [|d k IH] using rev_ind.
  - rewrite app_nil_r. change (zlen []) with 0. change (of_digits b []) with 0. lia.
  - rewrite app_assoc, !of_digits_snoc, IH. unfold zlen. rewrite length_app, Nat2Z.inj_add.
    cbn [length]. rewrite Z.pow_add_r by lia. change (Z.of_nat 1) with 1. lia.
Qed.

Lemma to_digits_length x k : 0 <= x < b ^ Z.of_nat k -> (length (to_digits b x) <= k)%nat.
Proof.
  intros [Hx Hk]. destruct (Nat.le_gt_cases (length (to_digits b x)) k) as [|Hlt]; [done|].
  exfalso. pose proof (to_digits_head x Hx) as Hh. pose proof (to_digits_ok x) as Hok.
  pose proof (of_to_digits x Hx) as Hv.
  destruct (to_digits b x) as [|d l]; [cbn in Hlt; lia|]. cbn [length] in Hlt. cbn in Hh.
  apply Forall_cons in Hok as [Hd Hl]. assert (1 <= d) by (destruct (Z.eq_dec d 0); [by subst|lia]).
  pose proof (of_digits_app [d] l) as Happ. cbn [app] in Happ. rewrite Hv in Happ.
  change (of_digits b [d]) with (0 * b + d) in Happ.
  pose proof (of_digits_bound l Hl). unfold zlen in *.
  assert (b ^ Z.of_nat k <= b ^ Z.of_nat (length l)) by (apply Z.pow_le_mono_r; lia). nia.
Qed.
End Digits.

Lemma digits_of_bytes (l : bytes) : digits_ok 256 (byte.unsigned <$> l).
Proof. apply Forall_fmap, Forall_forall. intros x _. apply byte_unsigned_ok. Qed.

Lemma of_Z_unsigned_map (l : bytes) : byte.of_Z <$> (byte.unsigned <$> l) = l.
Proof.
  rewrite <- list_fmap_compose. rewrite <- (list_fmap_id l) at 2. apply list_fmap_ext.
  intros i x _. cbn. apply byte.of_Z_unsigned.
Qed.

Lemma unsigned_of_Z_map (l : list Z) : digits_ok 256 l -> byte.unsigned <$> (byte.of_Z <$> l) = l.
Proof.
  intros H. rewrite <- list_fmap_compose. rewrite <- (list_fmap_id l) at 2.
  apply Forall_fmap_ext_1. eapply Forall_impl; [exact H|]. intros x Hx. cbn.
  by apply byte_of_Z_small.
Qed.

Lemma Bytes_SetBytes l : head l <> Some x00 -> Bytes (SetBytes l) = l.
Proof.
  intros Hh. unfold Bytes, SetBytes. rewrite to_of_digits; [apply of_Z_unsigned_map|done|apply digits_of_bytes|].
  destruct l as [|x l]; [done|]. cbn in *. intros [= H]. apply Hh. f_equal.
  rewrite <- (byte.of_Z_unsigned x), H. done.
Qed.

Lemma SetBytes_Bytes x : 0 <= x -> SetBytes (Bytes x) = x.
Proof.
  intros. unfold SetBytes, Bytes. rewrite unsigned_of_Z_map by by apply to_digits_ok.
  by apply of_to_digits.
Qed.

Lemma SetBytes_nonneg l : 0 <= SetBytes l.
Proof. apply (of_digits_bound 256); [done|apply digits_of_bytes]. Qed.
