(* ===== verification/GoLib.v ===== *)
(** * The parts of Go's strings, strconv and math/big the program uses

    Strings are bytes.  [TrimSpace] strips the UTF-8 encodings of the runes
    [unicode.IsSpace] accepts; [ToLower] and [ToUpper] map ASCII strings
    byte-wise, as the package's fast path does, and leave a string with a byte
    of 0x80 or above to the Unicode tables, the argument [uni]. *)

From S2P Require Import Prelude Digits.

(** ** Bytes and cases *)

Definition is_digit (b : byte) : bool :=
  (48 <=? byte.unsigned b) && (byte.unsigned b <=? 57).
Definition is_lower (b : byte) : bool :=
  (97 <=? byte.unsigned b) && (byte.unsigned b <=? 122).
Definition is_upper (b : byte) : bool :=
  (65 <=? byte.unsigned b) && (byte.unsigned b <=? 90).
Definition is_ascii (b : byte) : bool := byte.unsigned b <? 128.

Definition ascii_upper (b : byte) : byte :=
  if is_lower b then byte.of_Z (byte.unsigned b - 32) else b.
Definition ascii_lower (b : byte) : byte :=
  if is_upper b then byte.of_Z (byte.unsigned b + 32) else b.

(** [unicode.ToLower] and [unicode.ToUpper] over the runes of a string. *)
Record Unicode := mkUnicode {
  map_lower : bytes -> bytes;
  map_upper : bytes -> bytes
}.

Definition ToLower (uni : Unicode) (s : bytes) : bytes :=
  if forallb is_ascii s then ascii_lower <$> s else map_lower uni s.
Definition ToUpper (uni : Unicode) (s : bytes) : bytes :=
  if forallb is_ascii s then ascii_upper <$> s else map_upper uni s.

(** ** Searching and splitting *)

Fixpoint HasPrefix (s pre : bytes) : bool :=
  match pre, s with
  | [], _ => true
  | p :: pre, x :: s => if byte_eq_dec x p then HasPrefix s pre else false
  | _, [] => false
  end.

Definition HasSuffix (s suf : bytes) : bool := HasPrefix (rev s) (rev suf).

(** [strings.IndexByte]; [None] is -1. *)
Fixpoint IndexByte (s : bytes) (c : byte) : option nat :=
  match s with
  | [] => None
  | x :: s => if byte_eq_dec x c then Some O else S <$> IndexByte s c
  end.

(** [strings.LastIndex] of a one-byte string. *)
Fixpoint LastIndexByte (s : bytes) (c : byte) : option nat :=
  match s with
  | [] => None
  | x :: s =>
      match LastIndexByte s c with
      | Some i => Some (S i)
      | None => if byte_eq_dec x c then Some O else None
      end
  end.

(** [strings.FieldsFunc] for a predicate on ASCII bytes. *)
Fixpoint fields (sep : byte -> bool) (s cur : bytes) : list bytes :=
  match s with
  | [] => match cur with [] => [] | _ => [rev cur] end
  | x :: s =>
      if sep x then match cur with [] => fields sep s [] | _ => rev cur :: fields sep s [] end
      else fields sep s (x :: cur)
  end.
Definition FieldsFunc (s : bytes) (sep : byte -> bool) : list bytes := fields sep s [].

(** ** TrimSpace *)

(** The runes of [unicode.IsSpace], in UTF-8. *)
Definition space_runes : list bytes :=
  [[x09]; [x0a]; [x0b]; [x0c]; [x0d]; [x20]; [xc2; x85]; [xc2; xa0]; [xe1; x9a; x80];
   [xe2; x80; x80]; [xe2; x80; x81]; [xe2; x80; x82]; [xe2; x80; x83]; [xe2; x80; x84];
   [xe2; x80; x85]; [xe2; x80; x86]; [xe2; x80; x87]; [xe2; x80; x88]; [xe2; x80; x89];
   [xe2; x80; x8a]; [xe2; x80; xa8]; [xe2; x80; xa9]; [xe2; x80; xaf]; [xe2; x81; x9f];
   [xe3; x80; x80]].

Definition space_prefix (runes : list bytes) (s : bytes) : option bytes :=
  head (List.filter (HasPrefix s) runes).

Fixpoint trim_prefix (fuel : nat) (runes : list bytes) (s : bytes) : bytes :=
  match fuel with
  | O => s
  | S fuel =>
      match space_prefix runes s with
      | Some r => trim_prefix fuel runes (drop (length r) s)
      | None => s
      end
  end.

(** Every rune is at least one byte, so the length is fuel enough. *)
Definition TrimLeftSpace (s : bytes) : bytes := trim_prefix (length s) space_runes s.
Definition TrimRightSpace (s : bytes) : bytes :=
  rev (trim_prefix (length s) (map (@rev byte) space_runes) (rev s)).
Definition TrimSpace (s : bytes) : bytes := TrimRightSpace (TrimLeftSpace s).

(** ** Numbers *)

Definition digit_val (b : byte) : Z := byte.unsigned b - 48.
Definition digit_char (d : Z) : byte := byte.of_Z (d + 48).

Definition all_digits (s : bytes) : bool := forallb is_digit s && negb (bool_decide (s = [])).

Definition dec_value (s : bytes) : Z := of_digits 10 (digit_val <$> s).

(** [x.String()] for a non-negative [x], and [strconv.FormatUint(x, 10)]. *)
Definition dec_string (x : Z) : bytes :=
  if x =? 0 then [x30] else digit_char <$> to_digits 10 x.

(** [big.Int.SetString(s, 10)]: an optional sign, then digits. *)
Definition SetString10 (s : bytes) : option Z :=
  match s with
  | x2d :: s' => if all_digits s' then Some (- dec_value s') else None
  | x2b :: s' => if all_digits s' then Some (dec_value s') else None
  | _ => if all_digits s then Some (dec_value s) else None
  end.

(** [strconv.ParseUint(s, 10, 64)]; [None] is an error. *)
Definition ParseUint64 (s : bytes) : option Z :=
  if all_digits s then
    let v := dec_value s in if v <? 2 ^ 64 then Some v else None
  else None.

(** [strconv.Atoi]. *)
Definition Atoi (s : bytes) : option Z :=
  match SetString10 s with
  | Some v => if (- 2 ^ 63 <=? v) && (v <? 2 ^ 63) then Some v else None
  | None => None
  end.

(** ** Lemmas *)

Lemma digit_char_digit d : 0 <= d < 10 -> is_digit (digit_char d) = true /\ digit_val (digit_char d) = d.
Proof.
  intros Hd. unfold is_digit, digit_val, digit_char. rewrite byte_of_Z_small by (unfold uint_ok; lia).
  split; [|lia]. apply andb_true_iff; split; apply Z.leb_le; lia.
Qed.

Lemma digit_val_char b : digit_char (digit_val b) = b.
Proof. unfold digit_char, digit_val. rewrite Z.sub_add. apply byte.of_Z_unsigned. Qed.

Lemma is_digit_val b : is_digit b = true -> 0 <= digit_val b < 10.
Proof. unfold is_digit, digit_val. intros H. zbool. lia. Qed.

Lemma digits_ok_val s : forallb is_digit s = true -> digits_ok 10 (digit_val <$> s).
Proof.
  intros H. apply Forall_fmap, Forall_forall. intros x Hx.
  apply is_digit_val. rewrite forallb_forall in H. apply H. by apply list_elem_of_In.
Qed.

Lemma digits_of_chars l : digits_ok 10 l ->
  forallb is_digit (digit_char <$> l) = true /\ digit_val <$> (digit_char <$> l) = l.
Proof.
  induction 1 as [|d l Hd _ [IH1 IH2]]; [done|]. cbn.
  destruct (digit_char_digit d Hd) as [-> Hv]. by rewrite IH1, IH2, Hv.
Qed.

Lemma all_digits_true s : all_digits s = true <-> forallb is_digit s = true /\ s <> [].
Proof.
  unfold all_digits. rewrite andb_true_iff, negb_true_iff, bool_decide_eq_false. done.
Qed.

Lemma dec_value_bound s : forallb is_digit s = true -> 0 <= dec_value s < 10 ^ zlen s.
Proof.
  intros H. pose proof (of_digits_bound 10 ltac:(lia) _ (digits_ok_val s H)) as Hb.
  unfold zlen in *. by rewrite length_fmap in Hb.
Qed.

Lemma dec_value_app s t : dec_value (s ++ t) = dec_value s * 10 ^ zlen t + dec_value t.
Proof.
  unfold dec_value. rewrite fmap_app, of_digits_app. unfold zlen. by rewrite length_fmap.
Qed.

Lemma dec_string_digits x : 0 <= x -> all_digits (dec_string x) = true.
Proof.
  intros Hx. unfold dec_string. destruct (Z.eqb_spec x 0); [done|].
  apply all_digits_true. split; [apply digits_of_chars, to_digits_ok; lia|].
  intros E. apply fmap_nil_inv in E.
  pose proof (of_to_digits 10 ltac:(lia) x Hx) as H. rewrite E in H. cbn in H. lia.
Qed.

Lemma dec_value_string x : 0 <= x -> dec_value (dec_string x) = x.
Proof.
  intros Hx. unfold dec_string, dec_value. destruct (Z.eqb_spec x 0); [by subst|].
  destruct (digits_of_chars (to_digits 10 x)) as [_ ->]; [apply to_digits_ok; lia|].
  apply of_to_digits; lia.
Qed.

Lemma dec_string_length x k :
  (0 < k)%nat -> 0 <= x < 10 ^ Z.of_nat k -> (length (dec_string x) <= k)%nat.
Proof.
  intros Hk Hx. unfold dec_string. destruct (x =? 0); [cbn; lia|].
  rewrite length_fmap. by apply to_digits_length.
Qed.

Lemma is_digit_not b c : is_digit b = true -> is_digit c = false -> b <> c.
Proof. congruence. Qed.

Lemma SetString10_digits s : all_digits s = true -> SetString10 s = Some (dec_value s).
Proof.
  intros H. pose proof H as H'. apply all_digits_true in H' as [Hd Hne]. unfold SetString10.
  destruct s as [|x s]; [done|]. cbn in Hd. apply andb_true_iff in Hd as [Hx _].
  rewrite H. destruct x; done.
Qed.

Lemma IndexByte_None s c : IndexByte s c = None <-> c ∉ s.
Proof.
  induction s as [|x s IH]; cbn; [split; [intros; apply not_elem_of_nil|done]|].
  rewrite not_elem_of_cons. destruct (byte_eq_dec x c); [naive_solver|].
  destruct (IndexByte s c); cbn; naive_solver.
Qed.

Lemma IndexByte_app s c t : c ∉ s -> IndexByte (s ++ c :: t) c = Some (length s).
Proof.
  induction s as [|x s IH]; cbn; [by destruct (byte_eq_dec c c)|].
  rewrite not_elem_of_cons. intros [? ?]. destruct (byte_eq_dec x c); [congruence|].
  by rewrite IH.
Qed.

Lemma IndexByte_Some s c n :
  IndexByte s c = Some n -> exists a b, s = a ++ c :: b /\ c ∉ a /\ n = length a.
Proof.
  revert n. induction s as [|x s IH]; intros n H; [done|]. cbn in H.
  destruct (byte_eq_dec x c) as [->|Hx].
  - simplify_eq. exists [], s. by split_and!; [|apply not_elem_of_nil|].
  - apply fmap_Some in H as (m & Hm & ->). destruct (IH m Hm) as (a & b & -> & Ha & ->).
    exists (x :: a), b. split_and!; try done. apply not_elem_of_cons. split; [congruence|done].
Qed.

Lemma LastIndexByte_app s c t : c ∉ t -> LastIndexByte (s ++ c :: t) c = Some (length s).
Proof.
  intros Ht. assert (LastIndexByte t c = None) as Hn.
  { induction t as [|x t IH]; [done|]. apply not_elem_of_cons in Ht as [? ?]. cbn.
    rewrite IH by done. destruct (byte_eq_dec x c); congruence. }
  induction s as [|x s IH]; cbn; [rewrite Hn; by destruct (byte_eq_dec c c)|]. by rewrite IH.
Qed.

(** Trimming a string that neither starts nor ends with a space rune. *)
Lemma TrimSpace_id s :
  space_prefix space_runes s = None ->
  space_prefix (map (@rev byte) space_runes) (rev s) = None ->
  TrimSpace s = s.
Proof.
  intros H1 H2. unfold TrimSpace, TrimLeftSpace, TrimRightSpace.
  assert (trim_prefix (length s) space_runes s = s) as -> by (destruct s; cbn in *; by rewrite ?H1).
  assert (trim_prefix (length s) (map (@rev byte) space_runes) (rev s) = rev s) as ->
    by (destruct (length s); [done|]; cbn [trim_prefix]; by rewrite H2).
  apply rev_involutive.
Qed.

Lemma space_prefix_ascii (runes : list bytes) x s :
  Forall (fun r => match r with [] => False | y :: _ => y <> x end) runes ->
  space_prefix runes (x :: s) = None.
Proof.
  unfold space_prefix. intros H.
  assert (List.filter (HasPrefix (x :: s)) runes = []) as ->; [|done].
  induction H as [|r runes Hr _ IH]; [done|]. cbn [List.filter].
  destruct r as [|y r]; [done|]. cbn [HasPrefix].
  destruct (byte_eq_dec x y); [congruence|done].
Qed.
