(* ===== verification/Sort.v ===== *)
(** * Sorting

    Byte-wise string order, and the sorting of package sort.  [sort_by] is a
    stable insertion sort, used where the keys differ, so that any algorithm
    gives the same list ([sorted_unique]).  [sort.Slice] promises neither an
    algorithm nor stability: [GoSort] is what the callers may rely on (the
    result is a permutation of the slice in which no element is less than an
    earlier one, when the comparison is a strict weak order), and [sort_by]
    is one instance. *)

From Stdlib Require Import Sorting.Sorted.
From S2P Require Import Prelude.

Fixpoint bytes_lt (a b : bytes) : bool :=
  match a, b with
  | _, [] => false
  | [], _ :: _ => true
  | x :: a, y :: b =>
      if byte.unsigned x <? byte.unsigned y then true
      else if byte.unsigned y <? byte.unsigned x then false
      else bytes_lt a b
  end.

Fixpoint insert_by {A} (lt : A -> A -> bool) (x : A) (l : list A) : list A :=
  match l with
  | [] => [x]
  | y :: l => if lt y x then y :: insert_by lt x l else x :: y :: l
  end.
Definition sort_by {A} (lt : A -> A -> bool) (l : list A) : list A := fold_right (insert_by lt) [] l.

(** What sort.Slice asks of its comparison. *)
Record weak_order {A} (lt : A -> A -> bool) : Prop := {
  wo_asym a b : lt a b = true -> lt b a = false;
  wo_trans a b c : lt b a = false -> lt c b = false -> lt c a = false;
}.

Definition sorted {A} (lt : A -> A -> bool) : list A -> Prop := StronglySorted (fun a b => lt b a = false).

Class GoSort := sort_slice : forall {A}, (A -> A -> bool) -> list A -> list A.
Class GoSortLaws `{GoSort} : Prop := {
  sort_slice_perm {A} (lt : A -> A -> bool) l : sort_slice lt l ≡ₚ l;
  sort_slice_sorted {A} (lt : A -> A -> bool) l : weak_order lt -> sorted lt (sort_slice lt l);
}.

(** ** Laws *)

Lemma insert_by_perm {A} (lt : A -> A -> bool) x l : insert_by lt x l ≡ₚ x :: l.
Proof. induction l as [|y l IH]; cbn; [done|]. destruct (lt y x); [|done]. rewrite IH. apply Permutation_swap. Qed.

Lemma sort_by_perm {A} (lt : A -> A -> bool) l : sort_by lt l ≡ₚ l.
Proof. induction l as [|x l IH]; cbn; [done|]. by rewrite insert_by_perm, IH. Qed.

Lemma insert_by_sorted {A} (lt : A -> A -> bool) x l : weak_order lt -> sorted lt l -> sorted lt (insert_by lt x l).
Proof.
  intros W. induction 1 as [|y l Hs IH Hy]; cbn; [repeat constructor|]. destruct (lt y x) eqn:E.
  - constructor; [done|]. rewrite insert_by_perm. constructor; [by apply W|done].
  - constructor; [by constructor|]. constructor; [done|]. eapply Forall_impl; [exact Hy|]. cbn. intros z Hz.
    by apply (wo_trans lt W x y z).
Qed.

Lemma sort_by_sorted {A} (lt : A -> A -> bool) l : weak_order lt -> sorted lt (sort_by lt l).
Proof. intros W. induction l as [|x l IH]; cbn; [constructor|by apply insert_by_sorted]. Qed.

#[export] Instance stable_sort : GoSort := fun A => sort_by.
#[export] Instance stable_sort_laws : GoSortLaws.
Proof. split; intros; [apply sort_by_perm|by apply sort_by_sorted]. Qed.

(** Where no two elements are tied there is one sorted list. *)
Lemma sorted_unique {A} (lt : A -> A -> bool) (l k : list A) :
  (forall a b, a ∈ l -> b ∈ l -> lt a b = false -> lt b a = false -> a = b) ->
  sorted lt l -> sorted lt k -> l ≡ₚ k -> l = k.
Proof.
  intros Ht Hl Hk. revert k Hk. induction Hl as [|a l Hl IH Ha]; intros k Hk Hp; [by apply Permutation_nil in Hp|].
  destruct Hk as [|b k Hk Hb]; [by apply Permutation_sym, Permutation_nil in Hp|].
  assert (a = b) as <-.
  { assert (a ∈ b :: k) as [->|Hak]%elem_of_cons by (rewrite <- Hp; set_solver); [done|].
    assert (b ∈ a :: l) as [->|Hbl]%elem_of_cons by (rewrite Hp; set_solver); [done|].
    rewrite Forall_forall in Ha, Hb. apply Ht; [set_solver|set_solver|by apply Hb|by apply Ha]. }
  f_equal. apply Permutation_cons_inv in Hp. apply IH; [|done|done]. intros; apply Ht; set_solver.
Qed.

(** ** The order on strings *)

Lemma bytes_lt_asym a b : bytes_lt a b = true -> bytes_lt b a = false.
Proof.
  revert b; induction a as [|x a IH]; intros [|y b]; cbn; try done.
  destruct (Z.ltb_spec (byte.unsigned x) (byte.unsigned y)), (Z.ltb_spec (byte.unsigned y) (byte.unsigned x)); try done; [lia|].
  apply IH.
Qed.

Lemma bytes_lt_trans_ge a b c : bytes_lt b a = false -> bytes_lt c b = false -> bytes_lt c a = false.
Proof.
  revert b c; induction a as [|x a IH]; intros [|y b] [|z c]; cbn; try done.
  repeat case_match; zbool; try done; try lia. apply IH.
Qed.

Lemma bytes_lt_weak : weak_order bytes_lt.
Proof. split; [apply bytes_lt_asym|apply bytes_lt_trans_ge]. Qed.

Lemma bytes_lt_total a b : bytes_lt a b = false -> bytes_lt b a = false -> a = b.
Proof.
  revert b; induction a as [|x a IH]; intros [|y b]; cbn; try done.
  repeat case_match; zbool; try done. intros H1 H2. f_equal; [|by apply IH].
  apply byte.unsigned_inj. lia.
Qed.

(** A comparison of integer keys. *)
Lemma key_weak {A} (f : A -> Z) : weak_order (fun a b => f a <? f b).
Proof. split; intros *; rewrite ?Z.ltb_lt, ?Z.ltb_ge; lia. Qed.
