(* ===== verification/Conf.v ===== *)
(** * config: reading xbridge.conf and admitting coins

    Models config/conf.go (the INI reader, the [Main] and coin sections, the
    dust rule that disables a coin) and config/admit.go (the admission gates).
    The file's content is the argument of [Load]; a section is a map from keys
    to values, [map[string]string].  Go ranges over the sections in an
    unspecified order: [Load] is written over the map's own enumeration, and its
    result does not depend on it ([Load_partition] determines it). *)

From Stdlib Require Import Sorting.Sorted.
From S2P Require Import Prelude Sort Digits GoLib.

Abbreviation section := (gmap bytes bytes).

(** Error texts built from bytes. *)
Definition errf {A} (parts : list bytes) : res A :=
  Err (string_of_list_byte (concat parts)).

(** ** Data *)

Record Main := mkMain {
  ExchangeWallets : list bytes;
  ShowAllOrders : bool;
  FullLog : bool
}.

Record CoinConf := mkCoinConf {
  cc_Ticker : bytes;
  cc_Title : bytes;
  cc_Address : bytes;
  cc_Ip : bytes;
  cc_Port : Z;
  cc_Username : bytes;
  cc_Password : bytes;
  cc_CreateTxMethod : bytes;
  cc_AddressPrefix : Z;
  cc_ScriptPrefix : Z;
  cc_SecretPrefix : Z;
  cc_Coin : Z;
  cc_MinimumAmount : Z;
  cc_TxVersion : Z;
  cc_DustAmount : Z;
  cc_MinTxFee : Z;
  cc_BlockTime : Z;
  cc_FeePerByte : Z;
  cc_Confirmations : Z;
  cc_TxWithTimeField : bool;
  cc_LockCoinsSupported : bool;
  cc_GetNewKeySupported : bool;
  cc_ImportWithNoScanSupported : bool;
  cc_CashAddrPrefix : bytes;
  cc_JSONVersion : bytes;
  cc_ContentType : bytes;
  cc_OmitJSONVersion : bool
}.

Record Disable := mkDisable { d_Coin : bytes; d_Reason : bytes }.

Record Conf := mkConf {
  cf_Main : Main;
  cf_Coins : gmap bytes CoinConf;
  cf_Disabled : list Disable
}.

Definition Conf_Wallets (c : Conf) : list bytes :=
  List.filter
    (fun ticker => negb (existsb (fun d => bool_decide (d_Coin d = ticker)) (cf_Disabled c)))
    (ExchangeWallets (cf_Main c)).

(** ** INI parsing *)

(** [bufio.ScanLines] through a Scanner with the default buffer: the lines, and
    whether one did not fit in 64 KiB (its newline included). *)
Fixpoint split_lines (s cur : bytes) : list bytes :=
  match s with
  | [] => match cur with [] => [] | _ => [rev cur] end
  | x :: s => if byte_eq_dec x x0a then rev cur :: split_lines s [] else split_lines s (x :: cur)
  end.

Definition dropCR (l : bytes) : bytes :=
  match rev l with x0d :: r => rev r | _ => l end.

Definition maxLine : Z := 65535.

Fixpoint scan (ls : list bytes) : list bytes * bool :=
  match ls with
  | [] => ([], false)
  | l :: ls =>
      if maxLine <? zlen l then ([], true)
      else let '(k, e) := scan ls in (dropCR l :: k, e)
  end.

(** One line, in the section [cur]. *)
Definition parse_line (lineNo : Z) (line : bytes) (cur : bytes) (out : gmap bytes section)
    : res (bytes * gmap bytes section) :=
  let raw := TrimSpace line in
  if bool_decide (raw = []) || HasPrefix raw (bytes_of "#") || HasPrefix raw (bytes_of ";")
  then Ok (cur, out)
  else if HasPrefix raw (bytes_of "[") && HasSuffix raw (bytes_of "]") then
    name ← slice raw 1 (zlen raw - 1);
    let cur := TrimSpace name in
    Ok (cur, match out !! cur with Some _ => out | None => <[cur := ∅]> out end)
  else if bool_decide (cur = []) then
    errf [bytes_of "config: line "; dec_string lineNo; bytes_of ": key/value outside any [section]"]
  else
    match IndexByte raw x3d with
    | None => errf [bytes_of "config: line "; dec_string lineNo; bytes_of ": expected key=value"]
    | Some eq =>
        let key := TrimSpace (take eq raw) in
        let val := TrimSpace (drop (S eq) raw) in
        let sec := default ∅ (out !! cur) in
        Ok (cur, <[cur := <[key := val]> sec]> out)
    end.

Fixpoint parse_lines (lineNo : Z) (ls : list bytes) (cur : bytes) (out : gmap bytes section)
    : res (gmap bytes section) :=
  match ls with
  | [] => Ok out
  | l :: ls =>
      '(cur, out) ← parse_line (lineNo + 1) l cur out;
      parse_lines (lineNo + 1) ls cur out
  end.

Definition parseINI (content : bytes) : res (gmap bytes section) :=
  let '(ls, tooLong) := scan (split_lines content []) in
  out ← parse_lines 0 ls [] ∅;
  if tooLong then Err "config: read: bufio.Scanner: token too long" else Ok out.

(** ** Typed access to a section *)

Definition section_str (s : section) (key def : bytes) : bytes :=
  match s !! key with
  | Some v => if bool_decide (v = []) then def else v
  | None => def
  end.

Definition section_intp (s : section) (key : bytes) (def : Z) : Z :=
  match s !! key with
  | Some v => if bool_decide (v = []) then def else default def (Atoi (TrimSpace v))
  | None => def
  end.

Definition section_uintp (s : section) (key : bytes) (def : Z) : Z :=
  match s !! key with
  | Some v => if bool_decide (v = []) then def else default def (ParseUint64 (TrimSpace v))
  | None => def
  end.

Section WithUnicode.
Context (uni : Unicode).

Definition section_boolp (s : section) (key : bytes) : bool :=
  match s !! key with
  | Some v =>
      let v := ToLower uni (TrimSpace v) in
      bool_decide (v ∈ [bytes_of "1"; bytes_of "true"; bytes_of "yes"; bytes_of "on"])
  | None => false
  end.

Definition isWalletSeparator (r : byte) : bool :=
  bool_decide (r = x2c \/ r = x3b \/ r = x3a).

(** [[]] when the symbol is invalid. *)
Definition validateSymbol (raw : bytes) : bytes :=
  if (zlen raw <? 1) || (8 <? zlen raw) then [] else ascii_upper <$> raw.

Definition parseMain (kv : section) : Main :=
  let ew := section_str kv (bytes_of "ExchangeWallets") [] in
  let wallets :=
    if bool_decide (ew = []) then []
    else List.filter (fun sym => negb (bool_decide (sym = [])))
           (validateSymbol <$> FieldsFunc ew isWalletSeparator) in
  mkMain wallets (section_boolp kv (bytes_of "ShowAllOrders")) (section_boolp kv (bytes_of "FullLog")).

(** The threshold, or the reason it was rejected. *)
Definition parseDustAmount (s : section) : Z + bytes :=
  match s !! bytes_of "DustAmount" with
  | None => inr (bytes_of "has no DustAmount in the config")
  | Some raw =>
      if bool_decide (TrimSpace raw = []) then
        inr (bytes_of "has an invalid DustAmount in the config <>")
      else
        match ParseUint64 (TrimSpace raw) with
        | Some n => inl n
        | None => inr (bytes_of "has an invalid DustAmount in the config <" ++ raw ++ bytes_of ">")
        end
  end.

Definition parseCoinConf (name : bytes) (s : section) : CoinConf + bytes :=
  match parseDustAmount s with
  | inr reason => inr reason
  | inl dust =>
      inl (mkCoinConf
        name
        (section_str s (bytes_of "Title") [])
        (section_str s (bytes_of "Address") [])
        (section_str s (bytes_of "Ip") [])
        (section_intp s (bytes_of "Port") 0)
        (section_str s (bytes_of "Username") [])
        (section_str s (bytes_of "Password") [])
        (section_str s (bytes_of "CreateTxMethod") [])
        (section_intp s (bytes_of "AddressPrefix") 0)
        (section_intp s (bytes_of "ScriptPrefix") 0)
        (section_intp s (bytes_of "SecretPrefix") 0)
        (section_uintp s (bytes_of "COIN") 0)
        (section_uintp s (bytes_of "MinimumAmount") 0)
        (section_intp s (bytes_of "TxVersion") 1)
        dust
        (section_uintp s (bytes_of "MinTxFee") 0)
        (section_intp s (bytes_of "BlockTime") 0)
        (section_uintp s (bytes_of "FeePerByte") 0)
        (section_intp s (bytes_of "Confirmations") 0)
        (section_boolp s (bytes_of "TxWithTimeField"))
        (section_boolp s (bytes_of "LockCoinsSupported"))
        (section_boolp s (bytes_of "GetNewKeySupported"))
        (section_boolp s (bytes_of "ImportWithNoScanSupported"))
        (section_str s (bytes_of "CashAddrPrefix") [])
        (section_str s (bytes_of "JSONVersion") [])
        (section_str s (bytes_of "ContentType") [])
        (section_boolp s (bytes_of "OmitJSONVersion")))
  end.

(** [sort.Slice] by coin name, byte-wise. *)
Fixpoint insert_disable (d : Disable) (l : list Disable) : list Disable :=
  match l with
  | [] => [d]
  | e :: l' => if bytes_lt (d_Coin d) (d_Coin e) then d :: l else e :: insert_disable d l'
  end.

Definition sort_disabled (l : list Disable) : list Disable := fold_right insert_disable [] l.

(** One section of the parsed file. *)
Definition load_section (conf : Conf) (nkv : bytes * section) : Conf :=
  let '(name, kv) := nkv in
  if bool_decide (name = bytes_of "Main") then mkConf (parseMain kv) (cf_Coins conf) (cf_Disabled conf)
  else if bool_decide (name = bytes_of "Rpc") then conf
  else
    match parseCoinConf name kv with
    | inr reason => mkConf (cf_Main conf) (cf_Coins conf) (cf_Disabled conf ++ [mkDisable name reason])
    | inl cc => mkConf (cf_Main conf) (<[name := cc]> (cf_Coins conf)) (cf_Disabled conf)
    end.

Definition empty_conf : Conf := mkConf (mkMain [] false false) ∅ [].

(** [content]: the file, or [None] when it cannot be opened. *)
Definition Load (content : option bytes) : res Conf :=
  match content with
  | None => Err "config: cannot open"
  | Some content =>
      parsed ← parseINI content;
      let conf := fold_left load_section (map_to_list parsed) empty_conf in
      Ok (mkConf (cf_Main conf) (cf_Coins conf) (sort_disabled (cf_Disabled conf)))
  end.
End WithUnicode.

(** ** Admission *)

Definition XMinLockTimeBlocks : Z := 6.
Definition XMaxLockTimeDriftBlocks : Z := 4.
Definition XMakerLocktimeTargetSeconds : Z := 7200.
Definition XTakerLocktimeTargetSeconds : Z := 1800.
Definition XSlowTakerLocktimeTargetSeconds : Z := 3600.
Definition XSlowBlockTimeSeconds : Z := 600.
Definition XLocktimeDriftSeconds : Z := XTakerLocktimeTargetSeconds / 2.

Definition supportedCreateTxMethods : list bytes :=
  map bytes_of ["BTC"; "SYS"; "LTC"; "DGB"; "BCH"; "BTG"; "DEVAULT"]%string.

Definition eth_methods : list bytes := map bytes_of ["ETH"; "ETHER"; "ETHEREUM"]%string.
Definition deferred_methods : list bytes := map bytes_of ["BCD"; "PART"; "STEALTH"; "XST"]%string.

(** [int] products wrap; [Z.quot] is Go's integer division. *)
Definition Admit (c : CoinConf) : res unit :=
  let t := cc_Ticker c in
  let bt := cc_BlockTime c in
  let locktime := swrap64 (bt * XMinLockTimeBlocks) in
  if (bt <? 0) || (cc_Confirmations c <? 0) then
    errf [t; bytes_of ": negative BlockTime/Confirmations"]
  else if bool_decide (cc_Ip c = []) || (cc_Port c =? 0) || (cc_Coin c =? 0) || (bt =? 0) then
    errf [t; bytes_of ": Failed to connect, check the config"]
  else if XMakerLocktimeTargetSeconds <? locktime then
    errf [t; bytes_of ": Failed maker locktime requirements"]
  else if (bt <? XSlowBlockTimeSeconds) && (XTakerLocktimeTargetSeconds <? locktime) then
    errf [t; bytes_of ": Failed taker locktime requirements"]
  else if (XSlowBlockTimeSeconds <=? bt) && (XSlowTakerLocktimeTargetSeconds <? locktime) then
    errf [t; bytes_of ": Failed taker locktime requirements"]
  else
    let maxConfirmations := Z.quot XLocktimeDriftSeconds bt in
    let maxConfirmations :=
      if maxConfirmations <? XMaxLockTimeDriftBlocks then XMaxLockTimeDriftBlocks
      else maxConfirmations in
    if maxConfirmations <? cc_Confirmations c then
      errf [t; bytes_of ": Failed confirmation check, max allowed for this token is ";
            dec_string maxConfirmations]
    else if bool_decide (cc_CreateTxMethod c ∈ eth_methods) then
      errf [t; bytes_of ": ETH connector is not supported on XBridge at this time"]
    else if bool_decide (cc_CreateTxMethod c ∈ deferred_methods) then
      errf [t; bytes_of ": "; cc_CreateTxMethod c;
            bytes_of " connector is not supported by go-xbridge (deferred)"]
    else if negb (bool_decide (cc_CreateTxMethod c ∈ supportedCreateTxMethods)) then
      errf [t; bytes_of ": unknown session type "; cc_CreateTxMethod c]
    else Ok tt.

Definition AdmittedConfs (confs : gmap bytes CoinConf) : gmap bytes CoinConf :=
  filter (fun kc => is_ok (Admit (snd kc)) = true) confs.

(** ** What a loaded configuration holds *)

Section LoadFacts.
Context (uni : Unicode).

(** What a configuration says about one section name. *)
Definition conf_view (name : bytes) (c : Conf) : option CoinConf * list Disable :=
  (cf_Coins c !! name, List.filter (fun d => bool_decide (d_Coin d = name)) (cf_Disabled c)).

(** What the section of that name should make of it. *)
Definition section_view (name : bytes) (kv : option section) : option CoinConf * list Disable :=
  match kv with
  | None => (None, [])
  | Some kv =>
      if bool_decide (name = bytes_of "Main" \/ name = bytes_of "Rpc") then (None, [])
      else
        match parseCoinConf uni name kv with
        | inl cc => (Some cc, [])
        | inr reason => (None, [mkDisable name reason])
        end
  end.

Lemma load_section_view name c n kv :
  conf_view name (load_section uni c (n, kv)) =
  if decide (n = name) then
    match section_view name (Some kv) with
    | (Some cc, _) => (Some cc, snd (conf_view name c))
    | (None, ds) => (fst (conf_view name c), snd (conf_view name c) ++ ds)
    end
  else conf_view name c.
Proof.
  unfold load_section, section_view, conf_view. cbn [fst snd].
  destruct (decide (n = name)) as [->|Hn].
  - case_bool_decide; [rewrite bool_decide_true by auto; by rewrite app_nil_r|].
    case_bool_decide; [rewrite bool_decide_true by auto; by rewrite app_nil_r|].
    rewrite bool_decide_false by naive_solver.
    destruct (parseCoinConf uni name kv) as [cc|reason]; cbn.
    + by rewrite lookup_insert_eq.
    + rewrite List.filter_app. cbn. by rewrite bool_decide_true.
  - case_bool_decide; [done|]. case_bool_decide; [done|].
    destruct (parseCoinConf uni n kv) as [cc|reason]; cbn.
    + by rewrite lookup_insert_ne.
    + rewrite List.filter_app. cbn. rewrite bool_decide_false by done. by rewrite app_nil_r.
Qed.

Lemma load_fold_view name l c :
  NoDup l.*1 -> conf_view name c = (None, []) ->
  conf_view name (fold_left (load_section uni) l c) =
  section_view name ((list_to_map l : gmap bytes section) !! name).
Proof.
  revert c. induction l as [|[n kv] l IH]; intros c Hnd Hc; [done|].
  rewrite fmap_cons in Hnd. apply NoDup_cons in Hnd as [Hni Hnd]. cbn [fold_left fst].
  rewrite list_to_map_cons. destruct (decide (n = name)) as [->|Hn].
  - rewrite lookup_insert_eq.
    assert (forall c', conf_view name (fold_left (load_section uni) l c') = conf_view name c') as Hkeep.
    { cbn [fst] in Hni. clear -Hni. induction l as [|[m kv'] l IH]; intros c'; [done|].
      rewrite fmap_cons, not_elem_of_cons in Hni. destruct Hni as [Hm Hni]. cbn [fold_left].
      rewrite IH by done. rewrite load_section_view. cbn in Hm. by rewrite decide_False by congruence. }
    rewrite Hkeep, load_section_view, decide_True, Hc by done. cbn [fst snd app].
    by destruct (section_view name (Some kv)) as [[cc|] ds] eqn:E;
      unfold section_view in E; repeat case_match; simplify_eq.
  - rewrite lookup_insert_ne by done. apply IH; [done|].
    rewrite load_section_view. by rewrite decide_False.
Qed.

Definition disable_le (a b : Disable) : Prop := bytes_lt (d_Coin b) (d_Coin a) = false.

Lemma insert_disable_perm d l : insert_disable d l ≡ₚ d :: l.
Proof.
  induction l as [|e l IH]; [done|]. cbn. destruct (bytes_lt _ _); [done|].
  rewrite IH. apply perm_swap.
Qed.

Lemma insert_disable_sorted d l : Sorted disable_le l -> Sorted disable_le (insert_disable d l).
Proof.
  induction 1 as [|e l Hs IH Hh]; [repeat constructor|]. cbn.
  destruct (bytes_lt (d_Coin d) (d_Coin e)) eqn:E.
  - constructor; [by constructor|]. constructor. by apply bytes_lt_asym.
  - constructor; [done|]. destruct Hh as [|f l Hf]; cbn; [by constructor|].
    destruct (bytes_lt (d_Coin d) (d_Coin f)); by constructor.
Qed.

Lemma sort_disabled_spec l : Sorted disable_le (sort_disabled l) /\ sort_disabled l ≡ₚ l.
Proof.
  induction l as [|d l [IH1 IH2]]; [split; [constructor|done]|]. cbn.
  split; [by apply insert_disable_sorted|]. by rewrite insert_disable_perm, IH2.
Qed.

Lemma filter_perm {A} (f : A -> bool) (l k : list A) : l ≡ₚ k -> List.filter f l ≡ₚ List.filter f k.
Proof.
  induction 1; cbn; try done.
  - by case_match; [constructor|].
  - repeat case_match; try done. apply perm_swap.
  - by etrans.
Qed.

(** What a loaded configuration says, section by section: every section but
    [Main] and [Rpc] is either a usable coin, with the threshold its DustAmount
    parses to, or disabled with a reason, never both and never defaulted, and
    no other name appears; the disabled list is sorted; and no disabled coin is
    ever among the wallets to connect. *)
Theorem Load_partition (content : bytes) (parsed : gmap bytes section) (conf : Conf) :
  parseINI content = Ok parsed -> Load uni (Some content) = Ok conf ->
  (forall name, conf_view name conf = section_view name (parsed !! name)) /\
  Sorted disable_le (cf_Disabled conf) /\
  (forall t, t ∈ Conf_Wallets conf -> t ∈ ExchangeWallets (cf_Main conf) /\ snd (conf_view t conf) = []).
Proof.
  intros Hp HL. unfold Load in HL. rewrite Hp in HL. cbn [mbind res_bind] in HL. simplify_eq.
  set (c := fold_left (load_section uni) (map_to_list parsed) empty_conf).
  destruct (sort_disabled_spec (cf_Disabled c)) as [Hs Hperm]. split_and!; [|done|].
  - intros name.
    assert (conf_view name c = section_view name (parsed !! name)) as Hc.
    { unfold c. rewrite load_fold_view by (apply NoDup_fst_map_to_list || done).
      by rewrite list_to_map_to_list. }
    rewrite <- Hc. unfold conf_view. cbn. f_equal.
    pose proof (filter_perm (fun d => bool_decide (d_Coin d = name)) _ _ Hperm) as Hf.
    assert (length (List.filter (fun d => bool_decide (d_Coin d = name)) (cf_Disabled c)) <= 1)%nat as Hlen.
    { unfold conf_view in Hc. apply (f_equal snd) in Hc. cbn in Hc. rewrite Hc.
      unfold section_view. repeat case_match; cbn; lia. }
    destruct (List.filter _ (cf_Disabled c)) as [|d [|? ?]]; [|by apply Permutation_singleton_r in Hf|cbn in Hlen; lia].
    by apply Permutation_nil_r in Hf.
  - intros t Ht. unfold Conf_Wallets in Ht.
    apply list_elem_of_In, filter_In in Ht as [Hin He]. split; [by apply list_elem_of_In|].
    apply negb_true_iff in He. unfold conf_view. cbn [snd cf_Disabled] in *.
    clear -He. induction (sort_disabled (cf_Disabled c)) as [|d l IH]; [done|]. cbn in *.
    apply orb_false_iff in He as [H1 H2]. rewrite H1. by apply IH.
Qed.
End LoadFacts.

Definition no_unicode : Unicode := mkUnicode id id.

(** A file with a usable coin, a coin without DustAmount, and a dead section. *)
Definition sample_conf_file : bytes :=
  concat [bytes_of "[Main]"; [x0a]; bytes_of "ExchangeWallets=btc,LTC"; [x0a];
          bytes_of "[BTC]"; [x0a]; bytes_of "COIN = 100000000"; [x0a];
          bytes_of "DustAmount=5460"; [x0a]; bytes_of "# comment"; [x0a];
          bytes_of "[ LTC ]"; [x0d; x0a]; bytes_of "DustAmount=abc"; [x0a]; bytes_of "[Rpc]"].

Lemma Load_partition_witness :
  exists parsed conf,
    parseINI sample_conf_file = Ok parsed /\ Load no_unicode (Some sample_conf_file) = Ok conf /\
    conf_view (bytes_of "LTC") conf = section_view no_unicode (bytes_of "LTC") (parsed !! bytes_of "LTC") /\
    Conf_Wallets conf = [bytes_of "BTC"].
Proof.
  destruct (is_ok_ex (parseINI sample_conf_file)) as [parsed Ep]; [by vm_compute|].
  destruct (is_ok_ex (Load no_unicode (Some sample_conf_file))) as [conf El]; [by vm_compute|].
  exists parsed, conf. split_and!; [done|done| |].
  - exact (proj1 (Load_partition no_unicode sample_conf_file parsed conf Ep El) (bytes_of "LTC")).
  - assert ((Conf_Wallets <$> Load no_unicode (Some sample_conf_file)) = Ok [bytes_of "BTC"]) as H
      by by vm_compute.
    rewrite El in H. unfold fmap, res_fmap in H. by injection H.
Defined.

(** ** Admission *)

(** The conditions under which the gates mean to let a coin through. *)
Definition admission_ok (c : CoinConf) : Prop :=
  cc_Ip c <> [] /\ cc_Port c <> 0 /\ cc_Coin c <> 0 /\
  (1 <= cc_BlockTime c <= 300 \/ cc_BlockTime c = 600) /\
  0 <= cc_Confirmations c <= Z.max 4 (900 / cc_BlockTime c) /\
  cc_CreateTxMethod c ∈ supportedCreateTxMethods.

Lemma supported_not_refused m :
  m ∈ supportedCreateTxMethods -> m ∉ eth_methods /\ m ∉ deferred_methods.
Proof.
  intros H. assert (Forall (fun m => m ∉ eth_methods /\ m ∉ deferred_methods) supportedCreateTxMethods) as Hall
    by (apply (bool_decide_unpack (Forall _ _)); by vm_compute).
  rewrite Forall_forall in Hall. by apply Hall.
Qed.

Definition with_block_time (bt : Z) (c : CoinConf) : CoinConf :=
  mkCoinConf (cc_Ticker c) (cc_Title c) (cc_Address c) (cc_Ip c) (cc_Port c) (cc_Username c)
    (cc_Password c) (cc_CreateTxMethod c) (cc_AddressPrefix c) (cc_ScriptPrefix c) (cc_SecretPrefix c)
    (cc_Coin c) (cc_MinimumAmount c) (cc_TxVersion c) (cc_DustAmount c) (cc_MinTxFee c) bt
    (cc_FeePerByte c) (cc_Confirmations c) (cc_TxWithTimeField c) (cc_LockCoinsSupported c)
    (cc_GetNewKeySupported c) (cc_ImportWithNoScanSupported c) (cc_CashAddrPrefix c)
    (cc_JSONVersion c) (cc_ContentType c) (cc_OmitJSONVersion c).

Lemma max_confirmations bt :
  0 < bt -> (if Z.quot 900 bt <? 4 then 4 else Z.quot 900 bt) = Z.max 4 (900 / bt).
Proof.
  intros. rewrite Z.quot_div_nonneg by lia. destruct (Z.ltb_spec (900 / bt) 4); lia.
Qed.

(** The admission gates, exactly: a coin whose block time is below 2^60
    seconds is admitted if and only if its endpoint and COIN are set, its block
    time is 1..300 or 600 seconds, its confirmations are within
    max(4, 900/blockTime) and its transaction method is supported.  Without
    that bound the [int] product overflows: any coin that passes is also
    admitted with a block time of 2^62 seconds, 146 billion years. *)
Theorem Admit_exact (c : CoinConf) :
  cc_BlockTime c < 2 ^ 60 ->
  (Admit c = Ok tt <-> admission_ok c) /\
  (Admit c = Ok tt -> cc_Confirmations c <= 4 -> Admit (with_block_time (2 ^ 62) c) = Ok tt).
Proof.
  intros Hbt.
  assert (Admit c = Ok tt -> admission_ok c) as Hfwd.
  { unfold Admit, admission_ok, errf, XMinLockTimeBlocks, XMakerLocktimeTargetSeconds, XTakerLocktimeTargetSeconds,
      XSlowTakerLocktimeTargetSeconds, XSlowBlockTimeSeconds, XMaxLockTimeDriftBlocks.
    change (Z.quot XLocktimeDriftSeconds) with (Z.quot 900). intros H.
    destruct (Z.ltb_spec (cc_BlockTime c) 0); [done|]. destruct (Z.ltb_spec (cc_Confirmations c) 0); [done|].
    destruct (bool_decide (cc_Ip c = [])) eqn:Eip; [done|]. apply bool_decide_eq_false in Eip.
    destruct (Z.eqb_spec (cc_Port c) 0); [done|]. destruct (Z.eqb_spec (cc_Coin c) 0); [done|].
    destruct (Z.eqb_spec (cc_BlockTime c) 0); [done|]. cbn [orb] in H.
    rewrite swrap64_small in H by lia.
    destruct (Z.ltb_spec 7200 (cc_BlockTime c * 6)); [done|].
    rewrite max_confirmations in H by lia.
    assert (forall X : bool, X = true -> X = false -> False) as Hx by congruence.
    split_and!; try done.
    - destruct (Z.ltb_spec (cc_BlockTime c) 600), (Z.leb_spec 600 (cc_BlockTime c)); try lia; cbn [andb] in H.
      + destruct (Z.ltb_spec 1800 (cc_BlockTime c * 6)); [done|]. lia.
      + destruct (Z.ltb_spec 3600 (cc_BlockTime c * 6)); [done|]. lia.
    - destruct (_ && _); [done|]. destruct (_ && _); [done|].
      destruct (Z.ltb_spec (Z.max 4 (900 / cc_BlockTime c)) (cc_Confirmations c)); [done|]. lia.
    - destruct (_ && _); [done|]. destruct (_ && _); [done|].
      destruct (_ <? _); [done|]. destruct (bool_decide _); [done|]. destruct (bool_decide _); [done|].
      case_bool_decide as Hm; [done|]. done. }
  assert (forall d, cc_Ip d <> [] -> cc_Port d <> 0 -> cc_Coin d <> 0 -> 0 < cc_BlockTime d ->
    swrap64 (cc_BlockTime d * 6) <= 1800 \/ 600 <= cc_BlockTime d /\ swrap64 (cc_BlockTime d * 6) <= 3600 ->
    0 <= cc_Confirmations d <= Z.max 4 (900 / cc_BlockTime d) ->
    cc_CreateTxMethod d ∈ supportedCreateTxMethods -> Admit d = Ok tt) as Hpass.
  { intros d Hip Hport Hcoin Hpos Hlt Hconf Hm.
    unfold Admit, XMinLockTimeBlocks, XMakerLocktimeTargetSeconds, XTakerLocktimeTargetSeconds,
      XSlowTakerLocktimeTargetSeconds, XSlowBlockTimeSeconds, XMaxLockTimeDriftBlocks.
    change (Z.quot XLocktimeDriftSeconds) with (Z.quot 900).
    rewrite !(proj2 (Z.ltb_ge _ 0)) by lia. rewrite bool_decide_false by done.
    rewrite !(proj2 (Z.eqb_neq _ 0)) by lia. cbn [orb].
    rewrite (proj2 (Z.ltb_ge 7200 _)) by lia.
    assert ((cc_BlockTime d <? 600) && (1800 <? swrap64 (cc_BlockTime d * 6)) = false) as ->.
    { destruct (Z.ltb_spec (cc_BlockTime d) 600), (Z.ltb_spec 1800 (swrap64 (cc_BlockTime d * 6))); try done; lia. }
    assert ((600 <=? cc_BlockTime d) && (3600 <? swrap64 (cc_BlockTime d * 6)) = false) as ->.
    { rewrite (proj2 (Z.ltb_ge 3600 _)) by lia. apply andb_false_r. }
    rewrite max_confirmations by lia. rewrite (proj2 (Z.ltb_ge _ (cc_Confirmations d))) by lia.
    destruct (supported_not_refused _ Hm). 
    by rewrite (bool_decide_false (_ ∈ eth_methods)), (bool_decide_false (_ ∈ deferred_methods)), bool_decide_true. }
  split; [split; [done|]|].
  - intros (? & ? & ? & Hb & Hconf & ?). apply Hpass; try done; [lia|].
    rewrite swrap64_small by lia. lia.
  - intros H Hc4. apply Hfwd in H as (? & ? & ? & _ & Hconf & ?). apply Hpass; try done; cbn [with_block_time cc_BlockTime cc_Confirmations].
    + assert (swrap64 (2 ^ 62 * 6) <= 1800) by done. by left.
    + lia.
Qed.

Definition sample_coin_conf : CoinConf :=
  mkCoinConf (bytes_of "BTC") (bytes_of "Bitcoin") [] (bytes_of "127.0.0.1") 8332 [] [] (bytes_of "BTC")
    0 5 128 100000000 0 1 546 1000 600 20 1 false true true true [] [] [] false.

Lemma Admit_exact_witness :
  Admit sample_coin_conf = Ok tt /\ Admit (with_block_time (2 ^ 62) sample_coin_conf) = Ok tt.
Proof.
  assert (Admit sample_coin_conf = Ok tt) as H by (by vm_compute).
  split; [exact H|]. apply (proj2 (Admit_exact sample_coin_conf eq_refl)); [exact H|done].
Defined.
