(* ===== verification/Coin.v ===== *)
(** * coins/coin.go: the coin registry

    A [Coin] is built from one section of xbridge.conf; what a connector class
    hardwires in C++ is looked up by the transaction method.  The registry is a
    map published as a whole. *)

From S2P Require Import Prelude Digits GoLib Conf.

Inductive FamilyKind := FamilyUTXOBTC | FamilyUTXOBCH.
#[export] Instance FamilyKind_eq_dec : EqDecision FamilyKind.
Proof. solve_decision. Defined.

Inductive SignatureKind := SigLegacy | SigForkID.

Record Coin := mkCoin {
  Ticker : bytes;
  Name : bytes;
  Decimals : Z;
  P2PKH_version : byte;
  P2SH_version : byte;
  Bech32HRP : bytes;
  SegWit : bool;
  family : FamilyKind;
  CashAddrPrefix : bytes;
  signature : SignatureKind;
  forkValue : Z;
  TxWithTimeField : bool
}.

Definition normalizeTicker (t : bytes) : bytes := ascii_upper <$> t.

Definition is_method (m : bytes) (names : list string) : bool :=
  bool_decide (normalizeTicker m ∈ map bytes_of names).

Definition familyFromMethod (m : bytes) : FamilyKind :=
  if is_method m ["BCH"; "DEVAULT"] then FamilyUTXOBCH else FamilyUTXOBTC.

Definition cashAddrPrefixFromMethod (m : bytes) : bytes :=
  if is_method m ["BCH"] then bytes_of "bitcoincash"
  else if is_method m ["DEVAULT"] then bytes_of "devault"
  else [].

Definition signatureKindFromMethod (m : bytes) : SignatureKind :=
  if is_method m ["BCH"; "DEVAULT"; "BTG"] then SigForkID else SigLegacy.

Definition forkValueFromMethod (m : bytes) : Z :=
  if is_method m ["BCH"] then 16768685
  else if is_method m ["BTG"] then 79
  else 0.

(** [for coin > 0 && coin%10 == 0 { d++; coin /= 10 }] on a uint64: 20 turns of
    fuel are enough ([decimals_loop_pow]). *)
Fixpoint decimals_loop (fuel : nat) (coin d : Z) : Z :=
  match fuel with
  | O => d
  | S fuel =>
      if (0 <? coin) && (coin mod 10 =? 0) then decimals_loop fuel (coin / 10) (d + 1) else d
  end.

Definition decimalsFromCoin (coin : Z) : Z :=
  let d := decimals_loop 20 coin 0 in
  if d =? 0 then 8 else d.

Definition segWitFromMethod (m : bytes) : bool := is_method m ["BTC"; "LTC"; "DGB"; "BTG"].

Definition bech32HRPFromMethod (m : bytes) : bytes :=
  if is_method m ["BTC"] then bytes_of "bc"
  else if is_method m ["LTC"] then bytes_of "ltc"
  else if is_method m ["DGB"] then bytes_of "dgb"
  else if is_method m ["BTG"] then bytes_of "btg"
  else [].

Definition FromConf (c : CoinConf) : res Coin :=
  if cc_Coin c =? 0 then
    errf [bytes_of "coins: "; cc_Ticker c; bytes_of ": COIN not set in xbridge.conf"]
  else
    let m := cc_CreateTxMethod c in
    let cashAddr :=
      if bool_decide (cc_CashAddrPrefix c = []) then cashAddrPrefixFromMethod m
      else if bool_decide (m = bytes_of "DEVAULT" /\ cc_CashAddrPrefix c = bytes_of "bitcoincash")
      then bytes_of "devault"
      else cc_CashAddrPrefix c in
    Ok (mkCoin (cc_Ticker c) (cc_Title c) (decimalsFromCoin (cc_Coin c))
          (byte.of_Z (cc_AddressPrefix c)) (byte.of_Z (cc_ScriptPrefix c))
          (bech32HRPFromMethod m) (segWitFromMethod m) (familyFromMethod m) cashAddr
          (signatureKindFromMethod m) (forkValueFromMethod m) (cc_TxWithTimeField c)).

(** ** The registry *)

Abbreviation Registry := (gmap bytes Coin).

Fixpoint build_registry (confs : list (bytes * CoinConf)) (next : Registry) : res Registry :=
  match confs with
  | [] => Ok next
  | (ticker, c) :: confs =>
      coin ← FromConf c;
      build_registry confs (<[ticker := coin]> next)
  end.

(** The registry afterwards, and the error if there was one. *)
Definition InitFromConf (confs : gmap bytes CoinConf) (registry : Registry) : Registry * res unit :=
  match build_registry (map_to_list confs) ∅ with
  | Ok next => (next, Ok tt)
  | Err e => (registry, Err e)
  | Panic => (registry, Panic)
  end.

Definition Get (registry : Registry) (ticker : bytes) : option Coin :=
  registry !! normalizeTicker ticker.

Definition Has (registry : Registry) (ticker : bytes) : bool :=
  match registry !! normalizeTicker ticker with Some _ => true | None => false end.

(** ** Properties *)

Lemma ascii_upper_idem b : ascii_upper (ascii_upper b) = ascii_upper b.
Proof.
  unfold ascii_upper. destruct (is_lower b) eqn:E; [|by rewrite E].
  assert (is_lower (byte.of_Z (byte.unsigned b - 32)) = false) as ->; [|done].
  unfold is_lower in *. apply andb_true_iff in E as [H1 H2]. zbool.
  rewrite byte_of_Z_small by (unfold uint_ok; lia).
  by rewrite (proj2 (Z.leb_gt _ _)) by lia.
Qed.

Lemma normalizeTicker_idem t : normalizeTicker (normalizeTicker t) = normalizeTicker t.
Proof.
  unfold normalizeTicker. rewrite <- list_fmap_compose. apply list_fmap_ext.
  intros i x _. apply ascii_upper_idem.
Qed.

Lemma decimals_loop_pow k j d fuel :
  0 <= k -> 0 < j -> j mod 10 <> 0 -> k < Z.of_nat fuel ->
  decimals_loop fuel (j * 10 ^ k) d = d + k.
Proof.
  revert k d. induction fuel as [|fuel IH]; intros k d Hk Hj Hm Hf; [lia|].
  cbn [decimals_loop]. assert (0 < 10 ^ k) by (apply Z.pow_pos_nonneg; lia).
  rewrite (proj2 (Z.ltb_lt _ _)) by nia. cbn [andb].
  destruct (Z.eq_dec k 0) as [->|].
  - rewrite Z.mul_1_r, (proj2 (Z.eqb_neq _ _)) by done. lia.
  - replace (10 ^ k) with (10 * 10 ^ (k - 1)) by (rewrite <- Z.pow_succ_r by lia; f_equal; lia).
    replace (j * (10 * 10 ^ (k - 1))) with (j * 10 ^ (k - 1) * 10) by lia.
    rewrite Z.mod_mul, Z.div_mul by lia. cbn [Z.eqb]. rewrite IH by lia. lia.
Qed.

Lemma build_registry_spec confs next reg :
  NoDup confs.*1 -> build_registry confs next = Ok reg ->
  forall t, match (list_to_map confs : gmap bytes CoinConf) !! t with
            | Some c => exists coin, FromConf c = Ok coin /\ reg !! t = Some coin
            | None => reg !! t = next !! t
            end.
Proof.
  revert next. induction confs as [|[n c] confs IH]; intros next Hnd H t; [by simplify_eq/=|].
  rewrite fmap_cons in Hnd. apply NoDup_cons in Hnd as [Hni Hnd]. cbn [build_registry] in H.
  apply res_bind_ok in H as (coin & Hc & H). specialize (IH _ Hnd H t).
  rewrite list_to_map_cons. destruct (decide (n = t)) as [->|Hn].
  - rewrite lookup_insert_eq. exists coin. split; [done|].
    cbn [fst] in Hni. rewrite (not_elem_of_list_to_map_1 _ _ Hni) in IH.
    by rewrite lookup_insert_eq in IH.
  - rewrite lookup_insert_ne by done. rewrite lookup_insert_ne in IH by done. done.
Qed.

(** The registry follows the configuration: when it is rebuilt without
    error it holds exactly the coins of the configuration, each built from its
    own section, and a failed rebuild leaves it as it was; [Get] ignores the
    case of what it is asked for, so a coin registered under a name that is not
    upper case can be reached by no spelling at all. *)
Theorem registry_follows_conf (confs : gmap bytes CoinConf) (old reg : Registry) (r : res unit) :
  InitFromConf confs old = (reg, r) ->
  (r = Ok tt -> forall t,
     match confs !! t with
     | Some c => exists coin, FromConf c = Ok coin /\ reg !! t = Some coin
     | None => reg !! t = None
     end) /\
  (r <> Ok tt -> reg = old) /\
  (forall t coin, Get reg t = Some coin ->
     reg !! normalizeTicker t = Some coin /\ Get reg (normalizeTicker t) = Some coin) /\
  (forall k coin, reg !! k = Some coin ->
     ((exists t, Get reg t = Some coin /\ normalizeTicker t = k) <-> normalizeTicker k = k)).
Proof.
  intros H. unfold InitFromConf in H. split_and!.
  - intros ->. destruct (build_registry _ _) as [next|e|] eqn:E; simplify_eq. intros t.
    pose proof (build_registry_spec _ _ _ (NoDup_fst_map_to_list confs) E t) as Ht.
    by rewrite list_to_map_to_list in Ht.
  - intros Hr. destruct (build_registry _ _); by simplify_eq.
  - intros t coin Ht. split; [done|]. unfold Get. by rewrite normalizeTicker_idem.
  - intros k coin Hk. split.
    + intros (t & _ & <-). apply normalizeTicker_idem.
    + intros Hn. exists k. unfold Get. by rewrite Hn.
Qed.

Lemma registry_follows_conf_witness :
  exists reg coin,
    InitFromConf {[bytes_of "BTC" := sample_coin_conf]} ∅ = (reg, Ok tt) /\
    FromConf sample_coin_conf = Ok coin /\ reg !! bytes_of "BTC" = Some coin /\ Decimals coin = 8.
Proof.
  set (confs := {[bytes_of "BTC" := sample_coin_conf]} : gmap bytes CoinConf).
  assert (snd (InitFromConf confs ∅) = Ok tt) as Hr by by vm_compute.
  destruct (InitFromConf confs ∅) as [reg r] eqn:E. cbn [snd] in Hr. subst r.
  pose proof (proj1 (registry_follows_conf confs ∅ reg (Ok tt) E) eq_refl (bytes_of "BTC")) as H.
  assert (confs !! bytes_of "BTC" = Some sample_coin_conf) as Hs by by vm_compute.
  rewrite Hs in H. destruct H as (coin & Hc & Hl).
  exists reg, coin. split; [reflexivity|]. split; [exact Hc|]. split; [exact Hl|].
  assert ((Decimals <$> FromConf sample_coin_conf) = Ok 8) as Hd by by vm_compute.
  rewrite Hc in Hd. unfold fmap, res_fmap in Hd. by injection Hd.
Defined.

(** Decimals: a COIN that is 10^k, or any multiple of it that is not one of
    10^(k+1), gives k decimals for every k of 1 to 19; a COIN of 1, the power of
    ten of a coin without fractions, is taken for malformed and gives 8. *)
Theorem decimalsFromCoin_exact (j k : Z) :
  0 < j -> j mod 10 <> 0 -> 0 <= k <= 19 ->
  decimalsFromCoin (j * 10 ^ k) = if k =? 0 then 8 else k.
Proof.
  intros Hj Hm Hk. unfold decimalsFromCoin. rewrite decimals_loop_pow by lia.
  rewrite Z.add_0_l. by destruct (k =? 0).
Qed.

Lemma decimalsFromCoin_exact_witness :
  decimalsFromCoin 100000000 = 8 /\ decimalsFromCoin 1000000 = 6 /\ decimalsFromCoin 1 = 8.
Proof.
  split_and!;
    [exact (decimalsFromCoin_exact 1 8 eq_refl ltac:(done) ltac:(done))
    |exact (decimalsFromCoin_exact 1 6 eq_refl ltac:(done) ltac:(done))
    |exact (decimalsFromCoin_exact 1 0 eq_refl ltac:(done) ltac:(done))].
Defined.

(** A coin for the examples. *)
Definition sample_coin : Coin :=
  mkCoin (bytes_of "BTC") (bytes_of "Bitcoin") 8 x00 x05 (bytes_of "bc") true FamilyUTXOBTC []
    SigLegacy 0 false.
