(* ===== verification/Amount.v ===== *)
(** * coins/amount.go: decimal amounts

    [ParseAmount] and the two printers over unbounded integers, with the uint64
    range check at the end, as the code does with [big.Int]. *)

From S2P Require Import Prelude Digits GoLib Conf Coin.

(** [new(big.Int).Exp(10, n, nil)]: 1 when [n] is negative. *)
Definition Exp10 (n : Z) : Z := if n <? 0 then 1 else 10 ^ n.

Definition ParseAmount (c : Coin) (s : bytes) : res Z :=
  let s := TrimSpace s in
  if bool_decide (s = []) then Err "coins: empty amount"
  else
    let '(neg, s) := match s with x2d :: s' => (true, s') | _ => (false, s) end in
    let '(intPart, fracPart) :=
      match IndexByte s x2e with
      | Some dot => (take dot s, drop (S dot) s)
      | None => (s, [])
      end in
    if negb (bool_decide (fracPart = [])) && bool_decide (is_Some (IndexByte fracPart x2e)) then
      Err "coins: multiple decimal points"
    else if Decimals c <? zlen fracPart then Err "coins: too many decimal places"
    else
      let scale := Exp10 (Decimals c) in
      let intVal := SetString10 intPart in
      if negb (bool_decide (is_Some intVal)) && negb (bool_decide (intPart = [])) then
        Err "coins: invalid integer part"
      else
        let intVal := if bool_decide (intPart = []) then 0 else default 0 intVal in
        let total := intVal * scale in
        total ←
          (if bool_decide (fracPart = []) then Ok total
           else
             match SetString10 fracPart with
             | None => Err "coins: invalid fractional part"
             | Some fracVal =>
                 let fracScale := Exp10 (Decimals c - zlen fracPart) in
                 Ok (total + fracVal * fracScale)
             end);
        let total := if neg then - total else total in
        if (0 <=? total) && (total <? 2 ^ 64) then Ok total
        else Err "coins: amount overflows uint64".

(** [for len(frac) < c.Decimals { frac = "0" + frac }] *)
Definition pad_zeros (decimals : Z) (frac : bytes) : bytes :=
  repeat x30 (Z.to_nat (decimals - zlen frac)) ++ frac.

(** [strings.TrimRight(frac, "0")] *)
Fixpoint drop_zeros (s : bytes) : bytes :=
  match s with x30 :: s' => drop_zeros s' | _ => s end.
Definition TrimRightZeros (s : bytes) : bytes := rev (drop_zeros (rev s)).

Definition FormatAmount (c : Coin) (v : Z) : bytes :=
  let scale := Exp10 (Decimals c) in
  let q := v / scale in
  let r := v mod scale in
  if r =? 0 then dec_string q
  else dec_string q ++ [x2e] ++ TrimRightZeros (pad_zeros (Decimals c) (dec_string r)).

Definition FormatAmountFixed (c : Coin) (v : Z) : bytes :=
  let scale := Exp10 (Decimals c) in
  dec_string (v / scale) ++ [x2e] ++ pad_zeros (Decimals c) (dec_string (v mod scale)).

(** ** Plain numbers *)

Lemma digit_not_space b : is_digit b = true ->
  Forall (fun r => match r with [] => False | y :: _ => y <> b end) space_runes /\
  Forall (fun r => match r with [] => False | y :: _ => y <> b end) (map (@rev byte) space_runes).
Proof.
  intros H. unfold is_digit in H. zbool.
  assert (forall y, (byte.unsigned y < 48 \/ 57 < byte.unsigned y) -> y <> b) as Hy
    by (intros y Hy ->; lia).
  split; (apply Forall_forall; intros r Hr; apply list_elem_of_In in Hr; cbn in Hr);
    repeat (destruct Hr as [<-|Hr]; [apply Hy; cbn; lia|]); done.
Qed.

Lemma dot_not_space :
  Forall (fun r => match r with [] => False | y :: _ => y <> x2e end) (map (@rev byte) space_runes) /\
  Forall (fun r => match r with [] => False | y :: _ => y <> x2e end) space_runes.
Proof. split; repeat constructor; done. Qed.

(** The characters of an unsigned decimal. *)
Definition num_char (b : byte) : bool := is_digit b || bool_decide (b = x2e).

Lemma TrimSpace_num s : forallb num_char s = true -> TrimSpace s = s.
Proof.
  intros H. destruct s as [|x s]; [done|]. apply TrimSpace_id.
  - apply space_prefix_ascii. cbn in H. apply andb_true_iff in H as [Hx _].
    unfold num_char in Hx. apply orb_true_iff in Hx as [Hx|Hx]; [by apply digit_not_space|].
    apply bool_decide_eq_true in Hx as ->. apply dot_not_space.
  - assert (forallb num_char (rev (x :: s)) = true) as Hr.
    { rewrite forallb_forall in H |- *. intros y Hy. apply H. by apply in_rev. }
    destruct (rev (x :: s)) as [|y t] eqn:E; [by apply (f_equal (@length byte)) in E; rewrite length_rev in E|].
    apply space_prefix_ascii. cbn in Hr. apply andb_true_iff in Hr as [Hx _].
    unfold num_char in Hx. apply orb_true_iff in Hx as [Hx|Hx]; [by apply digit_not_space|].
    apply bool_decide_eq_true in Hx as ->. apply dot_not_space.
Qed.

Lemma digits_num s : forallb is_digit s = true -> forallb num_char s = true.
Proof.
  rewrite !forallb_forall. intros H x Hx. unfold num_char. by rewrite H.
Qed.

Lemma dot_not_digits s : forallb is_digit s = true -> x2e ∉ s.
Proof.
  intros H. rewrite forallb_forall in H. intros Hin. apply list_elem_of_In in Hin. by apply H in Hin.
Qed.

Lemma digits_no_sign {A} (a b : A) s :
  forallb num_char s = true -> match s with x2d :: _ => a | _ => b end = b.
Proof. destruct s as [|x s]; [done|]. cbn. intros H. by destruct x. Qed.

(** What the number written [ip.fp] is worth, in base units. *)
Definition amount_value (c : Coin) (ip fp : bytes) : Z :=
  dec_value ip * 10 ^ Decimals c + dec_value fp * 10 ^ (Decimals c - zlen fp).

Definition in_uint64 (v : Z) : res Z :=
  if v <? 2 ^ 64 then Ok v else Err "coins: amount overflows uint64".

Lemma SetString10_digits_opt s :
  forallb is_digit s = true -> s <> [] -> SetString10 s = Some (dec_value s).
Proof. intros. apply SetString10_digits. by apply all_digits_true. Qed.

(** The two shapes of a plain number: without and with a decimal point. *)
Lemma parse_int c ip :
  0 <= Decimals c -> forallb is_digit ip = true -> ip <> [] ->
  ParseAmount c ip = in_uint64 (dec_value ip * 10 ^ Decimals c).
Proof.
  intros HD Hi Hne. pose proof (digits_num _ Hi) as Hn. unfold ParseAmount.
  rewrite TrimSpace_num, bool_decide_false by done.
  assert (match ip with x2d :: s' => (true, s') | _ => (false, ip) end = (false, ip)) as ->
    by (destruct ip as [|x ip']; [done|]; clear -Hn; cbn in Hn; by destruct x).
  assert (IndexByte ip x2e = None) as -> by by apply IndexByte_None, dot_not_digits.
  cbn [zlen length]. change (Z.of_nat 0) with 0. rewrite (bool_decide_true ([] = [])) by done. cbn [negb andb].
  change (zlen (@nil byte)) with 0. rewrite (proj2 (Z.ltb_ge (Decimals c) 0)) by lia.
  rewrite SetString10_digits_opt by done. rewrite (bool_decide_true (is_Some _)) by eauto. cbn [negb andb].
  rewrite bool_decide_false by done. cbn [mbind res_bind default].
  unfold id, Exp10. rewrite (proj2 (Z.ltb_ge (Decimals c) 0)) by lia.
  pose proof (dec_value_bound ip Hi). pose proof (Z.pow_nonneg 10 (Decimals c) ltac:(lia)).
  rewrite (proj2 (Z.leb_le 0 (dec_value ip * 10 ^ Decimals c))) by nia. done.
Qed.

Lemma parse_frac c ip fp :
  0 <= Decimals c -> forallb is_digit ip = true -> forallb is_digit fp = true -> fp <> [] ->
  ParseAmount c (ip ++ [x2e] ++ fp) =
  if Decimals c <? zlen fp then Err "coins: too many decimal places"
  else in_uint64 (amount_value c ip fp).
Proof.
  intros HD Hi Hf Hne. unfold ParseAmount.
  assert (forallb num_char (ip ++ [x2e] ++ fp) = true) as Hn.
  { rewrite !forallb_app. by rewrite (digits_num ip), (digits_num fp). }
  rewrite TrimSpace_num, bool_decide_false by (done || by destruct ip).
  assert (match ip ++ [x2e] ++ fp with x2d :: s' => (true, s') | _ => (false, ip ++ [x2e] ++ fp) end =
    (false, ip ++ [x2e] ++ fp)) as ->
    by (destruct (ip ++ [x2e] ++ fp) as [|x s]; [done|]; clear -Hn; cbn in Hn; by destruct x).
  assert (IndexByte (ip ++ [x2e] ++ fp) x2e = Some (length ip)) as ->
    by (apply IndexByte_app; by apply dot_not_digits).
  rewrite take_app_length. change (ip ++ [x2e] ++ fp) with (ip ++ x2e :: fp).
  rewrite cons_middle, app_assoc, (drop_app_len (ip ++ [x2e]) fp) by (rewrite length_app; cbn; lia).
  rewrite (bool_decide_false (fp = [])) by done. cbn [negb andb].
  assert (IndexByte fp x2e = None) as -> by by apply IndexByte_None, dot_not_digits.
  rewrite (bool_decide_false (is_Some None)) by (by intros [? ?]).
  destruct (Z.ltb_spec (Decimals c) (zlen fp)); [done|].
  assert ((negb (bool_decide (is_Some (SetString10 ip))) && negb (bool_decide (ip = []))) = false /\
    (if bool_decide (ip = []) then 0 else default 0 (SetString10 ip)) = dec_value ip) as [-> ->].
  { destruct (decide (ip = [])) as [->|Hip]; [done|].
    rewrite SetString10_digits_opt by done. rewrite (bool_decide_true (is_Some _)) by eauto.
    by rewrite (bool_decide_false (ip = [])). }
  rewrite SetString10_digits_opt by done. cbn [mbind res_bind].
  unfold Exp10. rewrite !(proj2 (Z.ltb_ge _ 0)) by lia. fold (amount_value c ip fp).
  assert (0 <= amount_value c ip fp) as Hnn.
  { unfold amount_value. pose proof (dec_value_bound ip Hi). pose proof (dec_value_bound fp Hf).
    pose proof (Z.pow_nonneg 10 (Decimals c) ltac:(lia)).
    pose proof (Z.pow_nonneg 10 (Decimals c - zlen fp) ltac:(lia)). nia. }
  rewrite (proj2 (Z.leb_le 0 (amount_value c ip fp))) by lia. done.
Qed.

(** Parsing computes the written value: for plain digits with an optional
    fraction, [ParseAmount] returns integer and fraction scaled to base units
    exactly, and refuses, rather than rounds or wraps, a fraction that is too
    long and a value of 2^64 or more. *)
Theorem ParseAmount_exact (c : Coin) (ip fp : bytes) :
  0 <= Decimals c -> forallb is_digit ip = true -> forallb is_digit fp = true -> ip <> [] -> fp <> [] ->
  ParseAmount c ip = in_uint64 (dec_value ip * 10 ^ Decimals c) /\
  ParseAmount c (ip ++ [x2e] ++ fp) =
    (if Decimals c <? zlen fp then Err "coins: too many decimal places"
     else in_uint64 (amount_value c ip fp)).
Proof. intros. split; [by apply parse_int|by apply parse_frac]. Qed.

Lemma ParseAmount_exact_witness :
  ParseAmount sample_coin (bytes_of "1" ++ [x2e] ++ bytes_of "05") = Ok 105000000.
Proof.
  refine (eq_trans (proj2 (ParseAmount_exact sample_coin (bytes_of "1") (bytes_of "05") _ _ _ _ _)) _);
    done.
Defined.

(** ** Printing *)

Lemma zeros_digits k : digit_val <$> repeat x30 k = replicate k 0.
Proof. induction k as [|k IH]; [done|]. cbn [repeat replicate]. by rewrite fmap_cons, IH. Qed.

Lemma pad_zeros_value d s : forallb is_digit s = true ->
  dec_value (pad_zeros d s) = dec_value s /\ forallb is_digit (pad_zeros d s) = true.
Proof.
  intros H. unfold pad_zeros. split.
  - unfold dec_value. rewrite fmap_app.
    rewrite zeros_digits. apply of_digits_zeros.
  - rewrite forallb_app, H, andb_true_r. by induction (Z.to_nat (d - zlen s)).
Qed.

Lemma pad_zeros_length d s : zlen s <= d -> zlen (pad_zeros d s) = d.
Proof. intros. unfold pad_zeros. rewrite zlen_app. unfold zlen in *. rewrite repeat_length. lia. Qed.

Lemma drop_zeros_split s : exists k, s = repeat x30 k ++ drop_zeros s.
Proof.
  induction s as [|x s (k & IH)]; [by exists O|]. destruct (byte_eq_dec x x30) as [->|Hx].
  - exists (S k). cbn. by f_equal.
  - exists O. cbn. by destruct x.
Qed.

Lemma TrimRightZeros_split s : exists k, s = TrimRightZeros s ++ repeat x30 k.
Proof.
  destruct (drop_zeros_split (rev s)) as (k & Hk). exists k. unfold TrimRightZeros.
  apply (f_equal (@rev byte)) in Hk. rewrite rev_involutive, rev_app_distr in Hk.
  rewrite Hk at 1. f_equal. clear. induction k as [|k IH]; [done|]. cbn. rewrite IH.
  clear. induction k as [|k IH]; [done|]. cbn. by rewrite IH.
Qed.

(** Trailing zeros change the digits and the scale together. *)
Lemma trailing_zeros s k D :
  zlen (s ++ repeat x30 k) <= D ->
  dec_value (s ++ repeat x30 k) * 10 ^ (D - zlen (s ++ repeat x30 k)) = dec_value s * 10 ^ (D - zlen s).
Proof.
  intros HD. rewrite dec_value_app. rewrite zlen_app in *.
  assert (dec_value (repeat x30 k) = 0) as ->.
  { unfold dec_value. rewrite zeros_digits. rewrite <- (app_nil_r (replicate k 0)). by rewrite of_digits_zeros. }
  pose proof (zlen_nonneg (repeat x30 k)).
  replace (D - zlen s) with (zlen (repeat x30 k) + (D - (zlen s + zlen (repeat x30 k)))) by lia.
  rewrite Z.pow_add_r by lia. lia.
Qed.

(** Amounts survive printing: every uint64 number of base units is what
    parsing its printed form gives back, in the short form and, for a coin with
    fractions, in the fixed form. *)
Theorem Amount_roundtrip (c : Coin) (v : Z) :
  0 <= Decimals c -> u64_ok v ->
  ParseAmount c (FormatAmount c v) = Ok v /\
  (0 < Decimals c -> ParseAmount c (FormatAmountFixed c v) = Ok v).
Proof.
  intros HD Hv. unfold uint_ok in Hv.
  assert (0 < 10 ^ Decimals c) as Hs by (apply Z.pow_pos_nonneg; lia).
  set (q := v / 10 ^ Decimals c). set (r := v mod 10 ^ Decimals c).
  assert (0 <= q) as Hq by (apply Z.div_pos; lia).
  assert (0 <= r < 10 ^ Decimals c) as Hr by (apply Z.mod_pos_bound; lia).
  assert (v = q * 10 ^ Decimals c + r) as Hqr by (unfold q, r; rewrite Z.mul_comm; apply Z.div_mod; lia).
  assert (in_uint64 v = Ok v) as Hok by (unfold in_uint64; by rewrite (proj2 (Z.ltb_lt _ _)) by lia).
  pose proof (dec_string_digits q Hq) as Hdq. apply all_digits_true in Hdq as [Hdq Hneq].
  pose proof (dec_string_digits r ltac:(lia)) as Hdr. apply all_digits_true in Hdr as [Hdr Hner].
  set (fr := pad_zeros (Decimals c) (dec_string r)).
  destruct (pad_zeros_value (Decimals c) (dec_string r) Hdr) as [Hfv Hfd]. fold fr in Hfv, Hfd.
  rewrite dec_value_string in Hfv by lia.
  assert (0 < Decimals c -> zlen fr = Decimals c) as Hfl.
  { intros. apply pad_zeros_length.
    pose proof (dec_string_length r (Z.to_nat (Decimals c)) ltac:(lia)) as Hl.
    rewrite Z2Nat.id in Hl by lia. specialize (Hl Hr). unfold zlen. lia. }
  assert (forall fp, fp <> [] -> forallb is_digit fp = true -> zlen fp <= Decimals c ->
    dec_value fp * 10 ^ (Decimals c - zlen fp) = r ->
    ParseAmount c (dec_string q ++ [x2e] ++ fp) = Ok v) as Hparse.
  { intros fp Hne Hd Hl Hval. rewrite parse_frac by done. rewrite (proj2 (Z.ltb_ge _ _)) by lia.
    unfold amount_value. by rewrite dec_value_string, Hval, <- Hqr. }
  unfold FormatAmount, FormatAmountFixed, Exp10. rewrite (proj2 (Z.ltb_ge (Decimals c) 0)) by lia.
  fold q r fr. split.
  - destruct (Z.eqb_spec r 0) as [E|Hne].
    + rewrite parse_int by done. rewrite dec_value_string by done. rewrite <- Hok. f_equal. lia.
    + assert (0 < Decimals c) as HD0.
      { destruct (Z.eq_dec (Decimals c) 0) as [E|]; [|lia]. rewrite E in Hr. change (10 ^ 0) with 1 in Hr. lia. }
      specialize (Hfl HD0). destruct (TrimRightZeros_split fr) as (k & Hk).
      assert (dec_value (TrimRightZeros fr) * 10 ^ (Decimals c - zlen (TrimRightZeros fr)) = r) as Hval.
      { rewrite <- (trailing_zeros _ k) by (rewrite <- Hk; lia).
        rewrite <- Hk, Hfv, Hfl, Z.sub_diag. lia. }
      apply Hparse; [..|done].
      * intros E. rewrite E in Hval. change (dec_value []) with 0 in Hval. lia.
      * rewrite Hk, forallb_app in Hfd. by apply andb_true_iff in Hfd as [? _].
      * rewrite <- Hfl. rewrite Hk at 2. rewrite zlen_app. pose proof (zlen_nonneg (repeat x30 k)). lia.
  - intros HD0. specialize (Hfl HD0). apply Hparse; [|done|lia|].
    + intros E. rewrite E in Hfl. change (zlen (@nil byte)) with 0 in Hfl. lia.
    + rewrite Hfv, Hfl, Z.sub_diag. lia.
Qed.

Lemma Amount_roundtrip_witness :
  FormatAmount sample_coin 105000000 = bytes_of "1.05" /\
  ParseAmount sample_coin (FormatAmountFixed sample_coin 105000000) = Ok 105000000.
Proof.
  split; [by vm_compute|]. by apply (proj2 (Amount_roundtrip sample_coin 105000000 ltac:(done) ltac:(done))).
Defined.

(** Signs inside an amount are accepted: for every coin of two or more
    decimals, two leading minus signs cancel, a signed fraction is added to or
    taken from the integer part, and a lone minus sign or point is zero. *)
Theorem ParseAmount_accepts_signs (c : Coin) :
  2 <= Decimals c <= 18 ->
  ParseAmount c (bytes_of "--5") = Ok (5 * 10 ^ Decimals c) /\
  ParseAmount c (bytes_of "1.-5") = Ok (10 ^ Decimals c - 5 * 10 ^ (Decimals c - 2)) /\
  ParseAmount c (bytes_of "1.+5") = Ok (10 ^ Decimals c + 5 * 10 ^ (Decimals c - 2)) /\
  ParseAmount c (bytes_of "-") = Ok 0 /\ ParseAmount c (bytes_of ".") = Ok 0.
Proof.
  intros HD.
  assert (Forall (fun d => forall c, Decimals c = d ->
    ParseAmount c (bytes_of "--5") = Ok (5 * 10 ^ d) /\
    ParseAmount c (bytes_of "1.-5") = Ok (10 ^ d - 5 * 10 ^ (d - 2)) /\
    ParseAmount c (bytes_of "1.+5") = Ok (10 ^ d + 5 * 10 ^ (d - 2)) /\
    ParseAmount c (bytes_of "-") = Ok 0 /\ ParseAmount c (bytes_of ".") = Ok 0)
    [2; 3; 4; 5; 6; 7; 8; 9; 10; 11; 12; 13; 14; 15; 16; 17; 18]) as Hall.
  { repeat (apply Forall_cons_2; [intros c' Hc; unfold ParseAmount; rewrite Hc; by vm_compute|]).
    apply Forall_nil_2. }
  rewrite Forall_forall in Hall. apply Hall; [|done].
  apply list_elem_of_In. cbn. lia.
Qed.

Lemma ParseAmount_accepts_signs_witness :
  ParseAmount sample_coin (bytes_of "--5") = Ok 500000000.
Proof. exact (proj1 (ParseAmount_accepts_signs sample_coin ltac:(done))). Defined.
