(* ===== verification/Base58.v ===== *)
(** * coins/base58.go and coins/base58check.go

    Base58 is a change of base between [SetBytes]/[Bytes] and base 58, with one
    ['1'] per leading zero byte; base58check adds a version byte and the first
    four bytes of the double SHA-256. *)

From S2P Require Import Prelude Sha256 Codec Bodies Packet Wire Digits GoLib.

Definition b58Alphabet : bytes :=
  bytes_of "123456789ABCDEFGHJKLMNPQRSTUVWXYZabcdefghijkmnopqrstuvwxyz".

Definition maxBase58Len : Z := 128.

(** [b58Idx[c]]; [None] is -1. *)
Definition b58Idx (c : byte) : option Z := Z.of_nat <$> IndexByte b58Alphabet c.

Definition b58Char (d : Z) : byte := default x00 (b58Alphabet !! Z.to_nat d).

(** [x = x*58 + idx], character by character. *)
Fixpoint b58_value (s : bytes) (x : Z) : res Z :=
  match s with
  | [] => Ok x
  | c :: s =>
      match b58Idx c with
      | None => Err "coins: invalid base58 character"
      | Some d => b58_value s (x * 58 + d)
      end
  end.

(** How many times [a] leads [s]. *)
Fixpoint leading (a : byte) (s : bytes) : nat :=
  match s with
  | [] => O
  | x :: s => if byte_eq_dec x a then S (leading a s) else O
  end.

Definition base58Decode (s : bytes) : res bytes :=
  if maxBase58Len <? zlen s then Err "coins: base58 string too long"
  else
    x ← b58_value s 0;
    Ok (repeat x00 (leading x31 s) ++ Bytes x).

Definition base58Encode (b : bytes) : bytes :=
  let x := SetBytes b in
  let out := b58Char <$> le_digits (digits_fuel x) 58 x in
  rev (out ++ repeat x31 (leading x00 b)).

Definition checksum (b : bytes) : bytes := take 4 (Sum256 (Sum256 b)).

Definition base58CheckEncode (prefix : byte) (payload : bytes) : bytes :=
  let body := prefix :: payload in
  base58Encode (body ++ checksum body).

(** The decoder after base58: split, and compare the checksum. *)
Definition check_bytes (raw : bytes) : res (byte * bytes) :=
  if zlen raw <? 5 then Err "coins: base58check string too short"
  else
    prefix ← index raw 0;
    payload ← slice raw 1 (zlen raw - 4);
    body ← slice raw 0 (zlen raw - 4);
    got ← slice raw (zlen raw - 4) (zlen raw);
    if negb (bool_decide (checksum body = got)) then
      Err "coins: base58check checksum mismatch"
    else Ok (prefix, payload).

Definition base58CheckDecode (s : bytes) : res (byte * bytes) :=
  raw ← base58Decode s;
  check_bytes raw.

(** ** The alphabet *)

Lemma b58_char_idx d : 0 <= d < 58 -> b58Idx (b58Char d) = Some d.
Proof.
  intros Hd. assert (Forall (fun d => b58Idx (b58Char d) = Some d) (Z.of_nat <$> seq 0 58)) as H.
  { apply (bool_decide_unpack (Forall _ _)). by vm_compute. }
  rewrite Forall_forall in H. apply H. apply list_elem_of_fmap. exists (Z.to_nat d).
  split; [lia|]. apply elem_of_seq. lia.
Qed.

Lemma b58_idx_char c d : b58Idx c = Some d -> 0 <= d < 58 /\ b58Char d = c.
Proof.
  unfold b58Idx, b58Char. intros H. apply fmap_Some in H as (n & H & ->).
  apply IndexByte_Some in H as (a & b & E & _ & ->). rewrite Nat2Z.id, E.
  rewrite list_lookup_middle by done. split; [|done].
  apply (f_equal length) in E. rewrite length_app in E. cbn [length] in E.
  change (length b58Alphabet) with 58%nat in E. lia.
Qed.

Lemma b58_one d : 0 <= d < 58 -> (b58Char d = x31 <-> d = 0).
Proof.
  intros Hd. split; [|by intros ->]. intros H. apply (f_equal b58Idx) in H.
  rewrite b58_char_idx in H by done. vm_compute in H. congruence.
Qed.

Lemma b58_value_chars l x :
  digits_ok 58 l -> b58_value (b58Char <$> l) x = Ok (fold_left (fun a d => a * 58 + d) l x).
Proof.
  intros Hl. revert x. induction Hl as [|d l Hd _ IH]; intros x; [done|].
  rewrite fmap_cons. cbn [b58_value fold_left]. by rewrite b58_char_idx.
Qed.

Lemma b58_value_inv s x y :
  b58_value s x = Ok y -> exists l, digits_ok 58 l /\ s = b58Char <$> l /\
    y = fold_left (fun a d => a * 58 + d) l x.
Proof.
  revert x. induction s as [|c s IH]; intros x H; [exists []; cbn in *; simplify_eq; by split_and!; [constructor|..]|].
  cbn [b58_value] in H. destruct (b58Idx c) as [d|] eqn:E; [|done].
  apply b58_idx_char in E as [Hd <-]. destruct (IH _ H) as (l & Hl & -> & ->).
  exists (d :: l). split_and!; [by constructor|done|done].
Qed.

(** ** Leading symbols *)

Lemma leading_split a s :
  s = repeat a (leading a s) ++ drop (leading a s) s /\ head (drop (leading a s) s) <> Some a.
Proof.
  induction s as [|x s [IH1 IH2]]; [done|]. cbn [leading].
  destruct (byte_eq_dec x a) as [->|Hx]; cbn [repeat drop app].
  - split; [by f_equal|done].
  - split; [done|]. cbn. congruence.
Qed.

Lemma leading_repeat a k s : head s <> Some a -> leading a (repeat a k ++ s) = k.
Proof.
  intros Hs. induction k as [|k IH]; cbn [repeat app leading].
  - destruct s as [|x s]; [done|]. cbn in *. destruct (byte_eq_dec x a); [congruence|done].
  - destruct (byte_eq_dec a a); [by rewrite IH|done].
Qed.

Lemma SetBytes_zeros k b : SetBytes (repeat x00 k ++ b) = SetBytes b.
Proof.
  unfold SetBytes. rewrite fmap_app.
  assert (byte.unsigned <$> repeat x00 k = replicate k 0) as ->; [|apply of_digits_zeros].
  induction k as [|k IH]; [done|]. cbn [repeat replicate]. by rewrite fmap_cons, IH.
Qed.

Lemma Bytes_head x : 0 <= x -> head (Bytes x) <> Some x00.
Proof.
  intros Hx. unfold Bytes. pose proof (to_digits_head 256 ltac:(lia) x Hx) as Hh.
  pose proof (to_digits_ok 256 ltac:(lia) x) as Hok.
  destruct (to_digits 256 x) as [|d l]; [done|]. cbn in *. apply Forall_cons in Hok as [Hd _].
  intros [= H]. apply Hh. f_equal. apply (f_equal byte.unsigned) in H.
  by rewrite byte_of_Z_small in H.
Qed.

(** The encoder's output, most significant first. *)
Lemma base58Encode_eq b :
  base58Encode b = repeat x31 (leading x00 b) ++ (b58Char <$> to_digits 58 (SetBytes b)).
Proof.
  unfold base58Encode, to_digits. rewrite rev_app_distr. f_equal.
  - generalize (leading x00 b). intros k.
    assert (rev (repeat x31 k) = repeat x31 k) as ->; [|done].
    induction k as [|k IH]; [done|]. cbn. rewrite IH. clear IH.
    induction k as [|k IH]; [done|]. cbn. by rewrite IH.
  - symmetry. apply map_rev.
Qed.

Lemma ones_digits k l : repeat x31 k ++ (b58Char <$> l) = b58Char <$> (replicate k 0 ++ l).
Proof.
  rewrite fmap_app. f_equal. induction k as [|k IH]; [done|]. cbn [repeat replicate].
  by rewrite fmap_cons, IH.
Qed.

Lemma base58_decode_encode b :
  zlen (base58Encode b) <= 128 -> base58Decode (base58Encode b) = Ok b.
Proof.
  intros Hl. unfold base58Decode, maxBase58Len. rewrite (proj2 (Z.ltb_ge _ _)) by lia.
  rewrite base58Encode_eq. set (k := leading x00 b). set (l := to_digits 58 (SetBytes b)).
  pose proof (SetBytes_nonneg b) as Hnn.
  assert (digits_ok 58 l) as Hok by (apply to_digits_ok; lia).
  assert (head (b58Char <$> l) <> Some x31) as Hh.
  { pose proof (to_digits_head 58 ltac:(lia) (SetBytes b) Hnn) as H. fold l in H.
    destruct l as [|d l']; [done|]. cbn in *. apply Forall_cons in Hok as [Hd _].
    intros [= E]. apply b58_one in E; [by subst|done]. }
  rewrite leading_repeat by done. rewrite ones_digits, b58_value_chars.
  - cbn [mbind res_bind]. fold (of_digits 58 (replicate k 0 ++ l)). rewrite of_digits_zeros.
    unfold l. rewrite of_to_digits by lia. f_equal.
    destruct (leading_split x00 b) as [Hb Hd]. fold k in Hb, Hd.
    assert (Bytes (SetBytes b) = drop k b) as ->; [|done].
    rewrite Hb at 1. rewrite SetBytes_zeros. by apply Bytes_SetBytes.
  - apply Forall_app. split; [|done]. apply Forall_replicate. lia.
Qed.

Lemma base58_encode_decode s b :
  base58Decode s = Ok b -> s = base58Encode b /\ zlen s <= 128.
Proof.
  unfold base58Decode, maxBase58Len. intros H. destruct (Z.ltb_spec 128 (zlen s)); [done|].
  apply res_bind_ok in H as (x & Hx & H). simplify_eq. split; [|done].
  destruct (leading_split x31 s) as [Hs Hd]. set (k := leading x31 s) in *. set (s' := drop k s) in *.
  assert (b58_value s' 0 = Ok x) as Hx'.
  { rewrite <- Hx, Hs. generalize s'. clear. intros s'. induction k as [|k IH]; [done|]. cbn [repeat app b58_value].
    change (b58Idx x31) with (Some 0). exact IH. }
  apply b58_value_inv in Hx' as (l & Hl & E & ->). fold (of_digits 58 l).
  assert (head l <> Some 0) as Hh.
  { rewrite E in Hd. destruct l as [|d l]; [done|]. cbn in *. intros [= ->]. by apply Hd. }
  destruct (of_digits_bound 58 ltac:(lia) l Hl) as [Hnn _].
  rewrite base58Encode_eq, leading_repeat, SetBytes_zeros, SetBytes_Bytes, to_of_digits
    by (done || lia || by apply Bytes_head).
  by rewrite <- E.
Qed.

Lemma checksum_length b : zlen (checksum b) = 4.
Proof. unfold checksum, zlen. rewrite length_take, Sum256_length. done. Qed.

Lemma slice_pre {A} (a b : list A) n : zlen a = n -> slice (a ++ b) 0 n = Ok a.
Proof.
  intros <-. rewrite slice_in_range by (rewrite ?zlen_app; pose proof (zlen_nonneg a); pose proof (zlen_nonneg b); lia).
  f_equal. change (drop (Z.to_nat 0) (a ++ b)) with (a ++ b). apply take_drop_app_len. unfold zlen; lia.
Qed.

Lemma slice_post {A} (a b : list A) n : zlen a = n -> slice (a ++ b) n (zlen (a ++ b)) = Ok b.
Proof.
  intros <-. pose proof (zlen_nonneg a). pose proof (zlen_nonneg b).
  rewrite slice_in_range by (rewrite ?zlen_app; lia).
  f_equal. rewrite (drop_app_len a) by (unfold zlen; lia). apply take_ge.
  rewrite zlen_app. unfold zlen. lia.
Qed.

Lemma check_bytes_split p pl cs :
  zlen cs = 4 ->
  check_bytes ((p :: pl) ++ cs) =
  if bool_decide (checksum (p :: pl) = cs) then Ok (p, pl)
  else Err "coins: base58check checksum mismatch".
Proof.
  intros Hc. unfold check_bytes. pose proof (zlen_nonneg pl).
  assert (zlen ((p :: pl) ++ cs) - 4 = zlen (p :: pl)) as E by (rewrite zlen_app; lia).
  rewrite (proj2 (Z.ltb_ge _ _)) by (rewrite zlen_app, zlen_cons; lia).
  rewrite E. change (index ((p :: pl) ++ cs) 0) with (index (p :: pl ++ cs) 0).
  assert (index (p :: pl ++ cs) 0 = Ok p) as ->.
  { unfold index. rewrite zlen_cons. pose proof (zlen_nonneg (pl ++ cs)).
    by rewrite (proj2 (Z.ltb_lt _ _)) by lia. }
  cbn [mbind res_bind]. rewrite slice_pre, slice_post by done.
  rewrite slice_in_range by (rewrite ?zlen_app, ?zlen_cons; lia). cbn [mbind res_bind].
  assert (take (Z.to_nat (zlen (p :: pl) - 1)) (drop (Z.to_nat 1) ((p :: pl) ++ cs)) = pl) as ->.
  { change (drop (Z.to_nat 1) ((p :: pl) ++ cs)) with (pl ++ cs). apply take_drop_app_len.
    rewrite zlen_cons. unfold zlen. lia. }
  by case_bool_decide.
Qed.

Lemma base58CheckDecode_bytes s : base58CheckDecode s = base58Decode s ≫= check_bytes.
Proof. done. Qed.

(** Base58check, exactly: a string of at most 128 characters decodes to a
    version byte and a payload if and only if it is the string the encoder
    gives for them, so an address has one spelling; and plain base58 decoding
    inverts encoding in both directions within that length. *)
Theorem base58check_exact (s : bytes) (prefix : byte) (payload b : bytes) :
  zlen s <= 128 ->
  (base58CheckDecode s = Ok (prefix, payload) <-> s = base58CheckEncode prefix payload) /\
  (base58Decode s = Ok b <-> s = base58Encode b).
Proof.
  intros Hs. split; split.
  - rewrite base58CheckDecode_bytes. intros H. apply res_bind_ok in H as (raw & Hr & H).
    apply base58_encode_decode in Hr as [-> _]. unfold base58CheckEncode. f_equal.
    destruct (Z.le_gt_cases 5 (zlen raw)) as [Hlen|Hlen];
      [|unfold check_bytes in H; by rewrite (proj2 (Z.ltb_lt _ _)) in H by lia].
    destruct (zlen_split raw (zlen raw - 4)) as (body & cs & E & Hb); [lia|].
    assert (zlen cs = 4) as Hcs by (rewrite E, zlen_app in Hb; lia).
    destruct body as [|p pl]; [change (zlen (@nil byte)) with 0 in Hb; lia|].
    rewrite E, check_bytes_split in H by done.
    case_bool_decide as Hck; [|done]. injection H as -> ->. by rewrite E, Hck.
  - intros ->. unfold base58CheckEncode. rewrite base58CheckDecode_bytes, base58_decode_encode by done.
    cbn [mbind res_bind]. rewrite check_bytes_split by apply checksum_length.
    by rewrite bool_decide_true.
  - intros H. exact (proj1 (base58_encode_decode _ _ H)).
  - intros ->. by apply base58_decode_encode.
Qed.

(** The genesis coinbase address. *)
Definition sample_hash : bytes :=
  [x62; xe9; x07; xb1; x5c; xbf; x27; xd5; x42; x53; x99; xeb; xf6; xf0; xfb; x50; xeb; xb8; x8f; x18].

Definition sample_b58_address : bytes := bytes_of "1A1zP1eP5QGefi2DMPTfTL5SLmv7DivfNa".

Lemma base58check_exact_witness :
  base58CheckDecode sample_b58_address = Ok (x00, sample_hash).
Proof.
  apply (proj1 (base58check_exact sample_b58_address x00 sample_hash [] ltac:(by vm_compute))).
  by vm_compute.
Defined.
