(* ===== verification/Bech32.v ===== *)
(** * coins/bech32.go and coins/cashaddr.go

    Both address families are the same construction with different parameters:
    a BCH-code checksum over 5-bit symbols ([polymod]), the regrouping of bits
    between widths ([convertBits]) and a 32-character alphabet.  The checksum
    lemmas are proved once, in a Section, for any width and generator.  Go's
    [int] accumulator wraps at 64 bits; [convertBits] keeps the wrap. *)

From S2P Require Import Prelude Sha256 Codec Bodies Packet Wire Digits GoLib Base58.

(** ** The checksum polynomial *)

(** [for i { if (b>>i)&1 == 1 { c ^= gen[i] } }] *)
Fixpoint xor_gens (i : Z) (gens : list Z) (b c : Z) : Z :=
  match gens with
  | [] => c
  | g :: gens => xor_gens (i + 1) gens b (if Z.testbit b i then Z.lxor c g else c)
  end.

(** One symbol: the top 5 bits, above bit [top], select the generators. *)
Definition polymod_step (top : Z) (gens : list Z) (chk v : Z) : Z :=
  xor_gens 0 gens (Z.shiftr chk top) (Z.lxor (Z.shiftl (Z.land chk (Z.ones top)) 5) v).

Definition polymod (top : Z) (gens : list Z) (values : list Z) : Z :=
  fold_left (polymod_step top gens) values 1.

Definition bech32_gen : list Z := [996825010; 642813549; 513874426; 1027748829; 705979059].
Definition bech32Const : Z := 1.
Definition bech32mConst : Z := 700.

Definition bech32Polymod (values : list Z) : Z := polymod 25 bech32_gen values.

Definition cashaddrGenerator : list Z :=
  [656907472481; 522768456162; 1044723512260; 748107326120; 130178868336].

Definition cashaddrPolymod (values : list Z) : Z := polymod 35 cashaddrGenerator values.

(** ** bech32 *)

Definition bech32Charset : bytes := bytes_of "qpzry9x8gf2tvdw0s3jn54khce6mua7l".

Definition bech32CharsetIdx (c : byte) : option Z := Z.of_nat <$> IndexByte bech32Charset c.
Definition bech32Char (v : Z) : byte := default x00 (bech32Charset !! Z.to_nat v).

Definition bech32HRPExpand (hrp : bytes) : list Z :=
  ((fun b => Z.shiftr (byte.unsigned b) 5) <$> hrp) ++ [0] ++
  ((fun b => Z.land (byte.unsigned b) 31) <$> hrp).

(** The [n] symbols of [poly], most significant first. *)
Definition symbols (n : nat) (poly : Z) : list Z :=
  (fun i => Z.land (Z.shiftr poly (5 * (Z.of_nat n - 1 - Z.of_nat i))) 31) <$> seq 0 n.

Definition bech32CreateChecksum (hrp : bytes) (data : list Z) (c : Z) : list Z :=
  symbols 6 (Z.lxor (bech32Polymod (bech32HRPExpand hrp ++ data ++ repeat 0 6)) c).

Definition bech32VerifyChecksum (hrp : bytes) (data : list Z) (c : Z) : bool :=
  bech32Polymod (bech32HRPExpand hrp ++ data) =? c.

(** [for bits >= toBits { bits -= toBits; out = append(out, (acc>>bits)&maxv) }] *)
Fixpoint emit (fuel : nat) (toBits acc bits : Z) (out : list Z) : Z * list Z :=
  match fuel with
  | O => (bits, out)
  | S fuel =>
      if toBits <=? bits then
        let bits := bits - toBits in
        emit fuel toBits acc bits (out ++ [Z.land (Z.shiftr acc bits) (Z.ones toBits)])
      else (bits, out)
  end.

Fixpoint regroup (data : list Z) (fromBits toBits acc bits : Z) (out : list Z)
    : res (Z * Z * list Z) :=
  match data with
  | [] => Ok (acc, bits, out)
  | v :: data =>
      if (v <? 0) || negb (Z.shiftr v fromBits =? 0) then Err "coins: invalid bech32 data range"
      else
        let acc := swrap64 (Z.lor (Z.shiftl acc fromBits) v) in
        let bits := bits + fromBits in
        let '(bits, out) := emit (Z.to_nat bits) toBits acc bits out in
        regroup data fromBits toBits acc bits out
  end.

Definition convertBits (data : list Z) (fromBits toBits : Z) (pad : bool) : res (list Z) :=
  '(acc, bits, out) ← regroup data fromBits toBits 0 0 [];
  let maxv := Z.ones toBits in
  let rest := Z.land (swrap64 (Z.shiftl acc (toBits - bits))) maxv in
  if pad then Ok (if 0 <? bits then out ++ [rest] else out)
  else if (fromBits <=? bits) || negb (rest =? 0) then Err "coins: invalid bech32 padding"
  else Ok out.

Definition bytesToInts (b : bytes) : list Z := byte.unsigned <$> b.
Definition intsToBytes (l : list Z) : bytes := byte.of_Z <$> l.

Definition bech32Encode (hrp : bytes) (witnessVersion : Z) (program : bytes) : res bytes :=
  if (witnessVersion <? 0) || (16 <? witnessVersion) then Err "coins: invalid witness version"
  else if (zlen program <? 2) || (40 <? zlen program) then
    Err "coins: invalid witness program length"
  else
    prog ← convertBits (bytesToInts program) 8 5 true;
    let data := witnessVersion :: prog in
    let cc := if 1 <=? witnessVersion then bech32mConst else bech32Const in
    let full := data ++ bech32CreateChecksum hrp data cc in
    Ok (hrp ++ [x31] ++ (bech32Char <$> full)).

(** The symbols of a string, or the first character outside the alphabet. *)
Fixpoint charset_values (s : bytes) (e : string) : res (list Z) :=
  match s with
  | [] => Ok []
  | c :: s =>
      match bech32CharsetIdx c with
      | None => Err e
      | Some v => l ← charset_values s e; Ok (v :: l)
      end
  end.

Section Decoding.
Context (uni : Unicode).

Definition mixed_case (addr : bytes) : bool :=
  negb (bool_decide (ToLower uni addr = addr)) && negb (bool_decide (ToUpper uni addr = addr)).

Definition bech32Decode (addr : bytes) : res (bytes * Z * bytes) :=
  if (zlen addr <? 8) || (90 <? zlen addr) then Err "coins: invalid bech32 length"
  else if mixed_case addr then Err "coins: bech32 mixed case"
  else
    let s := ToLower uni addr in
    match LastIndexByte s x31 with
    | None => Err "coins: missing bech32 separator"
    | Some pos =>
        if (Z.of_nat pos <? 1) || (zlen s <? Z.of_nat pos + 7) then
          Err "coins: missing bech32 separator"
        else
          let hrp := take pos s in
          data ← charset_values (drop (S pos) s) "coins: invalid bech32 symbol";
          if negb (bech32VerifyChecksum hrp data bech32Const) &&
             negb (bech32VerifyChecksum hrp data bech32mConst) then
            Err "coins: bech32 checksum mismatch"
          else
            data ← slice data 0 (zlen data - 6);
            rest ← slice data 1 (zlen data);
            prog5 ← convertBits rest 5 8 false;
            witnessVersion ← index data 0;
            if (witnessVersion <? 0) || (16 <? witnessVersion) then
              Err "coins: invalid witness version"
            else Ok (hrp, witnessVersion, intsToBytes prog5)
    end.

(** ** CashAddr *)

Definition cashaddrHRPExpand (hrp : bytes) : list Z :=
  ((fun b => Z.land (byte.unsigned b) 31) <$> hrp) ++ [0].

Definition cashaddrCreateChecksum (prefix : bytes) (payload : list Z) : list Z :=
  symbols 8 (Z.lxor (cashaddrPolymod (cashaddrHRPExpand prefix ++ payload ++ repeat 0 8)) 1).

Definition cashaddrVerifyChecksum (prefix : bytes) (full : list Z) : bool :=
  cashaddrPolymod (cashaddrHRPExpand prefix ++ full) =? 1.

Definition cashaddrSizeIndex (n : Z) : res Z :=
  if n =? 20 then Ok 0 else if n =? 24 then Ok 1 else if n =? 28 then Ok 2
  else if n =? 32 then Ok 3 else Err "coins: cashaddr unsupported hash length".

Definition cashaddrLenFromIndex (i : Z) : option Z :=
  if i =? 0 then Some 20 else if i =? 1 then Some 24 else if i =? 2 then Some 28
  else if i =? 3 then Some 32 else None.

Definition cashaddrEncode (prefix : bytes) (hashType : Z) (hash : bytes) : res bytes :=
  if negb (hashType =? 0) && negb (hashType =? 1) then Err "coins: cashaddr invalid hash type"
  else
    sizeIdx ← cashaddrSizeIndex (zlen hash);
    let version := Z.lor (Z.shiftl hashType 3) sizeIdx in
    payload ← convertBits (version :: bytesToInts hash) 8 5 true;
    let full := payload ++ cashaddrCreateChecksum prefix payload in
    Ok (prefix ++ [x3a] ++ (bech32Char <$> full)).

Definition cashaddrDecode (addr wantPrefix : bytes) : res (Z * bytes) :=
  if (zlen addr <? 8) || (110 <? zlen addr) then Err "coins: invalid cashaddr length"
  else if mixed_case addr then Err "coins: cashaddr mixed case"
  else
    let lower := ToLower uni addr in
    match IndexByte lower x3a with
    | None => Err "coins: cashaddr missing separator"
    | Some pos =>
        if Z.of_nat pos <? 1 then Err "coins: cashaddr missing separator"
        else
          let prefix := take pos lower in
          if negb (bool_decide (wantPrefix = [])) && negb (bool_decide (prefix = wantPrefix)) then
            Err "coins: cashaddr prefix does not match"
          else
            data ← charset_values (drop (S pos) lower) "coins: cashaddr invalid symbol";
            if negb (cashaddrVerifyChecksum prefix data) then
              Err "coins: cashaddr checksum mismatch"
            else
              data ← slice data 0 (zlen data - 8);
              decoded ← convertBits data 5 8 false;
              version ← index decoded 0;
              let hashType := Z.shiftr version 3 in
              let sizeIdx := Z.land version 7 in
              match cashaddrLenFromIndex sizeIdx with
              | None => Err "coins: cashaddr invalid hash size index"
              | Some hashLenBytes =>
                  if negb (hashType =? 0) && negb (hashType =? 1) then
                    Err "coins: cashaddr invalid hash type"
                  else if negb (zlen decoded =? 1 + hashLenBytes) then
                    Err "coins: cashaddr unexpected payload length"
                  else
                    hash ← slice decoded 1 (1 + hashLenBytes);
                    Ok (hashType, intsToBytes hash)
              end
    end.
End Decoding.

(** BIP173's valid vector A12UEL5L, in both cases, and BIP350's P2TR vector. *)
Example bech32_vectors :
  bech32VerifyChecksum (bytes_of "a") [10; 28; 25; 31; 20; 31] bech32Const = true /\
  bech32Decode (mkUnicode id id) (bytes_of "BC1QW508D6QEJXTDG4Y5R3ZARVARY0C5XW7KV8F3T4") =
    Ok (bytes_of "bc", 0,
        [x75; x1e; x76; xe8; x19; x91; x96; xd4; x54; x94; x1c; x45; xd1; xb3; xa3; x23; xf1; x43; x3b; xd6]) /\
  cashaddrDecode (mkUnicode id id) (bytes_of "bitcoincash:qpm2qsznhks23z7629mms6s4cwef74vcwvy22gdx6a") [] =
    Ok (0, [x76; xa0; x40; x53; xbd; xa0; xa8; x8b; xda; x51; x77; xb8; x6a; x15; xc3; xb2; x9f; x55; x98; x73]).
Proof. by vm_compute. Qed.

(** ** The checksum *)

Lemma lxor_bound w a b : 0 <= w -> 0 <= a < 2 ^ w -> 0 <= b < 2 ^ w -> 0 <= Z.lxor a b < 2 ^ w.
Proof.
  intros Hw Ha Hb.
  assert (0 <= Z.lxor a b) as Hnn by (apply Z.lxor_nonneg; lia).
  split; [done|]. destruct (Z.eq_dec (Z.lxor a b) 0) as [->|]; [apply Z.pow_pos_nonneg; lia|].
  apply Z.log2_lt_pow2; [lia|].
  pose proof (Z.log2_lxor a b ltac:(lia) ltac:(lia)).
  assert (forall x, 0 <= x < 2 ^ w -> Z.log2 x < w \/ x = 0) as Hl.
  { intros x Hx. destruct (Z.eq_dec x 0); [by right|left]. apply Z.log2_lt_pow2; lia. }
  destruct (Z.eq_dec w 0) as [->|]; [change (2 ^ 0) with 1 in *; assert (a = 0 /\ b = 0) as [-> ->] by lia; done|].
  destruct (Hl a Ha) as [| ->], (Hl b Hb) as [| ->]; try lia; cbn in *; lia.
Qed.

Section Polymod.
Context (top : Z) (gens : list Z) (Htop : 0 <= top).
Context (Hgens : Forall (fun g => 0 <= g < 2 ^ (top + 5)) gens).

Lemma xor_gens_lxor i gs b c d : xor_gens i gs b (Z.lxor c d) = Z.lxor (xor_gens i gs b c) d.
Proof.
  revert i c. induction gs as [|g gs IH]; intros i c; [done|]. cbn.
  destruct (Z.testbit b i); [|apply IH].
  rewrite <- IH. f_equal. rewrite !Z.lxor_assoc. f_equal. apply Z.lxor_comm.
Qed.

Lemma xor_gens_bound i gs b c :
  Forall (fun g => 0 <= g < 2 ^ (top + 5)) gs -> 0 <= c < 2 ^ (top + 5) ->
  0 <= xor_gens i gs b c < 2 ^ (top + 5).
Proof.
  intros Hg. revert i c. induction Hg as [|g gs Hg _ IH]; intros i c Hc; [done|]. cbn.
  apply IH. destruct (Z.testbit b i); [|done]. apply lxor_bound; lia.
Qed.

Lemma step_value chk v : polymod_step top gens chk v = Z.lxor (polymod_step top gens chk 0) v.
Proof. unfold polymod_step. by rewrite Z.lxor_0_r, xor_gens_lxor. Qed.

Lemma step_lxor chk d v :
  0 <= d < 2 ^ top ->
  polymod_step top gens (Z.lxor chk d) v = Z.lxor (polymod_step top gens chk v) (Z.shiftl d 5).
Proof.
  intros Hd. unfold polymod_step.
  assert (Z.shiftr (Z.lxor chk d) top = Z.shiftr chk top) as ->.
  { rewrite Z.shiftr_lxor. rewrite (Z.shiftr_div_pow2 d) by done.
    by rewrite (Z.div_small d), Z.lxor_0_r. }
  assert (Z.land (Z.lxor chk d) (Z.ones top) = Z.lxor (Z.land chk (Z.ones top)) d) as ->.
  { rewrite !Z.land_ones by done. apply Z.bits_inj'. intros i Hi.
    rewrite <- (Z.mod_small d (2 ^ top)) at 2 by done.
    rewrite Z.lxor_spec. destruct (Z.lt_ge_cases i top).
    - rewrite !Z.mod_pow2_bits_low by lia. apply Z.lxor_spec.
    - by rewrite !Z.mod_pow2_bits_high by lia. }
  rewrite Z.shiftl_lxor, <- xor_gens_lxor. f_equal. rewrite !Z.lxor_assoc. f_equal. apply Z.lxor_comm.
Qed.

Lemma step_bound chk v : 0 <= chk -> 0 <= v < 32 -> 0 <= polymod_step top gens chk v < 2 ^ (top + 5).
Proof.
  intros Hc Hv. apply xor_gens_bound; [done|]. rewrite Z.land_ones by done.
  assert (0 < 2 ^ top) by (apply Z.pow_pos_nonneg; lia).
  pose proof (Z.mod_pos_bound chk (2 ^ top) ltac:(lia)).
  rewrite (proj1 (shiftl_plus _ 5 v ltac:(lia) Hv)). rewrite Z.pow_add_r by lia. lia.
Qed.

Lemma fold_bound l chk :
  digits_ok 32 l -> l <> [] -> 0 <= chk -> 0 <= fold_left (polymod_step top gens) l chk < 2 ^ (top + 5).
Proof.
  intros Hl. revert chk. induction Hl as [|v l Hv Hl IH]; intros chk Hne Hc; [done|]. cbn.
  pose proof (step_bound chk v Hc Hv).
  destruct l as [|w l]; [done|]. apply IH; [done|lia].
Qed.

(** Symbols appended in place of zeros are xored in. *)
Lemma fold_symbols vs s :
  digits_ok 32 vs -> 5 * zlen vs <= top + 5 ->
  fold_left (polymod_step top gens) vs s =
  Z.lxor (fold_left (polymod_step top gens) (repeat 0 (length vs)) s) (of_digits 32 vs).
Proof.
  induction vs as [|v vs IH] using rev_ind; intros Hok Hl.
  - by rewrite Z.lxor_0_r.
  - apply Forall_app in Hok as [Hok Hv]. pose proof (Forall_inv Hv) as Hv'. clear Hv. cbn in Hv'.
    unfold zlen in Hl. rewrite length_app in Hl |- *. cbn [length] in Hl |- *.
    rewrite repeat_app, !fold_left_app, IH by (done || unfold zlen; lia). cbn [repeat fold_left].
    pose proof (of_digits_bound 32 ltac:(lia) vs Hok) as Hb. unfold zlen in Hb.
    assert (32 ^ Z.of_nat (length vs) <= 2 ^ top).
    { change 32 with (2 ^ 5). rewrite <- Z.pow_mul_r by lia. apply Z.pow_le_mono_r; lia. }
    rewrite step_lxor by lia. rewrite step_value, Z.lxor_assoc. f_equal.
    rewrite of_digits_snoc, Z.lxor_comm. rewrite (proj1 (shiftl_plus _ 5 v ltac:(lia) Hv')). lia.
Qed.

Lemma symbols_cons n x : symbols (S n) x = Z.land (Z.shiftr x (5 * Z.of_nat n)) 31 :: symbols n x.
Proof.
  unfold symbols. cbn [seq]. rewrite fmap_cons. f_equal.
  - f_equal. f_equal. lia.
  - rewrite <- seq_shift. change (map S (seq 0 n)) with (S <$> seq 0 n).
    rewrite <- list_fmap_compose. apply list_fmap_ext. intros i j _. cbn. do 2 f_equal. lia.
Qed.

Lemma symbols_spec n x :
  digits_ok 32 (symbols n x) /\ length (symbols n x) = n /\
  of_digits 32 (symbols n x) = x mod 2 ^ (5 * Z.of_nat n).
Proof.
  induction n as [|n (IH1 & IH2 & IH3)]; [split_and!; [constructor|done|cbn; by rewrite Z.mod_1_r]|].
  rewrite symbols_cons. change 31 with (Z.ones 5). rewrite Z.land_ones by lia.
  pose proof (Z.mod_pos_bound (Z.shiftr x (5 * Z.of_nat n)) (2 ^ 5) ltac:(lia)) as Hm.
  split_and!; [by constructor|cbn; by rewrite IH2|].
  pose proof (of_digits_app 32 [Z.shiftr x (5 * Z.of_nat n) mod 2 ^ 5] (symbols n x)) as Happ.
  cbn [app] in Happ. rewrite Happ, IH3. unfold zlen. rewrite IH2.
  change (of_digits 32 [?a]) with (0 * 32 + a). rewrite Z.shiftr_div_pow2 by lia.
  change (32 ^ Z.of_nat n) with ((2 ^ 5) ^ Z.of_nat n). rewrite <- Z.pow_mul_r by lia.
  replace (5 * Z.of_nat (S n)) with (5 * Z.of_nat n + 5) by lia. rewrite Z.pow_add_r by lia.
  rewrite (Z.rem_mul_r x (2 ^ (5 * Z.of_nat n)) (2 ^ 5)) by (try apply Z.pow_nonzero; lia).
  unfold of_digits; cbn [fold_left]. lia.
Qed.

(** The checksum symbols make the polynomial come out at [c]. *)
Lemma checksum_verifies (n : nat) (values : list Z) (c : Z) :
  5 * Z.of_nat n = top + 5 -> digits_ok 32 values -> 0 <= c < 2 ^ (top + 5) ->
  polymod top gens (values ++ symbols n (Z.lxor (polymod top gens (values ++ repeat 0 n)) c)) = c.
Proof.
  intros Hn Hv Hc. unfold polymod. set (P := fold_left _ (values ++ repeat 0 n) 1).
  assert (0 <= P < 2 ^ (top + 5)) as HP.
  { apply fold_bound; [|destruct n; [cbn in Hn; lia|by destruct values]|lia].
    apply Forall_app. split; [done|]. clear. induction n; constructor; [lia|done]. }
  destruct (symbols_spec n (Z.lxor P c)) as (Hok & Hlen & Hval).
  rewrite fold_left_app, fold_symbols by (done || unfold zlen; lia).
  rewrite Hlen, <- fold_left_app. fold P. rewrite Hval, Hn, Z.mod_small by (apply lxor_bound; lia).
  by rewrite <- Z.lxor_assoc, Z.lxor_nilpotent, Z.lxor_0_l.
Qed.
End Polymod.

Lemma hrp_expand_ok hrp : digits_ok 32 (bech32HRPExpand hrp).
Proof.
  unfold bech32HRPExpand. repeat (apply Forall_app; split).
  - apply Forall_fmap, Forall_forall. intros b _. cbn. pose proof (byte_unsigned_ok b) as Hb. unfold uint_ok in Hb.
    rewrite Z.shiftr_div_pow2 by lia. split; [apply Z.div_pos; lia|apply Z.div_lt_upper_bound; lia].
  - repeat constructor; lia.
  - apply Forall_fmap, Forall_forall. intros b _. cbn. change 31 with (Z.ones 5).
    rewrite Z.land_ones by lia. apply Z.mod_pos_bound. lia.
Qed.

Lemma cashaddr_expand_ok hrp : digits_ok 32 (cashaddrHRPExpand hrp).
Proof.
  unfold cashaddrHRPExpand. apply Forall_app. split; [|repeat constructor; lia].
  apply Forall_fmap, Forall_forall. intros b _. cbn. change 31 with (Z.ones 5).
  rewrite Z.land_ones by lia. apply Z.mod_pos_bound. lia.
Qed.

Lemma bech32_checksum_polymod hrp data c :
  digits_ok 32 data -> 0 <= c < 2 ^ 30 ->
  bech32Polymod (bech32HRPExpand hrp ++ data ++ bech32CreateChecksum hrp data c) = c.
Proof.
  intros Hd Hc. unfold bech32CreateChecksum, bech32Polymod. rewrite !app_assoc.
  apply (checksum_verifies 25 bech32_gen); try done.
  - apply (bool_decide_unpack (Forall _ _)). by vm_compute.
  - apply Forall_app. split; [apply hrp_expand_ok|done].
Qed.

Lemma cashaddr_checksum_verifies prefix payload :
  digits_ok 32 payload ->
  cashaddrVerifyChecksum prefix (payload ++ cashaddrCreateChecksum prefix payload) = true.
Proof.
  intros Hd. unfold cashaddrVerifyChecksum, cashaddrCreateChecksum, cashaddrPolymod.
  apply Z.eqb_eq. rewrite !app_assoc. apply (checksum_verifies 35 cashaddrGenerator); try done.
  - apply (bool_decide_unpack (Forall _ _)). by vm_compute.
  - apply Forall_app. split; [apply cashaddr_expand_ok|done].
Qed.

(** ** Regrouping bits

    The invariant of the loop: the digits emitted so far, followed by the low
    [bits] bits of the accumulator, are the number read so far. *)

Lemma swrap64_mod x k : 0 <= k <= 64 -> swrap64 x mod 2 ^ k = x mod 2 ^ k.
Proof.
  intros Hk. unfold swrap64.
  assert ((x + 2 ^ 63) mod 2 ^ 64 - 2 ^ 63 = x + (- ((x + 2 ^ 63) / 2 ^ 64) * 2 ^ (64 - k)) * 2 ^ k) as ->.
  { rewrite <- Z.mul_assoc, <- Z.pow_add_r by lia. replace (64 - k + k) with 64 by lia.
    pose proof (Z.div_mod (x + 2 ^ 63) (2 ^ 64) ltac:(lia)). lia. }
  apply Z_mod_plus_full.
Qed.

Lemma mod_split a m n : 0 <= m -> 0 <= n ->
  a mod 2 ^ (m + n) = a mod 2 ^ m + 2 ^ m * ((a / 2 ^ m) mod 2 ^ n).
Proof.
  intros. rewrite Z.pow_add_r by done. apply Z.rem_mul_r; [apply Z.pow_nonzero; lia|apply Z.pow_pos_nonneg; lia].
Qed.

Definition regroup_inv (toBits acc bits : Z) (out : list Z) (n v : Z) : Prop :=
  digits_ok (2 ^ toBits) out /\ zlen out * toBits + bits = n /\
  of_digits (2 ^ toBits) out * 2 ^ bits + acc mod 2 ^ bits = v.

Lemma emit_inv toBits acc n v fuel bits out :
  1 <= toBits -> 0 <= bits -> bits <= Z.of_nat fuel -> regroup_inv toBits acc bits out n v ->
  let '(bits', out') := emit fuel toBits acc bits out in
  0 <= bits' < toBits /\ regroup_inv toBits acc bits' out' n v.
Proof.
  intros Ht. revert bits out. induction fuel as [|fuel IH]; intros bits out Hb Hf Hinv; cbn [emit].
  { split; [lia|done]. }
  destruct (Z.leb_spec toBits bits); [|split; [lia|done]].
  apply IH; [lia|lia|]. destruct Hinv as (Hok & Hn & Hv).
  rewrite Z.land_ones, Z.shiftr_div_pow2 by lia.
  assert (0 < 2 ^ toBits) by (apply Z.pow_pos_nonneg; lia).
  pose proof (Z.mod_pos_bound (acc / 2 ^ (bits - toBits)) (2 ^ toBits) ltac:(lia)).
  split_and!.
  - apply Forall_app. split; [done|]. apply Forall_cons_2; [done|apply Forall_nil_2].
  - unfold zlen in *. rewrite length_app. cbn [length]. lia.
  - rewrite of_digits_snoc, <- Hv. pose proof (mod_split acc (bits - toBits) toBits) as Hm.
    pose proof (Z.pow_add_r 2 (bits - toBits) toBits) as Hp. rewrite Z.sub_add in Hm, Hp.
    rewrite Hm, Hp by lia. lia.
Qed.

Lemma regroup_spec fromBits toBits data acc bits out n v :
  1 <= fromBits <= 8 -> 1 <= toBits <= 8 -> digits_ok (2 ^ fromBits) data ->
  0 <= bits < toBits -> regroup_inv toBits acc bits out n v ->
  exists acc' bits' out', regroup data fromBits toBits acc bits out = Ok (acc', bits', out') /\
    0 <= bits' < toBits /\
    regroup_inv toBits acc' bits' out' (n + fromBits * zlen data)
      (v * 2 ^ (fromBits * zlen data) + of_digits (2 ^ fromBits) data).
Proof.
  intros Hfr Hto Hd. revert acc bits out n v.
  induction Hd as [|d data Hd Hdata IH]; intros acc bits out n v Hbits Hinv.
  { exists acc, bits, out. split; [done|]. split; [done|]. change (zlen (@nil Z)) with 0.
    change (of_digits _ []) with 0. rewrite Z.mul_0_r, Z.add_0_r. change (2 ^ 0) with 1.
    by replace (v * 1 + 0) with v by lia. }
  cbn [regroup]. assert (0 < 2 ^ fromBits) as Hp by (apply Z.pow_pos_nonneg; lia).
  rewrite (proj2 (Z.ltb_ge d 0)) by lia.
  rewrite Z.shiftr_div_pow2, Z.div_small by lia. cbn [orb negb Z.eqb].
  set (acc1 := swrap64 (Z.lor (Z.shiftl acc fromBits) d)).
  assert (regroup_inv toBits acc1 (bits + fromBits) out (n + fromBits) (v * 2 ^ fromBits + d)) as Hinv1.
  { destruct Hinv as (Hok & Hn & Hv). split_and!; [done|lia|].
    unfold acc1. rewrite swrap64_mod by lia. rewrite (proj2 (shiftl_plus acc fromBits d ltac:(lia) Hd)).
    rewrite (Z.add_comm bits), mod_split, Z.pow_add_r by lia.
    assert ((acc * 2 ^ fromBits + d) mod 2 ^ fromBits = d) as ->
      by (rewrite Z.add_comm, Z.mod_add, Z.mod_small; lia).
    assert ((acc * 2 ^ fromBits + d) / 2 ^ fromBits = acc) as ->
      by (rewrite Z.div_add_l, Z.div_small; lia).
    rewrite <- Hv. lia. }
  pose proof (emit_inv toBits acc1 _ _ (Z.to_nat (bits + fromBits)) (bits + fromBits) out
    ltac:(lia) ltac:(lia) ltac:(lia) Hinv1) as He.
  destruct (emit _ toBits acc1 (bits + fromBits) out) as [bits' out'] eqn:E. destruct He as [Hb' Hinv'].
  destruct (IH acc1 bits' out' _ _ Hb' Hinv') as (acc2 & bits2 & out2 & Hr & Hb2 & Hinv2).
  exists acc2, bits2, out2. split; [done|]. split; [done|].
  rewrite zlen_cons. pose proof (zlen_nonneg data).
  replace (n + fromBits * (1 + zlen data)) with (n + fromBits + fromBits * zlen data) by lia.
  replace (v * 2 ^ (fromBits * (1 + zlen data)) + of_digits (2 ^ fromBits) (d :: data))
    with ((v * 2 ^ fromBits + d) * 2 ^ (fromBits * zlen data) + of_digits (2 ^ fromBits) data); [done|].
  pose proof (of_digits_app (2 ^ fromBits) [d] data) as Happ. cbn [app] in Happ. rewrite Happ.
  rewrite <- (Z.pow_mul_r 2 fromBits) by lia.
  replace (fromBits * (1 + zlen data)) with (fromBits + fromBits * zlen data) by lia.
  rewrite (Z.pow_add_r 2 fromBits) by lia. unfold of_digits; cbn [fold_left]. lia.
Qed.

(** Two digit lists of the same length and value are equal. *)
Lemma of_digits_inj_len b l k :
  2 <= b -> digits_ok b l -> digits_ok b k -> length l = length k -> of_digits b l = of_digits b k -> l = k.
Proof.
  intros Hb Hl. revert k. induction l as [|d l IH] using rev_ind; intros k Hk Hlen H.
  { by destruct k. }
  destruct k as [|e k] using rev_ind; [rewrite length_app in Hlen; cbn in Hlen; lia|]. clear IHk.
  rewrite !length_app in Hlen. cbn [length] in Hlen. rewrite !of_digits_snoc in H.
  apply Forall_app in Hl as [Hl Hd]. apply Forall_app in Hk as [Hk He].
  apply Forall_inv in Hd, He.
  assert (d = e) as ->.
  { apply (f_equal (fun x => x mod b)) in H.
    rewrite !(Z.add_comm (_ * b)), !Z_mod_plus_full, !Z.mod_small in H by lia. done. }
  f_equal. apply IH; [done|done|lia|nia].
Qed.

Lemma no_remainder p q m n : 0 <= m < p -> q * p + m = n * p -> q = n /\ m = 0.
Proof.
  intros Hm H. assert (m = (n - q) * p) as E by lia.
  destruct (Z.lt_trichotomy q n) as [|[|]]; nia.
Qed.

(** Regrouping bytes into 5-bit symbols and back. *)
Lemma convertBits_trip (bs : list Z) :
  digits_ok 256 bs ->
  exists syms, convertBits bs 8 5 true = Ok syms /\ digits_ok 32 syms /\
    5 * zlen syms < 8 * zlen bs + 5 /\ 8 * zlen bs <= 5 * zlen syms /\
    convertBits syms 5 8 false = Ok bs.
Proof.
  intros Hbs. assert (digits_ok (2 ^ 8) bs) as Hbs' by done. pose proof (zlen_nonneg bs) as Hbn.
  assert (forall t, regroup_inv t 0 0 [] 0 0) as H0.
  { intros t. split_and!; [constructor|done|]. change (of_digits _ []) with 0. by rewrite Z.mod_1_r. }
  destruct (regroup_spec 8 5 bs 0 0 [] 0 0 ltac:(lia) ltac:(lia) Hbs' ltac:(lia) (H0 5))
    as (acc & bits & out & Hr & Hbits & Hok & Hlen & Hval).
  set (N := of_digits (2 ^ 8) bs) in *. rewrite Z.mul_0_l, Z.add_0_l in Hval. rewrite Z.add_0_l in Hlen.
  set (pad := if 0 <? bits then 5 - bits else 0).
  set (rest := Z.land (swrap64 (Z.shiftl acc (5 - bits))) (Z.ones 5)).
  set (syms := if 0 <? bits then out ++ [rest] else out).
  assert (convertBits bs 8 5 true = Ok syms) as Hc.
  { unfold convertBits. rewrite Hr. done. }
  assert (rest = (acc mod 2 ^ bits) * 2 ^ (5 - bits)) as Hrest.
  { unfold rest. rewrite Z.land_ones, swrap64_mod, Z.shiftl_mul_pow2 by lia.
    replace 5 with (bits + (5 - bits)) at 2 by lia. rewrite Z.pow_add_r by lia.
    rewrite Z.mul_mod_distr_r; [done|apply Z.pow_nonzero; lia|apply Z.pow_nonzero; lia]. }
  assert (digits_ok 32 syms /\ 5 * zlen syms = 8 * zlen bs + pad /\ of_digits 32 syms = N * 2 ^ pad /\ 0 <= pad < 5)
    as (Hsok & Hslen & Hsval & Hpad).
  { unfold syms, pad. destruct (Z.ltb_spec 0 bits).
    - split_and!; try lia.
      + apply Forall_app. split; [done|]. apply Forall_cons_2; [|apply Forall_nil_2].
        unfold rest. rewrite Z.land_ones by lia. apply Z.mod_pos_bound; lia.
      + unfold zlen in *. rewrite length_app. cbn [length]. lia.
      + rewrite of_digits_snoc, Hrest, <- Hval. change (2 ^ 5) with 32 in *.
        assert (2 ^ bits * 2 ^ (5 - bits) = 32) as Hp5
          by (rewrite <- Z.pow_add_r by lia; replace (bits + (5 - bits)) with 5 by lia; done).
        rewrite Z.mul_add_distr_r, <- Z.mul_assoc, Hp5. done.
    - assert (bits = 0) as -> by lia. rewrite Z.mod_1_r in Hval.
      change (2 ^ 0) with 1 in *. change (2 ^ 5) with 32 in *. split_and!; done || lia. }
  exists syms. split; [done|]. split; [done|]. split; [lia|]. split; [lia|].
  destruct (regroup_spec 5 8 syms 0 0 [] 0 0 ltac:(lia) ltac:(lia) Hsok ltac:(lia) (H0 8))
    as (acc2 & bits2 & out2 & Hr2 & Hbits2 & Hok2 & Hlen2 & Hval2).
  rewrite Z.mul_0_l, Z.add_0_l in Hval2. rewrite Z.add_0_l in Hlen2. change (2 ^ 5) with 32 in Hval2.
  rewrite Hsval in Hval2.
  assert (bits2 = pad /\ length out2 = length bs) as [-> Hl2] by (unfold zlen in *; lia).
  assert (of_digits (2 ^ 8) out2 = N /\ acc2 mod 2 ^ pad = 0) as [HN Hacc].
  { assert (0 < 2 ^ pad) by (apply Z.pow_pos_nonneg; lia).
    apply (no_remainder (2 ^ pad)); [|done]. by apply Z.mod_pos_bound. }
  assert (out2 = bs) as -> by (apply (of_digits_inj_len 256); done).
  unfold convertBits. rewrite Hr2. cbn [mbind res_bind].
  rewrite (proj2 (Z.leb_gt _ _)) by lia. cbn [orb].
  assert (Z.land (swrap64 (Z.shiftl acc2 (8 - pad))) (Z.ones 8) = 0) as ->; [|done].
  rewrite Z.land_ones, swrap64_mod, Z.shiftl_mul_pow2 by lia.
  replace 8 with (pad + (8 - pad)) at 2 by lia. rewrite Z.pow_add_r by lia.
  rewrite Z.mul_mod_distr_r; [by rewrite Hacc|apply Z.pow_nonzero; lia|apply Z.pow_nonzero; lia].
Qed.

(** ** The alphabet *)

Lemma bech32_char_facts v :
  0 <= v < 32 -> bech32CharsetIdx (bech32Char v) = Some v /\
    is_ascii (bech32Char v) = true /\ is_upper (bech32Char v) = false /\
    bech32Char v <> x31 /\ bech32Char v <> x3a.
Proof.
  intros Hv.
  assert (Forall (fun v => bech32CharsetIdx (bech32Char v) = Some v /\
    is_ascii (bech32Char v) = true /\ is_upper (bech32Char v) = false /\
    bech32Char v <> x31 /\ bech32Char v <> x3a) (Z.of_nat <$> seq 0 32)) as H.
  { apply (bool_decide_unpack (Forall _ _)). by vm_compute. }
  rewrite Forall_forall in H. apply H. apply list_elem_of_fmap. exists (Z.to_nat v).
  split; [lia|]. apply elem_of_seq. lia.
Qed.

Lemma charset_values_chars l e : digits_ok 32 l -> charset_values (bech32Char <$> l) e = Ok l.
Proof.
  induction 1 as [|v l Hv _ IH]; [done|]. rewrite fmap_cons. cbn [charset_values].
  destruct (bech32_char_facts v Hv) as [-> _]. by rewrite IH.
Qed.

(** What a human-readable part must be for its strings to read back: the empty
    one and upper case do not. *)
Definition lower_ascii (b : byte) : bool := is_ascii b && negb (is_upper b).

Definition hrp_ok (sep : byte) (hrp : bytes) : Prop :=
  hrp <> [] /\ forallb lower_ascii hrp = true /\ sep ∉ hrp.

#[export] Instance hrp_ok_dec sep hrp : Decision (hrp_ok sep hrp).
Proof. unfold hrp_ok; apply _. Defined.

Lemma ToLower_id uni s : forallb lower_ascii s = true -> ToLower uni s = s.
Proof.
  intros H. unfold ToLower. rewrite forallb_forall in H.
  assert (forallb is_ascii s = true) as ->.
  { apply forallb_forall. intros x Hx. specialize (H x Hx). by apply andb_true_iff in H as [? _]. }
  assert (Forall (fun x => ascii_lower x = x) s) as Hs.
  { apply Forall_forall. intros x Hx. apply list_elem_of_In in Hx. specialize (H x Hx).
    unfold ascii_lower. apply andb_true_iff in H as [_ H]. by rewrite (proj1 (negb_true_iff _) H). }
  induction Hs as [|x s Hx _ IH]; [done|]. rewrite fmap_cons, Hx. f_equal. apply IH.
  intros y Hy. apply H. by right.
Qed.

Lemma chars_lower l : digits_ok 32 l -> forallb lower_ascii (bech32Char <$> l) = true.
Proof.
  induction 1 as [|v l Hv _ IH]; [done|]. rewrite fmap_cons. cbn [forallb]. rewrite IH.
  destruct (bech32_char_facts v Hv) as (_ & H1 & H2 & _). unfold lower_ascii. by rewrite H1, H2.
Qed.

Lemma chars_no_sep l : digits_ok 32 l -> x31 ∉ (bech32Char <$> l) /\ x3a ∉ (bech32Char <$> l).
Proof.
  intros Hl. split; intros H; apply list_elem_of_fmap in H as (v & E & Hv);
    (unfold digits_ok in Hl; rewrite Forall_forall in Hl; specialize (Hl v Hv); cbn in Hl);
    destruct (bech32_char_facts v Hl) as (_ & _ & _ & H1 & H2); congruence.
Qed.

Lemma symbols_length n p : zlen (symbols n p) = Z.of_nat n.
Proof. unfold zlen. f_equal. apply symbols_spec. Qed.

Lemma zlen_fmap {A B} (f : A -> B) l : zlen (f <$> l) = zlen l.
Proof. unfold zlen. by rewrite length_fmap. Qed.

(** ** Reading a well-formed string back *)

Lemma decode_string uni hrp full :
  hrp <> [] -> forallb lower_ascii hrp = true -> digits_ok 32 full ->
  6 <= zlen full -> zlen hrp + 1 + zlen full <= 90 ->
  bech32Decode uni (hrp ++ [x31] ++ (bech32Char <$> full)) =
  if negb (bech32VerifyChecksum hrp full bech32Const) && negb (bech32VerifyChecksum hrp full bech32mConst)
  then Err "coins: bech32 checksum mismatch"
  else
    data ← slice full 0 (zlen full - 6);
    rest ← slice data 1 (zlen data);
    prog5 ← convertBits rest 5 8 false;
    witnessVersion ← index data 0;
    if (witnessVersion <? 0) || (16 <? witnessVersion) then Err "coins: invalid witness version"
    else Ok (hrp, witnessVersion, intsToBytes prog5).
Proof.
  intros Hne Hlow Hd H6 H90. set (chars := bech32Char <$> full).
  assert (zlen chars = zlen full) as Hc by (unfold zlen, chars; by rewrite length_fmap).
  assert (0 < zlen hrp) as Hh by (destruct hrp; [done|rewrite zlen_cons; pose proof (zlen_nonneg hrp); lia]).
  set (s := hrp ++ [x31] ++ chars).
  assert (zlen s = zlen hrp + 1 + zlen full) as Hs by (unfold s; rewrite !zlen_app, Hc; change (zlen [x31]) with 1; lia).
  assert (ToLower uni s = s) as Hlower.
  { apply ToLower_id. unfold s, chars. rewrite !forallb_app, Hlow, (chars_lower full Hd). done. }
  unfold bech32Decode. rewrite !(proj2 (Z.ltb_ge _ _)) by lia. cbn [orb].
  unfold mixed_case. rewrite Hlower, bool_decide_true by done. cbn [negb andb].
  assert (LastIndexByte s x31 = Some (length hrp)) as ->
    by (apply LastIndexByte_app; by apply chars_no_sep).
  rewrite !(proj2 (Z.ltb_ge _ _)) by (unfold zlen in *; lia). cbn [orb].
  assert (take (length hrp) s = hrp) as -> by (unfold s; by rewrite take_app_length).
  assert (drop (S (length hrp)) s = chars) as ->.
  { unfold s. rewrite app_assoc. apply drop_app_len. rewrite length_app. cbn. lia. }
  unfold chars. by rewrite charset_values_chars.
Qed.

Lemma checksum_symbols_ok hrp data c :
  digits_ok 32 (bech32CreateChecksum hrp data c) /\ zlen (bech32CreateChecksum hrp data c) = 6.
Proof. unfold bech32CreateChecksum. split; [apply symbols_spec|apply symbols_length]. Qed.

(** The same with the checksum of a known constant. *)
Lemma decode_checked uni hrp data c :
  hrp <> [] -> forallb lower_ascii hrp = true -> digits_ok 32 data -> 0 <= c < 2 ^ 30 ->
  zlen hrp + zlen data + 7 <= 90 ->
  bech32Decode uni (hrp ++ [x31] ++ (bech32Char <$> data ++ bech32CreateChecksum hrp data c)) =
  if (c =? bech32Const) || (c =? bech32mConst) then
    rest ← slice data 1 (zlen data);
    prog5 ← convertBits rest 5 8 false;
    witnessVersion ← index data 0;
    if (witnessVersion <? 0) || (16 <? witnessVersion) then Err "coins: invalid witness version"
    else Ok (hrp, witnessVersion, intsToBytes prog5)
  else Err "coins: bech32 checksum mismatch".
Proof.
  intros Hne Hlow Hd Hc Hl. destruct (checksum_symbols_ok hrp data c) as [Hcs Hcl].
  pose proof (zlen_nonneg data). pose proof (zlen_nonneg hrp).
  rewrite decode_string by first [done|rewrite zlen_app, Hcl; lia|by apply Forall_app].
  unfold bech32VerifyChecksum. rewrite bech32_checksum_polymod by done.
  rewrite <- negb_orb. destruct (_ || _); [|done]. cbn [negb].
  rewrite slice_pre by (rewrite zlen_app, Hcl; lia). done.
Qed.

Lemma program_digits program : digits_ok 256 (bytesToInts program).
Proof. apply digits_of_bytes. Qed.

Lemma bech32_encode_decode uni hrp program version s :
  hrp <> [] -> forallb lower_ascii hrp = true ->
  bech32Encode hrp version program = Ok s -> zlen s <= 90 ->
  bech32Decode uni s = Ok (hrp, version, program).
Proof.
  intros Hne Hlow Hs'. unfold bech32Encode in Hs'.
  destruct (convertBits_trip (bytesToInts program) (program_digits program))
    as (syms & Hc & Hs & _ & _ & Hback).
  destruct (Z.ltb_spec version 0); [done|]. destruct (Z.ltb_spec 16 version); [done|].
  destruct ((zlen program <? 2) || _); [done|]. cbn [orb] in Hs'. rewrite Hc in Hs'. cbn [mbind res_bind] in Hs'.
  set (cc := if 1 <=? version then bech32mConst else bech32Const) in *.
  destruct (checksum_symbols_ok hrp (version :: syms) cc) as [_ Hcl].
  assert (digits_ok 32 (version :: syms)) as Hd by (apply Forall_cons_2; [lia|done]).
  assert (s = hrp ++ [x31] ++ (bech32Char <$> (version :: syms) ++ bech32CreateChecksum hrp (version :: syms) cc))
    as -> by congruence. clear Hs'. intros Hlen.
  rewrite decode_checked; [|done|done|done| |].
  - assert ((cc =? bech32Const) || (cc =? bech32mConst) = true) as -> by (unfold cc; by destruct (1 <=? version)).
    pose proof (slice_post [version] syms 1 eq_refl) as Hsl. cbn [app] in Hsl. rewrite Hsl.
    cbn [mbind res_bind]. rewrite Hback. cbn [mbind res_bind].
    pose proof (index_mid [] version syms) as Hi. cbn [app] in Hi. change (zlen []) with 0 in Hi. rewrite Hi.
    cbn [mbind res_bind]. rewrite !(proj2 (Z.ltb_ge _ _)) by lia. cbn [orb].
    unfold intsToBytes, bytesToInts. by rewrite of_Z_unsigned_map.
  - unfold cc, bech32Const, bech32mConst. destruct (1 <=? version); lia.
  - rewrite !zlen_app in Hlen. change (zlen [x31]) with 1 in Hlen. rewrite zlen_fmap, zlen_app, Hcl in Hlen. lia.
Qed.

Lemma bech32_accepts hrp version program :
  is_ok (bech32Encode hrp version program) = true <-> 0 <= version <= 16 /\ 2 <= zlen program <= 40.
Proof.
  unfold bech32Encode.
  destruct (convertBits_trip (bytesToInts program) (program_digits program)) as (syms & -> & _).
  destruct (Z.ltb_spec version 0), (Z.ltb_spec 16 version), (Z.ltb_spec (zlen program) 2),
    (Z.ltb_spec 40 (zlen program)); cbn; split; try done; lia.
Qed.

(** Segwit addresses: the encoder accepts exactly versions 0..16 and
    programs of 2..40 bytes, and, when the whole string fits the 90 characters
    the decoder allows, the decoder gives back the prefix, the version and the
    program. *)
Theorem bech32_roundtrip (uni : Unicode) (hrp program : bytes) (version : Z) :
  hrp <> [] -> forallb lower_ascii hrp = true ->
  (is_ok (bech32Encode hrp version program) = true <-> 0 <= version <= 16 /\ 2 <= zlen program <= 40) /\
  (forall s, bech32Encode hrp version program = Ok s -> zlen s <= 90 ->
   bech32Decode uni s = Ok (hrp, version, program)).
Proof.
  intros Hne Hlow. split; [apply bech32_accepts|by intros; apply bech32_encode_decode].
Qed.

Lemma bech32_roundtrip_witness :
  exists s, bech32Encode (bytes_of "bc") 0 (repeat x07 20) = Ok s /\
    bech32Decode (mkUnicode id id) s = Ok (bytes_of "bc", 0, repeat x07 20).
Proof.
  destruct (is_ok_ex (bech32Encode (bytes_of "bc") 0 (repeat x07 20))) as [s Hs]; [by vm_compute|].
  exists s. split; [exact Hs|].
  refine (proj2 (bech32_roundtrip (mkUnicode id id) (bytes_of "bc") (repeat x07 20) 0 _ _) s Hs _); [done|done|].
  assert ((zlen <$> bech32Encode (bytes_of "bc") 0 (repeat x07 20)) = Ok 42) as H by by vm_compute.
  rewrite Hs in H. unfold fmap, res_fmap in H. injection H as ->. done.
Defined.

(** BIP350's checksum constant, which the code does not use. *)
Definition BIP350_const : Z := 734539939.

(** Two ways a well-formed bech32 string is mishandled.  Every string whose
    data part is the six checksum characters alone (BIP173's valid vector
    A12UEL5L is one) crashes the decoder, whatever its prefix; and every string
    that carries the bech32m constant of BIP350, as all taproot addresses do,
    is refused as having a wrong checksum. *)
Theorem bech32_mishandled (uni : Unicode) (hrp : bytes) (data : list Z) (c : Z) :
  hrp <> [] -> forallb lower_ascii hrp = true -> digits_ok 32 data ->
  zlen hrp + zlen data + 7 <= 90 -> c = bech32Const \/ c = bech32mConst ->
  bech32Decode uni (hrp ++ [x31] ++ (bech32Char <$> bech32CreateChecksum hrp [] c)) = Panic /\
  bech32Decode uni (hrp ++ [x31] ++ (bech32Char <$> data ++ bech32CreateChecksum hrp data BIP350_const)) =
    Err "coins: bech32 checksum mismatch".
Proof.
  intros Hne Hlow Hd Hl Hc. pose proof (zlen_nonneg data). split.
  - pose proof (decode_checked uni hrp [] c Hne Hlow ltac:(constructor)) as H0. cbn [app] in H0 |- *.
    rewrite H0; [by destruct Hc as [-> | ->]|destruct Hc as [-> | ->]; unfold bech32Const, bech32mConst; lia|].
    change (zlen (@nil Z)) with 0. lia.
  - by rewrite decode_checked.
Qed.

(** The data part of BIP350's bc1p0xlxvl... vector: version 1 and the program. *)
Definition taproot_data : list Z :=
  Eval vm_compute in
    match convertBits (bytesToInts
        [x79; xbe; x66; x7e; xf9; xdc; xbb; xac; x55; xa0; x62; x95; xce; x87; x0b; x07;
         x02; x9b; xfc; xdb; x2d; xce; x28; xd9; x59; xf2; x81; x5b; x16; xf8; x17; x98]) 8 5 true with
    | Ok l => 1 :: l
    | _ => []
    end.

Lemma bech32_mishandled_witness :
  bech32Decode (mkUnicode id id) (bytes_of "a12uel5l") = Panic /\
  bech32Decode (mkUnicode id id)
    (bytes_of "bc1p0xlxvlhemja6c4dqv22uapctqupfhlxm9h8z3k2e72q4k9hcz7vqzk5jj0") =
    Err "coins: bech32 checksum mismatch".
Proof.
  split.
  - exact (proj1 (bech32_mishandled (mkUnicode id id) (bytes_of "a") [] 1 ltac:(done) eq_refl
      ltac:(constructor) ltac:(done) (or_introl eq_refl))).
  - assert (digits_ok 32 taproot_data) as Hd
      by (apply (bool_decide_unpack (Forall (fun d => 0 <= d < 32) taproot_data)); by vm_compute).
    exact (proj2 (bech32_mishandled (mkUnicode id id) (bytes_of "bc") taproot_data 1 ltac:(done) eq_refl
      Hd ltac:(done) (or_introl eq_refl))).
Defined.

(** ** CashAddr strings *)

Lemma cashaddr_string uni prefix full want :
  hrp_ok x3a prefix -> digits_ok 32 full -> want = [] \/ want = prefix ->
  8 <= zlen full -> zlen prefix + 1 + zlen full <= 110 ->
  cashaddrDecode uni (prefix ++ [x3a] ++ (bech32Char <$> full)) want =
  if negb (cashaddrVerifyChecksum prefix full) then Err "coins: cashaddr checksum mismatch"
  else
    data ← slice full 0 (zlen full - 8);
    decoded ← convertBits data 5 8 false;
    version ← index decoded 0;
    match cashaddrLenFromIndex (Z.land version 7) with
    | None => Err "coins: cashaddr invalid hash size index"
    | Some hashLenBytes =>
        if negb (Z.shiftr version 3 =? 0) && negb (Z.shiftr version 3 =? 1) then
          Err "coins: cashaddr invalid hash type"
        else if negb (zlen decoded =? 1 + hashLenBytes) then
          Err "coins: cashaddr unexpected payload length"
        else
          hash ← slice decoded 1 (1 + hashLenBytes);
          Ok (Z.shiftr version 3, intsToBytes hash)
    end.
Proof.
  intros (Hne & Hlow & Hsep) Hd Hw H8 H110. set (chars := bech32Char <$> full).
  assert (zlen chars = zlen full) as Hc by apply zlen_fmap.
  assert (0 < zlen prefix) as Hh
    by (destruct prefix as [|? p]; [done|rewrite zlen_cons; pose proof (zlen_nonneg p); lia]).
  set (s := prefix ++ [x3a] ++ chars).
  assert (zlen s = zlen prefix + 1 + zlen full) as Hs
    by (unfold s; rewrite !zlen_app, Hc; change (zlen [x3a]) with 1; lia).
  assert (ToLower uni s = s) as Hlower.
  { apply ToLower_id. unfold s, chars. rewrite !forallb_app, Hlow, (chars_lower full Hd). done. }
  unfold cashaddrDecode. rewrite !(proj2 (Z.ltb_ge _ _)) by lia. cbn [orb].
  unfold mixed_case. rewrite Hlower, bool_decide_true by done. cbn [negb andb].
  assert (IndexByte s x3a = Some (length prefix)) as -> by by apply IndexByte_app.
  rewrite (proj2 (Z.ltb_ge _ _)) by (unfold zlen in *; lia).
  assert (take (length prefix) s = prefix) as -> by (unfold s; by rewrite take_app_length).
  assert (negb (bool_decide (want = [])) && negb (bool_decide (prefix = want)) = false) as ->
    by (destruct Hw as [-> | ->]; rewrite ?andb_false_r; [done|rewrite (bool_decide_true (prefix = prefix)) by done; apply andb_false_r]).
  assert (drop (S (length prefix)) s = chars) as ->.
  { unfold s. rewrite app_assoc. apply drop_app_len. rewrite length_app. cbn. lia. }
  unfold chars. by rewrite charset_values_chars.
Qed.

Lemma cashaddr_checksum_ok prefix payload :
  digits_ok 32 (cashaddrCreateChecksum prefix payload) /\
  zlen (cashaddrCreateChecksum prefix payload) = 8.
Proof. unfold cashaddrCreateChecksum. split; [apply symbols_spec|apply symbols_length]. Qed.

Lemma size_index_inv n i : cashaddrSizeIndex n = Ok i -> 0 <= i <= 3 /\ cashaddrLenFromIndex i = Some n.
Proof.
  unfold cashaddrSizeIndex. intros H.
  repeat match type of H with
  | (if ?a =? ?b then _ else _) = _ => destruct (Z.eqb_spec a b); [subst; simplify_eq; done|]
  end. done.
Qed.

(** The version byte carries both fields. *)
Lemma version_fields t i : t = 0 \/ t = 1 -> 0 <= i <= 3 ->
  0 <= Z.lor (Z.shiftl t 3) i < 256 /\ Z.shiftr (Z.lor (Z.shiftl t 3) i) 3 = t /\
  Z.land (Z.lor (Z.shiftl t 3) i) 7 = i.
Proof.
  intros Ht Hi. assert (i = 0 \/ i = 1 \/ i = 2 \/ i = 3) as Hi' by lia.
  destruct Ht as [-> | ->], Hi' as [-> | [-> | [-> | ->]]]; done.
Qed.

Lemma cashaddr_encode_decode uni prefix hash want hashType s :
  hrp_ok x3a prefix -> zlen prefix <= 40 -> want = [] \/ want = prefix ->
  cashaddrEncode prefix hashType hash = Ok s -> cashaddrDecode uni s want = Ok (hashType, hash).
Proof.
  intros Hp Hpl Hw Hs. unfold cashaddrEncode in Hs.
  destruct (negb (hashType =? 0) && negb (hashType =? 1)) eqn:Et; [done|].
  assert (hashType = 0 \/ hashType = 1) as Ht
    by (destruct (Z.eqb_spec hashType 0), (Z.eqb_spec hashType 1); auto; done).
  apply res_bind_ok in Hs as (i & Hi & Hs). apply size_index_inv in Hi as [Hi Hlen].
  destruct (version_fields hashType i Ht Hi) as (Hv & Hv1 & Hv2).
  set (v := Z.lor (Z.shiftl hashType 3) i) in *.
  assert (digits_ok 256 (v :: bytesToInts hash)) as Hd by (apply Forall_cons_2; [done|apply digits_of_bytes]).
  destruct (convertBits_trip _ Hd) as (syms & Hc & Hsy & Hb1 & Hb2 & Hback).
  rewrite Hc in Hs. cbn [mbind res_bind] in Hs.
  assert (s = prefix ++ [x3a] ++ (bech32Char <$> syms ++ cashaddrCreateChecksum prefix syms)) as -> by congruence.
  destruct (cashaddr_checksum_ok prefix syms) as [Hck Hcl].
  assert (zlen hash <= 32) as Hh.
  { unfold cashaddrLenFromIndex in Hlen.
    repeat match type of Hlen with (if ?c then _ else _) = _ => destruct c; [simplify_eq; lia|] end. done. }
  rewrite zlen_cons in Hb1, Hb2. unfold bytesToInts in Hb1, Hb2. rewrite zlen_fmap in Hb1, Hb2.
  pose proof (zlen_nonneg syms).
  rewrite cashaddr_string by first [done|rewrite zlen_app, Hcl; lia|by apply Forall_app].
  rewrite cashaddr_checksum_verifies by done. cbn [negb].
  rewrite slice_pre by (rewrite zlen_app, Hcl; lia). cbn [mbind res_bind].
  rewrite Hback. cbn [mbind res_bind].
  pose proof (index_mid [] v (bytesToInts hash)) as Hix. cbn [app] in Hix. change (zlen []) with 0 in Hix.
  rewrite Hix. cbn [mbind res_bind]. rewrite Hv1, Hv2, Hlen, Et.
  assert (zlen (v :: bytesToInts hash) = 1 + zlen hash) as Hvl
    by (rewrite zlen_cons; unfold bytesToInts; by rewrite zlen_fmap).
  rewrite Hvl, Z.eqb_refl. cbn [negb].
  pose proof (slice_post [v] (bytesToInts hash) 1 eq_refl) as Hsl. cbn [app] in Hsl. rewrite Hvl in Hsl.
  rewrite Hsl. cbn [mbind res_bind]. unfold intsToBytes, bytesToInts. by rewrite of_Z_unsigned_map.
Qed.

Lemma cashaddr_accepts prefix hashType hash :
  is_ok (cashaddrEncode prefix hashType hash) = true <->
  (hashType = 0 \/ hashType = 1) /\
  (zlen hash = 20 \/ zlen hash = 24 \/ zlen hash = 28 \/ zlen hash = 32).
Proof.
  unfold cashaddrEncode, cashaddrSizeIndex. split.
  - destruct (Z.eqb_spec hashType 0), (Z.eqb_spec hashType 1); cbn [negb andb]; try done; intros H;
      repeat match type of H with
      | context [if ?a =? ?b then _ else _] => destruct (Z.eqb_spec a b); [auto 10|]
      end; done.
  - intros [Ht Hl]. assert (negb (hashType =? 0) && negb (hashType =? 1) = false) as ->
      by (destruct Ht as [-> | ->]; done).
    assert (exists i, cashaddrSizeIndex (zlen hash) = Ok i) as [i Hi].
    { unfold cashaddrSizeIndex. destruct Hl as [-> | [-> | [-> | ->]]]; eauto. }
    fold (cashaddrSizeIndex (zlen hash)). rewrite Hi. cbn [mbind res_bind].
    apply size_index_inv in Hi as [Hi _]. destruct (version_fields hashType i Ht Hi) as (Hv & _).
    destruct (convertBits_trip (Z.lor (Z.shiftl hashType 3) i :: bytesToInts hash)) as (syms & -> & _);
      [apply Forall_cons_2; [done|apply digits_of_bytes]|]. done.
Qed.

(** CashAddr: the encoder accepts exactly the types 0 and 1 and hashes of 20,
    24, 28 or 32 bytes, and the decoder gives back the type and the hash when
    it expects that prefix or any.  The checksum symbols alone, with no
    payload, crash the decoder. *)
Theorem cashaddr_roundtrip (uni : Unicode) (prefix hash want : bytes) (hashType : Z) :
  hrp_ok x3a prefix -> zlen prefix <= 40 -> want = [] \/ want = prefix ->
  (is_ok (cashaddrEncode prefix hashType hash) = true <->
   (hashType = 0 \/ hashType = 1) /\
   (zlen hash = 20 \/ zlen hash = 24 \/ zlen hash = 28 \/ zlen hash = 32)) /\
  (forall s, cashaddrEncode prefix hashType hash = Ok s ->
   cashaddrDecode uni s want = Ok (hashType, hash)) /\
  cashaddrDecode uni (prefix ++ [x3a] ++ (bech32Char <$> cashaddrCreateChecksum prefix [])) want = Panic.
Proof.
  intros Hp Hpl Hw. split_and!.
  - apply cashaddr_accepts.
  - intros s Hs. by apply (cashaddr_encode_decode _ prefix).
  - destruct (cashaddr_checksum_ok prefix []) as [Hck Hcl]. pose proof (zlen_nonneg prefix).
    rewrite cashaddr_string by first [done|rewrite Hcl; lia].
    pose proof (cashaddr_checksum_verifies prefix [] ltac:(constructor)) as Hver. cbn [app] in Hver.
    rewrite Hver. cbn [negb]. rewrite Hcl. change (8 - 8) with 0.
    pose proof (slice_pre [] (cashaddrCreateChecksum prefix []) 0 eq_refl) as Hsl. cbn [app] in Hsl.
    by rewrite Hsl.
Qed.

Lemma cashaddr_roundtrip_witness :
  exists s, cashaddrEncode (bytes_of "bitcoincash") 1 (repeat x07 20) = Ok s /\
    cashaddrDecode (mkUnicode id id) s [] = Ok (1, repeat x07 20).
Proof.
  destruct (is_ok_ex (cashaddrEncode (bytes_of "bitcoincash") 1 (repeat x07 20))) as [s Hs]; [by vm_compute|].
  exists s. split; [exact Hs|].
  refine (proj1 (proj2 (cashaddr_roundtrip (mkUnicode id id) (bytes_of "bitcoincash") (repeat x07 20) [] 1 _ _ _)) s Hs).
  - apply (bool_decide_unpack (hrp_ok x3a (bytes_of "bitcoincash"))). by vm_compute.
  - done.
  - by left.
Defined.
