(* ===== verification/Address.v ===== *)
(** * coins/address.go: addresses of a coin

    [decodeAddress] tries, in the code's order, CashAddr alone for the Bitcoin
    Cash family, and base58check, then segwit for the others;
    [Address_String] is the inverse. *)

From S2P Require Import Prelude Sha256 Codec Bodies Packet Wire Digits GoLib Conf Coin Base58 Bech32.

Inductive AddressKind := P2PKH | P2SH | P2WPKH | P2WSH | P2TR.
#[export] Instance AddressKind_eq_dec : EqDecision AddressKind.
Proof. solve_decision. Defined.

Record Address := mkAddress {
  A_Coin : Coin;
  A_Kind : AddressKind;
  A_Prefix : byte;
  A_Hash : bytes;
  A_WitnessVersion : Z
}.

(** [a.ID()]; [None] is [false]. *)
Definition Address_ID (a : Address) : option bytes :=
  if negb (zlen (A_Hash a) =? 20) then None else Some (A_Hash a).

(** The text of a result, [""] on an error. *)
Definition or_empty (r : res bytes) : res bytes :=
  match r with Ok s => Ok s | Err _ => Ok [] | Panic => Panic end.

Definition Address_String (a : Address) : res bytes :=
  match A_Kind a with
  | P2PKH | P2SH =>
      if decide (family (A_Coin a) = FamilyUTXOBCH) then
        let typ := if decide (A_Kind a = P2SH) then 1 else 0 in
        or_empty (cashaddrEncode (CashAddrPrefix (A_Coin a)) typ (A_Hash a))
      else Ok (base58CheckEncode (A_Prefix a) (A_Hash a))
  | P2WPKH | P2WSH | P2TR =>
      or_empty (bech32Encode (Bech32HRP (A_Coin a)) (A_WitnessVersion a) (A_Hash a))
  end.

Section Decode.
Context (uni : Unicode).

(** The segwit attempt: [None] falls through to the last error. *)
Definition decode_segwit (c : Coin) (s : bytes) : res (option Address) :=
  if SegWit c && negb (bool_decide (Bech32HRP c = [])) then
    match bech32Decode uni s with
    | Panic => Panic
    | Err _ => Ok None
    | Ok (hrp, ver, prog) =>
        if bool_decide (hrp = Bech32HRP c) then
          if (ver =? 0) && (zlen prog =? 20) then Ok (Some (mkAddress c P2WPKH x00 prog 0))
          else if (ver =? 0) && (zlen prog =? 32) then Ok (Some (mkAddress c P2WSH x00 prog 0))
          else if (ver =? 1) && (zlen prog =? 32) then Ok (Some (mkAddress c P2TR x00 prog 1))
          else Err "coins: unsupported segwit program"
        else Ok None
    end
  else Ok None.

Definition decodeAddress (c : Coin) (s : bytes) : res Address :=
  if bool_decide (s = []) then Err "coins: empty address"
  else if decide (family c = FamilyUTXOBCH) then
    '(typ, h) ← cashaddrDecode uni s (CashAddrPrefix c);
    Ok (mkAddress c (if typ =? 1 then P2SH else P2PKH) x00 h 0)
  else
    match base58CheckDecode s with
    | Panic => Panic
    | Ok (prefix, payload) =>
        if byte_eq_dec prefix (P2PKH_version c) then Ok (mkAddress c P2PKH prefix payload 0)
        else if byte_eq_dec prefix (P2SH_version c) then Ok (mkAddress c P2SH prefix payload 0)
        else Err "coins: address version byte does not match coin"
    | Err _ =>
        a ← decode_segwit c s;
        match a with
        | Some a => Ok a
        | None => errf [bytes_of "coins: address is not valid for "; Ticker c]
        end
    end.

(** ** Round trip *)

(** The addresses a coin has: the version byte and hash of each kind.  The hash
    of a base58check address may have any length: nothing checks it. *)
Definition address_of (c : Coin) (a : Address) : Prop :=
  A_Coin a = c /\
  match family c, A_Kind a with
  | FamilyUTXOBCH, (P2PKH | P2SH) =>
      hrp_ok x3a (CashAddrPrefix c) /\ zlen (CashAddrPrefix c) <= 40 /\
      A_Prefix a = x00 /\ A_WitnessVersion a = 0 /\
      (zlen (A_Hash a) = 20 \/ zlen (A_Hash a) = 24 \/ zlen (A_Hash a) = 28 \/ zlen (A_Hash a) = 32)
  | FamilyUTXOBTC, P2PKH => A_Prefix a = P2PKH_version c /\ A_WitnessVersion a = 0
  | FamilyUTXOBTC, P2SH =>
      A_Prefix a = P2SH_version c /\ P2SH_version c <> P2PKH_version c /\ A_WitnessVersion a = 0
  | FamilyUTXOBTC, k =>
      SegWit c = true /\ Bech32HRP c <> [] /\ forallb lower_ascii (Bech32HRP c) = true /\
      A_Prefix a = x00 /\
      match k with
      | P2WPKH => A_WitnessVersion a = 0 /\ zlen (A_Hash a) = 20
      | P2WSH => A_WitnessVersion a = 0 /\ zlen (A_Hash a) = 32
      | _ => A_WitnessVersion a = 1 /\ zlen (A_Hash a) = 32
      end
  | _, _ => False
  end.

(** Segwit kinds only. *)
Definition is_segwit (k : AddressKind) : bool :=
  match k with P2WPKH | P2WSH | P2TR => true | _ => false end.

Lemma base58CheckEncode_ne p pl : base58CheckEncode p pl <> [].
Proof.
  intros H. unfold base58CheckEncode in H.
  pose proof (base58_decode_encode ((p :: pl) ++ checksum (p :: pl))) as Hd. rewrite H in Hd.
  specialize (Hd ltac:(done)). by change (base58Decode []) with (Ok (@nil byte)) in Hd.
Qed.

Lemma base58CheckDecode_encode p pl :
  zlen (base58CheckEncode p pl) <= 128 -> base58CheckDecode (base58CheckEncode p pl) = Ok (p, pl).
Proof.
  intros H. rewrite base58CheckDecode_bytes. unfold base58CheckEncode in *.
  rewrite base58_decode_encode by done. cbn [mbind res_bind].
  rewrite check_bytes_split by apply checksum_length. by rewrite bool_decide_true.
Qed.

Lemma bech32_string_ne hrp v prog s : bech32Encode hrp v prog = Ok s -> s <> [].
Proof.
  unfold bech32Encode. intros H. destruct (_ || _); [done|]. destruct (_ || _); [done|].
  apply res_bind_ok in H as (syms & _ & H). injection H as <-. by destruct hrp.
Qed.

Lemma cashaddr_string_ne prefix t h s : cashaddrEncode prefix t h = Ok s -> s <> [].
Proof.
  unfold cashaddrEncode. intros H. destruct (_ && _); [done|].
  apply res_bind_ok in H as (i & _ & H). apply res_bind_ok in H as (syms & _ & H).
  injection H as <-. by destruct prefix.
Qed.

(** The segwit kinds: version and program length of each. *)
Lemma segwit_string c a s :
  family c = FamilyUTXOBTC -> address_of c a -> is_segwit (A_Kind a) = true ->
  Address_String a = Ok s -> zlen s <= 90 ->
  s <> [] /\ decode_segwit c s = Ok (Some a).
Proof.
  intros Hf [Hc Ha] Hk Hs Hl. destruct a as [c' k p h v]. cbn in Hc. subst c'.
  cbn [A_Kind A_Hash A_Prefix A_WitnessVersion] in *. rewrite Hf in Ha.
  assert (SegWit c = true /\ Bech32HRP c <> [] /\ forallb lower_ascii (Bech32HRP c) = true /\ p = x00 /\
    0 <= v <= 16 /\ 2 <= zlen h <= 40) as (Hsw & Hne & Hlow & -> & Hv & Hh).
  { destruct k; try done; destruct Ha as (H1 & H2 & H3 & H4 & -> & H6); split_and!; try done; lia. }
  assert (bech32Encode (Bech32HRP c) v h = Ok s) as He.
  { destruct (is_ok_ex (bech32Encode (Bech32HRP c) v h)) as [s' E]; [by apply bech32_accepts|].
    unfold Address_String in Hs. cbn [A_Kind A_Coin A_Hash A_WitnessVersion] in Hs. rewrite E in Hs |- *.
    destruct k; try done; injection Hs as ->; done. }
  split; [by eapply bech32_string_ne|].
  unfold decode_segwit. rewrite Hsw, (bool_decide_false (Bech32HRP c = [])) by done. cbn [negb andb].
  rewrite (bech32_encode_decode uni _ _ _ _ Hne Hlow He Hl), bool_decide_true by done.
  destruct k; try done; destruct Ha as (_ & _ & _ & _ & -> & ->); done.
Qed.

(** Every address a coin has reads back from its printed form: for the
    Bitcoin Cash family through CashAddr, for base58check addresses of any
    hash length, and for segwit addresses of at most 90 characters that are
    not also base58check strings. *)
Theorem address_roundtrip (c : Coin) (a : Address) (s : bytes) :
  address_of c a -> Address_String a = Ok s ->
  (family c = FamilyUTXOBTC -> is_segwit (A_Kind a) = false -> zlen s <= 128) ->
  (is_segwit (A_Kind a) = true -> zlen s <= 90 /\ is_err (base58CheckDecode s) = true) ->
  decodeAddress c s = Ok a.
Proof.
  intros Ha Hs Hlen Hseg. unfold decodeAddress.
  destruct (family c) eqn:Ef; [rewrite decide_False by done|rewrite decide_True by done].
  - destruct (is_segwit (A_Kind a)) eqn:Ek.
    + destruct (Hseg eq_refl) as [Hl He]. destruct (segwit_string c a s Ef Ha Ek Hs Hl) as [Hne Hd].
      rewrite bool_decide_false by done. destruct (base58CheckDecode s); try done. by rewrite Hd.
    + destruct Ha as [Hc Ha]. destruct a as [c' k p h v]. cbn in Hc. subst c'. rewrite Ef in Ha.
      unfold Address_String in Hs. cbn [A_Kind A_Coin A_Hash A_Prefix A_WitnessVersion] in *.
      rewrite Ef, decide_False in Hs by done.
      assert (s = base58CheckEncode p h) as -> by (destruct k; try done; by injection Hs).
      rewrite bool_decide_false by apply base58CheckEncode_ne.
      rewrite base58CheckDecode_encode by auto. destruct k; try done.
      * destruct Ha as [-> ->]. by destruct (byte_eq_dec _ _).
      * destruct Ha as (-> & Hne & ->). destruct (byte_eq_dec _ _); [done|]. by destruct (byte_eq_dec _ _).
  - destruct Ha as [Hc Ha]. destruct a as [c' k p h v]. cbn in Hc. subst c'. rewrite Ef in Ha.
    unfold Address_String in Hs. cbn [A_Kind A_Coin A_Hash A_Prefix A_WitnessVersion] in *.
    rewrite Ef, decide_True in Hs by done.
    assert (forall t, t = 0 \/ t = 1 -> hrp_ok x3a (CashAddrPrefix c) /\ zlen (CashAddrPrefix c) <= 40 /\
      (zlen h = 20 \/ zlen h = 24 \/ zlen h = 28 \/ zlen h = 32) ->
      or_empty (cashaddrEncode (CashAddrPrefix c) t h) = Ok s ->
      s <> [] /\ cashaddrDecode uni s (CashAddrPrefix c) = Ok (t, h)) as Hcash.
    { intros t Ht (Hp & Hpl & Hh) Hstr.
      destruct (is_ok_ex (cashaddrEncode (CashAddrPrefix c) t h)) as [s' E]; [by apply cashaddr_accepts|].
      rewrite E in Hstr. injection Hstr as ->. split; [by eapply cashaddr_string_ne|].
      eapply cashaddr_encode_decode; [exact Hp|exact Hpl|by right|exact E]. }
    destruct k; try done; destruct Ha as (Hp & Hpl & -> & -> & Hh).
    + destruct (Hcash 0) as [Hne Hd]; [by left|done|done|]. by rewrite bool_decide_false, Hd.
    + destruct (Hcash 1) as [Hne Hd]; [by right|done|done|]. by rewrite bool_decide_false, Hd.
Qed.
End Decode.

Definition sample_address : Address := mkAddress sample_coin P2PKH x00 sample_hash 0.

Lemma address_roundtrip_witness :
  decodeAddress no_unicode sample_coin sample_b58_address = Ok sample_address.
Proof.
  apply address_roundtrip.
  - split; [done|]. split; done.
  - by vm_compute.
  - intros _ _. by vm_compute.
  - done.
Defined.
