(* ===== verification/Script.v ===== *)
(** * coins/script.go, coins/htlc.go: scripts, and what they mean

    The builders of the deposit, refund and payment scripts, and
    [secretFromScriptSig] of api/swap.go, which reads the secret back out of a
    counterparty's spend.  RIPEMD-160 is third-party code: the argument
    [ripemd160], of which the theorems use that it returns 20 bytes.

    The Module [Interp] is the specification the builders are proved against:
    the rules of Bitcoin script execution for the opcodes these scripts use
    (BIP16 pushes, BIP65 CHECKLOCKTIMEVERIFY), with signature checking as a
    parameter. *)

From S2P Require Import Prelude Sha256 Codec Bodies Packet Wire Peer Digits GoLib.

Definition Op0 : Z := 0.
Definition Op1 : Z := 81.
Definition OpIf : Z := 99.
Definition OpElse : Z := 103.
Definition OpEndIf : Z := 104.
Definition OpDrop : Z := 117.
Definition OpDup : Z := 118.
Definition OpSize : Z := 130.
Definition OpEqual : Z := 135.
Definition OpEqualVerify : Z := 136.
Definition OpHash160 : Z := 169.
Definition OpCheckSig : Z := 172.
Definition OpCheckSigVerify : Z := 173.
Definition OpCheckLockTimeVerify : Z := 177.
Definition OpReturn : Z := 106.
Definition OpPushData1 : Z := 76.
Definition OpPushData2 : Z := 77.
Definition OpPushData4 : Z := 78.

Definition op_byte (o : Z) : bytes := [byte.of_Z o].

Definition pushData (b : bytes) : bytes :=
  let n := zlen b in
  if n =? 0 then op_byte Op0
  else if n <=? 75 then op_byte n ++ b
  else if n <=? 255 then op_byte OpPushData1 ++ op_byte n ++ b
  else if n <=? 65535 then op_byte OpPushData2 ++ le_split 2 n ++ b
  else op_byte OpPushData4 ++ le_split 4 (wrap 32 n) ++ b.

(** The bytes of a magnitude, least significant first: the loop
    [for v > 0 { buf = append(buf, v&0xff); v >>= 8 }]. *)
Definition magnitude (v : Z) : bytes := byte.of_Z <$> le_digits (digits_fuel v) 256 v.

(** An [int64] argument. [v = -v] overflows on the least one, which leaves the
    buffer empty and makes the index of its last byte panic. *)
Definition pushNum (n : Z) : res bytes :=
  if n =? -1 then Ok [x4f]
  else if n =? 0 then Ok (op_byte Op0)
  else if (1 <=? n) && (n <=? 16) then Ok (op_byte (Op1 + (n - 1)))
  else
    let neg := n <? 0 in
    let v := if neg then swrap64 (- n) else n in
    let buf := magnitude v in
    top ← index buf (zlen buf - 1);
    let top := byte.unsigned top in
    let init := take (length buf - 1) buf in
    let buf :=
      if negb (Z.land top 128 =? 0) then buf ++ [if neg then x80 else x00]
      else if neg then init ++ [byte.of_Z (Z.lor top 128)]
      else buf in
    Ok (pushData buf).

Definition BuildP2PKHScript (pubKeyHash : bytes) : bytes :=
  op_byte OpDup ++ op_byte OpHash160 ++ pushData pubKeyHash ++ op_byte OpEqualVerify ++ op_byte OpCheckSig.

Definition BuildP2SHScript (scriptHash : bytes) : bytes :=
  op_byte OpHash160 ++ pushData scriptHash ++ op_byte OpEqual.

Definition BuildOpReturnScript (data : bytes) : bytes := op_byte OpReturn ++ pushData data.

Definition BuildRefundScriptSig (sig myPubKey innerScript : bytes) : bytes :=
  pushData sig ++ pushData myPubKey ++ op_byte Op1 ++ pushData innerScript.

Definition BuildPaymentScriptSig (xPubKey sig myPubKey innerScript : bytes) : bytes :=
  pushData xPubKey ++ pushData sig ++ pushData myPubKey ++ op_byte Op0 ++ pushData innerScript.

Section Hashing.
Context (ripemd160 : bytes -> bytes).

Definition KeyID (pubKey : bytes) : bytes := ripemd160 (Sum256 pubKey).

Definition BuildDepositUnlockScript (myPubKey otherPubKey secretHash : bytes) (lockTime : Z) : res bytes :=
  let myID := KeyID myPubKey in
  let otherID := KeyID otherPubKey in
  lt ← pushNum lockTime;
  size ← pushNum 33;
  Ok (op_byte OpIf ++
      lt ++
      op_byte OpCheckLockTimeVerify ++ op_byte OpDrop ++
      op_byte OpDup ++ op_byte OpHash160 ++
      pushData myID ++
      op_byte OpEqualVerify ++ op_byte OpCheckSig ++
      op_byte OpElse ++
      op_byte OpDup ++ op_byte OpHash160 ++
      pushData otherID ++
      op_byte OpEqualVerify ++ op_byte OpCheckSigVerify ++
      op_byte OpSize ++
      size ++
      op_byte OpEqualVerify ++ op_byte OpHash160 ++
      pushData secretHash ++
      op_byte OpEqual ++
      op_byte OpEndIf).

(** The scan of [secretFromScriptSig] from position [i]; every turn consumes a
    byte at least, so the script's length is fuel enough. [None] is [false]. *)
Fixpoint scan_secret (fuel : nat) (script hx : bytes) : option bytes :=
  match fuel with
  | O => None
  | S fuel =>
      match script with
      | [] => None
      | op :: script =>
          let op := byte.unsigned op in
          let sized (n : Z) (script : bytes) :=
            if zlen script <? n then None
            else
              let push := take (Z.to_nat n) script in
              if (n =? 33) && bool_decide (KeyID push = hx) then Some push
              else scan_secret fuel (drop (Z.to_nat n) script) hx in
          if op <=? 75 then sized op script
          else if op =? 76 then
            match script with
            | [] => None
            | n :: script => sized (byte.unsigned n) script
            end
          else if op =? 77 then
            match script with
            | lo :: hi :: script => sized (Z.lor (byte.unsigned lo) (Z.shiftl (byte.unsigned hi) 8)) script
            | _ => None
            end
          else scan_secret fuel script hx
      end
  end.

Definition secretFromScriptSig (script hx : bytes) : option bytes :=
  scan_secret (length script) script hx.
End Hashing.

(** ** Script execution *)

Module Interp.

Inductive op := Push (d : bytes) | Code (c : Z).

(** One operation off the front of a script; [None] is a truncated push. *)
Definition next_op (s : bytes) : option (option (op * bytes)) :=
  match s with
  | [] => Some None
  | c :: s =>
      let c := byte.unsigned c in
      let sized (n : Z) (s : bytes) :=
        if zlen s <? n then None else Some (Some (Push (take (Z.to_nat n) s), drop (Z.to_nat n) s)) in
      if c <=? 75 then sized c s
      else if c =? 76 then if zlen s <? 1 then None else sized (le_at 1 s 0) (drop 1 s)
      else if c =? 77 then if zlen s <? 2 then None else sized (le_at 2 s 0) (drop 2 s)
      else if c =? 78 then if zlen s <? 4 then None else sized (le_at 4 s 0) (drop 4 s)
      else Some (Some (Code c, s))
  end.

Fixpoint parse (fuel : nat) (s : bytes) : option (list op) :=
  match fuel with
  | O => match s with [] => Some [] | _ => None end
  | S fuel =>
      match next_op s with
      | None => None
      | Some None => Some []
      | Some (Some (o, s)) => l ← parse fuel s; Some (o :: l)
      end
  end.

Definition ops (s : bytes) : option (list op) := parse (length s) s.

(** [CastToBool]: some byte is not zero, other than a lone sign bit. *)
Fixpoint truth (v : bytes) : bool :=
  match v with
  | [] => false
  | [b] => negb (bool_decide (b = x00)) && negb (bool_decide (b = x80))
  | b :: v => negb (bool_decide (b = x00)) || truth v
  end.

(** [CScriptNum]: little-endian, sign in the top bit of the last byte. *)
Definition num (v : bytes) : Z :=
  match rev v with
  | [] => 0
  | top :: _ =>
      let n := le_combine v in
      if byte.unsigned top <? 128 then n
      else - (n - 128 * 256 ^ (zlen v - 1))
  end.

Definition num_bytes (n : Z) : bytes :=
  let v := magnitude (Z.abs n) in
  match rev v with
  | [] => []
  | top :: low =>
      if byte.unsigned top <? 128 then
        if n <? 0 then rev low ++ [byte.of_Z (byte.unsigned top + 128)] else v
      else v ++ [if n <? 0 then x80 else x00]
  end.

Section Exec.
(** Signature checks, the spending transaction's lock time and the sequence of
    the input, and the hash. *)
Context (checksig : bytes -> bytes -> bool) (txLockTime txSequence : Z) (hash160 : bytes -> bytes).

(** BIP65. *)
Definition cltv_ok (n : Z) : bool :=
  (0 <=? n) && Bool.eqb (n <? 500000000) (txLockTime <? 500000000) && (n <=? txLockTime) &&
  negb (txSequence =? 4294967295).

Definition of_bool (b : bool) : bytes := if b then [x01] else [].

(** Operations outside the conditionals, on the stack (top first). *)
Definition exec_code (c : Z) (st : list bytes) : option (list bytes) :=
  if (81 <=? c) && (c <=? 96) then Some ([byte.of_Z (c - 80)] :: st)
  else if c =? 79 then Some ([x81] :: st)
  else if c =? 117 then match st with _ :: st => Some st | _ => None end
  else if c =? 118 then match st with a :: st => Some (a :: a :: st) | _ => None end
  else if c =? 130 then match st with a :: st => Some (num_bytes (zlen a) :: a :: st) | _ => None end
  else if c =? 135 then
    match st with a :: b :: st => Some (of_bool (bool_decide (a = b)) :: st) | _ => None end
  else if c =? 136 then
    match st with a :: b :: st => if bool_decide (a = b) then Some st else None | _ => None end
  else if c =? 169 then match st with a :: st => Some (hash160 a :: st) | _ => None end
  else if c =? 172 then
    match st with pk :: sig :: st => Some (of_bool (checksig sig pk) :: st) | _ => None end
  else if c =? 173 then
    match st with pk :: sig :: st => if checksig sig pk then Some st else None | _ => None end
  else if c =? 177 then
    match st with
    | a :: st => if (zlen a <=? 5) && cltv_ok (num a) then Some (a :: st) else None
    | _ => None
    end
  else None.

(** [conds]: the open conditionals, innermost first. *)
Fixpoint exec (l : list op) (conds : list bool) (st : list bytes) : option (list bytes) :=
  match l with
  | [] => match conds with [] => Some st | _ => None end
  | o :: l =>
      let live := forallb id conds in
      match o with
      | Push d => exec l conds (if live then d :: st else st)
      | Code c =>
          if c =? 99 then
            if live then match st with a :: st => exec l (truth a :: conds) st | _ => None end
            else exec l (false :: conds) st
          else if c =? 103 then match conds with b :: conds => exec l (negb b :: conds) st | _ => None end
          else if c =? 104 then match conds with _ :: conds => exec l conds st | _ => None end
          else if live then match exec_code c st with Some st => exec l conds st | None => None end
          else exec l conds st
      end
  end.

(** A redeem script accepts a stack. *)
Definition accepts (script : bytes) (st : list bytes) : bool :=
  match ops script with
  | Some l =>
      match exec l [] st with
      | Some (top :: _) => truth top
      | _ => false
      end
  | None => false
  end.

(** BIP16: the input script of a P2SH output is pushes alone (OP_1 counts); the
    last is the redeem script, whose hash the output commits to, and the rest
    is its stack. *)
Definition is_push (o : op) : bool :=
  match o with Push _ => true | Code c => (c =? 79) || ((81 <=? c) && (c <=? 96)) end.

Definition spends_p2sh (scriptHash scriptSig : bytes) : bool :=
  match ops scriptSig with
  | Some l =>
      forallb is_push l &&
      match exec l [] [] with
      | Some (redeem :: st) => bool_decide (hash160 redeem = scriptHash) && accepts redeem st
      | _ => false
      end
  | None => false
  end.
End Exec.
End Interp.

(** ** Numbers *)

Lemma le_combine_of_le l : le_combine l = of_le 256 (byte.unsigned <$> l).
Proof.
  induction l as [|b l IH]; [done|]. rewrite fmap_cons. cbn [of_le].
  change (le_combine (b :: l)) with (Z.lor (byte.unsigned b) (Z.shiftl (le_combine l) 8)).
  rewrite IH, Z.lor_comm. rewrite (proj2 (shiftl_plus _ 8 (byte.unsigned b) ltac:(lia) (byte_unsigned_ok b))). lia.
Qed.

Lemma magnitude_combine v : 0 <= v -> le_combine (magnitude v) = v.
Proof.
  intros Hv. unfold magnitude. rewrite le_combine_of_le, unsigned_of_Z_map by (apply le_digits_ok; lia).
  apply of_le_digits; [lia|done|]. by apply fuel_enough.
Qed.

Lemma magnitude_last v b : 0 <= v -> last (magnitude v) = Some b -> 1 <= byte.unsigned b < 256.
Proof.
  intros Hv H. unfold magnitude in H. rewrite fmap_last in H.
  apply fmap_Some in H as (d & Hd & ->).
  pose proof (le_digits_last 256 ltac:(lia) _ v Hv (fuel_enough v Hv)) as Hne.
  pose proof (le_digits_ok 256 ltac:(lia) (digits_fuel v) v) as Hok. unfold digits_ok in Hok. rewrite Forall_forall in Hok.
  assert (0 <= d < 256) as Hd' by (apply Hok; by apply last_Some_elem_of).
  rewrite byte_of_Z_small by exact Hd'. destruct (Z.eq_dec d 0); [by subst|lia].
Qed.

Lemma magnitude_snoc v : 0 < v -> exists low top, magnitude v = low ++ [top] /\ 1 <= byte.unsigned top < 256.
Proof.
  intros Hv. destruct (magnitude v) as [|b m] eqn:E using rev_ind.
  - apply (f_equal le_combine) in E. rewrite magnitude_combine in E by lia.
    change (le_combine []) with 0 in E. lia.
  - clear IHm. exists m, b. split; [done|]. apply (magnitude_last v); [lia|]. rewrite E. apply last_snoc.
Qed.

Lemma magnitude_length v k : 0 <= v < 256 ^ Z.of_nat k -> (length (magnitude v) <= k)%nat.
Proof.
  intros Hv. unfold magnitude. rewrite length_fmap.
  pose proof (to_digits_length 256 ltac:(lia) v k Hv) as H. unfold to_digits in H. by rewrite length_rev in H.
Qed.

Lemma le_combine_zero_top l : le_combine (l ++ [x00]) = le_combine l.
Proof.
  rewrite !le_combine_of_le, fmap_app. cbn. induction (byte.unsigned <$> l) as [|d k IH]; [done|]. cbn. by rewrite IH.
Qed.

Lemma num_num_bytes n : 0 <= n -> Interp.num (Interp.num_bytes n) = n.
Proof.
  intros Hn. unfold Interp.num_bytes. rewrite Z.abs_eq by done.
  destruct (Z.eq_dec n 0) as [->|]; [done|].
  destruct (magnitude_snoc n) as (low & top & E & Ht); [lia|].
  rewrite E, rev_app_distr. cbn [rev app]. rewrite (proj2 (Z.ltb_ge n 0)) by lia.
  unfold Interp.num. destruct (Z.ltb_spec (byte.unsigned top) 128).
  - rewrite rev_app_distr. cbn [rev app]. rewrite (proj2 (Z.ltb_lt _ _)) by lia.
    rewrite <- E. apply magnitude_combine. lia.
  - rewrite rev_app_distr. cbn [rev app]. change (byte.unsigned x00 <? 128) with true. cbv iota.
    rewrite le_combine_zero_top, <- E. apply magnitude_combine. lia.
Qed.

(** Above 16 the code's number push is the push of the script number. *)
Lemma pushNum_eq n : 16 < n < 2 ^ 63 -> pushNum n = Ok (pushData (Interp.num_bytes n)).
Proof.
  intros Hn. unfold pushNum, Interp.num_bytes.
  rewrite !(proj2 (Z.eqb_neq _ _)) by lia. rewrite (proj2 (Z.leb_gt n 16)), andb_false_r by lia.
  rewrite (proj2 (Z.ltb_ge n 0)) by lia. cbv zeta iota. rewrite Z.abs_eq by lia.
  destruct (magnitude_snoc n) as (low & top & E & Ht); [lia|]. rewrite E.
  replace (zlen (low ++ [top]) - 1) with (zlen low) by (rewrite zlen_app; change (zlen [top]) with 1; lia).
  rewrite index_mid. cbn [mbind res_bind]. rewrite rev_app_distr. cbn [rev app].
  f_equal. f_equal.
  assert ((Z.land (byte.unsigned top) 128 =? 0) = (byte.unsigned top <? 128)) as ->; [|by destruct (_ <? _)].
  clear -Ht. assert (Forall (fun t => (Z.land t 128 =? 0) = (t <? 128)) (Z.of_nat <$> seq 0 256)) as H.
  { apply (bool_decide_unpack (Forall _ _)). by vm_compute. }
  rewrite Forall_forall in H. apply H. apply list_elem_of_fmap. exists (Z.to_nat (byte.unsigned top)).
  split; [lia|]. apply elem_of_seq. lia.
Qed.

(** ** Parsing what the builders emit *)

Lemma le_at_0 n m rest : length m = n -> le_at n (m ++ rest) 0 = le_combine m.
Proof. intros H. exact (le_at_mid n [] m rest 0 eq_refl H). Qed.

Lemma next_op_zero rest : Interp.next_op (op_byte 0 ++ rest) = Some (Some (Interp.Push [], rest)).
Proof.
  change (op_byte 0) with [x00]. pose proof (zlen_nonneg rest).
  cbn [app Interp.next_op]. change (byte.unsigned x00) with 0. change (0 <=? 75) with true. cbv iota.
  by rewrite (proj2 (Z.ltb_ge (zlen rest) 0)).
Qed.

Lemma next_op_pushData d rest :
  zlen d < 2 ^ 32 -> Interp.next_op (pushData d ++ rest) = Some (Some (Interp.Push d, rest)).
Proof.
  intros Hd. pose proof (zlen_nonneg d). pose proof (zlen_nonneg rest).
  assert (forall c, 0 <= c < 256 -> byte.unsigned (byte.of_Z c) = c) as Hc by (intros; by apply byte_of_Z_small).
  assert (take (Z.to_nat (zlen d)) (d ++ rest) = d /\ drop (Z.to_nat (zlen d)) (d ++ rest) = rest) as [Ht Hdr].
  { unfold zlen. rewrite Nat2Z.id. by rewrite take_app_length, drop_app_length. }
  unfold pushData, op_byte, Op0, OpPushData1, OpPushData2, OpPushData4.
  destruct (Z.eqb_spec (zlen d) 0) as [E|].
  { destruct d; [|unfold zlen in E; cbn in E; lia]. apply next_op_zero. }
  destruct (Z.leb_spec (zlen d) 75); [|destruct (Z.leb_spec (zlen d) 255); [|destruct (Z.leb_spec (zlen d) 65535)]];
    cbn [app Interp.next_op]; rewrite Hc by lia.
  - rewrite (proj2 (Z.leb_le _ _)) by lia. rewrite (proj2 (Z.ltb_ge _ _)) by (rewrite zlen_app; lia).
    by rewrite Ht, Hdr.
  - cbn [Z.leb Z.eqb Z.compare Pos.compare Pos.compare_cont Pos.eqb].
    rewrite (proj2 (Z.ltb_ge _ 1)) by (rewrite zlen_cons, zlen_app; lia).
    change (drop 1 (byte.of_Z (zlen d) :: d ++ rest)) with (d ++ rest).
    assert (le_at 1 (byte.of_Z (zlen d) :: d ++ rest) 0 = zlen d) as ->.
    { etransitivity; [apply (le_at_0 1 [byte.of_Z (zlen d)] (d ++ rest)); done|]. rewrite le_combine_of_le. cbn. rewrite Hc by lia. lia. }
    rewrite (proj2 (Z.ltb_ge _ _)) by (rewrite zlen_app; lia). by rewrite Ht, Hdr.
  - cbn [Z.leb Z.eqb Z.compare Pos.compare Pos.compare_cont Pos.eqb]. rewrite <- app_assoc.
    rewrite (proj2 (Z.ltb_ge _ 2)) by (rewrite !zlen_app, zlen_le_split; lia).
    rewrite (le_at_0 2) by apply length_le_split. rewrite le_combine_split_small by (unfold uint_ok; lia).
    rewrite (drop_app_len (le_split 2 (zlen d))) by (by rewrite length_le_split).
    rewrite (proj2 (Z.ltb_ge _ _)) by (rewrite zlen_app; lia). by rewrite Ht, Hdr.
  - cbn [Z.leb Z.eqb Z.compare Pos.compare Pos.compare_cont Pos.eqb]. rewrite <- app_assoc.
    rewrite (wrap_small 32) by (unfold uint_ok; lia).
    rewrite (proj2 (Z.ltb_ge _ 4)) by (rewrite !zlen_app, zlen_le_split; lia).
    rewrite (le_at_0 4) by apply length_le_split. rewrite le_combine_split_small by (unfold uint_ok; lia).
    rewrite (drop_app_len (le_split 4 (zlen d))) by (by rewrite length_le_split).
    rewrite (proj2 (Z.ltb_ge _ _)) by (rewrite zlen_app; lia). by rewrite Ht, Hdr.
Qed.

Lemma next_op_code c rest :
  78 < c < 256 -> Interp.next_op (op_byte c ++ rest) = Some (Some (Interp.Code c, rest)).
Proof.
  intros Hc. unfold op_byte. cbn [app Interp.next_op]. rewrite byte_of_Z_small by (unfold uint_ok; lia).
  rewrite (proj2 (Z.leb_gt _ _)) by lia. by rewrite !(proj2 (Z.eqb_neq _ _)) by lia.
Qed.

(** [s] is the operations [l], whatever fuel is left. *)
Definition parses (s : bytes) (l : list Interp.op) : Prop :=
  forall fuel, (length s <= fuel)%nat -> Interp.parse fuel s = Some l.

Lemma parses_nil : parses [] [].
Proof. intros [|fuel] _; done. Qed.

Lemma parses_cons enc rest o l :
  (0 < length enc)%nat -> Interp.next_op (enc ++ rest) = Some (Some (o, rest)) -> parses rest l ->
  parses (enc ++ rest) (o :: l).
Proof.
  intros He Hn Hr fuel Hf. rewrite length_app in Hf. destruct fuel as [|fuel]; [lia|].
  cbn [Interp.parse]. rewrite Hn, Hr by lia. done.
Qed.

Lemma pushData_nonempty d : (0 < length (pushData d))%nat.
Proof. unfold pushData. repeat case_match; cbn; lia. Qed.

Lemma parses_push d rest l : zlen d < 2 ^ 32 -> parses rest l -> parses (pushData d ++ rest) (Interp.Push d :: l).
Proof. intros Hd. apply parses_cons; [apply pushData_nonempty|by apply next_op_pushData]. Qed.

Lemma parses_code c rest l : 78 < c < 256 -> parses rest l -> parses (op_byte c ++ rest) (Interp.Code c :: l).
Proof. intros Hc. apply parses_cons; [cbn; lia|by apply next_op_code]. Qed.

Lemma parses_ops s l : parses s l -> Interp.ops s = Some l.
Proof. intros H. by apply H. Qed.

(** The operation a lock time is pushed by. *)
Definition locktime_op (n : Z) : Interp.op :=
  if n =? 0 then Interp.Push [] else if n <=? 16 then Interp.Code (80 + n) else Interp.Push (Interp.num_bytes n).

Lemma num_bytes_length n k : 0 <= n < 256 ^ Z.of_nat k -> zlen (Interp.num_bytes n) <= Z.of_nat k + 1.
Proof.
  intros Hn. unfold Interp.num_bytes. rewrite Z.abs_eq by lia.
  pose proof (magnitude_length n k Hn) as Hl. destruct (rev (magnitude n)) as [|top low] eqn:E; [unfold zlen; cbn; lia|].
  rewrite (proj2 (Z.ltb_ge n 0)) by lia.
  destruct (_ <? _); rewrite ?zlen_app; unfold zlen; cbn [length]; lia.
Qed.

Lemma parses_locktime n b rest l :
  0 <= n < 2 ^ 32 -> pushNum n = Ok b -> parses rest l -> parses (b ++ rest) (locktime_op n :: l).
Proof.
  intros Hn Hb Hr. unfold locktime_op. destruct (Z.eqb_spec n 0) as [->|].
  { cbn in Hb. injection Hb as <-. apply (parses_cons (op_byte 0)); [cbn; lia|apply next_op_zero|done]. }
  destruct (Z.leb_spec n 16).
  - unfold pushNum in Hb. rewrite !(proj2 (Z.eqb_neq _ _)) in Hb by lia.
    rewrite (proj2 (Z.leb_le 1 n)), (proj2 (Z.leb_le n 16)) in Hb by lia. cbn [andb] in Hb.
    injection Hb as <-. unfold Op1. replace (81 + (n - 1)) with (80 + n) by lia.
    apply parses_code; [lia|done].
  - rewrite pushNum_eq in Hb by lia. injection Hb as <-. apply parses_push; [|done].
    pose proof (num_bytes_length n 4 Hn). lia.
Qed.

(** ** The deposit script *)

Section Deposit.
Context (ripemd160 : bytes -> bytes) (Hripemd : forall b, zlen (ripemd160 b) = 20).
Context (my other sh : bytes) (lockTime : Z).

Definition htlc_ops : list Interp.op :=
  [Interp.Code 99; locktime_op lockTime; Interp.Code 177; Interp.Code 117; Interp.Code 118; Interp.Code 169;
   Interp.Push (KeyID ripemd160 my); Interp.Code 136; Interp.Code 172; Interp.Code 103; Interp.Code 118;
   Interp.Code 169; Interp.Push (KeyID ripemd160 other); Interp.Code 136; Interp.Code 173; Interp.Code 130;
   Interp.Push [x21]; Interp.Code 136; Interp.Code 169; Interp.Push sh; Interp.Code 135; Interp.Code 104].

Lemma htlc_parses inner :
  0 <= lockTime < 2 ^ 32 -> zlen sh < 2 ^ 32 ->
  BuildDepositUnlockScript ripemd160 my other sh lockTime = Ok inner -> Interp.ops inner = Some htlc_ops.
Proof using Hripemd.
  intros Hlt Hsh H. unfold BuildDepositUnlockScript in H.
  apply res_bind_ok in H as (lt & Elt & H).
  change (pushNum 33) with (Ok (pushData [x21])) in H. cbn [mbind res_bind] in H. injection H as <-.
  apply parses_ops. unfold htlc_ops.
  assert (forall b, zlen (KeyID ripemd160 b) < 2 ^ 32) as HK by (intros; unfold KeyID; rewrite Hripemd; lia).
  unfold OpIf, OpCheckLockTimeVerify, OpDrop, OpDup, OpHash160, OpEqualVerify, OpCheckSig, OpElse,
    OpCheckSigVerify, OpSize, OpEqual, OpEndIf.
  rewrite <- (app_nil_r (op_byte 104)).
  repeat first
    [ apply parses_nil
    | apply (parses_push [x21]); [by vm_compute|]
    | apply parses_push; [first [apply HK|exact Hsh]|]
    | apply parses_locktime; [done|exact Elt|]
    | apply parses_code; [lia|] ].
Qed.

Context (checksig : bytes -> bytes -> bool) (txLockTime txSequence : Z).
Abbreviation exec := (Interp.exec checksig txLockTime txSequence (KeyID ripemd160)).
Abbreviation cltv := (Interp.cltv_ok txLockTime txSequence).

Lemma exec_locktime n l st :
  0 <= n < 2 ^ 32 ->
  exists v, Interp.num v = n /\ zlen v <= 5 /\
    forall conds, exec (locktime_op n :: l) conds st = exec l conds (if forallb id conds then v :: st else st).
Proof.
  intros Hn. unfold locktime_op. destruct (Z.eqb_spec n 0) as [->|]; [by exists []|].
  destruct (Z.leb_spec n 16).
  - exists [byte.of_Z n]. assert (Interp.num [byte.of_Z n] = n) as Hv.
    { assert (Forall (fun t => Interp.num [byte.of_Z t] = t) (Z.of_nat <$> seq 1 16)) as Hall
        by (apply (bool_decide_unpack (Forall _ _)); by vm_compute).
      rewrite Forall_forall in Hall. apply Hall. apply list_elem_of_fmap. exists (Z.to_nat n).
      split; [lia|]. apply elem_of_seq. lia. }
    split; [done|]. split; [unfold zlen; cbn; lia|]. intros conds. cbn [Interp.exec].
    rewrite !(proj2 (Z.eqb_neq (80 + n) _)) by lia. unfold Interp.exec_code.
    rewrite (proj2 (Z.leb_le 81 (80 + n))), (proj2 (Z.leb_le (80 + n) 96)) by lia. cbn [andb].
    replace (80 + n - 80) with n by lia. by destruct (forallb _ _).
  - exists (Interp.num_bytes n). rewrite num_num_bytes by lia.
    split; [done|]. split; [pose proof (num_bytes_length n 4 Hn); lia|]. done.
Qed.

(** What the script means: two ways to spend, selected by the top of the
    stack. *)
Definition htlc_spec (st : list bytes) : bool :=
  match st with
  | [] => false
  | sel :: st =>
      if Interp.truth sel then
        match st with
        | pk :: sig :: _ => bool_decide (KeyID ripemd160 pk = KeyID ripemd160 my) && cltv lockTime && checksig sig pk
        | _ => false
        end
      else
        match st with
        | pk :: sig :: x :: _ =>
            bool_decide (KeyID ripemd160 pk = KeyID ripemd160 other) && checksig sig pk &&
            (zlen x =? 33) && bool_decide (KeyID ripemd160 x = sh)
        | _ => false
        end
  end.

Lemma num_bytes_33 n : 0 <= n -> bool_decide ([x21] = Interp.num_bytes n) = (n =? 33).
Proof.
  intros Hn. destruct (Z.eqb_spec n 33) as [->|Hne]; [by vm_compute|].
  apply bool_decide_eq_false. intros E. apply Hne. apply (f_equal Interp.num) in E.
  rewrite num_num_bytes in E by done. by vm_compute in E.
Qed.

Lemma truth_of_bool b : Interp.truth (Interp.of_bool b) = b.
Proof. by destruct b. Qed.

(** One step of the interpreter, in a branch that runs and in one that does not. *)
Lemma exec_push d l conds st :
  exec (Interp.Push d :: l) conds st = exec l conds (if forallb id conds then d :: st else st).
Proof. done. Qed.

Definition is_cond (c : Z) : bool := (c =? 99) || (c =? 103) || (c =? 104).

Lemma exec_live c l conds st :
  is_cond c = false -> forallb id conds = true ->
  exec (Interp.Code c :: l) conds st =
    Interp.exec_code checksig txLockTime txSequence (KeyID ripemd160) c st ≫= exec l conds.
Proof.
  unfold is_cond. rewrite !orb_false_iff. intros [[H1 H2] H3] Hl. cbn [Interp.exec]. rewrite H1, H2, H3, Hl.
  by destruct (Interp.exec_code _ _ _ _ _ _).
Qed.

Lemma exec_dead c l conds st :
  is_cond c = false -> forallb id conds = false -> exec (Interp.Code c :: l) conds st = exec l conds st.
Proof.
  unfold is_cond. rewrite !orb_false_iff. intros [[H1 H2] H3] Hl. cbn [Interp.exec]. by rewrite H1, H2, H3, Hl.
Qed.

Lemma exec_if l a st : exec (Interp.Code 99 :: l) [] (a :: st) = exec l [Interp.truth a] st.
Proof. done. Qed.
Lemma exec_else l b conds st : exec (Interp.Code 103 :: l) (b :: conds) st = exec l (negb b :: conds) st.
Proof. done. Qed.
Lemma exec_endif l b conds st : exec (Interp.Code 104 :: l) (b :: conds) st = exec l conds st.
Proof. done. Qed.

Ltac skip_dead :=
  repeat first [rewrite exec_dead by done | rewrite exec_push; cbn [forallb id andb] |
                rewrite exec_else; cbn [negb] | rewrite exec_endif].
Ltac run :=
  first [rewrite exec_live by done; cbn [Interp.exec_code Z.leb Z.compare Pos.compare Pos.compare_cont
           Z.eqb Pos.eqb andb mbind option_bind] | rewrite exec_push; cbn [forallb id andb]].

Lemma htlc_accepts inner st :
  0 <= lockTime < 2 ^ 32 -> zlen sh < 2 ^ 32 ->
  BuildDepositUnlockScript ripemd160 my other sh lockTime = Ok inner ->
  Interp.accepts checksig txLockTime txSequence (KeyID ripemd160) inner st = htlc_spec st.
Proof using Hripemd.
  intros Hlt Hsh Hb. unfold Interp.accepts. rewrite (htlc_parses inner Hlt Hsh Hb). unfold htlc_ops.
  destruct st as [|sel st]; [done|]. unfold htlc_spec. rewrite exec_if.
  match goal with |- context [exec (locktime_op lockTime :: ?l) _ ?st] =>
    destruct (exec_locktime lockTime l st Hlt) as (v & Hv & Hl & ->) end.
  destruct (Interp.truth sel); cbn [forallb id andb].
  - run. rewrite Hv, (proj2 (Z.leb_le (zlen v) 5)) by done. cbn [andb].
    destruct (cltv lockTime); [|destruct st as [|pk [|sig st]]; cbn; rewrite ?andb_false_r; done].
    cbn [mbind option_bind]. run.
    destruct st as [|pk st]; [run; done|]. do 4 run.
    rewrite (bool_decide_ext (KeyID ripemd160 my = _) (KeyID ripemd160 pk = KeyID ripemd160 my)) by (split; congruence).
    destruct (bool_decide _); [|by destruct st]. cbn [mbind option_bind]. run.
    destruct st as [|sig st]; [done|]. cbn [mbind option_bind]. skip_dead. cbn. apply truth_of_bool.
  - skip_dead. destruct st as [|pk st]; [run; done|]. do 4 run.
    rewrite (bool_decide_ext (KeyID ripemd160 other = _) (KeyID ripemd160 pk = KeyID ripemd160 other)) by (split; congruence).
    destruct (bool_decide _); [|by destruct st as [|? [|? ?]]]. cbn [mbind option_bind]. run.
    destruct st as [|sig st]; [done|].
    destruct (checksig sig pk); [|by destruct st]. cbn [mbind option_bind]. run.
    destruct st as [|x st]; [done|]. cbn [mbind option_bind]. do 2 run.
    rewrite num_bytes_33 by apply zlen_nonneg.
    destruct (zlen x =? 33); [|done]. cbn [mbind option_bind andb]. do 3 run.
    rewrite exec_endif. cbn. rewrite truth_of_bool. apply bool_decide_ext. split; congruence.
Qed.
End Deposit.

(** ** Input scripts and the secret *)

Definition all_push (l : list Interp.op) : bool := forallb Interp.is_push l.

Section ScriptSig.
Context (checksig : bytes -> bytes -> bool) (txLockTime txSequence : Z) (h : bytes -> bytes).
Abbreviation exec := (Interp.exec checksig txLockTime txSequence h).

(** What a push-only script leaves on the stack. *)
Definition pushed (o : Interp.op) : bytes :=
  match o with Interp.Push d => d | Interp.Code c => if c =? 79 then [x81] else [byte.of_Z (c - 80)] end.

Lemma exec_pushes l st : all_push l = true -> exec l [] st = Some (rev (pushed <$> l) ++ st).
Proof.
  revert st. induction l as [|o l IH]; intros st H; [done|].
  cbn [all_push forallb] in H. apply andb_true_iff in H as [Ho Hl].
  destruct o as [d|c].
  - cbn [Interp.exec forallb]. rewrite IH by done. rewrite fmap_cons. cbn [pushed rev]. by rewrite <- app_assoc.
  - assert (exec (Interp.Code c :: l) [] st = exec l [] (pushed (Interp.Code c) :: st)) as ->.
    { cbn [Interp.is_push] in Ho. cbn [Interp.exec forallb pushed].
      apply orb_true_iff in Ho. destruct Ho as [Hc|Hc].
      - apply Z.eqb_eq in Hc as ->. done.
      - pose proof Hc as Hc'. apply andb_true_iff in Hc' as [H1%Z.leb_le H2%Z.leb_le].
        destruct (Z.eqb_spec c 99); [lia|]. destruct (Z.eqb_spec c 103); [lia|].
        destruct (Z.eqb_spec c 104); [lia|]. destruct (Z.eqb_spec c 79); [lia|].
        unfold Interp.exec_code. by rewrite Hc. }
    rewrite IH by done. rewrite fmap_cons. cbn [rev]. by rewrite <- app_assoc.
Qed.
End ScriptSig.

(** No operation of the script starts with OP_PUSHDATA4. *)
Fixpoint no_pushdata4 (fuel : nat) (s : bytes) : bool :=
  match fuel, s with
  | S fuel, c :: _ =>
      negb (byte.unsigned c =? 78) &&
      match Interp.next_op s with Some (Some (_, s)) => no_pushdata4 fuel s | _ => true end
  | _, _ => true
  end.

Section Secret.
Context (ripemd160 : bytes -> bytes).

Lemma scan_secret_sound fuel s hx y :
  scan_secret ripemd160 fuel s hx = Some y -> zlen y = 33 /\ KeyID ripemd160 y = hx /\ exists pre post, s = pre ++ y ++ post.
Proof.
  revert s. induction fuel as [|fuel IH]; intros s H; [done|].
  destruct s as [|op s]; [done|]. cbn [scan_secret] in H.
  assert (forall s', (exists pre, op :: s = pre ++ s') -> scan_secret ripemd160 fuel s' hx = Some y ->
    zlen y = 33 /\ KeyID ripemd160 y = hx /\ exists pre post, op :: s = pre ++ y ++ post) as Hrec.
  { intros s' [pre Epre] Hs. apply IH in Hs as (? & ? & pre' & post & ->). split; [done|split; [done|]].
    exists (pre ++ pre'), post. by rewrite <- app_assoc. }
  assert (forall n s', (exists pre, op :: s = pre ++ s') ->
    (if zlen s' <? n then None
     else if (n =? 33) && bool_decide (KeyID ripemd160 (take (Z.to_nat n) s') = hx) then Some (take (Z.to_nat n) s')
     else scan_secret ripemd160 fuel (drop (Z.to_nat n) s') hx) = Some y ->
    zlen y = 33 /\ KeyID ripemd160 y = hx /\ exists pre post, op :: s = pre ++ y ++ post) as Hsized.
  { intros n s' [pre Epre] Hs. destruct (Z.ltb_spec (zlen s') n) as [|Hlen]; [done|].
    destruct ((n =? 33) && _) eqn:E.
    - apply andb_true_iff in E as [E1%Z.eqb_eq E2%bool_decide_eq_true]. injection Hs as <-. subst n.
      split; [|split; [done|]]. { unfold zlen in *. rewrite length_take. lia. }
      exists pre, (drop (Z.to_nat 33) s'). by rewrite take_drop.
    - apply (Hrec (drop (Z.to_nat n) s')); [|done]. exists (pre ++ take (Z.to_nat n) s').
      by rewrite <- app_assoc, take_drop. }
  destruct (_ <=? 75); [by eapply (Hsized _ s); [exists [op]|exact H]|].
  destruct (_ =? 76).
  { destruct s as [|n s]; [done|]. by eapply (Hsized _ s); [exists [op; n]|exact H]. }
  destruct (_ =? 77).
  { destruct s as [|lo [|hi s]]; [done|done|]. by eapply (Hsized _ s); [exists [op; lo; hi]|exact H]. }
  by apply (Hrec s); [exists [op]|].
Qed.
(** Away from OP_PUSHDATA4 the scan reads the operations the interpreter runs. *)
Lemma scan_secret_step fuel op s hx :
  byte.unsigned op <> 78 ->
  scan_secret ripemd160 (S fuel) (op :: s) hx =
    match Interp.next_op (op :: s) with
    | Some (Some (Interp.Push d, s)) =>
        if (zlen d =? 33) && bool_decide (KeyID ripemd160 d = hx) then Some d else scan_secret ripemd160 fuel s hx
    | Some (Some (Interp.Code _, s)) => scan_secret ripemd160 fuel s hx
    | _ => None
    end.
Proof.
  intros H78. cbn [scan_secret Interp.next_op].
  assert (forall n s', 0 <= n ->
    (if zlen s' <? n then None
     else if (n =? 33) && bool_decide (KeyID ripemd160 (take (Z.to_nat n) s') = hx) then Some (take (Z.to_nat n) s')
     else scan_secret ripemd160 fuel (drop (Z.to_nat n) s') hx) =
    match (if zlen s' <? n then None else Some (Some (Interp.Push (take (Z.to_nat n) s'), drop (Z.to_nat n) s'))) with
    | Some (Some (Interp.Push d, s)) =>
        if (zlen d =? 33) && bool_decide (KeyID ripemd160 d = hx) then Some d else scan_secret ripemd160 fuel s hx
    | Some (Some (Interp.Code _, s)) => scan_secret ripemd160 fuel s hx
    | _ => None
    end) as Hsized.
  { intros n s' Hn. destruct (Z.ltb_spec (zlen s') n); [done|].
    replace (zlen (take (Z.to_nat n) s')) with n; [done|]. unfold zlen in *. rewrite length_take. lia. }
  pose proof (byte.unsigned_range op).
  destruct (_ <=? 75); [apply Hsized; lia|].
  destruct (_ =? 76).
  { destruct s as [|n s]; [done|]. rewrite (proj2 (Z.ltb_ge _ 1)) by (rewrite zlen_cons; pose proof (zlen_nonneg s); lia).
    change (drop 1 (n :: s)) with s. change (n :: s) with ([n] ++ s). rewrite (le_at_0 1 [n] s eq_refl).
    change (le_combine [n]) with (Z.lor (byte.unsigned n) 0). rewrite Z.lor_0_r.
    apply Hsized. apply byte.unsigned_range. }
  destruct (_ =? 77).
  { destruct s as [|lo [|hi s]]; [done|done|].
    rewrite (proj2 (Z.ltb_ge _ 2)) by (rewrite !zlen_cons; pose proof (zlen_nonneg s); lia).
    change (drop 2 (lo :: hi :: s)) with s. change (lo :: hi :: s) with ([lo; hi] ++ s). rewrite (le_at_0 2 [lo; hi] s eq_refl).
    change (le_combine [lo; hi]) with (Z.lor (byte.unsigned lo) (Z.shiftl (Z.lor (byte.unsigned hi) 0) 8)).
    rewrite Z.lor_0_r. apply Hsized. apply Z.lor_nonneg. pose proof (byte.unsigned_range lo).
    pose proof (byte.unsigned_range hi). rewrite Z.shiftl_nonneg. lia. }
  by rewrite (proj2 (Z.eqb_neq _ _) H78).
Qed.

Lemma scan_secret_complete fuel s l hx x :
  Interp.parse fuel s = Some l -> no_pushdata4 fuel s = true ->
  Interp.Push x ∈ l -> zlen x = 33 -> KeyID ripemd160 x = hx ->
  exists y, scan_secret ripemd160 fuel s hx = Some y.
Proof.
  intros Hp Hn Hin Hx Hk. revert s l Hp Hn Hin.
  induction fuel as [|fuel IH]; intros s l Hp Hn Hin.
  { destruct s; [|done]. injection Hp as <-. by apply elem_of_nil in Hin. }
  destruct s as [|op s]; [injection Hp as <-; by apply elem_of_nil in Hin|].
  cbn [no_pushdata4] in Hn. apply andb_true_iff in Hn as [H78 Hn]. apply negb_true_iff, Z.eqb_neq in H78.
  cbn [Interp.parse] in Hp. rewrite scan_secret_step by done.
  destruct (Interp.next_op (op :: s)) as [[[o s']|]|]; [|injection Hp as <-; by apply elem_of_nil in Hin|done].
  apply bind_Some in Hp as (l' & Hp & [= <-]). specialize (IH s' l' Hp Hn).
  apply elem_of_cons in Hin as [<-|Hin].
  - rewrite (proj2 (Z.eqb_eq _ _) Hx), bool_decide_eq_true_2 by done. eauto.
  - destruct o; [|by apply IH]. destruct (_ && _); [eauto|by apply IH].
Qed.

End Secret.

(** ** Theorems *)

(** C5. The deposit script of two keys, a secret's hash and a lock time is
    spent in exactly two ways, whatever is on the stack: with a true selector,
    by the depositor's key and signature once the lock time is reached; with a
    false selector, by the counterparty's key and signature together with a
    33-byte value of the committed hash. Nothing else is accepted. *)
Theorem htlc_spending_exact (ripemd160 : bytes -> bytes) (checksig : bytes -> bytes -> bool)
    (txLockTime txSequence : Z) (my other sh inner : bytes) (lockTime : Z) (st : list bytes)
    (Hripemd : forall b, zlen (ripemd160 b) = 20) (Hlt : 0 <= lockTime < 2 ^ 32) (Hsh : zlen sh < 2 ^ 32)
    (Hb : BuildDepositUnlockScript ripemd160 my other sh lockTime = Ok inner) :
  Interp.accepts checksig txLockTime txSequence (KeyID ripemd160) inner st = true <->
    exists sel pk sig rest, st = sel :: pk :: sig :: rest /\ checksig sig pk = true /\
      if Interp.truth sel
      then KeyID ripemd160 pk = KeyID ripemd160 my /\ Interp.cltv_ok txLockTime txSequence lockTime = true
      else KeyID ripemd160 pk = KeyID ripemd160 other /\
           exists x rest', rest = x :: rest' /\ zlen x = 33 /\ KeyID ripemd160 x = sh.
Proof.
  rewrite (htlc_accepts ripemd160 Hripemd my other sh lockTime checksig txLockTime txSequence inner st Hlt Hsh Hb).
  unfold htlc_spec. split.
  - destruct st as [|sel [|pk [|sig rest]]]; [done| | |];
      [by destruct (Interp.truth sel)|by destruct (Interp.truth sel)|].
    intros H. exists sel, pk, sig, rest. split; [done|]. destruct (Interp.truth sel).
    + apply andb_true_iff in H as [[H1%bool_decide_eq_true H2]%andb_true_iff H3]. done.
    + destruct rest as [|x rest]; [done|].
      apply andb_true_iff in H as [[[H1%bool_decide_eq_true H2]%andb_true_iff H3%Z.eqb_eq]%andb_true_iff H4%bool_decide_eq_true].
      split; [done|split; [done|eauto]].
  - intros (sel & pk & sig & rest & -> & Hsig & H). rewrite Hsig. destruct (Interp.truth sel).
    + destruct H as [Hk ->]. by rewrite bool_decide_eq_true_2.
    + destruct H as (Hk & x & rest' & -> & Hx & Hs). rewrite !bool_decide_eq_true_2 by done. by rewrite (proj2 (Z.eqb_eq _ _) Hx).
Qed.

(** A 20-byte hash for the concrete inputs below. *)
Definition sample_ripemd160 (b : bytes) : bytes := take 20 (b ++ repeat x00 20).
Lemma sample_ripemd160_length b : zlen (sample_ripemd160 b) = 20.
Proof. unfold sample_ripemd160, zlen. rewrite length_take, length_app, repeat_length. lia. Qed.

Definition sample_my : bytes := x02 :: repeat x11 32.
Definition sample_other : bytes := x03 :: repeat x22 32.
Definition sample_secret : bytes := x02 :: repeat x55 32.
Definition sample_sig : bytes := repeat x30 71.
Definition sample_inner : bytes :=
  match BuildDepositUnlockScript sample_ripemd160 sample_my sample_other (KeyID sample_ripemd160 sample_secret) 1500000 with
  | Ok b => b | _ => [] end.

Lemma htlc_spending_exact_witness :
  Interp.accepts (fun _ _ => true) 1500000 0 (KeyID sample_ripemd160) sample_inner
    [[]; sample_other; sample_sig; sample_secret] = true.
Proof.
  apply (htlc_spending_exact sample_ripemd160 (fun _ _ => true) 1500000 0 sample_my sample_other
           (KeyID sample_ripemd160 sample_secret) sample_inner 1500000).
  - exact sample_ripemd160_length.
  - lia.
  - unfold KeyID. rewrite sample_ripemd160_length. lia.
  - by vm_compute.
  - exists [], sample_other, sample_sig, [sample_secret]. split; [done|]. split; [done|].
    change (Interp.truth []) with false. cbv iota. split; [done|]. exists sample_secret, []. by vm_compute.
Defined.

Lemma builders_spend (ripemd160 : bytes -> bytes) (checksig : bytes -> bytes -> bool)
    (txLockTime txSequence : Z) (my other sh inner sig pk x : bytes) (lockTime : Z)
    (Hripemd : forall b, zlen (ripemd160 b) = 20) (Hlt : 0 <= lockTime < 2 ^ 32) (Hsh : zlen sh < 2 ^ 32)
    (Hlen : zlen sig < 2 ^ 32 /\ zlen pk < 2 ^ 32 /\ zlen x < 2 ^ 32 /\ zlen inner < 2 ^ 32)
    (Hb : BuildDepositUnlockScript ripemd160 my other sh lockTime = Ok inner) :
  let spends := Interp.spends_p2sh checksig txLockTime txSequence (KeyID ripemd160) (KeyID ripemd160 inner) in
  (spends (BuildRefundScriptSig sig pk inner) = true <->
     KeyID ripemd160 pk = KeyID ripemd160 my /\ checksig sig pk = true /\
     Interp.cltv_ok txLockTime txSequence lockTime = true) /\
  (spends (BuildPaymentScriptSig x sig pk inner) = true <->
     KeyID ripemd160 pk = KeyID ripemd160 other /\ checksig sig pk = true /\
     zlen x = 33 /\ KeyID ripemd160 x = sh).
Proof.
  destruct Hlen as (H1 & H2 & H3 & H4). cbv zeta.
  pose proof (fun st => htlc_accepts ripemd160 Hripemd my other sh lockTime checksig txLockTime txSequence inner st Hlt Hsh Hb) as Hacc.
  assert (Interp.ops (BuildRefundScriptSig sig pk inner) =
    Some [Interp.Push sig; Interp.Push pk; Interp.Code 81; Interp.Push inner]) as Hr.
  { apply parses_ops. unfold BuildRefundScriptSig, OpPushData1, Op1. rewrite <- (app_nil_r (pushData inner)).
    repeat first [apply parses_nil | apply parses_push; [done|] | apply parses_code; [lia|]]. }
  assert (Interp.ops (BuildPaymentScriptSig x sig pk inner) =
    Some [Interp.Push x; Interp.Push sig; Interp.Push pk; Interp.Push []; Interp.Push inner]) as Hp.
  { apply parses_ops. unfold BuildPaymentScriptSig, Op0. rewrite <- (app_nil_r (pushData inner)).
    do 3 (apply parses_push; [done|]). apply (parses_cons (op_byte 0)); [cbn; lia|apply next_op_zero|].
    apply parses_push; [done|]. apply parses_nil. }
  split; unfold Interp.spends_p2sh.
  - rewrite Hr. rewrite exec_pushes by done. cbn [forallb Interp.is_push orb andb fmap list_fmap pushed rev app Z.eqb Pos.eqb Z.leb Z.compare Pos.compare Pos.compare_cont].
    rewrite bool_decide_eq_true_2 by done. rewrite Hacc. unfold htlc_spec.
    change (Interp.truth [byte.of_Z (81 - 80)]) with true. cbn [andb].
    rewrite !andb_true_iff, bool_decide_eq_true. tauto.
  - rewrite Hp. rewrite exec_pushes by done. cbn [forallb Interp.is_push orb andb fmap list_fmap pushed rev app].
    rewrite bool_decide_eq_true_2 by done. rewrite Hacc. unfold htlc_spec.
    change (Interp.truth []) with false. cbn [andb].
    rewrite !andb_true_iff, !bool_decide_eq_true, Z.eqb_eq. tauto.
Qed.

(** The input scripts the daemon builds spend the P2SH output of a deposit
    script under the P2SH rules: the refund script exactly when the depositor
    signs and the lock time is reached, the payment script exactly when the
    counterparty signs and the revealed key is the secret. Swapping the roles
    of the two keys does not spend. *)
Theorem htlc_builders_spend (ripemd160 : bytes -> bytes) (checksig : bytes -> bytes -> bool)
    (txLockTime txSequence : Z) (my other sh inner sig pk x : bytes) (lockTime : Z)
    (Hripemd : forall b, zlen (ripemd160 b) = 20) (Hlt : 0 <= lockTime < 2 ^ 32) (Hsh : zlen sh < 2 ^ 32)
    (Hlen : zlen sig < 2 ^ 32 /\ zlen pk < 2 ^ 32 /\ zlen x < 2 ^ 32 /\ zlen inner < 2 ^ 32)
    (Hb : BuildDepositUnlockScript ripemd160 my other sh lockTime = Ok inner) :
  let spends := Interp.spends_p2sh checksig txLockTime txSequence (KeyID ripemd160) (KeyID ripemd160 inner) in
  (spends (BuildRefundScriptSig sig pk inner) = true <->
     KeyID ripemd160 pk = KeyID ripemd160 my /\ checksig sig pk = true /\
     Interp.cltv_ok txLockTime txSequence lockTime = true) /\
  (spends (BuildPaymentScriptSig x sig pk inner) = true <->
     KeyID ripemd160 pk = KeyID ripemd160 other /\ checksig sig pk = true /\
     zlen x = 33 /\ KeyID ripemd160 x = sh).
Proof. exact (builders_spend ripemd160 checksig txLockTime txSequence my other sh inner sig pk x lockTime Hripemd Hlt Hsh Hlen Hb). Qed.

Lemma htlc_builders_spend_witness :
  Interp.spends_p2sh (fun _ _ => true) 1500000 0 (KeyID sample_ripemd160) (KeyID sample_ripemd160 sample_inner)
    (BuildPaymentScriptSig sample_secret sample_sig sample_other sample_inner) = true.
Proof.
  apply (htlc_builders_spend sample_ripemd160 (fun _ _ => true) 1500000 0 sample_my sample_other
           (KeyID sample_ripemd160 sample_secret) sample_inner sample_sig sample_other sample_secret 1500000).
  - exact sample_ripemd160_length.
  - lia.
  - unfold KeyID. rewrite sample_ripemd160_length. lia.
  - by vm_compute.
  - by vm_compute.
  - by vm_compute.
Defined.

(** C8. A spend of the deposit gives the secret away: any push-only input script
    without OP_PUSHDATA4 that runs the deposit script through its claim branch
    (which it must before the lock time) lets secretFromScriptSig find a 33-byte
    value of the committed hash; and what it finds always is one, and is in the
    script. *)
Theorem claim_reveals_secret (ripemd160 : bytes -> bytes) (checksig : bytes -> bytes -> bool)
    (txLockTime txSequence : Z) (my other sh inner scriptSig : bytes) (lockTime : Z)
    (l : list Interp.op) (st : list bytes)
    (Hripemd : forall b, zlen (ripemd160 b) = 20) (Hlt : 0 <= lockTime < 2 ^ 32) (Hsh : zlen sh < 2 ^ 32)
    (Hb : BuildDepositUnlockScript ripemd160 my other sh lockTime = Ok inner)
    (Hl : Interp.ops scriptSig = Some l) (Hpush : all_push l = true)
    (Hrun : Interp.exec checksig txLockTime txSequence (KeyID ripemd160) l [] [] = Some (inner :: st))
    (Hacc : Interp.accepts checksig txLockTime txSequence (KeyID ripemd160) inner st = true)
    (Hearly : Interp.cltv_ok txLockTime txSequence lockTime = false \/ exists sel rest, st = sel :: rest /\ Interp.truth sel = false)
    (H4 : no_pushdata4 (length scriptSig) scriptSig = true) :
  exists y, secretFromScriptSig ripemd160 scriptSig sh = Some y /\
    zlen y = 33 /\ KeyID ripemd160 y = sh /\ exists pre post, scriptSig = pre ++ y ++ post.
Proof.
  rewrite (htlc_accepts ripemd160 Hripemd my other sh lockTime checksig txLockTime txSequence inner st Hlt Hsh Hb) in Hacc.
  rewrite exec_pushes in Hrun by done. rewrite app_nil_r in Hrun. injection Hrun as Hrun.
  assert (exists x, x ∈ st /\ zlen x = 33 /\ KeyID ripemd160 x = sh) as (x & Hin & Hx & Hk).
  { unfold htlc_spec in Hacc. destruct st as [|sel [|pk [|sig rest]]]; [done| | |];
      [by destruct (Interp.truth sel)|by destruct (Interp.truth sel)|].
    destruct (Interp.truth sel) eqn:Et.
    - destruct Hearly as [Hc|(? & ? & [= <- <-] & ?)]; [|congruence].
      by rewrite Hc, andb_false_r in Hacc.
    - destruct rest as [|x rest]; [done|].
      apply andb_true_iff in Hacc as [[_ H%Z.eqb_eq]%andb_true_iff Hs%bool_decide_eq_true].
      exists x. split; [set_solver|done]. }
  assert (Interp.Push x ∈ l) as Hxl.
  { assert (x ∈ rev (pushed <$> l)) as Hr by (rewrite Hrun; set_solver).
    apply list_elem_of_In, in_rev, list_elem_of_In in Hr. apply list_elem_of_fmap in Hr as (o & -> & Ho).
    destruct o as [d|c]; [done|]. cbn [pushed] in Hx. destruct (c =? 79); by vm_compute in Hx. }
  unfold secretFromScriptSig.
  destruct (scan_secret_complete ripemd160 (length scriptSig) scriptSig l sh x Hl H4 Hxl Hx Hk) as [y Hy].
  exists y. split; [done|]. by apply (scan_secret_sound ripemd160 _ _ _ _ Hy).
Qed.

Lemma claim_reveals_secret_witness :
  exists y, secretFromScriptSig sample_ripemd160
      (BuildPaymentScriptSig sample_secret sample_sig sample_other sample_inner)
      (KeyID sample_ripemd160 sample_secret) = Some y /\ zlen y = 33.
Proof.
  destruct (claim_reveals_secret sample_ripemd160 (fun _ _ => true) 1500000 0 sample_my sample_other
    (KeyID sample_ripemd160 sample_secret) sample_inner
    (BuildPaymentScriptSig sample_secret sample_sig sample_other sample_inner) 1500000
    [Interp.Push sample_secret; Interp.Push sample_sig; Interp.Push sample_other; Interp.Push []; Interp.Push sample_inner]
    [[]; sample_other; sample_sig; sample_secret]) as (y & Hy & Hl & _).
  - exact sample_ripemd160_length.
  - lia.
  - unfold KeyID. rewrite sample_ripemd160_length. lia.
  - by vm_compute.
  - by vm_compute.
  - done.
  - by vm_compute.
  - by vm_compute.
  - right. by exists [], [sample_other; sample_sig; sample_secret].
  - by vm_compute.
  - exact (ex_intro _ y (conj Hy Hl)).
Defined.

(** OP_PUSHDATA4 hides the secret: here is an input script that spends the
    deposit output through its claim branch, before the lock time, and in which
    secretFromScriptSig finds nothing, because it takes the opcode for one
    without operand and loses the boundaries of the pushes after it. *)
Theorem claim_can_hide_secret :
  let hash := KeyID sample_ripemd160 in
  let hidden := op_byte OpPushData4 ++ le_split 4 33 ++ sample_secret in
  let scriptSig := hidden ++ pushData sample_sig ++ pushData sample_other ++ op_byte Op0 ++ pushData sample_inner in
  BuildDepositUnlockScript sample_ripemd160 sample_my sample_other (hash sample_secret) 1500000 = Ok sample_inner /\
  Interp.spends_p2sh (fun _ _ => true) 0 0 hash (hash sample_inner) scriptSig = true /\
  Interp.cltv_ok 0 0 1500000 = false /\
  secretFromScriptSig sample_ripemd160 scriptSig (hash sample_secret) = None.
Proof. cbv zeta. repeat apply conj; by vm_compute. Qed.
