(* ===== verification/Secp.v ===== *)
(** * The secp256k1 library, as an interface

    btcec/v2 and decred's secp256k1 are third-party code.  [Secp] lists the
    operations coins/tx.go and crypto/signer.go call; [SecpLaws] states what
    they rely on: a signature made with a valid private key verifies under its
    public key, and the serializations used for keys and signatures parse back.
    The clients' theorems are proved against the interface.  [toy_secp] is a
    concrete instance of both, for the witnesses. *)

From S2P Require Import Prelude.

Class Secp := {
  PrivKey : Type;
  PubKey : Type;
  Signature : Type;
  curveN : Z;
  PrivKeyFromBytes : bytes -> PrivKey;
  PubKeyOf : PrivKey -> PubKey;
  SerializeCompressed : PubKey -> bytes;
  ParsePubKey : bytes -> res PubKey;
  ecdsa_Sign : PrivKey -> bytes -> Signature;
  Signature_Serialize : Signature -> bytes;
  ParseSignature : bytes -> res Signature;
  Signature_R : Signature -> Z;
  Signature_S : Signature -> Z;
  NewSignature : Z -> Z -> Signature;
  Signature_Verify : Signature -> bytes -> PubKey -> bool;
  SerializeUncompressed : PubKey -> bytes;
  ecdsa_SignCompact : PrivKey -> bytes -> bytes;
  ecdsa_RecoverCompact : bytes -> bytes -> res (PubKey * bool);
}.

(** A 32-byte scalar in [1, N-1]. *)
Definition valid_priv `{Secp} (priv : bytes) : Prop :=
  zlen priv = 32 /\ 0 < be_combine priv < curveN.

Class SecpLaws `{Secp} : Prop := {
  curveN_bound : 0 < curveN < 2 ^ 256;
  SerializeCompressed_length p : zlen (SerializeCompressed p) = 33;
  ParsePubKey_Serialize priv :
    valid_priv priv ->
    ParsePubKey (SerializeCompressed (PubKeyOf (PrivKeyFromBytes priv))) = Ok (PubKeyOf (PrivKeyFromBytes priv));
  ParseSignature_Serialize k h : ParseSignature (Signature_Serialize (ecdsa_Sign k h)) = Ok (ecdsa_Sign k h);
  Signature_scalars k h :
    0 <= Signature_R (ecdsa_Sign k h) < curveN /\ 0 <= Signature_S (ecdsa_Sign k h) < curveN;
  NewSignature_RS k h :
    NewSignature (Signature_R (ecdsa_Sign k h)) (Signature_S (ecdsa_Sign k h)) = ecdsa_Sign k h;
  Signature_Serialize_length k h : zlen (Signature_Serialize (ecdsa_Sign k h)) <= 72;
  Verify_Sign priv h :
    valid_priv priv -> zlen h = 32 ->
    Signature_Verify (ecdsa_Sign (PrivKeyFromBytes priv) h) h (PubKeyOf (PrivKeyFromBytes priv)) = true;
  SerializeUncompressed_length p : zlen (SerializeUncompressed p) = 65;
  SignCompact_length k h : zlen (ecdsa_SignCompact k h) = 65;
  RecoverCompact_Sign priv h :
    valid_priv priv -> zlen h = 32 ->
    ecdsa_RecoverCompact (ecdsa_SignCompact (PrivKeyFromBytes priv) h) h = Ok (PubKeyOf (PrivKeyFromBytes priv), true);
  RecoverCompact_no_panic sig h : no_panic (ecdsa_RecoverCompact sig h);
}.

(** An instance: the public key is the scalar and a signature is the pair of
    the hash and the scalar, modulo [toy_N]. *)
Definition toy_N : Z := 2 ^ 255.
#[export] Instance toy_secp : Secp := {|
  PrivKey := Z; PubKey := Z; Signature := Z * Z; curveN := toy_N;
  PrivKeyFromBytes b := be_combine b mod toy_N;
  PubKeyOf k := k;
  SerializeCompressed p := x02 :: be_split 32 p;
  ParsePubKey b := if zlen b =? 33 then Ok (be_combine (drop 1 b)) else Err "bad public key";
  ecdsa_Sign k h := (be_combine h mod toy_N, k mod toy_N);
  Signature_Serialize s := be_split 32 s.1 ++ be_split 32 s.2;
  ParseSignature b := if zlen b =? 64 then Ok (be_combine (take 32 b), be_combine (drop 32 b)) else Err "bad signature";
  Signature_R := fst; Signature_S := snd; NewSignature := pair;
  Signature_Verify s h p := bool_decide (s = (be_combine h mod toy_N, p mod toy_N));
  SerializeUncompressed p := x04 :: be_split 32 p ++ repeat x00 32;
  ecdsa_SignCompact k h := x1f :: be_split 32 k ++ be_split 32 (be_combine h mod toy_N);
  ecdsa_RecoverCompact sig h :=
    if (zlen sig =? 65) && bool_decide (drop 33 sig = be_split 32 (be_combine h mod toy_N))
    then Ok (be_combine (take 32 (drop 1 sig)), bool_decide (take 1 sig = [x1f]))
    else Err "invalid compact signature"
|}.

Lemma toy_split v : 0 <= v < toy_N -> be_combine (be_split 32 v) = v.
Proof. intros Hv. apply be_combine_split_small. unfold uint_ok, toy_N in *. lia. Qed.

#[export] Instance toy_secp_laws : SecpLaws.
Proof.
  assert (forall v, 0 <= v mod toy_N < toy_N) as Hm by (intros; apply Z.mod_pos_bound; by vm_compute).
  constructor; cbn -[toy_N be_split be_combine].
  - unfold toy_N. lia.
  - intros p. unfold zlen. cbn [length]. by rewrite length_be_split.
  - intros priv _. unfold zlen. cbn [length]. rewrite length_be_split. change (Z.of_nat 33 =? 33) with true.
    cbv iota. rewrite drop_0. by rewrite toy_split.
  - intros k h. rewrite zlen_app. unfold zlen. rewrite !length_be_split. change (Z.of_nat 32 + Z.of_nat 32 =? 64) with true.
    cbv iota. rewrite take_drop_app_len, drop_app_len by (by rewrite length_be_split). by rewrite !toy_split.
  - auto.
  - done.
  - intros k h. rewrite zlen_app. unfold zlen. rewrite !length_be_split. lia.
  - intros priv h _ _. apply bool_decide_eq_true_2. done.
  - intros p. rewrite zlen_cons, zlen_app. unfold zlen. rewrite length_be_split. done.
  - intros k h. rewrite zlen_cons, zlen_app. unfold zlen. by rewrite !length_be_split.
  - intros priv h _ _. rewrite zlen_cons, zlen_app. unfold zlen. rewrite !length_be_split.
    change (1 + (Z.of_nat 32 + Z.of_nat 32) =? 65) with true. cbn [andb].
    set (a := be_split 32 (_ mod toy_N)). set (b := be_split 32 (be_combine h mod toy_N)).
    change (drop 33 (x1f :: a ++ b)) with (drop 32 (a ++ b)). change (drop 1 (x1f :: a ++ b)) with (a ++ b).
    assert (32%nat = length a) as Ha by (unfold a; by rewrite length_be_split).
    rewrite (drop_app_len a b 32 Ha), drop_0, (take_drop_app_len a b 32 Ha).
    rewrite !bool_decide_true by done. unfold a. by rewrite toy_split.
  - intros sig h. by case_match.
Qed.

Definition sample_priv : bytes := repeat x07 32.
