(* ===== verification/Tx.v ===== *)
(** * coins/tx.go: transactions, signature hashes, signing

    The Bitcoin transaction encoding with the two variants the daemon handles
    (the segwit marker and the per-coin nTime field), its parser, the legacy,
    BIP143 and fork-id signature hashes, and the signing and verifying of an
    input.  The secp256k1 library (btcec) is third-party code: an argument,
    with the hypotheses of the theorems as its documented behaviour.

    The parser works on Go [int]s: [int(v)] of a 64-bit length is [swrap64], and
    [pos+n] wraps.  [make([]T, n)] crashes for a negative [n], and when the
    elements need more than the [mem] bytes the process can allocate at once. *)

From S2P Require Import Prelude Sha256 Codec Bodies Packet Wire Peer Digits GoLib Conf Coin Secp.

Definition SigHashAll : Z := 1.
Definition SigHashForkID : Z := 64.
Definition maxTxIns : Z := Z.shiftl 1 20.
Definition maxTxOuts : Z := Z.shiftl 1 20.
Definition minTxInBytes : Z := 41.
Definition minTxOutBytes : Z := 9.

Record OutPoint := mkOutPoint { op_Hash : bytes; op_Index : Z }.

Record TxIn := mkTxIn {
  in_PrevOut : OutPoint;
  in_ScriptSig : bytes;
  in_Sequence : Z;
  in_Witness : list bytes;
  in_Amount : Z;
}.

Record TxOut := mkTxOut { out_Value : Z; out_ScriptPubKey : bytes }.

Record Tx := mkTx {
  tx_Version : Z;
  tx_LockTime : Z;
  tx_Inputs : list TxIn;
  tx_Outputs : list TxOut;
  tx_SegWit : bool;
  tx_WithTime : bool;
  tx_TxTime : Z;
}.

(** ** Serializing *)

Definition varInt (n : Z) : bytes :=
  if n <? 253 then [byte.of_Z n]
  else if n <=? 65535 then byte.of_Z 253 :: le_split 2 n
  else if n <=? 4294967295 then byte.of_Z 254 :: le_split 4 n
  else byte.of_Z 255 :: le_split 8 n.

(** [append(buf, varInt(len(s))...)], [append(buf, s...)] *)
Definition var_bytes (s : bytes) : bytes := varInt (zlen s) ++ s.

Definition outpoint_bytes (o : OutPoint) : bytes := op_Hash o ++ le_split 4 (op_Index o).
Definition in_bytes (i : TxIn) : bytes :=
  outpoint_bytes (in_PrevOut i) ++ var_bytes (in_ScriptSig i) ++ le_split 4 (in_Sequence i).
Definition out_bytes (o : TxOut) : bytes := le_split 8 (out_Value o) ++ var_bytes (out_ScriptPubKey o).
Definition witness_bytes (i : TxIn) : bytes := varInt (zlen (in_Witness i)) ++ concat (map var_bytes (in_Witness i)).

Definition Tx_Serialize (t : Tx) : bytes :=
  le_split 4 (wrap 32 (tx_Version t)) ++
  (if tx_WithTime t then le_split 4 (tx_TxTime t) else []) ++
  (if tx_SegWit t then [x00; x01] else []) ++
  varInt (zlen (tx_Inputs t)) ++ concat (map in_bytes (tx_Inputs t)) ++
  varInt (zlen (tx_Outputs t)) ++ concat (map out_bytes (tx_Outputs t)) ++
  le_split 4 (tx_LockTime t) ++
  (if tx_SegWit t then concat (map witness_bytes (tx_Inputs t)) else []).

(** ** Parsing *)

Definition truncated : string := "coins: tx truncated".

(** [int32(x)] of a [uint32] *)
Definition int32 (v : Z) : Z := if v <? 2 ^ 31 then v else v - 2 ^ 32.

Section Parse.
Context (mem : Z) (b : bytes).

(** A parse step: from a position, a value and the next position. *)
Definition Step (A : Type) : Type := Z -> res (A * Z).

Definition make (size n : Z) : res unit := if (n <? 0) || (mem <? n * size) then Panic else Ok tt.

Definition need (n : Z) : Step bytes := fun pos =>
  let fin := swrap64 (pos + n) in
  if zlen b <? fin then Err truncated
  else s ← slice b pos fin; Ok (s, fin).

Definition varint_wide (w : nat) : Step Z := fun pos =>
  if zlen b <? pos + Z.of_nat w then Err truncated
  else Ok (swrap64 (le_at w b pos), pos + Z.of_nat w).

Definition readVarInt : Step Z := fun pos =>
  if zlen b <=? pos then Err truncated
  else
    first ← index b pos;
    let first := byte.unsigned first in
    let pos := pos + 1 in
    if first <? 253 then Ok (first, pos)
    else if first =? 253 then varint_wide 2 pos
    else if first =? 254 then varint_wide 4 pos
    else varint_wide 8 pos.

Definition read_var_bytes : Step bytes := fun pos =>
  '(n, pos) ← readVarInt pos; need n pos.

Definition read_in : Step TxIn := fun pos =>
  '(h, pos) ← need 32 pos;
  '(ix, pos) ← need 4 pos;
  '(ss, pos) ← read_var_bytes pos;
  '(seq, pos) ← need 4 pos;
  Ok (mkTxIn (mkOutPoint h (le_combine ix)) ss (le_combine seq) [] 0, pos).

Definition read_out : Step TxOut := fun pos =>
  '(val, pos) ← need 8 pos;
  '(spk, pos) ← read_var_bytes pos;
  Ok (mkTxOut (le_combine val) spk, pos).

(** [for i := 0; i < n; i++]. Every item takes a byte of the input at least, so
    one turn more than the input has bytes is enough. *)
Fixpoint read_items {A} (item : Step A) (fuel : nat) (n : Z) : Step (list A) := fun pos =>
  if n <=? 0 then Ok ([], pos)
  else
    match fuel with
    | O => Err truncated
    | S fuel =>
        '(a, pos) ← item pos;
        '(l, pos) ← read_items item fuel (n - 1) pos;
        Ok (a :: l, pos)
    end.

Definition items_fuel : nat := S (length b).

(** A count, its guards, the [make] and the loop. *)
Definition read_counted {A} (item : Step A) (cap minBytes size : Z) (e : string) : Step (list A) := fun pos =>
  '(n, pos) ← readVarInt pos;
  let rem := if zlen b - pos <? 0 then 0 else zlen b - pos in
  if (cap <? n) || ((0 <? n) && (rem <? wrap 64 (n * minBytes))) then Err e
  else
    _ ← make size n;
    read_items item items_fuel n pos.

(** Sizes of the Go structs on 64 bits: 104 for a [TxIn], 32 for a [TxOut], 24
    for a slice header. *)
Definition read_ins : Step (list TxIn) := read_counted read_in maxTxIns minTxInBytes 104 "coins: too many inputs".
Definition read_outs : Step (list TxOut) := read_counted read_out maxTxOuts minTxOutBytes 32 "coins: too many outputs".

(** The count of a witness stack has no guard. *)
Definition read_witness : Step (list bytes) := fun pos =>
  '(wc, pos) ← readVarInt pos;
  _ ← make 24 wc;
  read_items read_var_bytes items_fuel wc pos.

Fixpoint read_witnesses (ins : list TxIn) : Step (list TxIn) := fun pos =>
  match ins with
  | [] => Ok ([], pos)
  | i :: ins =>
      '(w, pos) ← read_witness pos;
      '(ins, pos) ← read_witnesses ins pos;
      Ok (mkTxIn (in_PrevOut i) (in_ScriptSig i) (in_Sequence i) w (in_Amount i) :: ins, pos)
  end.

Definition is_marker (pos : Z) : bool :=
  (pos + 2 <=? zlen b) && bool_decide (take 2 (drop (Z.to_nat pos) b) = [x00; x01]).

Definition deserializeTx (hasTime : bool) : res Tx :=
  '(ver, pos) ← need 4 0;
  '(tm, pos) ← (if hasTime then need 4 pos else Ok ([], pos));
  let segwit := is_marker pos in
  let pos := if segwit then pos + 2 else pos in
  '(ins, pos) ← read_ins pos;
  '(outs, pos) ← read_outs pos;
  '(lt, pos) ← need 4 pos;
  '(ins, pos) ← (if segwit then read_witnesses ins pos else Ok (ins, pos));
  if negb (pos =? zlen b) then Err "coins: trailing bytes in tx"
  else Ok (mkTx (int32 (le_combine ver)) (le_combine lt) ins outs segwit hasTime (le_combine tm)).
End Parse.

Definition Deserialize (mem : Z) (b : bytes) : res Tx := deserializeTx mem b false.
Definition DeserializeWithTime (mem : Z) (b : bytes) (hasTime : bool) : res Tx := deserializeTx mem b hasTime.

(** ** Signature hashes *)

Definition time_field (t : Tx) : bytes := if tx_WithTime t then le_split 4 (tx_TxTime t) else [].

Definition signed_in (prevScript : bytes) (idx : Z) (i : nat) (inp : TxIn) : bytes :=
  let script := if Z.of_nat i =? idx then prevScript else [] in
  outpoint_bytes (in_PrevOut inp) ++ var_bytes script ++ le_split 4 (in_Sequence inp).

Definition legacy_preimage (t : Tx) (idx : Z) (prevScript : bytes) : bytes :=
  le_split 4 (wrap 32 (tx_Version t)) ++ time_field t ++
  varInt (zlen (tx_Inputs t)) ++ concat (imap (signed_in prevScript idx) (tx_Inputs t)) ++
  varInt (zlen (tx_Outputs t)) ++ concat (map out_bytes (tx_Outputs t)) ++
  le_split 4 (tx_LockTime t) ++ le_split 4 SigHashAll.

Definition HashForSigning (t : Tx) (idx : Z) (prevScript : bytes) : bytes :=
  Sum256 (Sum256 (legacy_preimage t idx prevScript)).

Definition dsha (b : bytes) : bytes := Sum256 (Sum256 b).

Definition prevouts_bytes (t : Tx) : bytes := concat (map (fun i => outpoint_bytes (in_PrevOut i)) (tx_Inputs t)).
Definition sequence_bytes (t : Tx) : bytes := concat (map (fun i => le_split 4 (in_Sequence i)) (tx_Inputs t)).
Definition outputs_bytes (t : Tx) : bytes := concat (map out_bytes (tx_Outputs t)).

Definition bip143_preimage (t : Tx) (inp : TxIn) (scriptCode : bytes) (amount hashType : Z) : bytes :=
  le_split 4 (wrap 32 (tx_Version t)) ++
  dsha (prevouts_bytes t) ++ dsha (sequence_bytes t) ++
  outpoint_bytes (in_PrevOut inp) ++
  var_bytes scriptCode ++
  le_split 8 amount ++
  le_split 4 (in_Sequence inp) ++
  dsha (outputs_bytes t) ++
  le_split 4 (tx_LockTime t) ++
  le_split 4 hashType.

Definition HashForSigningBIP143 (t : Tx) (idx : Z) (scriptCode : bytes) (amount hashType : Z) : res bytes :=
  if (idx <? 0) || (zlen (tx_Inputs t) <=? idx) then Err "coins: input index out of range"
  else
    inp ← index (tx_Inputs t) idx;
    Ok (dsha (bip143_preimage t inp scriptCode amount hashType)).

Definition HashForSigningForkID (t : Tx) (idx : Z) (scriptCode : bytes) (amount forkValue : Z) : res bytes :=
  let hashType := Z.lor (Z.lor (wrap 32 (Z.shiftl forkValue 8)) SigHashForkID) SigHashAll in
  HashForSigningBIP143 t idx scriptCode amount hashType.

Definition HashForSigningSegwit (t : Tx) (idx : Z) (scriptCode : bytes) (amount : Z) : res bytes :=
  HashForSigningBIP143 t idx scriptCode amount SigHashAll.

Definition P2WPKHScriptCode (keyHash : bytes) : bytes := [x76; xa9; x14] ++ keyHash ++ [x88; xac].

(** ** Signing and verifying *)

Section Signing.
Context `{Secp}.

Definition signDigestWithSighash (h priv : bytes) (sighash : Z) : res bytes :=
  let key := PrivKeyFromBytes priv in
  let sig := ecdsa_Sign key h in
  let der := Signature_Serialize sig in
  Ok (der ++ [byte.of_Z sighash]).

Definition signDigest (h priv : bytes) : res bytes := signDigestWithSighash h priv SigHashAll.

Definition bad_priv : string := "coins: private key must be 32 bytes".

Definition SignTxInput (tx : Tx) (idx : Z) (prevScript priv : bytes) : res bytes :=
  if negb (zlen priv =? 32) then Err bad_priv
  else
    let h := HashForSigning tx idx prevScript in
    signDigest h priv.

Definition SignTxInputSegwit (tx : Tx) (idx : Z) (scriptCode : bytes) (amount : Z) (priv : bytes) : res bytes :=
  if negb (zlen priv =? 32) then Err bad_priv
  else
    h ← HashForSigningSegwit tx idx scriptCode amount;
    signDigest h priv.

Definition SignTxInputForkID (tx : Tx) (idx : Z) (scriptCode : bytes) (amount forkValue : Z) (priv : bytes) : res bytes :=
  if negb (zlen priv =? 32) then Err bad_priv
  else
    h ← HashForSigningForkID tx idx scriptCode amount forkValue;
    signDigestWithSighash h priv (Z.lor SigHashForkID SigHashAll).

Definition SignTxInputForCoin (tx : Tx) (idx : Z) (script : bytes) (amount : Z) (priv : bytes) (c : Coin) : res bytes :=
  match signature c with
  | SigForkID => SignTxInputForkID tx idx script amount (forkValue c) priv
  | SigLegacy => SignTxInput tx idx script priv
  end.

Definition verifyDigest (h pub sigWithSighash : bytes) : res bool :=
  der ← slice sigWithSighash 0 (zlen sigWithSighash - 1);
  sig ← ParseSignature der;
  p ← ParsePubKey pub;
  Ok (Signature_Verify sig h p).

(** The guards the three verifiers share, with their sighash byte. *)
Definition check_sighash (sigWithSighash : bytes) (sighash : Z) : res unit :=
  if zlen sigWithSighash <? 1 then Err "coins: empty signature"
  else
    last ← index sigWithSighash (zlen sigWithSighash - 1);
    if negb (byte.unsigned last =? sighash) then Err "coins: unexpected sighash type"
    else Ok tt.

Definition VerifyTxInput (tx : Tx) (idx : Z) (prevScript pub sigWithSighash : bytes) : res bool :=
  _ ← check_sighash sigWithSighash SigHashAll;
  let h := HashForSigning tx idx prevScript in
  verifyDigest h pub sigWithSighash.

Definition VerifyTxInputSegwit (tx : Tx) (idx : Z) (scriptCode pub : bytes) (amount : Z) (sigWithSighash : bytes) : res bool :=
  _ ← check_sighash sigWithSighash SigHashAll;
  h ← HashForSigningSegwit tx idx scriptCode amount;
  verifyDigest h pub sigWithSighash.

Definition VerifyTxInputForkID (tx : Tx) (idx : Z) (scriptCode pub : bytes) (amount forkValue : Z) (sigWithSighash : bytes) : res bool :=
  _ ← check_sighash sigWithSighash (Z.lor SigHashForkID SigHashAll);
  h ← HashForSigningForkID tx idx scriptCode amount forkValue;
  verifyDigest h pub sigWithSighash.
End Signing.

(** ** Parse steps *)

(** In an input of a representable size, at the position of [enc], the step
    gives [a] and ends behind it. *)
Definition parses_to {A} (m : bytes -> Step A) (enc : bytes) (a : A) : Prop :=
  forall pre post, zlen (pre ++ enc ++ post) < 2 ^ 62 ->
    m (pre ++ enc ++ post) (zlen pre) = Ok (a, zlen pre + zlen enc).

Lemma parses_bind {A B} (m : bytes -> Step A) (f : A -> bytes -> Step B) e1 e2 a c :
  parses_to m e1 a -> parses_to (f a) e2 c ->
  parses_to (fun b pos => '(a, pos) ← m b pos; f a b pos) (e1 ++ e2) c.
Proof.
  intros Hm Hf pre post Hl. rewrite <- !app_assoc in *. rewrite Hm by done. cbn [mbind res_bind].
  rewrite <- zlen_app, (app_assoc pre e1). rewrite Hf by (by rewrite <- app_assoc).
  rewrite !zlen_app. do 2 f_equal. lia.
Qed.

Lemma parses_ret {A} (a : A) : parses_to (fun _ pos => Ok (a, pos)) [] a.
Proof. intros pre post _. by rewrite Z.add_0_r. Qed.

Lemma parses_last {A B} (m : bytes -> Step A) (g : A -> B) e a :
  parses_to m e a -> parses_to (fun b pos => '(a, pos) ← m b pos; Ok (g a, pos)) e (g a).
Proof. intros Hm pre post Hl. rewrite Hm by done. done. Qed.

Lemma need_to n m : zlen m = n -> parses_to (fun b => need b n) m m.
Proof.
  intros <- pre post Hl. unfold need. rewrite !zlen_app in *.
  pose proof (zlen_nonneg pre). pose proof (zlen_nonneg m). pose proof (zlen_nonneg post).
  rewrite swrap64_small by lia. rewrite (proj2 (Z.ltb_ge (zlen pre + (zlen m + zlen post)) (zlen pre + zlen m))) by lia.
  rewrite slice_in_range by (rewrite ?zlen_app; lia). cbn [mbind res_bind].
  replace (zlen pre + zlen m - zlen pre) with (zlen m) by lia.
  unfold zlen. rewrite !Nat2Z.id, drop_app_length, take_app_length. done.
Qed.

Lemma varint_wide_to w m :
  length m = w -> (w <= 8)%nat -> le_combine m < 2 ^ 63 -> parses_to (fun b => varint_wide b w) m (le_combine m).
Proof.
  intros Hm Hw Hv pre post Hl. unfold varint_wide. rewrite (le_at_mid w pre m post) by done.
  assert (zlen m = Z.of_nat w) as Hz by (unfold zlen; lia).
  rewrite !zlen_app, Hz. pose proof (zlen_nonneg post). rewrite (proj2 (Z.ltb_ge _ _)) by lia.
  pose proof (le_combine_ok m) as [? _]. by rewrite swrap64_small by lia.
Qed.

Lemma le_split_combine_ok w v : uint_ok (8 * Z.of_nat w) v -> le_combine (le_split w v) = v.
Proof. apply le_combine_split_small. Qed.

Lemma varInt_head v : 0 <= v -> exists f t, varInt v = f :: t /\ (f = x00 <-> v = 0).
Proof.
  intros Hv. unfold varInt. repeat case_match; eexists _, _; (split; [reflexivity|]).
  - zbool. split.
    + intros E. apply (f_equal byte.unsigned) in E. rewrite byte_of_Z_small in E by (unfold uint_ok; lia). by vm_compute in E.
    + by intros ->.
  - zbool. split; [intros E; by vm_compute in E|lia].
  - zbool. split; [intros E; by vm_compute in E|lia].
  - zbool. split; [intros E; by vm_compute in E|lia].
Qed.

Lemma varInt_zlen v : 0 < zlen (varInt v) <= 9.
Proof. exact (writeVarInt_zlen v). Qed.

Lemma parses_wide f w v :
  253 <= f < 256 -> Z.of_nat w = (if f =? 253 then 2 else if f =? 254 then 4 else 8) ->
  0 <= v < 2 ^ 63 -> uint_ok (8 * Z.of_nat w) v ->
  parses_to readVarInt (byte.of_Z f :: le_split w v) v.
Proof.
  intros Hf Hw Hv Hu pre post Hl. unfold readVarInt.
  pose proof (zlen_nonneg post). rewrite !zlen_app, zlen_cons, zlen_le_split.
  rewrite (proj2 (Z.leb_gt _ _)) by lia. cbn [app]. rewrite index_mid. cbn [mbind res_bind].
  rewrite byte_of_Z_small by (unfold uint_ok; lia). rewrite (proj2 (Z.ltb_ge f 253)) by lia.
  assert (length (le_split w v) = w) as Hlen by apply length_le_split.
  pose proof (varint_wide_to w (le_split w v) Hlen) as Hp. rewrite le_combine_split_small in Hp by done.
  specialize (Hp ltac:(destruct (f =? 253), (f =? 254); lia) ltac:(lia) (pre ++ [byte.of_Z f]) post).
  rewrite <- !app_assoc in Hp. specialize (Hp Hl). rewrite zlen_app in Hp.
  change (zlen [byte.of_Z f]) with 1 in Hp. cbn [app] in Hp. rewrite zlen_le_split in Hp.
  destruct (f =? 253); [replace w with 2%nat in * by lia|destruct (f =? 254); [replace w with 4%nat in * by lia|replace w with 8%nat in * by lia]];
    rewrite Hp; do 2 f_equal; lia.
Qed.

Lemma readVarInt_to v : 0 <= v < 2 ^ 63 -> parses_to readVarInt (varInt v) v.
Proof.
  intros Hv. unfold varInt.
  destruct (Z.ltb_spec v 253); [|destruct (Z.leb_spec v 65535); [|destruct (Z.leb_spec v 4294967295)]];
    [|apply parses_wide; unfold uint_ok; cbn; lia..].
  intros pre post Hl. unfold readVarInt. pose proof (zlen_nonneg post). rewrite !zlen_app.
  change (zlen [byte.of_Z v]) with 1. rewrite (proj2 (Z.leb_gt _ _)) by lia. cbn [app]. rewrite index_mid.
  cbn [mbind res_bind]. rewrite byte_of_Z_small by (unfold uint_ok; lia). by rewrite (proj2 (Z.ltb_lt v 253)).
Qed.

Lemma var_bytes_to s : zlen s < 2 ^ 63 -> parses_to read_var_bytes (var_bytes s) s.
Proof.
  intros Hs. unfold read_var_bytes, var_bytes. pose proof (zlen_nonneg s).
  apply (parses_bind readVarInt (fun n b => need b n) _ _ (zlen s)); [by apply readVarInt_to|by apply need_to].
Qed.

(** A length of a Go slice is an [int]. *)
Definition small {A} (l : list A) : Prop := zlen l < 2 ^ 63.

Definition OutPoint_wf (o : OutPoint) : Prop := zlen (op_Hash o) = 32 /\ u32_ok (op_Index o).
Definition TxIn_wf (i : TxIn) : Prop :=
  OutPoint_wf (in_PrevOut i) /\ u32_ok (in_Sequence i) /\ in_Amount i = 0 /\ small (in_ScriptSig i).
Definition TxOut_wf (o : TxOut) : Prop := u64_ok (out_Value o) /\ small (out_ScriptPubKey o).

(** What an input is before its witness is read. *)
Definition no_witness (i : TxIn) : TxIn := mkTxIn (in_PrevOut i) (in_ScriptSig i) (in_Sequence i) [] 0.

Lemma need_le w v : uint_ok (8 * Z.of_nat w) v -> parses_to (fun b => need b (Z.of_nat w)) (le_split w v) (le_split w v).
Proof. intros _. apply need_to. apply zlen_le_split. Qed.


Lemma read_in_to i :
  TxIn_wf i -> parses_to read_in (in_bytes i) (no_witness i).
Proof.
  intros ([Hh Hix] & Hs & Ha & Hl). unfold in_bytes, outpoint_bytes. rewrite <- !app_assoc. unfold read_in.
  rewrite <- (app_nil_r (le_split 4 (in_Sequence i))).
  apply (parses_bind (fun b => need b 32) (fun h b pos => '(ix, pos) ← need b 4 pos; '(ss, pos) ← read_var_bytes b pos; '(seq, pos) ← need b 4 pos; Ok (mkTxIn (mkOutPoint h (le_combine ix)) ss (le_combine seq) [] 0, pos)) _ _ (op_Hash (in_PrevOut i))); [by apply need_to|].
  apply (parses_bind (fun b => need b 4) (fun ix b pos => '(ss, pos) ← read_var_bytes b pos; '(seq, pos) ← need b 4 pos; Ok (mkTxIn (mkOutPoint _ (le_combine ix)) ss (le_combine seq) [] 0, pos)) _ _ (le_split 4 (op_Index (in_PrevOut i)))); [by apply (need_le 4)|].
  apply (parses_bind read_var_bytes (fun ss b pos => '(seq, pos) ← need b 4 pos; Ok (mkTxIn (mkOutPoint _ _) ss (le_combine seq) [] 0, pos)) _ _ (in_ScriptSig i)); [by apply var_bytes_to|].
  apply (parses_bind (fun b => need b 4) (fun seq b pos => Ok (mkTxIn (mkOutPoint _ _) _ (le_combine seq) [] 0, pos)) _ _ (le_split 4 (in_Sequence i))); [by apply (need_le 4)|].
  rewrite !le_combine_split_small by done. unfold no_witness. destruct i as [[]]; cbn in *. apply parses_ret.
Qed.

Lemma read_out_to o : TxOut_wf o -> parses_to read_out (out_bytes o) o.
Proof.
  intros [Hv Hl]. unfold out_bytes, read_out. rewrite <- (app_nil_r (var_bytes _)).
  apply (parses_bind (fun b => need b 8) (fun val b pos => '(spk, pos) ← read_var_bytes b pos; Ok (mkTxOut (le_combine val) spk, pos)) _ _ (le_split 8 (out_Value o))); [by apply (need_le 8)|].
  apply (parses_bind read_var_bytes (fun spk b pos => Ok (mkTxOut _ spk, pos)) _ _ (out_ScriptPubKey o)); [by apply var_bytes_to|].
  rewrite le_combine_split_small by done. destruct o. apply parses_ret.
Qed.

Section Items.
Context {A} (item : bytes -> Step A) (enc : A -> bytes) (strip : A -> A).

Lemma read_items_to l fuel :
  Forall (fun a => parses_to item (enc a) (strip a)) l -> (length l <= fuel)%nat ->
  parses_to (fun b => read_items (item b) fuel (zlen l)) (concat (map enc l)) (map strip l).
Proof.
  intros Hl. revert fuel. induction Hl as [|a l Ha Hl IH]; intros fuel Hf pre post Hlen.
  { destruct fuel; cbn; by rewrite Z.add_0_r. }
  destruct fuel as [|fuel]; [cbn in Hf; lia|]. cbn [read_items map concat] in *.
  rewrite zlen_cons. pose proof (zlen_nonneg l). rewrite (proj2 (Z.leb_gt (1 + zlen l) 0)) by lia.
  rewrite <- !app_assoc in *. rewrite Ha by done. cbn [mbind res_bind].
  replace (1 + zlen l - 1) with (zlen l) by lia. rewrite <- zlen_app, (app_assoc pre).
  cbn [length] in Hf. rewrite IH by (first [lia|by rewrite <- app_assoc]).
  cbn [mbind res_bind]. rewrite !zlen_app. do 2 f_equal. lia.
Qed.

Context (k : Z) (Hk : 1 <= k).

Lemma concat_enc_length l : Forall (fun a => k <= zlen (enc a)) l -> k * zlen l <= zlen (concat (map enc l)).
Proof using. clear Hk.
  induction 1; [unfold zlen; cbn; lia|]. cbn [map concat]. rewrite zlen_cons, zlen_app. lia.
Qed.

Lemma items_enough l pre post :
  Forall (fun a => k <= zlen (enc a)) l -> (length l <= items_fuel (pre ++ concat (map enc l) ++ post))%nat.
Proof using Hk.
  intros Hl. pose proof (concat_enc_length l Hl). unfold items_fuel, zlen in *. rewrite !length_app. nia.
Qed.

Lemma read_counted_to mem cap size e l :
  Forall (fun a => parses_to item (enc a) (strip a)) l -> Forall (fun a => k <= zlen (enc a)) l ->
  zlen l <= cap -> cap * size <= mem -> 0 <= size -> cap * k < 2 ^ 63 -> cap < 2 ^ 63 ->
  parses_to (fun b => read_counted mem b (item b) cap k size e) (varInt (zlen l) ++ concat (map enc l)) (map strip l).
Proof using Hk.
  intros Hp Hl Hcap Hmem Hsize Hk' Hc pre post Hlen. unfold read_counted. pose proof (zlen_nonneg l) as Hn.
  rewrite <- !app_assoc in *. rewrite readVarInt_to by (first [lia|done]). cbn [mbind res_bind].
  pose proof (concat_enc_length l Hl) as Hb. pose proof (zlen_nonneg post) as Hpost.
  assert (zlen (pre ++ varInt (zlen l) ++ concat (map enc l) ++ post) - (zlen pre + zlen (varInt (zlen l))) =
    zlen (concat (map enc l)) + zlen post) as -> by (rewrite !zlen_app; lia).
  rewrite (proj2 (Z.ltb_ge (_ + _) 0)) by nia.
  rewrite (proj2 (Z.ltb_ge cap _)) by done. rewrite wrap_small by (unfold uint_ok; nia).
  rewrite (proj2 (Z.ltb_ge (_ + _) (_ * _))) by nia. rewrite andb_false_r. cbn [orb].
  unfold make. rewrite (proj2 (Z.ltb_ge (zlen l) 0)), (proj2 (Z.ltb_ge mem _)) by nia. cbn [orb mbind res_bind].
  rewrite <- zlen_app, (app_assoc pre). rewrite read_items_to; [|done|by apply items_enough|by rewrite <- app_assoc].
  rewrite !zlen_app. do 2 f_equal. lia.
Qed.
End Items.

Definition witness_wf (mem : Z) (i : TxIn) : Prop :=
  24 * zlen (in_Witness i) <= mem /\ small (in_Witness i) /\ Forall small (in_Witness i).

Lemma var_bytes_zlen s : 1 <= zlen (var_bytes s).
Proof. unfold var_bytes. rewrite zlen_app. pose proof (varInt_zlen (zlen s)). pose proof (zlen_nonneg s). lia. Qed.

Lemma read_witness_to mem i : witness_wf mem i -> parses_to (read_witness mem) (witness_bytes i) (in_Witness i).
Proof.
  intros (Hmem & Hs & Hw) pre post Hlen. unfold read_witness, witness_bytes in *. pose proof (zlen_nonneg (in_Witness i)) as Hn.
  rewrite <- !app_assoc in *. rewrite readVarInt_to by done. cbn [mbind res_bind].
  unfold make. rewrite (proj2 (Z.ltb_ge (zlen _) 0)), (proj2 (Z.ltb_ge mem _)) by lia. cbn [orb mbind res_bind].
  rewrite <- zlen_app, (app_assoc pre).
  rewrite (read_items_to read_var_bytes var_bytes id).
  - rewrite map_id, !zlen_app. do 2 f_equal. lia.
  - eapply Forall_impl; [exact Hw|]. intros s Hx. by apply var_bytes_to.
  - apply (items_enough _ 1); [lia|]. apply Forall_forall. intros s _. apply var_bytes_zlen.
  - by rewrite <- app_assoc.
Qed.

Lemma read_witnesses_to mem ins :
  Forall TxIn_wf ins -> Forall (witness_wf mem) ins ->
  parses_to (fun b => read_witnesses mem b (map no_witness ins)) (concat (map witness_bytes ins)) ins.
Proof.
  induction ins as [|i ins IH]; intros Hi Hw pre post Hlen; [cbn; by rewrite Z.add_0_r|].
  inversion Hi as [|? ? Hi1 Hi2]; subst. inversion Hw as [|? ? Hw1 Hw2]; subst.
  cbn [map concat read_witnesses] in *. rewrite <- !app_assoc in *.
  rewrite read_witness_to by done. cbn [mbind res_bind]. rewrite <- zlen_app, (app_assoc pre).
  rewrite IH by (first [done|by rewrite <- app_assoc]). cbn [mbind res_bind].
  destruct Hi1 as (_ & _ & Ha & _). destruct i as [o ss sq w am]; cbn in *. rewrite Ha, !zlen_app. do 2 f_equal. lia.
Qed.

Lemma in_bytes_zlen i : TxIn_wf i -> 41 <= zlen (in_bytes i).
Proof.
  intros ([Hh _] & _). unfold in_bytes, outpoint_bytes. rewrite !zlen_app, !zlen_le_split.
  pose proof (var_bytes_zlen (in_ScriptSig i)). lia.
Qed.

Lemma out_bytes_zlen o : 9 <= zlen (out_bytes o).
Proof. unfold out_bytes. rewrite zlen_app, zlen_le_split. pose proof (var_bytes_zlen (out_ScriptPubKey o)). lia. Qed.

(** The transactions the parser can return, on a process that can allocate
    [mem] bytes at once. *)
Definition Tx_wf (mem : Z) (t : Tx) : Prop :=
  - 2 ^ 31 <= tx_Version t < 2 ^ 31 /\ u32_ok (tx_LockTime t) /\
  zlen (tx_Inputs t) <= maxTxIns /\ Forall TxIn_wf (tx_Inputs t) /\
  zlen (tx_Outputs t) <= maxTxOuts /\ Forall TxOut_wf (tx_Outputs t) /\
  (if tx_WithTime t then u32_ok (tx_TxTime t) else tx_TxTime t = 0) /\
  (if tx_SegWit t then Forall (witness_wf mem) (tx_Inputs t) else Forall (fun i => in_Witness i = []) (tx_Inputs t)).

(** Without inputs and with one output, a legacy transaction starts like the
    segwit marker. *)
Definition looks_segwit (t : Tx) : bool :=
  negb (tx_SegWit t) && (zlen (tx_Inputs t) =? 0) && (zlen (tx_Outputs t) =? 1).

Lemma int32_wrap v : - 2 ^ 31 <= v < 2 ^ 31 -> int32 (wrap 32 v) = v.
Proof.
  intros Hv. unfold int32, wrap. destruct (Z.lt_ge_cases v 0).
  - replace (v mod 2 ^ 32) with (v + 2 ^ 32) by (apply Z.mod_unique with (-1); lia).
    rewrite (proj2 (Z.ltb_ge (v + 2 ^ 32) (2 ^ 31))); lia.
  - rewrite Z.mod_small by lia. by rewrite (proj2 (Z.ltb_lt v (2 ^ 31))) by lia.
Qed.

Definition tx_body (t : Tx) : bytes :=
  varInt (zlen (tx_Inputs t)) ++ concat (map in_bytes (tx_Inputs t)) ++
  varInt (zlen (tx_Outputs t)) ++ concat (map out_bytes (tx_Outputs t)) ++
  le_split 4 (tx_LockTime t) ++
  (if tx_SegWit t then concat (map witness_bytes (tx_Inputs t)) else []).

Lemma Serialize_eq t :
  Tx_Serialize t = (le_split 4 (wrap 32 (tx_Version t)) ++ time_field t) ++ (if tx_SegWit t then [x00; x01] else []) ++ tx_body t.
Proof. unfold Tx_Serialize, time_field, tx_body. by rewrite <- !app_assoc. Qed.

Lemma is_marker_at pre m post : length m = 2%nat -> is_marker (pre ++ m ++ post) (zlen pre) = bool_decide (m = [x00; x01]).
Proof.
  intros Hm. unfold is_marker. rewrite !zlen_app. replace (zlen m) with 2 by (unfold zlen; lia).
  pose proof (zlen_nonneg post). rewrite (proj2 (Z.leb_le _ _)) by lia. cbn [andb].
  unfold zlen. rewrite Nat2Z.id, drop_app_length. by rewrite take_drop_app_len by done.
Qed.

Lemma varInt_one n : 0 <= n -> (exists t, varInt n = x01 :: t) <-> n = 1.
Proof.
  intros Hn. split; [|intros ->; by exists []]. intros [t H]. unfold varInt in H.
  assert (forall k, 0 <= k < 256 -> byte.of_Z k = x01 -> k = 1) as Hk.
  { intros k Hk E. apply (f_equal byte.unsigned) in E. by rewrite byte_of_Z_small in E. }
  repeat case_match; injection H as H; subst; zbool; apply Hk in H; lia.
Qed.

(** The parser takes the marker exactly for a segwit transaction, or one that
    looks like it. *)
Lemma marker_of_body t pre :
  Forall TxOut_wf (tx_Outputs t) ->
  is_marker (pre ++ (if tx_SegWit t then [x00; x01] else []) ++ tx_body t) (zlen pre) = tx_SegWit t || looks_segwit t.
Proof.
  intros Ho. unfold looks_segwit. destruct (tx_SegWit t) eqn:Es; cbn [negb orb andb].
  { by rewrite is_marker_at. }
  unfold tx_body. rewrite Es. rewrite app_nil_l. pose proof (zlen_nonneg (tx_Inputs t)) as Hn.
  destruct (varInt_head _ Hn) as (f & tl & Ef & Hz). rewrite Ef. cbn [app].
  assert (exists g m, tl ++ concat (map in_bytes (tx_Inputs t)) ++ varInt (zlen (tx_Outputs t)) ++
    concat (map out_bytes (tx_Outputs t)) ++ le_split 4 (tx_LockTime t) ++ [] = g :: m /\
    (zlen (tx_Inputs t) = 0 -> g = x01 <-> zlen (tx_Outputs t) = 1)) as (g & m & -> & Hg).
  { destruct (Z.eqb_spec (zlen (tx_Inputs t)) 0) as [E0|].
    - destruct (tx_Inputs t); [|unfold zlen in E0; cbn in E0; lia].
      change (varInt (zlen (@nil TxIn))) with [x00] in Ef. injection Ef as <- <-. cbn [app map concat].
      pose proof (zlen_nonneg (tx_Outputs t)) as Hn'. destruct (varInt_head _ Hn') as (g & m & Eg & _).
      rewrite Eg. exists g, (m ++ concat (map out_bytes (tx_Outputs t)) ++ le_split 4 (tx_LockTime t) ++ []).
      split; [done|]. intros _. rewrite <- (varInt_one _ Hn'), Eg. split; [intros ->; eauto|intros [? [=]]; done].
    - set (r := concat _ ++ _). assert (r <> []) as Hr.
      { subst r. intros E. apply (f_equal zlen) in E. rewrite !zlen_app, zlen_le_split in E.
        pose proof (zlen_nonneg (concat (map in_bytes (tx_Inputs t)))). pose proof (varInt_zlen (zlen (tx_Outputs t))).
        pose proof (zlen_nonneg (concat (map out_bytes (tx_Outputs t)))). change (zlen (@nil byte)) with 0 in E. lia. }
      destruct (tl ++ r) as [|g m] eqn:E; [by apply app_eq_nil in E as [_ E]|]. exists g, m. split; [done|]. lia. }
  change (f :: g :: m) with ([f; g] ++ m). rewrite is_marker_at by done.
  destruct (Z.eqb_spec (zlen (tx_Inputs t)) 0) as [E0|E0]; cbn [andb].
  - apply Hz in E0 as E1. subst f. destruct (Z.eqb_spec (zlen (tx_Outputs t)) 1) as [E2|E2].
    + apply bool_decide_eq_true_2. by rewrite (proj2 (Hg E0) E2).
    + apply bool_decide_eq_false_2. intros [= E]. by apply E2, (Hg E0).
  - apply bool_decide_eq_false_2. intros [= E _]. by apply E0, Hz.
Qed.

Lemma parses_at {A} (m : bytes -> Step A) e a pre post b :
  parses_to m e a -> zlen b < 2 ^ 62 -> b = pre ++ e ++ post -> m b (zlen pre) = Ok (a, zlen (pre ++ e)).
Proof. intros H Hl ->. rewrite H by done. by rewrite zlen_app. Qed.

(** Everything behind the marker. *)
Definition parse_body (mem : Z) (segwit : bool) (b : bytes) : Step (list TxIn * list TxOut * Z) := fun pos =>
  '(ins, pos) ← read_ins mem b pos;
  '(outs, pos) ← read_outs mem b pos;
  '(lt, pos) ← need b 4 pos;
  '(ins, pos) ← (if segwit then read_witnesses mem b ins pos else Ok (ins, pos));
  Ok (ins, outs, le_combine lt, pos).

Lemma parse_body_to mem t :
  Tx_wf mem t -> 2 ^ 27 <= mem ->
  parses_to (parse_body mem (tx_SegWit t)) (tx_body t) (tx_Inputs t, tx_Outputs t, tx_LockTime t).
Proof.
  intros (Hv & Hlt & Hni & Hi & Hno & Ho & Htm & Hw) Hmem pre post Hlen. unfold parse_body.
  set (b := pre ++ tx_body t ++ post) in *.
  set (e1 := varInt (zlen (tx_Inputs t)) ++ concat (map in_bytes (tx_Inputs t))).
  set (e2 := varInt (zlen (tx_Outputs t)) ++ concat (map out_bytes (tx_Outputs t))).
  set (e3 := le_split 4 (tx_LockTime t)).
  set (e4 := if tx_SegWit t then concat (map witness_bytes (tx_Inputs t)) else []).
  assert (tx_body t = e1 ++ e2 ++ e3 ++ e4) as Eb by (unfold tx_body, e1, e2; by rewrite <- !app_assoc).
  unfold maxTxIns, maxTxOuts in *. change (Z.shiftl 1 20) with 1048576 in *.
  assert (parses_to (fun b => read_ins mem b) e1 (map no_witness (tx_Inputs t))) as H1.
  { apply (read_counted_to read_in in_bytes no_witness 41); try (change maxTxIns with 1048576; lia).
    - eapply Forall_impl; [exact Hi|]. apply read_in_to.
    - eapply Forall_impl; [exact Hi|]. apply in_bytes_zlen. }
  assert (parses_to (fun b => read_outs mem b) e2 (tx_Outputs t)) as H2.
  { rewrite <- (map_id (tx_Outputs t)). apply (read_counted_to read_out out_bytes id 9); try (change maxTxOuts with 1048576; lia).
    - eapply Forall_impl; [exact Ho|]. apply read_out_to.
    - apply Forall_forall. intros o _. apply out_bytes_zlen. }
  assert (b = pre ++ e1 ++ e2 ++ e3 ++ e4 ++ post) as Hb by (unfold b; rewrite Eb; by rewrite <- !app_assoc).
  rewrite (parses_at _ _ _ pre (e2 ++ e3 ++ e4 ++ post) b H1) by done. cbn [mbind res_bind].
  rewrite (parses_at _ _ _ (pre ++ e1) (e3 ++ e4 ++ post) b H2) by (first [done|by rewrite <- app_assoc]). cbn [mbind res_bind].
  rewrite (parses_at (fun b => need b 4) e3 e3 ((pre ++ e1) ++ e2) (e4 ++ post) b)
    by (first [done|apply (need_le 4); done|by rewrite <- !app_assoc]). cbn [mbind res_bind].
  assert (le_combine e3 = tx_LockTime t) as -> by (by apply le_combine_split_small).
  assert ((if tx_SegWit t then read_witnesses mem b (map no_witness (tx_Inputs t)) (zlen (((pre ++ e1) ++ e2) ++ e3))
    else Ok (map no_witness (tx_Inputs t), zlen (((pre ++ e1) ++ e2) ++ e3))) = Ok (tx_Inputs t, zlen (pre ++ tx_body t))) as ->.
  { rewrite Eb. unfold e4. destruct (tx_SegWit t).
    - rewrite (parses_at _ _ _ (((pre ++ e1) ++ e2) ++ e3) post b (read_witnesses_to mem (tx_Inputs t) Hi Hw))
        by (first [done|by rewrite Hb, <- !app_assoc]).
      by rewrite <- !app_assoc.
    - f_equal. f_equal; [|by rewrite app_nil_r, <- !app_assoc].
      clear -Hi Hw. induction Hi as [|i l Hi _ IH]; [done|]. inversion Hw; subst. cbn [map]. rewrite IH by done.
      f_equal. destruct Hi as (_ & _ & Ha & _). destruct i; cbn in *. unfold no_witness. cbn. by subst. }
  cbn [mbind res_bind]. by rewrite zlen_app.
Qed.

Lemma deserialize_eq mem b hasTime :
  deserializeTx mem b hasTime =
    '(ver, pos) ← need b 4 0;
    '(tm, pos) ← (if hasTime then need b 4 pos else Ok ([], pos));
    let segwit := is_marker b pos in
    '(ins, outs, lt, pos) ← parse_body mem segwit b (if segwit then pos + 2 else pos);
    if negb (pos =? zlen b) then Err "coins: trailing bytes in tx"
    else Ok (mkTx (int32 (le_combine ver)) lt ins outs segwit hasTime (le_combine tm)).
Proof.
  unfold deserializeTx, parse_body. destruct (need b 4 0) as [[ver p]| |]; [|done..]. cbn [mbind res_bind].
  destruct (if hasTime then _ else _) as [[tm p']| |]; [|done..]. cbn [mbind res_bind]. cbv zeta.
  destruct (read_ins _ _ _) as [[ins p1]| |]; [|done..]. cbn [mbind res_bind].
  destruct (read_outs _ _ _) as [[outs p2]| |]; [|done..]. cbn [mbind res_bind].
  destruct (need b 4 p2) as [[lt p3]| |]; [|done..]. cbn [mbind res_bind].
  by destruct (if is_marker b p' then _ else _) as [[ins' p4]| |].
Qed.

(** The version and time fields, and the marker. *)
Lemma deserialize_prefix mem t :
  Tx_wf mem t -> zlen (Tx_Serialize t) < 2 ^ 62 ->
  let hd := le_split 4 (wrap 32 (tx_Version t)) ++ time_field t in
  let segwit := tx_SegWit t || looks_segwit t in
  deserializeTx mem (Tx_Serialize t) (tx_WithTime t) =
    '(ins, outs, lt, pos) ← parse_body mem segwit (Tx_Serialize t) (if segwit then zlen hd + 2 else zlen hd);
    if negb (pos =? zlen (Tx_Serialize t)) then Err "coins: trailing bytes in tx"
    else Ok (mkTx (tx_Version t) lt ins outs segwit (tx_WithTime t) (tx_TxTime t)).
Proof.
  intros (Hv & Hlt & Hni & Hi & Hno & Ho & Htm & Hw) Hlen. cbv zeta. rewrite deserialize_eq.
  set (v := le_split 4 (wrap 32 (tx_Version t))).
  set (rest := (if tx_SegWit t then [x00; x01] else []) ++ tx_body t).
  assert (Tx_Serialize t = v ++ time_field t ++ rest) as Eb by (rewrite Serialize_eq; unfold v, rest; by rewrite <- !app_assoc).
  set (b := Tx_Serialize t) in *.
  change 0 with (zlen (@nil byte)) at 1.
  rewrite (parses_at (fun b => need b 4) v v [] (time_field t ++ rest) b)
    by (first [done|apply need_to, zlen_le_split]). rewrite app_nil_l. cbn [mbind res_bind].
  assert (le_combine v = wrap 32 (tx_Version t)) as -> by (apply le_combine_split_small, wrap_ok; lia).
  rewrite int32_wrap by done.
  assert ((if tx_WithTime t then need b 4 (zlen v) else Ok ([], zlen v)) =
    Ok (time_field t, zlen (v ++ time_field t)) /\ le_combine (time_field t) = tx_TxTime t) as [-> Htime].
  { unfold time_field in *. destruct (tx_WithTime t).
    - rewrite (parses_at (fun b => need b 4) (le_split 4 (tx_TxTime t)) (le_split 4 (tx_TxTime t)) v rest b)
        by (first [done|apply (need_le 4); done]). split; [done|]. by apply le_combine_split_small.
    - rewrite app_nil_r. by rewrite Htm. }
  cbn [mbind res_bind]. rewrite Htime.
  assert (is_marker b (zlen (v ++ time_field t)) = tx_SegWit t || looks_segwit t) as ->; [|done].
  rewrite Eb, app_assoc. by apply marker_of_body.
Qed.

(** ** What the parser accepts *)

Definition sound {A} (m : bytes -> Step A) (enc : A -> bytes) (wf : A -> Prop) : Prop :=
  forall b pos a pos', 0 <= pos <= zlen b -> zlen b < 2 ^ 62 -> m b pos = Ok (a, pos') ->
    wf a /\ pos + zlen (enc a) <= pos' <= zlen b.

Definition int_ok (v : Z) : Prop := - 2 ^ 63 <= v < 2 ^ 63.

Lemma need_inv b n pos s pos' :
  int_ok n -> 0 <= pos <= zlen b -> zlen b < 2 ^ 62 -> need b n pos = Ok (s, pos') ->
  zlen s = n /\ pos' = pos + n /\ pos' <= zlen b.
Proof.
  unfold need, slice, int_ok. intros Hn Hp Hl H. destruct (Z.ltb_spec (zlen b) (swrap64 (pos + n))); [done|].
  destruct (_ && _) eqn:E; [|done]. zbool. cbn in H. injection H as Hs Hf. rewrite Hf in *.
  assert (n = pos' - pos) as Hd.
  { unfold swrap64 in Hf. pose proof (Z.div_mod (pos + n + 2 ^ 63) (2 ^ 64)).
    pose proof (Z.mod_pos_bound (pos + n + 2 ^ 63) (2 ^ 64)). lia. }
  split; [|lia]. subst s. unfold zlen in *. rewrite length_take, length_drop. lia.
Qed.

Lemma varInt_zlen_le v :
  (v < 253 -> zlen (varInt v) = 1) /\ (v <= 65535 -> zlen (varInt v) <= 3) /\
  (v <= 4294967295 -> zlen (varInt v) <= 5) /\ zlen (varInt v) <= 9.
Proof.
  unfold varInt. repeat case_match; zbool; rewrite ?zlen_cons, ?zlen_le_split; unfold zlen; cbn; lia.
Qed.

Lemma swrap64_int v : int_ok (swrap64 v).
Proof. unfold int_ok, swrap64. pose proof (Z.mod_pos_bound (v + 2 ^ 63) (2 ^ 64)). lia. Qed.

Lemma varint_wide_inv b w pos v pos' :
  0 <= pos <= zlen b -> varint_wide b w pos = Ok (v, pos') ->
  int_ok v /\ pos' = pos + Z.of_nat w /\ pos' <= zlen b /\ ((w <= 4)%nat -> v < 2 ^ (8 * Z.of_nat w)).
Proof.
  unfold varint_wide. intros Hp H. destruct (Z.ltb_spec (zlen b) (pos + Z.of_nat w)); [done|]. injection H as <- <-.
  split; [apply swrap64_int|split; [done|split; [lia|]]]. intros Hw. unfold le_at.
  pose proof (le_combine_ok (take w (drop (Z.to_nat pos) b))) as Hok. unfold uint_ok, zlen in *.
  rewrite length_take, length_drop, Nat.min_l in Hok by lia.
  assert (2 ^ (8 * Z.of_nat w) <= 2 ^ 32) by (apply Z.pow_le_mono_r; lia).
  rewrite swrap64_small; lia.
Qed.

Lemma readVarInt_sound : sound readVarInt varInt int_ok.
Proof.
  intros b pos v pos' Hp Hl H. unfold readVarInt in H. destruct (Z.leb_spec (zlen b) pos); [done|].
  destruct (index_in_range b pos) as (a & Ha & _); [lia|]. rewrite Ha in H. cbn [mbind res_bind] in H.
  pose proof (byte.unsigned_range a). destruct (varInt_zlen_le v) as (V1 & V2 & V3 & V4). unfold int_ok in *.
  destruct (Z.ltb_spec (byte.unsigned a) 253); [injection H as <- <-; split; [lia|]; rewrite V1; lia|].
  destruct (_ =? 253); [|destruct (_ =? 254)];
    apply varint_wide_inv in H as (Hi & -> & ? & Hw); try lia; unfold int_ok in *; (split; [lia|]).
  - specialize (Hw ltac:(lia)). change (2 ^ (8 * Z.of_nat 2)) with 65536 in Hw. specialize (V2 ltac:(lia)). lia.
  - specialize (Hw ltac:(lia)). change (2 ^ (8 * Z.of_nat 4)) with 4294967296 in Hw. specialize (V3 ltac:(lia)). lia.
  - lia.
Qed.

Lemma var_bytes_sound : sound read_var_bytes var_bytes small.
Proof.
  intros b pos s pos' Hp Hl H. unfold read_var_bytes in H. apply res_bind_ok in H as ([n p] & E & H).
  apply readVarInt_sound in E as [Hn ?]; [|done|done].
  apply need_inv in H as (Hs & -> & ?); [|done|pose proof (varInt_zlen n); lia|done].
  unfold small, var_bytes. rewrite zlen_app, Hs. unfold int_ok in Hn. lia.
Qed.

Lemma need_le_inv b w pos s pos' :
  (w <= 32)%nat -> 0 <= pos <= zlen b -> zlen b < 2 ^ 62 -> need b (Z.of_nat w) pos = Ok (s, pos') ->
  zlen s = Z.of_nat w /\ uint_ok (8 * Z.of_nat w) (le_combine s) /\ pos' = pos + Z.of_nat w /\ pos' <= zlen b.
Proof.
  intros Hw Hp Hl H. apply need_inv in H as (Hs & -> & ?); [|unfold int_ok; lia|done|done].
  split; [done|split; [|lia]]. rewrite <- Hs. apply le_combine_ok.
Qed.

Lemma read_in_sound : sound read_in in_bytes (fun i => TxIn_wf i /\ in_Witness i = []).
Proof.
  intros b pos i pos' Hp Hl H. unfold read_in in H.
  apply res_bind_ok in H as ([h p1] & E1 & H). apply (need_le_inv b 32) in E1 as (Hh & _ & ? & ?); [|lia|done|done].
  apply res_bind_ok in H as ([ix p2] & E2 & H). apply (need_le_inv b 4) in E2 as (_ & Hix & ? & ?); [|lia|lia|done].
  apply res_bind_ok in H as ([ss p3] & E3 & H). apply var_bytes_sound in E3 as (Hss & ? & ?); [|lia|done].
  apply res_bind_ok in H as ([sq p4] & E4 & H). pose proof (var_bytes_zlen ss).
  apply (need_le_inv b 4) in E4 as (_ & Hsq & ? & ?); [|lia|lia|done].
  injection H as <- <-. unfold TxIn_wf, OutPoint_wf, in_bytes, outpoint_bytes; cbn [in_PrevOut in_ScriptSig in_Sequence in_Witness in_Amount op_Hash op_Index].
  rewrite !zlen_app, !zlen_le_split. unfold uint_ok in *. cbn in *. split; [done|]. lia.
Qed.

Lemma read_out_sound : sound read_out out_bytes TxOut_wf.
Proof.
  intros b pos o pos' Hp Hl H. unfold read_out in H.
  apply res_bind_ok in H as ([v p1] & E1 & H). apply (need_le_inv b 8) in E1 as (_ & Hv & ? & ?); [|lia|done|done].
  apply res_bind_ok in H as ([spk p2] & E2 & H). apply var_bytes_sound in E2 as (Hs & ? & ?); [|lia|done].
  injection H as <- <-. unfold TxOut_wf, out_bytes; cbn [out_Value out_ScriptPubKey].
  rewrite zlen_app, zlen_le_split. unfold uint_ok in *. cbn in *. split; [done|]. lia.
Qed.

Lemma read_items_sound {A} (item : bytes -> Step A) enc wf fuel n b pos l pos' :
  sound item enc wf -> 0 <= pos <= zlen b -> zlen b < 2 ^ 62 -> 0 <= n ->
  read_items (item b) fuel n pos = Ok (l, pos') ->
  zlen l = n /\ Forall wf l /\ pos + zlen (concat (map enc l)) <= pos' <= zlen b.
Proof.
  intros Hs Hp Hl. revert n pos l pos' Hp. induction fuel as [|fuel IH]; intros n pos l pos' Hp Hn H; cbn [read_items] in H;
    (destruct (Z.leb_spec n 0); [injection H as <- <-; unfold zlen; cbn; split; [lia|split; [constructor|unfold zlen in *; lia]]|]).
  { done. }
  apply res_bind_ok in H as ([a p1] & E1 & H). apply Hs in E1 as (Ha & ? & ?); [|done|done].
  apply res_bind_ok in H as ([k p2] & E2 & H). pose proof (zlen_nonneg (enc a)).
  apply IH in E2 as (Hk & Hw & ?); [|lia|lia]. injection H as <- <-.
  rewrite zlen_cons. cbn [map concat]. rewrite zlen_app. split; [lia|split; [by constructor|lia]].
Qed.

Lemma read_counted_sound {A} mem (item : bytes -> Step A) enc wf cap k size e b pos l pos' :
  sound item enc wf -> 0 <= pos <= zlen b -> zlen b < 2 ^ 62 ->
  read_counted mem b (item b) cap k size e pos = Ok (l, pos') ->
  Forall wf l /\ zlen l <= cap /\ pos + zlen (varInt (zlen l) ++ concat (map enc l)) <= pos' <= zlen b.
Proof.
  intros Hs Hp Hl H. unfold read_counted in H. apply res_bind_ok in H as ([n p] & E & H).
  apply readVarInt_sound in E as [_ ?]; [|done|done].
  destruct (_ || _) eqn:Ec; [done|]. apply orb_false_iff in Ec as [Hc%Z.ltb_ge _].
  apply res_bind_ok in H as ([] & Em & H). unfold make in Em. destruct (_ || _) eqn:Em'; [done|]. zbool.
  pose proof (varInt_zlen n). eapply read_items_sound in H as (Hn & Hw & ?); [|exact Hs|lia|done|done].
  rewrite zlen_app, Hn. split; [done|lia].
Qed.

Lemma read_witness_sound mem b pos w pos' :
  0 <= pos <= zlen b -> zlen b < 2 ^ 62 -> read_witness mem b pos = Ok (w, pos') ->
  24 * zlen w <= mem /\ small w /\ Forall small w /\
  pos + zlen (varInt (zlen w) ++ concat (map var_bytes w)) <= pos' <= zlen b.
Proof.
  intros Hp Hl H. unfold read_witness in H. apply res_bind_ok in H as ([n p] & E & H).
  apply readVarInt_sound in E as [Hi ?]; [|done|done].
  apply res_bind_ok in H as ([] & Em & H). unfold make in Em. destruct (_ || _) eqn:Em'; [done|]. zbool.
  pose proof (varInt_zlen n). eapply read_items_sound in H as (Hn & Hw & ?); [|exact var_bytes_sound|lia|done|done].
  unfold small at 1. rewrite zlen_app, Hn. unfold int_ok in Hi. split; [lia|split; [lia|split; [done|lia]]].
Qed.

Lemma read_witnesses_sound mem b ins pos ins' pos' :
  0 <= pos <= zlen b -> zlen b < 2 ^ 62 -> Forall TxIn_wf ins ->
  read_witnesses mem b ins pos = Ok (ins', pos') ->
  Forall TxIn_wf ins' /\ Forall (witness_wf mem) ins' /\ zlen ins' = zlen ins /\
  map in_bytes ins' = map in_bytes ins /\ pos + zlen (concat (map witness_bytes ins')) <= pos' <= zlen b.
Proof.
  intros Hp Hl Hi. revert pos ins' pos' Hp. induction Hi as [|i ins Hi1 Hi2 IH]; intros pos ins' pos' Hp H; cbn [read_witnesses] in H.
  { injection H as <- <-. cbn. rewrite Z.add_0_r. split_and!; try done; lia. }
  apply res_bind_ok in H as ([w p1] & E1 & H). apply read_witness_sound in E1 as (W1 & W2 & W3 & ?); [|done|done].
  apply res_bind_ok in H as ([l p2] & E2 & H).
  pose proof (zlen_nonneg (varInt (zlen w) ++ concat (map var_bytes w))).
  apply IH in E2 as (L1 & L2 & L3 & L4 & ?); [|lia]. injection H as <- <-. rewrite !zlen_cons. cbn [map concat].
  rewrite zlen_app, L4. unfold witness_bytes at 1; cbn [in_Witness]. split_and!; try lia; try done; constructor; done.
Qed.

Lemma deserialize_sound mem b hasTime t :
  zlen b < 2 ^ 62 -> DeserializeWithTime mem b hasTime = Ok t ->
  Tx_wf mem t /\ tx_WithTime t = hasTime /\ zlen (Tx_Serialize t) <= zlen b.
Proof.
  intros Hl H. unfold DeserializeWithTime, deserializeTx in H. pose proof (zlen_nonneg b).
  apply res_bind_ok in H as ([ver p0] & E0 & H). apply (need_le_inv b 4) in E0 as (_ & Hver & -> & ?); [|lia|lia|done].
  apply res_bind_ok in H as ([tm p1] & E1 & H).
  assert ((if hasTime then u32_ok (le_combine tm) else le_combine tm = 0) /\
    p1 = 4 + zlen (if hasTime then le_split 4 (le_combine tm) else []) /\ p1 <= zlen b) as (Htm & -> & ?).
  { destruct hasTime.
    - apply (need_le_inv b 4) in E1 as (_ & Htm & -> & ?); [|lia|lia|done]. rewrite zlen_le_split. split; [done|lia].
    - injection E1 as <- <-. split; [done|]. split; [done|]. change (Z.of_nat 4) with 4 in *. lia. }
  cbv zeta in H. set (segwit := is_marker b _) in H. set (tme := if hasTime then le_split 4 (le_combine tm) else []) in *.
  pose proof (zlen_nonneg tme).
  assert (exists p2, p2 = 4 + zlen tme + zlen (if segwit then [x00; x01] else []) /\ p2 <= zlen b /\
    (if segwit then 4 + zlen tme + 2 else 4 + zlen tme) = p2) as (p2 & Hp2 & ? & Ep2).
  { eexists. split; [done|]. unfold segwit, is_marker. destruct (Z.leb_spec (4 + zlen tme + 2) (zlen b)).
    - cbn [andb]. destruct (bool_decide _); unfold zlen in *; cbn in *; lia.
    - cbn [andb]. unfold zlen in *; cbn in *; lia. }
  rewrite Ep2 in H.
  apply res_bind_ok in H as ([ins p3] & E3 & H).
  eapply read_counted_sound in E3 as (Hi & Hni & ?); [|exact read_in_sound|destruct segwit; unfold zlen in *; cbn in *; lia|done].
  apply res_bind_ok in H as ([outs p4] & E4 & H). pose proof (zlen_nonneg (varInt (zlen ins) ++ concat (map in_bytes ins))).
  eapply read_counted_sound in E4 as (Ho & Hno & ?); [|exact read_out_sound|destruct segwit; unfold zlen in *; cbn in *; lia|done].
  apply res_bind_ok in H as ([lt p5] & E5 & H). pose proof (zlen_nonneg (varInt (zlen outs) ++ concat (map out_bytes outs))).
  apply (need_le_inv b 4) in E5 as (_ & Hlt & -> & ?); [|lia|destruct segwit; unfold zlen in *; cbn in *; lia|done].
  apply res_bind_ok in H as ([ins' p6] & E6 & H).
  destruct (negb _) eqn:Eend; [done|]. apply negb_false_iff, Z.eqb_eq in Eend. injection H as <-.
  assert (Forall TxIn_wf ins /\ Forall (fun i => in_Witness i = []) ins) as [Hi1 Hi2] by (by apply Forall_and).
  assert (Forall TxIn_wf ins' /\ (if segwit then Forall (witness_wf mem) ins' else Forall (fun i => in_Witness i = []) ins') /\
    zlen ins' = zlen ins /\ map in_bytes ins' = map in_bytes ins /\
    p4 + Z.of_nat 4 + zlen (if segwit then concat (map witness_bytes ins') else []) <= p6) as (I1 & I2 & I3 & I4 & ?).
  { destruct segwit.
    - apply read_witnesses_sound in E6 as (? & ? & ? & ? & ?); [|unfold zlen in *; cbn in *; lia|done|done]. split_and!; try done; lia.
    - injection E6 as <- <-. split_and!; try done. unfold zlen; cbn; lia. }
  unfold Tx_wf; cbn [tx_Version tx_LockTime tx_Inputs tx_Outputs tx_SegWit tx_WithTime tx_TxTime].
  rewrite I3. split; [|split; [done|]].
  - split_and!; try done; unfold int32, uint_ok in *; destruct (Z.ltb_spec (le_combine ver) (2 ^ 31)); cbn in Hver; lia.
  - rewrite Serialize_eq. unfold tx_body, time_field; cbn [tx_Version tx_LockTime tx_Inputs tx_Outputs tx_SegWit tx_WithTime tx_TxTime].
    rewrite I3, I4. fold tme. rewrite !zlen_app, !zlen_le_split in *. lia.
Qed.

(** ** The legacy signature hash, as a serialization *)

(** The transaction the legacy hash serializes. *)
Definition blanked (t : Tx) (idx : Z) (prevScript : bytes) : Tx :=
  mkTx (tx_Version t) (tx_LockTime t)
    (imap (fun i inp => mkTxIn (in_PrevOut inp) (if Z.of_nat i =? idx then prevScript else []) (in_Sequence inp) [] 0) (tx_Inputs t))
    (tx_Outputs t) false (tx_WithTime t) (tx_TxTime t).

Lemma zlen_imap {A B} (f : nat -> A -> B) l : zlen (imap f l) = zlen l.
Proof. unfold zlen. by rewrite length_imap. Qed.

Lemma map_imap {A B C} (f : nat -> A -> B) (g : B -> C) l : map g (imap f l) = imap (fun n a => g (f n a)) l.
Proof. revert f. induction l as [|a l IH]; intros f; [done|]. cbn. f_equal. apply IH. Qed.

Lemma legacy_preimage_blanked t idx ps :
  legacy_preimage t idx ps = Tx_Serialize (blanked t idx ps) ++ le_split 4 SigHashAll.
Proof.
  unfold legacy_preimage, Tx_Serialize, blanked; cbn [tx_Version tx_LockTime tx_Inputs tx_Outputs tx_SegWit tx_WithTime tx_TxTime].
  assert (imap (signed_in ps idx) (tx_Inputs t) = map in_bytes (imap (fun i inp =>
    mkTxIn (in_PrevOut inp) (if Z.of_nat i =? idx then ps else []) (in_Sequence inp) [] 0) (tx_Inputs t))) as ->
    by (by rewrite map_imap).
  by rewrite zlen_imap, <- !app_assoc.
Qed.

(** A transaction and the script it is signed for, in the ranges of their Go
    types. *)
Definition Tx_typed (t : Tx) (script : bytes) : Prop :=
  - 2 ^ 31 <= tx_Version t < 2 ^ 31 /\ u32_ok (tx_LockTime t) /\
  1 <= zlen (tx_Inputs t) <= maxTxIns /\
  Forall (fun i => OutPoint_wf (in_PrevOut i) /\ u32_ok (in_Sequence i)) (tx_Inputs t) /\
  zlen (tx_Outputs t) <= maxTxOuts /\ Forall TxOut_wf (tx_Outputs t) /\
  (if tx_WithTime t then u32_ok (tx_TxTime t) else tx_TxTime t = 0) /\ small script.

Lemma blanked_wf t idx ps : Tx_typed t ps -> Tx_wf (2 ^ 27) (blanked t idx ps) /\ looks_segwit (blanked t idx ps) = false.
Proof.
  intros (Hv & Hlt & Hni & Hi & Hno & Ho & Htm & Hs).
  unfold Tx_wf, looks_segwit, blanked; cbn [tx_Version tx_LockTime tx_Inputs tx_Outputs tx_SegWit tx_WithTime tx_TxTime].
  rewrite zlen_imap. split; [split_and!; try done; try lia|].
  - apply Forall_lookup. intros k i Hk. rewrite list_lookup_imap in Hk. apply fmap_Some in Hk as (j & Hj & ->).
    rewrite Forall_lookup in Hi. apply Hi in Hj as [H1 H2]. unfold TxIn_wf; cbn. split_and!; try done; try apply H1.
    by destruct (_ =? _).
  - apply Forall_lookup. intros k i Hk. rewrite list_lookup_imap in Hk. by apply fmap_Some in Hk as (j & Hj & ->).
  - destruct (Z.eqb_spec (zlen (tx_Inputs t)) 0); [lia|done].
Qed.

Lemma deserialize_serialize mem t :
  Tx_wf mem t -> 2 ^ 27 <= mem -> zlen (Tx_Serialize t) < 2 ^ 62 -> looks_segwit t = false ->
  DeserializeWithTime mem (Tx_Serialize t) (tx_WithTime t) = Ok t.
Proof.
  intros Hwf Hmem Hlen Hseg. unfold DeserializeWithTime. rewrite deserialize_prefix by done. cbv zeta.
  rewrite Hseg, orb_false_r.
  set (hd := le_split 4 (wrap 32 (tx_Version t)) ++ time_field t).
  set (m := if tx_SegWit t then [x00; x01] else []).
  assert ((if tx_SegWit t then zlen hd + 2 else zlen hd) = zlen (hd ++ m)) as ->.
  { rewrite zlen_app. unfold m, zlen. destruct (tx_SegWit t); cbn; lia. }
  rewrite (parses_at _ _ _ (hd ++ m) [] (Tx_Serialize t) (parse_body_to mem t Hwf Hmem))
    by (first [done|rewrite Serialize_eq; by rewrite <- !app_assoc, app_nil_r]).
  cbn [mbind res_bind]. assert (zlen ((hd ++ m) ++ tx_body t) = zlen (Tx_Serialize t)) as ->.
  { rewrite Serialize_eq. by rewrite <- !app_assoc. }
  rewrite Z.eqb_refl. cbn [negb]. by destruct t.
Qed.

Lemma Serialize_inj mem t t' :
  Tx_wf mem t -> Tx_wf mem t' -> 2 ^ 27 <= mem -> looks_segwit t = false -> looks_segwit t' = false ->
  tx_WithTime t = tx_WithTime t' -> zlen (Tx_Serialize t) < 2 ^ 62 -> Tx_Serialize t = Tx_Serialize t' -> t = t'.
Proof.
  intros H1 H2 Hm L1 L2 Hw Hl E.
  pose proof (deserialize_serialize mem t H1 Hm Hl L1) as D1. rewrite E in Hl.
  pose proof (deserialize_serialize mem t' H2 Hm Hl L2) as D2. rewrite E, Hw, D2 in D1. by injection D1.
Qed.

Lemma blanked_inj t t' idx idx' ps ps' :
  blanked t idx ps = blanked t' idx' ps' ->
  tx_Version t = tx_Version t' /\ tx_LockTime t = tx_LockTime t' /\ tx_TxTime t = tx_TxTime t' /\
  in_PrevOut <$> tx_Inputs t = in_PrevOut <$> tx_Inputs t' /\
  in_Sequence <$> tx_Inputs t = in_Sequence <$> tx_Inputs t' /\
  tx_Outputs t = tx_Outputs t' /\
  (0 <= idx < zlen (tx_Inputs t) -> 0 <= idx' < zlen (tx_Inputs t') -> ps <> [] -> idx = idx' /\ ps = ps').
Proof.
  intros E. unfold blanked in E. injection E as Ev Elt Ei Eo Ew Et. split_and!; try done.
  - apply (f_equal (fmap in_PrevOut)) in Ei. rewrite !fmap_imap in Ei.
    assert (forall l ps idx, imap (fun (n : nat) => in_PrevOut ∘ (fun inp => mkTxIn (in_PrevOut inp) (if Z.of_nat n =? idx then ps else []) (in_Sequence inp) [] 0)) l = in_PrevOut <$> l) as Hm.
    { intros l p k. apply list_eq. intros j. rewrite list_lookup_imap, list_lookup_fmap. by destruct (l !! j). }
    by rewrite !Hm in Ei.
  - apply (f_equal (fmap in_Sequence)) in Ei. rewrite !fmap_imap in Ei.
    assert (forall l ps idx, imap (fun (n : nat) => in_Sequence ∘ (fun inp => mkTxIn (in_PrevOut inp) (if Z.of_nat n =? idx then ps else []) (in_Sequence inp) [] 0)) l = in_Sequence <$> l) as Hm.
    { intros l p k. apply list_eq. intros j. rewrite list_lookup_imap, list_lookup_fmap. by destruct (l !! j). }
    by rewrite !Hm in Ei.
  - intros Hi Hi' Hne. apply (f_equal (fun l => in_ScriptSig <$> l !! Z.to_nat idx)) in Ei.
    rewrite !list_lookup_imap in Ei.
    destruct (lookup_lt_is_Some_2 (tx_Inputs t) (Z.to_nat idx)) as [i1 H1]; [unfold zlen in *; lia|].
    rewrite H1 in Ei. destruct (tx_Inputs t' !! Z.to_nat idx) as [i2|]; [|done].
    cbn in Ei. injection Ei as Ei. rewrite Z2Nat.id, Z.eqb_refl in Ei by lia.
    destruct (Z.eqb_spec idx idx'); [done|congruence].
Qed.

(** ** BIP143 *)

(** Self-delimiting encodings are injective in front of anything. *)
Lemma parses_to_inj {A} (m : bytes -> Step A) e1 e2 a1 a2 r1 r2 :
  parses_to m e1 a1 -> parses_to m e2 a2 -> zlen (e1 ++ r1) < 2 ^ 62 -> e1 ++ r1 = e2 ++ r2 ->
  a1 = a2 /\ zlen e1 = zlen e2.
Proof.
  intros H1 H2 Hl E. specialize (H1 [] r1 Hl). rewrite E in Hl. specialize (H2 [] r2 Hl).
  cbn [app] in *. change (zlen (@nil byte)) with 0 in *. rewrite E, H2 in H1. injection H1 as <- H1. split; [done|lia].
Qed.

Lemma app_inj_zlen (a b c d : bytes) : a ++ b = c ++ d -> zlen a = zlen c -> a = c /\ b = d.
Proof. intros E H. apply app_inj_1; [unfold zlen in H; lia|done]. Qed.

Lemma le_split_inj w u v : uint_ok (8 * Z.of_nat w) u -> uint_ok (8 * Z.of_nat w) v -> le_split w u = le_split w v -> u = v.
Proof. intros Hu Hv E. apply (f_equal le_combine) in E. by rewrite !le_combine_split_small in E. Qed.

Lemma dsha_zlen b : zlen (dsha b) = 32.
Proof. unfold dsha, zlen. by rewrite Sum256_length. Qed.

Lemma outpoint_bytes_inj o o' : OutPoint_wf o -> OutPoint_wf o' -> outpoint_bytes o = outpoint_bytes o' -> o = o'.
Proof.
  intros [H1 H2] [H3 H4] E. unfold outpoint_bytes in E. apply app_inj_zlen in E as [E1 E2]; [|lia].
  apply le_split_inj in E2; [|done..]. destruct o, o'; cbn in *; by subst.
Qed.

Lemma outpoint_bytes_zlen o : OutPoint_wf o -> zlen (outpoint_bytes o) = 36.
Proof. intros [H _]. unfold outpoint_bytes. rewrite zlen_app, zlen_le_split. lia. Qed.

Lemma bip143_preimage_inj t t' i i' sc sc' am am' ht ht' :
  - 2 ^ 31 <= tx_Version t < 2 ^ 31 -> - 2 ^ 31 <= tx_Version t' < 2 ^ 31 ->
  u32_ok (tx_LockTime t) -> u32_ok (tx_LockTime t') ->
  OutPoint_wf (in_PrevOut i) -> OutPoint_wf (in_PrevOut i') -> u32_ok (in_Sequence i) -> u32_ok (in_Sequence i') ->
  zlen sc < 2 ^ 61 -> zlen sc' < 2 ^ 61 -> u64_ok am -> u64_ok am' -> u32_ok ht -> u32_ok ht' ->
  bip143_preimage t i sc am ht = bip143_preimage t' i' sc' am' ht' ->
  tx_Version t = tx_Version t' /\ tx_LockTime t = tx_LockTime t' /\ in_PrevOut i = in_PrevOut i' /\
  in_Sequence i = in_Sequence i' /\ sc = sc' /\ am = am' /\ ht = ht' /\
  dsha (prevouts_bytes t) = dsha (prevouts_bytes t') /\ dsha (sequence_bytes t) = dsha (sequence_bytes t') /\
  dsha (outputs_bytes t) = dsha (outputs_bytes t').
Proof.
  intros Hv Hv' Hl Hl' Ho Ho' Hs Hs' Hsc Hsc' Ha Ha' Hh Hh' E. unfold bip143_preimage in E.
  apply app_inj_zlen in E as [E1 E]; [|by rewrite !zlen_le_split].
  apply app_inj_zlen in E as [E2 E]; [|by rewrite !dsha_zlen].
  apply app_inj_zlen in E as [E3 E]; [|by rewrite !dsha_zlen].
  apply app_inj_zlen in E as [E4 E]; [|by rewrite !outpoint_bytes_zlen].
  assert (sc = sc' /\ zlen (var_bytes sc) = zlen (var_bytes sc')) as [E5 El].
  { eapply (parses_to_inj read_var_bytes _ _ sc sc'); [apply var_bytes_to; lia|apply var_bytes_to; lia| |exact E].
    rewrite !zlen_app, !zlen_le_split, dsha_zlen. unfold var_bytes. rewrite zlen_app. pose proof (varInt_zlen (zlen sc)). lia. }
  apply app_inj_zlen in E as [_ E]; [|done].
  apply app_inj_zlen in E as [E6 E]; [|by rewrite !zlen_le_split].
  apply app_inj_zlen in E as [E7 E]; [|by rewrite !zlen_le_split].
  apply app_inj_zlen in E as [E8 E]; [|by rewrite !dsha_zlen].
  apply app_inj_zlen in E as [E9 E10]; [|by rewrite !zlen_le_split].
  apply le_split_inj in E1; [|apply wrap_ok; lia..]. apply (f_equal int32) in E1. rewrite !int32_wrap in E1 by done.
  apply outpoint_bytes_inj in E4; [|done..]. apply le_split_inj in E6, E7, E9, E10; done.
Qed.

(** ** Theorems *)

(** C40. Transactions survive the wire exactly when they can: a transaction in the
    ranges of its fields, serialized, parses back to itself if and only if it is
    not a legacy transaction without inputs and with one output, whose counts
    read as the segwit marker. *)
Theorem Tx_roundtrip (mem : Z) (t : Tx) (Hwf : Tx_wf mem t) (Hmem : 2 ^ 27 <= mem)
    (Hlen : zlen (Tx_Serialize t) < 2 ^ 62) :
  DeserializeWithTime mem (Tx_Serialize t) (tx_WithTime t) = Ok t <-> looks_segwit t = false.
Proof.
  split; [|by apply deserialize_serialize].
  intros H. destruct (looks_segwit t) eqn:E; [|done]. exfalso.
  assert (tx_SegWit t = false) as Es.
  { unfold looks_segwit in E. by destruct (tx_SegWit t). }
  unfold DeserializeWithTime in H. rewrite deserialize_prefix in H by done. cbv zeta in H. rewrite E, orb_true_r in H.
  apply res_bind_ok in H as ([[[ins outs] lt] pos] & _ & H). destruct (negb _); [done|].
  injection H as H. by rewrite <- H in Es.
Qed.

Definition sample_in (s : bytes) (w : list bytes) : TxIn := mkTxIn (mkOutPoint (repeat xab 32) 1) s 4294967295 w 0.
Definition sample_tx (segwit : bool) : Tx :=
  mkTx 2 500000
    [sample_in [x51; x52] (if segwit then [[x01]; repeat x02 33] else []); sample_in [] (if segwit then [[]] else [])]
    [mkTxOut 100000 (repeat x03 23); mkTxOut 5 []] segwit true 1700000000.

#[export] Instance TxIn_wf_dec i : Decision (TxIn_wf i).
Proof. unfold TxIn_wf, OutPoint_wf, small. apply _. Defined.

#[export] Instance Tx_wf_dec mem t : Decision (Tx_wf mem t).
Proof.
  unfold Tx_wf, TxIn_wf, TxOut_wf, OutPoint_wf, witness_wf, small.
  repeat apply and_dec; try apply _; destruct (tx_WithTime t), (tx_SegWit t); apply _.
Defined.

Lemma sample_tx_wf segwit : Tx_wf (2 ^ 27) (sample_tx segwit).
Proof. apply (bool_decide_unpack (Tx_wf _ _)). destruct segwit; by vm_compute. Qed.

Lemma Tx_roundtrip_witness :
  DeserializeWithTime (2 ^ 27) (Tx_Serialize (sample_tx true)) true = Ok (sample_tx true).
Proof.
  apply (Tx_roundtrip (2 ^ 27) (sample_tx true)).
  - apply sample_tx_wf.
  - done.
  - by vm_compute.
  - by vm_compute.
Defined.

(** What the parser accepts is a transaction in the ranges of its fields and of
    the caps, with the caller's nTime choice; its canonical serialization is no
    longer than the input, and parses to the same transaction (unless it reads
    as the segwit marker). *)
Theorem Deserialize_sound (mem : Z) (b : bytes) (hasTime : bool) (t : Tx)
    (Hmem : 2 ^ 27 <= mem) (Hl : zlen b < 2 ^ 62) (H : DeserializeWithTime mem b hasTime = Ok t) :
  Tx_wf mem t /\ tx_WithTime t = hasTime /\ zlen (Tx_Serialize t) <= zlen b /\
  (looks_segwit t = false -> DeserializeWithTime mem (Tx_Serialize t) hasTime = Ok t).
Proof.
  destruct (deserialize_sound mem b hasTime t Hl H) as (H1 & H2 & H3). split_and!; try done.
  intros Hs. rewrite <- H2. apply deserialize_serialize; try done. lia.
Qed.

Lemma Deserialize_sound_witness :
  exists t, DeserializeWithTime (2 ^ 27) (Tx_Serialize (sample_tx false)) true = Ok t /\ Tx_wf (2 ^ 27) t.
Proof.
  destruct (is_ok_ex (DeserializeWithTime (2 ^ 27) (Tx_Serialize (sample_tx false)) true)) as [t Ht]; [by vm_compute|].
  exists t. split; [exact Ht|].
  apply (Deserialize_sound (2 ^ 27) (Tx_Serialize (sample_tx false)) true t).
  - done.
  - by vm_compute.
  - exact Ht.
Defined.

Lemma readVarInt_huge pre n post :
  2 ^ 63 <= n < 2 ^ 64 ->
  readVarInt (pre ++ (xff :: le_split 8 n) ++ post) (zlen pre) = Ok (n - 2 ^ 64, zlen pre + 9).
Proof.
  intros Hn. unfold readVarInt. pose proof (zlen_nonneg post). rewrite !zlen_app, zlen_cons, zlen_le_split.
  rewrite (proj2 (Z.leb_gt _ _)) by lia. cbn [app]. rewrite index_mid. cbn [mbind res_bind].
  change (byte.unsigned xff) with 255. cbn [Z.ltb Z.eqb Z.compare Pos.compare Pos.compare_cont Pos.eqb].
  unfold varint_wide. replace (pre ++ xff :: le_split 8 n ++ post) with ((pre ++ [xff]) ++ le_split 8 n ++ post) by (by rewrite <- app_assoc).
  rewrite le_at_mid by (rewrite ?zlen_app, ?length_le_split; done).
  rewrite !zlen_app, zlen_le_split. change (zlen [xff]) with 1. rewrite (proj2 (Z.ltb_ge _ _)) by lia.
  rewrite le_combine_split_small by (unfold uint_ok; lia).
  assert (swrap64 n = n - 2 ^ 64) as ->; [|f_equal; f_equal; lia].
  unfold swrap64. rewrite <- (Z.mod_unique (n + 2 ^ 63) (2 ^ 64) 1 (n - 2 ^ 63)); lia.
Qed.

(** Lengths are trusted: an input count of 2^63 or more becomes negative, passes
    the guard against large counts and crashes in make, as the first bytes of an
    input behind any version; and the count of a witness stack is not guarded at
    all: whatever memory the process has, a transaction of a few dozen bytes
    asks for more, and crashes it. *)
Theorem Deserialize_crashes (mem n : Z) (ver rest : bytes) (i : TxIn) (outs : list TxOut) (lt : Z)
    (Hmem : 2 ^ 27 <= mem) (Hver : zlen ver = 4) (Hrest : zlen rest < 2 ^ 61) :
  (2 ^ 63 <= n < 2 ^ 64 ->
    Deserialize mem (ver ++ (xff :: le_split 8 n) ++ rest) = Panic) /\
  (TxIn_wf i -> in_Witness i = [] -> Forall TxOut_wf outs -> zlen outs <= maxTxOuts -> u32_ok lt ->
   0 <= n < 2 ^ 63 -> mem < 24 * n ->
   let t := mkTx 1 lt [i] outs false false 0 in
   zlen (tx_body t) < 2 ^ 60 ->
    Deserialize mem (ver ++ [x00; x01] ++ tx_body t ++ varInt n ++ rest) = Panic).
Proof.
  split.
  - intros Hn. unfold Deserialize. rewrite deserialize_eq. set (b := ver ++ _).
    assert (zlen b < 2 ^ 62) as Hb.
    { unfold b. rewrite !zlen_app, zlen_cons, zlen_le_split. lia. }
    change 0 with (zlen (@nil byte)).
    rewrite (parses_at (fun b => need b 4) ver ver [] ((xff :: le_split 8 n) ++ rest) b) by (first [done|by apply need_to]).
    rewrite app_nil_l. cbn [mbind res_bind]. cbv zeta.
    assert (is_marker b (zlen ver) = false) as ->.
    { unfold b. assert (exists c d m, (xff :: le_split 8 n) ++ rest = [c; d] ++ m /\ c = xff) as (c & d & m & -> & ->).
      { destruct (le_split 8 n) as [|d m] eqn:E; [by apply (f_equal (@length _)) in E; rewrite length_le_split in E|].
        by exists xff, d, (m ++ rest). }
      rewrite is_marker_at by done. by apply bool_decide_eq_false_2. }
    unfold parse_body, read_ins, read_counted.
    assert (readVarInt b (zlen ver) = Ok (n - 2 ^ 64, zlen ver + 9)) as -> by (unfold b; by apply readVarInt_huge).
    cbn [mbind res_bind].
    rewrite (proj2 (Z.ltb_ge maxTxIns (n - 2 ^ 64))) by (change maxTxIns with 1048576; lia).
    rewrite (proj2 (Z.ltb_ge 0 (n - 2 ^ 64))) by lia. cbn [orb andb]. unfold make.
    by rewrite (proj2 (Z.ltb_lt (n - 2 ^ 64) 0)) by lia.
  - intros Hi Hiw Ho Hno Hlt Hn Hbig t Hlen. unfold Deserialize. rewrite deserialize_eq.
    set (b := ver ++ [x00; x01] ++ tx_body t ++ varInt n ++ rest). pose proof (varInt_zlen n) as Hvn.
    assert (zlen b < 2 ^ 62) as Hb.
    { unfold b. rewrite !zlen_app. change (zlen [x00; x01]) with 2. lia. }
    change 0 with (zlen (@nil byte)).
    rewrite (parses_at (fun b => need b 4) ver ver [] ([x00; x01] ++ tx_body t ++ varInt n ++ rest) b) by (first [done|by apply need_to]).
    rewrite app_nil_l. cbn [mbind res_bind]. cbv zeta.
    assert (is_marker b (zlen ver) = true) as -> by (unfold b; by rewrite is_marker_at).
    replace (zlen ver + 2) with (zlen (ver ++ [x00; x01])) by (by rewrite zlen_app).
    assert (parse_body mem true b (zlen (ver ++ [x00; x01])) =
      '(ins, outs, lt, pos) ← parse_body mem false b (zlen (ver ++ [x00; x01]));
      '(ins, pos) ← read_witnesses mem b ins pos; Ok (ins, outs, lt, pos)) as ->.
    { unfold parse_body. destruct (read_ins mem b _) as [[? ?]| |]; [|done..]. cbn [mbind res_bind].
      destruct (read_outs mem b _) as [[? ?]| |]; [|done..]. cbn [mbind res_bind].
      by destruct (need b 4 _) as [[? ?]| |]. }
    assert (Tx_wf mem t) as Hwf.
    { unfold Tx_wf, t; cbn [tx_Version tx_LockTime tx_Inputs tx_Outputs tx_SegWit tx_WithTime tx_TxTime].
      split_and!; try done; try (apply Forall_cons_2; [done|by apply Forall_nil_2]). }
    rewrite (parses_at (parse_body mem false) _ _ (ver ++ [x00; x01]) (varInt n ++ rest) b (parse_body_to mem t Hwf Hmem))
      by (first [done|by unfold b; rewrite <- !app_assoc]). cbn [mbind res_bind tx_Inputs t].
    cbn [read_witnesses]. unfold read_witness.
    rewrite (parses_at readVarInt (varInt n) n ((ver ++ [x00; x01]) ++ tx_body t) rest b)
      by (first [done|apply readVarInt_to; lia|unfold b; by rewrite <- !app_assoc]).
    cbn [mbind res_bind]. unfold make. rewrite (proj2 (Z.ltb_lt mem (n * 24))) by lia. by rewrite orb_true_r.
Qed.

Lemma Deserialize_crashes_witness :
  Deserialize (2 ^ 40) (repeat x01 4 ++ (xff :: le_split 8 (2 ^ 64 - 1)) ++ []) = Panic /\
  Deserialize (2 ^ 40) (repeat x01 4 ++ [x00; x01] ++ tx_body (mkTx 1 0 [sample_in [] []] [] false false 0) ++ varInt (2 ^ 40) ++ []) = Panic.
Proof.
  split.
  - apply (proj1 (Deserialize_crashes (2 ^ 40) (2 ^ 64 - 1) (repeat x01 4) [] (sample_in [] []) [] 0 ltac:(lia) eq_refl ltac:(by vm_compute))); first [lia|by vm_compute].
  - apply (proj2 (Deserialize_crashes (2 ^ 40) (2 ^ 40) (repeat x01 4) [] (sample_in [] []) [] 0 ltac:(lia) eq_refl ltac:(by vm_compute)));
      [apply (bool_decide_unpack (TxIn_wf _)); by vm_compute|done|by apply Forall_nil_2|
       by vm_compute|by unfold uint_ok|lia|lia|by vm_compute].
Defined.

(** The transaction with its inputs changed by [f]. *)
Definition with_inputs (f : TxIn -> TxIn) (t : Tx) : Tx :=
  mkTx (tx_Version t) (tx_LockTime t) (f <$> tx_Inputs t) (tx_Outputs t) (tx_SegWit t) (tx_WithTime t) (tx_TxTime t).

(** What a legacy signature commits to: two transactions of coins with the same
    nTime setting that have the same hash preimage agree on the version, the
    time, the lock time, every outpoint and sequence in order and every output,
    and are signed for the same script at the same input; the scriptSigs,
    witnesses and amounts of the inputs are not covered, so that an input can be
    signed before the others have their scripts. *)
Theorem legacy_sighash_commits (t t' : Tx) (idx idx' : Z) (ps ps' : bytes) (f : TxIn -> TxIn)
    (Ht : Tx_typed t ps) (Ht' : Tx_typed t' ps') (Hw : tx_WithTime t = tx_WithTime t')
    (Hidx : 0 <= idx < zlen (tx_Inputs t)) (Hidx' : 0 <= idx' < zlen (tx_Inputs t')) (Hps : ps <> [])
    (Hlen : zlen (legacy_preimage t idx ps) < 2 ^ 62)
    (Hf : forall i, in_PrevOut (f i) = in_PrevOut i /\ in_Sequence (f i) = in_Sequence i) :
  HashForSigning (with_inputs f t) idx ps = HashForSigning t idx ps /\
  (legacy_preimage t idx ps = legacy_preimage t' idx' ps' ->
    tx_Version t = tx_Version t' /\ tx_LockTime t = tx_LockTime t' /\ tx_TxTime t = tx_TxTime t' /\
    in_PrevOut <$> tx_Inputs t = in_PrevOut <$> tx_Inputs t' /\
    in_Sequence <$> tx_Inputs t = in_Sequence <$> tx_Inputs t' /\
    tx_Outputs t = tx_Outputs t' /\ idx = idx' /\ ps = ps').
Proof.
  split.
  - unfold HashForSigning. do 2 f_equal. unfold legacy_preimage, time_field, with_inputs;
      cbn [tx_Version tx_LockTime tx_Inputs tx_Outputs tx_SegWit tx_WithTime tx_TxTime].
    assert (imap (signed_in ps idx) (f <$> tx_Inputs t) = imap (signed_in ps idx) (tx_Inputs t)) as ->.
    { apply list_eq. intros k. rewrite !list_lookup_imap, list_lookup_fmap. destruct (tx_Inputs t !! k) as [i|]; [|done].
      cbn. unfold signed_in. destruct (Hf i) as [-> ->]. done. }
    assert (zlen (f <$> tx_Inputs t) = zlen (tx_Inputs t)) as -> by (unfold zlen; by rewrite length_fmap). done.
  - intros E. rewrite !legacy_preimage_blanked in *.
    destruct (blanked_wf t idx ps Ht) as [W L]. destruct (blanked_wf t' idx' ps' Ht') as [W' L'].
    rewrite zlen_app, zlen_le_split in Hlen.
    assert (blanked t idx ps = blanked t' idx' ps') as Eb.
    { apply (Serialize_inj (2 ^ 27)); try done; [lia|]. by apply (app_inv_tail (le_split 4 SigHashAll)). }
    destruct (blanked_inj _ _ _ _ _ _ Eb) as (? & ? & ? & ? & ? & ? & Hs).
    destruct (Hs Hidx Hidx' Hps). done.
Qed.

Definition sample_prev : bytes := repeat x76 25.

#[export] Instance Tx_typed_dec t s : Decision (Tx_typed t s).
Proof.
  unfold Tx_typed, TxOut_wf, OutPoint_wf, small.
  repeat apply and_dec; try apply _; destruct (tx_WithTime t); apply _.
Defined.

Lemma legacy_sighash_commits_witness :
  HashForSigning (with_inputs (fun i => mkTxIn (in_PrevOut i) [] (in_Sequence i) [] 9) (sample_tx true)) 1 sample_prev =
    HashForSigning (sample_tx true) 1 sample_prev.
Proof.
  apply (legacy_sighash_commits (sample_tx true) (sample_tx true) 1 1 sample_prev sample_prev).
  - apply (bool_decide_unpack (Tx_typed _ _)). by vm_compute.
  - apply (bool_decide_unpack (Tx_typed _ _)). by vm_compute.
  - done.
  - split; by vm_compute.
  - split; by vm_compute.
  - by vm_compute.
  - by vm_compute.
  - done.
Defined.

(** What a BIP143 or fork-id signature commits to: equal preimages agree on the
    version, the lock time, the spent outpoint, its sequence, its amount, the
    script code and the hash type, and on the hashes of all outpoints, all
    sequences and all outputs; the nTime field is not covered. The fork value is
    the upper 24 bits of the hash type, so signatures for coins with different
    fork values have different preimages. *)
Theorem bip143_commits (t t' : Tx) (i i' : TxIn) (sc sc' : bytes) (am am' fv fv' : Z)
    (Hv : - 2 ^ 31 <= tx_Version t < 2 ^ 31 /\ - 2 ^ 31 <= tx_Version t' < 2 ^ 31)
    (Hl : u32_ok (tx_LockTime t) /\ u32_ok (tx_LockTime t'))
    (Hi : OutPoint_wf (in_PrevOut i) /\ u32_ok (in_Sequence i)) (Hi' : OutPoint_wf (in_PrevOut i') /\ u32_ok (in_Sequence i'))
    (Hsc : zlen sc < 2 ^ 61 /\ zlen sc' < 2 ^ 61) (Ham : u64_ok am /\ u64_ok am')
    (Hfv : uint_ok 24 fv /\ uint_ok 24 fv')
    (E : let ht v := Z.lor (Z.lor (wrap 32 (Z.shiftl v 8)) SigHashForkID) SigHashAll in
         bip143_preimage t i sc am (ht fv) = bip143_preimage t' i' sc' am' (ht fv')) :
  tx_Version t = tx_Version t' /\ tx_LockTime t = tx_LockTime t' /\ in_PrevOut i = in_PrevOut i' /\
  in_Sequence i = in_Sequence i' /\ sc = sc' /\ am = am' /\ fv = fv' /\
  dsha (prevouts_bytes t) = dsha (prevouts_bytes t') /\ dsha (sequence_bytes t) = dsha (sequence_bytes t') /\
  dsha (outputs_bytes t) = dsha (outputs_bytes t').
Proof.
  assert (forall v, uint_ok 24 v -> Z.lor (Z.lor (wrap 32 (Z.shiftl v 8)) SigHashForkID) SigHashAll = v * 256 + 65) as Hht.
  { intros v Hv'. unfold uint_ok in Hv'. rewrite <- Z.lor_assoc. change (Z.lor SigHashForkID SigHashAll) with 65.
    rewrite wrap_small by (rewrite Z.shiftl_mul_pow2 by lia; unfold uint_ok; lia).
    by destruct (shiftl_plus v 8 65 ltac:(lia) ltac:(lia)) as [_ ->]. }
  cbv beta zeta in E. destruct Hv, Hl, Hi, Hi', Hsc, Ham, Hfv as [Hf Hf'].
  rewrite !Hht in E by done. unfold uint_ok in Hf, Hf'.
  apply bip143_preimage_inj in E as (? & ? & ? & ? & ? & ? & ? & ? & ? & ?); try done; try (unfold uint_ok; lia).
  split_and!; try done. lia.
Qed.

Lemma bip143_commits_witness : tx_LockTime (sample_tx true) = tx_LockTime (sample_tx false).
Proof.
  apply (bip143_commits (sample_tx true) (sample_tx false) (sample_in [] []) (sample_in [x51] [])
    sample_prev sample_prev 70000 70000 79 79).
  - split; by vm_compute.
  - split; by vm_compute.
  - split; [split|]; by vm_compute.
  - split; [split|]; by vm_compute.
  - split; by vm_compute.
  - split; by vm_compute.
  - split; by vm_compute.
  - by vm_compute.
Defined.

(** ** Signing and verifying *)

Section SignVerify.
Context `{SecpLaws}.
Context (priv : bytes) (Hpriv : valid_priv priv).

Definition pub_of : bytes := SerializeCompressed (PubKeyOf (PrivKeyFromBytes priv)).

Lemma verifyDigest_sign h ty :
  zlen h = 32 ->
  verifyDigest h pub_of (Signature_Serialize (ecdsa_Sign (PrivKeyFromBytes priv) h) ++ [byte.of_Z ty]) = Ok true.
Proof.
  intros Hh. unfold verifyDigest. set (der := Signature_Serialize _). rewrite zlen_app. change (zlen [byte.of_Z ty]) with 1.
  pose proof (zlen_nonneg der). rewrite slice_in_range by (rewrite ?zlen_app; change (zlen [byte.of_Z ty]) with 1; lia).
  cbn [mbind res_bind]. rewrite drop_0, take_drop_app_len by (unfold zlen; lia).
  unfold der. rewrite ParseSignature_Serialize. cbn [mbind res_bind]. unfold pub_of.
  rewrite ParsePubKey_Serialize by done. cbn [mbind res_bind]. by rewrite Verify_Sign.
Qed.

Lemma check_sighash_snoc der ty want :
  0 <= ty < 256 -> check_sighash (der ++ [byte.of_Z ty]) want = if ty =? want then Ok tt else Err "coins: unexpected sighash type".
Proof.
  intros Hty. unfold check_sighash. rewrite zlen_app. change (zlen [byte.of_Z ty]) with 1. pose proof (zlen_nonneg der).
  rewrite (proj2 (Z.ltb_ge (zlen der + 1) 1)) by lia. replace (zlen der + 1 - 1) with (zlen der) by lia.
  rewrite index_mid. cbn [mbind res_bind]. rewrite byte_of_Z_small by done. by destruct (ty =? want).
Qed.

Lemma priv_len : zlen priv = 32.
Proof using Hpriv. apply Hpriv. Qed.

Lemma bip143_ok t idx sc am ht :
  0 <= idx < zlen (tx_Inputs t) -> exists h, HashForSigningBIP143 t idx sc am ht = Ok h /\ zlen h = 32.
Proof using.
  intros Hi. unfold HashForSigningBIP143. rewrite (proj2 (Z.ltb_ge idx 0)), (proj2 (Z.leb_gt _ idx)) by lia. cbn [orb].
  destruct (index_in_range (tx_Inputs t) idx Hi) as (i & -> & _). eexists. split; [reflexivity|]. apply dsha_zlen.
Qed.

(** A signature as the signers write it. *)
Definition sig_of (h : bytes) (ty : Z) : bytes := Signature_Serialize (ecdsa_Sign (PrivKeyFromBytes priv) h) ++ [byte.of_Z ty].

Lemma sig_of_zlen h ty : zlen (sig_of h ty) <= 73.
Proof using H0.
  unfold sig_of. rewrite zlen_app. change (zlen [byte.of_Z ty]) with 1.
  pose proof (Signature_Serialize_length (PrivKeyFromBytes priv) h). lia.
Qed.

Lemma legacy_ok t idx script :
  let h := HashForSigning t idx script in
  SignTxInput t idx script priv = Ok (sig_of h SigHashAll) /\ VerifyTxInput t idx script pub_of (sig_of h SigHashAll) = Ok true.
Proof.
  cbv zeta. split.
  - unfold SignTxInput. by rewrite priv_len.
  - unfold VerifyTxInput, sig_of. rewrite check_sighash_snoc by (unfold SigHashAll; lia). rewrite Z.eqb_refl. cbn [mbind res_bind].
    apply verifyDigest_sign. apply (dsha_zlen (legacy_preimage t idx script)).
Qed.

Lemma forkid_ok t idx script amount fv :
  0 <= idx < zlen (tx_Inputs t) ->
  exists h, SignTxInputForkID t idx script amount fv priv = Ok (sig_of h (Z.lor SigHashForkID SigHashAll)) /\ VerifyTxInputForkID t idx script pub_of amount fv (sig_of h (Z.lor SigHashForkID SigHashAll)) = Ok true.
Proof.
  intros Hi. destruct (bip143_ok t idx script amount (Z.lor (Z.lor (wrap 32 (Z.shiftl fv 8)) SigHashForkID) SigHashAll) Hi) as (h & Hh & Hh').
  exists h. split.
  - unfold SignTxInputForkID, HashForSigningForkID. cbv zeta. rewrite priv_len, Hh. reflexivity.
  - unfold VerifyTxInputForkID, HashForSigningForkID, sig_of. rewrite check_sighash_snoc by (split; by vm_compute).
    rewrite Z.eqb_refl. cbv zeta. rewrite Hh. cbn [mbind res_bind]. by apply verifyDigest_sign.
Qed.
End SignVerify.

(** Signing and verifying agree, against the interface of the secp256k1
    library: for a valid private key, each of the three signers succeeds (the
    two BIP143 ones for an input in range, and with an error otherwise), its
    verifier accepts the result under the key's public key, and a fork-id
    signature is refused by the legacy verifier and the other way round. *)
Theorem tx_sign_verify `{SecpLaws} (t : Tx) (idx amount fv : Z) (script priv : bytes) (Hpriv : valid_priv priv) :
  let pub := pub_of priv in
  (exists s, SignTxInput t idx script priv = Ok s /\ VerifyTxInput t idx script pub s = Ok true /\
     is_err (VerifyTxInputForkID t idx script pub amount fv s) = true) /\
  (if (0 <=? idx) && (idx <? zlen (tx_Inputs t))
   then (exists s, SignTxInputSegwit t idx script amount priv = Ok s /\
           VerifyTxInputSegwit t idx script pub amount s = Ok true) /\
        (exists s, SignTxInputForkID t idx script amount fv priv = Ok s /\
           VerifyTxInputForkID t idx script pub amount fv s = Ok true /\
           is_err (VerifyTxInput t idx script pub s) = true)
   else is_err (SignTxInputSegwit t idx script amount priv) = true /\
        is_err (SignTxInputForkID t idx script amount fv priv) = true).
Proof.
  cbv zeta. pose proof (priv_len priv Hpriv) as Hl. split.
  - destruct (legacy_ok priv Hpriv t idx script) as [H1 H2]. eexists. split; [exact H1|split; [exact H2|]].
    unfold VerifyTxInputForkID, sig_of. by rewrite check_sighash_snoc by (unfold SigHashAll; lia).
  - destruct ((0 <=? idx) && _) eqn:Ei.
    + apply andb_true_iff in Ei as [E1%Z.leb_le E2%Z.ltb_lt]. split.
      * destruct (bip143_ok t idx script amount SigHashAll) as (h & Hh & Hh'); [lia|]. eexists. split; [|].
        { unfold SignTxInputSegwit, HashForSigningSegwit. rewrite Hl, Hh. reflexivity. }
        unfold VerifyTxInputSegwit, HashForSigningSegwit. rewrite check_sighash_snoc by (unfold SigHashAll; lia).
        rewrite Z.eqb_refl, Hh. cbn [mbind res_bind]. by apply verifyDigest_sign.
      * destruct (forkid_ok priv Hpriv t idx script amount fv) as (h & H1 & H2); [lia|].
        eexists. split; [exact H1|split; [exact H2|]].
        unfold VerifyTxInput, sig_of. by rewrite check_sighash_snoc by (split; by vm_compute).
    + assert (forall ht, is_err (HashForSigningBIP143 t idx script amount ht) = true) as He.
      { intros ht. unfold HashForSigningBIP143. apply andb_false_iff in Ei as [E1%Z.leb_gt|E1%Z.ltb_ge].
        - by rewrite (proj2 (Z.ltb_lt idx 0)).
        - by rewrite (proj2 (Z.leb_le _ idx)), orb_true_r. }
      split; [unfold SignTxInputSegwit, HashForSigningSegwit; pose proof (He SigHashAll) as Hx|
        unfold SignTxInputForkID, HashForSigningForkID; cbv zeta;
        pose proof (He (Z.lor (Z.lor (wrap 32 (Z.shiftl fv 8)) SigHashForkID) SigHashAll)) as Hx];
        rewrite Hl; cbn [negb Z.eqb Pos.eqb]; by destruct (HashForSigningBIP143 _ _ _ _ _).
Qed.

Lemma tx_sign_verify_witness :
  exists s, SignTxInput (sample_tx false) 1 sample_prev sample_priv = Ok s /\
    VerifyTxInput (sample_tx false) 1 sample_prev (pub_of sample_priv) s = Ok true.
Proof.
  destruct (tx_sign_verify (sample_tx false) 1 0 0 sample_prev sample_priv) as [(s & H1 & H2 & _) _].
  - split; [done|by vm_compute].
  - exact (ex_intro _ s (conj H1 H2)).
Defined.
