(* ===== verification/Price.v ===== *)
(** The price check of partial orders (swap/price.go).

    Go's [float64] is the binary64 format of the Standard Library's
    [SpecFloat]: every operation rounds to nearest even on its own, as on
    amd64 (the Go specification lets other targets fuse a multiplication and
    an addition). *)

From Stdlib Require Import SpecFloat.
From S2P Require Import Prelude.

(** ** float64 *)

Definition f64 : Type := spec_float.
Definition f64_of (v : Z) : f64 := binary_normalize 53 1024 v 0 false.
Definition f64_mul (a b : f64) : f64 := SFmul 53 1024 a b.
Definition f64_div (a b : f64) : f64 := SFdiv 53 1024 a b.
Definition f64_add (a b : f64) : f64 := SFadd 53 1024 a b.
Definition f64_lt (a b : f64) : bool := SFltb a b.

(** [uint64(v)] of a value in range: truncation. *)
Definition f64_trunc (v : f64) : Z :=
  match v with
  | S754_finite false m e => if 0 <=? e then Z.pos m * 2 ^ e else Z.pos m / 2 ^ (- e)
  | _ => 0
  end.

Definition maxUint64 : Z := 2 ^ 64 - 1.
Definition coin : Z := 1000000.

(** ** Amounts derived from a price *)

(** [num * (a / b)] of scaled amounts, plus one, over [coin], as both helpers compute it. *)
Definition scaled_price (num a b : Z) : Z :=
  let c := f64_of coin in
  let v := f64_add (f64_mul (f64_mul (f64_of num) c) (f64_div (f64_mul (f64_of a) c) (f64_mul (f64_of b) c))) (f64_of 1) in
  let n := if f64_lt v (f64_of (2 ^ 63 - 1)) then f64_trunc v / coin
           else let q := f64_div v c in
                if f64_lt q (f64_of maxUint64) then f64_trunc q else maxUint64 in
  if n <? 1 then 1 else n.

Definition priceSource (counterpartyDest source dest : Z) : Z :=
  if dest =? 0 then 0 else scaled_price counterpartyDest source dest.

Definition priceDest (counterpartySource source dest : Z) : Z :=
  if source =? 0 then 0 else scaled_price counterpartySource dest source.

Definition max64 (a b : Z) : Z := if b <? a then a else b.
Definition min64 (a b : Z) : Z := if a <? b then a else b.

Definition PartialOrderDriftCheck (makerSource makerDest otherSource otherDest : Z) : bool :=
  if (otherSource =? 0) || (otherDest =? 0) then false
  else if (makerSource =? otherDest) && (makerDest =? otherSource) then true
  else
    let checkSourceAmount := priceSource makerDest otherDest otherSource in
    let checkDestAmount := priceDest makerSource otherDest otherSource in
    let checkSourceAmountOther := priceSource otherDest makerDest makerSource in
    let checkDestAmountOther := priceDest otherSource makerDest makerSource in
    let differ := negb (checkSourceAmountOther =? otherSource) || negb (checkDestAmountOther =? otherDest)
               || negb (checkSourceAmount =? makerSource) || negb (checkDestAmount =? makerDest) in
    if (makerSource mod otherDest =? 0) && (makerDest mod otherSource =? 0) then negb differ
    else if differ then
      let driftTakerSourceA := priceSource (wrap 64 (otherDest + 1)) makerDest makerSource in
      let driftTakerSourceB := priceSource (wrap 64 (otherDest - 1)) makerDest makerSource in
      if (max64 driftTakerSourceA driftTakerSourceB <? otherSource)
         || (otherSource <? min64 driftTakerSourceA driftTakerSourceB) then false
      else
        let driftTakerDestA := priceDest (wrap 64 (otherSource + 1)) makerDest makerSource in
        let driftTakerDestB := priceDest (wrap 64 (otherSource - 1)) makerDest makerSource in
        negb ((max64 driftTakerDestA driftTakerDestB <? otherDest)
              || (otherDest <? min64 driftTakerDestA driftTakerDestB))
    else true.

(** ** What the check decides *)

Example half_take : PartialOrderDriftCheck 1000000 4000000 2000000 500000 = true.
Proof. vm_compute. reflexivity. Qed.
Example cheap_take : PartialOrderDriftCheck 1000000 4000000 1999900 500000 = false.
Proof. vm_compute. reflexivity. Qed.

(** The comments promise that a take of the whole order passes and that
    amounts that agree with the quoted price pass. The first holds for all
    amounts, and a take of nothing never passes. The second does not hold: of
    an order of 2,000,000 coins for 1,400,000.000002, a take of exactly one
    half at exactly one half of the price is refused, because the derived
    amounts are computed in double precision and truncated. *)
Theorem drift_check_edges (makerSource makerDest otherSource otherDest : Z) :
  (otherSource = 0 \/ otherDest = 0 -> PartialOrderDriftCheck makerSource makerDest otherSource otherDest = false) /\
  (makerSource <> 0 -> makerDest <> 0 -> PartialOrderDriftCheck makerSource makerDest makerDest makerSource = true) /\
  let half := 1000000000000 in let pay := 700000000001 in
  PartialOrderDriftCheck (2 * half) (2 * pay) pay half = false.
Proof.
  split; [|split; [|vm_compute; reflexivity]]; unfold PartialOrderDriftCheck.
  - intros [-> | ->]; [reflexivity|]. by rewrite Z.eqb_refl, orb_true_r.
  - intros Hs Hd. apply Z.eqb_neq in Hs, Hd. by rewrite Hs, Hd, !Z.eqb_refl.
Qed.
