(* ===== verification/Hex.v ===== *)
(** * encoding/hex, and the two byte orders of a transaction id

    A transaction id is shown (and sent over RPC) as the hexadecimal of the
    reversed double SHA-256; a previous output carries the hash unreversed. *)

From S2P Require Import Prelude Sha256 Digits GoLib.

Definition hex_char (v : Z) : byte := if v <? 10 then byte.of_Z (v + 48) else byte.of_Z (v + 87).

Definition hex_val (c : byte) : option Z :=
  let v := byte.unsigned c in
  if (48 <=? v) && (v <=? 57) then Some (v - 48)
  else if (97 <=? v) && (v <=? 102) then Some (v - 87)
  else if (65 <=? v) && (v <=? 70) then Some (v - 55)
  else None.

(** [hex.EncodeToString] *)
Definition EncodeToString (b : bytes) : bytes :=
  concat (map (fun x => [hex_char (byte.unsigned x / 16); hex_char (byte.unsigned x mod 16)]) b).

(** [hex.DecodeString]: [None] is its error. *)
Fixpoint DecodeString (s : bytes) : option bytes :=
  match s with
  | [] => Some []
  | [_] => None
  | a :: c :: s' =>
      h ← hex_val a; l ← hex_val c; r ← DecodeString s';
      Some (byte.of_Z (16 * h + l) :: r)
  end.

(** [reverseTxidHex] of the api package and [reverseHashHex] of the swap package. *)
Definition reverseTxidHex (s : bytes) : option bytes :=
  b ← DecodeString s;
  if zlen b =? 32 then Some (rev b) else None.

Definition txIDFromBytes (raw : bytes) : bytes := EncodeToString (rev (Sum256 (Sum256 raw))).

Definition txIDFromHex (rawHex : bytes) : option bytes :=
  raw ← DecodeString rawHex; Some (txIDFromBytes raw).

(** ** Facts *)

Lemma hex_char_val v : 0 <= v < 16 -> hex_val (hex_char v) = Some v.
Proof.
  intros Hv.
  assert (H : Forall (fun n => hex_val (hex_char (Z.of_nat n)) = Some (Z.of_nat n)) (seq 0 16))
    by (repeat constructor).
  rewrite Forall_forall in H. rewrite <- (Z2Nat.id v) by lia. apply H, elem_of_seq. lia.
Qed.

Lemma hex_roundtrip b : DecodeString (EncodeToString b) = Some b.
Proof.
  induction b as [|x b IH]; [done|].
  change (EncodeToString (x :: b))
    with (hex_char (byte.unsigned x / 16) :: hex_char (byte.unsigned x mod 16) :: EncodeToString b).
  pose proof (byte_unsigned_ok x) as Hx. unfold u8_ok, uint_ok in Hx. cbn [DecodeString].
  rewrite !hex_char_val by (try apply Z.mod_pos_bound; try (split; [apply Z.div_pos|apply Z.div_lt_upper_bound]); lia).
  cbn. rewrite IH. cbn. f_equal. f_equal.
  rewrite <- Z.div_mod by lia. apply byte.of_Z_unsigned.
Qed.

Lemma reverseTxidHex_display h : zlen h = 32 -> reverseTxidHex (EncodeToString (rev h)) = Some h.
Proof.
  intros Hh. unfold reverseTxidHex. rewrite hex_roundtrip. cbn.
  unfold zlen in *. rewrite length_rev, Hh. cbn. by rewrite rev_involutive.
Qed.

Lemma reverseTxidHex_length s h : reverseTxidHex s = Some h -> zlen h = 32.
Proof.
  unfold reverseTxidHex. destruct (DecodeString s) as [b|]; cbn; [|done].
  destruct (zlen b =? 32) eqn:E; [|done]. intros [= <-]. zbool. unfold zlen in *. by rewrite length_rev.
Qed.

(** The id of a transaction decodes to the hash its spends carry. *)
Lemma txid_outpoint raw : reverseTxidHex (txIDFromBytes raw) = Some (Sum256 (Sum256 raw)).
Proof. apply reverseTxidHex_display. unfold zlen. by rewrite Sum256_length. Qed.
