(* ===== verification/Json.v ===== *)
(** * encoding/json, as the daemon uses it

    The values the standard library's parser reads from a document, for the
    inputs that come from the network: the config of a service node ping.  The
    scanner's grammar (whitespace, literals, numbers, strings, at most 10,000
    nested arrays and objects), the decoding of string escapes and the coercion
    of ill-formed UTF-8 to U+FFFD, and the two decoders the sources ask for:
    an object as a map (the last of equal keys wins) and an array of strings.
    The parser takes fuel; [jvalue_fuel] shows that twice the length of the
    input is enough: more fuel never changes the answer. *)

From S2P Require Import Prelude Digits GoLib Hex.

#[local] Set Warnings "-register-all".

Inductive json :=
| JNull
| JBool (b : bool)
| JNum (lit : bytes)
| JStr (s : bytes)
| JArr (l : list json)
| JObj (l : list (bytes * json)).

(** ** UTF-8 *)

(** The rest of a string that starts with the byte [c]. *)
Definition expect (c : byte) (s : bytes) : option bytes :=
  match s with a :: s => if Byte.eqb a c then Some s else None | [] => None end.

Definition in_range (lo hi : Z) (b : byte) : bool := (lo <=? byte.unsigned b) && (byte.unsigned b <=? hi).
Definition is_cont : byte -> bool := in_range 128 191.

(** The number of bytes of the encoded rune at the head of a string, [None] when it is ill-formed. *)
Definition rune_len (s : bytes) : option nat :=
  match s with
  | a :: s =>
      if byte.unsigned a <? 128 then Some 1%nat
      else match s with
      | b :: s =>
          if in_range 194 223 a && is_cont b then Some 2%nat
          else match s with
          | c :: s =>
              if ((bool_decide (a = xe0) && in_range 160 191 b)
                  || ((in_range 225 236 a || in_range 238 239 a) && is_cont b)
                  || (bool_decide (a = xed) && in_range 128 159 b)) && is_cont c then Some 3%nat
              else match s with
              | d :: _ =>
                  if ((bool_decide (a = xf0) && in_range 144 191 b)
                      || (in_range 241 243 a && is_cont b)
                      || (bool_decide (a = xf4) && in_range 128 143 b)) && is_cont c && is_cont d then Some 4%nat
                  else None
              | [] => None
              end
          | [] => None
          end
      | [] => None
      end
  | [] => None
  end.

Definition replacement : bytes := [xef; xbf; xbd].

(** [utf8.EncodeRune] of a code point below 0x110000. *)
Definition EncodeRune (r : Z) : bytes :=
  let cont k := byte.of_Z (128 + Z.land (Z.shiftr r k) 63) in
  if (1114111 <? r) || ((55296 <=? r) && (r <=? 57343)) then replacement
  else if r <=? 127 then [byte.of_Z r]
  else if r <=? 2047 then [byte.of_Z (192 + Z.shiftr r 6); cont 0]
  else if r <=? 65535 then [byte.of_Z (224 + Z.shiftr r 12); cont 6; cont 0]
  else [byte.of_Z (240 + Z.shiftr r 18); cont 12; cont 6; cont 0].

(** ** String literals *)

Definition hex4 (s : bytes) : option (Z * bytes) :=
  match s with
  | a :: b :: c :: d :: s =>
      a ← hex_val a; b ← hex_val b; c ← hex_val c; d ← hex_val d;
      Some (((a * 16 + b) * 16 + c) * 16 + d, s)
  | _ => None
  end.

Definition is_surrogate (r : Z) : bool := (55296 <=? r) && (r <=? 57343).

(** A second [\uXXXX] that completes a high surrogate. *)
Definition low_surrogate (hi : Z) (s : bytes) : option (Z * bytes) :=
  s ← expect x5c s;
  s ← expect x75 s;
  '(lo, s) ← hex4 s;
  if (hi <=? 56319) && (56320 <=? lo) && (lo <=? 57343)
  then Some ((hi - 55296) * 1024 + (lo - 56320) + 65536, s) else None.

Definition unicode_escape (s : bytes) : option (bytes * bytes) :=
  '(r, s) ← hex4 s;
  if is_surrogate r then
    match low_surrogate r s with
    | Some (r, s) => Some (EncodeRune r, s)
    | None => Some (replacement, s)
    end
  else Some (EncodeRune r, s).

(** The one-byte escapes and the bytes they stand for. *)
Definition short_escapes : list (byte * byte) :=
  [(x22, x22); (x5c, x5c); (x2f, x2f); (x62, x08); (x66, x0c); (x6e, x0a); (x72, x0d); (x74, x09)].

Definition escape (s : bytes) : option (bytes * bytes) :=
  match s with
  | a :: s =>
      match List.find (fun p => Byte.eqb p.1 a) short_escapes with
      | Some (_, v) => Some ([v], s)
      | None => if Byte.eqb a x75 then unicode_escape s else None
      end
  | [] => None
  end.

(** One rune of the text, [U+FFFD] in place of an ill-formed byte. *)
Definition text_rune (s : bytes) : bytes * bytes :=
  match rune_len s with
  | Some n => (take n s, drop n s)
  | None => (replacement, drop 1 s)
  end.

(** The rest of a literal whose opening quote has been read: its value and what follows. *)
Fixpoint jstring (fuel : nat) (s : bytes) : option (bytes * bytes) :=
  match fuel, s with
  | S fuel, a :: s' =>
      if Byte.eqb a x22 then Some ([], s')
      else
        '(v, s) ← (if Byte.eqb a x5c then escape s'
                   else if byte.unsigned a <? 32 then None else Some (text_rune s));
        '(w, s) ← jstring fuel s;
        Some (v ++ w, s)
  | _, _ => None
  end.

Definition quoted (s : bytes) : option (bytes * bytes) :=
  s ← expect x22 s; jstring (length s) s.

(** ** Numbers, literals, whitespace *)

Fixpoint span (p : byte -> bool) (s : bytes) : bytes * bytes :=
  match s with
  | a :: s' => if p a then let '(v, r) := span p s' in (a :: v, r) else ([], s)
  | [] => ([], [])
  end.

Definition is_ws (b : byte) : bool := existsb (Byte.eqb b) [x20; x09; x0a; x0d].
Definition skip_ws (s : bytes) : bytes := (span is_ws s).2.

(** The next byte after whitespace is [c]. *)
Definition tok (c : byte) (s : bytes) : option bytes := expect c (skip_ws s).

Definition digits1 (s : bytes) : option (bytes * bytes) :=
  let '(d, r) := span is_digit s in if bool_decide (d = []) then None else Some (d, r).

Definition jint (s : bytes) : option (bytes * bytes) :=
  match expect x30 s with
  | Some s => Some ([x30], s)
  | None => digits1 s
  end.

Definition jfrac (s : bytes) : option (bytes * bytes) :=
  match expect x2e s with
  | Some s => '(d, r) ← digits1 s; Some (x2e :: d, r)
  | None => Some ([], s)
  end.

Definition jsign (signs : list byte) (s : bytes) : bytes * bytes :=
  match s with
  | a :: s' => if existsb (Byte.eqb a) signs then ([a], s') else ([], s)
  | [] => ([], s)
  end.

Definition jexp (s : bytes) : option (bytes * bytes) :=
  match jsign [x65; x45] s with
  | ([], s) => Some ([], s)
  | (e, s) =>
      let '(sg, r) := jsign [x2b; x2d] s in
      '(d, r) ← digits1 r; Some (e ++ sg ++ d, r)
  end.

Definition jnumber (s : bytes) : option (bytes * bytes) :=
  let '(m, s) := jsign [x2d] s in
  '(i, s) ← jint s;
  '(f, s) ← jfrac s;
  '(e, s) ← jexp s;
  Some (m ++ i ++ f ++ e, s).

Definition literals : list (bytes * json) :=
  [(bytes_of "true", JBool true); (bytes_of "false", JBool false); (bytes_of "null", JNull)].

(** A value that is neither an array nor an object. *)
Definition jscalar (s : bytes) : option (json * bytes) :=
  match quoted s with
  | Some (v, s) => Some (JStr v, s)
  | None =>
      match List.find (fun p => HasPrefix s p.1) literals with
      | Some (w, v) => Some (v, drop (length w) s)
      | None => '(n, s) ← jnumber s; Some (JNum n, s)
      end
  end.

(** ** Values *)

Definition maxNestingDepth : Z := 10000.

Fixpoint jvalue (fuel : nat) (depth : Z) (s : bytes) {struct fuel} : option (json * bytes) :=
  match fuel with
  | O => None
  | S fuel =>
      match tok x7b s with
      | Some s =>
          if maxNestingDepth <=? depth then None
          else match tok x7d s with
               | Some s => Some (JObj [], s)
               | None => '(l, s) ← jmembers fuel (depth + 1) s; Some (JObj l, s)
               end
      | None =>
          match tok x5b s with
          | Some s =>
              if maxNestingDepth <=? depth then None
              else match tok x5d s with
                   | Some s => Some (JArr [], s)
                   | None => '(l, s) ← jelements fuel (depth + 1) s; Some (JArr l, s)
                   end
          | None => jscalar (skip_ws s)
          end
      end
  end
with jelements (fuel : nat) (depth : Z) (s : bytes) {struct fuel} : option (list json * bytes) :=
  match fuel with
  | O => None
  | S fuel =>
      '(v, s) ← jvalue fuel depth s;
      match tok x5d s with
      | Some s => Some ([v], s)
      | None =>
          s ← tok x2c s;
          '(l, s) ← jelements fuel depth s;
          Some (v :: l, s)
      end
  end
with jmembers (fuel : nat) (depth : Z) (s : bytes) {struct fuel} : option (list (bytes * json) * bytes) :=
  match fuel with
  | O => None
  | S fuel =>
      '(k, s) ← quoted (skip_ws s);
      s ← tok x3a s;
      '(v, s) ← jvalue fuel depth s;
      match tok x7d s with
      | Some s => Some ([(k, v)], s)
      | None =>
          s ← tok x2c s;
          '(l, s) ← jmembers fuel depth s;
          Some ((k, v) :: l, s)
      end
  end.

(** The whole document is one value, with whitespace around it. *)
Definition json_fuel (s : bytes) : nat := S (2 * length s).

Definition parse_json (s : bytes) : option json :=
  '(v, r) ← jvalue (json_fuel s) 0 s;
  if bool_decide (skip_ws r = []) then Some v else None.

(** ** Decoding into Go values *)

(** [var m map[string]json.RawMessage; json.Unmarshal(b, &m)]: [null] leaves it nil. *)
Definition decode_map (v : json) : option (list (bytes * json)) :=
  match v with JObj l => Some l | JNull => Some [] | _ => None end.

(** [m[key]]: the last member of that name. *)
Fixpoint map_get (l : list (bytes * json)) (key : bytes) : option json :=
  match l with
  | [] => None
  | (k, v) :: l =>
      match map_get l key with
      | Some v => Some v
      | None => if bool_decide (k = key) then Some v else None
      end
  end.

(** One element of a [[]string]: [null] leaves the empty string. *)
Definition decode_string (v : json) : option bytes :=
  match v with JStr s => Some s | JNull => Some [] | _ => None end.

Definition decode_strings (v : json) : option (list bytes) :=
  match v with
  | JArr l => mapM decode_string l
  | JNull => Some []
  | _ => None
  end.

(** [strconv.ParseInt(s, 10, 32)] *)
Definition ParseInt32 (s : bytes) : option Z :=
  let '(sg, d) := jsign [x2b; x2d] s in
  if all_digits d then
    let n := if bool_decide (sg = [x2d]) then - dec_value d else dec_value d in
    if (- 2 ^ 31 <=? n) && (n <? 2 ^ 31) then Some n else None
  else None.

(** [var n json.Number; json.Unmarshal(raw, &n)] of a value that is not a string. *)
Definition decode_number (v : json) : option bytes :=
  match v with JNum n => Some n | JNull => Some [] | _ => None end.

(** ** The fuel is enough *)

Lemma expect_length c s r : expect c s = Some r -> length s = S (length r).
Proof. destruct s; cbn; [done|]. case_match; naive_solver. Qed.

Lemma span_length p s : (length (span p s).1 + length (span p s).2 = length s)%nat.
Proof. induction s as [|a s IH]; cbn; [done|]. case_match; cbn; [|done]. destruct (span p s); cbn in *. lia. Qed.

Lemma skip_ws_length s : (length (skip_ws s) <= length s)%nat.
Proof. unfold skip_ws. pose proof (span_length is_ws s). lia. Qed.

Lemma tok_length c s r : tok c s = Some r -> (length r < length s)%nat.
Proof. intros H%expect_length. pose proof (skip_ws_length s). lia. Qed.

Lemma hex4_length s v r : hex4 s = Some (v, r) -> (length r < length s)%nat.
Proof.
  destruct s as [|a [|b [|c [|d s]]]]; cbn; try done. intros H.
  repeat (apply bind_Some in H as (? & _ & H)). injection H as _ <-. lia.
Qed.

Lemma low_surrogate_length h s v r : low_surrogate h s = Some (v, r) -> (length r < length s)%nat.
Proof.
  unfold low_surrogate. intros H. repeat (apply bind_Some in H as (? & ?%expect_length & H)).
  apply bind_Some in H as ([w s'] & ?%hex4_length & H). case_match; [|done]. injection H as _ <-. lia.
Qed.

Lemma escape_length s v r : escape s = Some (v, r) -> (length r < length s)%nat.
Proof.
  destruct s as [|a s]; [done|]. cbn [escape length]. destruct (List.find _ _) as [[u w]|]; [naive_solver lia|].
  destruct (Byte.eqb a x75); [|done]. unfold unicode_escape. intros H.
  apply bind_Some in H as ([u s1] & ?%hex4_length & H). case_match.
  - destruct (low_surrogate u s1) as [[w s2]|] eqn:E; [apply low_surrogate_length in E|]; injection H as _ <-; lia.
  - injection H as _ <-. lia.
Qed.

Lemma text_rune_length a s : (length (text_rune (a :: s)).2 <= length s)%nat.
Proof.
  unfold text_rune. destruct (rune_len (a :: s)) as [n|] eqn:E; cbn [snd]; [|done].
  rewrite length_drop. cbn [length]. cut (0 < n)%nat; [lia|].
  unfold rune_len in E. repeat case_match; simplify_eq; lia.
Qed.

Lemma jstring_length fuel s v r : jstring fuel s = Some (v, r) -> (length r < length s)%nat.
Proof.
  revert s v r; induction fuel as [|fuel IH]; intros [|a s] v r; cbn -[text_rune]; try done.
  destruct (Byte.eqb a x22); [naive_solver lia|]. intros H. apply bind_Some in H as ([u s1] & H1 & H).
  apply bind_Some in H as ([w s2] & ?%IH & H). injection H as _ <-.
  case_match; [apply escape_length in H1; lia|]. case_match; [done|]. injection H1 as H1.
  pose proof (text_rune_length a s) as Ht. rewrite H1 in Ht. cbn in Ht. lia.
Qed.

(** More fuel than bytes changes nothing. *)
Lemma jstring_fuel fuel fuel' s :
  (length s <= fuel)%nat -> (length s <= fuel')%nat -> jstring fuel s = jstring fuel' s.
Proof.
  revert fuel' s; induction fuel as [|fuel IH]; intros [|fuel'] [|a s] H H'; cbn [jstring length] in *; try done; try lia.
  case_match; [done|].
  destruct (if Byte.eqb a x5c then _ else _) as [[u s1]|] eqn:E; cbn; [|done].
  assert (length s1 <= length s)%nat.
  { case_match; [apply escape_length in E; lia|]. case_match; [done|]. injection E as E.
    pose proof (text_rune_length a s) as Ht. rewrite E in Ht. exact Ht. }
  by rewrite (IH fuel') by lia.
Qed.

Lemma quoted_length s v r : quoted s = Some (v, r) -> (length r < length s)%nat.
Proof.
  unfold quoted. intros H. apply bind_Some in H as (s1 & ?%expect_length & ?%jstring_length). lia.
Qed.

Lemma digits1_length s d r : digits1 s = Some (d, r) -> (length r < length s)%nat.
Proof.
  unfold digits1. pose proof (span_length is_digit s). destruct (span is_digit s) as [[|x d'] r']; cbn in *; [done|].
  intros [= <- <-]. lia.
Qed.

Lemma jsign_length l s v r : jsign l s = (v, r) -> (length r <= length s)%nat.
Proof. destruct s as [|a s]; cbn; [naive_solver lia|]. case_match; intros [= _ <-]; cbn; lia. Qed.

Lemma jnumber_length s v r : jnumber s = Some (v, r) -> (length r < length s)%nat.
Proof.
  unfold jnumber. destruct (jsign _ s) as [m s1] eqn:E0; apply jsign_length in E0. intros H.
  apply bind_Some in H as ([i s2] & Ei & H). apply bind_Some in H as ([f s3] & Ef & H).
  apply bind_Some in H as ([e s4] & Ee & [= _ <-]).
  assert (length s2 < length s1)%nat.
  { unfold jint in Ei. destruct (expect x30 s1) eqn:E; [apply expect_length in E; naive_solver lia|].
    by apply digits1_length in Ei. }
  assert (length s3 <= length s2)%nat.
  { unfold jfrac in Ef. destruct (expect x2e s2) eqn:E; [|naive_solver lia]. apply expect_length in E.
    apply bind_Some in Ef as ([? ?] & ?%digits1_length & [= _ <-]). lia. }
  unfold jexp in Ee. destruct (jsign [x65; x45] s3) as [e0 r0] eqn:E1; apply jsign_length in E1.
  destruct e0; [naive_solver lia|]. destruct (jsign [x2b; x2d] r0) as [sg r1] eqn:E2; apply jsign_length in E2.
  apply bind_Some in Ee as ([? ?] & ?%digits1_length & [= _ <-]). lia.
Qed.

Lemma jscalar_length s v r : jscalar s = Some (v, r) -> (length r < length s)%nat.
Proof.
  unfold jscalar. destruct (quoted s) as [[u s1]|] eqn:E; [apply quoted_length in E; naive_solver|].
  destruct (List.find _ _) as [[w u]|] eqn:Ef.
  - intros [= _ <-]. apply List.find_some in Ef as [Hin Hp]. cbn [fst] in Hp.
    assert (0 < length w <= length s)%nat; [|rewrite length_drop; lia].
    destruct s as [|x s]; [exfalso|]; repeat (destruct Hin as [Hin|Hin]; [simplify_eq; try by vm_compute in Hp|]); try done.
    all: cbn [length]; (split; [vm_compute; lia|]); repeat (destruct s as [|? s]; [cbn in Hp; repeat case_match; done|]); cbn; lia.
  - intros H. apply bind_Some in H as ([n s1] & ?%jnumber_length & [= _ <-]). done.
Qed.

(** What a value, a list of elements or of members leaves is shorter. *)
Lemma json_length fuel :
  (forall d s v r, jvalue fuel d s = Some (v, r) -> (length r < length s)%nat) /\
  (forall d s v r, jelements fuel d s = Some (v, r) -> (length r < length s)%nat) /\
  (forall d s v r, jmembers fuel d s = Some (v, r) -> (length r < length s)%nat).
Proof.
  induction fuel as [|fuel (IHv & IHe & IHm)]; [by split_and!|]. split_and!; intros d s v r; cbn [jvalue jelements jmembers].
  - destruct (tok x7b s) as [s1|] eqn:E1; [apply tok_length in E1|].
    { destruct (maxNestingDepth <=? d); [done|]. destruct (tok x7d s1) as [s2|] eqn:E2; [apply tok_length in E2; naive_solver lia|].
      intros H. apply bind_Some in H as ([? ?] & ?%IHm & [= _ <-]). lia. }
    destruct (tok x5b s) as [s1|] eqn:E2; [apply tok_length in E2|].
    { destruct (maxNestingDepth <=? d); [done|]. destruct (tok x5d s1) as [s2|] eqn:E3; [apply tok_length in E3; naive_solver lia|].
      intros H. apply bind_Some in H as ([? ?] & ?%IHe & [= _ <-]). lia. }
    intros ?%jscalar_length. pose proof (skip_ws_length s). lia.
  - intros H. apply bind_Some in H as ([u s1] & ?%IHv & H).
    destruct (tok x5d s1) as [s2|] eqn:E2; [apply tok_length in E2; naive_solver lia|].
    apply bind_Some in H as (s2 & ?%tok_length & H). apply bind_Some in H as ([? ?] & ?%IHe & [= _ <-]). lia.
  - intros H. apply bind_Some in H as ([k s1] & ?%quoted_length & H). pose proof (skip_ws_length s).
    apply bind_Some in H as (s2 & ?%tok_length & H). apply bind_Some in H as ([u s3] & ?%IHv & H).
    destruct (tok x7d s3) as [s4|] eqn:E2; [apply tok_length in E2; naive_solver lia|].
    apply bind_Some in H as (s4 & ?%tok_length & H). apply bind_Some in H as ([? ?] & ?%IHm & [= _ <-]). lia.
Qed.

(** From twice the length on, the fuel does not matter. *)
Lemma jvalue_fuel fuel : forall fuel',
  (forall d s, (2 * length s < fuel)%nat -> (fuel <= fuel')%nat -> jvalue fuel d s = jvalue fuel' d s) /\
  (forall d s, (2 * length s + 1 < fuel)%nat -> (fuel <= fuel')%nat -> jelements fuel d s = jelements fuel' d s) /\
  (forall d s, (2 * length s + 1 < fuel)%nat -> (fuel <= fuel')%nat -> jmembers fuel d s = jmembers fuel' d s).
Proof.
  induction fuel as [|fuel IH]; intros [|fuel']; try (split_and!; intros; lia).
  destruct (IH fuel') as (IHv & IHe & IHm). split_and!; intros d s Hf Hle; cbn [jvalue jelements jmembers].
  - destruct (tok x7b s) as [s1|] eqn:E1; [apply tok_length in E1; by rewrite IHm by lia|].
    destruct (tok x5b s) as [s1|] eqn:E2; [apply tok_length in E2; by rewrite IHe by lia|done].
  - rewrite IHv by lia. destruct (jvalue fuel' d s) as [[u s1]|] eqn:Ev; cbn; [|done]. apply json_length in Ev.
    destruct (tok x5d s1); [done|]. destruct (tok x2c s1) as [s2|] eqn:E2; cbn; [|done]. apply tok_length in E2.
    by rewrite IHe by lia.
  - destruct (quoted (skip_ws s)) as [[k s1]|] eqn:Ek; cbn; [|done]. apply quoted_length in Ek. pose proof (skip_ws_length s).
    destruct (tok x3a s1) as [s2|] eqn:E2; cbn; [|done]. apply tok_length in E2.
    rewrite IHv by lia. destruct (jvalue fuel' d s2) as [[u s3]|] eqn:Ev; cbn; [|done]. apply json_length in Ev.
    destruct (tok x7d s3); [done|]. destruct (tok x2c s3) as [s4|] eqn:E4; cbn; [|done]. apply tok_length in E4.
    by rewrite IHm by lia.
Qed.

(** A JSON text written with single quotes. *)
Definition json_text (s : string) : bytes :=
  (fun b => if Byte.eqb b x27 then x22 else b) <$> bytes_of s.

Example json_values :
  parse_json (json_text " { 'a': [1, -2.5e3 , null,true], 'b\u00e9\n' : {} , 'a':'' }") =
    Some (JObj [(bytes_of "a", JArr [JNum (bytes_of "1"); JNum (bytes_of "-2.5e3"); JNull; JBool true]);
                (bytes_of "b" ++ [xc3; xa9; x0a], JObj []); (bytes_of "a", JStr [])]) /\
  parse_json (json_text "'\ud83d\ude00\ud83d'") = Some (JStr ([xf0; x9f; x98; x80] ++ replacement)) /\
  parse_json (x22 :: xff :: xc3 :: xa9 :: [x22]) = Some (JStr (replacement ++ [xc3; xa9])) /\
  parse_json (json_text "01") = None /\ parse_json (json_text "[1,]") = None /\ parse_json [] = None /\
  parse_json (json_text "{} x") = None.
Proof. by vm_compute. Qed.

(** ** Marshal

    [json.Marshal] of strings and unsigned integers: the HTML-safe escapes,
    [\ufffd] in place of an ill-formed byte. *)

(** Without [html] the three HTML characters are written as they are
    ([SetEscapeHTML(false)]). *)
Definition safe (html : bool) (b : byte) : bool :=
  (32 <=? byte.unsigned b) && negb (existsb (Byte.eqb b) [x22; x5c]) && negb (html && existsb (Byte.eqb b) [x3c; x3e; x26]).
Abbreviation html_safe := (safe true).

Definition quote_ascii (html : bool) (b : byte) : bytes :=
  if safe html b then [b]
  else match List.find (fun p => Byte.eqb p.2 b) short_escapes with
       | Some (c, _) => [x5c; c]
       | None => bytes_of "\u00" ++ EncodeToString [b]
       end.

Definition quote_rune (html : bool) (s : bytes) : bytes * bytes :=
  match s with
  | [] => ([], [])
  | b :: s' =>
      if byte.unsigned b <? 128 then (quote_ascii html b, s')
      else match rune_len s with
           | None => (bytes_of "\ufffd", s')
           | Some n =>
               ((if bool_decide (take n s = [xe2; x80; xa8]) then bytes_of "\u2028"
                 else if bool_decide (take n s = [xe2; x80; xa9]) then bytes_of "\u2029" else take n s), drop n s)
           end
  end.

Fixpoint quote_text (html : bool) (fuel : nat) (s : bytes) : bytes :=
  match fuel, s with
  | S fuel, _ :: _ => let '(o, r) := quote_rune html s in o ++ quote_text html fuel r
  | _, _ => []
  end.

Definition quote_with (html : bool) (s : bytes) : bytes := [x22] ++ quote_text html (length s) s ++ [x22].
Abbreviation quote := (quote_with true).

Inductive scalar := SStr (s : bytes) | SUint (v : Z).
Definition marshal_scalar (v : scalar) : bytes := match v with SStr s => quote s | SUint v => dec_string v end.

Fixpoint join (sep : bytes) (l : list bytes) : bytes :=
  match l with [] => [] | [x] => x | x :: l => x ++ sep ++ join sep l end.

(** [json.Marshal([]any{...})] *)
Definition marshal_array (l : list scalar) : bytes := [x5b] ++ join [x2c] (map marshal_scalar l) ++ [x5d].

(** What the reader gets from a text: itself, if it is UTF-8. *)
Fixpoint coerce (fuel : nat) (s : bytes) : bytes :=
  match fuel, s with
  | S fuel, _ :: _ => let '(o, r) := text_rune s in o ++ coerce fuel r
  | _, _ => []
  end.

Lemma rune_len_app s n t : rune_len s = Some n -> (0 < n <= length s)%nat /\ rune_len (take n s ++ t) = Some n.
Proof.
  unfold rune_len. destruct s as [|a s]; [done|]. destruct (byte.unsigned a <? 128) eqn:E1.
  { intros [= <-]. cbn. rewrite E1. split; [lia|done]. }
  destruct s as [|b s]; [done|]. destruct (in_range 194 223 a && is_cont b) eqn:E2.
  { intros [= <-]. cbn. rewrite E1, E2. split; [lia|done]. }
  destruct s as [|c s]; [done|]. match goal with |- context [if ?x then Some 3%nat else _] => destruct x eqn:E3 end.
  { intros [= <-]. cbn. rewrite E1, E2, E3. split; [lia|done]. }
  destruct s as [|d s]; [done|]. match goal with |- context [if ?x then Some 4%nat else _] => destruct x eqn:E4 end; [|done].
  intros [= <-]. cbn. rewrite E1, E2, E3, E4. split; [lia|done].
Qed.

(** One step of the writer is one step of the reader. *)
Lemma jstring_quote_rune html f b s t :
  let '(o, r) := quote_rune html (b :: s) in let '(v, r') := text_rune (b :: s) in
  r = r' /\ o <> [] /\ (length r <= length s)%nat /\
  jstring (S f) (o ++ t) = ('(w, s) ← jstring f t; Some (v ++ w, s)).
Proof.
  unfold quote_rune. destruct (byte.unsigned b <? 128) eqn:Ea.
  { assert (text_rune (b :: s) = ([b], s)) as ->.
    { unfold text_rune, rune_len. by rewrite Ea. }
    split_and!; [done| |done|]; destruct html, b; try discriminate Ea; done. }
  unfold text_rune. destruct (rune_len (b :: s)) as [n|] eqn:En.
  2: { split_and!; try done. }
  destruct (rune_len_app _ _ t En) as [[Hn0 Hn] Ht].
  destruct n as [|n]; [lia|]. cbn [take drop] in *.
  split_and!; [done| |rewrite length_drop; lia|].
  { repeat case_bool_decide; done. }
  case_bool_decide as E1; [rewrite E1; reflexivity|]. case_bool_decide as E2; [rewrite E2; reflexivity|].
  cbn [app jstring]. unfold text_rune. cbn [app] in Ht. rewrite Ht.
  assert (Byte.eqb b x22 = false /\ Byte.eqb b x5c = false /\ byte.unsigned b <? 32 = false) as (-> & -> & ->)
    by (destruct b; try discriminate Ea; done).
  cbn [mbind option_bind take drop]. cbn [length] in Hn.
  assert (length (take n s) = n) as Hl by (rewrite length_take; lia).
  rewrite (take_app_length' _ _ n), (drop_app_length' _ _ n) by done. done.
Qed.

Lemma jstring_quote html k : forall s f rest, (length s <= k)%nat -> (length (quote_text html k s) < f)%nat ->
  jstring f (quote_text html k s ++ x22 :: rest) = Some (coerce k s, rest).
Proof.
  induction k as [|k IH]; intros [|b s] f rest Hk Hf; cbn [quote_text coerce app]; try (destruct f; [lia|done]).
  pose proof (fun f t => jstring_quote_rune html f b s t) as H. cbn [quote_text] in Hf.
  destruct (quote_rune html (b :: s)) as [o r], (text_rune (b :: s)) as [v r'].
  destruct (H 0%nat []) as (<- & Ho & Hl & _). destruct f as [|f]; [lia|]. rewrite <- app_assoc.
  destruct (H f (quote_text html k r ++ x22 :: rest)) as (_ & _ & _ & ->). rewrite length_app in Hf.
  destruct o; [done|]. cbn [length] in *. rewrite IH by lia. done.
Qed.

(** A marshalled string reads back, its ill-formed bytes aside. *)
Lemma quoted_quote html s rest : quoted (quote_with html s ++ rest) = Some (coerce (length s) s, rest).
Proof.
  unfold quoted, quote_with. rewrite <- !app_assoc. cbn [app expect]. cbn. apply jstring_quote; [lia|].
  rewrite length_app. cbn. lia.
Qed.

Lemma span_app p d c r : forallb p d = true -> p c = false -> span p (d ++ c :: r) = (d, c :: r).
Proof. intros Hd Hc. induction d as [|a d IH]; cbn in *; [by rewrite Hc|]. destruct (p a); [|done]. by rewrite IH. Qed.

(** What ends a scalar of an array. *)
Definition ends (c : byte) : Prop := c = x2c \/ c = x5d.

Lemma dec_string_cons v : 0 <= v -> exists a l, dec_string v = a :: l /\ is_digit a = true /\ (a = x30 -> l = []).
Proof.
  intros Hv. pose proof (dec_string_digits v Hv) as Hd. apply all_digits_true in Hd as [Hd Hne].
  destruct (dec_string v) as [|a l] eqn:E; [done|]. exists a, l. cbn in Hd. apply andb_true_iff in Hd as [Ha _]. split_and!; [done..|].
  intros ->. unfold dec_string in E. destruct (v =? 0); [by injection E as ->|]. exfalso.
  pose proof (to_digits_ok 10 ltac:(lia) v) as Hok. pose proof (to_digits_head 10 ltac:(lia) v Hv) as Hh.
  destruct (to_digits 10 v) as [|d ds]; [done|]. cbn in E. injection E as E _.
  apply (Forall_cons_1 _ d ds) in Hok as [Hd0 _]. destruct (digit_char_digit d Hd0) as [_ Hv']. rewrite E in Hv'. cbn in Hv', Hh. by subst d.
Qed.

Lemma jnumber_dec v c r : 0 <= v -> ends c -> jnumber (dec_string v ++ c :: r) = Some (dec_string v, c :: r).
Proof.
  intros Hv Hc. pose proof (dec_string_digits v Hv) as Hd. apply all_digits_true in Hd as [Hd _].
  destruct (dec_string_cons v Hv) as (a & l & E & Ha & H0). rewrite E in *. unfold jnumber.
  assert (jsign [x2d] ((a :: l) ++ c :: r) = ([], (a :: l) ++ c :: r)) as -> by (destruct a; done).
  assert (jint ((a :: l) ++ c :: r) = Some (a :: l, c :: r)) as ->.
  { unfold jint. destruct (Byte.eqb a x30) eqn:E0.
    - apply Byte.byte_dec_bl in E0. subst a. by rewrite H0.
    - cbn [app expect]. rewrite E0. unfold digits1.
      change (a :: l ++ c :: r) with ((a :: l) ++ c :: r). rewrite (span_app _ _ _ _ Hd) by (by destruct Hc as [-> | ->]). done. }
  cbn [mbind option_bind]. destruct Hc as [-> | ->]; cbn; by rewrite !app_nil_r.
Qed.

Definition scalar_json (v : scalar) : json :=
  match v with SStr s => JStr (coerce (length s) s) | SUint v => JNum (dec_string v) end.
Definition scalar_ok (v : scalar) : Prop := match v with SStr _ => True | SUint v => 0 <= v end.

Lemma skip_ws_id a s : is_ws a = false -> skip_ws (a :: s) = a :: s.
Proof. intros H. unfold skip_ws. cbn [span]. by rewrite H. Qed.

Lemma jvalue_scalar fuel d v c r : (0 < fuel)%nat -> scalar_ok v -> ends c ->
  jvalue fuel d (marshal_scalar v ++ c :: r) = Some (scalar_json v, c :: r).
Proof.
  intros Hf Hv Hc. destruct fuel as [|fuel]; [lia|]. destruct v as [s|v]; cbn [marshal_scalar scalar_json].
  - cbn [jvalue]. unfold jscalar. replace (tok x7b _) with (@None bytes) by done. replace (tok x5b _) with (@None bytes) by done.
    replace (skip_ws _) with (quote s ++ c :: r) by done. by rewrite quoted_quote.
  - cbn in Hv. destruct (dec_string_cons v Hv) as (a & l & E & Ha & _). pose proof (jnumber_dec v c r Hv Hc) as Hn. rewrite E in *.
    assert (is_ws a = false /\ Byte.eqb a x7b = false /\ Byte.eqb a x5b = false /\ Byte.eqb a x22 = false /\
      List.find (fun p => HasPrefix ((a :: l) ++ c :: r) p.1) literals = None) as (Hw & H1 & H2 & H3 & Hl).
    { destruct a; try discriminate Ha; done. }
    cbn [jvalue app]. unfold tok. rewrite (skip_ws_id _ _ Hw). cbn [expect]. rewrite H1, H2. unfold jscalar, quoted. cbn [app expect mbind option_bind].
    cbn [app] in *. by rewrite H3, Hl, Hn.
Qed.

Lemma jelements_marshal l : forall fuel d, Forall scalar_ok l -> l <> [] -> (length l < fuel)%nat ->
  jelements fuel d (join [x2c] (map marshal_scalar l) ++ [x5d]) = Some (map scalar_json l, []).
Proof.
  induction l as [|v l IH]; intros [|fuel] d Hl Hne Hf; try done; try (cbn in Hf; lia).
  apply Forall_cons_1 in Hl as [Hv Hl]. destruct l as [|w l].
  - cbn [map join jelements]. rewrite jvalue_scalar by (done || (cbn in *; lia) || by right). cbn. done.
  - change (join [x2c] (map marshal_scalar (v :: w :: l))) with (marshal_scalar v ++ [x2c] ++ join [x2c] (map marshal_scalar (w :: l))).
    rewrite <- !app_assoc. cbn [app]. cbn [jelements]. rewrite jvalue_scalar by (done || (cbn in *; lia) || by left). cbn [mbind option_bind].
    assert (forall t, tok x5d (x2c :: t) = None /\ tok x2c (x2c :: t) = Some t) as Ht by done.
    destruct (Ht (join [x2c] (map marshal_scalar (w :: l)) ++ [x5d])) as [-> ->]. cbn [mbind option_bind].
    rewrite IH by (done || (cbn in *; lia)). done.
Qed.

Lemma join_length l : Forall scalar_ok l -> (length l <= length (join [x2c] (map marshal_scalar l)))%nat.
Proof.
  induction 1 as [|v l Hv Hl IH]; [done|]. assert (1 <= length (marshal_scalar v))%nat.
  { destruct v as [s|v]; cbn; [lia|]. cbn in Hv. destruct (dec_string_cons v Hv) as (? & ? & -> & _). cbn. lia. }
  destruct l as [|w l]; cbn [map join length] in *; [lia|]. rewrite !length_app. cbn [length] in *. lia.
Qed.

(** A marshalled array reads back as the values it was made of. *)
Lemma marshal_array_roundtrip l : Forall scalar_ok l -> l <> [] -> parse_json (marshal_array l) = Some (JArr (map scalar_json l)).
Proof.
  intros Hl Hne. unfold parse_json, marshal_array, json_fuel. pose proof (join_length l Hl) as Hj.
  set (t := join [x2c] (map marshal_scalar l)) in *. cbn [jvalue].
  replace (tok x7b _) with (@None bytes) by done. replace (tok x5b _) with (Some (t ++ [x5d])) by done.
  assert (maxNestingDepth <=? 0 = false) as -> by done.
  assert (tok x5d (t ++ [x5d]) = None) as ->.
  { unfold t. destruct l as [|v l]; [done|]. inversion Hl as [|? ? Hv _]. assert (exists a k, marshal_scalar v = a :: k /\ is_ws a = false /\ Byte.eqb a x5d = false) as (a & k & Ha & Hw & He).
    { destruct v as [s|v]; [by exists x22; eexists|]. cbn in Hv |- *. destruct (dec_string_cons v Hv) as (a & k & -> & Hd & _). exists a, k. split; [done|]. by destruct a. }
    destruct l as [|w l]; cbn [map join]; rewrite Ha; cbn [app]; unfold tok; rewrite (skip_ws_id _ _ Hw); cbn [expect]; by rewrite He. }
  unfold t. rewrite jelements_marshal; [done..|]. fold t. rewrite !length_app. cbn. lia.
Qed.
