(* ===== verification/Reply.v ===== *)
(** * Writing JSON (encoding/json)

    The compact text of a JSON value, with or without the escapes for HTML: what
    [json.Marshal] and the server's encoder make of the rows and replies of the
    RPC handlers.  [write_json_roundtrip]: a value whose numbers are literals of
    the grammar and that is at most 10,000 levels deep reads back as itself, the
    ill-formed UTF-8 of its strings replaced. *)

From S2P Require Import Prelude Digits GoLib Hex Json.

#[local] Set Warnings "-register-all".

Section Write.
Variable html : bool.

Fixpoint write_json (v : json) : bytes :=
  match v with
  | JNull => bytes_of "null"
  | JBool b => bytes_of (if b then "true" else "false")
  | JNum l => l
  | JStr s => quote_with html s
  | JArr l => [x5b] ++ join [x2c] (map write_json l) ++ [x5d]
  | JObj l => [x7b] ++ join [x2c] (map (fun kv => quote_with html kv.1 ++ [x3a] ++ write_json kv.2) l) ++ [x7d]
  end.

Definition write_member (kv : bytes * json) : bytes := quote_with html kv.1 ++ [x3a] ++ write_json kv.2.
End Write.

(** The strings as a reader gets them. *)
Fixpoint norm (v : json) : json :=
  match v with
  | JStr s => JStr (coerce (length s) s)
  | JArr l => JArr (map norm l)
  | JObj l => JObj (map (fun kv => (coerce (length kv.1) kv.1, norm kv.2)) l)
  | v => v
  end.

(** A literal of the number grammar, to its end. *)
Definition num_ok (l : bytes) : bool := bool_decide (jnumber l = Some (l, [])).

Fixpoint json_ok (v : json) : bool :=
  match v with
  | JNum l => num_ok l
  | JArr l => forallb json_ok l
  | JObj l => forallb (fun kv => json_ok kv.2) l
  | _ => true
  end.

Fixpoint depth (v : json) : Z :=
  match v with
  | JArr l => 1 + fold_right (fun w d => Z.max (depth w) d) 0 l
  | JObj l => 1 + fold_right (fun kv d => Z.max (depth kv.2) d) 0 l
  | _ => 0
  end.

(** The fuel its reading takes. *)
Fixpoint need (v : json) : nat :=
  match v with
  | JArr l => S (fold_right (fun w n => S (need w) + n)%nat O l)
  | JObj l => S (fold_right (fun kv n => S (need kv.2) + n)%nat O l)
  | _ => 1%nat
  end.

(** ** Induction *)

Section Induction.
Variable P : json -> Prop.
Hypothesis Hnull : P JNull.
Hypothesis Hbool : forall b, P (JBool b).
Hypothesis Hnum : forall l, P (JNum l).
Hypothesis Hstr : forall s, P (JStr s).
Hypothesis Harr : forall l, Forall P l -> P (JArr l).
Hypothesis Hobj : forall l, Forall (fun kv => P kv.2) l -> P (JObj l).

Fixpoint json_nested_ind (v : json) : P v :=
  match v with
  | JNull => Hnull
  | JBool b => Hbool b
  | JNum l => Hnum l
  | JStr s => Hstr s
  | JArr l => Harr l ((fix go l : Forall P l :=
      match l with [] => Forall_nil_2 _ | w :: l => Forall_cons_2 _ w l (json_nested_ind w) (go l) end) l)
  | JObj l => Hobj l ((fix go l : Forall (fun kv => P kv.2) l :=
      match l with [] => Forall_nil_2 _ | kv :: l => Forall_cons_2 (fun kv => P kv.2) kv l (json_nested_ind kv.2) (go l) end) l)
  end.
End Induction.

(** ** Numbers *)

(** What may follow a value: nothing, a comma, a closing bracket, the end of the line. *)
Definition tail_ok (t : bytes) : Prop := match t with [] => True | c :: _ => c = x2c \/ c = x5d \/ c = x7d \/ c = x0a end.

Section Tail.
Variable t : bytes.
Hypothesis Ht : tail_ok t.

Definition then_t {A} (p : A * bytes) : A * bytes := (p.1, p.2 ++ t).

Lemma tail_head (p : byte -> bool) : p x2c = false -> p x5d = false -> p x7d = false -> p x0a = false ->
  match t with [] => True | c :: _ => p c = false end.
Proof. intros. destruct t as [|c t']; [done|]. cbn in Ht. by destruct Ht as [E | [E | [E | E]]]; rewrite E. Qed.

Lemma span_tail s : span is_digit (s ++ t) = then_t (span is_digit s).
Proof.
  induction s as [|a s IH]; cbn [app span].
  - unfold then_t. pose proof (tail_head is_digit eq_refl eq_refl eq_refl eq_refl). destruct t as [|c t']; [done|]. cbn [span]. by rewrite H.
  - destruct (is_digit a); [|done]. rewrite IH. by destruct (span is_digit s).
Qed.

Lemma digits1_tail s : digits1 (s ++ t) = then_t <$> digits1 s.
Proof. unfold digits1. rewrite span_tail. destruct (span is_digit s) as [d r]. unfold then_t. cbn. by case_bool_decide. Qed.

Lemma expect_tail c s : Byte.eqb x2c c = false -> Byte.eqb x5d c = false -> Byte.eqb x7d c = false -> Byte.eqb x0a c = false ->
  expect c (s ++ t) = (fun r => r ++ t) <$> expect c s.
Proof.
  intros. destruct s as [|a s]; cbn [app expect]; [|by destruct (Byte.eqb a c)].
  pose proof (tail_head (fun b => Byte.eqb b c)) as H'. destruct t; [done|]. cbn. by rewrite H' by done.
Qed.

Lemma jsign_tail l s : existsb (Byte.eqb x2c) l = false -> existsb (Byte.eqb x5d) l = false -> existsb (Byte.eqb x7d) l = false ->
  existsb (Byte.eqb x0a) l = false -> jsign l (s ++ t) = then_t (jsign l s).
Proof.
  intros. unfold then_t. destruct s as [|a s]; cbn [app jsign]; [|by case_match].
  pose proof (tail_head (fun b => existsb (Byte.eqb b) l)) as H'. destruct t; [done|]. cbn [jsign]. by rewrite H' by done.
Qed.

(** A number is read the same, whatever follows it. *)
Lemma jnumber_tail s : jnumber (s ++ t) = then_t <$> jnumber s.
Proof.
  unfold jnumber. rewrite jsign_tail by done. destruct (jsign [x2d] s) as [m s1]. cbn [then_t fst snd].
  assert (jint (s1 ++ t) = then_t <$> jint s1) as ->.
  { unfold jint. rewrite expect_tail by done. destruct (expect x30 s1); [done|apply digits1_tail]. }
  destruct (jint s1) as [[i s2]|]; [|done]. cbn [fmap option_fmap option_map then_t fst snd mbind option_bind].
  assert (jfrac (s2 ++ t) = then_t <$> jfrac s2) as ->.
  { unfold jfrac. rewrite expect_tail by done. destruct (expect x2e s2) as [s3|]; [|done]. cbn. rewrite digits1_tail. by destruct (digits1 s3) as [[]|]. }
  destruct (jfrac s2) as [[f s3]|]; [|done]. cbn [fmap option_fmap option_map then_t fst snd mbind option_bind].
  assert (jexp (s3 ++ t) = then_t <$> jexp s3) as ->.
  { unfold jexp. rewrite jsign_tail by done. destruct (jsign [x65; x45] s3) as [e r]. cbn [then_t fst snd]. destruct e; [done|].
    rewrite jsign_tail by done. destruct (jsign [x2b; x2d] r) as [sg r1]. cbn [then_t fst snd]. rewrite digits1_tail.
    by destruct (digits1 r1) as [[]|]. }
  by destruct (jexp s3) as [[]|].
Qed.
End Tail.

Lemma span_split p s v r : span p s = (v, r) -> s = v ++ r.
Proof.
  revert v; induction s as [|a s IH]; intros v; cbn; [by intros [= <- <-]|]. destruct (p a); [|by intros [= <- <-]].
  destruct (span p s) as [v' r']. intros [= <- <-]. by rewrite (IH v').
Qed.

Lemma num_ok_head l : num_ok l = true -> exists a k, l = a :: k /\ (a = x2d \/ is_digit a = true).
Proof.
  intros H%bool_decide_eq_true. destruct l as [|a k]; [done|]. exists a, k. split; [done|]. unfold jnumber in H. cbn [jsign existsb] in H.
  destruct (Byte.eqb a x2d) eqn:E; [left; by apply Byte.byte_dec_bl|right]. cbn [orb] in H.
  apply bind_Some in H as ([i s2] & Hi & _). unfold jint in Hi. destruct (expect x30 (a :: k)) as [r|] eqn:Ee.
  - cbn in Ee. destruct (Byte.eqb a x30) eqn:E0; [|done]. apply Byte.byte_dec_bl in E0. by subst a.
  - unfold digits1 in Hi. cbn [span] in Hi. by destruct (is_digit a).
Qed.

(** The first byte of a value: no white space, and no closing bracket. *)
Lemma write_json_head html v : json_ok v = true ->
  exists a k, write_json html v = a :: k /\ is_ws a = false /\ Byte.eqb a x5d = false.
Proof.
  destruct v as [|b|l|s|l|l]; cbn [write_json json_ok]; intros H; try (by eexists _, _); [by destruct b; eexists _, _|].
  apply num_ok_head in H as (a & k & -> & H). exists a, k. split; [done|]. destruct H as [->|H]; [done|]. by destruct a.
Qed.

(** ** Reading back *)

Lemma tok_app c s t : (exists a k, s = a :: k /\ is_ws a = false /\ Byte.eqb a c = false) -> tok c (s ++ t) = None.
Proof. intros (a & k & -> & Hw & Hc). unfold tok. cbn [app]. rewrite (skip_ws_id _ _ Hw). cbn. by rewrite Hc. Qed.

Lemma quoted_none a s : Byte.eqb a x22 = false -> quoted (a :: s) = None.
Proof. intros H. unfold quoted. cbn. by rewrite H. Qed.

Lemma jvalue_num fuel d l t : num_ok l = true -> tail_ok t -> jvalue (S fuel) d (l ++ t) = Some (JNum l, t).
Proof.
  intros H Ht. destruct (num_ok_head l H) as (a & k & -> & Ha).
  pose proof (jnumber_tail t Ht (a :: k)) as Hn. unfold num_ok in H. apply bool_decide_eq_true in H. rewrite H in Hn. cbn in Hn.
  assert (is_ws a = false /\ Byte.eqb a x7b = false /\ Byte.eqb a x5b = false /\ Byte.eqb a x22 = false /\
    List.find (fun p => HasPrefix ((a :: k) ++ t) p.1) literals = None) as (Hw & H1 & H2 & H3 & Hl).
  { destruct Ha as [->|Ha]; [by split_and!|]. destruct a; try discriminate Ha; by split_and!. }
  cbn [jvalue app] in *. unfold tok. rewrite (skip_ws_id _ _ Hw). cbn [expect]. rewrite H1, H2. unfold jscalar.
  rewrite (quoted_none _ _ H3), Hl. change (match t with [] => a :: k | _ => _ end) with (a :: k). cbn [app] in Hn. by rewrite Hn.
Qed.

Lemma jvalue_str fuel d html s t : jvalue (S fuel) d (quote_with html s ++ t) = Some (JStr (coerce (length s) s), t).
Proof.
  cbn [jvalue]. unfold jscalar. replace (tok x7b _) with (@None bytes) by done. replace (tok x5b _) with (@None bytes) by done.
  replace (skip_ws _) with (quote_with html s ++ t) by done. by rewrite quoted_quote.
Qed.

Lemma join_cons sep (x y : bytes) l : join sep (x :: y :: l) = x ++ sep ++ join sep (y :: l).
Proof. done. Qed.

Definition reads (html : bool) (v : json) : Prop :=
  forall fuel d t, json_ok v = true -> tail_ok t -> (need v <= fuel)%nat -> d + depth v <= maxNestingDepth ->
    jvalue fuel d (write_json html v ++ t) = Some (norm v, t).

Lemma jelements_reads html l : Forall (reads html) l -> forall fuel d t,
  l <> [] -> forallb json_ok l = true -> (fold_right (fun w n => S (need w) + n)%nat O l <= fuel)%nat ->
  d + fold_right (fun w m => Z.max (depth w) m) 0 l <= maxNestingDepth ->
  jelements fuel d (join [x2c] (map (write_json html) l) ++ x5d :: t) = Some (map norm l, t).
Proof.
  induction 1 as [|v l Hv Hl IH]; intros fuel d t Hne Hok Hf Hd; [done|]. cbn [forallb fold_right] in *.
  apply andb_true_iff in Hok as [Hok1 Hok2]. destruct fuel as [|fuel]; [lia|]. destruct l as [|w l].
  - cbn [map join jelements]. rewrite (Hv fuel d (x5d :: t)); [done|done|cbn; auto|cbn in Hf; lia|cbn in Hd; lia].
  - cbn [map]. rewrite join_cons, <- !app_assoc. cbn [app jelements].
    rewrite (Hv fuel d); [|done|cbn; auto|lia|lia]. cbn [mbind option_bind].
    assert (forall t, tok x5d (x2c :: t) = None /\ tok x2c (x2c :: t) = Some t) as Ht by done.
    match goal with |- context [tok x5d (x2c :: ?u)] => destruct (Ht u) as [-> ->] end. cbn [mbind option_bind].
    change (write_json html w :: map (write_json html) l) with (map (write_json html) (w :: l)).
    rewrite (IH fuel d t); [done|done|done|cbn [fold_right] in *; lia|cbn [fold_right] in *; lia].
Qed.

Lemma jmembers_reads html l : Forall (fun kv => reads html kv.2) l -> forall fuel d t,
  l <> [] -> forallb (fun kv : bytes * json => json_ok kv.2) l = true ->
  (fold_right (fun (kv : bytes * json) n => S (need kv.2) + n)%nat O l <= fuel)%nat ->
  d + fold_right (fun (kv : bytes * json) m => Z.max (depth kv.2) m) 0 l <= maxNestingDepth ->
  jmembers fuel d (join [x2c] (map (write_member html) l) ++ x7d :: t) =
    Some (map (fun kv => (coerce (length kv.1) kv.1, norm kv.2)) l, t).
Proof.
  induction 1 as [|[k v] l Hv Hl IH]; intros fuel d t Hne Hok Hf Hd; [done|]. cbn [forallb fold_right fst snd] in *.
  apply andb_true_iff in Hok as [Hok1 Hok2]. destruct fuel as [|fuel]; [lia|].
  assert (forall u, skip_ws (quote_with html k ++ u) = quote_with html k ++ u) as Hs by done.
  assert (forall u, tok x3a (x3a :: u) = Some u) as Hc by done.
  destruct l as [|w l]; cbn [map]; unfold write_member at 1; cbn [fst snd].
  - cbn [join]. rewrite <- !app_assoc. cbn [jmembers]. rewrite Hs, quoted_quote. cbn [mbind option_bind app]. rewrite Hc. cbn [mbind option_bind].
    rewrite (Hv fuel d (x7d :: t)); [done|done|cbn; auto|cbn in Hf; lia|cbn in Hd; lia].
  - rewrite join_cons, <- !app_assoc. cbn [jmembers]. rewrite Hs, quoted_quote. cbn [mbind option_bind app]. rewrite Hc. cbn [mbind option_bind].
    rewrite (Hv fuel d); [|done|cbn; auto|lia|lia]. cbn [mbind option_bind].
    assert (forall t, tok x7d (x2c :: t) = None /\ tok x2c (x2c :: t) = Some t) as Ht by done.
    match goal with |- context [tok x7d (x2c :: ?u)] => destruct (Ht u) as [-> ->] end. cbn [mbind option_bind].
    change (write_member html w :: map (write_member html) l) with (map (write_member html) (w :: l)).
    rewrite (IH fuel d t); [done|done|done|cbn [fold_right] in *; lia|cbn [fold_right] in *; lia].
Qed.

Lemma fold_max_nonneg {A} (f : A -> Z) l : 0 <= fold_right (fun w m => Z.max (f w) m) 0 l.
Proof. induction l; cbn; lia. Qed.

Lemma write_reads html v : reads html v.
Proof.
  induction v as [|b|l|s|l IH|l IH] using json_nested_ind; intros fuel d t Hok Ht Hf Hd; (destruct fuel as [|fuel]; [cbn in Hf; lia|]).
  - by destruct t.
  - by destruct b, t.
  - by apply jvalue_num.
  - by apply jvalue_str.
  - cbn [json_ok depth need write_json norm] in *. rewrite <- !app_assoc. cbn [app jvalue].
    assert (forall u, tok x7b (x5b :: u) = None /\ tok x5b (x5b :: u) = Some u) as Hb by done.
    match goal with |- context [tok x7b (x5b :: ?u)] => destruct (Hb u) as [-> ->] end.
    pose proof (fold_max_nonneg depth l). rewrite (proj2 (Z.leb_gt _ _)) by lia. destruct l as [|w l]; [done|].
    rewrite tok_app; [rewrite jelements_reads by (done || lia); done|].
    cbn in Hok. apply andb_true_iff in Hok as [Hw _]. destruct (write_json_head html w Hw) as (a & k & E & Ha).
    destruct l; cbn [map join]; rewrite E; cbn [app]; by eexists _, _.
  - cbn [json_ok depth need write_json norm] in *. rewrite <- !app_assoc. cbn [app jvalue].
    assert (forall u, tok x7b (x7b :: u) = Some u) as Hb by done. rewrite Hb.
    pose proof (fold_max_nonneg (fun kv : bytes * json => depth kv.2) l). rewrite (proj2 (Z.leb_gt _ _)) by lia. destruct l as [|w l]; [done|].
    change (map (fun kv => quote_with html kv.1 ++ x3a :: write_json html kv.2)) with (map (write_member html)).
    rewrite tok_app; [rewrite jmembers_reads by (done || lia); done|].
    destruct l; cbn [map join]; unfold write_member at 1, quote_with at 1; cbn [app]; by eexists _, _.
Qed.

(** ** The fuel of the reader is enough *)

Lemma join_len (l : list bytes) : length (join [x2c] l) = (fold_right (fun s n => length s + n) O l + (length l - 1))%nat.
Proof.
  induction l as [|x l IH]; [done|]. destruct l as [|y l]; [cbn; lia|]. rewrite join_cons, !length_app, IH. cbn [length fold_right]. lia.
Qed.

Lemma need_length html v : json_ok v = true -> (need v <= 2 * length (write_json html v))%nat.
Proof.
  induction v as [|b|l|s|l IH|l IH] using json_nested_ind; intros Hok; cbn [need write_json json_ok] in *; try (cbn; lia).
  - destruct b; cbn; lia.
  - apply num_ok_head in Hok as (a & k & -> & _). cbn. lia.
  - rewrite !length_app, join_len, length_map. cbn [length].
    assert (fold_right (fun w n => S (need w) + n) O l <= length l + 2 * fold_right (fun s n => length s + n) O (map (write_json html) l))%nat.
    { clear -IH Hok. induction IH as [|w l Hw _ IHl]; [done|]. cbn in *. apply andb_true_iff in Hok as [H1 H2]. specialize (Hw H1). specialize (IHl H2). lia. }
    destruct l; cbn [length map fold_right] in *; lia.
  - change (map (fun kv => quote_with html kv.1 ++ [x3a] ++ write_json html kv.2)) with (map (write_member html)).
    rewrite !length_app, join_len, length_map. cbn [length].
    assert (fold_right (fun (kv : bytes * json) n => S (need kv.2) + n) O l <=
            length l + 2 * fold_right (fun s n => length s + n) O (map (write_member html) l))%nat.
    { clear -IH Hok. induction IH as [|[k w] l Hw _ IHl]; [done|]. cbn [fold_right map forallb fst snd length] in *. apply andb_true_iff in Hok as [H1 H2].
      specialize (Hw H1). specialize (IHl H2). unfold write_member at 1. cbn [fst snd]. rewrite !length_app. cbn [length]. lia. }
    destruct l; cbn [length map fold_right] in *; lia.
Qed.

(** A reply reads back as the value it was written from, whether the line ends
    with a newline or not. *)
Lemma write_json_roundtrip html v nl :
  json_ok v = true -> depth v <= maxNestingDepth -> nl = [] \/ nl = [x0a] -> parse_json (write_json html v ++ nl) = Some (norm v).
Proof.
  intros Hok Hd Hnl. unfold parse_json, json_fuel. pose proof (need_length html v Hok). rewrite write_reads; [|done|by destruct Hnl; subst; cbn; auto| |done].
  - by destruct Hnl as [-> | ->].
  - rewrite length_app. lia.
Qed.
