(* ===== verification/HttpLib.v ===== *)
(** * The parts of Go's strings, base64, hmac and json libraries the RPC server uses

    Case folding against ASCII names, standard base64, HMAC-SHA256, the raw
    text of the members of a JSON object ([json.RawMessage]) and [json.Compact].
    [base64_roundtrip]: what is encoded decodes to itself. *)

From S2P Require Import Prelude Sha256 Codec GoLib Hex Json.

#[local] Set Warnings "-register-all".

(** ** Case folding *)

(** The upper-case form of a name, for the comparison with an ASCII one: besides
    the ASCII letters only U+017F and U+212A fold to one (S and K). *)
Fixpoint fold_ascii (s : bytes) : bytes :=
  match s with
  | xc5 :: ((xbf :: r) as t) => x53 :: fold_ascii r
  | xe2 :: ((x84 :: xaa :: r) as t) => x4b :: fold_ascii r
  | a :: r => ascii_upper a :: fold_ascii r
  | [] => []
  end.

Section Fold.
(** The simple folding of text outside ASCII. *)
Variable fold_text : bytes -> bytes.

(** [strings.EqualFold] *)
Definition EqualFold (s t : bytes) : bool :=
  if forallb is_ascii s || forallb is_ascii t then bool_decide (fold_ascii s = fold_ascii t)
  else bool_decide (fold_text s = fold_text t).
End Fold.

(** ** encoding/base64, StdEncoding *)

Definition b64_char (v : Z) : byte :=
  if v <? 26 then byte.of_Z (65 + v) else if v <? 52 then byte.of_Z (71 + v)
  else if v <? 62 then byte.of_Z (v - 4) else if v =? 62 then x2b else x2f.

Definition b64_val (c : byte) : option Z :=
  if is_upper c then Some (byte.unsigned c - 65)
  else if is_lower c then Some (byte.unsigned c - 71)
  else if is_digit c then Some (byte.unsigned c + 4)
  else if Byte.eqb c x2b then Some 62 else if Byte.eqb c x2f then Some 63 else None.

Definition b64_pad : byte := x3d.

Fixpoint b64_encode (s : bytes) : bytes :=
  match s with
  | a :: b :: c :: r =>
      let v := byte.unsigned a * 65536 + byte.unsigned b * 256 + byte.unsigned c in
      b64_char (v / 262144) :: b64_char (v / 4096 mod 64) :: b64_char (v / 64 mod 64) :: b64_char (v mod 64) :: b64_encode r
  | [a; b] =>
      let v := byte.unsigned a * 65536 + byte.unsigned b * 256 in
      [b64_char (v / 262144); b64_char (v / 4096 mod 64); b64_char (v / 64 mod 64); b64_pad]
  | [a] =>
      let v := byte.unsigned a * 65536 in
      [b64_char (v / 262144); b64_char (v / 4096 mod 64); b64_pad; b64_pad]
  | [] => []
  end.

(** One group of four characters: its bytes, and whether padding ended it. *)
Definition b64_group (a b c d : byte) : option (bytes * bool) :=
  x ← b64_val a; y ← b64_val b;
  let v := x * 262144 + y * 4096 in
  let top := byte.of_Z (v / 65536) in
  if Byte.eqb c b64_pad then (if Byte.eqb d b64_pad then Some ([top], true) else None)
  else
    z ← b64_val c;
    let v := v + z * 64 in
    if Byte.eqb d b64_pad then Some ([top; byte.of_Z (v / 256 mod 256)], true)
    else w ← b64_val d; Some ([top; byte.of_Z (v / 256 mod 256); byte.of_Z ((v + w) mod 256)], false).

Fixpoint b64_groups (s : bytes) : option bytes :=
  match s with
  | [] => Some []
  | a :: b :: c :: d :: r =>
      match b64_group a b c d with
      | None => None
      | Some (o, true) => if bool_decide (r = []) then Some o else None
      | Some (o, false) => app o <$> b64_groups r
      end
  | _ => None
  end.

(** [base64.StdEncoding.DecodeString]: line breaks are skipped. *)
Definition b64_decode (s : bytes) : option bytes :=
  b64_groups (List.filter (fun c => negb (existsb (Byte.eqb c) [x0a; x0d])) s).

(** ** crypto/hmac *)

Definition hmac_pad (key : bytes) (b : Z) : bytes :=
  let key := if 64 <? zlen key then Sum256 key else key in
  map (fun c => byte.of_Z (Z.lxor (byte.unsigned c) b)) (key ++ repeat x00 (64 - length key)).

(** [hmac.New(sha256.New, key)] over the message. *)
Definition HMAC (key msg : bytes) : bytes := Sum256 (hmac_pad key 92 ++ Sum256 (hmac_pad key 54 ++ msg)).

(** ** json.RawMessage and json.Compact *)

(** The members of an object with the text of their values. *)
Fixpoint raw_members (fuel : nat) (s : bytes) : option (list (bytes * bytes) * bytes) :=
  match fuel with
  | O => None
  | S fuel =>
      '(k, s) ← quoted (skip_ws s);
      s ← tok x3a s;
      let s := skip_ws s in
      '(_, r) ← jvalue (json_fuel s) 1 s;
      let kv := (k, take (length s - length r) s) in
      match tok x7d r with
      | Some r => Some ([kv], r)
      | None =>
          r ← tok x2c r;
          '(l, r) ← raw_members fuel r;
          Some (kv :: l, r)
      end
  end.

Definition raw_object (s : bytes) : option (list (bytes * bytes)) :=
  s ← tok x7b s;
  '(l, r) ← (match tok x7d s with Some s => Some ([], s) | None => raw_members (length s) s end);
  if bool_decide (skip_ws r = []) then Some l else None.

(** The elements of an array as texts. *)
Fixpoint raw_elements (fuel : nat) (s : bytes) : option (list bytes * bytes) :=
  match fuel with
  | O => None
  | S fuel =>
      let s := skip_ws s in
      '(_, r) ← jvalue (json_fuel s) 1 s;
      let v := take (length s - length r) s in
      match tok x5d r with
      | Some r => Some ([v], r)
      | None =>
          r ← tok x2c r;
          '(l, r) ← raw_elements fuel r;
          Some (v :: l, r)
      end
  end.

Definition raw_array (s : bytes) : option (list bytes) :=
  s ← tok x5b s;
  '(l, r) ← (match tok x5d s with Some s => Some ([], s) | None => raw_elements (length s) s end);
  if bool_decide (skip_ws r = []) then Some l else None.

(** The field of a struct without tags: a member whose name folds to the field's;
    the last one wins. *)
Definition raw_field (name : bytes) (l : list (bytes * bytes)) : option bytes :=
  fold_left (fun acc kv => if bool_decide (fold_ascii kv.1 = fold_ascii name) then Some kv.2 else acc) l None.

(** [json.Compact] of a valid text: the white space outside of strings is dropped. *)
Fixpoint compact (instr : bool) (s : bytes) : bytes :=
  match s with
  | [] => []
  | c :: r =>
      if instr then
        if Byte.eqb c x5c then match r with d :: r => c :: d :: compact true r | [] => [c] end
        else c :: compact (negb (Byte.eqb c x22)) r
      else if is_ws c then compact false r
      else c :: compact (Byte.eqb c x22) r
  end.

Example http_lib :
  EqualFold id (bytes_of "dxgetorders") (bytes_of "dxGetOrders") = true /\
  fold_ascii (bytes_of "param" ++ [xc5; xbf]) = bytes_of "PARAMS" /\
  b64_decode (bytes_of "dXNlcjpwYXNz") = Some (bytes_of "user:pass") /\ b64_decode (bytes_of "dQ==") = Some (bytes_of "u") /\
  b64_decode (bytes_of "dQ=") = None /\ b64_decode (bytes_of "dQ==dQ==") = None /\
  raw_object (json_text "{ 'a' : [1, 2] , 'A':'x y' }") =
    Some [(bytes_of "a", bytes_of "[1, 2]"); (bytes_of "A", json_text "'x y'")] /\
  raw_array (bytes_of "[ 1 ,{} ]") = Some [bytes_of "1"; bytes_of "{}"] /\
  compact false (json_text " { 'a b' : [1, 2]}") = json_text "{'a b':[1,2]}".
Proof. by vm_compute. Qed.

(** The HMAC of RFC 4231, test case 2. *)
Example hmac_jefe :
  EncodeToString (HMAC (bytes_of "Jefe") (bytes_of "what do ya want for nothing?")) =
    bytes_of "5bdcc146bf60754e6a042426089575c75a003f089d2739839dec58b964ec3843".
Proof. by vm_compute. Qed.

(** ** base64 reads what it writes *)

Lemma b64_val_char v : 0 <= v < 64 -> b64_val (b64_char v) = Some v /\ Byte.eqb (b64_char v) b64_pad = false /\
  negb (existsb (Byte.eqb (b64_char v)) [x0a; x0d]) = true.
Proof.
  intros Hv. assert (forallb (fun v => bool_decide (b64_val (b64_char v) = Some v) && negb (Byte.eqb (b64_char v) b64_pad) &&
    negb (existsb (Byte.eqb (b64_char v)) [x0a; x0d])) (map Z.of_nat (seq 0 64)) = true) as H by by vm_compute.
  rewrite forallb_forall in H. specialize (H v). rewrite !andb_true_iff, negb_true_iff, bool_decide_eq_true in H.
  destruct H as [[? ?] ?]; [|done]. apply in_map_iff. exists (Z.to_nat v). split; [lia|]. apply in_seq. lia.
Qed.

Ltac zdiv := Z.to_euclidean_division_equations; lia.

(** Three bytes in four characters. *)
Lemma b64_group_bytes a b c :
  let v := byte.unsigned a * 65536 + byte.unsigned b * 256 + byte.unsigned c in
  b64_group (b64_char (v / 262144)) (b64_char (v / 4096 mod 64)) (b64_char (v / 64 mod 64)) (b64_char (v mod 64)) = Some ([a; b; c], false).
Proof.
  intros v. pose proof (byte.unsigned_range a) as Ha. pose proof (byte.unsigned_range b) as Hb. pose proof (byte.unsigned_range c) as Hc.
  destruct (b64_val_char (v / 262144) ltac:(subst v; zdiv)) as (E1 & _ & _).
  destruct (b64_val_char (v / 4096 mod 64) ltac:(zdiv)) as (E2 & _ & _).
  destruct (b64_val_char (v / 64 mod 64) ltac:(zdiv)) as (E3 & P3 & _).
  destruct (b64_val_char (v mod 64) ltac:(zdiv)) as (E4 & P4 & _).
  unfold b64_group. rewrite E1, E2, E3, E4, P3, P4. cbn [mbind option_bind].
  assert (v / 262144 * 262144 + v / 4096 mod 64 * 4096 + v / 64 mod 64 * 64 = v - v mod 64) as -> by zdiv.
  assert (v / 262144 * 262144 + v / 4096 mod 64 * 4096 = v - v mod 4096) as -> by zdiv.
  clear E1 E2 E3 E4 P3 P4. repeat f_equal; (etransitivity; [|apply byte.of_Z_unsigned]); f_equal; subst v; zdiv.
Qed.

Lemma b64_group_two a b :
  let v := byte.unsigned a * 65536 + byte.unsigned b * 256 in
  b64_group (b64_char (v / 262144)) (b64_char (v / 4096 mod 64)) (b64_char (v / 64 mod 64)) b64_pad = Some ([a; b], true).
Proof.
  intros v. pose proof (byte.unsigned_range a) as Ha. pose proof (byte.unsigned_range b) as Hb.
  destruct (b64_val_char (v / 262144) ltac:(subst v; zdiv)) as (E1 & _ & _).
  destruct (b64_val_char (v / 4096 mod 64) ltac:(zdiv)) as (E2 & _ & _).
  destruct (b64_val_char (v / 64 mod 64) ltac:(zdiv)) as (E3 & P3 & _).
  unfold b64_group. rewrite E1, E2, E3, P3. cbn [mbind option_bind]. change (Byte.eqb b64_pad b64_pad) with true. cbn match.
  assert (v / 262144 * 262144 + v / 4096 mod 64 * 4096 + v / 64 mod 64 * 64 = v - v mod 64) as -> by zdiv.
  assert (v / 262144 * 262144 + v / 4096 mod 64 * 4096 = v - v mod 4096) as -> by zdiv.
  clear E1 E2 E3 P3. repeat f_equal; (etransitivity; [|apply byte.of_Z_unsigned]); f_equal; subst v; zdiv.
Qed.

Lemma b64_group_one a :
  let v := byte.unsigned a * 65536 in
  b64_group (b64_char (v / 262144)) (b64_char (v / 4096 mod 64)) b64_pad b64_pad = Some ([a], true).
Proof.
  intros v. pose proof (byte.unsigned_range a) as Ha.
  destruct (b64_val_char (v / 262144) ltac:(subst v; zdiv)) as (E1 & _ & _).
  destruct (b64_val_char (v / 4096 mod 64) ltac:(zdiv)) as (E2 & _ & _).
  unfold b64_group. rewrite E1, E2. cbn [mbind option_bind]. change (Byte.eqb b64_pad b64_pad) with true. cbn match.
  clear E1 E2. repeat f_equal; (etransitivity; [|apply byte.of_Z_unsigned]); f_equal; subst v; zdiv.
Qed.

(** Induction by groups of three. *)
Lemma by_three (P : bytes -> Prop) :
  P [] -> (forall a, P [a]) -> (forall a b, P [a; b]) -> (forall a b c r, P r -> P (a :: b :: c :: r)) -> forall s, P s.
Proof.
  intros H0 H1 H2 H3. fix go 1. intros [|a [|b [|c r]]]; [apply H0|apply H1|apply H2|apply H3, go].
Qed.

Lemma b64_encode_plain s : Forall (fun c => negb (existsb (Byte.eqb c) [x0a; x0d]) = true) (b64_encode s).
Proof.
  induction s as [|a|a b|a b c r IH] using by_three; cbn [b64_encode]; repeat (constructor; [|]); try done.
  all: apply b64_val_char; pose proof (byte.unsigned_range a); try (pose proof (byte.unsigned_range b)); try (pose proof (byte.unsigned_range c)); zdiv.
Qed.

Lemma base64_roundtrip s : b64_decode (b64_encode s) = Some s.
Proof.
  unfold b64_decode. assert (forall l, Forall (fun c => negb (existsb (Byte.eqb c) [x0a; x0d]) = true) l ->
    List.filter (fun c => negb (existsb (Byte.eqb c) [x0a; x0d])) l = l) as Hf.
  { induction 1 as [|c l Hc _ IH]; [done|]. cbn [List.filter]. rewrite Hc. by f_equal. }
  rewrite Hf by apply b64_encode_plain.
  induction s as [|a|a b|a b c r IH] using by_three; cbn [b64_encode b64_groups]; [done| | |].
  - by rewrite b64_group_one.
  - by rewrite b64_group_two.
  - rewrite b64_group_bytes, IH. done.
Qed.
