(* ===== verification/Signer.v ===== *)
(** * Packet signatures (crypto/signer.go)

    The compact (r||s) form of an ECDSA signature, [Sign], [Verify] and
    [VerifyAgainst] over the packet digest, and the generation of keys, against
    the secp256k1 interface, and the recoverable signatures of service node
    pings and registrations. *)

From S2P Require Import Prelude Sha256 Hex Secp Packet.

Section Signer.
Context {secp : Secp}.

(** The 64-byte (r||s) encoding. *)
Definition compactSerialize (sig : Secp.Signature) : bytes :=
  be_split 32 (Signature_R sig) ++ be_split 32 (Signature_S sig).

Definition compactParse (b : bytes) : res Secp.Signature :=
  if negb (zlen b =? 64) then Err "crypto: compact signature must be 64 bytes"
  else
    let r := be_combine (take 32 b) in
    let s := be_combine (drop 32 b) in
    if curveN <=? r then Err "crypto: invalid R scalar"
    else if curveN <=? s then Err "crypto: invalid S scalar"
    else Ok (NewSignature r s).

Definition CompressedPubKey (priv : bytes) : res bytes :=
  if negb (zlen priv =? 32) then Err "crypto: private key must be 32 bytes"
  else Ok (SerializeCompressed (PubKeyOf (PrivKeyFromBytes priv))).

Definition FullyValidPubKey (pk : bytes) : bool := is_ok (ParsePubKey pk).

(** The signed packet carries the public key of [priv], set before the digest is taken. *)
Definition Sign (p : Packet) (priv : bytes) : res Packet :=
  pub ← CompressedPubKey priv;
  let p := mkPacket (Version p) (Command p) (Timestamp p) (OldSize p) (Size p) pub (Signature p) (PBody p) in
  Ok (with_signature (compactSerialize (ecdsa_Sign (PrivKeyFromBytes priv) (Packet_Digest p))) p).

(** The check of the signature under the header's key. *)
Definition Verify (p : Packet) : res bool :=
  pub ← ParsePubKey (Pubkey p);
  sig ← compactParse (Signature p);
  Ok (Signature_Verify sig (Packet_Digest p) pub).

(** The header's key must be the given one before its signature counts. *)
Definition VerifyAgainst (p : Packet) (pubkeyHex : bytes) : res bool :=
  match DecodeString pubkeyHex with
  | Some raw =>
      if negb (zlen raw =? 33) then Err "crypto: bad pubkey hex"
      else if negb (bool_decide (Pubkey p = raw)) then Ok false
      else
        pub ← ParsePubKey raw;
        sig ← compactParse (Signature p);
        Ok (Signature_Verify sig (Packet_Digest p) pub)
  | None => Err "crypto: bad pubkey hex"
  end.

(** [ok, _ := VerifyAgainst(...)]: the callers ignore the error. *)
Definition verified_by (p : Packet) (pubkeyHex : bytes) : bool :=
  match VerifyAgainst p pubkeyHex with Ok b => b | _ => false end.

(** The first of the random draws in [1, N-1]; 64 are tried. *)
Fixpoint NewPrivateKey (fuel : nat) (draws : list bytes) : res bytes :=
  match fuel, draws with
  | S fuel, b :: draws =>
      if curveN <=? be_combine b then NewPrivateKey fuel draws
      else if bool_decide (b = repeat x00 32) then NewPrivateKey fuel draws
      else Ok b
  | _, _ => Err "crypto: failed to generate a valid private key"
  end.

(** Service node hashes are signed with a recoverable signature. *)
Definition DoubleSHA256 (b : bytes) : bytes := Sum256 (Sum256 b).

Definition SignCompact (priv hash : bytes) : res bytes :=
  if negb (zlen priv =? 32) then Err "crypto: private key must be 32 bytes"
  else Ok (ecdsa_SignCompact (PrivKeyFromBytes priv) hash).

(** An uncompressed header yields the 65-byte key. *)
Definition RecoverCompact (sig hash : bytes) : res bytes :=
  '(pub, wasCompressed) ← ecdsa_RecoverCompact sig hash;
  Ok (if wasCompressed : bool then SerializeCompressed pub else SerializeUncompressed pub).

End Signer.

(** ** What a signature is worth *)

Section Laws.
Context `{laws : SecpLaws}.

Lemma compactSerialize_length sig : zlen (compactSerialize sig) = 64.
Proof. unfold compactSerialize. rewrite zlen_app. unfold zlen. rewrite !length_be_split. lia. Qed.

Lemma compact_roundtrip k h : compactParse (compactSerialize (ecdsa_Sign k h)) = Ok (ecdsa_Sign k h).
Proof.
  destruct (Signature_scalars k h) as [HR HS]. pose proof curveN_bound.
  unfold compactParse. rewrite compactSerialize_length. cbn [negb Z.eqb Pos.eqb].
  unfold compactSerialize. rewrite take_drop_app_len, drop_app_len by (by rewrite length_be_split).
  rewrite !be_combine_split_small by (unfold uint_ok; lia).
  rewrite !(proj2 (Z.leb_gt _ _)) by lia. by rewrite NewSignature_RS.
Qed.

Lemma DoubleSHA256_zlen b : zlen (DoubleSHA256 b) = 32.
Proof. unfold DoubleSHA256, zlen. by rewrite Sum256_length. Qed.

Lemma RecoverCompact_Sign priv b sig :
  valid_priv priv -> SignCompact priv (DoubleSHA256 b) = Ok sig ->
  RecoverCompact sig (DoubleSHA256 b) = Ok (SerializeCompressed (PubKeyOf (PrivKeyFromBytes priv))) /\ zlen sig = 65.
Proof.
  intros Hv. unfold SignCompact. rewrite (proj1 Hv). cbn. intros [= <-]. split; [|apply SignCompact_length].
  unfold RecoverCompact. by rewrite Secp.RecoverCompact_Sign by (done || apply DoubleSHA256_zlen).
Qed.

Lemma digest_of_signed p sg sg' :
  zlen (Pubkey p) = 33 -> zlen sg = 64 -> zlen sg' = 64 ->
  Packet_Digest (with_signature sg p) = Packet_Digest (with_signature sg' p).
Proof. intros Hk H1 H2. unfold Packet_Digest. f_equal. by rewrite !digest_preimage_eq. Qed.

Lemma Sign_inv p priv p' :
  Sign p priv = Ok p' ->
  let pub := SerializeCompressed (PubKeyOf (PrivKeyFromBytes priv)) in
  zlen priv = 32 /\ Pubkey p' = pub /\ zlen (Signature p') = 64 /\ PBody p' = PBody p /\ Command p' = Command p /\
  (zlen (Signature p) = 64 ->
   Signature p' = compactSerialize (ecdsa_Sign (PrivKeyFromBytes priv) (Packet_Digest p'))).
Proof.
  unfold Sign, CompressedPubKey. destruct (Z.eqb_spec (zlen priv) 32) as [Hp|]; [|done]. cbn. intros [= <-]. cbn.
  do 2 (split; [done|]). split; [apply compactSerialize_length|]. do 2 (split; [done|]).
  intros Hs. f_equal. f_equal.
  set (q := mkPacket _ _ _ _ _ _ _ _). change q with (with_signature (Signature p) q) at 1.
  apply digest_of_signed; [apply SerializeCompressed_length|done|apply compactSerialize_length].
Qed.

End Laws.

Section Properties.
Context `{laws : SecpLaws}.

(** What [Sign] produces is accepted by [Verify], and [VerifyAgainst] accepts
    it under the signer's own key and under no other: a packet is attributed
    to at most one key. *)
Theorem sign_verify (p p' : Packet) (priv : bytes) :
  zlen (Signature p) = 64 -> valid_priv priv -> Sign p priv = Ok p' ->
  let pub := SerializeCompressed (PubKeyOf (PrivKeyFromBytes priv)) in
  Verify p' = Ok true /\ PBody p' = PBody p /\ Command p' = Command p /\
  (forall key, verified_by p' key = true <-> DecodeString key = Some pub).
Proof.
  intros Hs Hv Hsign. destruct (Sign_inv p priv p' Hsign) as (Hl & Hpub & Hsl & Hb & Hc & Hsig).
  specialize (Hsig Hs). cbv zeta.
  assert (Signature_Verify (ecdsa_Sign (PrivKeyFromBytes priv) (Packet_Digest p')) (Packet_Digest p')
    (PubKeyOf (PrivKeyFromBytes priv)) = true) as Hver.
  { apply Verify_Sign; [done|]. unfold zlen, Packet_Digest. by rewrite Sum256_length. }
  split_and!; try done.
  - unfold Verify. rewrite Hpub, ParsePubKey_Serialize by done. cbn. rewrite Hsig, compact_roundtrip. cbn. by rewrite Hver.
  - intros key. unfold verified_by, VerifyAgainst. destruct (DecodeString key) as [raw|] eqn:Ed; [|done].
    destruct (Z.eqb_spec (zlen raw) 33) as [H33|H33]; cbn [negb].
    2:{ split; [done|]. intros [= ->]. destruct H33. apply SerializeCompressed_length. }
    rewrite Hpub. case_bool_decide as Hraw; cbn [negb].
    + subst raw. rewrite ParsePubKey_Serialize by done. cbn. rewrite Hsig, compact_roundtrip. cbn. by rewrite Hver.
    + split; [done|]. intros [= ->]. done.
Qed.

End Properties.

Lemma sample_priv_valid : valid_priv sample_priv.
Proof. by split; vm_compute. Qed.

Lemma sign_verify_witness : exists p',
  Sign sample_packet sample_priv = Ok p' /\ Verify p' = Ok true /\ PBody p' = PBody sample_packet.
Proof.
  destruct (is_ok_ex (Sign sample_packet sample_priv)) as [p' Hp']; [by vm_compute|].
  exists p'. split; [exact Hp'|].
  pose proof (sign_verify sample_packet p' sample_priv ltac:(by vm_compute) sample_priv_valid Hp') as (H1 & H2 & _).
  split; assumption.
Defined.
