(* ===== verification/Registry.v ===== *)
(** * The service node registry (p2p/servicenode/servicenode.go)

    The parsers of the registration and ping messages, the checks a thin client
    can make of them, and the registry the hubs are picked from.  A reader's
    position is threaded; every read keeps it inside the payload
    ([ParseServiceNode_no_panic]) but the config string of a ping, whose length
    prefix can be any 64-bit number ([ping_crash]).  [rand.Shuffle] takes the
    numbers it draws, and a loop over the map the order of its visits: what is
    shown of [Pick] holds for all of them. *)

From S2P Require Import Prelude Sha256 Digits GoLib Sort Codec Bodies Wire Peer Secp Hex Json Packet Signer.

(** ** Data *)

Definition CmdSNRegister : bytes := bytes_of "snr".
Definition CmdSNPing : bytes := bytes_of "snp".
Definition CmdSNList : bytes := bytes_of "snl".
Definition CmdSNListPing : bytes := bytes_of "snlp".

Record CollateralUTXO := mkCollateral { cu_TxID : bytes; cu_Vout : Z }.
#[export] Instance CollateralUTXO_eq_dec : EqDecision CollateralUTXO.
Proof. solve_decision. Defined.

Record ServiceNode := mkServiceNode {
  sn_PubKey : bytes;
  sn_Tier : Z;
  sn_Config : bytes;
  sn_Services : list bytes;
  sn_PingTime : Z;
  sn_XBridgeVersion : Z;
  sn_PaymentAddress : bytes;
  sn_Collateral : list CollateralUTXO;
  sn_BestBlock : Z;
  sn_BestBlockHash : bytes;
  sn_Signature : bytes;
}.
#[export] Instance eta_ServiceNode : Eta ServiceNode := fun s =>
  mkServiceNode (sn_PubKey s) (sn_Tier s) (sn_Config s) (sn_Services s) (sn_PingTime s) (sn_XBridgeVersion s)
    (sn_PaymentAddress s) (sn_Collateral s) (sn_BestBlock s) (sn_BestBlockHash s) (sn_Signature s).

Definition TierSPV : Z := 50.
Definition maxCollateralCount : Z := 10.

(** ** The reader *)

(** A read at a position: the value and the next position. *)
Definition read (A : Type) : Type := bytes -> Z -> res (A * Z).

Definition errShort (f : string) : string := String.append "servicenode: " (String.append f " truncated").

(** The next [n] bytes. *)
Definition read_fixed (n : Z) (f : string) : read bytes := fun b pos =>
  if zlen b - pos <? n then Err (errShort f) else v ← slice b pos (pos + n); Ok (v, pos + n).

Definition readCPubKey : read bytes := fun b pos =>
  '(n, off) ← readVarInt b pos;
  if negb (n =? 33) || (zlen b - off <? 33) then Err (errShort "cpubkey")
  else pk ← slice b off (off + 33); Ok (pk, off + 33).

Definition readUint8 : read Z := fun b pos =>
  if zlen b - pos <? 1 then Err (errShort "uint8") else v ← index b pos; Ok (byte.unsigned v, pos + 1).

Definition readFixed20 : read bytes := read_fixed 20 "paymentAddress".

Definition readUint32 : read Z := fun b pos =>
  if zlen b - pos <? 4 then Err (errShort "uint32") else v ← slice b pos (pos + 4); Ok (le_combine v, pos + 4).

Definition readInt32 : read Z := fun b pos =>
  if zlen b - pos <? 4 then Err (errShort "int32") else v ← slice b pos (pos + 4); Ok (sint 32 (le_combine v), pos + 4).

Definition readUint256 : read bytes := read_fixed 32 "uint256".

Definition readVarStr : read bytes := fun b pos =>
  rest ← slice b pos (zlen b);
  '(s, off) ← unmarshalVarStr rest;
  Ok (s, pos + off).

Definition readVarBytes : read bytes := fun b pos =>
  '(n, pos) ← readVarInt b pos;
  read_fixed n "varbytes" b pos.

(** The outpoints of [n] collateral entries. *)
Fixpoint read_outpoints (n : nat) : read (list CollateralUTXO) := fun b pos =>
  match n with
  | O => Ok ([], pos)
  | S n =>
      h ← slice b pos (pos + 32);
      v ← slice b (pos + 32) (pos + 36);
      '(l, pos) ← read_outpoints n b (pos + 36);
      Ok (mkCollateral h (le_combine v) :: l, pos)
  end.

Definition readCollateral : read (list CollateralUTXO) := fun b pos =>
  '(n, pos) ← readVarInt b pos;
  if zlen b - pos <? n * (32 + 4) then Err (errShort "collateral")
  else read_outpoints (Z.to_nat n) b pos.

(** ** Messages *)

Definition parseInnerServiceNode : read ServiceNode := fun b pos =>
  '(pk, pos) ← readCPubKey b pos;
  '(tier, pos) ← readUint8 b pos;
  '(addr, pos) ← readFixed20 b pos;
  '(coll, pos) ← readCollateral b pos;
  '(best, pos) ← readInt32 b pos;
  '(hash, pos) ← readUint256 b pos;
  '(sig, pos) ← readVarBytes b pos;
  Ok (mkServiceNode pk tier [] [] 0 0 addr coll best hash sig, pos).

Definition ParseServiceNode (b : bytes) : res ServiceNode := fst <$> parseInnerServiceNode b 0.

Definition compactSize (n : Z) : bytes :=
  if n <? 253 then [byte.of_Z n]
  else if n <=? 65535 then xfd :: le_split 2 n
  else if n <=? 4294967295 then xfe :: le_split 4 n
  else xff :: le_split 8 n.

Definition outpoint_bytes (op : CollateralUTXO) : bytes := cu_TxID op ++ le_split 4 (cu_Vout op).

Definition serializeSigHashFields (sn : ServiceNode) : bytes :=
  marshalVarStr (sn_PubKey sn) ++ [byte.of_Z (sn_Tier sn)] ++ sn_PaymentAddress sn ++
  compactSize (zlen (sn_Collateral sn)) ++ concat (map outpoint_bytes (sn_Collateral sn)) ++
  le_split 4 (wrap 32 (sn_BestBlock sn)) ++ sn_BestBlockHash sn.

(** [seen] is the map of the entries before. *)
Fixpoint has_dup (seen coll : list CollateralUTXO) : bool :=
  match coll with
  | [] => false
  | op :: coll => bool_decide (op ∈ seen) || has_dup (op :: seen) coll
  end.

Definition hasDupCollateral (coll : list CollateralUTXO) : bool :=
  if zlen coll <? 2 then false else has_dup [] coll.

(** ** The config of a ping *)

Definition numericUint32 (uv : list (bytes * json)) (key : bytes) : option Z :=
  match map_get uv key with
  | None | Some (JStr _) => None
  | Some v => n ← decode_number v; wrap 32 <$> ParseInt32 n
  end.

(** The services and the protocol version. *)
Definition parseConfig (config : bytes) (tier : Z) : list bytes * Z :=
  if bool_decide (config = []) then ([], 0)
  else match v ← parse_json config; decode_map v with
       | None => ([], 0)
       | Some uv =>
           match numericUint32 uv (bytes_of "xbridgeversion") with
           | None => ([], 0)
           | Some ver =>
               match numericUint32 uv (bytes_of "xrouterversion") with
               | None => ([], ver)
               | Some _ =>
                   if negb (tier =? TierSPV) then ([], ver)
                   else match map_get uv (bytes_of "xbridge") with
                        | None => ([], ver)
                        | Some raw => (default [] (decode_strings raw), ver)
                        end
               end
           end
       end.

Section Checks.
Context {secp : Secp}.

Definition fullyValidCPubKey (pk : bytes) : bool := FullyValidPubKey pk.

Definition sig_hash (sn : ServiceNode) : bytes := DoubleSHA256 (serializeSigHashFields sn).

Definition verifyRegistrationSignature (sn : ServiceNode) : bool :=
  if zlen (sn_Signature sn) =? 0 then false
  else is_ok (RecoverCompact (sn_Signature sn) (sig_hash sn)).

Definition SignRegistration (sn : ServiceNode) (priv : bytes) : res ServiceNode :=
  if negb (zlen priv =? 32) then Err "servicenode: registration signer must be 32 bytes"
  else sig ← SignCompact priv (sig_hash sn); Ok (sn <| sn_Signature := sig |>).

Definition registrationValid (sn : ServiceNode) : bool :=
  if negb (sn_Tier sn =? TierSPV) then false
  else if negb (fullyValidCPubKey (sn_PubKey sn)) then false
  else if bool_decide (sn_PaymentAddress sn = repeat x00 20) then false
  else if (zlen (sn_Collateral sn) =? 0) || (maxCollateralCount <? zlen (sn_Collateral sn)) then false
  else if hasDupCollateral (sn_Collateral sn) then false
  else if negb (verifyRegistrationSignature sn) then false
  else true.

Definition ParseServiceNodePing (b : bytes) : res ServiceNode :=
  '(outer, pos) ← readCPubKey b 0;
  '(_, pos) ← readUint32 b pos;
  '(_, pos) ← readUint256 b pos;
  '(pingTime, pos) ← readUint32 b pos;
  '(config, pos) ← readVarStr b pos;
  '(inner, pos) ← parseInnerServiceNode b pos;
  if negb (fullyValidCPubKey outer) || negb (bool_decide (outer = sn_PubKey inner))
  then Err "servicenode: ping outer pubkey invalid or not equal to embedded snode pubkey"
  else
    let '(services, ver) := parseConfig config (sn_Tier inner) in
    let sn := inner <| sn_Config := config |> <| sn_Services := services |>
                    <| sn_XBridgeVersion := ver |> <| sn_PingTime := pingTime |> in
    '(signature, _) ← readVarBytes b pos;
    signed ← slice b 0 pos;
    match RecoverCompact signature (DoubleSHA256 signed) with
    | Ok pub =>
        if negb (bool_decide (pub = outer)) then Err "servicenode: ping signature does not match pubkey"
        else if negb (registrationValid sn)
        then Err "servicenode: embedded registration fails the thin-client isValid subset"
        else Ok sn
    | Err _ => Err "servicenode: ping signature does not match pubkey"
    | Panic => Panic
    end.

(** ** The registry *)

Record entry := mkEntry {
  en_services : list bytes;
  en_xbridgeVersion : Z;
  en_paymentAddress : bytes;
  en_pingTime : Z;
}.

Record Registry := mkRegistry {
  rg_nodes : gmap bytes entry;
  rg_pings : gmap bytes Z;
  rg_raw : gmap bytes bytes;
}.
#[export] Instance eta_Registry : Eta Registry := fun r => mkRegistry (rg_nodes r) (rg_pings r) (rg_raw r).

Definition NewRegistry : Registry := mkRegistry ∅ ∅ ∅.

Definition AddRegistration (sn : ServiceNode) (r : Registry) : Registry :=
  if negb (registrationValid sn) then r
  else r <| rg_nodes ::= <[sn_PubKey sn :=
         mkEntry (sn_Services sn) (sn_XBridgeVersion sn) (sn_PaymentAddress sn) 0]> |>.

Definition clampPingTime (reported now : Z) : Z :=
  if (reported =? 0) || (now <? reported) then wrap 32 now else reported.

(** [raw] is the optional payload for the echo; [now] is the clock in seconds. *)
Definition AddPing (now : Z) (sn : ServiceNode) (raw : option bytes) (r : Registry) : bool * Registry :=
  let k := sn_PubKey sn in
  if (sn_Tier sn =? TierSPV) && (0 <? zlen (sn_Services sn)) && fullyValidCPubKey k
     && match rg_pings r !! k with None => true | Some last => last <? sn_PingTime sn end
  then (true,
        r <| rg_pings ::= <[k := sn_PingTime sn]> |>
          <| rg_nodes ::= <[k := mkEntry (sn_Services sn) (sn_XBridgeVersion sn) (sn_PaymentAddress sn)
                                   (clampPingTime (sn_PingTime sn) now)]> |>
          <| rg_raw ::= (match raw with Some b => <[k := b]> | None => id end) |>)
  else (false, r).

(** The callback of the connection to an explicit service node: what [NewNode] sets
    as [OnNonXBridge]; [None] is a panic of the parser. *)
Definition node_OnNonXBridge (clock : Registry -> Z) (cmd payload : bytes) (r : Registry) : option Registry :=
  if bool_decide (cmd = CmdSNRegister) then
    match ParseServiceNode payload with
    | Ok sn => Some (AddRegistration sn r)
    | Err _ => Some r
    | Panic => None
    end
  else if bool_decide (cmd = CmdSNPing) || bool_decide (cmd = CmdSNListPing) then
    match ParseServiceNodePing payload with
    | Ok sn => Some (snd (AddPing (clock r) sn (Some payload) r))
    | Err _ => Some r
    | Panic => None
    end
  else Some r.

End Checks.

(** The payloads, by ascending key. *)
Definition AcceptedRawPings (r : Registry) : list (bytes * bytes) :=
  sort_by (fun a b => bytes_lt a.1 b.1) (map_to_list (rg_raw r)).

Definition runningWindow : Z := 300.
Definition running (now : Z) (e : entry) : bool := now - en_pingTime e <? runningWindow.

Definition containsAll (set need : list bytes) : bool :=
  forallb (fun want => existsb (fun have => bool_decide (have = want)) set) need.

(** [version.XBridgeProtocolVersion] is [ver]. *)
Definition eligible (ver now : Z) (need exclude : list bytes) (ke : bytes * entry) : bool :=
  let '(k, e) := ke in
  if bool_decide (k ∈ exclude) then false
  else if negb (en_xbridgeVersion e =? ver) || negb (running now e) then false
  else negb ((zlen need =? 0) || negb (containsAll (en_services e) need)).

(** [rand.Shuffle]: position [i], from the last down to 1, is swapped with the drawn one at or below it. *)
Definition swap_at {A} (i j : nat) (l : list A) : list A :=
  match l !! i, l !! j with
  | Some a, Some b => <[i := b]> (<[j := a]> l)
  | _, _ => l
  end.

Fixpoint Shuffle {A} (draws : nat -> nat) (i : nat) (l : list A) : list A :=
  match i with
  | O => l
  | S i' => Shuffle draws i' (swap_at i (draws i mod S i) l)
  end.

(** [order] is the order in which the map is visited. *)
Definition Pick (ver now : Z) (order : list (bytes * entry)) (draws : nat -> nat) (need exclude : list bytes) : option bytes :=
  let list := map fst (List.filter (eligible ver now need exclude) order) in
  if zlen list =? 0 then None else head (Shuffle draws (length list - 1) list).

(** A token without a colon that is not a router service. *)
Definition wallet_token (s : bytes) : bool :=
  negb (bool_decide (s = [])) && forallb (fun b => negb (Byte.eqb b x3a)) s
  && negb (bool_decide (s ∈ [bytes_of "xr"; bytes_of "xrs"])).

Definition WalletServices (now : Z) (r : Registry) : list bytes :=
  let tokens := concat (map (fun ke => List.filter wallet_token (en_services ke.2))
                            (List.filter (fun ke => running now ke.2) (map_to_list (rg_nodes r)))) in
  sort_by bytes_lt (elements (list_to_set tokens : gset bytes)).

Definition Count (r : Registry) : Z := Z.of_nat (size (rg_nodes r)).
Definition Known (r : Registry) (key : bytes) : bool := bool_decide (is_Some (rg_nodes r !! key)).
Definition PaymentAddress (r : Registry) (key : bytes) : option bytes := en_paymentAddress <$> rg_nodes r !! key.
