(* ===== verification/RegistryLaws.v ===== *)
(** * The service node registry: what its messages and its picks are worth

    [codec] is a reader with its wire form: it never panics inside the payload,
    it reads back what the form writes, and what it reads was written in that
    form.  The fields of a registration compose into one, so a registration
    parses exactly when the payload starts with the bytes its signature commits
    to, followed by the signature.  A ping is sound when its node signed it.
    The invariant [registry_ok] relates every entry to the ping it came from;
    it holds after any sequence of messages, at any non-decreasing clock. *)

From S2P Require Import Prelude Sha256 Digits GoLib Sort Codec Bodies Wire Peer Base58 Secp Hex Json Packet Signer Registry.

(** ** Readers with their wire form *)

Record codec {A} (rd : read A) (ok : A -> Prop) (enc : A -> bytes) : Prop := {
  c_safe b pos : 0 <= pos <= zlen b -> no_panic (rd b pos);
  c_reads v pre post : ok v -> rd (pre ++ enc v ++ post) (zlen pre) = Ok (v, zlen pre + zlen (enc v));
  c_inv b pos v pos' : 0 <= pos <= zlen b -> rd b pos = Ok (v, pos') ->
    ok v /\ exists pre post, b = pre ++ enc v ++ post /\ zlen pre = pos /\ pos' = pos + zlen (enc v);
}.

Lemma slice_mid {A} (pre m post : list A) n :
  zlen m = n -> slice (pre ++ m ++ post) (zlen pre) (zlen pre + n) = Ok m.
Proof.
  intros <-. pose proof (zlen_nonneg m). pose proof (zlen_nonneg post). pose proof (zlen_nonneg pre).
  rewrite slice_in_range by (rewrite ?zlen_app; lia). f_equal.
  rewrite (drop_app_len pre) by (unfold zlen; lia). apply take_drop_app_len. unfold zlen. lia.
Qed.

Lemma slice_split {A} (l : list A) pos n m :
  0 <= pos -> 0 <= n -> pos + n <= zlen l -> slice l pos (pos + n) = Ok m ->
  zlen m = n /\ exists pre post, l = pre ++ m ++ post /\ zlen pre = pos.
Proof.
  intros Hp Hn Hl. rewrite slice_in_range by lia. intros [= <-]. split.
  - unfold zlen in *. rewrite length_take, length_drop. lia.
  - exists (take (Z.to_nat pos) l), (drop (Z.to_nat n) (drop (Z.to_nat pos) l)). split.
    + replace (pos + n - pos) with n by lia. by rewrite !take_drop.
    + unfold zlen in *. rewrite length_take. lia.
Qed.

Lemma fixed_codec n f : 0 <= n -> codec (read_fixed n f) (fun v => zlen v = n) id.
Proof.
  intros Hn. split; unfold read_fixed, id.
  - intros b pos Hp. destruct (Z.ltb_spec (zlen b - pos) n); [done|]. by rewrite slice_in_range by lia.
  - intros v pre post Hv. rewrite !zlen_app. pose proof (zlen_nonneg post).
    rewrite (proj2 (Z.ltb_ge _ _)) by lia. rewrite slice_mid by done. cbn. by rewrite Hv.
  - intros b pos v pos' Hp H. destruct (Z.ltb_spec (zlen b - pos) n); [done|].
    apply res_bind_ok in H as (m & Hs & [= <- <-]). apply slice_split in Hs as (Hm & pre & post & Hb & Hpre); [|lia..].
    rewrite Hm. eauto 10.
Qed.

(** A decoded fixed-width field. *)
Lemma fixed_map_codec {A} (rd : read A) n f (dec : bytes -> A) (enc : A -> bytes) (ok : A -> Prop) :
  0 <= n ->
  (forall b pos, 0 <= pos -> rd b pos = '(v, pos) ← read_fixed n f b pos; Ok (dec v, pos)) ->
  (forall v, ok v -> zlen (enc v) = n /\ dec (enc v) = v) ->
  (forall m, zlen m = n -> ok (dec m) /\ enc (dec m) = m) ->
  codec rd ok enc.
Proof.
  intros Hn Heq Hok Hdec. destruct (fixed_codec n f Hn) as [Hs Hr Hi]. split.
  - intros b pos Hp. rewrite Heq by lia. apply no_panic_bind; [by apply Hs|]. by intros [] _.
  - intros v pre post Hv. destruct (Hok v Hv) as [Hl Hd]. rewrite Heq by apply zlen_nonneg.
    pose proof (Hr (enc v) pre post Hl) as H. unfold id in H. rewrite H. cbn. by rewrite Hd.
  - intros b pos v pos' Hp. rewrite Heq by lia. intros H. apply res_bind_ok in H as ([m p] & E & [= <- <-]).
    apply Hi in E as (Hl & pre & post & Hb & Hpre & Hp'); [|done]. destruct (Hdec m Hl) as [Ho He]. rewrite He. eauto 10.
Qed.

(** Two reads in a row, and a bijection on the value read. *)
Definition read_pair {A B} (ra : read A) (rb : read B) : read (A * B) := fun b pos =>
  '(x, pos) ← ra b pos; '(y, pos) ← rb b pos; Ok ((x, y), pos).

Lemma pair_codec {A B} (ra : read A) (rb : read B) oka okb ea eb :
  codec ra oka ea -> codec rb okb eb ->
  codec (read_pair ra rb) (fun p => oka p.1 /\ okb p.2) (fun p => ea p.1 ++ eb p.2).
Proof.
  intros [As Ar Ai] [Bs Br Bi]. unfold read_pair.
  assert (forall b pos x p, 0 <= pos <= zlen b -> ra b pos = Ok (x, p) -> 0 <= p <= zlen b) as Hin.
  { intros b pos x p Hp H. apply Ai in H as (_ & pre & post & -> & Hpre & ->); [|done]. rewrite !zlen_app.
    pose proof (zlen_nonneg (ea x)). pose proof (zlen_nonneg post). lia. }
  split.
  - intros b pos Hp. apply no_panic_bind; [by apply As|]. intros [x p] Ha. cbn.
    apply no_panic_bind; [apply Bs; by eapply Hin|]. by intros [] _.
  - intros [x y] pre post [Hx Hy]. cbn [fst snd] in *. rewrite <- app_assoc, Ar by done. cbn.
    rewrite <- zlen_app, app_assoc. rewrite Br by done. cbn. rewrite !zlen_app. do 2 f_equal. lia.
  - intros b pos [x y] pos' Hp H. apply res_bind_ok in H as ([x0 p] & Ha & H). cbn in H.
    apply res_bind_ok in H as ([y0 p'] & Hb & [= <- <- <-]). pose proof (Hin _ _ _ _ Hp Ha) as Hp2.
    apply Ai in Ha as (Hx & pre & post & -> & Hpre & ->); [|done].
    apply Bi in Hb as (Hy & pre2 & post2 & Hb & Hpre2 & ->); [|done]. cbn [fst snd]. split; [done|].
    exists pre, post2. rewrite app_assoc in Hb.
    apply app_inj_1 in Hb as [H1 H2]; [|unfold zlen in *; rewrite length_app; lia].
    split_and!; [|done|rewrite zlen_app; lia]. rewrite H2. by rewrite <- app_assoc.
Qed.

Lemma map_codec {A B} (ra : read A) (rb : read B) ok ea (f : A -> B) (g : B -> A) :
  codec ra ok ea -> (forall b pos, rb b pos = '(x, pos) ← ra b pos; Ok (f x, pos)) -> (forall x, g (f x) = x) ->
  codec rb (fun y => ok (g y) /\ f (g y) = y) (fun y => ea (g y)).
Proof.
  intros [As Ar Ai] Heq Hg. split.
  - intros b pos Hp. rewrite Heq. apply no_panic_bind; [by apply As|]. by intros [] _.
  - intros y pre post [Hy Hf]. rewrite Heq, Ar by done. cbn. by rewrite Hf.
  - intros b pos y pos' Hp. rewrite Heq. intros H. apply res_bind_ok in H as ([x p] & Ha & [= <- <-]).
    apply Ai in Ha as (Hx & pre & post & Hb & Hpre & Hp'); [|done]. rewrite !Hg. eauto 10.
Qed.

Lemma codec_weaken {A} (rd : read A) (ok ok' : A -> Prop) enc enc' :
  codec rd ok enc -> (forall v, ok v <-> ok' v) -> (forall v, ok v -> enc v = enc' v) -> codec rd ok' enc'.
Proof.
  intros [Cs Cr Ci] Ho He. split; [done| |].
  - intros v pre post Hv%Ho. rewrite <- He by done. by apply Cr.
  - intros b pos v pos' Hp H. apply Ci in H as (Hv & H); [|done]. rewrite <- He by done. split; [by apply Ho|done].
Qed.

(** A count, then that many bytes of content. *)
Lemma varint_codec {A} (body : Z -> read A) (len : A -> Z) (ok : A -> Prop) (enc : A -> bytes) :
  (forall n, 0 <= n <= maxCompactSize -> codec (body n) (fun v => ok v /\ len v = n) enc) ->
  codec (fun b pos => '(n, pos) ← readVarInt b pos; body n b pos)
    (fun v => ok v /\ 0 <= len v <= maxCompactSize) (fun v => writeVarInt (len v) ++ enc v).
Proof.
  intros Hb. split.
  - intros b pos Hp. apply no_panic_bind; [apply readVarInt_no_panic; lia|]. intros [n p] H.
    apply varint_inv in H as (Hn & -> & post & Hd); [|lia]. apply (c_safe _ _ _ (Hb n Hn)).
    pose proof (zlen_nonneg (writeVarInt n)). split; [lia|]. apply (f_equal zlen) in Hd. rewrite zlen_app in Hd.
    unfold zlen in *. rewrite length_drop in Hd. lia.
  - intros v pre post [Hv Hl]. rewrite <- app_assoc, varint_read by done. cbn.
    rewrite <- zlen_app, app_assoc. rewrite (c_reads _ _ _ (Hb _ Hl)) by done. rewrite !zlen_app. do 2 f_equal. lia.
  - intros b pos v pos' Hp H. apply res_bind_ok in H as ([n p] & Hn & H). cbn in H.
    apply varint_inv in Hn as (Hn & -> & post & Hd); [|lia].
    assert (b = take (Z.to_nat pos) b ++ writeVarInt n ++ post) as Hbe by (by rewrite <- Hd, take_drop).
    assert (zlen (take (Z.to_nat pos) b) = pos) as Hpre by (unfold zlen in *; rewrite length_take; lia).
    set (pre := take _ b) in *. rewrite Hbe in H. rewrite <- Hpre in H |- *. clearbody pre. rewrite <- zlen_app, app_assoc in H.
    apply (c_inv _ _ _ (Hb n Hn)) in H as ([Hv Hl] & pre2 & post2 & Hb2 & Hp2 & ->).
    2:{ rewrite !zlen_app. pose proof (zlen_nonneg pre). pose proof (zlen_nonneg (writeVarInt n)). pose proof (zlen_nonneg post). lia. }
    rewrite Hl. split; [auto|]. exists pre, post2.
    apply app_inj_1 in Hb2 as [H1 H2]; [|unfold zlen in *; lia].
    split_and!; [rewrite Hbe, H2; by rewrite <- app_assoc|done|rewrite !zlen_app; lia].
Qed.

(** ** The fields of a registration *)

Lemma cpubkey_codec : codec readCPubKey (fun pk => zlen pk = 33) marshalVarStr.
Proof.
  refine (codec_weaken _ _ _ _ _ (varint_codec (fun n b off =>
    if negb (n =? 33) || (zlen b - off <? 33) then Err (errShort "cpubkey") else pk ← slice b off (off + 33); Ok (pk, off + 33))
    zlen (fun v => zlen v = 33) id _) _ _); [|unfold maxCompactSize; naive_solver lia|done].
  intros n Hn. destruct (Z.eqb_spec n 33) as [->|Hne]; cbn [negb orb].
  - refine (codec_weaken _ _ _ _ _ (fixed_codec 33 "cpubkey" ltac:(lia)) _ _); [naive_solver|done].
  - split; [done|naive_solver lia|done].
Qed.

Lemma varbytes_codec : codec readVarBytes (fun v => zlen v <= maxCompactSize) marshalVarStr.
Proof.
  refine (codec_weaken _ _ _ _ _ (varint_codec (fun n => read_fixed n "varbytes") zlen (fun _ => True) id _) _ _);
    [|intros v; pose proof (zlen_nonneg v); naive_solver lia|done].
  intros n Hn. refine (codec_weaken _ _ _ _ _ (fixed_codec n "varbytes" ltac:(lia)) _ _); [naive_solver|done].
Qed.

Lemma le_combine_1 a : le_combine [a] = byte.unsigned a.
Proof. change (le_combine [a]) with (Z.lor (byte.unsigned a) 0). apply Z.lor_0_r. Qed.

Lemma uint8_codec : codec readUint8 u8_ok (fun v => [byte.of_Z v]).
Proof.
  apply (fixed_map_codec _ 1 "uint8" le_combine); [lia|..].
  - intros b pos Hp. unfold readUint8, read_fixed. destruct (Z.ltb_spec (zlen b - pos) 1); [done|].
    destruct (index_in_range b pos) as (a & -> & Ha); [lia|]. rewrite slice_in_range by lia. cbn.
    replace (Z.to_nat (pos + 1 - pos)) with 1%nat by lia. rewrite (drop_S b a _ Ha). cbn [take mbind res_bind].
    by rewrite le_combine_1.
  - intros v Hv. split; [done|]. rewrite le_combine_1. by apply byte_of_Z_small.
  - intros [|a [|c m]] H; [done| |unfold zlen in H; cbn in H; lia]. rewrite le_combine_1. split; [apply byte_unsigned_ok|]. by rewrite byte.of_Z_unsigned.
Qed.

Lemma zlen_le_split' n v : zlen (le_split n v) = Z.of_nat n.
Proof. unfold zlen. by rewrite length_le_split. Qed.

Lemma uint32_codec : codec readUint32 u32_ok (le_split 4).
Proof.
  apply (fixed_map_codec _ 4 "uint32" le_combine); [lia|..].
  - intros b pos Hp. unfold readUint32, read_fixed. destruct (Z.ltb_spec (zlen b - pos) 4); [done|].
    by rewrite slice_in_range by lia.
  - intros v Hv. split; [apply zlen_le_split'|by apply le_combine_split_small].
  - intros m Hm. split; [pose proof (le_combine_ok m) as H; by rewrite Hm in H|].
    apply split_le_combine'. unfold zlen in Hm. lia.
Qed.

Definition i32_ok (v : Z) : Prop := - 2 ^ 31 <= v < 2 ^ 31.

Lemma sint32_wrap v : i32_ok v -> sint 32 (wrap 32 v) = v.
Proof.
  unfold i32_ok, sint, wrap. intros Hv. change (32 - 1) with 31. destruct (Z.lt_ge_cases v 0).
  - rewrite <- (Z_mod_plus_full v 1), Z.mod_small by lia. rewrite (proj2 (Z.ltb_ge _ _)) by lia. lia.
  - rewrite Z.mod_small by lia. by rewrite (proj2 (Z.ltb_lt _ _)) by lia.
Qed.

Lemma sint_range v : u32_ok v -> i32_ok (sint 32 v) /\ wrap 32 (sint 32 v) = v.
Proof.
  unfold i32_ok, sint, wrap, uint_ok. intros Hv. change (32 - 1) with 31. destruct (Z.ltb_spec v (2 ^ 31)).
  - rewrite Z.mod_small; lia.
  - split; [lia|]. rewrite <- (Z_mod_plus_full (v - 2 ^ 32) 1), Z.mod_small; lia.
Qed.

Lemma int32_codec : codec readInt32 i32_ok (fun v => le_split 4 (wrap 32 v)).
Proof.
  apply (fixed_map_codec _ 4 "int32" (fun m => sint 32 (le_combine m))); [lia|..].
  - intros b pos Hp. unfold readInt32, read_fixed. destruct (Z.ltb_spec (zlen b - pos) 4); [done|].
    by rewrite slice_in_range by lia.
  - intros v Hv. split; [apply zlen_le_split'|]. rewrite le_combine_split_small by (by apply wrap_ok). by apply sint32_wrap.
  - intros m Hm. pose proof (le_combine_ok m) as H. rewrite Hm in H. destruct (sint_range _ H) as [Hi Hw]. split; [done|].
    rewrite Hw. apply split_le_combine'. unfold zlen in Hm. lia.
Qed.

Definition collateral_wf (op : CollateralUTXO) : Prop := zlen (cu_TxID op) = 32 /\ u32_ok (cu_Vout op).

Lemma outpoint_length op : zlen (cu_TxID op) = 32 -> zlen (outpoint_bytes op) = 36.
Proof. intros H. unfold outpoint_bytes. rewrite zlen_app, H, zlen_le_split'. lia. Qed.

Lemma outpoints_length l : Forall collateral_wf l -> zlen (concat (map outpoint_bytes l)) = 36 * zlen l.
Proof.
  induction 1 as [|op l [Hop _] _ IH]; [done|]. cbn. rewrite zlen_app, zlen_cons, outpoint_length by done. lia.
Qed.

Lemma read_outpoints_app l pre post :
  Forall collateral_wf l ->
  read_outpoints (length l) (pre ++ concat (map outpoint_bytes l) ++ post) (zlen pre) = Ok (l, zlen pre + 36 * zlen l).
Proof.
  intros Hl. revert pre. induction Hl as [|[h v] l [Hh Hv] Hl IH]; intros pre; [by rewrite Z.add_0_r|].
  cbn [length read_outpoints map concat cu_TxID cu_Vout] in *. unfold outpoint_bytes; cbn [cu_TxID cu_Vout].
  rewrite <- !app_assoc. set (tl := concat _ ++ post).
  rewrite (slice_mid pre h) by done. cbn [mbind res_bind].
  replace (pre ++ h ++ le_split 4 v ++ tl) with ((pre ++ h) ++ le_split 4 v ++ tl) by (by rewrite <- app_assoc).
  replace (zlen pre + 32) with (zlen (pre ++ h)) by (rewrite zlen_app; lia).
  replace (zlen pre + 36) with (zlen (pre ++ h) + 4) by (rewrite zlen_app; lia).
  rewrite slice_mid by (by rewrite zlen_le_split'). cbn [mbind res_bind].
  replace ((pre ++ h) ++ le_split 4 v ++ tl) with ((pre ++ h ++ le_split 4 v) ++ tl) by (by rewrite <- !app_assoc).
  replace (zlen (pre ++ h) + 4) with (zlen (pre ++ h ++ le_split 4 v)) by (rewrite !zlen_app, zlen_le_split'; lia).
  unfold tl. rewrite IH. cbn. rewrite le_combine_split_small by done. do 2 f_equal.
  rewrite !zlen_app, zlen_cons, zlen_le_split'. lia.
Qed.

Lemma read_outpoints_inv n b pos :
  0 <= pos -> pos + 36 * Z.of_nat n <= zlen b ->
  exists l pre post, read_outpoints n b pos = Ok (l, pos + 36 * Z.of_nat n) /\ Forall collateral_wf l /\ length l = n /\
    b = pre ++ concat (map outpoint_bytes l) ++ post /\ zlen pre = pos.
Proof.
  revert pos; induction n as [|n IH]; intros pos Hp Hb.
  { exists [], (take (Z.to_nat pos) b), (drop (Z.to_nat pos) b). cbn. rewrite take_drop, Z.add_0_r.
    split_and!; try done. unfold zlen in *. rewrite length_take. lia. }
  destruct (IH (pos + 36)) as (l & pre & post & Hr & Hl & Hn & He & Hpre); [lia..|].
  destruct (slice b pos (pos + 32)) as [h| |] eqn:E1; [|by rewrite slice_in_range in E1 by lia|by rewrite slice_in_range in E1 by lia].
  destruct (slice b (pos + 32) (pos + 36)) as [v| |] eqn:E2; [|by rewrite slice_in_range in E2 by lia|by rewrite slice_in_range in E2 by lia].
  cbn [read_outpoints]. rewrite E1. cbn [mbind res_bind]. rewrite E2. cbn [mbind res_bind]. rewrite Hr. cbn.
  apply slice_split in E1 as (Hh & p1 & q1 & H1 & Hp1); [|lia..].
  replace (pos + 36) with ((pos + 32) + 4) in E2 by lia. apply slice_split in E2 as (Hv & p2 & q2 & H2 & Hp2); [|lia..].
  assert (p2 = p1 ++ h /\ q1 = v ++ q2) as [-> ->].
  { rewrite H1, app_assoc in H2. apply app_inj_1 in H2 as [-> ->]; [done|]. unfold zlen in *. rewrite length_app. lia. }
  assert (pre = p1 ++ h ++ v /\ q2 = concat (map outpoint_bytes l) ++ post) as [-> Hq].
  { rewrite H1 in He. rewrite !app_assoc in He. rewrite <- (app_assoc pre) in He.
    apply app_inj_1 in He as [<- ->]; [by rewrite <- app_assoc|]. unfold zlen in *. rewrite !length_app. lia. }
  exists (mkCollateral h (le_combine v) :: l), p1, post. cbn. split_and!; [|constructor; [split|]; cbn|lia| |done].
  - do 2 f_equal. lia.
  - done.
  - pose proof (le_combine_ok v) as Hok. by rewrite Hv in Hok.
  - done.
  - unfold outpoint_bytes. cbn. rewrite split_le_combine' by (unfold zlen in Hv; lia). rewrite H1, Hq. by rewrite <- !app_assoc.
Qed.

Lemma outpoints_codec n :
  0 <= n ->
  codec (fun b pos => if zlen b - pos <? n * (32 + 4) then Err (errShort "collateral") else read_outpoints (Z.to_nat n) b pos)
    (fun l => Forall collateral_wf l /\ zlen l = n) (fun l => concat (map outpoint_bytes l)).
Proof.
  intros Hn. split.
  - intros b pos Hp. destruct (Z.ltb_spec (zlen b - pos) (n * (32 + 4))); [done|].
    destruct (read_outpoints_inv (Z.to_nat n) b pos) as (l & _ & _ & -> & _); [lia..|done].
  - intros l pre post [Hl Hlen]. rewrite (proj2 (Z.ltb_ge _ _)).
    2:{ rewrite !zlen_app, outpoints_length by done. pose proof (zlen_nonneg post). lia. }
    replace (Z.to_nat n) with (length l) by (unfold zlen in Hlen; lia).
    rewrite read_outpoints_app by done. by rewrite outpoints_length.
  - intros b pos l pos' Hp H. destruct (Z.ltb_spec (zlen b - pos) (n * (32 + 4))); [done|].
    destruct (read_outpoints_inv (Z.to_nat n) b pos) as (l' & pre & post & Hr & Hl & Hln & Hb & Hpre); [lia..|].
    rewrite Hr in H. injection H as -> <-. split; [split; [done|unfold zlen; lia]|].
    exists pre, post. rewrite outpoints_length by done. split_and!; [done|done|]. unfold zlen. lia.
Qed.

Lemma collateral_codec :
  codec readCollateral (fun l => Forall collateral_wf l /\ zlen l <= maxCompactSize)
    (fun l => writeVarInt (zlen l) ++ concat (map outpoint_bytes l)).
Proof.
  refine (codec_weaken _ _ _ _ _ (varint_codec (fun n b pos => if zlen b - pos <? n * (32 + 4) then Err (errShort "collateral")
      else read_outpoints (Z.to_nat n) b pos) zlen (Forall collateral_wf) (fun l => concat (map outpoint_bytes l)) _) _ _).
  - intros n Hn. apply outpoints_codec. lia.
  - intros l. pose proof (zlen_nonneg l). naive_solver lia.
  - done.
Qed.

(** ** A registration is the bytes its signature commits to, and the signature *)

Definition registration_wf (sn : ServiceNode) : Prop :=
  zlen (sn_PubKey sn) = 33 /\ u8_ok (sn_Tier sn) /\ zlen (sn_PaymentAddress sn) = 20 /\
  (Forall collateral_wf (sn_Collateral sn) /\ zlen (sn_Collateral sn) <= maxCompactSize) /\
  i32_ok (sn_BestBlock sn) /\ zlen (sn_BestBlockHash sn) = 32 /\ zlen (sn_Signature sn) <= maxCompactSize.

(** No config, services or times: what only a ping carries. *)
Definition registration_only (sn : ServiceNode) : ServiceNode :=
  mkServiceNode (sn_PubKey sn) (sn_Tier sn) [] [] 0 0 (sn_PaymentAddress sn) (sn_Collateral sn) (sn_BestBlock sn)
    (sn_BestBlockHash sn) (sn_Signature sn).

Definition registration_bytes (sn : ServiceNode) : bytes := serializeSigHashFields sn ++ marshalVarStr (sn_Signature sn).

Definition sn_of (x : bytes * (Z * (bytes * (list CollateralUTXO * (Z * (bytes * bytes)))))) : ServiceNode :=
  let '(pk, (tier, (addr, (coll, (best, (hash, sig)))))) := x in
  mkServiceNode pk tier [] [] 0 0 addr coll best hash sig.
Definition sn_fields (sn : ServiceNode) :=
  (sn_PubKey sn, (sn_Tier sn, (sn_PaymentAddress sn, (sn_Collateral sn, (sn_BestBlock sn, (sn_BestBlockHash sn, sn_Signature sn)))))).

Lemma inner_codec :
  codec parseInnerServiceNode (fun sn => registration_wf sn /\ registration_only sn = sn) registration_bytes.
Proof.
  pose proof (pair_codec _ _ _ _ _ _ cpubkey_codec (pair_codec _ _ _ _ _ _ uint8_codec
    (pair_codec _ _ _ _ _ _ (fixed_codec 20 "paymentAddress" ltac:(lia)) (pair_codec _ _ _ _ _ _ collateral_codec
    (pair_codec _ _ _ _ _ _ int32_codec (pair_codec _ _ _ _ _ _ (fixed_codec 32 "uint256" ltac:(lia)) varbytes_codec)))))) as H.
  refine (codec_weaken _ _ _ _ _ (map_codec _ _ _ _ sn_of sn_fields H _ _) _ _).
  - intros b pos. unfold parseInnerServiceNode, read_pair, readFixed20, readUint256.
    repeat (match goal with |- context [mbind _ ?m] => destruct m as [[? ?]|?|] end; cbn [mbind res_bind]; [|done..]). done.
  - intros (pk & tier & addr & coll & best & hash & sig). done.
  - intros sn. unfold registration_wf, registration_only, sn_fields, sn_of. cbn [fst snd]. done.
  - intros sn _. unfold registration_bytes, serializeSigHashFields, sn_fields, id. cbn [fst snd]. by rewrite <- !app_assoc.
Qed.

(** ** Pings *)

(** The payload is signed bytes, their signature by the key [k], and a tail that nothing reads. *)
Definition ping_signed `{Secp} (b k : bytes) : Prop := exists signed sig rest,
  b = signed ++ marshalVarStr sig ++ rest /\ RecoverCompact sig (DoubleSHA256 signed) = Ok k.

Lemma read_in_range {A} (rd : read A) ok enc b pos v pos' :
  codec rd ok enc -> 0 <= pos <= zlen b -> rd b pos = Ok (v, pos') -> 0 <= pos' <= zlen b.
Proof.
  intros C Hp H. apply (c_inv _ _ _ C) in H as (_ & pre & post & -> & <- & ->); [|done]. rewrite !zlen_app.
  pose proof (zlen_nonneg pre). pose proof (zlen_nonneg post). pose proof (zlen_nonneg (enc v)). lia.
Qed.

Lemma readVarStr_range b pos v pos' : 0 <= pos <= zlen b -> readVarStr b pos = Ok (v, pos') -> 0 <= pos' <= zlen b.
Proof.
  intros Hp H. unfold readVarStr in H. apply res_bind_ok in H as (rest & Hs & H). rewrite slice_in_range in Hs; [|lia|lia].
  injection Hs as <-. apply res_bind_ok in H as ([s off] & H & [= <- <-]).
  set (rest := take _ _) in *. assert (zlen rest = zlen b - pos) as Hr.
  { unfold rest, zlen in *. rewrite length_take, length_drop. lia. }
  unfold unmarshalVarStr in H. destruct (Z.ltb_spec (zlen rest) 1); [done|]. apply res_bind_ok in H as ([n p] & E & H).
  cbv zeta in H. destruct (Z.ltb_spec (zlen rest) (swrap64 (p + n))); [done|]. apply res_bind_ok in H as (m & Hm & [= <- <-]).
  unfold slice in Hm. destruct (Z.leb_spec 0 p), (Z.leb_spec p (swrap64 (p + n))); try done. lia.
Qed.

Section Laws.
Context {secp : Secp}.

Lemma registrationValid_only sn : registrationValid (registration_only sn) = registrationValid sn.
Proof. done. Qed.

(** What an accepted ping is. *)
Lemma ping_inv b sn :
  ParseServiceNodePing b = Ok sn ->
  ping_signed b (sn_PubKey sn) /\ fullyValidCPubKey (sn_PubKey sn) = true /\ registrationValid sn = true /\
  (sn_Services sn, sn_XBridgeVersion sn) = parseConfig (sn_Config sn) (sn_Tier sn) /\
  registration_wf sn /\ u32_ok (sn_PingTime sn) /\
  exists pre post, b = pre ++ registration_bytes sn ++ post.
Proof.
  pose proof (zlen_nonneg b) as Hb. unfold ParseServiceNodePing. intros H.
  apply res_bind_ok in H as ([outer p1] & E1 & H). cbn in H. pose proof (read_in_range _ _ _ _ _ _ _ cpubkey_codec (conj (Z.le_refl 0) Hb) E1) as H1.
  apply res_bind_ok in H as ([u p2] & E2 & H). cbn in H. pose proof (read_in_range _ _ _ _ _ _ _ uint32_codec H1 E2) as H2.
  apply res_bind_ok in H as ([h p3] & E3 & H). cbn in H.
  pose proof (read_in_range _ _ _ _ _ _ _ (fixed_codec 32 "uint256" ltac:(lia)) H2 E3) as H3.
  apply res_bind_ok in H as ([pt p4] & E4 & H). cbn in H. pose proof (read_in_range _ _ _ _ _ _ _ uint32_codec H3 E4) as H4.
  apply res_bind_ok in H as ([config p5] & E5 & H). cbn in H. pose proof (readVarStr_range _ _ _ _ H4 E5) as H5.
  apply res_bind_ok in H as ([inner p6] & E6 & H). cbn in H. pose proof (read_in_range _ _ _ _ _ _ _ inner_codec H5 E6) as H6.
  destruct (fullyValidCPubKey outer) eqn:Ev; [|done]. cbn [negb orb] in H. case_bool_decide as Hk; [|done]. cbn [negb] in H.
  destruct (parseConfig config (sn_Tier inner)) as [services ver] eqn:Ec.
  apply res_bind_ok in H as ([sig p7] & E7 & H). cbn in H. apply res_bind_ok in H as (signed & Es & H).
  apply (c_inv _ _ _ varbytes_codec) in E7 as (_ & pre & post & Hpre & Hzp & _); [|done].
  rewrite slice_in_range in Es by lia. injection Es as <-.
  apply (c_inv _ _ _ inner_codec) in E6 as ([Hwf Hin] & pre2 & post2 & Hpre2 & _); [|done].
  apply (c_inv _ _ _ uint32_codec) in E4 as (Hpt & _); [|done].
  destruct (RecoverCompact sig _) as [pub| |] eqn:Er; [|done..]. case_bool_decide as Hpub; [|done]. cbn [negb] in H.
  destruct (registrationValid _) eqn:Erv; [|done]. cbn [negb] in H. injection H as <-. cbn. subst outer pub.
  split_and!; try done; [|by exists pre2, post2].
  exists pre, sig, post. split; [done|]. rewrite <- Er. do 2 f_equal. rewrite Hpre.
  rewrite drop_0, Z.sub_0_r. symmetry. apply take_drop_app_len. unfold zlen in Hzp. lia.
Qed.

End Laws.

(** ** What the messages do to the registry *)

Section Messages.
Context {secp : Secp}.

(** The branches of the read loop. *)
Definition recv_registration (b : bytes) (r : Registry) : Registry :=
  match ParseServiceNode b with Ok sn => AddRegistration sn r | _ => r end.
Definition recv_ping (now : Z) (b : bytes) (r : Registry) : Registry :=
  match ParseServiceNodePing b with Ok sn => snd (AddPing now sn (Some b) r) | _ => r end.

(** The registries of a process whose clock reads [t]. *)
Inductive reached : Z -> Registry -> Prop :=
| reached_new : reached 0 NewRegistry
| reached_registration t t' b r : reached t r -> t <= t' -> reached t' (recv_registration b r)
| reached_ping t t' b r : reached t r -> t <= t' -> reached t' (recv_ping t' b r).

(** The accepted ping of [k]. *)
Definition last_ping (r : Registry) (k : bytes) (sn : ServiceNode) : Prop := exists b,
  rg_raw r !! k = Some b /\ ParseServiceNodePing b = Ok sn /\ sn_PubKey sn = k /\ rg_pings r !! k = Some (sn_PingTime sn).

(** An entry is a registration that waits for a ping, or comes from the last ping. *)
Definition entry_ok (t : Z) (r : Registry) (k : bytes) (e : entry) : Prop :=
  (en_services e = [] /\ en_pingTime e = 0) \/
  exists sn, last_ping r k sn /\ en_services e = sn_Services sn /\ en_xbridgeVersion e = sn_XBridgeVersion sn /\
    en_paymentAddress e = sn_PaymentAddress sn /\ en_pingTime e <= t.

Definition registry_ok (t : Z) (r : Registry) : Prop :=
  0 <= t /\
  (forall k e, rg_nodes r !! k = Some e -> entry_ok t r k e) /\
  (forall k b, rg_raw r !! k = Some b -> exists sn, last_ping r k sn) /\
  (forall k, is_Some (rg_pings r !! k) <-> is_Some (rg_raw r !! k)) /\
  (forall k, is_Some (rg_pings r !! k) -> is_Some (rg_nodes r !! k)).

Lemma clampPingTime_le reported now : 0 <= now -> clampPingTime reported now <= now.
Proof.
  intros H. unfold clampPingTime. destruct (Z.eqb_spec reported 0), (Z.ltb_spec now reported); cbn; try lia;
    unfold wrap; apply Z.mod_le; lia.
Qed.

Lemma last_ping_ext r r' k sn :
  rg_raw r' !! k = rg_raw r !! k -> rg_pings r' !! k = rg_pings r !! k -> last_ping r k sn -> last_ping r' k sn.
Proof. unfold last_ping. intros -> -> H. exact H. Qed.

Lemma entry_ok_mono t t' r r' k e :
  t <= t' -> rg_raw r' !! k = rg_raw r !! k -> rg_pings r' !! k = rg_pings r !! k -> entry_ok t r k e -> entry_ok t' r' k e.
Proof.
  intros Ht H1 H2 [?|(sn & Hl & ? & ? & ? & ?)]; [by left|right]. exists sn.
  split_and!; try done; [by apply (last_ping_ext r)|lia].
Qed.

Lemma registry_ok_registration t t' b r : registry_ok t r -> t <= t' -> registry_ok t' (recv_registration b r).
Proof.
  intros (Ht & Hn & Hr & Hd & Hs) Htt. unfold recv_registration.
  assert (registry_ok t' r) as Hok.
  { split_and!; try done; [lia|]. intros k e H. apply (entry_ok_mono t t' r); auto. }
  destruct (ParseServiceNode b) as [sn| |] eqn:E; [|done..]. unfold AddRegistration.
  destruct (registrationValid sn); [|done]. cbn [negb].
  assert (sn_Services sn = []) as Hsv.
  { unfold ParseServiceNode in E. apply res_fmap_ok in E as ([s p] & E & ->). pose proof (zlen_nonneg b).
    apply (c_inv _ _ _ inner_codec) in E as ([_ <-] & _); [done|lia]. }
  split_and!; cbn; [lia| |done|done|].
  - intros k e. destruct (decide (k = sn_PubKey sn)) as [->|Hne].
    + rewrite lookup_insert_eq. intros [= <-]. left. by rewrite Hsv.
    + rewrite lookup_insert_ne by done. intros H%Hn. apply (entry_ok_mono t t' r); auto.
  - intros k Hk. destruct (decide (k = sn_PubKey sn)) as [->|Hne]; [by rewrite lookup_insert_eq|].
    rewrite lookup_insert_ne by done. by apply Hs.
Qed.

Lemma registry_ok_ping t t' b r : registry_ok t r -> t <= t' -> registry_ok t' (recv_ping t' b r).
Proof.
  intros (Ht & Hn & Hr & Hd & Hs) Htt. unfold recv_ping.
  assert (registry_ok t' r) as Hok.
  { split_and!; try done; [lia|]. intros k e H. apply (entry_ok_mono t t' r); auto. }
  destruct (ParseServiceNodePing b) as [sn| |] eqn:E; [|done..]. unfold AddPing.
  match goal with |- context [if ?c then _ else _] => destruct c; [|done] end. cbn [snd].
  set (r' := set _ _ _). assert (last_ping r' (sn_PubKey sn) sn) as Hl.
  { exists b. unfold r'; cbn. by rewrite !lookup_insert_eq. }
  assert (forall k, k <> sn_PubKey sn -> rg_raw r' !! k = rg_raw r !! k /\ rg_pings r' !! k = rg_pings r !! k) as Ho.
  { intros k Hk. unfold r'; cbn. by rewrite !lookup_insert_ne by done. }
  split_and!; [lia|..]; intros k; (destruct (decide (k = sn_PubKey sn)) as [->|Hne]; [|destruct (Ho k Hne) as [H1 H2]; rewrite ?H1, ?H2]).
  - intros e. unfold r' at 1; cbn. rewrite lookup_insert_eq. intros [= <-]. right. exists sn. cbn.
    split_and!; try done. apply clampPingTime_le. lia.
  - intros e. unfold r' at 1; cbn. rewrite lookup_insert_ne by done. intros H%Hn. by apply (entry_ok_mono t t' r).
  - intros b' _. by exists sn.
  - intros b' Hb. destruct (Hr k b' Hb) as [sn' Hl']. exists sn'. by apply (last_ping_ext r).
  - unfold r'; cbn. by rewrite !lookup_insert_eq.
  - apply Hd.
  - intros _. unfold r'; cbn. by rewrite lookup_insert_eq.
  - intros H. unfold r'; cbn. rewrite lookup_insert_ne by done. by apply Hs.
Qed.

Lemma reached_ok t r : reached t r -> registry_ok t r.
Proof.
  induction 1; [|by eapply registry_ok_registration|by eapply registry_ok_ping].
  split_and!; [done|..]; intros k; cbn; rewrite !lookup_empty; by split || (intros; done) || (intros []; done).
Qed.

End Messages.

(** ** The choice of a hub *)

Lemma swap_at_perm {A} i j (l : list A) : swap_at i j l ≡ₚ l.
Proof.
  unfold swap_at. destruct (l !! i) as [a|] eqn:Hi; [|done]. destruct (l !! j) as [b|] eqn:Hj; [|done].
  by apply Permutation_insert_swap.
Qed.

Lemma Shuffle_perm {A} draws i (l : list A) : Shuffle draws i l ≡ₚ l.
Proof. revert l; induction i as [|i IH]; intros l; cbn; [done|]. by rewrite IH, swap_at_perm. Qed.

Section Properties.
Context {secp : Secp}.

Lemma containsAll_spec set need : containsAll set need = true <-> forall t, t ∈ need -> t ∈ set.
Proof.
  unfold containsAll. rewrite forallb_forall. split; intros H t Ht.
  - rewrite list_elem_of_In in Ht. apply H, existsb_exists in Ht as (x & Hx & E%bool_decide_eq_true_1). subst. by apply list_elem_of_In.
  - apply existsb_exists. exists t. rewrite <- list_elem_of_In. split; [apply H; by apply list_elem_of_In|by apply bool_decide_eq_true_2].
Qed.

(** [Pick] takes one of the eligible entries, whatever is drawn. *)
Lemma Pick_eligible ver now order draws need exclude :
  match Pick ver now order draws need exclude with
  | Some k => exists e, (k, e) ∈ order /\ eligible ver now need exclude (k, e) = true
  | None => Forall (fun ke => eligible ver now need exclude ke = false) order
  end.
Proof.
  unfold Pick. set (l := List.filter _ order). destruct (Z.eqb_spec (zlen (map fst l)) 0) as [H0|H0].
  - apply Forall_forall. intros ke Hke. destruct (eligible ver now need exclude ke) eqn:E; [|done].
    assert (ke ∈ l) as Hin by (apply list_elem_of_In, filter_In; by rewrite <- list_elem_of_In).
    destruct l; [by apply not_elem_of_nil in Hin|]. by unfold zlen in H0.
  - pose proof (Shuffle_perm draws (length (map fst l) - 1) (map fst l)) as Hp.
    destruct (Shuffle _ _ _) as [|k tl]; [apply Permutation_length in Hp; unfold zlen in H0; cbn in Hp; lia|]. cbn.
    assert (k ∈ map fst l) as Hk by (rewrite <- Hp; set_solver). apply list_elem_of_In, in_map_iff in Hk as ([k' e] & <- & Hk).
    apply filter_In in Hk as [Hk He]. exists e. split; [by apply list_elem_of_In|done].
Qed.

(** C33. A hub picked for an order, from any registry the daemon can have reached
    through the network and whatever the random draws: it is not excluded, and
    the last ping the registry accepted from it was signed by its own key and
    advertised the current protocol version and every token asked for, less
    than five minutes ago.  Nothing is picked only when no entry qualifies. *)
Theorem Pick_sound (ver now : Z) (r : Registry) (order : list (bytes * entry)) (draws : nat -> nat) (need exclude : list bytes) :
  reached now r -> order ≡ₚ map_to_list (rg_nodes r) ->
  match Pick ver now order draws need exclude with
  | Some k =>
      k ∉ exclude /\ need <> [] /\
      exists b sn e, ping_signed b k /\ ParseServiceNodePing b = Ok sn /\ sn_PubKey sn = k /\ registrationValid sn = true /\
        sn_XBridgeVersion sn = ver /\ (forall t, t ∈ need -> t ∈ sn_Services sn) /\
        rg_pings r !! k = Some (sn_PingTime sn) /\ rg_nodes r !! k = Some e /\ en_pingTime e <= now < en_pingTime e + 300
  | None => forall k e, rg_nodes r !! k = Some e -> eligible ver now need exclude (k, e) = false
  end.
Proof.
  intros Hr Ho. destruct (reached_ok now r Hr) as (_ & Hn & _). pose proof (Pick_eligible ver now order draws need exclude) as H.
  destruct (Pick ver now order draws need exclude) as [k|].
  - destruct H as (e & Hin & He). rewrite Ho in Hin. apply elem_of_map_to_list in Hin. unfold eligible in He.
    case_bool_decide as Hex; [done|]. destruct (Z.eqb_spec (en_xbridgeVersion e) ver) as [Hver|]; [|done].
    destruct (running now e) eqn:Erun; [|done]. cbn [negb orb] in He. destruct (Z.eqb_spec (zlen need) 0) as [|Hnz]; [done|].
    destruct (containsAll (en_services e) need) eqn:Ec; [|done]. unfold running, runningWindow in Erun. zbool.
    split; [done|]. split; [by intros ->|]. pose proof (proj1 (containsAll_spec _ _) Ec) as Hc.
    destruct (Hn k e Hin) as [[Hsv _]|(sn & (b & Hb & Hp & Hk & Hpt) & Hsv & Hv & _ & Ht)].
    + destruct need as [|t need]; [done|]. specialize (Hc t ltac:(set_solver)). rewrite Hsv in Hc. set_solver.
    + destruct (ping_inv b sn Hp) as (Hsig & _ & Hrv & _). rewrite Hk in Hsig. rewrite Hsv in Hc. exists b, sn, e.
      split_and!; try done; [congruence|lia].
  - intros k e Hke. rewrite Forall_forall in H. apply H. rewrite Ho. by apply elem_of_map_to_list.
Qed.

(** C36. A registration parses exactly when the payload starts with the bytes its
    signature commits to, followed by the signature: the parser loses no field
    and accepts no second encoding; it never reads outside the payload. *)
Theorem ParseServiceNode_exact (b : bytes) (sn : ServiceNode) :
  no_panic (ParseServiceNode b) /\
  (ParseServiceNode b = Ok sn <->
   registration_wf sn /\ registration_only sn = sn /\ exists rest, b = registration_bytes sn ++ rest).
Proof.
  pose proof (zlen_nonneg b). unfold ParseServiceNode. split; [apply no_panic_fmap, (c_safe _ _ _ inner_codec); lia|]. split.
  - intros H0. apply res_fmap_ok in H0 as ([s p] & E & ->).
    apply (c_inv _ _ _ inner_codec) in E as ([Hwf Ho] & pre & post & Hb & Hpre & _); [|lia]. cbn [fst].
    split_and!; [done|done|]. exists post. destruct pre; [done|]. unfold zlen in Hpre. cbn in Hpre. lia.
  - intros (Hwf & Ho & rest & ->).
    pose proof (c_reads _ _ _ inner_codec sn [] rest (conj Hwf Ho)) as E. cbn [app] in E.
    change (zlen (@nil byte)) with 0 in E. by rewrite E.
Qed.

(** A ping is stored once: whatever was accepted before from the key was
    older, and nothing at or below its time is accepted after it, however much
    later it comes. *)
Lemma AddPing_fresh (now : Z) (sn : ServiceNode) (raw : option bytes) (r r' : Registry) :
  AddPing now sn raw r = (true, r') ->
  rg_pings r' !! sn_PubKey sn = Some (sn_PingTime sn) /\
  (forall u, rg_pings r !! sn_PubKey sn = Some u -> u < sn_PingTime sn) /\
  (forall now' sn' raw', sn_PubKey sn' = sn_PubKey sn -> sn_PingTime sn' <= sn_PingTime sn -> AddPing now' sn' raw' r' = (false, r')).
Proof.
  unfold AddPing at 1. intros H.
  match type of H with (if ?c then _ else _) = _ => destruct c eqn:Ec; [|done] end. injection H as <-.
  match goal with |- context [rg_pings ?x] => set (r' := x) end.
  assert (rg_pings r' !! sn_PubKey sn = Some (sn_PingTime sn)) as Hr by (unfold r'; cbn; by rewrite lookup_insert_eq).
  split_and!; [done|intros u Hu; rewrite Hu in Ec; by zbool|].
  intros now' sn' raw' Hk Hle. unfold AddPing. rewrite Hk, Hr. rewrite (proj2 (Z.ltb_ge (sn_PingTime sn) (sn_PingTime sn'))) by done. by rewrite andb_false_r.
Qed.

End Properties.

(** ** What a node sends *)

Lemma reads_at {A} (rd : read A) ok enc v b pre post :
  codec rd ok enc -> ok v -> b = pre ++ enc v ++ post -> rd b (zlen pre) = Ok (v, zlen (pre ++ enc v)).
Proof. intros C Hv ->. rewrite (c_reads _ _ _ C) by done. by rewrite zlen_app. Qed.

Lemma readVarStr_at s b pre post :
  zlen s < 2 ^ 62 -> b = pre ++ marshalVarStr s ++ post -> readVarStr b (zlen pre) = Ok (s, zlen (pre ++ marshalVarStr s)).
Proof.
  intros Hs ->. unfold readVarStr. rewrite slice_post by done. cbn [mbind res_bind].
  rewrite unmarshalVarStr_app by done. cbn. by rewrite zlen_app.
Qed.

Section Sender.
Context `{laws : SecpLaws}.

Definition pub_of (priv : bytes) : bytes := SerializeCompressed (PubKeyOf (PrivKeyFromBytes priv)).

(** The part of a ping its node signs, and the ping. *)
Definition ping_preimage (sn : ServiceNode) (time : Z) (config : bytes) : bytes :=
  marshalVarStr (sn_PubKey sn) ++ le_split 4 (wrap 32 (sn_BestBlock sn)) ++ sn_BestBlockHash sn ++ le_split 4 time ++
  marshalVarStr config ++ registration_bytes sn.
Definition ping_bytes (priv : bytes) (sn : ServiceNode) (time : Z) (config : bytes) : bytes :=
  let p := ping_preimage sn time config in p ++ marshalVarStr (ecdsa_SignCompact (PrivKeyFromBytes priv) (DoubleSHA256 p)).

(** A ping signed by its node, around a valid registration, is accepted with
    its config, services, version and time. *)
Lemma ping_accepted (priv : bytes) (sn : ServiceNode) (time : Z) (config : bytes) :
  valid_priv priv -> sn_PubKey sn = pub_of priv -> registration_wf sn -> registration_only sn = sn ->
  registrationValid sn = true -> u32_ok time -> zlen config < 2 ^ 62 ->
  ParseServiceNodePing (ping_bytes priv sn time config) =
  Ok (sn <| sn_Config := config |> <| sn_Services := fst (parseConfig config (sn_Tier sn)) |>
         <| sn_XBridgeVersion := snd (parseConfig config (sn_Tier sn)) |> <| sn_PingTime := time |>).
Proof.
  intros Hv Hpk Hwf Ho Hrv Ht Hc. pose proof Hwf as (Hk & _ & _ & _ & Hbest & Hhash & _).
  set (b := ping_bytes priv sn time config). set (sig := ecdsa_SignCompact (PrivKeyFromBytes priv) (DoubleSHA256 (ping_preimage sn time config))).
  set (s1 := marshalVarStr (sn_PubKey sn)). set (s2 := le_split 4 (wrap 32 (sn_BestBlock sn))). set (s3 := sn_BestBlockHash sn).
  set (s4 := le_split 4 time). set (s5 := marshalVarStr config). set (s6 := registration_bytes sn). set (s7 := marshalVarStr sig).
  assert (b = s1 ++ s2 ++ s3 ++ s4 ++ s5 ++ s6 ++ s7) as Hb
    by (unfold b, ping_bytes, ping_preimage; by rewrite <- !app_assoc).
  assert (ping_preimage sn time config = s1 ++ s2 ++ s3 ++ s4 ++ s5 ++ s6) as Hpre by done.
  assert (zlen sig = 65) as Hsig by apply SignCompact_length.
  assert (zlen sig <= maxCompactSize) as Hsigle by (rewrite Hsig; by vm_compute).
  pose proof (reads_at _ _ _ (sn_PubKey sn) b [] (s2 ++ s3 ++ s4 ++ s5 ++ s6 ++ s7) cpubkey_codec Hk Hb) as E1.
  pose proof (reads_at _ _ _ (wrap 32 (sn_BestBlock sn)) b s1 (s3 ++ s4 ++ s5 ++ s6 ++ s7) uint32_codec ltac:(by apply wrap_ok)
    ltac:(by rewrite Hb)) as E2.
  pose proof (reads_at _ _ _ (sn_BestBlockHash sn) b (s1 ++ s2) (s4 ++ s5 ++ s6 ++ s7) (fixed_codec 32 "uint256" ltac:(lia)) Hhash
    ltac:(by rewrite Hb, <- !app_assoc)) as E3.
  pose proof (reads_at _ _ _ time b (s1 ++ s2 ++ s3) (s5 ++ s6 ++ s7) uint32_codec Ht ltac:(by rewrite Hb, <- !app_assoc)) as E4.
  pose proof (readVarStr_at config b (s1 ++ s2 ++ s3 ++ s4) (s6 ++ s7) Hc ltac:(by rewrite Hb, <- !app_assoc)) as E5.
  pose proof (reads_at _ _ _ sn b (s1 ++ s2 ++ s3 ++ s4 ++ s5) s7 inner_codec (conj Hwf Ho) ltac:(by rewrite Hb, <- !app_assoc)) as E6.
  pose proof (reads_at _ _ _ sig b (s1 ++ s2 ++ s3 ++ s4 ++ s5 ++ s6) [] varbytes_codec
    Hsigle ltac:(by rewrite Hb, <- !app_assoc, app_nil_r)) as E7.
  fold s1 in E1. fold s2 in E2. unfold id in E3. fold s3 in E3. fold s4 in E4. fold s5 in E5. fold s6 in E6. fold s7 in E7.
  rewrite <- ?app_assoc in E2.
  rewrite <- ?app_assoc in E3.
  rewrite <- ?app_assoc in E4.
  rewrite <- ?app_assoc in E5.
  rewrite <- ?app_assoc in E6.
  rewrite <- ?app_assoc in E7. cbn [app] in E1. change (zlen (@nil byte)) with 0 in E1.
  unfold ParseServiceNodePing, readUint256.
  rewrite E1. cbn [mbind res_bind]. rewrite E2. cbn [mbind res_bind]. rewrite E3. cbn [mbind res_bind].
  rewrite E4. cbn [mbind res_bind]. rewrite E5. cbn [mbind res_bind]. rewrite E6. cbn [mbind res_bind].
  unfold fullyValidCPubKey, FullyValidPubKey. rewrite Hpk at 1. unfold pub_of. rewrite ParsePubKey_Serialize by done. cbn [is_ok negb orb].
  rewrite bool_decide_true by done. cbn [negb]. destruct (parseConfig config (sn_Tier sn)) as [services ver]. cbn [fst snd].
  rewrite E7. cbn [mbind res_bind].
  assert (slice b 0 (zlen (s1 ++ s2 ++ s3 ++ s4 ++ s5 ++ s6)) = Ok (ping_preimage sn time config)) as ->.
  { rewrite Hpre, Hb. rewrite !app_assoc. by rewrite slice_pre. }
  cbn [mbind res_bind]. unfold RecoverCompact, sig. rewrite Secp.RecoverCompact_Sign by (done || apply DoubleSHA256_zlen).
  cbn [mbind res_bind]. rewrite bool_decide_true by (by rewrite Hpk). cbn [negb].
  rewrite <- registrationValid_only. change (registration_only _) with (registration_only sn). rewrite registrationValid_only, Hrv. done.
Qed.

(** A registration of the node [k] that pays to [a], signed with any key. *)
Definition forged_registration (priv k a : bytes) : ServiceNode :=
  let sn := mkServiceNode k TierSPV [] [] 0 0 a [mkCollateral (repeat x00 32) 0] 0 (repeat x00 32) [] in
  sn <| sn_Signature := ecdsa_SignCompact (PrivKeyFromBytes priv) (sig_hash sn) |>.

Lemma forged_valid priv k a :
  valid_priv priv -> zlen k = 33 -> FullyValidPubKey k = true -> zlen a = 20 -> a <> repeat x00 20 ->
  registrationValid (forged_registration priv k a) = true /\ registration_wf (forged_registration priv k a).
Proof.
  intros Hv Hk Hf Ha Hz. split.
  - set (sn := forged_registration priv k a). unfold registrationValid, fullyValidCPubKey.
    change (sn_Tier sn) with TierSPV. change (sn_PubKey sn) with k. change (sn_PaymentAddress sn) with a.
    change (sn_Collateral sn) with [mkCollateral (repeat x00 32) 0]. rewrite Hf, bool_decide_false by done.
    unfold verifyRegistrationSignature, sn. change (sig_hash (forged_registration priv k a))
      with (sig_hash (mkServiceNode k TierSPV [] [] 0 0 a [mkCollateral (repeat x00 32) 0] 0 (repeat x00 32) [])).
    change (sn_Signature (forged_registration priv k a)) with (ecdsa_SignCompact (PrivKeyFromBytes priv)
      (sig_hash (mkServiceNode k TierSPV [] [] 0 0 a [mkCollateral (repeat x00 32) 0] 0 (repeat x00 32) []))).
    rewrite SignCompact_length. unfold RecoverCompact.
    by rewrite Secp.RecoverCompact_Sign by (done || apply DoubleSHA256_zlen).
  - unfold registration_wf. cbn -[sig_hash]. split_and!; try done; [by repeat constructor|]. by rewrite SignCompact_length.
Qed.

(** Whoever holds some key replaces the fee address of any known service node:
    the registry checks that the signature of a registration recovers to a key,
    not to which.  The message parses, and the address a taker will pay the
    service fee to is the sender's choice. *)
Theorem registration_replaces_fee_address (priv k a : bytes) (r : Registry) :
  valid_priv priv -> FullyValidPubKey k = true -> zlen k = 33 -> zlen a = 20 -> a <> repeat x00 20 ->
  exists b, PaymentAddress (recv_registration b r) k = Some a /\ Known (recv_registration b r) k = true.
Proof.
  intros Hv Hf Hk Ha Hz. destruct (forged_valid priv k a Hv Hk Hf Ha Hz) as [Hrv Hwf].
  set (sn := forged_registration priv k a) in *. exists (registration_bytes sn).
  pose proof (c_reads _ _ _ inner_codec sn [] [] (conj Hwf eq_refl)) as E. cbn [app] in E. rewrite app_nil_r in E.
  change (zlen (@nil byte)) with 0 in E.
  unfold recv_registration, ParseServiceNode. rewrite E. cbn [fmap res_fmap fst]. unfold AddRegistration. rewrite Hrv. cbn [negb].
  unfold PaymentAddress, Known. cbn -[sn]. rewrite lookup_insert_eq. split; [done|]. by apply bool_decide_eq_true_2.
Qed.

End Sender.

(** The config length of a ping from an unauthenticated peer crashes its parser. *)
Lemma ping_crash `{Secp} (pk fixed t : bytes) (n : Z) :
  zlen pk = 33 -> zlen fixed = 40 -> 2 ^ 63 - 9 <= n < 2 ^ 64 ->
  ParseServiceNodePing (marshalVarStr pk ++ fixed ++ xff :: le_split 8 n ++ t) = Panic.
Proof.
  intros Hk Hf Hn. set (tl := xff :: le_split 8 n ++ t).
  assert (exists f1 f2 f3, fixed = f1 ++ f2 ++ f3 /\ zlen f1 = 4 /\ zlen f2 = 32 /\ zlen f3 = 4) as (f1 & f2 & f3 & -> & H1 & H2 & H3).
  { exists (take 4 fixed), (take 32 (drop 4 fixed)), (drop 32 (drop 4 fixed)). rewrite !take_drop.
    unfold zlen in *. rewrite !length_drop, !length_take, ?length_drop. split_and!; [done|lia..]. }
  set (b := _ ++ _).
  pose proof (reads_at _ _ _ pk b [] ((f1 ++ f2 ++ f3) ++ tl) cpubkey_codec Hk eq_refl) as E1.
  assert (forall f, zlen f = 4 -> exists v, u32_ok v /\ le_split 4 v = f) as H4.
  { intros f Hl. exists (le_combine f). split; [pose proof (le_combine_ok f) as Hok; by rewrite Hl in Hok|].
    apply split_le_combine'. unfold zlen in Hl. lia. }
  destruct (H4 f1 H1) as (v1 & Hv1 & He1), (H4 f3 H3) as (v3 & Hv3 & He3).
  pose proof (reads_at _ _ _ v1 b (marshalVarStr pk) (f2 ++ f3 ++ tl) uint32_codec Hv1
    ltac:(unfold b; by rewrite He1, <- !app_assoc)) as E2.
  pose proof (reads_at _ _ _ f2 b (marshalVarStr pk ++ f1) (f3 ++ tl) (fixed_codec 32 "uint256" ltac:(lia)) H2
    ltac:(unfold b; by rewrite <- !app_assoc)) as E3.
  pose proof (reads_at _ _ _ v3 b (marshalVarStr pk ++ f1 ++ f2) tl uint32_codec Hv3
    ltac:(unfold b; by rewrite He3, <- !app_assoc)) as E4.
  rewrite He1 in E2. unfold id in E3. rewrite He3 in E4. rewrite <- ?app_assoc in E3.
  rewrite <- ?app_assoc in E4. cbn [app] in E1.
  change (zlen (@nil byte)) with 0 in E1.
  unfold ParseServiceNodePing, readUint256.
  rewrite E1. cbn [mbind res_bind]. rewrite E2. cbn [mbind res_bind]. rewrite E3. cbn [mbind res_bind].
  rewrite E4. cbn [mbind res_bind]. unfold readVarStr.
  assert (slice b (zlen (marshalVarStr pk ++ f1 ++ f2 ++ f3)) (zlen b) = Ok tl) as ->.
  { replace b with ((marshalVarStr pk ++ f1 ++ f2 ++ f3) ++ tl) by (unfold b; by rewrite <- !app_assoc). by apply slice_post. }
  cbn [mbind res_bind]. unfold tl. by rewrite varstr_hostile.
Qed.

(** ** A concrete registry *)

Definition sample_hub : ServiceNode := forged_registration sample_priv (pub_of sample_priv) (repeat x05 20).
Definition sample_config : bytes := json_text "{'xbridgeversion':49,'xrouterversion':50,'xbridge':['BLOCK','LTC']}".
Definition sample_ping : bytes := ping_bytes sample_priv sample_hub 900 sample_config.
Definition sample_registry : Registry := recv_ping 1000 sample_ping NewRegistry.

Lemma sample_registry_reached : reached 1000 sample_registry.
Proof. apply (reached_ping 0 1000); [constructor|lia]. Qed.

Lemma Pick_sound_witness :
  let need := [bytes_of "LTC"; bytes_of "BLOCK"] in let order := map_to_list (rg_nodes sample_registry) in
  Pick 49 1000 order id need [] = Some (pub_of sample_priv) /\
  match Pick 49 1000 order id need [] with
  | Some k => k ∉ [] /\ need <> [] /\
      exists b sn e, ping_signed b k /\ ParseServiceNodePing b = Ok sn /\ sn_PubKey sn = k /\ registrationValid sn = true /\
        sn_XBridgeVersion sn = 49 /\ (forall t, t ∈ need -> t ∈ sn_Services sn) /\
        rg_pings sample_registry !! k = Some (sn_PingTime sn) /\ rg_nodes sample_registry !! k = Some e /\
        en_pingTime e <= 1000 < en_pingTime e + 300
  | None => forall k e, rg_nodes sample_registry !! k = Some e -> eligible 49 1000 need [] (k, e) = false
  end.
Proof.
  split; [by vm_compute|]. apply (Pick_sound 49 1000 sample_registry); [exact sample_registry_reached|reflexivity].
Defined.

Lemma registration_replaces_fee_address_witness :
  PaymentAddress sample_registry (pub_of sample_priv) = Some (repeat x05 20) /\
  exists b, PaymentAddress (recv_registration b sample_registry) (pub_of sample_priv) = Some (repeat x09 20) /\
            Known (recv_registration b sample_registry) (pub_of sample_priv) = true.
Proof.
  split; [by vm_compute|].
  apply (registration_replaces_fee_address sample_priv (pub_of sample_priv) (repeat x09 20)); [exact sample_priv_valid|by vm_compute..|done].
Defined.
