(* ===== verification/Discovery.v ===== *)
(** * Peer discovery (p2p/discovery/addrman.go, peer_manager.go)

    The address manager, and the peer manager as a state: the pool of
    connections ([None] is a reserved slot, a dial in flight), the dial and ban
    records and the packet channel.  A method that runs under the mutex is one
    function; the goroutines are the functions that run between two blocking
    calls ([connectOne_begin]/[connectOne_end] around the dial, [on_message] and
    [readLoop_exit] around the reads), and [maintain_tick] is one turn of the
    maintenance loop.  Random choices and map orders are arguments; the seeds
    come from the DNS and are one too.  Times are nanoseconds. *)

From S2P Require Import Prelude Sha256 Digits GoLib Sort Hex Codec Bodies Packet Wire Peer Secp Registry RegistryLaws.

(** ** net.IP and net.JoinHostPort *)

Fixpoint join (sep : bytes) (l : list bytes) : bytes :=
  match l with
  | [] => []
  | [s] => s
  | s :: l => s ++ sep ++ join sep l
  end.

(** A number in base 16, without leading zeros. *)
Definition hex_string (v : Z) : bytes := if v =? 0 then [x30] else hex_char <$> to_digits 16 v.

Fixpoint groups (b : bytes) : list Z :=
  match b with
  | hi :: lo :: b => (byte.unsigned hi * 256 + byte.unsigned lo) :: groups b
  | _ => []
  end.

Fixpoint zeros_run (l : list Z) : nat :=
  match l with v :: l => if v =? 0 then S (zeros_run l) else O | [] => O end.

(** The first of the longest runs of zero groups: its start and its length. *)
Fixpoint longest_run (i : nat) (l : list Z) (best : nat * nat) : nat * nat :=
  match l with
  | [] => best
  | _ :: l' => longest_run (S i) l' (let n := zeros_run l in if (snd best <? n)%nat then (i, n) else best)
  end.

Definition ipv6_string (b : bytes) : bytes :=
  let g := groups b in
  let '(start, n) := longest_run 0 g (O, 1%nat) in
  let text l := join [x3a] (map hex_string l) in
  if (2 <=? n)%nat then text (take start g) ++ [x3a; x3a] ++ text (drop (start + n) g) else text g.

(** [ip.String()] of a 4- or 16-byte address. *)
Definition ip_string (ip : bytes) : bytes :=
  match IP_To4 ip with
  | Some ip4 => join [x2e] (map (fun b => dec_string (byte.unsigned b)) ip4)
  | None => if zlen ip =? 16 then ipv6_string ip else x3f :: EncodeToString ip
  end.

Definition JoinHostPort (host port : bytes) : bytes :=
  if bool_decide (x3a ∈ host) then [x5b] ++ host ++ [x5d; x3a] ++ port else host ++ [x3a] ++ port.

Definition itoa (u : Z) : bytes := dec_string u.

(** ** AddrMan *)

Record addrEntry := mkAddr {
  ae_ip : bytes;
  ae_port : Z;
  ae_services : Z;
  ae_seen : Z;
  ae_lastTry : option Z;
}.
#[export] Instance eta_addrEntry : Eta addrEntry := fun e => mkAddr (ae_ip e) (ae_port e) (ae_services e) (ae_seen e) (ae_lastTry e).

Abbreviation AddrMan := (gmap bytes addrEntry).

Definition key (ip : bytes) (port : Z) : bytes := JoinHostPort (ip_string ip) (itoa port).

(** The [ip] is not nil: both callers parsed one. *)
Definition AddrMan_Add (now : Z) (ip : bytes) (port services : Z) (a : AddrMan) : AddrMan :=
  if port =? 0 then a
  else let k := key ip port in
       match a !! k with
       | Some e => <[k := e <| ae_seen := now |> <| ae_services := services |>]> a
       | None => <[k := mkAddr ip port services now None]> a
       end.

Definition AddSlice (now : Z) (entries : list AddrEntry) (a : AddrMan) : AddrMan :=
  fold_left (fun a e => AddrMan_Add now (a_IP e) (a_Port e) (a_Services e) a) entries a.

Definition MarkTried (now : Z) (addr : bytes) (a : AddrMan) : AddrMan := alter (set ae_lastTry (fun _ => Some now)) addr a.

(** A zero [lastTry] is longer ago than any cooldown. *)
Definition NeedsTry (now : Z) (addr : bytes) (cooldown : Z) (a : AddrMan) : bool :=
  match a !! addr with
  | None => true
  | Some e => match ae_lastTry e with None => true | Some t => cooldown <? now - t end
  end.

Definition AddrMan_Count (a : AddrMan) : Z := Z.of_nat (size a).

Definition AddrMan_All (order : list (bytes * addrEntry)) : list AddrEntry :=
  map (fun ke => let e := ke.2 in mkAddrEntry (wrap 32 (ae_seen e / 10 ^ 9)) (ae_services e) (ae_ip e) (ae_port e)) order.

Definition Random (order : list (bytes * addrEntry)) (draws : nat -> nat) (n : nat) : list AddrEntry :=
  let all := AddrMan_All order in take n (Shuffle draws (length all - 1) all).

Definition Prune (now olderThan : Z) (a : AddrMan) : AddrMan :=
  filter (fun ke => ~ ae_seen ke.2 < now - olderThan) a.

(** ** PeerManager *)

Record Options := mkOptions {
  op_ExplicitAddrs : list bytes;
  op_SeedOverride : list bytes;
  op_TargetPeers : Z;
  op_DialCooldown : Z;
  op_BanThreshold : Z;
  op_BanDuration : Z;
}.

Record PeerManager := mkPM {
  pm_target : Z;
  pm_explicit : list bytes;
  pm_dialCooldown : Z;
  pm_banThreshold : Z;
  pm_banDuration : Z;
  pm_seeds : list bytes;
  pm_addrMan : AddrMan;
  pm_xbridgeCh : list (bytes * Packet);
  pm_done : bool;
  pm_peers : gmap bytes (option Z);
  pm_rr : Z;
  pm_explicitTried : gmap bytes Z;
  pm_snReg : Registry;
  pm_misbehavior : gmap bytes Z;
  pm_banned : gmap bytes Z;
  pm_closed : gset Z;
}.
#[export] Instance eta_PeerManager : Eta PeerManager := fun m =>
  mkPM (pm_target m) (pm_explicit m) (pm_dialCooldown m) (pm_banThreshold m) (pm_banDuration m) (pm_seeds m) (pm_addrMan m)
    (pm_xbridgeCh m) (pm_done m) (pm_peers m) (pm_rr m) (pm_explicitTried m) (pm_snReg m) (pm_misbehavior m) (pm_banned m)
    (pm_closed m).

Definition positive (v dflt : Z) : Z := if v <=? 0 then dflt else v.

(** [seeds] is what [bootstrapAddrs(network)] answers. *)
Definition PeerManager_New (seeds : list bytes) (o : Options) : PeerManager :=
  mkPM (positive (op_TargetPeers o) 8) (op_ExplicitAddrs o ++ op_SeedOverride o) (positive (op_DialCooldown o) (120 * 10 ^ 9))
    (positive (op_BanThreshold o) 100) (positive (op_BanDuration o) (24 * 3600 * 10 ^ 9)) seeds
    ∅ [] false ∅ 0 ∅ NewRegistry ∅ ∅ ∅.

Definition explicitSet (m : PeerManager) (a : bytes) : bool := bool_decide (a ∈ pm_explicit m).

(** The digits are added up in a [uint16]. *)
Definition parsePort (s : bytes) : option Z :=
  if forallb is_digit s then Some (fold_left (fun p r => wrap 16 (p * 10 + digit_val r)) s 0) else None.

(** [split] and [parse] are [net.SplitHostPort] and [net.ParseIP]. *)
Definition seedAddrMan (split : bytes -> option (bytes * bytes)) (parse : bytes -> option bytes) (now : Z) (m : PeerManager) : PeerManager :=
  fold_left (fun m a =>
    match '(host, portStr) ← split a; ip ← parse host; port ← parsePort portStr; Some (ip, port) with
    | Some (ip, port) => m <| pm_addrMan ::= AddrMan_Add now ip port 0 |>
    | None => m
    end) (pm_seeds m) m.

Definition pruneBans (now : Z) (m : PeerManager) : PeerManager :=
  m <| pm_banned ::= filter (fun ke => now < ke.2) |>.

Definition bannedLocked (now : Z) (m : PeerManager) (addr : bytes) : bool :=
  match pm_banned m !! addr with Some exp => now <? exp | None => false end.
Definition isBanned : Z -> PeerManager -> bytes -> bool := bannedLocked.

Definition live_conns (m : PeerManager) : list (bytes * Z) :=
  omap (fun ke => match ke.2 with Some c => Some (ke.1, c) | None => None end) (map_to_list (pm_peers m)).
Definition liveCount (m : PeerManager) : Z := zlen (live_conns m).
Definition Peers (m : PeerManager) : list bytes := map fst (live_conns m).
Definition AddrCount (m : PeerManager) : Z := AddrMan_Count (pm_addrMan m).

(** ** Dialing *)

Definition candidates (order : list (bytes * addrEntry)) (draws : nat -> nat) (m : PeerManager) : list bytes :=
  pm_explicit m ++ map (fun e => JoinHostPort (ip_string (a_IP e)) (itoa (a_Port e))) (Random order draws (size (pm_addrMan m))) ++ pm_seeds m.

(** The candidate is not in the pool, not banned and its cooldown is over. *)
Definition dialable (now : Z) (m : PeerManager) (c : bytes) : bool :=
  match pm_peers m !! c with
  | Some _ => false
  | None =>
      if bannedLocked now m c then false
      else if explicitSet m c then
        match pm_explicitTried m !! c with Some t => negb (now - t <? pm_dialCooldown m) | None => true end
      else NeedsTry now c (pm_dialCooldown m) (pm_addrMan m)
  end.

(** The positions are visited from [rr] on, round the list; [n] of them are left. *)
Fixpoint next_from (now : Z) (cands : list bytes) (n : nat) (i : Z) (m : PeerManager) : option (bytes * PeerManager) :=
  match n with
  | O => None
  | S n =>
      let idx := (pm_rr m + i) mod zlen cands in
      match cands !! Z.to_nat idx with
      | Some c => if dialable now m c then Some (c, m <| pm_rr := (idx + 1) mod zlen cands |>)
                  else next_from now cands n (i + 1) m
      | None => None
      end
  end.

Definition nextCandidate (now : Z) (cands : list bytes) (m : PeerManager) : bytes * PeerManager :=
  match next_from now cands (length cands) 0 m with
  | Some r => r
  | None => ([], m)
  end.

(** The loop of [connectUpTo]: the [i]-th call of [candidates] answers [cs i].
    The dials it starts run after it; the second result lists them. *)
Fixpoint connectUpTo (fuel : nat) (now : Z) (cs : nat -> list bytes) (want : Z) (m : PeerManager) : option (PeerManager * list bytes) :=
  match fuel with
  | O => None
  | S fuel =>
      if negb (liveCount m <? want) || pm_done m then Some (m, [])
      else
        let '(cand, m) := nextCandidate now (cs fuel) m in
        if bool_decide (cand = []) then Some (m, [])
        else '(m, dials) ← connectUpTo fuel now cs want (m <| pm_peers ::= <[cand := None]> |>);
             Some (m, cand :: dials)
  end.

Definition connectOne_begin (now : Z) (addr : bytes) (m : PeerManager) : PeerManager :=
  (if explicitSet m addr then m <| pm_explicitTried ::= <[addr := now]> |> else m)
    <| pm_addrMan ::= MarkTried now addr |>.

(** The dial's outcome; a new connection starts its read loop and asks for addresses. *)
Definition connectOne_end (addr : bytes) (conn : option Z) (m : PeerManager) : PeerManager :=
  match conn with
  | None => m <| pm_peers ::= delete addr |>
  | Some c => m <| pm_peers ::= <[addr := Some c]> |> <| pm_misbehavior ::= delete addr |> <| pm_banned ::= delete addr |>
  end.

(** One turn of the maintenance loop: its clock readings are one [now]. *)
Definition maintain_tick (split : bytes -> option (bytes * bytes)) (parse : bytes -> option bytes) (fuel : nat) (now : Z)
    (cs : nat -> list bytes) (m : PeerManager) : option (PeerManager * list bytes) :=
  '(m, dials) ← connectUpTo fuel now cs (pm_target m) m;
  Some (pruneBans now (seedAddrMan split parse now (m <| pm_addrMan ::= Prune now (1800 * 10 ^ 9) |>)), dials).

(** ** Messages *)

Definition misbehave (now : Z) (addr : bytes) (score : Z) (m : PeerManager) : PeerManager :=
  let total := default 0 (pm_misbehavior m !! addr) + score in
  let m := m <| pm_misbehavior ::= <[addr := total]> |> in
  if pm_banThreshold m <=? total then
    let m := m <| pm_banned ::= <[addr := now + pm_banDuration m]> |> in
    match pm_peers m !! addr with
    | Some (Some c) => m <| pm_closed ::= union {[c]} |>
    | _ => m
    end
  else m.

Inductive loop := LContinue | LReturn | LBlocked.

Record turn := mkTurn { tn_loop : loop; tn_state : PeerManager; tn_sends : list (bytes * bytes) }.

Definition cmd_addr : bytes := bytes_of "addr".
Definition cmd_getaddr : bytes := bytes_of "getaddr".
Definition cmd_ping : bytes := bytes_of "ping".
Definition cmd_pong : bytes := bytes_of "pong".
Definition chan_cap : Z := 256.

(** [select { case ch <- p: case <-done: return }]: [pick_done] is the choice when both are ready. *)
Definition offer (pick_done : bool) (pp : bytes * Packet) (m : PeerManager) : turn :=
  let room := zlen (pm_xbridgeCh m) <? chan_cap in
  if pm_done m && (pick_done || negb room) then mkTurn LReturn m []
  else if room then mkTurn LContinue (m <| pm_xbridgeCh ::= (fun q => q ++ [pp]) |>) []
  else mkTurn LBlocked m [].

(** The sends up to the first that fails. *)
Fixpoint echo (ok : bytes -> bool) (raws : list bytes) : list (bytes * bytes) :=
  match raws with
  | [] => []
  | raw :: raws => (CmdSNListPing, raw) :: (if ok raw then echo ok raws else [])
  end.

Section Loop.
Context {secp : Secp}.

(** One message of the peer [addr]. [ver] is the protocol version of this build,
    [now] and [unix] the clock in nanoseconds and in seconds, and [ok] tells
    which sends succeed. *)
Definition on_message (ver now unix : Z) (pick_done : bool) (ok : bytes -> bool) (addr : bytes) (msg : Message) (m : PeerManager) : res turn :=
  let cmd := MCommand msg in let payload := Payload msg in
  if bool_decide (cmd = XBridgeNetCommand) then
    match DecodeXBridgePayload payload with
    | Err _ => Ok (mkTurn LContinue (misbehave now addr 10 m) [])
    | Panic => Panic
    | Ok pktBytes =>
        match Unmarshal ver pktBytes with
        | Err _ => Ok (mkTurn LContinue m [])
        | Panic => Panic
        | Ok pkt => Ok (offer pick_done (addr, pkt) m)
        end
    end
  else if bool_decide (cmd = cmd_addr) then
    match ParseAddr payload with
    | Err _ => Ok (mkTurn LContinue (misbehave now addr 20 m) [])
    | Panic => Panic
    | Ok entries => Ok (mkTurn LContinue (m <| pm_addrMan ::= AddSlice now entries |>) [])
    end
  else if bool_decide (cmd = cmd_getaddr) then Ok (mkTurn LContinue m [])
  else if bool_decide (cmd = cmd_ping) then Ok (mkTurn LContinue m [(cmd_pong, payload)])
  else if bool_decide (cmd = CmdSNRegister) then
    match ParseServiceNode payload with
    | Err _ => Ok (mkTurn LContinue m [])
    | Panic => Panic
    | Ok sn => Ok (mkTurn LContinue (m <| pm_snReg ::= AddRegistration sn |>) [])
    end
  else if bool_decide (cmd = CmdSNPing) || bool_decide (cmd = CmdSNListPing) then
    match ParseServiceNodePing payload with
    | Err _ => Ok (mkTurn LContinue m [])
    | Panic => Panic
    | Ok sn => Ok (mkTurn LContinue (m <| pm_snReg ::= (fun r => snd (AddPing unix sn (Some payload) r)) |>) [])
    end
  else if bool_decide (cmd = CmdSNList) then
    Ok (mkTurn LContinue m (echo ok (map snd (AcceptedRawPings (pm_snReg m)))))
  else Ok (mkTurn LContinue m []).

End Loop.

(** The deferred cleanup of a read loop. *)
Definition readLoop_exit (addr : bytes) (conn : Z) (m : PeerManager) : PeerManager :=
  m <| pm_closed ::= union {[conn]} |> <| pm_peers ::= delete addr |> <| pm_misbehavior ::= delete addr |>.

(** ** The packet surface *)

(** [None]: blocked. *)
Definition PeerManager_ReadPacket (pick_done : bool) (m : PeerManager) : option (res (Packet * bytes) * PeerManager) :=
  match pm_xbridgeCh m with
  | (peer, pkt) :: q =>
      if pm_done m && pick_done then Some (Err "EOF", m) else Some (Ok (pkt, peer), m <| pm_xbridgeCh := q |>)
  | [] => if pm_done m then Some (Err "EOF", m) else None
  end.

(** [order] is the pool in the order of the visit; [write] is the outcome of a connection's write. *)
Definition PeerManager_WritePacket (order : list (bytes * Z)) (write : Z -> option string) : res unit :=
  match order with
  | [] => Err "discovery: no connected peers to write to"
  | _ => match last (omap (fun ac => write ac.2) order) with
         | Some e => Err e
         | None => Ok tt
         end
  end.

Definition PeerManager_Close (m : PeerManager) : PeerManager :=
  if pm_done m then m
  else m <| pm_done := true |> <| pm_closed ::= union (list_to_set (map snd (live_conns m))) |>.
