(* ===== verification/DiscoveryLaws.v ===== *)
(** * Peer discovery: dials, bans and crashes

    [nextCandidate] dials only what may be dialed, and [connectUpTo] all of it;
    the messages that crash the read loop, exactly; and the invariant of the
    manager, preserved by every step of its goroutines ([pm_step]): the service
    node registry is one the laws of RegistryLaws.v speak of, a peer whose
    tally reached the threshold is banned and its connection closed, and while
    a ban lasts its address is neither dialed nor served. *)

From S2P Require Import Prelude Sha256 Digits GoLib Sort Hex Codec Bodies Packet Wire Peer Base58 Secp Signer Registry RegistryLaws Discovery.

(** ** Dialing *)

Lemma dialable_rr now m c v : dialable now (m <| pm_rr := v |>) c = dialable now m c.
Proof. done. Qed.

Lemma next_from_some now cands n i m c m' :
  next_from now cands n i m = Some (c, m') -> c ∈ cands /\ dialable now m c = true /\ exists v, m' = m <| pm_rr := v |>.
Proof.
  revert i; induction n as [|n IH]; intros i; cbn; [done|]. destruct (cands !! _) as [d|] eqn:El; [|done].
  destruct (dialable now m d) eqn:Ed; [|apply IH]. intros [= <- <-]. split_and!; [by eapply list_elem_of_lookup_2|done|eauto].
Qed.

(** The positions from [rr + i] on, [n] of them, hold nothing to dial. *)
Lemma next_from_none now cands n i m :
  next_from now cands n i m = None -> cands <> [] ->
  forall j, (i <= j < i + Z.of_nat n) -> forall c, cands !! Z.to_nat ((pm_rr m + j) mod zlen cands) = Some c -> dialable now m c = false.
Proof.
  revert i; induction n as [|n IH]; intros i H Hne j Hj c Hc; [lia|]. cbn in H.
  assert (0 < zlen cands) by (destruct cands; [done|unfold zlen; cbn; lia]).
  pose proof (Z.mod_pos_bound (pm_rr m + i) (zlen cands) ltac:(lia)) as Hb.
  destruct (cands !! Z.to_nat ((pm_rr m + i) mod zlen cands)) as [d|] eqn:El.
  2:{ apply lookup_ge_None in El. unfold zlen in *. lia. }
  destruct (dialable now m d) eqn:Ed; [done|]. destruct (decide (j = i)) as [->|]; [rewrite El in Hc; by simplify_eq|].
  apply (IH (i + 1) H Hne j); [lia|done].
Qed.

(** Every position is visited. *)
Lemma rotation_covers (rr p len : Z) : 0 < len -> 0 <= p < len -> exists j, 0 <= j < len /\ (rr + j) mod len = p.
Proof.
  intros Hl Hp. exists ((p - rr) mod len). split; [by apply Z.mod_pos_bound|].
  rewrite Z.add_mod_idemp_r by lia. replace (rr + (p - rr)) with p by lia. by apply Z.mod_small.
Qed.

Lemma nextCandidate_spec now cands m c m' :
  nextCandidate now cands m = (c, m') ->
  (exists v, m' = m <| pm_rr := v |>) /\
  ((c ∈ cands /\ dialable now m c = true) \/ (c = [] /\ forall d, d ∈ cands -> dialable now m d = false)).
Proof.
  unfold nextCandidate. destruct (next_from now cands (length cands) 0 m) as [[d m1]|] eqn:E.
  - intros [= -> ->]. apply next_from_some in E as (? & ? & ?). auto.
  - intros [= <- <-]. split; [exists (pm_rr m); by destruct m|]. right. split; [done|]. intros d Hd.
    apply list_elem_of_lookup in Hd as [p Hp]. pose proof (lookup_lt_Some _ _ _ Hp) as Hlt.
    assert (cands <> []) as Hne by (by intros ->).
    destruct (rotation_covers (pm_rr m) (Z.of_nat p) (zlen cands)) as (j & Hj & Hjp); [unfold zlen; lia..|].
    apply (next_from_none now cands (length cands) 0 m E Hne j); [unfold zlen in Hj; lia|].
    by rewrite Hjp, Nat2Z.id.
Qed.

(** A reservation takes its own address out of the dialable ones, and no other. *)
Definition reserve (c : bytes) (m : PeerManager) : PeerManager := m <| pm_peers ::= <[c := None]> |>.

Lemma dialable_reserve now c d m : dialable now (reserve c m) d = if decide (d = c) then false else dialable now m d.
Proof.
  unfold dialable, reserve. cbn. destruct (decide (d = c)) as [->|Hne]; [by rewrite lookup_insert_eq|].
  by rewrite lookup_insert_ne.
Qed.

Lemma omap_app_live (l k : list (bytes * option Z)) : forall f : bytes * option Z -> option (bytes * Z),
  omap f (l ++ k) = omap f l ++ omap f k.
Proof. intros f. induction l as [|x l IH]; cbn; [done|]. destruct (f x); cbn; by rewrite IH. Qed.

Lemma liveCount_reserve c m : pm_peers m !! c = None -> liveCount (reserve c m) = liveCount m.
Proof.
  intros Hc. unfold liveCount, live_conns, reserve, zlen. cbn. f_equal.
  assert (omap (fun ke : bytes * option Z => match ke.2 with Some c => Some (ke.1, c) | None => None end) (map_to_list (<[c:=None]> (pm_peers m)))
    ≡ₚ omap (fun ke : bytes * option Z => match ke.2 with Some c => Some (ke.1, c) | None => None end) (map_to_list (pm_peers m))) as H.
  { rewrite map_to_list_insert by done. done. }
  by apply Permutation_length.
Qed.

Definition rotated (v : Z) (m : PeerManager) : PeerManager := m <| pm_rr := v |>.

(** What [connectUpTo] does to the pool: it reserves the listed addresses. *)
Lemma connectUpTo_inv fuel now cs want m m' dials :
  connectUpTo fuel now cs want m = Some (m', dials) ->
  (forall c, pm_peers m' !! c = if decide (c ∈ dials) then Some None else pm_peers m !! c) /\
  NoDup dials /\ Forall (fun c => dialable now m c = true) dials.
Proof.
  revert m m' dials; induction fuel as [|fuel IH]; intros m m' dials; cbn; [done|].
  destruct (negb (liveCount m <? want) || pm_done m).
  { intros [= <- <-]. split_and!; [done|constructor|constructor]. }
  destruct (nextCandidate now (cs fuel) m) as [c m1] eqn:En. apply nextCandidate_spec in En as [[v ->] Hc].
  case_bool_decide as Hn; [intros [= <- <-]; split_and!; [done|constructor|constructor]|].
  destruct Hc as [[Hin Hd]|[-> _]]; [|done].
  destruct (connectUpTo fuel now cs want _) as [[m2 ds]|] eqn:E; cbn; [|done]. intros [= <- <-].
  apply IH in E as (Hp & Hnd & Hall).
  assert (c ∉ ds) as Hcd.
  { intros Hin'. rewrite Forall_forall in Hall. specialize (Hall c Hin').
    change (dialable now (reserve c (rotated v m)) c = true) in Hall. rewrite dialable_reserve in Hall. by rewrite decide_True in Hall. }
  split_and!.
  - intros d. rewrite Hp. cbn. destruct (decide (d = c)) as [->|Hne].
    + rewrite decide_False by done. rewrite lookup_insert_eq. rewrite decide_True; [done|by apply list_elem_of_here].
    + rewrite lookup_insert_ne by done. destruct (decide (d ∈ ds)) as [Hi|Hi].
      * rewrite decide_True; [done|by apply list_elem_of_further].
      * rewrite decide_False; [done|]. rewrite elem_of_cons. tauto.
  - by constructor.
  - constructor; [done|]. eapply Forall_impl; [exact Hall|]. cbn. intros d Hd'.
    change (dialable now (reserve c (rotated v m)) d = true) in Hd'. rewrite dialable_reserve in Hd'. by case_decide.
Qed.

(** The addresses of [S] still to dial. *)
Definition to_dial (now : Z) (m : PeerManager) (l : list bytes) : list bytes := List.filter (dialable now m) l.

Lemma to_dial_reserve now c v m l :
  NoDup l -> c ∈ l -> dialable now m c = true ->
  length (to_dial now m l) = S (length (to_dial now (reserve c (rotated v m)) l)).
Proof.
  intros Hnd Hin Hd. unfold to_dial. induction Hnd as [|d l Hdl Hnd IH]; [set_solver|].
  cbn [List.filter]. rewrite dialable_reserve. change (dialable now (rotated v m) d) with (dialable now m d).
  destruct (decide (d = c)) as [->|Hne].
  - rewrite Hd. cbn [length]. f_equal. f_equal. apply filter_ext_in. intros e He. rewrite dialable_reserve.
    apply list_elem_of_In in He. rewrite decide_False by (by intros ->). done.
  - destruct (dialable now m d); cbn [length]; rewrite IH by set_solver; done.
Qed.

(** [connectUpTo] finds fewer than [want] live peers: with dials pending it
    starts one to every candidate that may be dialed, whatever [want] is. *)
Theorem connectUpTo_dials_all (now : Z) (S : list bytes) (cs : nat -> list bytes) (want : Z) (m : PeerManager) :
  NoDup S -> [] ∉ S -> (forall i c, c ∈ cs i <-> c ∈ S) -> liveCount m < want -> pm_done m = false ->
  exists m' dials, connectUpTo (length S + 1) now cs want m = Some (m', dials) /\
    (forall c, c ∈ dials <-> c ∈ S /\ dialable now m c = true) /\ NoDup dials /\
    (forall c, pm_peers m' !! c = if decide (c ∈ dials) then Some None else pm_peers m !! c).
Proof.
  intros Hnd Hne Hcs Hl Hdone.
  assert (forall fuel m, liveCount m < want -> pm_done m = false -> (length (to_dial now m S) < fuel)%nat ->
    exists m' dials, connectUpTo fuel now cs want m = Some (m', dials) /\ forall c, c ∈ dials <-> c ∈ S /\ dialable now m c = true) as H.
  { clear m Hl Hdone. induction fuel as [|fuel IH]; intros m Hl Hdone Hf; [lia|]. cbn.
    rewrite (proj2 (Z.ltb_lt _ _)), Hdone by done. cbn [negb orb].
    destruct (nextCandidate now (cs fuel) m) as [c m1] eqn:En. apply nextCandidate_spec in En as [[v ->] Hc].
    destruct Hc as [[Hin Hd]|[-> Hnone]].
    - apply Hcs in Hin. rewrite bool_decide_false by (intros ->; done).
      change (set pm_peers _ _) with (reserve c (rotated v m)).
      assert (pm_peers m !! c = None) as Hpc by (unfold dialable in Hd; by destruct (pm_peers m !! c)).
      destruct (IH (reserve c (rotated v m))) as (m' & dials & E & Hdl); [|done| |].
      + by rewrite liveCount_reserve.
      + rewrite (to_dial_reserve now c v m S) in Hf by done. lia.
      + rewrite E. cbn. exists m', (c :: dials). split; [done|]. intros d. rewrite elem_of_cons, Hdl, dialable_reserve.
        change (dialable now (rotated v m) d) with (dialable now m d). case_decide; naive_solver.
    - rewrite bool_decide_true by done. exists (rotated v m), []. split; [done|]. intros d. split; [set_solver|].
      intros [Hd Hdd]. apply (Hcs fuel) in Hd. by rewrite Hnone in Hdd. }
  assert (length (to_dial now m S) <= length S)%nat as Hlen by (unfold to_dial; apply filter_length_le).
  destruct (H (length S + 1)%nat m Hl Hdone ltac:(lia)) as (m' & dials & E & Hdl).
  exists m', dials. destruct (connectUpTo_inv _ _ _ _ _ _ _ E) as (Hp & Hnd' & _). auto.
Qed.

(** ** The messages that crash *)

Lemma no_panic_not {A} (r : res A) : no_panic r -> r = Panic -> False.
Proof. auto. Qed.

Lemma bind_panic {A B} (m : res A) (f : A -> res B) : m ≫= f = Panic -> m = Panic \/ exists a, m = Ok a /\ f a = Panic.
Proof. destruct m; cbn; eauto; discriminate. Qed.

Section Crash.
Context {secp : Secp} {laws : @SecpLaws secp}.

(** A read inside the payload that does not panic leaves the rest to blame. *)
Lemma codec_panic {A B} (rd : read A) ok enc b pos (f : A * Z -> res B) :
  codec rd ok enc -> 0 <= pos <= zlen b -> rd b pos ≫= f = Panic ->
  exists v pre post, ok v /\ b = pre ++ enc v ++ post /\ zlen pre = pos /\ f (v, zlen (pre ++ enc v)) = Panic.
Proof.
  intros C Hp H. apply bind_panic in H as [H|([v p] & Hr & H)]; [by destruct (c_safe _ _ _ C b pos Hp)|].
  apply (c_inv _ _ _ C) in Hr as (Hv & pre & post & Hb & Hpre & ->); [|done].
  exists v, pre, post. rewrite zlen_app, Hpre. auto.
Qed.

Lemma app_mid_inv {A} (pre m post pre' m' post' : list A) :
  pre ++ m ++ post = pre' ++ m' ++ post' -> zlen pre' = zlen (pre ++ m) -> pre' = pre ++ m /\ post = m' ++ post'.
Proof.
  intros H Hl. rewrite app_assoc in H. apply app_inj_1 in H as [-> ->]; [done|]. unfold zlen in Hl. lia.
Qed.

Lemma ping_panics (b : bytes) :
  ParseServiceNodePing b = Panic ->
  exists pk fixed n t, b = marshalVarStr pk ++ fixed ++ xff :: le_split 8 n ++ t /\
    zlen pk = 33 /\ zlen fixed = 40 /\ 2 ^ 63 - 9 <= n < 2 ^ 64.
Proof.
  pose proof (zlen_nonneg b) as Hb0. unfold ParseServiceNodePing. intros H.
  apply (codec_panic _ _ _ _ _ _ cpubkey_codec) in H as (pk & pre & post & Hk & Hb & Hpre & H); [|lia].
  destruct pre; [|unfold zlen in Hpre; cbn in Hpre; lia]. cbn [app] in H, Hb.
  assert (forall pre post, b = pre ++ post -> 0 <= zlen pre <= zlen b) as Hin.
  { intros q q' ->. rewrite zlen_app. pose proof (zlen_nonneg q). pose proof (zlen_nonneg q'). lia. }
  apply (codec_panic _ _ _ _ _ _ uint32_codec) in H as (v1 & p1 & q1 & Hv1 & Hb1 & Hp1 & H); [|by eapply Hin].
  pose proof (Hin (p1 ++ le_split 4 v1) q1 ltac:(by rewrite <- app_assoc)) as Hr1.
  apply (codec_panic _ _ _ _ _ _ (fixed_codec 32 "uint256" ltac:(lia))) in H as (v2 & p2 & q2 & Hv2 & Hb2 & Hp2 & H); [|done].
  pose proof (Hin (p2 ++ v2) q2 ltac:(by rewrite <- app_assoc)) as Hr2.
  apply (codec_panic _ _ _ _ _ _ uint32_codec) in H as (v3 & p3 & q3 & Hv3 & Hb3 & Hp3 & H); [|exact Hr2].
  pose proof (Hin (p3 ++ le_split 4 v3) q3 ltac:(by rewrite <- app_assoc)) as Hr3.
  pose proof Hb1 as E1. rewrite Hb in E1. change (marshalVarStr pk ++ post) with ([] ++ marshalVarStr pk ++ post) in E1.
  apply app_mid_inv in E1 as [-> ->]; [|done]. cbn [app] in *.
  pose proof Hb2 as E2. rewrite Hb1 in E2. apply app_mid_inv in E2 as [-> ->]; [|done].
  pose proof Hb3 as E3. rewrite Hb2 in E3. unfold id in E3. apply app_mid_inv in E3 as [-> ->]; [|done].
  apply bind_panic in H as [H|([config p5] & E5 & H)].
  - unfold readVarStr in H. rewrite Hb3, app_assoc, slice_post in H by done. cbn [mbind res_bind] in H.
    apply bind_panic in H as [H|([] & _ & ?)]; [|done].
    apply unmarshalVarStr_panics_exactly in H as (n & t & -> & Hn).
    exists pk, (le_split 4 v1 ++ v2 ++ le_split 4 v3), n, t. split_and!; try done; try lia.
    + rewrite Hb3. by rewrite <- !app_assoc.
    + rewrite !zlen_app, !zlen_le_split', Hv2. lia.
  - exfalso. pose proof (readVarStr_range _ _ _ _ Hr3 E5) as Hr5.
    apply (codec_panic _ _ _ _ _ _ inner_codec) in H as (inner & p6 & q6 & _ & Hb6 & Hp6 & H); [|done].
    destruct (_ || _); [done|]. destruct (parseConfig _ _) as [services ver].
    pose proof (Hin (p6 ++ registration_bytes inner) q6 ltac:(by rewrite <- app_assoc)) as Hr6.
    apply (codec_panic _ _ _ _ _ _ varbytes_codec) in H as (sig & p7 & q7 & _ & Hb7 & Hp7 & H); [|done].
    rewrite slice_in_range in H by lia. cbn [mbind res_bind] in H. unfold RecoverCompact in H.
    pose proof (RecoverCompact_no_panic sig (DoubleSHA256 (take (Z.to_nat (zlen (p6 ++ registration_bytes inner) - 0)) (drop (Z.to_nat 0) b)))) as Hn.
    destruct (ecdsa_RecoverCompact _ _) as [[]| |]; cbn in H; [|done..]. by repeat case_match.
Qed.

(** A message from a connected peer crashes the daemon (no goroutine of the
    manager recovers) exactly when it is a ping whose config length, a 64-bit
    number, is 2^63-9 or more; nothing in it has to be signed or even parse
    further.  Every other message, of any content, is handled. *)
Theorem on_message_crash (ver now unix : Z) (pick_done : bool) (ok : bytes -> bool) (addr : bytes) (msg : Message) (m : PeerManager) :
  on_message ver now unix pick_done ok addr msg m = Panic <->
  (MCommand msg = CmdSNPing \/ MCommand msg = CmdSNListPing) /\
  exists pk fixed n t, Payload msg = marshalVarStr pk ++ fixed ++ xff :: le_split 8 n ++ t /\
    zlen pk = 33 /\ zlen fixed = 40 /\ 2 ^ 63 - 9 <= n < 2 ^ 64.
Proof.
  split.
  - unfold on_message. intros H.
    case_bool_decide. { destruct (DecodeXBridgePayload_no_panic (Payload msg)). repeat case_match; try done.
      exfalso. by eapply (Unmarshal_no_panic ver). }
    case_bool_decide. { exfalso. apply (ParseAddr_no_panic (Payload msg)). by repeat case_match. }
    case_bool_decide; [done|]. case_bool_decide; [done|].
    case_bool_decide. { exfalso. apply (c_safe _ _ _ inner_codec (Payload msg) 0); [pose proof (zlen_nonneg (Payload msg)); lia|].
      unfold ParseServiceNode in H. by destruct (parseInnerServiceNode _ _). }
    destruct (bool_decide (MCommand msg = CmdSNPing) || bool_decide (MCommand msg = CmdSNListPing)) eqn:Ec; [|by case_bool_decide].
    apply orb_true_iff in Ec. rewrite !bool_decide_eq_true in Ec. split; [done|]. apply ping_panics.
    by destruct (ParseServiceNodePing _).
  - intros [Hc (pk & fixed & n & t & Hp & Hk & Hf & Hn)]. unfold on_message. rewrite Hp.
    rewrite ping_crash by done. by destruct Hc as [-> | ->].
Qed.

(** The same message ends a daemon with an explicit service node, where it runs
    into the callback of the connection: with it [ReadPacket] crashes on nothing
    else. *)
Theorem node_callback_crash (clock : Registry -> Z) (cmd payload : bytes) (r : Registry) :
  node_OnNonXBridge clock cmd payload r = None <->
  (cmd = CmdSNPing \/ cmd = CmdSNListPing) /\
  exists pk fixed n t, payload = marshalVarStr pk ++ fixed ++ xff :: le_split 8 n ++ t /\
    zlen pk = 33 /\ zlen fixed = 40 /\ 2 ^ 63 - 9 <= n < 2 ^ 64.
Proof.
  unfold node_OnNonXBridge. split.
  - intros H. case_bool_decide.
    { exfalso. apply (c_safe _ _ _ inner_codec payload 0); [pose proof (zlen_nonneg payload); lia|].
      unfold ParseServiceNode in H. by destruct (parseInnerServiceNode _ _). }
    destruct (_ || _) eqn:Ec in H; [|done]. apply orb_true_iff in Ec. rewrite !bool_decide_eq_true in Ec. split; [done|].
    apply ping_panics. by destruct (ParseServiceNodePing _).
  - intros [Hc (pk & fixed & n & t & -> & Hk & Hf & Hn)]. rewrite ping_crash by done. by destruct Hc as [-> | ->].
Qed.

End Crash.

(** ** The steps of the manager *)

Section Steps.
Context {secp : Secp}.
(** The daemon's protocol version, and the functions of package net the seeding uses. *)
Variable ver : Z.
Variable split : bytes -> option (bytes * bytes).
Variable parse : bytes -> option bytes.

Definition unix (now : Z) : Z := now / 10 ^ 9.

(** One step of some goroutine, at the clock [now]. *)
Inductive pm_step (now : Z) : PeerManager -> PeerManager -> Prop :=
| step_reserve cands c m m' :
    nextCandidate now cands m = (c, m') -> c <> [] -> pm_step now m (reserve c m')
| step_dial addr m :
    pm_peers m !! addr = Some None -> pm_step now m (connectOne_begin now addr m)
| step_dialed addr conn m :
    pm_peers m !! addr = Some None -> pm_step now m (connectOne_end addr conn m)
| step_message addr c msg pick_done ok t m :
    pm_peers m !! addr = Some (Some c) ->
    on_message ver now (unix now) pick_done ok addr msg m = Ok t -> pm_step now m (tn_state t)
| step_exit addr c m :
    pm_peers m !! addr = Some (Some c) -> pm_step now m (readLoop_exit addr c m)
| step_prune_addrs m : pm_step now m (m <| pm_addrMan ::= Prune now (1800 * 10 ^ 9) |>)
| step_seed m : pm_step now m (seedAddrMan split parse now m)
| step_prune_bans m : pm_step now m (pruneBans now m)
| step_read pick_done r m m' : PeerManager_ReadPacket pick_done m = Some (r, m') -> pm_step now m m'
| step_close m : pm_step now m (PeerManager_Close m).

Inductive pm_reached (m0 : PeerManager) : Z -> PeerManager -> Prop :=
| pm_start : pm_reached m0 0 m0
| pm_next now now' m m' : pm_reached m0 now m -> now <= now' -> pm_step now' m m' -> pm_reached m0 now' m'.

(** A connection that is open: in the pool and not closed. *)
Definition serving (m : PeerManager) (addr : bytes) : Prop :=
  exists c, pm_peers m !! addr = Some (Some c) /\ c ∉ pm_closed m.

Record pm_ok (now : Z) (m : PeerManager) : Prop := {
  ok_clock : 0 <= now;
  ok_params : 0 < pm_banThreshold m;
  ok_registry : reached (unix now) (pm_snReg m);
  ok_chan : zlen (pm_xbridgeCh m) <= chan_cap;
  ok_addrs k e : pm_addrMan m !! k = Some e -> k = key (ae_ip e) (ae_port e) /\ ae_port e <> 0;
  ok_tally a v : pm_misbehavior m !! a = Some v -> 0 <= v /\ exists c, pm_peers m !! a = Some (Some c) /\
    (pm_banThreshold m <= v -> c ∈ pm_closed m);
  ok_bans a : bannedLocked now m a = true ->
    pm_peers m !! a = None \/ exists c, pm_peers m !! a = Some (Some c) /\ c ∈ pm_closed m;
}.

Lemma unix_mono now now' : now <= now' -> unix now <= unix now'.
Proof. intros. unfold unix. apply Z.div_le_mono; lia. Qed.

Lemma reached_later t t' r : reached t r -> t <= t' -> exists b, recv_registration b r = r /\ reached t' r.
Proof.
  intros Hr Ht. exists []. assert (recv_registration [] r = r) as E by done. split; [done|]. rewrite <- E. by apply (reached_registration t).
Qed.

Lemma bannedLocked_mono now now' m a : now <= now' -> bannedLocked now' m a = true -> bannedLocked now m a = true.
Proof. unfold bannedLocked. destruct (pm_banned m !! a); [|done]. rewrite !Z.ltb_lt. lia. Qed.

Lemma pm_ok_later now now' m : pm_ok now m -> now <= now' -> pm_ok now' m.
Proof.
  intros [? ? Hr ? ? ? Hb] Ht. split; try done; [lia| |].
  - destruct (reached_later _ (unix now') _ Hr) as (_ & _ & ?); [by apply unix_mono|done].
  - intros a Ha. apply Hb. by eapply bannedLocked_mono.
Qed.

(** Steps that leave the pool, the tallies and the bans alone. *)
Lemma pm_ok_same now m m' :
  pm_ok now m -> pm_banThreshold m' = pm_banThreshold m -> pm_peers m' = pm_peers m -> pm_misbehavior m' = pm_misbehavior m ->
  pm_banned m' = pm_banned m -> pm_closed m' = pm_closed m -> pm_snReg m' = pm_snReg m ->
  zlen (pm_xbridgeCh m') <= chan_cap ->
  (forall k e, pm_addrMan m' !! k = Some e -> k = key (ae_ip e) (ae_port e) /\ ae_port e <> 0) -> pm_ok now m'.
Proof.
  intros [? ? ? ? ? Ht Hb] E1 E2 E3 E4 E5 E6 Hc Ha. split; try done; rewrite ?E1, ?E2, ?E3, ?E5, ?E6; try done.
  unfold bannedLocked. by rewrite E4.
Qed.

(** *** The address manager keeps its keys *)

Definition keyed (a : AddrMan) : Prop := forall k e, a !! k = Some e -> k = key (ae_ip e) (ae_port e) /\ ae_port e <> 0.

Lemma keyed_Add now ip port services a : keyed a -> keyed (AddrMan_Add now ip port services a).
Proof.
  intros Hk. unfold AddrMan_Add. destruct (Z.eqb_spec port 0); [done|].
  destruct (a !! key ip port) as [e|] eqn:E; intros k e'; (destruct (decide (k = key ip port)) as [->|Hne];
    [rewrite lookup_insert_eq; intros [= <-]|rewrite lookup_insert_ne by done; apply Hk]); cbn; [by apply Hk|done].
Qed.

Lemma keyed_AddSlice now entries a : keyed a -> keyed (AddSlice now entries a).
Proof. revert a; induction entries as [|e l IH]; intros a Hk; [done|]. cbn. by apply IH, keyed_Add. Qed.

Lemma keyed_MarkTried now addr a : keyed a -> keyed (MarkTried now addr a).
Proof.
  intros Hk k e. unfold MarkTried. destruct (decide (k = addr)) as [->|Hne].
  - rewrite lookup_alter_eq. destruct (a !! addr) as [e0|] eqn:E; [|done]. cbn. intros [= <-]. cbn. by apply Hk.
  - rewrite lookup_alter_ne by done. apply Hk.
Qed.

Lemma keyed_Prune now old a : keyed a -> keyed (Prune now old a).
Proof. intros Hk k e H. apply map_lookup_filter_Some in H as [H _]. by apply Hk. Qed.

Lemma pm_ok_addrs now m f : pm_ok now m -> keyed (f (pm_addrMan m)) -> pm_ok now (m <| pm_addrMan ::= f |>).
Proof. intros Hok Hf. by apply (pm_ok_same now m); destruct Hok. Qed.

Lemma pm_ok_seed now m : pm_ok now m -> pm_ok now (seedAddrMan split parse now m).
Proof.
  unfold seedAddrMan. generalize (pm_seeds m) at 1. intros l. revert m; induction l as [|a l IH]; intros m Hok; [done|]. cbn.
  apply IH. destruct (_ ≫= _) as [[ip port]|]; [|done]. apply pm_ok_addrs; [done|]. apply keyed_Add. exact (ok_addrs _ _ Hok).
Qed.

(** *** The pool *)

Lemma bannedLocked_peers now m f a : bannedLocked now (m <| pm_peers ::= f |>) a = bannedLocked now m a.
Proof. done. Qed.

Lemma pm_ok_reserve now cands c m m' :
  nextCandidate now cands m = (c, m') -> c <> [] -> pm_ok now m -> pm_ok now (reserve c m').
Proof.
  intros H Hne [? ? ? ? ? Ht Hb]. apply nextCandidate_spec in H as [[v ->] [[_ Hd]|[-> _]]]; [|done].
  unfold dialable in Hd. destruct (pm_peers m !! c) as [|] eqn:Hc; [done|]. destruct (bannedLocked now m c) eqn:Hbc; [done|].
  split; cbn; try done.
  - intros a w Ha. destruct (Ht a w Ha) as (? & d & Hp & ?). split; [done|]. exists d.
    rewrite lookup_insert_ne by (intros ->; congruence). done.
  - intros a Ha. change (bannedLocked now m a = true) in Ha. destruct (decide (a = c)) as [->|Hac]; [congruence|].
    rewrite lookup_insert_ne by done. by apply Hb.
Qed.

Lemma reserved_unbanned now m addr : pm_ok now m -> pm_peers m !! addr = Some None -> bannedLocked now m addr = false.
Proof.
  intros Hok Hp. destruct (bannedLocked now m addr) eqn:E; [|done].
  destruct (ok_bans _ _ Hok addr E) as [H|(c & H & _)]; congruence.
Qed.

Lemma pm_ok_dialed now addr conn m :
  pm_peers m !! addr = Some None -> pm_ok now m -> pm_ok now (connectOne_end addr conn m).
Proof.
  intros Hp Hok. pose proof Hok as [? ? ? ? ? Ht Hb]. destruct conn as [c|]; split; cbn; try done.
  - intros a v Ha. destruct (decide (a = addr)) as [->|Hne]; [by rewrite lookup_delete_eq in Ha|].
    rewrite lookup_delete_ne in Ha by done. rewrite lookup_insert_ne by done. by apply Ht.
  - intros a Ha. destruct (decide (a = addr)) as [->|Hne].
    + unfold bannedLocked in Ha. cbn in Ha. by rewrite lookup_delete_eq in Ha.
    + unfold bannedLocked in Ha. cbn in Ha. rewrite lookup_delete_ne in Ha by done.
      rewrite lookup_insert_ne by done. by apply Hb.
  - intros a v Ha. destruct (Ht a v Ha) as (? & c & Hc & ?). split; [done|]. exists c.
    rewrite lookup_delete_ne by (intros ->; congruence). done.
  - intros a Ha. destruct (decide (a = addr)) as [->|Hne]; [left; by rewrite lookup_delete_eq|].
    rewrite lookup_delete_ne by done. by apply Hb.
Qed.

Lemma pm_ok_exit now addr c m : pm_peers m !! addr = Some (Some c) -> pm_ok now m -> pm_ok now (readLoop_exit addr c m).
Proof.
  intros Hp [? ? ? ? ? Ht Hb]. split; cbn; try done.
  - intros a v Ha. destruct (decide (a = addr)) as [->|Hne]; [by rewrite lookup_delete_eq in Ha|].
    rewrite lookup_delete_ne in Ha by done. rewrite lookup_delete_ne by done.
    destruct (Ht a v Ha) as (? & d & Hd & Hcl). split; [done|]. exists d. split; [done|]. intros Hv. apply elem_of_union_r. auto.
  - intros a Ha. destruct (decide (a = addr)) as [->|Hne]; [left; by rewrite lookup_delete_eq|].
    rewrite lookup_delete_ne by done. destruct (Hb a Ha) as [|(d & Hd & Hcl)]; [by left|right].
    exists d. split; [done|]. by apply elem_of_union_r.
Qed.

Lemma pm_ok_misbehave now addr c score m :
  0 <= score -> pm_peers m !! addr = Some (Some c) -> pm_ok now m -> pm_ok now (misbehave now addr score m).
Proof.
  intros Hs Hp [? ? ? ? ? Ht Hb]. set (total := default 0 (pm_misbehavior m !! addr) + score).
  assert (0 <= total) as Htot.
  { unfold total. destruct (pm_misbehavior m !! addr) as [v|] eqn:E; cbn; [|lia]. destruct (Ht addr v E). lia. }
  unfold misbehave. fold total. cbn -[Z.leb]. destruct (Z.leb_spec (pm_banThreshold m) total) as [Hge|Hlt]; cbn.
  - rewrite Hp. split; cbn; try done.
    + intros a v. destruct (decide (a = addr)) as [->|Hne].
      * rewrite lookup_insert_eq. intros [= <-]. split; [done|]. exists c. split; [done|]. intros _. set_solver.
      * rewrite lookup_insert_ne by done. intros Ha. destruct (Ht a v Ha) as (? & d & ? & Hcl). split; [done|].
        exists d. split; [done|]. intros Hv. apply elem_of_union_r. auto.
    + intros a Ha. destruct (decide (a = addr)) as [->|Hne]; [right; exists c; split; [done|set_solver]|].
      unfold bannedLocked in Ha. cbn in Ha. rewrite lookup_insert_ne in Ha by done.
      destruct (Hb a Ha) as [|(d & ? & ?)]; [by left|right]. exists d. split; [done|]. by apply elem_of_union_r.
  - split; cbn; try done. intros a v. destruct (decide (a = addr)) as [->|Hne].
    + rewrite lookup_insert_eq. intros [= <-]. split; [done|]. exists c. split; [done|]. lia.
    + rewrite lookup_insert_ne by done. apply Ht.
Qed.

Lemma pm_ok_registry now m f :
  pm_ok now m -> reached (unix now) (f (pm_snReg m)) -> pm_ok now (m <| pm_snReg ::= f |>).
Proof. intros [? ? ? ? ? ? ?] Hr. by split. Qed.

Lemma pm_ok_offer now pick_done pp m : pm_ok now m -> pm_ok now (tn_state (offer pick_done pp m)).
Proof.
  intros Hok. unfold offer. destruct (_ && _); [done|]. destruct (Z.ltb_spec (zlen (pm_xbridgeCh m)) chan_cap); [|done].
  apply (pm_ok_same now m); try done; [cbn; rewrite zlen_app; change (zlen [pp]) with 1; lia|exact (ok_addrs _ _ Hok)].
Qed.

Lemma pm_ok_message now addr c msg pick_done ok t m :
  pm_peers m !! addr = Some (Some c) -> on_message ver now (unix now) pick_done ok addr msg m = Ok t ->
  pm_ok now m -> pm_ok now (tn_state t).
Proof.
  intros Hp H Hok. pose proof (ok_registry _ _ Hok) as Hr. unfold on_message in H.
  assert (forall f, reached (unix now) (f (pm_snReg m)) -> pm_ok now (m <| pm_snReg ::= f |>)) as Hreg
    by (intros; by apply pm_ok_registry).
  case_bool_decide.
  { destruct (DecodeXBridgePayload _); [|injection H as <-; by eapply pm_ok_misbehave|done].
    destruct (Unmarshal ver _); [|by injection H as <-|done]. injection H as <-. by apply pm_ok_offer. }
  case_bool_decide.
  { destruct (ParseAddr _); [|injection H as <-; by eapply pm_ok_misbehave|done]. injection H as <-.
    apply pm_ok_addrs; [done|]. apply keyed_AddSlice. exact (ok_addrs _ _ Hok). }
  case_bool_decide; [by injection H as <-|]. case_bool_decide; [by injection H as <-|].
  case_bool_decide.
  { pose proof (reached_registration _ _ (Payload msg) _ Hr (Z.le_refl _)) as Hr'. unfold recv_registration in Hr'.
    destruct (ParseServiceNode _); [|by injection H as <-|done]. injection H as <-. by apply Hreg. }
  destruct (_ || _).
  { pose proof (reached_ping _ _ (Payload msg) _ Hr (Z.le_refl _)) as Hr'. unfold recv_ping in Hr'.
    destruct (ParseServiceNodePing _); [|by injection H as <-|done]. injection H as <-. by apply Hreg. }
  case_bool_decide; by injection H as <-.
Qed.

Lemma pm_ok_step now m m' : pm_step now m m' -> pm_ok now m -> pm_ok now m'.
Proof.
  intros H Hok. destruct H.
  - by eapply pm_ok_reserve.
  - unfold connectOne_begin. apply pm_ok_addrs; [|apply keyed_MarkTried; destruct (explicitSet m addr); exact (ok_addrs _ _ Hok)].
    destruct (explicitSet m addr); [|done]. by apply (pm_ok_same now m); destruct Hok.
  - by apply pm_ok_dialed.
  - by eapply pm_ok_message.
  - by apply pm_ok_exit.
  - apply pm_ok_addrs; [done|]. apply keyed_Prune. exact (ok_addrs _ _ Hok).
  - by apply pm_ok_seed.
  - destruct Hok as [? ? ? ? ? ? Hb]. split; try done. intros a Ha. apply Hb. unfold bannedLocked, pruneBans in *. cbn in Ha.
    destruct (filter _ _ !! a) as [e|] eqn:E; [|done]. apply map_lookup_filter_Some in E as [-> _]. done.
  - unfold PeerManager_ReadPacket in H. destruct (pm_xbridgeCh m) as [|[peer pkt] q] eqn:E; [by destruct (pm_done m); simplify_eq|].
    destruct (_ && _); [by injection H as _ <-|]. injection H as _ <-. apply (pm_ok_same now m); try done; [|exact (ok_addrs _ _ Hok)].
    cbn. pose proof (ok_chan _ _ Hok) as Hc. rewrite E, zlen_cons in Hc. lia.
  - unfold PeerManager_Close. destruct (pm_done m); [done|]. destruct Hok as [? ? ? ? ? Ht Hb]. split; cbn; try done.
    + intros a v Ha. destruct (Ht a v Ha) as (? & c & ? & Hc). split; [done|]. exists c. split; [done|].
      intros Hv. apply elem_of_union_r. auto.
    + intros a Ha. destruct (Hb a Ha) as [|(c & ? & ?)]; [by left|right]. exists c. split; [done|]. by apply elem_of_union_r.
Qed.

Lemma pm_ok_new seeds o : pm_ok 0 (PeerManager_New seeds o).
Proof.
  split; cbn; try done; [|constructor].
  unfold positive. destruct (Z.leb_spec (op_BanThreshold o) 0); lia.
Qed.

Lemma pm_reached_ok seeds o now m : pm_reached (PeerManager_New seeds o) now m -> pm_ok now m.
Proof.
  induction 1 as [|now now' m m' _ IH Hle Hs]; [apply pm_ok_new|]. eapply pm_ok_step; [done|]. by eapply pm_ok_later.
Qed.

(** C35. Whatever the peers send and however the goroutines interleave: the packet
    channel stays within its capacity, every known address is filed under its
    own host and port, tallies belong to pooled connections, and the registry
    of service nodes is one reached by network messages at the clock. *)
Theorem pm_invariant (seeds : list bytes) (o : Options) (now : Z) (m : PeerManager) :
  pm_reached (PeerManager_New seeds o) now m ->
  zlen (pm_xbridgeCh m) <= chan_cap /\ reached (unix now) (pm_snReg m) /\
  (forall k e, pm_addrMan m !! k = Some e -> k = key (ae_ip e) (ae_port e) /\ ae_port e <> 0) /\
  (forall a v, pm_misbehavior m !! a = Some v -> 0 <= v /\ exists c, pm_peers m !! a = Some (Some c)).
Proof.
  intros H%pm_reached_ok. destruct H as [? ? ? ? ? Ht ?]. split_and!; try done.
  intros a v Ha. destruct (Ht a v Ha) as (? & c & ? & _). eauto.
Qed.

(** C34. While a ban lasts, the banned address has no open connection and no dial in
    flight, and the next address to dial is another; an address whose tally
    has reached the threshold has no open connection either. *)
Theorem ban_holds (seeds : list bytes) (o : Options) (now : Z) (m : PeerManager) (a : bytes) :
  pm_reached (PeerManager_New seeds o) now m ->
  (isBanned now m a = true ->
   ~ serving m a /\ pm_peers m !! a <> Some None /\
   forall cands c m', nextCandidate now cands m = (c, m') -> c <> [] -> c <> a) /\
  (forall v, pm_misbehavior m !! a = Some v -> pm_banThreshold m <= v -> ~ serving m a).
Proof.
  intros H%pm_reached_ok. split.
  - intros Hb. destruct (ok_bans _ _ H a Hb) as [Hp|(c & Hp & Hc)].
    all: split_and!; [intros (d & Hd & Hn); congruence|congruence|].
    all: intros cands d m' Hs Hne ->; apply nextCandidate_spec in Hs as [_ [[_ Hd]|[Hd _]]]; [|congruence].
    all: unfold dialable in Hd; rewrite Hp in Hd; try done.
    unfold isBanned in Hb. by rewrite Hb in Hd.
  - intros v Hv Hge (d & Hd & Hn). destruct (ok_tally _ _ H a v Hv) as (_ & c & Hc & Hcl). specialize (Hcl Hge). congruence.
Qed.

(** A run of messages of one peer, each at its own clock. *)
Fixpoint messages (pick_done : bool) (ok : bytes -> bool) (addr : bytes) (msgs : list (Z * Message)) (m : PeerManager) : res PeerManager :=
  match msgs with
  | [] => Ok m
  | (now, msg) :: msgs => t ← on_message ver now (unix now) pick_done ok addr msg m; messages pick_done ok addr msgs (tn_state t)
  end.

Definition corrupt (msg : Message) : Prop := MCommand msg = XBridgeNetCommand /\ is_err (DecodeXBridgePayload (Payload msg)) = true.

(** Envelopes that do not decode are counted: a connection with a clean tally
    is closed and its address banned exactly when ten times their number
    reaches the threshold. *)
Lemma corrupt_counted pick_done ok addr c msgs m v :
  pm_peers m !! addr = Some (Some c) -> default 0 (pm_misbehavior m !! addr) = v ->
  (c ∈ pm_closed m <-> pm_banThreshold m <= v) -> 0 <= v -> 0 < pm_banThreshold m -> Forall (fun nm => corrupt nm.2) msgs ->
  exists m', messages pick_done ok addr msgs m = Ok m' /\ default 0 (pm_misbehavior m' !! addr) = v + 10 * zlen msgs /\
    (c ∈ pm_closed m' <-> pm_banThreshold m <= v + 10 * zlen msgs).
Proof.
  intros Hp Hv Hc Hv0 Ht Hall. revert m v Hp Hv Hc Hv0 Ht. induction Hall as [|[now msg] msgs [Hcmd Herr] _ IH]; intros m v Hp Hv Hc Hv0 Ht.
  { exists m. cbn. change (zlen (@nil (Z * Message))) with 0. rewrite Z.add_0_r. auto. }
  cbn [messages]. cbn [snd] in Hcmd, Herr. unfold on_message. rewrite bool_decide_true by done.
  destruct (DecodeXBridgePayload (Payload msg)) as [|e|]; [done| |done]. cbn [mbind res_bind tn_state].
  set (m1 := misbehave now addr 10 m).
  assert (pm_peers m1 !! addr = Some (Some c) /\ default 0 (pm_misbehavior m1 !! addr) = v + 10 /\
    (c ∈ pm_closed m1 <-> pm_banThreshold m1 <= v + 10) /\ pm_banThreshold m1 = pm_banThreshold m) as (H1 & H2 & H3 & H4).
  { unfold m1, misbehave. rewrite Hv. cbn -[Z.leb]. destruct (Z.leb_spec (pm_banThreshold m) (v + 10)); cbn.
    - rewrite Hp. cbn. rewrite lookup_insert_eq. cbn. split_and!; try done. set_solver.
    - rewrite lookup_insert_eq. cbn. split_and!; try done. rewrite Hc. lia. }
  destruct (IH m1 (v + 10) H1 H2 H3 ltac:(lia) ltac:(lia)) as (m' & E & E2 & E3). exists m'. rewrite zlen_cons. rewrite H4 in E3.
  split; [done|]. replace (v + 10 * (1 + zlen msgs)) with (v + 10 + 10 * zlen msgs) by lia. auto.
Qed.

End Steps.

(** A message that crashes: only its first 74 bytes are looked at. *)
Definition crash_message : Message :=
  mkMessage MainnetMagic CmdSNPing 82 [] (marshalVarStr (repeat x00 33) ++ repeat x00 40 ++ xff :: le_split 8 (2 ^ 64 - 1)).

Definition sample_options : Options := mkOptions [bytes_of "10.0.0.1:41412"; bytes_of "node.example:41412"] [] 1 0 10 0.
Definition sample_pm : PeerManager :=
  PeerManager_New [bytes_of "5.189.179.250:41412"] sample_options.

Example crash_message_crashes :
  on_message 49 0 0 false (fun _ => true) (bytes_of "10.0.0.1:41412") crash_message sample_pm = Panic.
Proof. by vm_compute. Qed.

Lemma connectUpTo_dials_all_witness :
  let cands := candidates [] id sample_pm in
  pm_target sample_pm = 1 /\
  exists m' dials, connectUpTo (length cands + 1) 0 (fun _ => cands) 1 sample_pm = Some (m', dials) /\
    (forall c, c ∈ dials <-> c ∈ cands /\ dialable 0 sample_pm c = true) /\ NoDup dials /\
    (forall c, pm_peers m' !! c = if decide (c ∈ dials) then Some None else pm_peers sample_pm !! c).
Proof.
  split; [done|]. apply (connectUpTo_dials_all 0 (candidates [] id sample_pm)); [|by apply (bool_decide_unpack _); vm_compute|done..].
  apply (bool_decide_unpack _). by vm_compute.
Defined.

(** Three candidates are dialed although one peer is wanted. *)
Example three_dials :
  (snd <$> connectUpTo 4 0 (fun _ => candidates [] id sample_pm) 1 sample_pm) =
  Some [bytes_of "10.0.0.1:41412"; bytes_of "node.example:41412"; bytes_of "5.189.179.250:41412"].
Proof. by vm_compute. Qed.

(** The first of them connects and sends a corrupt envelope, at a threshold of ten. *)
Definition sample_peer : bytes := bytes_of "10.0.0.1:41412".
Definition corrupt_message : Message := mkMessage MainnetMagic XBridgeNetCommand 0 [] [].
Definition dialing_state : PeerManager := reserve sample_peer (rotated 1 sample_pm).
Definition connected_state : PeerManager := connectOne_end sample_peer (Some 7) dialing_state.
Definition banned_state : PeerManager := misbehave 0 sample_peer 10 connected_state.

Lemma banned_state_reached :
  pm_reached 49 (fun _ => None) (fun _ => None) sample_pm 0 banned_state.
Proof.
  apply (pm_next _ _ _ _ 0 0 connected_state); [|lia|].
  - apply (pm_next _ _ _ _ 0 0 dialing_state); [|lia|by apply step_dialed].
    apply (pm_next _ _ _ _ 0 0 sample_pm); [constructor|lia|].
    apply (step_reserve _ _ _ 0 (candidates [] id sample_pm) sample_peer sample_pm (rotated 1 sample_pm)); [by vm_compute|done].
  - apply (step_message _ _ _ 0 sample_peer 7 corrupt_message false (fun _ => true) (mkTurn LContinue banned_state [])); by vm_compute.
Qed.

Lemma ban_holds_witness :
  isBanned 0 banned_state sample_peer = true /\ ~ serving banned_state sample_peer.
Proof.
  split; [by vm_compute|].
  apply (ban_holds 49 (fun _ => None) (fun _ => None) [bytes_of "5.189.179.250:41412"] sample_options 0 banned_state sample_peer);
    [exact banned_state_reached|by vm_compute].
Defined.

Lemma pm_invariant_witness :
  zlen (pm_xbridgeCh banned_state) <= chan_cap /\ 0 <= 10 /\ exists c, pm_peers banned_state !! sample_peer = Some (Some c).
Proof.
  destruct (pm_invariant 49 (fun _ => None) (fun _ => None) [bytes_of "5.189.179.250:41412"] sample_options 0 banned_state
              banned_state_reached) as (Hc & _ & _ & Ht).
  split; [exact Hc|]. apply (Ht sample_peer 10). by vm_compute.
Defined.
