(* ===== verification/Wallet.v ===== *)
(** * The wallet package: the connector contract and the deposit check

    [Connector] is the interface the swap layer drives; behind it is the user's
    wallet, so it is an argument of everything that uses it (WalletRpc.v builds
    the one that speaks JSON-RPC, Activate.v the one with keys of its own).
    Here is also the part of the RPC connector that decides something:
    [CheckDepositTransaction], the verdict on the counterparty's deposit, over
    the answers of the remote node.  Whole-coin amounts are [float64]s there, as
    in the code. *)

From Stdlib Require Import SpecFloat.
From S2P Require Import Prelude Sha256 GoLib Hex Coin Tx Price.

(** ** Errors

    What the program asks of a wallet or worker error: [errors.Is(err,
    ErrDepositNotReady)], [NotReadySeen(err)], [RPCErrorCode(err)], and the
    reason of a [selfCancelErr]. *)

Record error := mkError {
  err_NotReady : bool;
  err_Seen : bool;
  err_Code : option Z;
  err_Cancel : option Z;
}.

Definition wres (A : Type) : Type := (A + error)%type.
#[export] Instance wres_ret : MRet wres := fun A a => inl a.
#[export] Instance wres_bind : MBind wres := fun A B f m => match m with inl a => f a | inr e => inr e end.

Definition failure : error := mkError false true None None.
(** [fmt.Errorf("%w: ...", ErrDepositNotReady)]: no [NotReadyError] in the chain. *)
Definition not_ready : error := mkError true true None None.
(** [&NotReadyError{Seen: false, ...}] *)
Definition unseen : error := mkError true false None None.
Definition self_cancel (reason : Z) : error := mkError false true None (Some reason).

Definition fail {A} : wres A := inr failure.
Definition of_option {A} (o : option A) : wres A := match o with Some a => inl a | None => fail end.
(** A worker turns a panic into an error ([safeTaskRun]). *)
Definition of_res {A} (r : res A) : wres A := match r with Ok a => inl a | _ => fail end.
Definition require (c : bool) (e : error) : wres unit := if c then inl tt else inr e.

Lemma wres_bind_inl {A B} (m : wres A) (f : A -> wres B) b : (m ≫= f) = inl b <-> exists a, m = inl a /\ f a = inl b.
Proof. destruct m; split; [eauto|by intros (? & [= <-] & ?)|done|by intros (? & ? & ?)]. Qed.

Lemma require_inl c e u : require c e = inl u -> c = true.
Proof. by destruct c. Qed.

Lemma of_option_inl {A} (o : option A) a : of_option o = inl a -> o = Some a.
Proof. destruct o; [by intros [= <-]|done]. Qed.

Lemma of_res_inl {A} (r : res A) a : of_res r = inl a -> r = Ok a.
Proof. destruct r; [by intros [= <-]|done..]. Qed.

(** Takes the successful steps of a chain of binds apart. *)
Ltac wres_inv H :=
  repeat match type of H with
  | (_ ≫= _) = inl _ => apply wres_bind_inl in H; let x := fresh "x" in let Hx := fresh "Hx" in destruct H as (x & Hx & H)
  end.

(** ** Data (wallet/connector.go) *)

Record Utxo := mkUtxo {
  u_TxID : bytes;
  u_Vout : Z;
  u_Address : bytes;
  u_Amount : Z;
  u_Value : f64;
  u_ScriptPubKey : bytes;
  u_Confirmations : Z;
}.

Record PrevTx := mkPrevTx { pt_TxID : bytes; pt_Vout : Z; pt_ScriptPubKey : bytes; pt_Amount : Z }.

Record DepositCheck := mkDepositCheck {
  dc_IsGood : bool;
  dc_P2SHAmount : Z;
  dc_P2SHNative : Z;
  dc_DepositVout : Z;
  dc_Excess : Z;
}.
(** A verdict of a bad deposit; the value of a matched output may have been noted. *)
Definition refused (native : Z) : DepositCheck := mkDepositCheck false 0 native 0 0.
Definition bad_deposit : DepositCheck := refused 0.

Record VerboseTxOut := mkVerboseTxOut { vo_Value : Z; vo_ScriptHex : bytes }.

Record VerboseTx := mkVerboseTx {
  vt_Confirmations : Z;
  vt_HasConfirmations : bool;
  vt_Outputs : gmap Z VerboseTxOut;
}.

Record BlockVin := mkBlockVin { bv_TxID : bytes; bv_Vout : Z }.
Record BlockTx := mkBlockTx { bt_TxID : bytes; bt_Vin : list BlockVin }.

(** One answer of the wallet for every call: a session uses a connector value
    per worker task, so two tasks may see different answers. *)
Record Connector := mkConnector {
  GetBalance : wres Z;
  GetNewAddress : wres bytes;
  ListUnspent : Z -> wres (list Utxo);
  ListUnspentWithZeroConf : wres (list Utxo);
  SignRawTransaction : bytes -> list PrevTx -> wres (bytes * bool);
  SendRawTransaction : bytes -> wres bytes;
  GetBlockCount : wres Z;
  GetRawTransaction : bytes -> wres bytes;
  CheckDeposit : bytes -> bytes -> Z -> Z -> wres DepositCheck;
  SignMessage : bytes -> bytes -> wres bytes;
  VerifyMessage : bytes -> bytes -> bytes -> wres bool;
  GetTxOut : bytes -> Z -> wres (option Utxo);
  GetRawTransactionVerbose : bytes -> wres VerboseTx;
  GetRawMempool : wres (list bytes);
  GetBlockHash : Z -> wres bytes;
  GetBlockTxs : bytes -> wres (list BlockTx);
}.

(** ** CheckDepositTransaction (wallet/rpc.go) *)

Record Chain := mkChain {
  ch_Decimals : Z;
  ch_FeePerByte : Z;
  ch_MinTxFee : Z;
  ch_TxWithTimeField : bool;
}.

(** The decoded answer of [getrawtransaction txid 1]. *)
Record RawVerbose := mkRawVerbose {
  rv_Confirmations : option Z;
  rv_Vout : list (Z * f64);
}.

(** The remote node. *)
Record RPC := mkRPC {
  rpc_getrawtransaction : bytes -> wres bytes;
  rpc_getrawtransaction_verbose : bytes -> wres RawVerbose;
  rpc_gettxout_confirmations : bytes -> Z -> option Z;
}.

Definition seqFinal : Z := 4294967295.
Definition doubleEpsilon : f64 := S754_finite false 4503599627370496 (-104).
Definition xbridgeCoinScale : f64 := f64_of 1000000.
Definition f64_sub (a b : f64) : f64 := SFsub 53 1024 a b.
Definition f64_le (a b : f64) : bool := SFleb a b.
Definition f64_eq (a b : f64) : bool := SFeqb a b.
Definition f64_zero : f64 := S754_zero false.
(** The constant 0.95 *)
Definition f64_095 : f64 := S754_finite false 8556839292003942 (-53).

(** [uint64(math.Round(v))] of a value in range. *)
Definition f64_round (v : f64) : Z :=
  match v with
  | S754_finite false m e =>
      if 0 <=? e then Z.pos m * 2 ^ e else (2 * Z.pos m + 2 ^ (- e)) / 2 ^ (1 - e)
  | _ => 0
  end.

Section RPCConnector.
Context (mem : Z) (chain : Chain) (rpc : RPC).

Definition chainScale : f64 :=
  let s := Nat.iter (Z.to_nat (ch_Decimals chain)) (fun s => f64_mul s (f64_of 10)) (f64_of 1) in
  if f64_le s f64_zero then f64_of 1 else s.

Definition minTxFeeWhole (nIn nOut : Z) : f64 :=
  let fee := wrap 64 (wrap 64 (192 * nIn + 34 * nOut) * ch_FeePerByte chain) in
  let fee := if fee <? ch_MinTxFee chain then ch_MinTxFee chain else fee in
  f64_div (f64_of fee) chainScale.

Definition confirmed (txid : bytes) (vout required : Z) : wres unit :=
  match rpc_gettxout_confirmations rpc txid vout with
  | None => inr not_ready
  | Some confs => require (required <=? confs) not_ready
  end.

(** The confirmation gate: [gettxout] of output 0, or the verbose view without a depth to require. *)
Definition visible (txid : bytes) (required : Z) : wres unit :=
  if 0 <? required then confirmed txid 0 required
  else
    match rpc_getrawtransaction_verbose rpc txid with
    | inr _ => inr not_ready
    | inl vtx =>
        match rv_Confirmations vtx with
        | Some c => require (0 <=? c) not_ready
        | None => inl tt
        end
    end.

(** The input loop: the total of the spent outputs, or [None] for a bad deposit. *)
Fixpoint sum_inputs (ins : list TxIn) (total : f64) : wres (option f64) :=
  match ins with
  | [] => inl (Some total)
  | vin :: ins =>
      if negb (in_Sequence vin =? seqFinal) then inl None
      else
        match rpc_getrawtransaction_verbose rpc (EncodeToString (rev (op_Hash (in_PrevOut vin)))) with
        | inr _ => inr not_ready
        | inl vinTx =>
            match List.find (fun nv => fst nv =? op_Index (in_PrevOut vin)) (rv_Vout vinTx) with
            | None => inl None
            | Some (_, amount) => sum_inputs ins (f64_add total amount)
            end
        end
  end.

(** The output loop: it ends at the first output with the expected script. *)
Fixpoint scan_outputs (outs : list TxOut) (i : Z) (scriptHex : bytes) (wholeAmount total : f64)
    : f64 * option (f64 * Z * Z) :=
  match outs with
  | [] => (total, None)
  | out :: outs =>
      let whole := f64_div (f64_of (out_Value out)) chainScale in
      let total := f64_add total whole in
      if negb (bool_decide (EncodeToString (out_ScriptPubKey out) = scriptHex))
      then scan_outputs outs (i + 1) scriptHex wholeAmount total
      else if f64_le wholeAmount (f64_add whole doubleEpsilon)
           then (total, Some (whole, out_Value out, i))
           else (total, None)
  end.

(** The two fee conditions at the end. *)
Definition fees_ok (nIn nOut : Z) (fees p2sh wholeAmount : f64) : bool :=
  negb (f64_lt fees f64_zero || f64_lt fees (f64_mul (minTxFeeWhole nIn nOut) f64_095))
  && negb (f64_lt p2sh (f64_add wholeAmount (f64_mul (minTxFeeWhole 1 1) f64_095))).

Definition CheckDepositTransaction (depositTxID scriptHex : bytes) (expectedAmount required : Z) : wres DepositCheck :=
  match rpc_getrawtransaction rpc depositTxID with
  | inr _ => inr unseen
  | inl rawHex =>
      match DecodeString rawHex with
      | None => inl bad_deposit
      | Some raw =>
          match DeserializeWithTime mem raw (ch_TxWithTimeField chain) with
          | Panic => fail
          | Err _ => inl bad_deposit
          | Ok tx =>
              _ ← visible depositTxID required;
              if bool_decide (tx_Inputs tx = []) || bool_decide (tx_Outputs tx = []) then inl bad_deposit
              else
                total ← sum_inputs (tx_Inputs tx) f64_zero;
                match total with
                | None => inl bad_deposit
                | Some totalVin =>
                    let wholeAmount := f64_div (f64_of expectedAmount) xbridgeCoinScale in
                    let '(totalVout, hit) := scan_outputs (tx_Outputs tx) 0 scriptHex wholeAmount f64_zero in
                    match hit with
                    | None => inl bad_deposit
                    | Some (p2sh, native, vout) =>
                        if f64_eq p2sh f64_zero then inl (refused native)
                        else
                          _ ← (if (0 <? required) && negb (vout =? 0) then confirmed depositTxID vout required else inl tt);
                          let fee2 := minTxFeeWhole 1 1 in
                          if fees_ok (zlen (tx_Inputs tx)) (zlen (tx_Outputs tx)) (f64_sub totalVin totalVout) p2sh wholeAmount
                          then
                            let excess := if f64_lt (f64_add wholeAmount fee2) p2sh
                              then f64_round (f64_mul (f64_sub (f64_sub p2sh wholeAmount) fee2) xbridgeCoinScale) else 0 in
                            inl (mkDepositCheck true (f64_round (f64_mul p2sh xbridgeCoinScale)) native vout excess)
                          else inl (refused native)
                    end
                end
          end
      end
  end.

End RPCConnector.

(** ** What a good verdict means *)

Section Sound.
Context (mem : Z) (chain : Chain) (rpc : RPC).

Definition whole_of (v : Z) : f64 := f64_div (f64_of v) (chainScale chain).

Lemma scan_outputs_hit outs i scriptHex w t t' p2sh native vout :
  scan_outputs chain outs i scriptHex w t = (t', Some (p2sh, native, vout)) ->
  exists k o, vout = i + Z.of_nat k /\ outs !! k = Some o /\ native = out_Value o /\
    EncodeToString (out_ScriptPubKey o) = scriptHex /\
    f64_le w (f64_add (whole_of native) doubleEpsilon) = true /\ p2sh = whole_of native /\
    forall j o', (j < k)%nat -> outs !! j = Some o' -> EncodeToString (out_ScriptPubKey o') <> scriptHex.
Proof.
  revert i t. induction outs as [|o outs IH]; intros i t; [done|]. cbn [scan_outputs].
  case_bool_decide as Hs; cbn [negb].
  - intros H. case_match eqn:E; [|done]. injection H as ? <- <- <-.
    exists 0%nat, o. split_and!; try done; lia.
  - intros H. apply IH in H as (k & o' & -> & Ho & -> & Hs' & Hw & -> & Hfst).
    exists (S k), o'. split_and!; try done; [lia|].
    intros [|j] o2 Hj; cbn; [by intros [= <-]|]. apply Hfst. lia.
Qed.

Lemma sum_inputs_final ins t total : sum_inputs rpc ins t = inl (Some total) -> Forall (fun i => in_Sequence i = seqFinal) ins.
Proof.
  revert t. induction ins as [|i ins IH]; intros t; [done|]. cbn [sum_inputs].
  destruct (in_Sequence i =? seqFinal) eqn:E; [|done]. cbn [negb].
  destruct (rpc_getrawtransaction_verbose _ _); [|done].
  destruct (List.find _ _) as [[]|]; [|done]. intros H. apply Z.eqb_eq in E. constructor; [done|by eapply IH].
Qed.

Lemma confirmed_inl txid vout required u :
  confirmed rpc txid vout required = inl u -> exists c, rpc_gettxout_confirmations rpc txid vout = Some c /\ required <= c.
Proof. unfold confirmed. destruct (rpc_gettxout_confirmations _ _ _) as [c|]; [|done]. intros H%require_inl. zbool. eauto. Qed.

End Sound.

(** C21. A deposit is declared good only if the node returned a transaction with
    final inputs whose first output with the expected script is the reported
    one, of the reported value; the output covers the expected amount and (in
    double precision) 95% of the redeem fee; and, where confirmations are
    required, both output 0 and the reported output have them, where none are,
    the node knows the transaction and does not report a conflict. *)
Theorem CheckDeposit_sound (mem : Z) (chain : Chain) (rpc : RPC) (txid scriptHex : bytes) (amount required : Z) (dc : DepositCheck) :
  CheckDepositTransaction mem chain rpc txid scriptHex amount required = inl dc ->
  dc_IsGood dc = true ->
  exists rawHex raw tx out, rpc_getrawtransaction rpc txid = inl rawHex /\ DecodeString rawHex = Some raw /\
    DeserializeWithTime mem raw (ch_TxWithTimeField chain) = Ok tx /\
    Forall (fun i => in_Sequence i = seqFinal) (tx_Inputs tx) /\ tx_Inputs tx <> [] /\
    0 <= dc_DepositVout dc /\ tx_Outputs tx !! Z.to_nat (dc_DepositVout dc) = Some out /\
    dc_P2SHNative dc = out_Value out /\ EncodeToString (out_ScriptPubKey out) = scriptHex /\
    (forall j o', (Z.of_nat j < dc_DepositVout dc) -> tx_Outputs tx !! j = Some o' ->
      EncodeToString (out_ScriptPubKey o') <> scriptHex) /\
    (let whole := f64_div (f64_of amount) xbridgeCoinScale in
     f64_lt (whole_of chain (dc_P2SHNative dc)) (f64_add whole (f64_mul (minTxFeeWhole chain 1 1) f64_095)) = false) /\
    (if 0 <? required
     then forall v, v = 0 \/ v = dc_DepositVout dc -> exists c, rpc_gettxout_confirmations rpc txid v = Some c /\ required <= c
     else exists v, rpc_getrawtransaction_verbose rpc txid = inl v /\ default 0 (rv_Confirmations v) >= 0).
Proof.
  unfold CheckDepositTransaction. intros H Hg.
  destruct (rpc_getrawtransaction rpc txid) as [rawHex|] eqn:Hraw; [|done].
  destruct (DecodeString rawHex) as [raw|] eqn:Hdec; [|by injection H as <-].
  destruct (DeserializeWithTime mem raw _) as [tx| |] eqn:Hde; [|by injection H as <-|done].
  wres_inv H. destruct (_ || _) eqn:Hne; [by injection H as <-|]. apply orb_false_iff in Hne as [Hni _].
  wres_inv H. destruct x0 as [total|]; [|by injection H as <-].
  destruct (scan_outputs _ _ _ _ _ _) as [tv [[[p2sh native] vout]|]] eqn:Hsc; [|by injection H as <-].
  destruct (f64_eq p2sh f64_zero); [by injection H as <-|]. wres_inv H.
  destruct (fees_ok _ _ _ _ _ _) eqn:Hf; injection H as <-; [|done]. cbn in Hg |- *.
  apply scan_outputs_hit in Hsc as (k & out & Hv & Ho & -> & Hs & _ & -> & Hfst).
  rewrite Z.add_0_l in Hv. subst vout. rewrite Nat2Z.id.
  exists rawHex, raw, tx, out. split_and!; try done; [by eapply sum_inputs_final|by eapply bool_decide_eq_false in Hni|lia| | |].
  - intros j o' Hj. apply Hfst. lia.
  - unfold fees_ok in Hf. apply andb_true_iff in Hf as [_ Hf]. by apply negb_true_iff in Hf.
  - unfold visible in Hx. destruct (0 <? required) eqn:Hr.
    + cbn [andb] in Hx1. intros v [-> | ->]; [by eapply confirmed_inl|].
      destruct (Z.of_nat k =? 0) eqn:Hk; cbn in Hx1; [apply Z.eqb_eq in Hk; rewrite Hk|]; by eapply confirmed_inl.
    + destruct (rpc_getrawtransaction_verbose rpc txid) as [v|]; [|done]. exists v. split; [done|].
      destruct (rv_Confirmations v) as [c|]; cbn; [|lia]. apply require_inl in Hx. zbool. lia.
Qed.

Definition sample_chain : Chain := mkChain 6 1 0 false.
Definition sample_script : bytes := [xa9; x87].
Definition sample_deposit : Tx :=
  mkTx 1 0 [mkTxIn (mkOutPoint (repeat x07 32) 1) [x51] seqFinal [] 0] [mkTxOut 1500000 sample_script] false false 0.
Definition sample_rpc : RPC := mkRPC
  (fun _ => inl (EncodeToString (Tx_Serialize sample_deposit)))
  (fun _ => inl (mkRawVerbose (Some 3) [(0, f64_of 1); (1, f64_of 2)]))
  (fun _ _ => Some 3).
Definition sample_verdict : DepositCheck := mkDepositCheck true 1500000 1500000 0 499774.

Lemma CheckDeposit_sound_witness :
  CheckDepositTransaction 1000000 sample_chain sample_rpc [] (EncodeToString sample_script) 1000000 2 = inl sample_verdict /\
  exists c, rpc_gettxout_confirmations sample_rpc [] 0 = Some c /\ 2 <= c.
Proof.
  assert (H : CheckDepositTransaction 1000000 sample_chain sample_rpc [] (EncodeToString sample_script) 1000000 2
    = inl sample_verdict) by (vm_compute; reflexivity).
  split; [exact H|].
  destruct (CheckDeposit_sound 1000000 sample_chain sample_rpc [] (EncodeToString sample_script) 1000000 2 sample_verdict H eq_refl)
    as (_ & _ & _ & _ & _ & _ & _ & _ & _ & _ & _ & _ & _ & _ & _ & Hc).
  exact (Hc 0 (or_introl eq_refl)).
Defined.
