(* ===== verification/Float.v ===== *)
(** * float64 conversions and formatting

    The conversions between [float64] and the 64-bit integers as an amd64
    processor makes them, also where the Go specification leaves the result to
    the implementation (a negative or too large value), and
    [strconv.FormatFloat] in the two formats the daemon uses: ['g'] with six
    significant digits and ['f'] with a fixed number of decimals.  Both round
    the exact binary value half to even. *)

From Stdlib Require Import SpecFloat.
From S2P Require Import Prelude Digits GoLib Price Wallet.

(** A constant expression [num/den] of exactly representable integers. *)
Definition f64_const (num den : Z) : f64 := f64_div (f64_of num) (f64_of den).

(** The exact value as a fraction: its sign, numerator and denominator. *)
Definition f64_frac (v : f64) : option (bool * Z * Z) :=
  match v with
  | S754_zero s => Some (s, 0, 1)
  | S754_finite s m e => Some (s, if 0 <=? e then Z.pos m * 2 ^ e else Z.pos m, if 0 <=? e then 1 else 2 ^ (- e))
  | _ => None
  end.

(** Truncation toward zero; [None] for an infinity or a NaN. *)
Definition f64_truncate (v : f64) : option Z :=
  '(s, num, den) ← f64_frac v; Some (if s : bool then - (num / den) else num / den).

(** [int64(v)]: CVTTSD2SQ answers the smallest integer when the value does not fit. *)
Definition f64_to_int64 (v : f64) : Z :=
  match f64_truncate v with
  | Some i => if (- 2 ^ 63 <=? i) && (i <? 2 ^ 63) then i else - 2 ^ 63
  | None => - 2 ^ 63
  end.

(** [uint64(v)]: below 2^63 the signed conversion, above it that of the rest with the top bit flipped. *)
Definition f64_to_uint64 (v : f64) : Z :=
  if f64_lt v (f64_of (2 ^ 63)) then wrap 64 (f64_to_int64 v)
  else Z.lxor (wrap 64 (f64_to_int64 (f64_sub v (f64_of (2 ^ 63))))) (2 ^ 63).

(** [num/den] to the nearest integer, ties to even. *)
Definition round_half_even (num den : Z) : Z :=
  let q := num / den in let r := num mod den in
  if (den <? 2 * r) || ((2 * r =? den) && Z.odd q) then q + 1 else q.

Definition pad_left (n : nat) (s : bytes) : bytes := repeat x30 (n - length s) ++ s.
Definition trim_zeros (s : bytes) : bytes :=
  rev ((fix go l := match l with a :: l' => if Byte.eqb a x30 then go l' else l | [] => [] end) (rev s)).

(** [strconv.FormatFloat(v, 'f', d, 64)] of a finite value. *)
Definition FormatFloat_f (d : nat) (v : f64) : bytes :=
  match f64_frac v with
  | Some (s, num, den) =>
      let n := round_half_even (num * 10 ^ Z.of_nat d) den in
      let ip := dec_string (n / 10 ^ Z.of_nat d) in
      (if s : bool then [x2d] else []) ++ ip ++
      (if (d =? 0)%nat then [] else x2e :: pad_left d (dec_string (n mod 10 ^ Z.of_nat d)))
  | None => bytes_of "NaN"
  end.

(** The power of ten of the leading digit of a positive fraction. *)
Fixpoint leading_power (fuel : nat) (num den k : Z) : Z :=
  match fuel with
  | O => k
  | S fuel => if num <? den then leading_power fuel (num * 10) den (k - 1)
              else if 10 * den <=? num then leading_power fuel num (den * 10) (k + 1)
              else k
  end.

(** Binary exponents lie between -1074 and 971, so that 400 powers of ten are enough. *)
Definition power_fuel : nat := 400.

(** [num/den] with [p] significant digits: the digits, without trailing zeros, and the power of the first. *)
Definition significant (p : nat) (num den : Z) : bytes * Z :=
  if num =? 0 then ([], -1)
  else
    let k := leading_power power_fuel num den 0 in
    let e := Z.of_nat p - 1 - k in
    let n := if 0 <=? e then round_half_even (num * 10 ^ e) den else round_half_even num (den * 10 ^ (- e)) in
    if n =? 10 ^ Z.of_nat p then ([x31], k + 1) else (trim_zeros (dec_string n), k).

(** [strconv.FormatFloat(v, 'g', p, 64)] of a finite value. *)
Definition FormatFloat_g (p : nat) (v : f64) : bytes :=
  match f64_frac v with
  | Some (s, num, den) =>
      let '(ds, k) := significant p num den in
      let nd := length ds in
      let eprec := if (nd <? p)%nat && (k + 1 <=? Z.of_nat nd) then Z.of_nat nd else Z.of_nat p in
      (if s : bool then [x2d] else []) ++
      if (k <? -4) || (eprec <=? k) then
        take 1 ds ++ (if (nd <=? 1)%nat then [] else x2e :: drop 1 ds) ++
        [x65; if k <? 0 then x2d else x2b] ++ pad_left 2 (dec_string (Z.abs k))
      else if k <? 0 then
        [x30] ++ (if (nd =? 0)%nat then [] else x2e :: repeat x30 (Z.to_nat (- k - 1)) ++ ds)
      else
        let ip := take (Z.to_nat (k + 1)) ds in
        ip ++ repeat x30 (Z.to_nat (k + 1) - length ip) ++
        (if (nd <=? Z.to_nat (k + 1))%nat then [] else x2e :: drop (Z.to_nat (k + 1)) ds)
  | None => bytes_of "NaN"
  end.

(** [float64(u) / 1e8], as the wallet reports whole coins. *)
Definition whole (u : Z) : f64 := f64_const u 100000000.

Example format_g :
  map (FormatFloat_g 6) [whole 0; whole 100000000; whole 1234567890; whole 150000000000000; whole 10000000; whole 1; whole 123456789;
                         whole 12345678912345; whole 99999950000000; whole 20000; f64_of 100000; f64_of 10] =
  map bytes_of ["0"; "1"; "12.3457"; "1.5e+06"; "0.1"; "1e-08"; "1.23457"; "123457"; "1e+06"; "0.0002"; "100000"; "10"]%string.
Proof. by vm_compute. Qed.

Example format_f :
  map (FormatFloat_f 6) [whole 0; whole 100000000; whole 123456789; whole 50; whole 150; whole 250; f64_const (-3) 2] =
  map bytes_of ["0.000000"; "1.000000"; "1.234568"; "0.000000"; "0.000002"; "0.000003"; "-1.500000"]%string.
Proof. by vm_compute. Qed.

Example conversions :
  f64_to_uint64 (f64_const 7 2) = 3 /\ f64_to_uint64 (f64_const (-1) 2) = 0 /\ f64_to_uint64 (f64_of (-1)) = 2 ^ 64 - 1 /\
  f64_to_uint64 (f64_of (2 ^ 63 + 2048)) = 2 ^ 63 + 2048 /\ f64_to_uint64 (f64_of (2 ^ 65)) = 0 /\
  f64_to_int64 (f64_const (-7) 2) = -3 /\ f64_to_int64 (f64_of (2 ^ 70)) = - 2 ^ 63.
Proof. by vm_compute. Qed.
