(* ===== verification/Deposit.v ===== *)
(** * Deposits, refunds and claims

    swap/deposit.go (the HTLC deposit), api/locktime.go, and the builders of
    api/swap.go and api/swap_retry.go that a worker runs on a snapshot of the
    session: the deposit with its pre-signed refund, the claim of the
    counterparty's deposit, and the extraction of the secret from the
    counterparty's claim.

    RIPEMD-160, secp256k1, the Unicode tables and the wallet are arguments;
    [clock] is [time.Now().Unix()] in the task. *)

From S2P Require Import Prelude Sha256 GoLib Hex Conf Coin Address Script Secp Tx Price Wallet.

(** ** Amounts and fees (api/handlers.go) *)

Definition coinScale : Z := 1000000.

Definition coinNativeScale (c : Coin) : Z := Nat.iter (Z.to_nat (Decimals c)) (fun nc => wrap 64 (nc * 10)) 1.

Definition toXBridgeAmt (c : Coin) (native : Z) : Z :=
  let nc := coinNativeScale c in
  let nc := if nc =? 0 then 1 else nc in
  wrap 64 (native * coinScale) / nc.

Definition fromXBridgeAmt (c : Coin) (xb : Z) : Z :=
  let nc := coinNativeScale c in
  let nc := if nc =? 0 then 1 else nc in
  wrap 64 (xb * nc) / coinScale.

Definition effectiveDust (cc : option CoinConf) : Z := match cc with Some c => cc_DustAmount c | None => 0 end.
Definition depositDustLimit (cc : option CoinConf) : Z := effectiveDust cc.

Definition estimateFee (cc : option CoinConf) (nIn nOut : Z) : Z :=
  let vsize := 192 * nIn + 34 * nOut in
  let fee := match cc with
             | Some c => if cc_FeePerByte c =? 0 then wrap 64 (vsize * 2) else wrap 64 (cc_FeePerByte c * wrap 64 vsize)
             | None => wrap 64 (vsize * 2)
             end in
  match cc with
  | Some c => if (0 <? cc_MinTxFee c) && (fee <? cc_MinTxFee c) then cc_MinTxFee c else fee
  | None => fee
  end.

(** ** Lock times (api/locktime.go, computeLockTimeFor) *)

Definition lockTimeThreshold : Z := 500000000.

Definition acceptableLockTimeDrift (ourLT theirLT blockTime : Z) : bool :=
  if (ourLT =? 0) || (lockTimeThreshold <=? ourLT) || (lockTimeThreshold <=? theirLT) then false
  else
    let diff := ourLT - theirLT in
    let drift := XLocktimeDriftSeconds in
    let mb := XMaxLockTimeDriftBlocks * blockTime in
    let drift := if drift <? mb then mb else drift in
    diff * blockTime <=? drift.

(** ** The deposit (swap/deposit.go) *)

Record DepositSpec := mkDepositSpec {
  ds_Currency : bytes;
  ds_Amount : Z;
  ds_DepositorPub : bytes;
  ds_CounterpartyPub : bytes;
  ds_Secret : bytes;
  ds_Hash : bytes;
  ds_LockTime : Z;
  ds_TxVersion : Z;
}.

Definition zeros (n : nat) : bytes := repeat x00 n.

(** [int32(v)] of an [int]. *)
Definition to_int32 (v : Z) : Z := int32 (wrap 32 v).

Section Spec.
Context (ripemd160 : bytes -> bytes).

Definition SecretHash (d : DepositSpec) : bytes :=
  if bool_decide (ds_Hash d <> zeros 20) then ds_Hash d else KeyID ripemd160 (ds_Secret d).

Definition RedeemScript (d : DepositSpec) : res bytes :=
  BuildDepositUnlockScript ripemd160 (ds_DepositorPub d) (ds_CounterpartyPub d) (SecretHash d) (ds_LockTime d).

Definition P2SHScript (d : DepositSpec) : res bytes :=
  r ← RedeemScript d; Ok (BuildP2SHScript (KeyID ripemd160 r)).

Fixpoint funding_ins (funding : list Utxo) : res (list TxIn) :=
  match funding with
  | [] => Ok []
  | u :: funding =>
      match reverseTxidHex (u_TxID u) with
      | None => Err "swap: bad txid"
      | Some h => ins ← funding_ins funding; Ok (mkTxIn (mkOutPoint h (u_Vout u)) [] 4294967295 [] 0 :: ins)
      end
  end.

Definition funding_total (funding : list Utxo) : Z := fold_left (fun t u => wrap 64 (t + u_Amount u)) funding 0.

Definition BuildDepositTx (d : DepositSpec) (c : Coin) (funding : list Utxo) (changeAddr : bytes)
    (fee fee2 dustLimit clock : Z) : res Tx :=
  if bool_decide (funding = []) then Err "swap: no funding UTXOs for deposit"
  else
    let total := funding_total funding in
    if total <? wrap 64 (ds_Amount d + fee + fee2) then Err "swap: funding insufficient for deposit + fees"
    else
      let ver := if ds_TxVersion d <=? 0 then 1 else ds_TxVersion d in
      ins ← funding_ins funding;
      script ← P2SHScript d;
      let change := wrap 64 (total - ds_Amount d - fee - fee2) in
      let outs := mkTxOut (wrap 64 (ds_Amount d + fee2)) script ::
        (if (0 <? change) && ((dustLimit =? 0) || (dustLimit <=? change))
         then [mkTxOut change (BuildP2PKHScript changeAddr)] else []) in
      Ok (mkTx (to_int32 ver) 0 ins outs false (TxWithTimeField c) (if TxWithTimeField c then wrap 32 clock else 0)).

End Spec.

(** ** The worker's snapshot of a session (swapCtx) *)

Record swapCtx := mkSwapCtx {
  x_isMaker : bool;
  x_srcCur : bytes;
  x_dstCur : bytes;
  x_srcAmt : Z;
  x_dstAmt : Z;
  x_ourSourceAddr : bytes;
  x_ourDestAddr : bytes;
  x_theirPub : bytes;
  x_privKey : bytes;
  x_pubKey : bytes;
  x_secret : bytes;
  x_secretHash : bytes;
  x_theirDepositTxID : bytes;
  x_theirLockTime : Z;
  x_theirSecretHash : bytes;
  x_theirDepositVout : Z;
  x_theirP2SHNative : Z;
  x_theirOverpayment : Z;
  x_ourDepositTxID : bytes;
  x_ourLockTime : Z;
  x_refundHex : bytes;
  x_connectors : gmap bytes Connector;
  x_confs : gmap bytes CoinConf;
  x_coinsMap : gmap bytes Coin;
  x_ourDepositP2SH : Z;
  x_funding : list Utxo;
}.
#[export] Instance eta_swapCtx : Eta swapCtx := fun r => mkSwapCtx (x_isMaker r) (x_srcCur r) (x_dstCur r) (x_srcAmt r)
  (x_dstAmt r) (x_ourSourceAddr r) (x_ourDestAddr r) (x_theirPub r) (x_privKey r) (x_pubKey r) (x_secret r) (x_secretHash r)
  (x_theirDepositTxID r) (x_theirLockTime r) (x_theirSecretHash r) (x_theirDepositVout r) (x_theirP2SHNative r)
  (x_theirOverpayment r) (x_ourDepositTxID r) (x_ourLockTime r) (x_refundHex r) (x_connectors r) (x_confs r) (x_coinsMap r)
  (x_ourDepositP2SH r) (x_funding r).

Record depositOutcome := mkDepositOutcome {
  do_txid : bytes;
  do_lockTime : Z;
  do_refundHex : bytes;
  do_depositHex : bytes;
  do_conn : Connector;
}.

Record confirmOutcome := mkConfirmOutcome {
  co_secret : bytes;
  co_payTxID : bytes;
  co_payHex : bytes;
  co_cur : bytes;
  co_check : DepositCheck;
  co_conn : Connector;
}.

Record createdBOutcome := mkCreatedBOutcome { cb_out : depositOutcome; cb_check : DepositCheck }.

(** Cancel reasons (api/cancel_reason.go) *)
Definition crBadADepositTx : Z := 14.
Definition crBadBDepositTx : Z := 15.
Definition crTimeout : Z := 16.
Definition crBadALockTime : Z := 18.
Definition crBadBLockTime : Z := 19.

Definition ownDepositVout : Z := 0.

Definition x_conf (c : swapCtx) (cur : bytes) : option CoinConf := x_confs c !! cur.
Definition x_coin (c : swapCtx) (cur : bytes) : option Coin := x_coinsMap c !! cur.
Definition x_connector (c : swapCtx) (cur : bytes) : option Connector := x_connectors c !! cur.

Definition txVersion (c : swapCtx) (cur : bytes) : Z :=
  match x_conf c cur with
  | Some cc => if cc_TxVersion cc <=? 0 then 1 else cc_TxVersion cc
  | None => 1
  end.

Definition minConf (cc : option CoinConf) : Z := match cc with Some cc => cc_Confirmations cc | None => 0 end.

Definition blockTimeFor (c : swapCtx) (cur : bytes) : Z :=
  match x_conf c cur with
  | Some cc => if 0 <? cc_BlockTime cc then wrap 32 (cc_BlockTime cc) else 60
  | None => 60
  end.

(** 0 stands for a failure. *)
Definition computeLockTimeFor (c : swapCtx) (cur : bytes) (isMaker : bool) : Z :=
  match x_connector c cur with
  | None => 0
  | Some conn =>
      match GetBlockCount conn with
      | inr _ => 0
      | inl n =>
          if n <? 1 then 0
          else
            let bt := match x_conf c cur with
                      | Some cc => if 0 <? cc_BlockTime cc then cc_BlockTime cc else 60
                      | None => 60
                      end in
            let target := if isMaker then XMakerLocktimeTargetSeconds
                          else if XSlowBlockTimeSeconds <=? bt then XSlowTakerLocktimeTargetSeconds
                          else XTakerLocktimeTargetSeconds in
            let blocks := target / bt in
            let blocks := if blocks <? XMinLockTimeBlocks then XMinLockTimeBlocks else blocks in
            wrap 32 (wrap 32 n + wrap 32 blocks)
      end
  end.

Definition computeLockTime (c : swapCtx) (isMaker : bool) : Z := computeLockTimeFor c (x_srcCur c) isMaker.

(** The coin's nTime stamp of a transaction built by the api package: from the configuration. *)
Definition conf_time (c : swapCtx) (cur : bytes) : bool :=
  match x_conf c cur with Some cc => cc_TxWithTimeField cc | None => false end.

Section Tasks.
Context (ripemd160 : bytes -> bytes) {secp : Secp} (uni : Unicode) (mem clock : Z).

(** [copy(h[:], a.Hash)] into a [[20]byte]. *)
Definition hash20 (a : Address) : bytes := take 20 (A_Hash a ++ zeros 20).

Definition destScript (c : swapCtx) (cur addrStr : bytes) : wres bytes :=
  coin ← of_option (x_coin c cur);
  a ← of_res (decodeAddress uni coin addrStr);
  inl (BuildP2PKHScript (hash20 a)).

(** The refund spends output 0 of the deposit and pays the nominal amount. *)
Definition buildRefundTx (c : swapCtx) (spec : DepositSpec) (cur : bytes) : wres bytes :=
  coin ← of_option (x_coin c cur);
  dest ← destScript c cur (x_ourSourceAddr c);
  if x_ourDepositP2SH c =? 0 then fail
  else
    h ← of_option (reverseTxidHex (x_ourDepositTxID c));
    inner ← of_res (RedeemScript ripemd160 spec);
    let tx (ss : bytes) := mkTx (to_int32 (txVersion c cur)) (ds_LockTime spec)
      [mkTxIn (mkOutPoint h 0) ss 4294967294 [] 0] [mkTxOut (ds_Amount spec) dest]
      false (conf_time c cur) (if conf_time c cur then wrap 32 clock else 0) in
    sig ← of_res (SignTxInputForCoin (tx []) 0 inner (x_ourDepositP2SH c) (x_privKey c) coin);
    inl (EncodeToString (Tx_Serialize (tx (BuildRefundScriptSig sig (ds_DepositorPub spec) inner)))).

(** The first of the largest funding outputs. *)
Definition largest_utxo (u : Utxo) (funding : list Utxo) : Utxo :=
  fold_left (fun largest u => if u_Amount largest <? u_Amount u then u else largest) funding u.

Definition changeHash (coin : Coin) (conn : Connector) (funding : list Utxo) : wres bytes :=
  match funding with
  | [] => fail
  | u :: rest =>
      match decodeAddress uni coin (u_Address (largest_utxo u rest)) with
      | Ok a => inl (hash20 a)
      | Panic => fail
      | Err _ =>
          changeStr ← GetNewAddress conn;
          a ← of_res (decodeAddress uni coin changeStr);
          inl (hash20 a)
      end
  end.

Definition prev_txs (funding : list Utxo) : list PrevTx :=
  map (fun u => mkPrevTx (u_TxID u) (u_Vout u) (u_ScriptPubKey u) (u_Amount u)) funding.

Definition deposit_spec (c : swapCtx) (isMaker : bool) (coin : Coin) (lockTime : Z) : DepositSpec :=
  mkDepositSpec (x_srcCur c) (fromXBridgeAmt coin (x_srcAmt c)) (x_pubKey c) (x_theirPub c) (zeros 33)
    (if isMaker then x_secretHash c else x_theirSecretHash c) lockTime (txVersion c (x_srcCur c)).

Definition buildDeposit (c : swapCtx) (isMaker : bool) : wres depositOutcome :=
  let cur := x_srcCur c in
  conn ← of_option (x_connector c cur);
  cc ← of_option (x_conf c cur);
  coin ← of_option (x_coin c cur);
  let funding := x_funding c in
  if bool_decide (funding = []) then fail
  else
    let lockTime := computeLockTime c isMaker in
    if lockTime =? 0 then fail
    else
      change ← changeHash coin conn funding;
      let fee := estimateFee (Some cc) (zlen funding) 3 in
      let fee2 := estimateFee (Some cc) 1 1 in
      let spec := deposit_spec c isMaker coin lockTime in
      tx ← of_res (BuildDepositTx ripemd160 spec coin funding change fee fee2 (depositDustLimit (Some cc)) clock);
      out0 ← of_option (head (tx_Outputs tx));
      '(signed, complete) ← SignRawTransaction conn (EncodeToString (Tx_Serialize tx)) (prev_txs funding);
      if negb complete then fail
      else
        localTxID ← of_option (txIDFromHex signed);
        let c := c <| x_ourDepositP2SH := out_Value out0 |> <| x_ourDepositTxID := localTxID |> <| x_ourLockTime := lockTime |> in
        refundHex ← buildRefundTx c spec cur;
        inl (mkDepositOutcome localTxID lockTime refundHex signed conn).

Definition confirmDepositKnownByRawTx (conn : Connector) (txid : bytes) (vout : Z) (scriptHex : bytes) (value minConf : Z) : bool :=
  match GetRawTransactionVerbose conn txid with
  | inr _ => false
  | inl vtx =>
      (if 0 <? minConf then vt_HasConfirmations vtx && (minConf <=? vt_Confirmations vtx)
       else negb (vt_HasConfirmations vtx && (vt_Confirmations vtx <? 0))) &&
      match vt_Outputs vtx !! vout with
      | Some out => (vo_Value out =? value) && bool_decide (vo_ScriptHex out = scriptHex)
      | None => false
      end
  end.

Definition their_spec (c : swapCtx) (depositCoin : Coin) : DepositSpec :=
  mkDepositSpec (x_dstCur c) (fromXBridgeAmt depositCoin (x_dstAmt c)) (x_theirPub c) (x_pubKey c) (zeros 33)
    (if x_isMaker c then x_secretHash c else x_theirSecretHash c) (x_theirLockTime c) 0.

(** The re-check that the deposit is unspent; its error is not-ready for a backend that failed. *)
Definition unspent_check (c : swapCtx) (spec : DepositSpec) : wres unit :=
  let cur := x_dstCur c in
  match x_connector c cur with
  | None => inl tt
  | Some conn =>
      match GetTxOut conn (x_theirDepositTxID c) (x_theirDepositVout c) with
      | inl (Some _) => inl tt
      | inl None => fail
      | inr gerr =>
          scriptHex ← of_res (EncodeToString <$> P2SHScript ripemd160 spec);
          let degraded := bool_decide (err_Code gerr = Some (-5)) &&
            confirmDepositKnownByRawTx conn (x_theirDepositTxID c) (x_theirDepositVout c) scriptHex
              (x_theirP2SHNative c) (minConf (x_conf c cur)) in
          require degraded (mkError true (if err_NotReady gerr then err_Seen gerr else true) (err_Code gerr) None)
      end
  end.

Definition claim_payout (amount p2shNative fee : Z) : Z :=
  if wrap 64 (amount + fee) <? p2shNative then wrap 64 (p2shNative - fee) else amount.

Definition redeemCounterparty (c : swapCtx) : wres (bytes * bytes) :=
  let cur := x_dstCur c in
  depositCoin ← of_option (x_coin c cur);
  let spec := their_spec c depositCoin in
  dest ← destScript c cur (x_ourDestAddr c);
  let fee := estimateFee (x_conf c cur) 1 1 in
  let p2shNative := x_theirP2SHNative c in
  if p2shNative =? 0 then fail
  else if p2shNative <=? fee then fail
  else
    _ ← unspent_check c spec;
    h ← of_option (reverseTxidHex (x_theirDepositTxID c));
    inner ← of_res (RedeemScript ripemd160 spec);
    let tx (ss : bytes) := mkTx (to_int32 (txVersion c cur)) 0
      [mkTxIn (mkOutPoint h (x_theirDepositVout c)) ss 4294967295 [] 0]
      [mkTxOut (claim_payout (ds_Amount spec) p2shNative fee) dest]
      false (conf_time c cur) (if conf_time c cur then wrap 32 clock else 0) in
    sig ← of_res (SignTxInputForCoin (tx []) 0 inner p2shNative (x_privKey c) depositCoin);
    inl (EncodeToString (Tx_Serialize (tx (BuildPaymentScriptSig (x_secret c) sig (x_pubKey c) inner))), cur).

Definition counterpartyDepositScriptHex (c : swapCtx) (hash : bytes) : res bytes :=
  EncodeToString <$> P2SHScript ripemd160
    (mkDepositSpec (x_dstCur c) 0 (x_theirPub c) (x_pubKey c) (zeros 33) hash (x_theirLockTime c) 0).

Definition checkCounterpartyDeposit (c : swapCtx) (hash : bytes) (expectedAmount : Z) : wres DepositCheck :=
  conn ← of_option (x_connector c (x_dstCur c));
  scriptHex ← of_res (counterpartyDepositScriptHex c hash);
  CheckDeposit conn (x_theirDepositTxID c) scriptHex expectedAmount (minConf (x_conf c (x_dstCur c))).

(** The first input that spends the outpoint and pushes a preimage. *)
Fixpoint secret_from_ins (ins : list TxIn) (depHash : bytes) (depVout : Z) (hx : bytes) : option bytes :=
  match ins with
  | [] => None
  | i :: ins =>
      if negb (bool_decide (op_Hash (in_PrevOut i) = depHash)) || negb (op_Index (in_PrevOut i) =? depVout)
      then secret_from_ins ins depHash depVout hx
      else match secretFromScriptSig ripemd160 (in_ScriptSig i) hx with
           | Some s => Some s
           | None => secret_from_ins ins depHash depVout hx
           end
  end.

(** A panic of the parser is the worker's: the task fails. *)
Definition secretFromPayTx (payHex hx : bytes) (hasTime : bool) (depTxID : bytes) (depVout : Z) : option bytes :=
  raw ← DecodeString payHex;
  match DeserializeWithTime mem raw hasTime with
  | Ok tx =>
      if bool_decide (tx_Inputs tx = []) then None
      else
        depHash ← reverseTxidHex depTxID;
        secret_from_ins (tx_Inputs tx) depHash depVout hx
  | _ => None
  end.

(** ** The worker tasks (api/swap_retry.go) *)

Definition makerDepositBuildTask (c : swapCtx) : wres depositOutcome := buildDeposit c true.

(** The guards the taker's deposit and the maker's claim share: the lock time
    of the counterparty's deposit, and the verdict on it. *)
Definition checked_deposit (c : swapCtx) (expectMaker : bool) (hash : bytes) (badLock badDeposit : Z) : wres DepositCheck :=
  let expLT := computeLockTimeFor c (x_dstCur c) expectMaker in
  if expLT =? 0 then fail
  else
    _ ← require (acceptableLockTimeDrift expLT (x_theirLockTime c) (blockTimeFor c (x_dstCur c))) (self_cancel badLock);
    dcheck ← checkCounterpartyDeposit c hash (x_dstAmt c);
    _ ← require (dc_IsGood dcheck) (self_cancel badDeposit);
    inl dcheck.

Definition takerDepositBuildTask (c : swapCtx) : wres createdBOutcome :=
  dcheck ← checked_deposit c true (x_theirSecretHash c) crBadALockTime crBadADepositTx;
  let c := c <| x_theirDepositVout := dc_DepositVout dcheck |> <| x_theirP2SHNative := dc_P2SHNative dcheck |>
             <| x_theirOverpayment := dc_Excess dcheck |> in
  out ← buildDeposit c false;
  inl (mkCreatedBOutcome out dcheck).

Definition claim_outcome (c : swapCtx) (secret : bytes) (check : DepositCheck) : wres confirmOutcome :=
  '(payHex, cur) ← redeemCounterparty c;
  conn ← of_option (x_connector c cur);
  payID ← of_option (txIDFromHex payHex);
  inl (mkConfirmOutcome secret payID payHex cur check conn).

Definition makerClaimBuildTask (c : swapCtx) : wres confirmOutcome :=
  dcheck ← checked_deposit c false (x_secretHash c) crBadBLockTime crBadBDepositTx;
  let c := c <| x_theirDepositVout := dc_DepositVout dcheck |> <| x_theirP2SHNative := dc_P2SHNative dcheck |> in
  claim_outcome c (zeros 33) dcheck.

Definition takerClaimBuildTask (c : swapCtx) (payTxID : bytes) : wres confirmOutcome :=
  conn ← of_option (x_connector c (x_srcCur c));
  payHex ← match GetRawTransaction conn payTxID with
           | inl p => inl p
           | inr e => inr (if bool_decide (err_Code e = Some (-5)) then unseen else e)
           end;
  secret ← of_option (secretFromPayTx payHex (x_theirSecretHash c) (conf_time c (x_srcCur c)) (x_ourDepositTxID c) ownDepositVout);
  claim_outcome (c <| x_secret := secret |>) secret (mkDepositCheck false 0 0 0 0).

End Tasks.
