(* ===== verification/DepositLaws.v ===== *)
(** * What deposits, refunds and claims guarantee

    The theorems about the builders of Deposit.v: amounts, lock times, the
    deposit transaction, and the three transactions of a swap put together: the
    refund and the claim spend the deposit under the script's conditions, and
    the claim gives the secret to the other side. *)

From S2P Require Import Prelude Sha256 Codec Wire Packet Digits GoLib Hex Conf Coin Base58 Address Script Secp Tx Price.
From S2P Require Import Wallet Deposit.

(** ** Scales *)

Lemma coinNativeScale_pow c : 0 <= Decimals c <= 19 -> coinNativeScale c = 10 ^ Decimals c.
Proof.
  intros [H0 H]. unfold coinNativeScale. rewrite <- (Z2Nat.id (Decimals c)) at 2 by done.
  assert (Z.to_nat (Decimals c) <= 19)%nat as Hn by lia. revert Hn. generalize (Z.to_nat (Decimals c)) as n. clear.
  induction n as [|n IH]; intros Hn; [done|]. cbn [Nat.iter nat_rect] in *. 
  change (wrap 64 (Nat.iter n (fun nc : Z => wrap 64 (nc * 10)) 1 * 10) = 10 ^ Z.of_nat (S n)).
  rewrite IH by lia. rewrite Nat2Z.inj_succ, Z.pow_succ_r by lia.
  rewrite wrap_small; [lia|]. split; [lia|].
  apply Z.le_lt_trans with (10 ^ 18 * 10); [|done]. apply Z.mul_le_mono_nonneg_r; [done|]. apply Z.pow_le_mono_r; lia.
Qed.

(** Converting an order amount (millionths of a coin) to the coin's base units
    is right exactly while the product with the scale fits 64 bits: for a coin
    of 8 decimals that is up to 184,467.440737 coins, far below the protocol's
    limit of 100,000,000. Above it the deposit locks a smaller amount. Within
    the bound a coin of 6 decimals or more converts back to the same amount. *)
Theorem fromXBridgeAmt_exact (c : Coin) (xb : Z) (Hd : 0 <= Decimals c <= 19) (Hxb : u64_ok xb) :
  let intended := xb * 10 ^ Decimals c / 1000000 in
  (fromXBridgeAmt c xb = intended <-> xb * 10 ^ Decimals c < 2 ^ 64) /\
  fromXBridgeAmt c xb <= intended /\
  (6 <= Decimals c -> xb * 10 ^ Decimals c < 2 ^ 64 -> toXBridgeAmt c (fromXBridgeAmt c xb) = xb).
Proof.
  cbv zeta. unfold fromXBridgeAmt, toXBridgeAmt. rewrite coinNativeScale_pow by done.
  assert (0 < 10 ^ Decimals c) as Hpos by (apply Z.pow_pos_nonneg; lia).
  rewrite (proj2 (Z.eqb_neq _ _)) by lia. unfold u64_ok, uint_ok in Hxb.
  set (p := xb * 10 ^ Decimals c) in *. assert (0 <= p) as Hp by (unfold p; nia).
  assert (wrap 64 p <= p) as Hle by (apply Z.mod_le; lia).
  split; [split|split].
  - intros H. destruct (Z.lt_ge_cases p (2 ^ 64)) as [|Hge]; [done|]. exfalso.
    assert (wrap 64 p + 1000000 <= p) as Hlt.
    { unfold wrap. rewrite Z.mod_eq by lia. assert (1 <= p / 2 ^ 64) by (apply Z.div_le_lower_bound; lia). nia. }
    assert ((wrap 64 p + 1 * 1000000) / 1000000 <= p / 1000000) as Hx by (apply Z.div_le_mono; lia).
    rewrite Z.div_add in Hx by lia. unfold coinScale in H. lia.
  - intros H. rewrite wrap_small by (split; lia). done.
  - apply Z.div_le_mono; [done|done].
  - intros H6 Hlt. rewrite (wrap_small 64 p) by (split; lia).
    assert (p = xb * 10 ^ (Decimals c - 6) * 1000000) as Heq.
    { unfold p. replace (Decimals c) with (Decimals c - 6 + 6) at 1 by lia. rewrite Z.pow_add_r by lia. lia. }
    unfold coinScale. rewrite Heq at 1. rewrite Z.div_mul by lia. rewrite <- Heq.
    rewrite wrap_small by (split; lia). unfold p. by apply Z.div_mul; lia.
Qed.

Definition btc : Coin := sample_coin.

Lemma fromXBridgeAmt_exact_witness :
  toXBridgeAmt btc (fromXBridgeAmt btc 184467440737) = 184467440737 /\
  fromXBridgeAmt btc 200000000000 <> 200000000000 * 10 ^ 8 / 1000000.
Proof.
  split.
  - apply (fromXBridgeAmt_exact btc 184467440737); by vm_compute.
  - assert (0 <= Decimals btc <= 19) as Hd by by vm_compute.
    assert (u64_ok 200000000000) as Hx by done.
    intros H. apply (fromXBridgeAmt_exact btc 200000000000 Hd Hx) in H. by vm_compute in H.
Defined.

(** ** Lock times *)

(** A coin the admission gates let through, and the height its wallet reports. *)
Definition admitted (c : swapCtx) (cur : bytes) (bt h : Z) : Prop :=
  exists cc conn, x_confs c !! cur = Some cc /\ Admit cc = Ok tt /\ cc_BlockTime cc = bt /\ bt < 2 ^ 60 /\
    x_connectors c !! cur = Some conn /\ GetBlockCount conn = inl h /\ 1 <= h < 2 ^ 31.

Lemma admit_block_time cc : Admit cc = Ok tt -> cc_BlockTime cc < 2 ^ 60 -> 1 <= cc_BlockTime cc <= 300 \/ cc_BlockTime cc = 600.
Proof.
  intros H Hbt. unfold Admit, errf, XMinLockTimeBlocks, XMakerLocktimeTargetSeconds, XTakerLocktimeTargetSeconds,
    XSlowTakerLocktimeTargetSeconds, XSlowBlockTimeSeconds in H.
  destruct (Z.ltb_spec (cc_BlockTime cc) 0); [done|]. destruct (cc_Confirmations cc <? 0); [done|]. cbn [orb] in H.
  destruct (Z.eqb_spec (cc_BlockTime cc) 0); [by rewrite orb_true_r in H|].
  destruct (_ || _ || _ || _); [done|]. rewrite swrap64_small in H by lia.
  destruct (Z.ltb_spec 7200 (cc_BlockTime cc * 6)); [done|].
  destruct (Z.ltb_spec (cc_BlockTime cc) 600), (Z.leb_spec 600 (cc_BlockTime cc)); try lia; cbn [andb] in H.
  - destruct (Z.ltb_spec 1800 (cc_BlockTime cc * 6)); [done|]. lia.
  - destruct (Z.ltb_spec 3600 (cc_BlockTime cc * 6)); [done|]. lia.
Qed.

(** The number of blocks a role locks for at a block time. *)
Definition lock_blocks (isMaker : bool) (bt : Z) : Z :=
  Z.max 6 ((if isMaker then 7200 else if 600 <=? bt then 3600 else 1800) / bt).

Lemma lock_blocks_bound isMaker bt : 1 <= bt -> 6 <= lock_blocks isMaker bt <= 7200.
Proof.
  intros Hbt. unfold lock_blocks.
  assert (forall t, 0 <= t <= 7200 -> t / bt <= 7200) as Ht.
  { intros t Ht. transitivity t; [|lia]. apply Z.div_le_upper_bound; nia. }
  destruct isMaker, (600 <=? bt); pose proof (Ht 7200); pose proof (Ht 3600); pose proof (Ht 1800); lia.
Qed.

Lemma computeLockTimeFor_eq c cur isMaker bt h :
  admitted c cur bt h -> computeLockTimeFor c cur isMaker = h + lock_blocks isMaker bt /\ blockTimeFor c cur = bt /\
    (1 <= bt <= 300 \/ bt = 600).
Proof.
  intros (cc & conn & Hcc & Hadm & Hbt & Hbig & Hconn & Hh & Hr).
  pose proof (admit_block_time cc Hadm ltac:(lia)) as Hb.
  unfold computeLockTimeFor, blockTimeFor, x_connector, x_conf. rewrite Hconn, Hcc, Hh, Hbt.
  rewrite (proj2 (Z.ltb_ge h 1)), (proj2 (Z.ltb_lt 0 bt)) by lia.
  rewrite (wrap_small 32 bt) by (split; lia). split; [|split; [done|lia]].
  unfold XMakerLocktimeTargetSeconds, XSlowBlockTimeSeconds, XSlowTakerLocktimeTargetSeconds, XTakerLocktimeTargetSeconds, XMinLockTimeBlocks.
  set (q := _ / bt).
  replace (if q <? 6 then 6 else q) with (lock_blocks isMaker bt).
  - pose proof (lock_blocks_bound isMaker bt ltac:(lia)).
    rewrite (wrap_small 32 h), (wrap_small 32 (lock_blocks _ _)) by (split; lia). rewrite wrap_small by (split; lia). done.
  - unfold lock_blocks, q. destruct (Z.ltb_spec ((if isMaker then 7200 else if 600 <=? bt then 3600 else 1800) / bt) 6); lia.
Qed.

(** The lock, in seconds at the nominal block time. *)
Lemma lock_seconds bt : 1 <= bt <= 300 \/ bt = 600 ->
  6901 <= lock_blocks true bt * bt /\ lock_blocks false bt * bt <= 3600 /\
  516 + Z.max 900 (4 * bt) <= lock_blocks false bt * bt.
Proof.
  intros Hbt. unfold lock_blocks.
  pose proof (Z.div_mod 7200 bt ltac:(lia)). pose proof (Z.mod_pos_bound 7200 bt ltac:(lia)).
  pose proof (Z.div_mod 1800 bt ltac:(lia)). pose proof (Z.mod_pos_bound 1800 bt ltac:(lia)).
  destruct Hbt as [Hbt|Hbt]; [|by subst].
  destruct (Z.leb_spec 600 bt); [lia|].
  assert (7200 / bt * bt <= Z.max 6 (7200 / bt) * bt) by (apply Z.mul_le_mono_nonneg_r; lia).
  assert (6 <= 1800 / bt) as H6 by (apply Z.div_le_lower_bound; lia). rewrite (Z.max_r 6 (1800 / bt)) by lia.
  set (q := 1800 / bt) in *. rewrite (Z.mul_comm q bt).
  split_and!; [lia|lia|].
  destruct (Z.le_gt_cases bt 225); [lia|]. rewrite Z.max_r by lia.
  destruct (Z.le_gt_cases q 6); [assert (q = 6) as -> by lia; lia|].
  assert (bt * 7 <= bt * q) by (apply Z.mul_le_mono_nonneg_l; lia). lia.
Qed.

Lemma drift_seconds our their bt :
  0 <= bt -> acceptableLockTimeDrift our their bt = true -> (our - their) * bt <= Z.max 900 (4 * bt).
Proof.
  intros Hbt. unfold acceptableLockTimeDrift. destruct (_ || _); [done|].
  change XLocktimeDriftSeconds with 900. change XMaxLockTimeDriftBlocks with 4.
  destruct (Z.ltb_spec 900 (4 * bt)); intros Hle%Z.leb_le; lia.
Qed.

Lemma checked_deposit_inl rip c m hash r1 r2 dc :
  checked_deposit rip c m hash r1 r2 = inl dc ->
  acceptableLockTimeDrift (computeLockTimeFor c (x_dstCur c) m) (x_theirLockTime c) (blockTimeFor c (x_dstCur c)) = true /\
  checkCounterpartyDeposit rip c hash (x_dstAmt c) = inl dc /\ dc_IsGood dc = true.
Proof.
  unfold checked_deposit. destruct (_ =? 0); [done|]. intros H. wres_inv H. injection H as ->.
  apply require_inl in Hx, Hx1. done.
Qed.

Section Margins.
Context (rip : bytes -> bytes) {secp : Secp} (uni : Unicode) (mem clock : Z).

Lemma buildDeposit_lockTime c isMaker out :
  buildDeposit rip uni clock c isMaker = inl out -> do_lockTime out = computeLockTime c isMaker.
Proof.
  unfold buildDeposit. intros H. wres_inv H. case_bool_decide; [done|].
  destruct (_ =? 0); [done|]. wres_inv H. destruct x5 as [signed complete]. destruct complete; [|done]. cbn [negb] in H.
  wres_inv H. by injection H as <-.
Qed.

End Margins.

(** C9. The order of the two refunds. For admitted coins, at nominal block times
    from the heights the wallets report: whenever the taker's task builds a
    deposit, the maker's refund comes at least 1,200 seconds after the taker's
    own, and whenever the maker's task builds its claim, the taker's refund is
    at least 516 seconds away. *)
Theorem lock_margins (rip : bytes -> bytes) {secp : Secp} (uni : Unicode) (mem clock : Z)
    (c : swapCtx) (bt_s h_s bt_d h_d : Z) :
  admitted c (x_srcCur c) bt_s h_s -> admitted c (x_dstCur c) bt_d h_d ->
  (forall out, takerDepositBuildTask rip uni clock c = inl out ->
     (do_lockTime (cb_out out) - h_s) * bt_s + 1200 <= (x_theirLockTime c - h_d) * bt_d) /\
  (forall out, makerClaimBuildTask rip uni clock c = inl out ->
     516 <= (x_theirLockTime c - h_d) * bt_d).
Proof.
  intros Hs Hd. split; intros out H; unfold takerDepositBuildTask, makerClaimBuildTask in H; wres_inv H.
  - apply checked_deposit_inl in Hx as (Hdrift & _ & _). cbv zeta in H. wres_inv H. injection H as <-. cbn [cb_out].
    apply buildDeposit_lockTime in Hx0. rewrite Hx0. unfold computeLockTime; cbn.
    destruct (computeLockTimeFor_eq c (x_dstCur c) true bt_d h_d Hd) as (E1 & E2 & Hbd). rewrite E1, E2 in Hdrift.
    assert (computeLockTimeFor (c <| x_theirDepositVout := dc_DepositVout x |> <| x_theirP2SHNative := dc_P2SHNative x |>
      <| x_theirOverpayment := dc_Excess x |>) (x_srcCur c) false = computeLockTimeFor c (x_srcCur c) false) as -> by done.
    destruct (computeLockTimeFor_eq c (x_srcCur c) false bt_s h_s Hs) as (E3 & _ & Hbs). rewrite E3.
    apply drift_seconds in Hdrift; [|lia].
    destruct (lock_seconds bt_d Hbd) as (? & _ & _), (lock_seconds bt_s Hbs) as (_ & ? & _). nia.
  - apply checked_deposit_inl in Hx as (Hdrift & _ & _).
    destruct (computeLockTimeFor_eq c (x_dstCur c) false bt_d h_d Hd) as (E1 & E2 & Hbd). rewrite E1, E2 in Hdrift.
    apply drift_seconds in Hdrift; [|lia]. destruct (lock_seconds bt_d Hbd) as (_ & _ & ?). nia.
Qed.

(** ** The deposit transaction *)

Definition sum_amounts (l : list Z) : Z := fold_right Z.add 0 l.
Definition funding_sum (funding : list Utxo) : Z := sum_amounts (map u_Amount funding).
Definition outputs_sum (t : Tx) : Z := sum_amounts (map out_Value (tx_Outputs t)).

Lemma funding_total_sum funding :
  Forall (fun u => 0 <= u_Amount u) funding -> funding_sum funding < 2 ^ 64 -> funding_total funding = funding_sum funding.
Proof.
  unfold funding_total. assert (forall t, 0 <= t -> Forall (fun u => 0 <= u_Amount u) funding -> t + funding_sum funding < 2 ^ 64 ->
    fold_left (fun t u => wrap 64 (t + u_Amount u)) funding t = t + funding_sum funding) as H; [|intros; rewrite H; [lia|done..|lia]].
  unfold funding_sum, sum_amounts. induction funding as [|u l IH]; intros t Ht Hf Hs; cbn in *; [lia|].
  apply Forall_cons in Hf as [Hu Hf].
  assert (0 <= foldr Z.add 0 (map u_Amount l)) as Hl by (clear -Hf; induction Hf; cbn; lia).
  rewrite wrap_small by (split; lia). rewrite IH; [lia|lia|done|lia].
Qed.

Lemma funding_ins_ok funding ins :
  funding_ins funding = Ok ins ->
  Forall2 (fun u i => reverseTxidHex (u_TxID u) = Some (op_Hash (in_PrevOut i)) /\ op_Index (in_PrevOut i) = u_Vout u /\
    in_Sequence i = seqFinal) funding ins.
Proof.
  revert ins. induction funding as [|u l IH]; intros ins H; cbn in H; [injection H as <-; constructor|].
  destruct (reverseTxidHex (u_TxID u)) as [h|] eqn:E; [|done].
  apply res_bind_ok in H as (ins' & Hi & H). injection H as <-. constructor; [done|by apply IH].
Qed.

Lemma funding_ins_total funding :
  Forall (fun u => is_Some (reverseTxidHex (u_TxID u))) funding <-> exists ins, funding_ins funding = Ok ins.
Proof.
  induction funding as [|u l IH]; cbn; [split; [by eexists|by constructor]|]. rewrite Forall_cons, IH.
  destruct (reverseTxidHex (u_TxID u)) as [h|].
  - split; [intros [_ [ins ->]]; by eexists|]. intros [ins H]. apply res_bind_ok in H as (i & Hi & _). eauto.
  - split; [by intros [[? ?] _]|by intros [? ?]].
Qed.

(** C22. A deposit transaction, when the sums fit into 64 bits: it is built exactly
    when there is funding that covers the amount and both fees, whose ids
    decode, and the script of the deposit can be built.  It spends that funding
    with final sequences; output 0 is the P2SH of the deposit script with the
    amount and the redeem fee; the rest after the fee, unless it is nothing or
    below the dust limit, is the only other output, to the key hash of the
    change address; nothing else is lost. *)
Theorem BuildDepositTx_conserves (rip : bytes -> bytes) (d : DepositSpec) (coin : Coin) (funding : list Utxo)
    (change : bytes) (fee fee2 dust clock : Z)
    (Hf : Forall (fun u => 0 <= u_Amount u) funding) (Hsum : funding_sum funding < 2 ^ 64)
    (Hpos : 0 <= ds_Amount d /\ 0 <= fee /\ 0 <= fee2 /\ 0 <= dust) (Hneed : ds_Amount d + fee + fee2 < 2 ^ 64) :
  let need := ds_Amount d + fee + fee2 in
  let rest := funding_sum funding - need in
  let paid := (0 <? rest) && ((dust =? 0) || (dust <=? rest)) in
  ((exists tx, BuildDepositTx rip d coin funding change fee fee2 dust clock = Ok tx) <->
    funding <> [] /\ need <= funding_sum funding /\ Forall (fun u => is_Some (reverseTxidHex (u_TxID u))) funding /\
    exists redeem, RedeemScript rip d = Ok redeem) /\
  forall tx, BuildDepositTx rip d coin funding change fee fee2 dust clock = Ok tx ->
    Forall2 (fun u i => reverseTxidHex (u_TxID u) = Some (op_Hash (in_PrevOut i)) /\ op_Index (in_PrevOut i) = u_Vout u /\
      in_Sequence i = seqFinal) funding (tx_Inputs tx) /\
    (exists redeem, RedeemScript rip d = Ok redeem /\
      tx_Outputs tx = mkTxOut (ds_Amount d + fee2) (BuildP2SHScript (KeyID rip redeem)) ::
        (if paid then [mkTxOut rest (BuildP2PKHScript change)] else [])) /\
    funding_sum funding = outputs_sum tx + fee + (if paid then 0 else rest) /\ (paid = false -> 0 <= rest < Z.max 1 dust) /\
    tx_LockTime tx = 0.
Proof.
  intros need rest paid. unfold BuildDepositTx. rewrite funding_total_sum by done.
  rewrite (wrap_small 64 (ds_Amount d + fee + fee2)) by (split; lia). fold need. case_bool_decide as He.
  { split; [|done]. split; [by intros [? ?]|by intros [? _]]. }
  destruct (Z.ltb_spec (funding_sum funding) need) as [Hlt|Hge].
  { split; [|done]. split; [by intros [? ?]|]. intros (_ & ? & _). lia. }
  split.
  - rewrite funding_ins_total. unfold P2SHScript. destruct (funding_ins funding) as [ins|e|]; cbn; [|split; [by intros [? ?]|by intros (_ & _ & [? ?] & _)]..].
    destruct (RedeemScript rip d) as [redeem|e|]; cbn; [|split; [by intros [? ?]|by intros (_ & _ & _ & [? ?])]..].
    split; [eauto 6|by eexists].
  - intros tx Hb. apply res_bind_ok in Hb as (ins & Hins & Hb). apply res_bind_ok in Hb as (script & Hscript & Hb).
    cbv zeta in Hb. injection Hb as <-. cbn [tx_Inputs tx_Outputs tx_LockTime].
    apply res_bind_ok in Hscript as (redeem & Hred & Hs). injection Hs as <-.
    replace (funding_sum funding - ds_Amount d - fee - fee2) with rest by (unfold rest, need; lia).
    rewrite (wrap_small 64 rest), (wrap_small 64 (ds_Amount d + fee2)) by (split; lia). fold paid.
    split; [by apply funding_ins_ok|]. split; [by exists redeem|]. unfold outputs_sum. cbn [tx_Outputs].
    split; [|split; [|done]].
    + destruct paid; cbn; unfold rest, need; lia.
    + unfold paid. intros Hp. destruct (Z.ltb_spec 0 rest); cbn [andb] in Hp; [|lia].
      apply orb_false_iff in Hp as [_ Hp]. apply Z.leb_gt in Hp. lia.
Qed.

(** ** Spending the deposit *)

(** The signature check of input 0 of a transaction of a coin, for the interpreter. *)
Definition coin_checksig {secp : Secp} (tx : Tx) (script : bytes) (amount : Z) (coin : Coin) (sig pub : bytes) : bool :=
  match (match signature coin with
         | SigForkID => VerifyTxInputForkID tx 0 script pub amount (forkValue coin) sig
         | SigLegacy => VerifyTxInput tx 0 script pub sig
         end) with Ok b => b | _ => false end.

(** Two transactions that differ in the script of their only input have the same hashes. *)
Definition one_in (ver lt : Z) (o : OutPoint) (seq : Z) (outs : list TxOut) (wt : bool) (t : Z) (ss : bytes) : Tx :=
  mkTx ver lt [mkTxIn o ss seq [] 0] outs false wt t.

Lemma sign_for_coin {secp : Secp} (laws : SecpLaws) (priv : bytes) (Hp : valid_priv priv) ver lt o seq outs wt t script amount coin ss :
  exists s, SignTxInputForCoin (one_in ver lt o seq outs wt t []) 0 script amount priv coin = Ok s /\ zlen s <= 73 /\
    coin_checksig (one_in ver lt o seq outs wt t ss) script amount coin s (pub_of priv) = true.
Proof.
  unfold SignTxInputForCoin, coin_checksig. destruct (signature coin).
  - destruct (legacy_ok priv Hp (one_in ver lt o seq outs wt t []) 0 script) as [H1 H2].
    eexists. split; [exact H1|]. split; [apply sig_of_zlen|].
    assert (VerifyTxInput (one_in ver lt o seq outs wt t ss) 0 script = VerifyTxInput (one_in ver lt o seq outs wt t []) 0 script) as -> by done.
    by rewrite H2.
  - destruct (forkid_ok priv Hp (one_in ver lt o seq outs wt t []) 0 script amount (forkValue coin)) as (h & H1 & H2); [by split|].
    eexists. split; [exact H1|]. split; [apply sig_of_zlen|].
    assert (VerifyTxInputForkID (one_in ver lt o seq outs wt t ss) 0 script = VerifyTxInputForkID (one_in ver lt o seq outs wt t []) 0 script) as -> by done.
    by rewrite H2.
Qed.

Lemma pushData_zlen d : zlen (pushData d) <= zlen d + 5.
Proof.
  unfold pushData. pose proof (zlen_nonneg d). repeat case_match; unfold op_byte; rewrite ?zlen_app, ?zlen_le_split; unfold zlen in *; cbn [length]; lia.
Qed.

Lemma pushNum_zlen n b : 0 <= n < 2 ^ 32 -> pushNum n = Ok b -> zlen b <= 10.
Proof.
  intros Hn Hb. destruct (Z.leb_spec n 16).
  - unfold pushNum in Hb. rewrite (proj2 (Z.eqb_neq n (-1))) in Hb by lia.
    destruct (Z.eqb_spec n 0); [by injection Hb as <-|].
    rewrite (proj2 (Z.leb_le 1 n)), (proj2 (Z.leb_le n 16)) in Hb by lia. by injection Hb as <-.
  - rewrite pushNum_eq in Hb by lia. injection Hb as <-.
    pose proof (num_bytes_length n 4 Hn). pose proof (pushData_zlen (Interp.num_bytes n)). lia.
Qed.

Lemma deposit_script_zlen rip my other sh lt inner :
  (forall b, zlen (rip b) = 20) -> 0 <= lt < 2 ^ 32 -> BuildDepositUnlockScript rip my other sh lt = Ok inner ->
  zlen inner <= 100 + zlen sh.
Proof.
  intros Hrip Hlt Hb. unfold BuildDepositUnlockScript in Hb. cbv zeta in Hb.
  apply res_bind_ok in Hb as (l & Hl & Hb). apply res_bind_ok in Hb as (sz & Hsz & Hb). injection Hb as <-.
  apply pushNum_zlen in Hl, Hsz; [|lia|done].
  pose proof (pushData_zlen (KeyID rip my)) as H1. pose proof (pushData_zlen (KeyID rip other)) as H2.
  pose proof (pushData_zlen sh) as H3. unfold KeyID in *. rewrite Hrip in H1, H2.
  assert (forall o, zlen (op_byte o) = 1) as Hop by done.
  repeat first [rewrite zlen_app | rewrite zlen_cons]. rewrite Hop. lia.
Qed.

Lemma to_int32_range v : - 2 ^ 31 <= to_int32 v < 2 ^ 31.
Proof.
  unfold to_int32, int32. pose proof (wrap_ok 32 v ltac:(lia)) as H. unfold uint_ok in H.
  destruct (Z.ltb_spec (wrap 32 v) (2 ^ 31)); lia.
Qed.

Lemma hash20_zlen a : zlen (hash20 a) = 20.
Proof.
  unfold hash20. assert (length (A_Hash a ++ zeros 20) >= 20)%nat by (rewrite length_app; cbn; lia).
  unfold zlen. rewrite length_take. lia.
Qed.

Lemma p2pkh_zlen a : zlen (BuildP2PKHScript (hash20 a)) <= 40.
Proof.
  unfold BuildP2PKHScript. pose proof (pushData_zlen (hash20 a)). rewrite hash20_zlen in *. rewrite !zlen_app. unfold op_byte.
  change (zlen [byte.of_Z OpDup]) with 1. change (zlen [byte.of_Z OpHash160]) with 1.
  change (zlen [byte.of_Z OpEqualVerify]) with 1. change (zlen [byte.of_Z OpCheckSig]) with 1. lia.
Qed.

(** The transactions the builders make: one input, one output, in range. *)
Lemma one_in_parses mem ver lt o seq v script wt t ss :
  2 ^ 27 <= mem -> u32_ok lt -> OutPoint_wf o -> u32_ok seq -> u64_ok v -> zlen script <= 40 -> zlen ss <= 1000 ->
  DeserializeWithTime mem (Tx_Serialize (one_in (to_int32 ver) lt o seq [mkTxOut v script] wt (if wt then wrap 32 t else 0) ss)) wt
  = Ok (one_in (to_int32 ver) lt o seq [mkTxOut v script] wt (if wt then wrap 32 t else 0) ss).
Proof.
  intros Hmem Hlt [Ho Hov] Hseq Hv Hscript Hss. set (T := one_in _ _ _ _ _ _ _ _).
  apply (deserialize_serialize mem T).
  - unfold Tx_wf, T, one_in; cbn. split; [apply to_int32_range|]. split; [done|].
    change (Z.of_nat (length [mkTxIn o ss seq [] 0])) with 1.
    split_and!; [by vm_compute| |by vm_compute| | |by repeat constructor].
    + constructor; [|done]. split; [done|]. split; [done|]. split; [done|]. unfold small. cbn. lia.
    + constructor; [|done]. split; [done|]. unfold small. cbn. lia.
    + destruct wt; [apply wrap_ok; lia|done].
  - done.
  - unfold Tx_Serialize, T, one_in. cbn [tx_Version tx_WithTime tx_SegWit tx_Inputs tx_Outputs tx_LockTime tx_TxTime map concat].
    unfold in_bytes, out_bytes, outpoint_bytes, var_bytes. cbn [in_PrevOut in_ScriptSig in_Sequence out_Value out_ScriptPubKey].
    assert (forall n, 0 <= n -> zlen (varInt n) <= 9) as Hvi.
    { intros n Hn. unfold varInt. repeat case_match; rewrite ?zlen_cons, ?zlen_le_split; unfold zlen; cbn; lia. }
    pose proof (Hvi (zlen ss) (zlen_nonneg _)). pose proof (Hvi (zlen script) (zlen_nonneg _)).
    pose proof (Hvi (zlen [mkTxIn o ss seq [] 0]) (zlen_nonneg _)). pose proof (Hvi (zlen [mkTxOut v script]) (zlen_nonneg _)).
    destruct wt; rewrite !zlen_app, !zlen_le_split; change (zlen (@nil byte)) with 0; lia.
  - unfold looks_segwit, T, one_in. cbn. done.
Qed.

(** ** Refund and claim *)

Section Swap.
Context (rip : bytes -> bytes) (Hrip : forall b, zlen (rip b) = 20).
Context {secp : Secp} (laws : SecpLaws) (uni : Unicode) (mem clock : Z) (Hmem : 2 ^ 27 <= mem).

(** The session's keys, as the constructors of a session set them. *)
Definition own_keys (c : swapCtx) : Prop :=
  valid_priv (x_privKey c) /\ x_pubKey c = pub_of (x_privKey c) /\ zlen (x_theirPub c) = 33.

Lemma pub_of_zlen priv : zlen (pub_of priv) = 33.
Proof. apply SerializeCompressed_length. Qed.

Lemma computeLockTimeFor_u32 c cur m : u32_ok (computeLockTimeFor c cur m).
Proof.
  unfold computeLockTimeFor. destruct (x_connector c cur) as [conn|]; [|done].
  destruct (GetBlockCount conn) as [n|]; [|done]. destruct (n <? 1); [done|]. apply wrap_ok. lia.
Qed.

(** A refund of a deposit: the unsigned deposit and its output 0, the hash of
    the signed one that the refund spends, and the conditions under which the
    refund's input script spends that output. *)
Lemma buildDeposit_inv c isMaker out :
  buildDeposit rip uni clock c isMaker = inl out ->
  exists conn cc coin change tx out0 signed raw,
    x_connectors c !! x_srcCur c = Some conn /\ x_confs c !! x_srcCur c = Some cc /\ x_coinsMap c !! x_srcCur c = Some coin /\
    do_lockTime out = computeLockTime c isMaker /\ do_lockTime out <> 0 /\
    BuildDepositTx rip (deposit_spec c isMaker coin (do_lockTime out)) coin (x_funding c) change
      (estimateFee (Some cc) (zlen (x_funding c)) 3) (estimateFee (Some cc) 1 1) (cc_DustAmount cc) clock = Ok tx /\
    head (tx_Outputs tx) = Some out0 /\
    SignRawTransaction conn (EncodeToString (Tx_Serialize tx)) (prev_txs (x_funding c)) = inl (signed, true) /\
    DecodeString signed = Some raw /\ do_depositHex out = signed /\ do_txid out = txIDFromBytes raw /\
    buildRefundTx rip uni clock (c <| x_ourDepositP2SH := out_Value out0 |> <| x_ourDepositTxID := do_txid out |>
      <| x_ourLockTime := do_lockTime out |>) (deposit_spec c isMaker coin (do_lockTime out)) (x_srcCur c) = inl (do_refundHex out).
Proof.
  unfold buildDeposit. intros H. wres_inv H. case_bool_decide; [done|].
  destruct (computeLockTime c isMaker =? 0) eqn:Hlt; [done|]. wres_inv H.
  destruct x5 as [signed complete]. destruct complete; [|done]. cbn [negb] in H.
  wres_inv H. injection H as <-. cbn [do_lockTime do_txid do_refundHex do_depositHex].
  apply of_option_inl in Hx, Hx0, Hx1, Hx4, Hx6. apply of_res_inl in Hx3.
  unfold txIDFromHex in Hx6. destruct (DecodeString signed) as [raw|] eqn:Hraw; [|done]. cbn in Hx6. injection Hx6 as <-.
  apply Z.eqb_neq in Hlt.
  exists x, x0, x1, x2, x3, x4, signed, raw. split_and!; done.
Qed.

Lemma deposit_spec_hash c isMaker coin lt :
  SecretHash rip (deposit_spec c isMaker coin lt) = KeyID rip (zeros 33) \/
  SecretHash rip (deposit_spec c isMaker coin lt) = (if isMaker then x_secretHash c else x_theirSecretHash c).
Proof. unfold SecretHash. cbn. case_bool_decide; [by right|by left]. Qed.

Lemma buildRefundTx_spends c spec cur refundHex :
  own_keys c -> ds_DepositorPub spec = x_pubKey c -> u32_ok (ds_LockTime spec) -> zlen (SecretHash rip spec) <= 75 ->
  buildRefundTx rip uni clock c spec cur = inl refundHex ->
  exists coin h redeem ss dest R, x_coinsMap c !! cur = Some coin /\ reverseTxidHex (x_ourDepositTxID c) = Some h /\
    RedeemScript rip spec = Ok redeem /\ destScript uni c cur (x_ourSourceAddr c) = inl dest /\
    refundHex = EncodeToString (Tx_Serialize R) /\ tx_LockTime R = ds_LockTime spec /\
    tx_Inputs R = [mkTxIn (mkOutPoint h 0) ss 4294967294 [] 0] /\ tx_Outputs R = [mkTxOut (ds_Amount spec) dest] /\
    forall lt, Interp.spends_p2sh (coin_checksig R redeem (x_ourDepositP2SH c) coin) lt 4294967294 (KeyID rip) (KeyID rip redeem) ss
      = Interp.cltv_ok lt 4294967294 (ds_LockTime spec).
Proof.
  intros (Hpriv & Hpub & _) Hdep Hlt Hhash H. unfold buildRefundTx in H. wres_inv H.
  destruct (_ =? 0); [done|]. cbv zeta in H. wres_inv H. injection H as <-.
  apply of_option_inl in Hx, Hx1. apply of_res_inl in Hx2, Hx3.
  change (mkTx (to_int32 (txVersion c cur)) (ds_LockTime spec) [mkTxIn (mkOutPoint x1 0) [] 4294967294 [] 0]
    [mkTxOut (ds_Amount spec) x0] false (conf_time c cur) (if conf_time c cur then wrap 32 clock else 0))
    with (one_in (to_int32 (txVersion c cur)) (ds_LockTime spec) (mkOutPoint x1 0) 4294967294 [mkTxOut (ds_Amount spec) x0]
      (conf_time c cur) (if conf_time c cur then wrap 32 clock else 0) []) in Hx3.
  destruct (sign_for_coin laws (x_privKey c) Hpriv (to_int32 (txVersion c cur)) (ds_LockTime spec) (mkOutPoint x1 0) 4294967294
    [mkTxOut (ds_Amount spec) x0] (conf_time c cur) (if conf_time c cur then wrap 32 clock else 0) x2 (x_ourDepositP2SH c) x
    (BuildRefundScriptSig x3 (ds_DepositorPub spec) x2)) as (s & Hs & Hlen & Hver).
  rewrite Hs in Hx3. injection Hx3 as ->.
  exists x, x1, x2, (BuildRefundScriptSig x3 (ds_DepositorPub spec) x2), x0. eexists.
  split_and!; try done; cbn; try done. intros lt.
  unfold RedeemScript in Hx2.
  destruct (builders_spend rip (coin_checksig (one_in (to_int32 (txVersion c cur)) (ds_LockTime spec) (mkOutPoint x1 0) 4294967294
      [mkTxOut (ds_Amount spec) x0] (conf_time c cur) (if conf_time c cur then wrap 32 clock else 0)
      (BuildRefundScriptSig x3 (ds_DepositorPub spec) x2)) x2 (x_ourDepositP2SH c) x) lt 4294967294
    (ds_DepositorPub spec) (ds_CounterpartyPub spec) (SecretHash rip spec) x2 x3 (ds_DepositorPub spec) (zeros 33) (ds_LockTime spec)
    Hrip Hlt ltac:(lia)) as [Hr _]; [|done|].
  - pose proof (deposit_script_zlen rip _ _ _ _ _ Hrip Hlt Hx2). rewrite Hdep, Hpub, pub_of_zlen.
    change (zlen (zeros 33)) with 33. lia.
  - apply eq_true_iff_eq. rewrite Hr. split; [by intros (_ & _ & ?)|]. intros Hc.
    split; [done|]. split; [|done]. by rewrite Hdep, Hpub.
Qed.

(** The claim of the counterparty's deposit. *)
Lemma scan_pushed_secret hx secret rest :
  zlen secret = 33 -> KeyID rip secret = hx -> secretFromScriptSig rip (pushData secret ++ rest) hx = Some secret.
Proof.
  intros Hl Hk. unfold pushData. rewrite Hl. cbn [Z.eqb Pos.eqb Z.leb Z.compare Pos.compare Pos.compare_cont].
  unfold secretFromScriptSig, op_byte. cbn [app length scan_secret]. change (byte.unsigned (byte.of_Z 33)) with 33.
  cbn [Z.leb Z.compare Pos.compare Pos.compare_cont].
  rewrite zlen_app, Hl. rewrite (proj2 (Z.ltb_ge (33 + zlen rest) 33)) by (pose proof (zlen_nonneg rest); lia).
  rewrite take_drop_app_len by (unfold zlen in Hl; lia). rewrite Z.eqb_refl. cbn [andb]. by rewrite bool_decide_true.
Qed.

Lemma amount_u64 coin a : u64_ok (fromXBridgeAmt coin a).
Proof.
  unfold fromXBridgeAmt, coinScale. cbv zeta. set (w := wrap 64 _).
  assert (uint_ok 64 w) as Hw by (apply wrap_ok; lia). unfold u64_ok, uint_ok in *.
  split; [apply Z.div_pos; lia|]. apply Z.le_lt_trans with w; [|lia]. apply Z.div_le_upper_bound; lia.
Qed.

Lemma payout_u64 coin a p fee : u64_ok (claim_payout (fromXBridgeAmt coin a) p fee).
Proof. unfold claim_payout. destruct (_ <? _); [apply wrap_ok; lia|apply amount_u64]. Qed.

(** What makes a snapshot able to claim: its keys, an out-point in range, and
    the secret behind the hash of the deposit it claims. *)
Definition can_claim (c : swapCtx) (secret : bytes) : Prop :=
  own_keys c /\ u32_ok (x_theirDepositVout c) /\ u32_ok (x_theirLockTime c) /\ zlen secret = 33 /\
  KeyID rip secret = (if x_isMaker c then x_secretHash c else x_theirSecretHash c).

Lemma their_hash c secret coin : can_claim c secret -> SecretHash rip (their_spec c coin) = KeyID rip secret \/ KeyID rip secret = zeros 20.
Proof.
  intros (_ & _ & _ & _ & Hk). unfold SecretHash. cbn [their_spec ds_Hash].
  case_bool_decide as Hz; rewrite Hk; [by left|]. right. by destruct (decide ((if x_isMaker c then x_secretHash c else x_theirSecretHash c) = zeros 20)).
Qed.

Lemma redeem_spends c payHex cur :
  can_claim c (x_secret c) -> KeyID rip (x_secret c) <> zeros 20 ->
  redeemCounterparty rip uni clock c = inl (payHex, cur) ->
  exists coin h redeem ss dest T, cur = x_dstCur c /\ x_coinsMap c !! cur = Some coin /\
    reverseTxidHex (x_theirDepositTxID c) = Some h /\ RedeemScript rip (their_spec c coin) = Ok redeem /\
    payHex = EncodeToString (Tx_Serialize T) /\
    tx_Inputs T = [mkTxIn (mkOutPoint h (x_theirDepositVout c)) ss 4294967295 [] 0] /\
    tx_Outputs T = [mkTxOut (claim_payout (fromXBridgeAmt coin (x_dstAmt c)) (x_theirP2SHNative c)
      (estimateFee (x_confs c !! cur) 1 1)) dest] /\
    (forall lt, Interp.spends_p2sh (coin_checksig T redeem (x_theirP2SHNative c) coin) lt 4294967295 (KeyID rip) (KeyID rip redeem) ss = true) /\
    secretFromPayTx rip mem payHex (KeyID rip (x_secret c)) (conf_time c cur) (x_theirDepositTxID c) (x_theirDepositVout c) = Some (x_secret c).
Proof.
  intros Hcan Hz H. pose proof Hcan as ((Hpriv & Hpub & Hther) & Hvout & Hlt & Hs33 & Hk).
  unfold redeemCounterparty in H. wres_inv H. cbv zeta in H. destruct (_ =? 0); [done|]. destruct (_ <=? _); [done|]. wres_inv H.
  injection H as <- <-. apply of_option_inl in Hx, Hx2. apply of_res_inl in Hx3, Hx4.
  destruct (their_hash c (x_secret c) x Hcan) as [Hh|]; [|done].
  change (ds_Amount (their_spec c x)) with (fromXBridgeAmt x (x_dstAmt c)) in *.
  set (v := claim_payout _ _ _) in *. set (mk := one_in (to_int32 (txVersion c (x_dstCur c))) 0 (mkOutPoint x2 (x_theirDepositVout c)) 4294967295
    [mkTxOut v x0] (conf_time c (x_dstCur c)) (if conf_time c (x_dstCur c) then wrap 32 clock else 0)).
  change (SignTxInputForCoin (mk []) 0 x3 (x_theirP2SHNative c) (x_privKey c) x = Ok x4) in Hx4.
  set (ss := BuildPaymentScriptSig (x_secret c) x4 (x_pubKey c) x3).
  destruct (sign_for_coin laws (x_privKey c) Hpriv (to_int32 (txVersion c (x_dstCur c))) 0 (mkOutPoint x2 (x_theirDepositVout c)) 4294967295
    [mkTxOut v x0] (conf_time c (x_dstCur c)) (if conf_time c (x_dstCur c) then wrap 32 clock else 0) x3 (x_theirP2SHNative c) x ss) as (s & Hs & Hlen & Hver).
  fold mk in Hs, Hver. rewrite Hs in Hx4. injection Hx4 as ->.
  pose proof Hx3 as Hb. unfold RedeemScript in Hb. rewrite Hh in Hb. cbn [their_spec ds_LockTime ds_DepositorPub ds_CounterpartyPub] in Hb.
  assert (zlen (KeyID rip (x_secret c)) = 20) as Hh20 by apply Hrip.
  pose proof (deposit_script_zlen rip _ _ _ _ _ Hrip Hlt Hb) as Hinner.
  assert (zlen (x_pubKey c) = 33) as Hp33 by (rewrite Hpub; apply pub_of_zlen).
  assert (zlen ss <= 1000) as Hss.
  { unfold ss, BuildPaymentScriptSig. pose proof (pushData_zlen (x_secret c)). pose proof (pushData_zlen x4).
    pose proof (pushData_zlen (x_pubKey c)). pose proof (pushData_zlen x3).
    rewrite !zlen_app. change (zlen (op_byte Op0)) with 1. lia. }
  exists x, x2, x3, ss, x0, (mk ss). split_and!; try done.
  - intros lt. destruct (builders_spend rip (coin_checksig (mk ss) x3 (x_theirP2SHNative c) x) lt 4294967295
      (x_theirPub c) (x_pubKey c) (KeyID rip (x_secret c)) x3 x4 (x_pubKey c) (x_secret c) (x_theirLockTime c)
      Hrip Hlt ltac:(lia)) as [_ Hp]; [lia|done|]. apply Hp. split_and!; try done. by rewrite Hpub.
  - unfold secretFromPayTx. change (EncodeToString _) with (EncodeToString (Tx_Serialize (mk ss))). rewrite hex_roundtrip. cbn [mbind option_bind].
    assert (exists a, x0 = BuildP2PKHScript (hash20 a)) as [a ->].
    { unfold destScript in Hx0. wres_inv Hx0. injection Hx0 as <-. eauto. }
    unfold mk. rewrite one_in_parses; [|done|done|split; [by eapply reverseTxidHex_length|done]|done|apply payout_u64|apply p2pkh_zlen|done].
    cbn [tx_Inputs one_in]. rewrite bool_decide_eq_false_2 by done. rewrite Hx2. cbn [mbind option_bind secret_from_ins in_PrevOut op_Hash op_Index in_ScriptSig].
    rewrite bool_decide_true by done. rewrite Z.eqb_refl. cbn [negb orb].
    unfold ss, BuildPaymentScriptSig. by rewrite scan_pushed_secret.
Qed.
End Swap.

Lemma deposit_spec_hash_zlen (rip : bytes -> bytes) (Hrip : forall b, zlen (rip b) = 20) (c : swapCtx) (isMaker : bool) (coin : Coin) (lt : Z) :
  zlen (if isMaker then x_secretHash c else x_theirSecretHash c) = 20 -> zlen (SecretHash rip (deposit_spec c isMaker coin lt)) <= 75.
Proof.
  intros H. destruct (deposit_spec_hash rip c isMaker coin lt) as [-> | ->]; [|lia]. unfold KeyID. rewrite Hrip. lia.
Qed.

(** C7. A deposit never leaves without its refund. When the task that builds a
    deposit succeeds, the unsigned deposit pays the P2SH of its script on output
    0; the refund is a transaction that spends output 0 of the signed deposit,
    carries the deposit's lock time, pays the nominal amount to the depositor's
    address, and whose input script spends that P2SH exactly from the lock time
    on (in the script semantics, with the daemon's own signature check). *)
Theorem deposit_refundable (rip : bytes -> bytes) `{laws : SecpLaws} (uni : Unicode) (clock : Z) (c : swapCtx) (isMaker : bool)
    (out : depositOutcome) (Hrip : forall b, zlen (rip b) = 20) (Hkeys : own_keys c)
    (Hhash : zlen (if isMaker then x_secretHash c else x_theirSecretHash c) = 20)
    (Hb : buildDeposit rip uni clock c isMaker = inl out) :
  exists conn cc coin change tx out0 redeem raw R ss dest,
    x_connectors c !! x_srcCur c = Some conn /\ x_confs c !! x_srcCur c = Some cc /\ x_coinsMap c !! x_srcCur c = Some coin /\
    BuildDepositTx rip (deposit_spec c isMaker coin (do_lockTime out)) coin (x_funding c) change
      (estimateFee (Some cc) (zlen (x_funding c)) 3) (estimateFee (Some cc) 1 1) (cc_DustAmount cc) clock = Ok tx /\
    RedeemScript rip (deposit_spec c isMaker coin (do_lockTime out)) = Ok redeem /\
    head (tx_Outputs tx) = Some out0 /\ out_ScriptPubKey out0 = BuildP2SHScript (KeyID rip redeem) /\
    SignRawTransaction conn (EncodeToString (Tx_Serialize tx)) (prev_txs (x_funding c)) = inl (do_depositHex out, true) /\
    DecodeString (do_depositHex out) = Some raw /\ do_txid out = txIDFromBytes raw /\
    do_refundHex out = EncodeToString (Tx_Serialize R) /\ 0 < do_lockTime out < 2 ^ 32 /\ tx_LockTime R = do_lockTime out /\
    tx_Inputs R = [mkTxIn (mkOutPoint (Sum256 (Sum256 raw)) 0) ss 4294967294 [] 0] /\
    destScript uni c (x_srcCur c) (x_ourSourceAddr c) = inl dest /\
    tx_Outputs R = [mkTxOut (fromXBridgeAmt coin (x_srcAmt c)) dest] /\
    forall lt, Interp.spends_p2sh (coin_checksig R redeem (out_Value out0) coin) lt 4294967294 (KeyID rip) (KeyID rip redeem) ss
      = Interp.cltv_ok lt 4294967294 (do_lockTime out).
Proof.
  destruct (buildDeposit_inv rip uni clock c isMaker out Hb) as
    (conn & cc & coin & change & tx & out0 & signed & raw & Hconn & Hcc & Hcoin & Hlt & Hnz & Htx & Ho0 & Hsign & Hraw & -> & Hid & Href).
  assert (0 < do_lockTime out < 2 ^ 32) as Hlt32.
  { pose proof (computeLockTimeFor_u32 c (x_srcCur c) isMaker) as Hu. unfold u32_ok, uint_ok, computeLockTime in *. lia. }
  apply (buildRefundTx_spends rip Hrip laws) in Href as (coin' & h & redeem & ss & dest & R & Hcoin' & Hh & Hred & Hdest & HR & HRlt & HRin & HRout & Hspend);
    [|done|done|unfold u32_ok, uint_ok; cbn; lia|by apply deposit_spec_hash_zlen].
  change (x_coinsMap c !! x_srcCur c = Some coin') in Hcoin'. change (reverseTxidHex (do_txid out) = Some h) in Hh.
  rewrite Hcoin in Hcoin'. injection Hcoin' as <-. rewrite Hid, txid_outpoint in Hh. injection Hh as <-.
  exists conn, cc, coin, change, tx, out0, redeem, raw, R, ss, dest. split_and!; try done; [|lia|lia].
  unfold BuildDepositTx in Htx. case_bool_decide; [done|]. destruct (_ <? _); [done|].
  apply res_bind_ok in Htx as (ins & _ & Htx). apply res_bind_ok in Htx as (script & Hscript & Htx). cbv zeta in Htx. injection Htx as <-.
  cbn in Ho0. injection Ho0 as <-. cbn. unfold P2SHScript in Hscript. rewrite Hred in Hscript. by injection Hscript as <-.
Qed.

(** What the claiming side [c] knows of the deposit [out] that [d] built: the keys,
    the hash, the lock time and the id of the deposit. *)
Record knows (d : swapCtx) (isMaker : bool) (out : depositOutcome) (c : swapCtx) : Prop := {
  kn_side : x_isMaker c = negb isMaker;
  kn_theirs : x_theirPub c = x_pubKey d;
  kn_ours : x_pubKey c = x_theirPub d;
  kn_hash : (if x_isMaker c then x_secretHash c else x_theirSecretHash c) = (if isMaker then x_secretHash d else x_theirSecretHash d);
  kn_lockTime : x_theirLockTime c = do_lockTime out;
  kn_txid : x_theirDepositTxID c = do_txid out;
}.

(** The two sides of a swap when the maker claims: each knows the other's deposit,
    and the maker knows the secret of the hash the taker adopted. *)
Record counterparts (rip : bytes -> bytes) {secp : Secp} (dm dt : depositOutcome) (m t cm ct : swapCtx) : Prop := {
  cp_maker : knows t false dt cm;
  cp_taker : knows m true dm ct;
  cp_ourTxid : x_ourDepositTxID ct = do_txid dt;
  cp_keys : own_keys cm /\ own_keys ct;
  cp_secret : zlen (x_secret cm) = 33 /\ KeyID rip (x_secret cm) = x_secretHash cm /\ x_secretHash cm <> zeros 20;
  cp_hash : x_theirSecretHash ct = x_secretHash cm;
  cp_time : conf_time cm (x_dstCur cm) = conf_time ct (x_srcCur ct);
  cp_vout : u32_ok (x_theirDepositVout ct);
}.

(** The deposit [out] of [d]: output 0 of the unsigned transaction is the P2SH of
    [redeem], and [raw] is the transaction as the wallet signed it. *)
Definition deposit_pays (rip : bytes -> bytes) (clock : Z) (d : swapCtx) (isMaker : bool) (out : depositOutcome) (redeem raw : bytes) : Prop :=
  exists conn cc coin change tx v,
    BuildDepositTx rip (deposit_spec d isMaker coin (do_lockTime out)) coin (x_funding d) change
      (estimateFee (Some cc) (zlen (x_funding d)) 3) (estimateFee (Some cc) 1 1) (cc_DustAmount cc) clock = Ok tx /\
    RedeemScript rip (deposit_spec d isMaker coin (do_lockTime out)) = Ok redeem /\
    head (tx_Outputs tx) = Some (mkTxOut v (BuildP2SHScript (KeyID rip redeem))) /\
    SignRawTransaction conn (EncodeToString (Tx_Serialize tx)) (prev_txs (x_funding d)) = inl (do_depositHex out, true) /\
    DecodeString (do_depositHex out) = Some raw /\ do_txid out = txIDFromBytes raw.

(** The claim [hex] has one input, the output [vout] of [raw], and its input script
    spends the P2SH of [redeem] whatever the time. *)
Definition claim_spends (rip : bytes -> bytes) {secp : Secp} (hex raw redeem : bytes) (vout : Z) : Prop :=
  exists T ss amount coin, hex = EncodeToString (Tx_Serialize T) /\
    tx_Inputs T = [mkTxIn (mkOutPoint (Sum256 (Sum256 raw)) vout) ss 4294967295 [] 0] /\
    forall lt, Interp.spends_p2sh (coin_checksig T redeem amount coin) lt 4294967295 (KeyID rip) (KeyID rip redeem) ss = true.

Lemma buildDeposit_pays rip {secp : Secp} uni clock d isMaker out : buildDeposit rip uni clock d isMaker = inl out ->
  u32_ok (do_lockTime out) /\ exists redeem raw, deposit_pays rip clock d isMaker out redeem raw.
Proof.
  intros H. destruct (buildDeposit_inv rip uni clock d isMaker out H) as
    (conn & cc & coin & change & tx & out0 & signed & raw & _ & _ & _ & Hlt & _ & Htx & Ho0 & Hsign & Hraw & Hd & Hid & _).
  split; [rewrite Hlt; apply computeLockTimeFor_u32|].
  pose proof Htx as Hb. unfold BuildDepositTx in Hb. case_bool_decide as Hf; [done|]. destruct (_ <? _); [done|].
  apply res_bind_ok in Hb as (ins & _ & Hb). apply res_bind_ok in Hb as (script & Hscript & Hb). cbv zeta in Hb. injection Hb as <-.
  unfold P2SHScript in Hscript. apply res_bind_ok in Hscript as (redeem & Hred & Hs). injection Hs as <-.
  exists redeem, raw, conn, cc, coin, change. eexists _, _. split_and!; [exact Htx|done|reflexivity|by rewrite Hd|by rewrite Hd|done].
Qed.

(** The script the claiming side builds for itself is the script of the deposit. *)
Lemma same_script rip d isMaker out c coin coin' : knows d isMaker out c ->
  RedeemScript rip (their_spec c coin) = RedeemScript rip (deposit_spec d isMaker coin' (do_lockTime out)).
Proof. intros [Hs Ht Ho Hh Hl _]. unfold RedeemScript, SecretHash. cbn. by rewrite Ht, Ho, Hh, Hl. Qed.

Lemma claim_outcome_inl rip {secp : Secp} uni clock c secret check out :
  claim_outcome rip uni clock c secret check = inl out ->
  redeemCounterparty rip uni clock c = inl (co_payHex out, co_cur out) /\ co_secret out = secret /\ co_check out = check /\
  txIDFromHex (co_payHex out) = Some (co_payTxID out).
Proof.
  unfold claim_outcome. intros H. wres_inv H. destruct x as [payHex cur]. wres_inv H. injection H as <-.
  apply of_option_inl in Hx1. done.
Qed.

Lemma takerClaim_step rip {secp : Secp} uni mem clock ct conn id hex secret :
  x_connectors ct !! x_srcCur ct = Some conn -> GetRawTransaction conn id = inl hex ->
  secretFromPayTx rip mem hex (x_theirSecretHash ct) (conf_time ct (x_srcCur ct)) (x_ourDepositTxID ct) ownDepositVout = Some secret ->
  takerClaimBuildTask rip uni mem clock ct id =
    claim_outcome rip uni clock (ct <| x_secret := secret |>) secret (mkDepositCheck false 0 0 0 0).
Proof.
  intros Hconn Hraw Hsec. unfold takerClaimBuildTask, x_connector. rewrite Hconn. cbn [of_option mbind wres_bind].
  rewrite Hraw. cbn [mbind wres_bind]. by rewrite Hsec.
Qed.

(** A claim of the other side's deposit. *)
Lemma claims_deposit (rip : bytes -> bytes) `{laws : SecpLaws} (uni : Unicode) (mem clock k : Z) (d c : swapCtx) (isMaker : bool)
    (out : depositOutcome) (redeem raw payHex cur : bytes) :
  (forall b, zlen (rip b) = 20) -> 2 ^ 27 <= mem -> knows d isMaker out c -> deposit_pays rip k d isMaker out redeem raw ->
  can_claim rip c (x_secret c) -> KeyID rip (x_secret c) <> zeros 20 -> redeemCounterparty rip uni clock c = inl (payHex, cur) ->
  claim_spends rip payHex raw redeem (x_theirDepositVout c) /\
  secretFromPayTx rip mem payHex (KeyID rip (x_secret c)) (conf_time c (x_dstCur c)) (x_theirDepositTxID c) (x_theirDepositVout c) = Some (x_secret c).
Proof.
  intros Hrip Hmem Hkn (conn & cc & coin' & change & tx & v & _ & Hred' & _ & _ & _ & Hid) Hcan Hz Hr.
  apply (redeem_spends rip Hrip laws uni mem clock Hmem c) in Hr as (coin & h & redeem1 & ss & dest & T & Hcur & _ & Hh & Hred & HT & Hin & _ & Hsp & Hsec);
    [|done|done]. rewrite Hcur in Hsec. split; [|exact Hsec].
  rewrite (same_script rip d isMaker out c coin coin' Hkn) in Hred. assert (redeem1 = redeem) as -> by congruence.
  rewrite (kn_txid _ _ _ _ Hkn), Hid, txid_outpoint in Hh. injection Hh as <-.
  by exists T, ss, (x_theirP2SHNative c), coin.
Qed.

(** C6. Atomicity, the claim half. Of two sides that built their deposits and know
    of each other's deposit its keys, hash, lock time and id: the script each
    builds to claim with is that of the other's deposit; a claim the maker's task
    builds, of output 0, spends the taker's signed deposit at any time; a taker
    whose wallet shows that claim recovers exactly the maker's secret from it,
    and goes on to build a claim with that secret; and the claim it builds spends
    the maker's signed deposit at any time. *)
Theorem swap_completes (rip : bytes -> bytes) `{laws : SecpLaws} (uni : Unicode) (mem k1 k2 clock clock' : Z) (m t cm ct : swapCtx)
    (dm dt : depositOutcome) (conn : Connector) (outm : confirmOutcome) (Hrip : forall b, zlen (rip b) = 20) (Hmem : 2 ^ 27 <= mem)
    (Hdm : buildDeposit rip uni k1 m true = inl dm) (Hdt : buildDeposit rip uni k2 t false = inl dt)
    (Hpair : counterparts rip dm dt m t cm ct)
    (Hmaker : makerClaimBuildTask rip uni clock cm = inl outm) (Hv0 : dc_DepositVout (co_check outm) = ownDepositVout)
    (Hconn : x_connectors ct !! x_srcCur ct = Some conn)
    (Hsee : GetRawTransaction conn (co_payTxID outm) = inl (co_payHex outm)) :
  (forall coin coin', RedeemScript rip (their_spec cm coin) = RedeemScript rip (deposit_spec t false coin' (do_lockTime dt)) /\
    RedeemScript rip (their_spec ct coin) = RedeemScript rip (deposit_spec m true coin' (do_lockTime dm))) /\
  exists redm rawm redt rawt, deposit_pays rip k1 m true dm redm rawm /\ deposit_pays rip k2 t false dt redt rawt /\
    claim_spends rip (co_payHex outm) rawt redt ownDepositVout /\
    takerClaimBuildTask rip uni mem clock' ct (co_payTxID outm) =
      claim_outcome rip uni clock' (ct <| x_secret := x_secret cm |>) (x_secret cm) (mkDepositCheck false 0 0 0 0) /\
    forall outt, takerClaimBuildTask rip uni mem clock' ct (co_payTxID outm) = inl outt ->
      co_secret outt = x_secret cm /\ claim_spends rip (co_payHex outt) rawm redm (x_theirDepositVout ct).
Proof.
  destruct Hpair as [Hkm Hkt Hour [Hom Hot] (H33 & Hk & Hz) Hhash Htime Hvt].
  apply buildDeposit_pays in Hdm as (Hlm & redm & rawm & Hpm). apply buildDeposit_pays in Hdt as (Hlt & redt & rawt & Hpt).
  split; [intros; split; by apply same_script|]. exists redm, rawm, redt, rawt. split; [done|]. split; [done|].
  pose proof (kn_side _ _ _ _ Hkm) as Em. pose proof (kn_side _ _ _ _ Hkt) as Et. cbn in Em, Et.
  unfold makerClaimBuildTask in Hmaker. wres_inv Hmaker. cbv zeta in Hmaker.
  apply claim_outcome_inl in Hmaker as (Hred & _ & Hcheck & _). rewrite Hcheck in Hv0.
  set (cm' := cm <| x_theirDepositVout := _ |> <| x_theirP2SHNative := _ |>) in *.
  assert (knows t false dt cm') as Hkm' by (destruct Hkm; constructor; done).
  assert (can_claim rip cm' (x_secret cm')) as Hcan'.
  { unfold can_claim, cm'. cbn. rewrite Hv0, Em, (kn_lockTime _ _ _ _ Hkm). split_and!; done. }
  eapply (claims_deposit rip uni mem) in Hred as [Hsp Hsec]; [|done|done|exact Hkm'|exact Hpt|exact Hcan'|intros E; apply Hz; rewrite <- Hk; exact E].
  change (secretFromPayTx rip mem (co_payHex outm) (KeyID rip (x_secret cm)) (conf_time cm (x_dstCur cm)) (x_theirDepositTxID cm)
    (dc_DepositVout x) = Some (x_secret cm)) in Hsec.
  change (x_theirDepositVout cm') with (dc_DepositVout x) in Hsp. rewrite Hv0 in Hsp, Hsec. split; [done|].
  rewrite Hk, <- Hhash, (kn_txid _ _ _ _ Hkm), <- Hour, Htime in Hsec.
  pose proof (takerClaim_step rip uni mem clock' ct conn (co_payTxID outm) (co_payHex outm) (x_secret cm) Hconn Hsee Hsec) as Hstep.
  split; [done|]. intros outt Hout. rewrite Hstep in Hout. apply claim_outcome_inl in Hout as (Hredt & Hst & _ & _). split; [done|].
  set (ct' := ct <| x_secret := _ |>) in *.
  assert (can_claim rip ct' (x_secret ct')) as Hct'.
  { unfold can_claim, ct'. cbn. rewrite Et, (kn_lockTime _ _ _ _ Hkt). split_and!; try done. congruence. }
  eapply (claims_deposit rip uni mem) in Hredt as [Hspt _]; [exact Hspt|done|done| |exact Hpm|exact Hct'|intros E; apply Hz; rewrite <- Hk; exact E].
  destruct Hkt; constructor; done.
Qed.

(** Every payout, refund or claim, goes to a P2PKH script of the 20 bytes the
    destination address decodes to, whatever kind of address it is. Orders
    accept any address of 20 bytes ([Address_ID]): with a P2SH destination the
    coins are sent to a script that asks for a public key of which the script
    hash is the hash. *)
Theorem destScript_ignores_kind (uni : Unicode) (c : swapCtx) (cur addr : bytes) (coin : Coin) (a : Address)
    (Hcoin : x_coinsMap c !! cur = Some coin) (Ha : decodeAddress uni coin addr = Ok a) (Hid : Address_ID a = Some (A_Hash a)) :
  destScript uni c cur addr = inl (BuildP2PKHScript (A_Hash a)).
Proof.
  unfold destScript, x_coin. rewrite Hcoin. cbn [of_option mbind wres_bind]. rewrite Ha. cbn [of_res mbind wres_bind].
  unfold Address_ID in Hid. destruct (zlen (A_Hash a) =? 20) eqn:E; [|done]. apply Z.eqb_eq in E.
  unfold hash20. by rewrite take_app_length' by (unfold zlen in E; lia).
Qed.

(** ** A sample swap *)

Definition tick_a : bytes := bytes_of "AAA".
Definition tick_b : bytes := bytes_of "BBB".
Definition sample_utxo (txid : bytes) (vout amount : Z) : Utxo :=
  mkUtxo txid vout sample_b58_address amount (f64_div (f64_of amount) (f64_of 100000000)) [] 6.
Definition sample_connector (raw : bytes -> wres bytes) : Connector :=
  mkConnector (inl 0) fail (fun _ => inl []) (inl []) (fun h _ => inl (h, true)) (fun h => of_option (txIDFromHex h)) (inl 800000) raw
    (fun _ _ _ _ => inl (mkDepositCheck true 1000000 100100000 0 0)) (fun _ _ => inl []) (fun _ _ _ => inl true)
    (fun txid vout => inl (Some (sample_utxo txid vout 100000000))) (fun _ => fail) fail (fun _ => fail) (fun _ => fail).
Definition sample_priv' : bytes := repeat x09 32.
Definition sample_hash' : bytes := KeyID sample_ripemd160 sample_secret.
Definition sample_txid (b : byte) : bytes := EncodeToString (repeat b 32).

Definition sample_ctx (maker : bool) (raw : bytes -> wres bytes) (ourDeposit : bytes) : swapCtx :=
  mkSwapCtx maker (if maker then tick_a else tick_b) (if maker then tick_b else tick_a) 1000000 1000000
    sample_b58_address sample_b58_address
    (pub_of (if maker then sample_priv' else sample_priv)) (if maker then sample_priv else sample_priv')
    (pub_of (if maker then sample_priv else sample_priv')) (if maker then sample_secret else zeros 33)
    (if maker then sample_hash' else zeros 20) (sample_txid (if maker then x0b else x0a)) (if maker then 800006 else 800012)
    (if maker then zeros 20 else sample_hash') 0 100100000 0 ourDeposit 0 []
    (<[tick_a := sample_connector raw]> (<[tick_b := sample_connector raw]> ∅))
    (<[tick_a := sample_coin_conf]> (<[tick_b := sample_coin_conf]> ∅))
    (<[tick_a := sample_coin]> (<[tick_b := sample_coin]> ∅)) 0
    [sample_utxo (sample_txid x0c) 1 200000000].

Definition no_raw : bytes -> wres bytes := fun _ => fail.
Definition sample_maker : swapCtx := sample_ctx true no_raw [].

Definition is_inl {A} (m : wres A) : bool := match m with inl _ => true | inr _ => false end.
Lemma is_inl_ex {A} (m : wres A) : is_inl m = true -> exists a, m = inl a.
Proof. destruct m; [eauto|done]. Qed.

Lemma sample_own_keys maker raw dep : own_keys (sample_ctx maker raw dep).
Proof. destruct maker; (split; [split; [done|by vm_compute]|split; by vm_compute]). Qed.

Lemma deposit_refundable_witness :
  exists out R, buildDeposit sample_ripemd160 no_unicode 1700000000 sample_maker true = inl out /\
    do_refundHex out = EncodeToString (Tx_Serialize R) /\ tx_LockTime R = 800012.
Proof.
  destruct (is_inl_ex (buildDeposit sample_ripemd160 no_unicode 1700000000 sample_maker true)) as [out Hout]; [by vm_compute|].
  destruct (deposit_refundable sample_ripemd160 no_unicode 1700000000 sample_maker true out sample_ripemd160_length
    (sample_own_keys true no_raw []) eq_refl Hout)
    as (_ & _ & _ & _ & _ & _ & _ & _ & R & _ & _ & _ & _ & _ & _ & _ & _ & _ & _ & _ & _ & HR & _ & Hlt & _).
  exists out, R. split; [exact Hout|]. split; [exact HR|].
  transitivity (do_lockTime out); [exact Hlt|].
  apply buildDeposit_lockTime in Hout. transitivity (computeLockTime sample_maker true); [exact Hout|vm_compute; reflexivity].
Defined.

Lemma BuildDepositTx_conserves_witness :
  exists tx redeem, BuildDepositTx sample_ripemd160 (deposit_spec sample_maker true sample_coin 800012) sample_coin (x_funding sample_maker)
      (zeros 20) 1000 2000 546 0 = Ok tx /\
    tx_Outputs tx = [mkTxOut 100002000 (BuildP2SHScript (KeyID sample_ripemd160 redeem)); mkTxOut 99997000 (BuildP2PKHScript (zeros 20))].
Proof.
  destruct (is_ok_ex (BuildDepositTx sample_ripemd160 (deposit_spec sample_maker true sample_coin 800012) sample_coin (x_funding sample_maker)
      (zeros 20) 1000 2000 546 0)) as [tx Htx]; [by vm_compute|].
  assert (Forall (fun u => 0 <= u_Amount u) (x_funding sample_maker)) as Hf by (constructor; [by vm_compute|constructor]).
  destruct (BuildDepositTx_conserves sample_ripemd160 (deposit_spec sample_maker true sample_coin 800012) sample_coin
    (x_funding sample_maker) (zeros 20) 1000 2000 546 0 Hf) as [_ H]; [by vm_compute|by vm_compute|by vm_compute|].
  destruct (H tx Htx) as (_ & (redeem & _ & Ho) & _). exists tx, redeem. split; [exact Htx|].
  assert (ds_Amount (deposit_spec sample_maker true sample_coin 800012) = 100000000 /\ funding_sum (x_funding sample_maker) = 200000000) as [E1 E2]
    by (split; vm_compute; reflexivity).
  rewrite E1, E2 in Ho. exact Ho.
Defined.

Lemma sample_admitted maker raw dep cur :
  cur = tick_a \/ cur = tick_b -> admitted (sample_ctx maker raw dep) cur 600 800000.
Proof.
  intros Hcur. exists sample_coin_conf, (sample_connector raw).
  assert (x_confs (sample_ctx maker raw dep) !! cur = Some sample_coin_conf /\
    x_connectors (sample_ctx maker raw dep) !! cur = Some (sample_connector raw)) as [H1 H2].
  { destruct Hcur as [-> | ->]; split; reflexivity. }
  split_and!; try done; by vm_compute.
Qed.

Lemma lock_margins_witness :
  exists out, takerDepositBuildTask sample_ripemd160 no_unicode 0 (sample_ctx false no_raw []) = inl out /\
    (do_lockTime (cb_out out) - 800000) * 600 + 1200 <= (800012 - 800000) * 600.
Proof.
  destruct (is_inl_ex (takerDepositBuildTask sample_ripemd160 no_unicode 0 (sample_ctx false no_raw []))) as [out Hout]; [by vm_compute|].
  exists out. split; [exact Hout|].
  exact (proj1 (lock_margins sample_ripemd160 no_unicode (2 ^ 27) 0 (sample_ctx false no_raw []) 600 800000 600 800000
    (sample_admitted false no_raw [] tick_b (or_intror eq_refl)) (sample_admitted false no_raw [] tick_a (or_introl eq_refl))) out Hout).
Defined.

(** The sides once each has the other's deposit. *)
Definition claiming_maker (dt : depositOutcome) : swapCtx :=
  sample_maker <| x_theirDepositTxID := do_txid dt |> <| x_theirLockTime := do_lockTime dt |>.
Definition claiming_taker (raw : bytes -> wres bytes) (dm dt : depositOutcome) : swapCtx :=
  sample_ctx false raw (do_txid dt) <| x_theirDepositTxID := do_txid dm |> <| x_theirLockTime := do_lockTime dm |>.

Lemma sample_pair raw dm dt :
  counterparts sample_ripemd160 dm dt sample_maker (sample_ctx false no_raw []) (claiming_maker dt) (claiming_taker raw dm dt).
Proof.
  constructor.
  - constructor; [reflexivity|change (pub_of sample_priv' = pub_of sample_priv')|change (pub_of sample_priv = pub_of sample_priv)|change (sample_hash' = sample_hash')| |]; reflexivity.
  - constructor; [reflexivity|change (pub_of sample_priv = pub_of sample_priv)|change (pub_of sample_priv' = pub_of sample_priv')|change (sample_hash' = sample_hash')| |]; reflexivity.
  - reflexivity.
  - exact (conj (sample_own_keys true no_raw []) (sample_own_keys false raw (do_txid dt))).
  - split; [vm_compute; reflexivity|]. split; [vm_compute; reflexivity|]. vm_compute. discriminate.
  - change (sample_hash' = sample_hash'); reflexivity.
  - vm_compute. reflexivity.
  - vm_compute. done.
Qed.

Lemma swap_completes_witness :
  exists dm dt outm outt, buildDeposit sample_ripemd160 no_unicode 0 sample_maker true = inl dm /\
    buildDeposit sample_ripemd160 no_unicode 0 (sample_ctx false no_raw []) false = inl dt /\
    makerClaimBuildTask sample_ripemd160 no_unicode 0 (claiming_maker dt) = inl outm /\
    takerClaimBuildTask sample_ripemd160 no_unicode (2 ^ 27) 0 (claiming_taker (fun _ => inl (co_payHex outm)) dm dt) (co_payTxID outm) = inl outt /\
    co_secret outt = sample_secret.
Proof.
  assert (match buildDeposit sample_ripemd160 no_unicode 0 sample_maker true, buildDeposit sample_ripemd160 no_unicode 0 (sample_ctx false no_raw []) false with
    | inl dm, inl dt => match makerClaimBuildTask sample_ripemd160 no_unicode 0 (claiming_maker dt) with
      | inl outm => (dc_DepositVout (co_check outm) =? ownDepositVout) &&
          is_inl (claim_outcome sample_ripemd160 no_unicode 0 (claiming_taker (fun _ => inl (co_payHex outm)) dm dt <| x_secret := x_secret (claiming_maker dt) |>)
            (x_secret (claiming_maker dt)) (mkDepositCheck false 0 0 0 0))
      | _ => false end | _, _ => false end = true) as H by (vm_compute; reflexivity).
  destruct (buildDeposit sample_ripemd160 no_unicode 0 sample_maker true) as [dm|] eqn:Hdm; [|discriminate H].
  destruct (buildDeposit sample_ripemd160 no_unicode 0 (sample_ctx false no_raw []) false) as [dt|] eqn:Hdt; [|discriminate H].
  destruct (makerClaimBuildTask sample_ripemd160 no_unicode 0 (claiming_maker dt)) as [outm|] eqn:Hm; [|discriminate H].
  apply andb_true_iff in H as [H Ht]. apply Z.eqb_eq in H. apply is_inl_ex in Ht as [outt Ht].
  destruct (swap_completes sample_ripemd160 no_unicode (2 ^ 27) 0 0 0 0 sample_maker (sample_ctx false no_raw []) (claiming_maker dt)
    (claiming_taker (fun _ => inl (co_payHex outm)) dm dt) dm dt
    (sample_connector (fun _ => inl (co_payHex outm))) outm sample_ripemd160_length (Z.le_refl _) Hdm Hdt (sample_pair _ dm dt) Hm H eq_refl eq_refl)
    as (_ & redm & rawm & redt & rawt & _ & _ & _ & Hstep & Hafter).
  assert (Htask := eq_trans Hstep Ht).
  exists dm, dt, outm, outt. split; [reflexivity|]. split; [reflexivity|]. split; [exact Hm|]. split; [exact Htask|]. exact (proj1 (Hafter outt Htask)).
Defined.

(** A P2SH address (version byte 5) of the same chain. *)
Definition sample_p2sh_address : bytes := base58CheckEncode x05 sample_hash.

Lemma destScript_ignores_kind_witness :
  exists a, decodeAddress no_unicode sample_coin sample_p2sh_address = Ok a /\ A_Kind a = P2SH /\
    destScript no_unicode sample_maker tick_a sample_p2sh_address = inl (BuildP2PKHScript (A_Hash a)).
Proof.
  destruct (is_ok_ex (decodeAddress no_unicode sample_coin sample_p2sh_address)) as [a Ha]; [by vm_compute|].
  assert (a = mkAddress sample_coin P2SH x05 sample_hash 0) as E.
  { assert (Ok a = Ok (mkAddress sample_coin P2SH x05 sample_hash 0)) as H by (rewrite <- Ha; vm_compute; reflexivity).
    by injection H. }
  exists a. split; [exact Ha|]. split; [by rewrite E|].
  apply (destScript_ignores_kind no_unicode sample_maker tick_a sample_p2sh_address sample_coin a eq_refl Ha).
  rewrite E. vm_compute. reflexivity.
Defined.
