(* ===== verification/Order.v ===== *)
(** * Orders, their states and the cancel reasons (api/order.go, swap/state.go,
    api/response.go, api/cancel_reason.go)

    The record of an order, the internal status strings with their canonical
    names, the ordinals of the descriptor states, and the texts of the reasons a
    cancel or a reject gives. *)

From S2P Require Import Prelude GoLib Hex Codec Bodies Wallet.

(** ** swap/state.go *)

Inductive DescrState :=
| DescrExpired | DescrNew | DescrOffline | DescrOpen | DescrAccepting | DescrHold | DescrInitialized | DescrCreated
| DescrSigned | DescrCommited | DescrFinished | DescrRollback | DescrRollbackFailed | DescrDropped | DescrCancelled
| DescrInvalid.
#[export] Instance DescrState_eq_dec : EqDecision DescrState.
Proof. solve_decision. Defined.

Definition DescrState_ordinal (s : DescrState) : Z :=
  match s with
  | DescrExpired => -1 | DescrNew => 0 | DescrOffline => 1 | DescrOpen => 2 | DescrAccepting => 3 | DescrHold => 4
  | DescrInitialized => 5 | DescrCreated => 6 | DescrSigned => 7 | DescrCommited => 8 | DescrFinished => 9
  | DescrRollback => 10 | DescrRollbackFailed => 11 | DescrDropped => 12 | DescrCancelled => 13 | DescrInvalid => 14
  end.

Definition descrStateNames : list (string * DescrState) := [
  ("expired", DescrExpired); ("new", DescrNew); ("offline", DescrOffline); ("open", DescrOpen);
  ("accepting", DescrAccepting); ("hold", DescrHold); ("initialized", DescrInitialized); ("created", DescrCreated);
  ("signed", DescrSigned); ("commited", DescrCommited); ("finished", DescrFinished); ("rolled back", DescrRollback);
  ("rollback failed", DescrRollbackFailed); ("dropped", DescrDropped); ("canceled", DescrCancelled);
  ("invalid", DescrInvalid)]%string.

Definition DescrState_String (s : DescrState) : string :=
  match s with
  | DescrExpired => "expired" | DescrNew => "new" | DescrOffline => "offline" | DescrOpen => "open"
  | DescrAccepting => "accepting" | DescrHold => "hold" | DescrInitialized => "initialized" | DescrCreated => "created"
  | DescrSigned => "signed" | DescrCommited => "commited" | DescrFinished => "finished" | DescrRollback => "rolled back"
  | DescrRollbackFailed => "rollback failed" | DescrDropped => "dropped" | DescrCancelled => "canceled"
  | DescrInvalid => "invalid"
  end%string.

Definition DescrStateFromName (name : string) : option DescrState :=
  snd <$> List.find (fun p => String.eqb (fst p) name) descrStateNames.

Definition DescrStateOrdinal (name : string) : Z :=
  match DescrStateFromName name with Some s => DescrState_ordinal s | None => 0 end.

(** Timing constants (seconds, blocks) *)
Definition PendingTTL : Z := 60 * 6.
Definition TTL : Z := 60 * 60.
Definition DeadlineTTL : Z := 60 * 60 * 24 * 7.
Definition BlocksTTL : Z := 1440 * 7.

(** ** Status strings (api/response.go) *)

Definition one_of (s : string) (l : list string) : bool := existsb (String.eqb s) l.

Definition statusString (s : string) : string :=
  if one_of s ["trExpired"; "expired"] then "expired"
  else if one_of s ["trNew"; "new"] then "new"
  else if one_of s ["trOffline"; "offline"] then "offline"
  else if one_of s ["trPending"; "pending"; "open"] then "open"
  else if one_of s ["trAccepting"; "accepting"] then "accepting"
  else if one_of s ["trHold"; "hold"] then "hold"
  else if one_of s ["trInitialized"; "initialized"] then "initialized"
  else if one_of s ["trCreated"; "created"] then "created"
  else if one_of s ["trSigned"; "signed"] then "signed"
  else if one_of s ["trCommited"; "trCommitted"; "commited"; "committed"] then "commited"
  else if one_of s ["trFinished"; "finished"] then "finished"
  else if one_of s ["trRollback"; "rolled back"] then "rolled back"
  else if one_of s ["trRollbackFailed"; "rollback failed"] then "rollback failed"
  else if one_of s ["trDropped"; "dropped"] then "dropped"
  else if one_of s ["trCancelled"; "canceled"; "cancelled"] then "canceled"
  else if one_of s ["trInvalid"; "invalid"] then "invalid"
  else "unknown"%string.

Definition stateOrdinal (s : string) : Z := DescrStateOrdinal (statusString s).

Definition isOrderTerminal (status : string) : bool :=
  one_of (statusString status) ["finished"; "canceled"; "dropped"; "invalid"].

Definition orderLockReleased (status : string) : bool :=
  if isOrderTerminal status then true else String.eqb (statusString status) "rolled back".

(** ** The order *)

Inductive OrderType := OrderTypeUnknown | OrderTypeMaker | OrderTypeBroadcast.

Record Order := mkOrder {
  o_ID : bytes;
  o_Type : OrderType;
  o_From : bytes;
  o_FromCurrency : bytes;
  o_FromAmount : Z;
  o_To : bytes;
  o_ToCurrency : bytes;
  o_ToAmount : Z;
  o_Created : Z;
  o_Updated : Z;
  o_BlockHash : bytes;
  o_BlockNumber : Z;
  o_PartialAllowed : bool;
  o_MinFromAmount : Z;
  o_OrigFromAmount : Z;
  o_OrigToAmount : Z;
  o_PartialRepost : bool;
  o_ParentID : bytes;
  o_Status : string;
  o_MakerPubkey : bytes;
  o_MakerAddress : bytes;
  o_TakerAddress : bytes;
  o_BlockID : bytes;
  o_RefundTx : bytes;
  o_BinTxId : bytes;
  o_OBinTxId : bytes;
  o_OBinTxVout : Z;
  o_OBinTxP2SHAmount : Z;
  o_OOverpayment : Z;
  o_PrepTx : bytes;
  o_Utxos : list UtxoEntry;
  o_Mine : bool;
  o_UsedCoins : list Utxo;
  o_FeeUtxos : list Utxo;
  o_UtxoCurrency : bytes;
  o_SNodePubkey : bytes;
  o_HubAddress : bytes;
  o_OtherPubkey : bytes;
  o_MakerKey : bytes;
  o_Reason : Z;
  o_Role : Z;
  o_DepositSent : bool;
  o_CounterpartyRedeemed : bool;
  o_OrigFromCurrency : bytes;
  o_OrigToCurrency : bytes;
}.
#[export] Instance eta_Order : Eta Order := fun o => mkOrder (o_ID o) (o_Type o) (o_From o) (o_FromCurrency o)
  (o_FromAmount o) (o_To o) (o_ToCurrency o) (o_ToAmount o) (o_Created o) (o_Updated o) (o_BlockHash o) (o_BlockNumber o)
  (o_PartialAllowed o) (o_MinFromAmount o) (o_OrigFromAmount o) (o_OrigToAmount o) (o_PartialRepost o) (o_ParentID o)
  (o_Status o) (o_MakerPubkey o) (o_MakerAddress o) (o_TakerAddress o) (o_BlockID o) (o_RefundTx o) (o_BinTxId o)
  (o_OBinTxId o) (o_OBinTxVout o) (o_OBinTxP2SHAmount o) (o_OOverpayment o) (o_PrepTx o) (o_Utxos o) (o_Mine o)
  (o_UsedCoins o) (o_FeeUtxos o) (o_UtxoCurrency o) (o_SNodePubkey o) (o_HubAddress o) (o_OtherPubkey o) (o_MakerKey o)
  (o_Reason o) (o_Role o) (o_DepositSent o) (o_CounterpartyRedeemed o) (o_OrigFromCurrency o) (o_OrigToCurrency o).

(** Go's zero value. *)
Definition zero_order : Order :=
  mkOrder (repeat x00 32) OrderTypeUnknown (repeat x00 20) [] 0 (repeat x00 20) [] 0 0 0 (repeat x00 32) 0 false 0 0 0 false
    (repeat x00 32) "" [] [] [] [] [] [] [] 0 0 0 [] [] false [] [] [] [] (repeat x00 20) [] [] 0 0 false false [] [].

Definition normalizeFromOrderBody (b : OrderBody) (maker : bytes) : Order :=
  zero_order <| o_ID := Order_ID b |> <| o_Type := OrderTypeMaker |> <| o_From := Order_From b |>
    <| o_FromCurrency := Order_FromCurrency b |> <| o_FromAmount := Order_FromAmount b |> <| o_To := Order_To b |>
    <| o_ToCurrency := Order_ToCurrency b |> <| o_ToAmount := Order_ToAmount b |> <| o_Created := Order_Created b |>
    <| o_Updated := Order_Created b |> <| o_BlockHash := Order_BlockHash b |>
    <| o_PartialAllowed := Order_PartialAllowed b |> <| o_MinFromAmount := Order_MinFromAmount b |>
    <| o_OrigFromAmount := Order_FromAmount b |> <| o_OrigToAmount := Order_ToAmount b |> <| o_Status := "open"%string |>
    <| o_MakerPubkey := maker |> <| o_SNodePubkey := maker |> <| o_Utxos := Order_Utxos b |>
    <| o_UtxoCurrency := Order_FromCurrency b |>.

Definition normalizeFromPendingBody (b : PendingTransactionBody) (maker : bytes) : Order :=
  zero_order <| o_ID := Pending_ID b |> <| o_Type := OrderTypeBroadcast |>
    <| o_FromCurrency := Pending_FromCurrency b |> <| o_FromAmount := Pending_FromAmount b |>
    <| o_ToCurrency := Pending_ToCurrency b |> <| o_ToAmount := Pending_ToAmount b |> <| o_Created := Pending_Created b |>
    <| o_Updated := Pending_Created b |> <| o_BlockHash := Pending_BlockHash b |>
    <| o_PartialAllowed := Pending_PartialAllowed b |> <| o_MinFromAmount := Pending_MinFromAmount b |>
    <| o_OrigFromAmount := Pending_FromAmount b |> <| o_OrigToAmount := Pending_ToAmount b |> <| o_Status := "open"%string |>
    <| o_MakerPubkey := maker |> <| o_SNodePubkey := maker |> <| o_HubAddress := Pending_HubAddress b |>.

(** ['B'] *)
Definition RoleB : Z := 66.

Definition localSense (o : Order) : bytes * Z * bytes * Z :=
  if o_Role o =? RoleB then (o_ToCurrency o, o_ToAmount o, o_FromCurrency o, o_FromAmount o)
  else (o_FromCurrency o, o_FromAmount o, o_ToCurrency o, o_ToAmount o).

Definition clearUsedCoins (o : Order) : Order :=
  o <| o_Role := 0 |> <| o_Mine := false |> <| o_MakerKey := [] |> <| o_Reason := 0 |>
    <| o_FromCurrency := o_OrigFromCurrency o |> <| o_ToCurrency := o_OrigToCurrency o |>
    <| o_FromAmount := o_OrigFromAmount o |> <| o_ToAmount := o_OrigToAmount o |>
    <| o_MakerAddress := [] |> <| o_TakerAddress := [] |> <| o_UsedCoins := [] |> <| o_FeeUtxos := [] |> <| o_Utxos := [] |>.

Definition hexEncode (b : bytes) : bytes := EncodeToString b.
Definition orderKey (id : bytes) : bytes := hexEncode id.
Definition orderIDString (id : bytes) : bytes := hexEncode (rev id).

(** ** The names *)

(** The canonical names are the states: each state is found under its own name,
    a normal form is a fixed point, and the two tables agree, so that an unknown
    status counts as the ordinal of "new". *)
Theorem status_names (s : DescrState) (name : string) :
  DescrStateFromName (DescrState_String s) = Some s /\
  statusString (DescrState_String s) = DescrState_String s /\
  statusString (statusString name) = statusString name /\
  (statusString name = "unknown"%string \/ exists t, statusString name = DescrState_String t) /\
  (statusString name = "unknown"%string -> stateOrdinal name = 0) /\
  -1 <= stateOrdinal name <= 14.
Proof.
  assert (H : statusString name = "unknown"%string \/ exists t, statusString name = DescrState_String t).
  { unfold statusString.
    repeat match goal with |- context [if ?b then _ else _] => destruct b end;
      first [by left | right; by first [exists DescrExpired; reflexivity | exists DescrNew; reflexivity
        | exists DescrOffline; reflexivity | exists DescrOpen; reflexivity | exists DescrAccepting; reflexivity
        | exists DescrHold; reflexivity | exists DescrInitialized; reflexivity | exists DescrCreated; reflexivity
        | exists DescrSigned; reflexivity | exists DescrCommited; reflexivity | exists DescrFinished; reflexivity
        | exists DescrRollback; reflexivity | exists DescrRollbackFailed; reflexivity | exists DescrDropped; reflexivity
        | exists DescrCancelled; reflexivity | exists DescrInvalid; reflexivity]]. }
  assert (Ht : forall t, DescrStateFromName (DescrState_String t) = Some t) by (intros t; by destruct t).
  assert (Hs : forall t, statusString (DescrState_String t) = DescrState_String t) by (intros t; by destruct t).
  split_and!; [done|done| |done| | |];
    unfold stateOrdinal, DescrStateOrdinal; destruct H as [->|[t ->]]; try done; rewrite ?Hs, ?Ht; try done;
    try (destruct t; cbn; lia); by destruct t.
Qed.

(** ** api/cancel_reason.go

    The reasons travel as bare numbers; their texts go to the log.  Two of the
    texts are those of C++, kept for parity: [crBadSettings] reads as
    ["crUnknown"], and [crUnknown] and every number outside of the enumeration as
    ["crNone"]. *)

(** The enumeration, by its ordinals. *)
Definition TxCancelReason : list (Z * string) := [
  (0, "crUnknown"); (1, "crBadSettings"); (2, "crUserRequest"); (3, "crNoMoney"); (4, "crBadUtxo"); (5, "crDust"); (6, "crRpcError");
  (7, "crNotSigned"); (8, "crNotAccepted"); (9, "crRollback"); (10, "crRpcRequest"); (11, "crXbridgeRejected"); (12, "crInvalidAddress");
  (13, "crBlocknetError"); (14, "crBadADepositTx"); (15, "crBadBDepositTx"); (16, "crTimeout"); (17, "crBadLockTime"); (18, "crBadALockTime");
  (19, "crBadBLockTime"); (20, "crBadAUtxo"); (21, "crBadBUtxo"); (22, "crBadARefundTx"); (23, "crBadBRefundTx"); (24, "crBadFeeTx")]%string.

Definition TxCancelReasonText (reason : Z) : string :=
  if reason =? 1 then "crUnknown"
  else if reason =? 0 then "crNone"
  else match List.find (fun r => r.1 =? reason) TxCancelReason with Some (_, name) => name | None => "crNone" end.

(** Apart from the two, a text names its reason. *)
Lemma reason_text r : 2 <= r <= 24 -> In (r, TxCancelReasonText r) TxCancelReason.
Proof.
  intros H. assert (forallb (fun r => existsb (fun p => (p.1 =? r) && String.eqb p.2 (TxCancelReasonText r)) TxCancelReason) (map Z.of_nat (seq 2 23)) = true) as Hall by done.
  rewrite forallb_forall in Hall. specialize (Hall r). apply existsb_exists in Hall as ([r' t] & Hin & Heq).
  - apply andb_true_iff in Heq as [H1 H2]. cbn [fst snd] in H1, H2. apply Z.eqb_eq in H1 as <-. apply String.eqb_eq in H2 as <-. done.
  - apply in_map_iff. exists (Z.to_nat r). split; [lia|]. apply in_seq. lia.
Qed.

Lemma reason_text_other r : r <= 0 \/ 24 < r -> TxCancelReasonText r = "crNone"%string.
Proof.
  intros H. unfold TxCancelReasonText. rewrite (proj2 (Z.eqb_neq r 1)) by lia. destruct (r =? 0) eqn:E0; [done|]. zbool.
  destruct (List.find _ _) as [[r' t]|] eqn:E; [|done]. apply find_some in E as [Hin Heq]. cbn [fst] in Heq. apply Z.eqb_eq in Heq as ->. cbn in Hin.
  repeat (destruct Hin as [Hin|Hin]; [injection Hin as <- _; lia|]). by destruct Hin.
Qed.
