(* ===== verification/XAmount.v ===== *)
(** * Amounts and ids as text (api/response.go)

    XBridge amounts are integers of 10^-6 coins; [formatXAmount] and
    [parseXAmount] are exact, [xBridgeValidCoin] limits the decimals an order
    may be given with, and [lexicalAmount] reads the argument of a make or a
    take.  Order ids are shown byte-reversed, and read back as tolerantly as
    uint256S.  The price helper of this file is the one of swap/price.go. *)

From S2P Require Import Prelude Sort Digits GoLib Hex Codec Bodies Coin Amount Price Wallet Deposit Order Float.

Definition maxXSize : Z := wrap 64 (100000000 * coinScale).
Definition maxXAmount : Z := 2 ^ 64 - 1.

(** Zero-padded to [n] digits. *)
Definition fmt_padded (n : nat) (v : Z) : bytes := pad_left n (dec_string v).

Definition formatXAmount (amt : Z) : bytes := dec_string (amt / coinScale) ++ [x2e] ++ fmt_padded 6 (amt mod coinScale).

(** The text before and after the first dot. *)
Definition split_dot (s : bytes) : bytes * bytes :=
  match IndexByte s x2e with
  | Some i => (take i s, drop (S i) s)
  | None => (s, [])
  end.

(** Six decimals: the rest is cut off, the missing ones are zero. *)
Definition frac6 (s : bytes) : bytes := take 6 s ++ repeat x30 (6 - length (take 6 s)).

Definition parseXAmount (s : bytes) : option Z :=
  let s := TrimSpace s in
  match s with
  | [] => None
  | c :: _ =>
      if Byte.eqb c x2d then None
      else
        let '(intStr, fracStr) := split_dot s in
        if negb (forallb is_digit intStr) then None
        else if negb (forallb is_digit fracStr) then None
        else
          let intStr := if bool_decide (intStr = []) then [x30] else intStr in
          combined ← SetString10 (intStr ++ frac6 fracStr);
          if (combined <? 0) || (maxXAmount <? combined) then None else Some combined
  end.

(** The argument of a make or a take: an unreadable one is the envelope error -1. *)
Definition lexicalAmount (s : bytes) : Z + Z :=
  match parseXAmount s with Some v => inl v | None => inr (-1) end.

(** ** Precision *)

(** The decimals after the first dot, and how many zeros end them. *)
Fixpoint count_decimals (s : bytes) (f : bool) (n zeros : Z) : Z * Z :=
  match s with
  | [] => (n, zeros)
  | c :: s =>
      if negb f && Byte.eqb c x2e then count_decimals s true n zeros
      else if f then count_decimals s f (n + 1) (if Byte.eqb c x30 then zeros + 1 else 0)
      else count_decimals s f n zeros
  end.

(** The loop runs once per digit but one; 20 is more than an int64 has. *)
Fixpoint digits_loop (fuel : nat) (n i : Z) : Z :=
  match fuel with
  | O => n
  | S fuel => let n := n + 1 in let i := Z.quot i 10 in if i <=? 1 then n else digits_loop fuel n i
  end.
Definition xBridgeSignificantDigits (c : Z) : Z := digits_loop 20 0 c.

Definition xBridgeValidCoin (amountStr : bytes) : bool :=
  let '(n, zeros) := count_decimals amountStr false 0 0 in n - zeros <=? xBridgeSignificantDigits coinScale.

(** ** Balances and prices *)

Fixpoint pow10_loop (n : nat) (nc : Z) : Z :=
  match n with O => nc | S n => pow10_loop n (wrap 64 (nc * 10)) end.

Definition formatBalanceNative (c : Coin) (native : Z) : bytes :=
  let nc := pow10_loop (Z.to_nat (Decimals c)) 1 in
  let nc := if nc =? 0 then 1 else nc in
  FormatFloat_f 6 (f64_div (f64_of native) (f64_of nc)).

Definition formatXPrice (p : f64) : bytes := FormatFloat_f 6 p.

Definition xBridgeSourceAmountFromPrice (counterpartyDest source dest : Z) : Z :=
  if dest =? 0 then 0 else scaled_price counterpartyDest source dest.

(** [float64(a)/COIN + 1/::COIN], and the way back. *)
Definition xBridgeValueFromAmount (a : Z) : f64 := f64_add (f64_div (f64_of a) (f64_of coinScale)) (f64_const 1 100000000).
Definition xBridgeIntFromReal (v : f64) : Z := f64_to_uint64 (f64_add (f64_mul v (f64_of coinScale)) (f64_const 1 100000000)).

(** ** Ids *)

Definition isZeroID (id : bytes) : bool := forallb (fun b => Byte.eqb b x00) id.
Definition idIsNull (id : bytes) : bool := bool_decide (id = repeat x00 32).
Definition parentIDString (id : bytes) : bytes := if isZeroID id then [] else orderIDString id.

Definition isSpace (c : byte) : bool := existsb (Byte.eqb c) [x20; x09; x0a; x0b; x0c; x0d].
Definition hexDigit (c : byte) : option Z := hex_val c.

Fixpoint skip_spaces (s : bytes) : bytes :=
  match s with c :: s' => if isSpace c then skip_spaces s' else s | [] => [] end.

Definition skip_0x (s : bytes) : bytes :=
  match s with
  | a :: b :: s' => if Byte.eqb a x30 && (Byte.eqb b x78 || Byte.eqb b x58) then s' else s
  | _ => s
  end.

(** The leading hexadecimal digits. *)
Fixpoint hex_prefix (s : bytes) : list Z :=
  match s with
  | c :: s => match hexDigit c with Some v => v :: hex_prefix s | None => [] end
  | [] => []
  end.

(** Nibbles, low one first, into bytes. *)
Fixpoint nibbles (l : list Z) : bytes :=
  match l with
  | lo :: hi :: l => byte.of_Z (Z.lor lo (Z.shiftl hi 4)) :: nibbles l
  | [lo] => [byte.of_Z lo]
  | [] => []
  end.

(** At most the last 64 digits fill the id, from its first byte on. *)
Definition parseOrderIDS (s : bytes) : bytes :=
  let b := nibbles (take 64 (rev (hex_prefix (skip_0x (skip_spaces s))))) in
  b ++ repeat x00 (32 - length b).

Definition orderIDLess (a b : bytes) : bool := bytes_lt a b.
Definition orderIDKey (id : bytes) : bytes := EncodeToString (parseOrderIDS id).


(** ** Round trips *)

Lemma dec_string_nonempty x : 0 <= x -> dec_string x <> [].
Proof. intros Hx E. pose proof (dec_string_digits x Hx) as H. by rewrite E in H. Qed.

Lemma dec_string_forall x : 0 <= x -> forallb is_digit (dec_string x) = true.
Proof. intros Hx. pose proof (dec_string_digits x Hx) as H. by apply all_digits_true in H as [? _]. Qed.

Lemma digits_no_dot s : forallb is_digit s = true -> x2e ∉ s.
Proof.
  intros H Hin. rewrite forallb_forall in H. apply list_elem_of_In in Hin. by apply H in Hin.
Qed.

Lemma pad_digits n s : forallb is_digit s = true -> forallb is_digit (pad_left n s) = true.
Proof.
  intros H. unfold pad_left. rewrite forallb_app, H, andb_true_r. apply forallb_forall. intros x Hx.
  apply repeat_spec in Hx. by subst.
Qed.

Lemma dec_value_zeros k s : dec_value (repeat x30 k ++ s) = dec_value s.
Proof.
  rewrite dec_value_app. assert (dec_value (repeat x30 k) = 0) as ->; [|lia].
  induction k as [|k IH]; [done|]. change (repeat x30 (S k)) with ([x30] ++ repeat x30 k). rewrite dec_value_app, IH. done.
Qed.

Lemma padded_length n v : 0 <= v < 10 ^ Z.of_nat n -> (0 < n)%nat -> length (fmt_padded n v) = n.
Proof.
  intros Hv Hn. unfold fmt_padded, pad_left. rewrite length_app, repeat_length.
  pose proof (dec_string_length v n Hn Hv). lia.
Qed.

Lemma frac6_digits s : forallb is_digit s = true -> forallb is_digit (frac6 s) = true /\ length (frac6 s) = 6%nat.
Proof.
  intros H. unfold frac6. rewrite length_app, repeat_length, length_take. split; [|lia].
  rewrite forallb_app. rewrite !forallb_forall in *. apply andb_true_iff. split; apply forallb_forall; intros x Hx.
  - apply H. rewrite <- (take_drop 6 s). apply in_or_app. by left.
  - apply repeat_spec in Hx. by subst.
Qed.

Lemma parseXAmount_range s v : parseXAmount s = Some v -> 0 <= v <= maxXAmount.
Proof.
  unfold parseXAmount. destruct (TrimSpace s) as [|c s']; [done|]. destruct (Byte.eqb c x2d); [done|].
  destruct (split_dot _) as [a b]. destruct (negb _); [done|]. destruct (negb _); [done|]. intros H.
  apply bind_Some in H as (w & _ & H). destruct (_ || _) eqn:E; [done|]. injection H as <-. apply orb_false_iff in E as [? ?]. zbool. lia.
Qed.

Lemma lexicalAmount_range s v : lexicalAmount s = inl v -> 0 <= v <= maxXAmount.
Proof. unfold lexicalAmount. destruct (parseXAmount s) eqn:E; [|done]. intros [= <-]. by apply parseXAmount_range in E. Qed.

(** What the reader makes of two runs of digits around a dot. *)
Lemma parseXAmount_fields a b :
  forallb is_digit a = true -> a <> [] -> forallb is_digit b = true -> dec_value (a ++ frac6 b) <= maxXAmount ->
  parseXAmount (a ++ [x2e] ++ b) = Some (dec_value (a ++ frac6 b)).
Proof.
  intros Ha Hae Hb Hm. unfold parseXAmount.
  rewrite TrimSpace_num by (by rewrite !forallb_app, (digits_num a Ha), (digits_num b Hb)).
  assert (split_dot (a ++ [x2e] ++ b) = (a, b)) as Hs.
  { unfold split_dot. cbn [app]. rewrite IndexByte_app by (by apply digits_no_dot). rewrite take_app_length.
    f_equal. change (S (length a)) with (1 + length a)%nat. rewrite Nat.add_comm, <- drop_drop, drop_app_length. done. }
  destruct (frac6_digits b Hb) as [Hfd _].
  destruct a as [|x a]; [done|]. cbn [app]. cbn [app] in Hs. rewrite Hs.
  assert (Byte.eqb x x2d = false) as ->.
  { cbn in Ha. apply andb_true_iff in Ha as [Hx _]. by destruct x. }
  rewrite Ha, Hb. cbn [negb]. rewrite bool_decide_false by done.
  rewrite SetString10_digits by (apply all_digits_true; rewrite forallb_app, Ha, Hfd; done). cbn [mbind option_bind].
  pose proof (dec_value_bound ((x :: a) ++ frac6 b)) as Hd. rewrite forallb_app, Ha, Hfd in Hd. specialize (Hd eq_refl).
  rewrite (proj2 (Z.ltb_ge _ _)), (proj2 (Z.ltb_ge _ _)) by lia. done.
Qed.

Lemma format_fields amt :
  0 <= amt -> forallb is_digit (dec_string (amt / coinScale)) = true /\
  forallb is_digit (fmt_padded 6 (amt mod coinScale)) = true /\ length (fmt_padded 6 (amt mod coinScale)) = 6%nat /\
  dec_value (dec_string (amt / coinScale) ++ fmt_padded 6 (amt mod coinScale)) = amt.
Proof.
  intros Ha. assert (0 <= amt / coinScale) as Hq by (apply Z.div_pos; unfold coinScale; lia).
  pose proof (Z.mod_pos_bound amt coinScale ltac:(unfold coinScale; lia)) as Hr.
  assert (length (fmt_padded 6 (amt mod coinScale)) = 6%nat) as Hl by (apply padded_length; [exact Hr|lia]).
  split_and!; [by apply dec_string_forall|apply pad_digits, dec_string_forall; lia|done|].
  rewrite dec_value_app. unfold zlen. rewrite Hl. unfold fmt_padded, pad_left. rewrite dec_value_zeros.
  rewrite !dec_value_string by lia. change (10 ^ Z.of_nat 6) with coinScale. pose proof (Z.div_mod amt coinScale). unfold coinScale in *. lia.
Qed.

Lemma count_decimals_after s n zeros :
  0 <= zeros -> exists z, count_decimals s true n zeros = (n + zlen s, z) /\ 0 <= z.
Proof.
  revert n zeros; induction s as [|c s IH]; intros n zeros Hz; cbn -[Z.add].
  { exists zeros. split; [|done]. f_equal. change (zlen (@nil byte)) with 0. lia. }
  destruct (IH (n + 1) (if Byte.eqb c x30 then zeros + 1 else 0)) as (z & -> & Hz'); [case_match; lia|].
  exists z. rewrite zlen_cons. split; [f_equal; lia|done].
Qed.

Lemma count_decimals_before a s : x2e ∉ a -> count_decimals (a ++ s) false 0 0 = count_decimals s false 0 0.
Proof.
  induction a as [|c a IH]; intros H; [done|]. cbn. rewrite IH by set_solver.
  destruct (Byte.eqb c x2e) eqn:E; [|done]. apply Byte.byte_dec_bl in E. subst. set_solver.
Qed.

(** A shown amount reads back as itself, over the whole 64-bit range, within
    the precision an order may be given with; and the reader takes exactly six
    decimals: whatever digits follow are dropped. *)
Theorem XAmount_roundtrip (amt : Z) :
  0 <= amt <= maxXAmount ->
  parseXAmount (formatXAmount amt) = Some amt /\ xBridgeValidCoin (formatXAmount amt) = true /\
  (forall d, forallb is_digit d = true -> parseXAmount (formatXAmount amt ++ d) = Some amt).
Proof.
  intros Ha. destruct (format_fields amt ltac:(lia)) as (Hi & Hf & Hl & Hv).
  assert (forall d, forallb is_digit d = true -> parseXAmount (formatXAmount amt ++ d) = Some amt) as Hd.
  { intros d Hdd. unfold formatXAmount. rewrite <- !app_assoc.
    assert (frac6 (fmt_padded 6 (amt mod coinScale) ++ d) = fmt_padded 6 (amt mod coinScale)) as Hfr.
    { unfold frac6. rewrite take_app_le, take_ge by lia. rewrite Hl. apply app_nil_r. }
    rewrite parseXAmount_fields; rewrite ?Hfr, ?Hv; try done; [| |lia].
    - intros E. apply dec_string_nonempty in E; [done|]. apply Z.div_pos; unfold coinScale; lia.
    - by rewrite forallb_app, Hf, Hdd. }
  split_and!; [|  |done].
  - rewrite <- (app_nil_r (formatXAmount amt)). by apply Hd.
  - unfold xBridgeValidCoin, formatXAmount. rewrite count_decimals_before by (by apply digits_no_dot).
    cbn [app count_decimals negb andb]. change (Byte.eqb x2e x2e) with true. cbv iota.
    destruct (count_decimals_after (fmt_padded 6 (amt mod coinScale)) 0 0) as (z & -> & Hz); [done|].
    change (xBridgeSignificantDigits coinScale) with 6. unfold zlen. rewrite Hl. apply Z.leb_le. lia.
Qed.

Lemma XAmount_roundtrip_witness :
  formatXAmount 1500000 = bytes_of "1.500000" /\ parseXAmount (bytes_of "1.500000") = Some 1500000 /\
  parseXAmount (bytes_of "1.5000009") = Some 1500000.
Proof.
  split; [by vm_compute|].
  destruct (XAmount_roundtrip 1500000) as (H1 & _ & H2); [split; by vm_compute|].
  split; [exact H1|]. exact (H2 (bytes_of "9") eq_refl).
Defined.

(** Negative, signed and exponent forms are not amounts. *)
Example bad_amounts :
  map parseXAmount [bytes_of "-1"; bytes_of "+1"; bytes_of "1e3"; bytes_of "1.2.3"; bytes_of " 7 "; bytes_of ".5"; bytes_of "18446744073709.551616"] =
  [None; None; None; None; Some 7000000; Some 500000; None].
Proof. by vm_compute. Qed.

(** ** Order ids *)

Lemma hex_prefix_encode b rest :
  match rest with [] => True | c :: _ => hexDigit c = None end ->
  hex_prefix (EncodeToString b ++ rest) = concat (map (fun x => [byte.unsigned x / 16; byte.unsigned x mod 16]) b).
Proof.
  intros Hr. induction b as [|x b IH].
  - cbn. destruct rest as [|c rest]; [done|]. cbn. by rewrite Hr.
  - pose proof (byte_unsigned_ok x) as Hx. unfold uint_ok in Hx.
    change (EncodeToString (x :: b)) with (hex_char (byte.unsigned x / 16) :: hex_char (byte.unsigned x mod 16) :: EncodeToString b).
    cbn [app hex_prefix]. unfold hexDigit.
    rewrite !hex_char_val by (try apply Z.mod_pos_bound; try (split; [apply Z.div_pos|apply Z.div_lt_upper_bound]); lia).
    by rewrite IH.
Qed.

Lemma nibbles_bytes b : nibbles (concat (map (fun x => [byte.unsigned x mod 16; byte.unsigned x / 16]) b)) = b.
Proof.
  induction b as [|x b IH]; [done|]. cbn [map concat app nibbles]. rewrite IH. f_equal.
  pose proof (byte_unsigned_ok x) as Hx. unfold uint_ok in Hx.
  rewrite Z.lor_comm. rewrite (proj2 (shiftl_plus (byte.unsigned x / 16) 4 (byte.unsigned x mod 16) ltac:(lia) ltac:(apply Z.mod_pos_bound; lia))).
  replace (byte.unsigned x / 16 * 2 ^ 4 + byte.unsigned x mod 16) with (byte.unsigned x) by (pose proof (Z.div_mod (byte.unsigned x) 16); lia).
  apply byte.of_Z_unsigned.
Qed.

Lemma rev_concat_pairs {A B} (f g : A -> B) l :
  rev (concat (map (fun x => [f x; g x]) l)) = concat (map (fun x => [g x; f x]) (rev l)).
Proof.
  induction l as [|x l IH]; [done|]. cbn. rewrite IH, map_app, concat_app. cbn. by rewrite <- app_assoc.
Qed.

Lemma concat_pairs_length {A B} (f g : A -> B) l : length (concat (map (fun x => [f x; g x]) l)) = (2 * length l)%nat.
Proof. induction l as [|x l IH]; cbn in *; lia. Qed.

Lemma hex_char_plain v : 0 <= v < 16 -> isSpace (hex_char v) = false /\ Byte.eqb (hex_char v) x78 = false /\ Byte.eqb (hex_char v) x58 = false.
Proof.
  intros Hv. assert (H : forallb (fun n => negb (isSpace (hex_char (Z.of_nat n))) && negb (Byte.eqb (hex_char (Z.of_nat n)) x78)
    && negb (Byte.eqb (hex_char (Z.of_nat n)) x58)) (seq 0 16) = true) by by vm_compute.
  rewrite forallb_forall in H. specialize (H (Z.to_nat v)). rewrite in_seq, Z2Nat.id in H by lia.
  specialize (H ltac:(lia)). destruct (isSpace _), (Byte.eqb _ x78), (Byte.eqb _ x58); done.
Qed.

(** The id a client was shown leads back to the order: 64 digits read as the
    32 bytes they were printed from, whatever the case, with spaces and a 0x
    in front, or anything that is no digit behind; and the key of the book is
    the hexadecimal of the raw bytes. *)
Theorem orderID_roundtrip (id rest : bytes) :
  length id = 32%nat -> match rest with [] => True | c :: _ => hexDigit c = None end ->
  parseOrderIDS (orderIDString id ++ rest) = id /\ parseOrderIDS (bytes_of " 0x" ++ orderIDString id ++ rest) = id /\
  orderIDKey (orderIDString id) = EncodeToString id.
Proof.
  intros Hl Hr.
  assert (forall rest, match rest with [] => True | c :: _ => hexDigit c = None end ->
    let b := nibbles (take 64 (rev (hex_prefix (orderIDString id ++ rest)))) in b ++ repeat x00 (32 - length b) = id) as Hn.
  { intros r Hr'. cbv zeta. unfold orderIDString, hexEncode. rewrite hex_prefix_encode by done. rewrite rev_concat_pairs, rev_involutive.
    rewrite take_ge, nibbles_bytes, Hl; [by rewrite app_nil_r|].
    rewrite concat_pairs_length, Hl. lia. }
  assert (forall r, match r with [] => True | c :: _ => hexDigit c = None end ->
    skip_spaces (orderIDString id ++ r) = orderIDString id ++ r /\ skip_0x (orderIDString id ++ r) = orderIDString id ++ r) as Hs.
  { intros r _. unfold orderIDString, hexEncode. destruct (rev id) as [|x l] eqn:E; [apply (f_equal length) in E; rewrite length_rev, Hl in E; done|].
    pose proof (byte_unsigned_ok x) as Hx. unfold uint_ok in Hx.
    change (EncodeToString (x :: l)) with (hex_char (byte.unsigned x / 16) :: hex_char (byte.unsigned x mod 16) :: EncodeToString l).
    cbn [app skip_spaces skip_0x].
    destruct (hex_char_plain (byte.unsigned x / 16)) as (-> & _); [split; [apply Z.div_pos|apply Z.div_lt_upper_bound]; lia|].
    destruct (hex_char_plain (byte.unsigned x mod 16)) as (_ & -> & ->); [apply Z.mod_pos_bound; lia|]. by rewrite andb_false_r. }
  split_and!.
  - destruct (Hs rest Hr) as [H1 H2]. unfold parseOrderIDS. rewrite H1, H2. by apply Hn.
  - change (parseOrderIDS (bytes_of " 0x" ++ orderIDString id ++ rest)) with
      (let b := nibbles (take 64 (rev (hex_prefix (orderIDString id ++ rest)))) in b ++ repeat x00 (32 - length b)). by apply Hn.
  - unfold orderIDKey. f_equal. destruct (Hs [] I) as [H1 H2]. rewrite app_nil_r in H1, H2. unfold parseOrderIDS. rewrite H1, H2.
    pose proof (Hn [] I) as H. by rewrite app_nil_r in H.
Qed.

Lemma orderID_roundtrip_witness :
  parseOrderIDS (orderIDString (repeat x0a 31 ++ [x0b]) ++ bytes_of " x") = repeat x0a 31 ++ [x0b].
Proof. apply (orderID_roundtrip (repeat x0a 31 ++ [x0b]) (bytes_of " x")); by vm_compute. Defined.
