(* ===== verification/Calendar.v ===== *)
(** * Times as text (time.Unix, Format)

    The civil date of a day number, the ISO 8601 text of a time in microseconds
    as the RPC replies carry it, and a reader of such texts.
    [iso8601_reads]: the text of a time before the year 2262 is read back to its
    millisecond. *)

From S2P Require Import Prelude Digits GoLib HttpLib Float XAmount.

(** ** Days and dates of the proleptic Gregorian calendar *)

(** The day number of a date, day 0 being 1970-01-01; years run from March. *)
Definition days_from_civil (y m d : Z) : Z :=
  let y := if m <=? 2 then y - 1 else y in
  let era := y / 400 in
  let yoe := y - era * 400 in
  let doy := (153 * (if 2 <? m then m - 3 else m + 9) + 2) / 5 + d - 1 in
  let doe := yoe * 365 + yoe / 4 - yoe / 100 + doy in
  era * 146097 + doe - 719468.

(** Year (from March) and day of the year within an era of 400 years: centuries,
    cycles of four years, years; the leap day is the last one of its cycle. *)
Definition year_of_doe (doe : Z) : Z * Z :=
  let n100 := Z.min 3 (doe / 36524) in
  let r := doe - n100 * 36524 in
  let r4 := r - r / 1461 * 1461 in
  let n1 := Z.min 3 (r4 / 365) in
  (100 * n100 + 4 * (r / 1461) + n1, r4 - 365 * n1).

(** Month and day of a day of the year. *)
Definition month_of_doy (doy : Z) : Z * Z :=
  let mp := (5 * doy + 2) / 153 in
  ((if mp <? 10 then mp + 3 else mp - 9), doy - (153 * mp + 2) / 5 + 1).

Definition civil_of_doe (doe : Z) : Z * Z * Z :=
  let '(yoe, doy) := year_of_doe doe in
  let '(m, d) := month_of_doy doy in
  ((if m <=? 2 then yoe + 1 else yoe), m, d).

Definition civil_from_days (z : Z) : Z * Z * Z :=
  let z := z + 719468 in
  let '(y, m, d) := civil_of_doe (z mod 146097) in
  (z / 146097 * 400 + y, m, d).

(** ** ISO 8601 *)

(** [time.Unix(0, ns).UTC().Format("2006-01-02T15:04:05.000Z")] for the years
    0 to 9999, the only ones an int64 of nanoseconds reaches. *)
Definition format_ns (ns : Z) : bytes :=
  let sec := ns / 1000000000 in
  let '(y, m, d) := civil_from_days (sec / 86400) in
  let s := sec mod 86400 in
  fmt_padded 4 y ++ x2d :: fmt_padded 2 m ++ x2d :: fmt_padded 2 d ++ x54 ::
  fmt_padded 2 (s / 3600) ++ x3a :: fmt_padded 2 (s / 60 mod 60) ++ x3a :: fmt_padded 2 (s mod 60) ++ x2e ::
  fmt_padded 3 (ns mod 1000000000 / 1000000) ++ [x5a].

Definition iso8601 (us : Z) : bytes :=
  if us =? 0 then bytes_of "1970-01-01T00:00:00.000Z"
  else format_ns (swrap64 (swrap64 us * 1000)).

Example iso_samples :
  iso8601 0 = bytes_of "1970-01-01T00:00:00.000Z" /\
  iso8601 1519516800000000 = bytes_of "2018-02-25T00:00:00.000Z" /\
  iso8601 1709210096789999 = bytes_of "2024-02-29T12:34:56.789Z" /\
  iso8601 (2 ^ 64 - 1) = bytes_of "1969-12-31T23:59:59.999Z" /\
  (** past 2262 the nanoseconds wrap *)
  iso8601 9223372036854776 = bytes_of "1677-09-21T00:12:43.145Z".
Proof. by vm_compute. Qed.

(** ** Reading a text back *)

Definition num (n : nat) (s : bytes) : Z := dec_value (take n s).

Definition read_iso (s : bytes) : Z :=
  let days := days_from_civil (num 4 s) (num 2 (drop 5 s)) (num 2 (drop 8 s)) in
  ((days * 24 + num 2 (drop 11 s)) * 60 + num 2 (drop 14 s)) * 60000 + num 2 (drop 17 s) * 1000 + num 3 (drop 20 s).

(** ** Laws *)

(** Every day of a year has a month and a day of it. *)
Definition doy_ok (doy : Z) : bool :=
  let '(m, d) := month_of_doy doy in
  ((153 * (if 2 <? m then m - 3 else m + 9) + 2) / 5 + d - 1 =? doy) && (1 <=? m) && (m <=? 12) && (1 <=? d) && (d <=? 31).

Lemma doys_ok doy : 0 <= doy < 366 -> doy_ok doy = true.
Proof.
  intros H. assert (forallb doy_ok (map Z.of_nat (seq 0 366)) = true) as Ha by by vm_compute.
  rewrite forallb_forall in Ha. apply Ha, in_map_iff. exists (Z.to_nat doy). split; [lia|]. apply in_seq. lia.
Qed.

Lemma year_of_doe_ok doe : 0 <= doe < 146097 -> let '(yoe, doy) := year_of_doe doe in
  0 <= yoe < 400 /\ 0 <= doy < 366 /\ yoe * 365 + yoe / 4 - yoe / 100 + doy = doe.
Proof.
  intros H. unfold year_of_doe. set (n := Z.min 3 (doe / 36524)). set (r := doe - n * 36524).
  assert (0 <= n <= 3 /\ 0 <= r <= 36524) as [Hn Hr] by (subst r n; zdiv).
  set (q := r / 1461). set (r4 := r - q * 1461). assert (0 <= q <= 24 /\ 0 <= r4 < 1461) as [Hq Hr4] by (subst r4 q; zdiv).
  set (k := Z.min 3 (r4 / 365)). assert (0 <= k <= 3 /\ 0 <= r4 - 365 * k < 366) as [Hk Hd] by (subst k; zdiv).
  replace ((100 * n + 4 * q + k) / 4) with (25 * n + q) by zdiv. replace ((100 * n + 4 * q + k) / 100) with n by zdiv.
  subst r4 r. split_and!; lia.
Qed.

Lemma civil_of_doe_ok doe : 0 <= doe < 146097 -> let '(y, m, d) := civil_of_doe doe in
  days_from_civil y m d = doe - 719468 /\ 0 <= y <= 400 /\ 1 <= m <= 12 /\ 1 <= d <= 31.
Proof.
  intros H. unfold civil_of_doe. pose proof (year_of_doe_ok doe H) as Hy. destruct (year_of_doe doe) as [yoe doy].
  destruct Hy as (Hy & Hd & He). pose proof (doys_ok doy Hd) as Hm. unfold doy_ok in Hm. destruct (month_of_doy doy) as [m d].
  rewrite !andb_true_iff, !Z.leb_le, Z.eqb_eq in Hm. destruct Hm as ((((H1 & H2) & H3) & H4) & H5).
  unfold days_from_civil. replace (if m <=? 2 then (if m <=? 2 then yoe + 1 else yoe) - 1 else if m <=? 2 then yoe + 1 else yoe) with yoe by (destruct (m <=? 2); lia).
  rewrite (Z.div_small yoe 400) by lia. replace (yoe - 0 * 400) with yoe by lia. destruct (m <=? 2); lia.
Qed.

Lemma days_from_civil_era k y m d : days_from_civil (k * 400 + y) m d = k * 146097 + days_from_civil y m d.
Proof.
  unfold days_from_civil. set (y' := if m <=? 2 then y - 1 else y).
  replace (if m <=? 2 then k * 400 + y - 1 else k * 400 + y) with (y' + k * 400) by (subst y'; case_match; lia).
  rewrite Z.div_add by lia. replace (y' + k * 400 - (y' / 400 + k) * 400) with (y' - y' / 400 * 400) by lia. lia.
Qed.

Lemma civil_roundtrip z : let '(y, m, d) := civil_from_days z in
  days_from_civil y m d = z /\ 1 <= m <= 12 /\ 1 <= d <= 31 /\ (z + 719468) / 146097 * 400 <= y <= (z + 719468) / 146097 * 400 + 400.
Proof.
  unfold civil_from_days. set (k := (z + 719468) / 146097). set (doe := (z + 719468) mod 146097).
  pose proof (Z.mod_pos_bound (z + 719468) 146097 ltac:(lia)) as Hb. pose proof (Z.div_mod (z + 719468) 146097 ltac:(lia)) as Hd.
  pose proof (civil_of_doe_ok doe ltac:(subst doe; lia)) as H. destruct (civil_of_doe doe) as [[y m] d].
  destruct H as (H1 & H2 & H3 & H4). rewrite days_from_civil_era, H1. split_and!; subst k doe; lia.
Qed.

Lemma padded_value n v : (0 < n)%nat -> 0 <= v < 10 ^ Z.of_nat n -> length (fmt_padded n v) = n /\ dec_value (fmt_padded n v) = v.
Proof.
  intros Hn Hv. split; [by apply padded_length|]. unfold fmt_padded, pad_left. rewrite dec_value_zeros. apply dec_value_string. lia.
Qed.

(** Reading a field that starts with a padded number. *)
Lemma num_padded n v t : (0 < n)%nat -> 0 <= v < 10 ^ Z.of_nat n -> num n (fmt_padded n v ++ t) = v.
Proof. intros Hn Hv. destruct (padded_value n v Hn Hv) as [Hl Hd]. unfold num. by rewrite take_app_length' by done. Qed.

Lemma drop_field n v k c t : (0 < n)%nat -> 0 <= v < 10 ^ Z.of_nat n -> drop (n + S k) (fmt_padded n v ++ c :: t) = drop k t.
Proof. intros Hn Hv. destruct (padded_value n v Hn Hv) as [Hl _]. rewrite <- drop_drop, drop_app_length' by done. done. Qed.

(** The text of a time from 1970 to 2262 reads back to its millisecond. *)
Lemma format_ns_reads ns : 0 <= ns < 2 ^ 63 -> read_iso (format_ns ns) = ns / 1000000.
Proof.
  intros Hns. unfold format_ns. set (sec := ns / 1000000000). set (s := sec mod 86400).
  assert (0 <= sec < 9223372037) as Hsec by (subst sec; zdiv).
  pose proof (civil_roundtrip (sec / 86400)) as H. destruct (civil_from_days (sec / 86400)) as [[y m] d].
  destruct H as (Hd & Hm & Hdd & Hy).
  assert (4 <= (sec / 86400 + 719468) / 146097 <= 5) by zdiv.
  assert (0 <= s < 86400) as Hs by (subst s; zdiv).
  assert (0 <= s / 3600 < 24) as H1 by zdiv. assert (0 <= s / 60 mod 60 < 60) as H2 by zdiv. assert (0 <= s mod 60 < 60) as H3 by zdiv.
  assert (0 <= ns mod 1000000000 / 1000000 < 1000) as H4 by zdiv.
  unfold read_iso.
  rewrite (drop_field 4 y 0), (drop_field 4 y 3), (drop_field 4 y 6), (drop_field 4 y 9), (drop_field 4 y 12), (drop_field 4 y 15) by (cbn; lia).
  rewrite drop_0, (drop_field 2 m 0), (drop_field 2 m 3), (drop_field 2 m 6), (drop_field 2 m 9), (drop_field 2 m 12) by (cbn; lia).
  rewrite drop_0, (drop_field 2 d 0), (drop_field 2 d 3), (drop_field 2 d 6), (drop_field 2 d 9) by (cbn; lia).
  rewrite drop_0, (drop_field 2 (s / 3600) 0), (drop_field 2 (s / 3600) 3), (drop_field 2 (s / 3600) 6) by (cbn; lia).
  rewrite drop_0, (drop_field 2 (s / 60 mod 60) 0), (drop_field 2 (s / 60 mod 60) 3) by (cbn; lia).
  rewrite drop_0, (drop_field 2 (s mod 60) 0), drop_0 by (cbn; lia).
  rewrite !num_padded by (cbn; lia). rewrite Hd. clear -Hs Hns. subst s sec. zdiv.
Qed.

(** The text of a time in microseconds reads back to its millisecond, up to the
    year 2262. *)
Theorem iso8601_reads us : 0 <= us < 9223372036854775 -> read_iso (iso8601 us) = us / 1000.
Proof.
  intros Hus. unfold iso8601. destruct (Z.eqb_spec us 0) as [->|Hne]; [by vm_compute|].
  rewrite (swrap64_small us) by lia. rewrite swrap64_small by lia. rewrite format_ns_reads by lia. zdiv.
Qed.

Lemma iso8601_reads_witness : read_iso (bytes_of "2024-02-29T12:34:56.789Z") = 1709210096789.
Proof. exact (iso8601_reads 1709210096789999 ltac:(lia)). Defined.
