(* ===== verification/Decimal.v ===== *)
(** * Decimal text of binary64 values (strconv)

    [strconv.ParseFloat] of the plain decimals the daemon writes, rounded once
    from the exact fraction; the shortest decimal that reads back as a value, as
    encoding/json writes a [float64] between 10^-6 and 10^21; [math.Round] and
    the comparison of two prices to within the doubleEpsilon of C++. *)

From Stdlib Require Import SpecFloat.
From S2P Require Import Prelude Digits GoLib Price Wallet Float XAmount.

(** The value nearest to [num/den], both positive or [num] zero. *)
Definition f64_ratio (num den : Z) : f64 :=
  match num, den with
  | Z.pos n, Z.pos d => SFdiv 53 1024 (S754_finite false n 0) (S754_finite false d 0)
  | _, _ => f64_zero
  end.

(** A plain decimal: digits, with or without a point; [None] is an error. *)
Definition ParseFloat (s : bytes) : option f64 :=
  let '(ip, fp) := split_dot s in
  if all_digits (ip ++ fp) then Some (f64_ratio (dec_value (ip ++ fp)) (10 ^ zlen fp)) else None.

(** ** The shortest decimal *)

Section Shortest.
(** The value and the ends of the interval that rounds to it, over a common
    denominator; [incl]: the ends belong to it. *)
Variable (v lo hi den : Z) (incl : bool).

Definition inside (c : Z) (k : Z) : bool :=
  let x := if 0 <=? k then c * 10 ^ k * den else c * den in
  let s := if 0 <=? k then 1 else 10 ^ (- k) in
  if incl then (lo * s <=? x) && (x <=? hi * s) else (lo * s <? x) && (x <? hi * s).

(** The multiple of 10^k in the interval that is nearest to the value. *)
Definition nearest_at (k : Z) : option Z :=
  let num := if 0 <=? k then v else v * 10 ^ (- k) in
  let d := if 0 <=? k then den * 10 ^ k else den in
  let q := num / d in
  let down := (0 <? q) && inside q k in
  let up := inside (q + 1) k in
  if down && up then Some (if d <? 2 * (num - q * d) then q + 1 else q)
  else if down then Some q else if up then Some (q + 1) else None.

(** From the coarsest power of ten on. *)
Fixpoint shortest_from (fuel : nat) (k : Z) : option (Z * Z) :=
  match fuel with
  | O => None
  | S fuel => match nearest_at k with Some c => Some (c, k) | None => shortest_from fuel (k - 1) end
  end.
End Shortest.

(** 10^21 is above every value written this way and 10^-30 is finer than any of their intervals. *)
Definition shortest_fuel : nat := 52.

Definition decimal_text (c k : Z) : bytes :=
  if 0 <=? k then dec_string (c * 10 ^ k)
  else dec_string (c / 10 ^ (- k)) ++ x2e :: pad_left (Z.to_nat (- k)) (dec_string (c mod 10 ^ (- k))).

(** The shortest decimal [c * 10^k] that rounds to a positive value, sought from 10^k down. *)
Definition shortest_decimal (fuel : nat) (k : Z) (m : positive) (e : Z) : option (Z * Z) :=
  let low := if (Z.pos m =? 2 ^ 52) then 1 else 2 in
  let scale := if 0 <=? e - 2 then 2 ^ (e - 2) else 1 in
  let den := if 0 <=? e - 2 then 1 else 2 ^ (2 - e) in
  shortest_from (4 * Z.pos m * scale) ((4 * Z.pos m - low) * scale) ((4 * Z.pos m + 2) * scale) den (Z.even (Z.pos m)) fuel k.

(** [strconv.AppendFloat(b, f, 'f', -1, 64)] *)
Definition FormatFloat_shortest (f : f64) : bytes :=
  match f with
  | S754_finite s m e =>
      match shortest_decimal shortest_fuel 21 m e with
      | Some (c, k) => (if s : bool then [x2d] else []) ++ decimal_text c k
      | None => []
      end
  | _ => [x30]
  end.

Example shortest_samples :
  map (fun s => FormatFloat_shortest <$> ParseFloat (bytes_of s)) ["0.000001"; "1.500000"; "0.000000"; "100000000.000000"; "0.100000"; "18446744073709.551615"; "9007199254.740993"]%string =
  map (fun s => Some (bytes_of s)) ["0.000001"; "1.5"; "0"; "100000000"; "0.1"; "18446744073709.55"; "9007199254.740993"]%string.
Proof. by vm_compute. Qed.

(** ** Rounding and comparing prices *)

(** [math.Round] of a value that is not negative. *)
Definition math_Round (v : f64) : f64 :=
  match f64_frac v with
  | Some (_, num, den) => f64_of ((2 * num + den) / (2 * den))
  | None => v
  end.

Definition quantizePrice (price : f64) : f64 := f64_div (math_Round (f64_mul price (f64_of 1000000))) (f64_of 1000000).

Definition f64_abs (v : f64) : f64 := SFabs v.

Definition floatCompare (a b : f64) : bool :=
  f64_le (f64_div (f64_abs (f64_sub a b)) (f64_abs a)) doubleEpsilon && f64_le (f64_div (f64_abs (f64_sub a b)) (f64_abs b)) doubleEpsilon.

Example price_samples :
  quantizePrice (f64_ratio 1 3) = f64_ratio 333333 1000000 /\ quantizePrice (f64_ratio 1 10000000) = f64_zero /\
  floatCompare (f64_ratio 1 3) (f64_ratio 1 3) = true /\ floatCompare (f64_ratio 1 3) (f64_ratio 333333 1000000) = false.
Proof. by vm_compute. Qed.
