(* ===== verification/Store.v ===== *)
(** * The order book (api/store.go)

    The store's methods as functions of its state. Orders are values: [Get],
    [List] and [History] return copies in the code. A loop over a Go map visits
    the entries in an arbitrary order: the methods that depend on it take the
    order of the keys as an argument, and the theorems hold for every one.
    [Lock] and [Locked] aside, rows are kept unformatted. *)

From S2P Require Import Prelude Sort GoLib Digits Hex Codec Bodies Conf Wallet Deposit Order.

Record historyEntry := mkHistoryEntry {
  h_ID : bytes;
  h_Status : string;
  h_Reason : Z;
  h_Updated : Z;
  h_Order : option Order;
}.

Record reservedKeys := mkReservedKeys {
  r_fee : list bytes;
  r_fund : list bytes;
  r_fundCurrency : bytes;
}.

Record Store := mkStore {
  st_orders : gmap bytes Order;
  st_locked : gmap bytes Order;
  st_history : list historyEntry;
  st_reserved : gmap bytes reservedKeys;
}.
#[export] Instance eta_Store : Eta Store := fun s => mkStore (st_orders s) (st_locked s) (st_history s) (st_reserved s).

Definition NewStore : Store := mkStore ∅ ∅ [] ∅.

(** ** Reading and writing the book *)

Definition Add (o : Order) (s : Store) : Store := s <| st_orders ::= <[orderKey (o_ID o) := o]> |>.
Definition Store_Get (s : Store) (idHex : bytes) : option Order := st_orders s !! idHex.
Definition Update (idHex : bytes) (fn : Order -> Order) (s : Store) : Store := s <| st_orders ::= alter fn idHex |>.

Definition Touch (idHex : bytes) (now : Z) (s : Store) : bool * Store :=
  match st_orders s !! idHex with
  | Some ex => if String.eqb (o_Status ex) "canceled" then (false, s)
               else (true, s <| st_orders ::= <[idHex := ex <| o_Updated := now |>]> |>)
  | None => (false, s)
  end.

Definition Remove (idHex : bytes) (s : Store) : Store := s <| st_orders ::= delete idHex |>.
Definition Mine (s : Store) : gmap bytes Order := filter (fun ko => o_Mine (snd ko) = true) (st_orders s).
Definition Lock (o : Order) (s : Store) : Store := s <| st_locked ::= <[orderKey (o_ID o) := o]> |>.
Definition Locked (s : Store) : gmap bytes Order := st_locked s.

(** ** History *)

Definition in_history (idHex : bytes) (s : Store) : bool := existsb (fun e => bool_decide (h_ID e = idHex)) (st_history s).

Definition historyLocked (idHex : bytes) (status : string) (reason updated : Z) (o : option Order) (s : Store) : Store :=
  if in_history idHex s then s
  else
    let snap := (fun o => o <| o_Status := status |> <| o_Updated := updated |>) <$> o in
    s <| st_history ::= fun h => h ++ [mkHistoryEntry idHex status reason updated snap] |>.

Definition MoveToHistory (idHex : bytes) (status : string) (reason updated : Z) (s : Store) : Store :=
  match st_orders s !! idHex with
  | None => s
  | Some o => historyLocked idHex status (wrap 32 reason) updated (Some o) (s <| st_orders ::= delete idHex |>)
  end.

Definition HasOrder (idHex : bytes) (s : Store) : bool := bool_decide (is_Some (st_orders s !! idHex)) || in_history idHex s.

Definition AddToHistory (o : Order) (status : string) (reason updated : Z) (s : Store) : Store :=
  historyLocked (hexEncode (o_ID o)) status (wrap 32 reason) updated (Some o) s.

Definition HistoryOrder (idHex : bytes) (s : Store) : option Order :=
  e ← List.find (fun e => bool_decide (h_ID e = idHex) && bool_decide (is_Some (h_Order e))) (st_history s); h_Order e.

(** ** Pruning *)

Definition PruneUnconnected (kept : gset bytes) (s : Store) : Store :=
  s <| st_orders ::= filter (fun ko => o_Mine (snd ko) = true \/ (o_FromCurrency (snd ko) ∈ kept /\ o_ToCurrency (snd ko) ∈ kept)) |>.

Definition ageSec (nowUs ts : Z) : Z := if nowUs <=? ts then 0 else (nowUs - ts) / 1000000.

Definition is_expired (nowUs currentBlock : Z) (o : Order) : bool :=
  let created := ageSec nowUs (o_Created o) in
  let updated := ageSec nowUs (o_Updated o) in
  if String.eqb (o_Status o) "created" then
    let blockExpired := negb (o_BlockNumber o =? 0) && negb (currentBlock =? 0) && (o_BlockNumber o <? currentBlock)
      && (BlocksTTL <? currentBlock - o_BlockNumber o) in
    blockExpired || (DeadlineTTL <? created) || (TTL <? updated)
  else (PendingTTL <? updated) || (DeadlineTTL <? created).

(** The loop body of [PruneExpired]. *)
Definition prune_one (nowUs currentBlock : Z) (inSwap : gset bytes) (acc : Store * list bytes) (key : bytes) : Store * list bytes :=
  let '(s, pruned) := acc in
  match st_orders s !! key with
  | None => (s, pruned)
  | Some o =>
      if bool_decide (key ∈ inSwap) then (s, pruned)
      else if negb (String.eqb (o_Status o) "created") && negb (String.eqb (o_Status o) "open") then (s, pruned)
      else if negb (bool_decide (o_PrepTx o = [])) then (s, pruned)
      else if is_expired nowUs currentBlock o
      then (historyLocked key "expired" crTimeout nowUs (Some o) s <| st_orders ::= delete key |>, pruned ++ [key])
      else (s, pruned)
  end.

Definition PruneExpired (nowUs currentBlock : Z) (inSwap : gset bytes) (keys : list bytes) (s : Store) : Store * list bytes :=
  let '(s, pruned) := fold_left (prune_one nowUs currentBlock inSwap) keys (s, []) in
  (s, sort_by bytes_lt pruned).

(** ** Locks and reservations *)

Definition vout_string (v : Z) : bytes := dec_string v.
Definition utxoEntryKey (e : UtxoEntry) : bytes := hexEncode (rev (Utxo_TxID e)) ++ bytes_of ":" ++ vout_string (Utxo_Vout e).
Definition utxoKey (u : Utxo) : bytes := u_TxID u ++ bytes_of ":" ++ vout_string (u_Vout u).

Definition order_keys (o : Order) : gset bytes := list_to_set (map utxoEntryKey (o_Utxos o) ++ map utxoKey (o_FeeUtxos o)).
Definition reserve_keys (r : reservedKeys) : gset bytes := list_to_set (r_fee r ++ r_fund r).

(** An order that holds its locks. *)
Definition holds (s : Store) (key : bytes) : bool :=
  match st_orders s !! key with Some o => negb (orderLockReleased (o_Status o)) | None => false end.

Definition lockedInfoLocked (s : Store) : gset bytes :=
  ⋃ (map (fun ko => if orderLockReleased (o_Status (snd ko)) then ∅ else order_keys (snd ko)) (map_to_list (st_orders s)))
  ∪ ⋃ (map (fun kr => if holds s (fst kr) then reserve_keys (snd kr) else ∅) (map_to_list (st_reserved s))).

Definition utxoCurrency (o : Order) : bytes :=
  if negb (bool_decide (o_UtxoCurrency o = [])) then o_UtxoCurrency o
  else if o_Role o =? RoleB then o_ToCurrency o
  else o_FromCurrency o.

Definition LockedUtxoInfoFor (ticker : bytes) (s : Store) : gset bytes :=
  ⋃ (map (fun ko => let o := snd ko in
       if orderLockReleased (o_Status o) then ∅
       else list_to_set (map utxoKey (o_FeeUtxos o)) ∪
            (if bool_decide (utxoCurrency o <> [] /\ utxoCurrency o <> ticker) then ∅
             else list_to_set (map utxoEntryKey (o_Utxos o)))) (map_to_list (st_orders s)))
  ∪ ⋃ (map (fun kr => let r := snd kr in
       if holds s (fst kr)
       then list_to_set (r_fee r) ∪ (if bool_decide (r_fundCurrency r = ticker) then list_to_set (r_fund r) else ∅)
       else ∅) (map_to_list (st_reserved s))).

Inductive takeReserve := reserveOrderBusy | reserveKeyCollision | reserveOrderGone | reserveOK.

Definition ReserveForTake (key : bytes) (feeKeys fundKeys : list bytes) (fundCurrency : bytes) (s : Store) : takeReserve * Store :=
  match st_orders s !! key with
  | None => (reserveOrderGone, s)
  | Some o =>
      if isOrderTerminal (o_Status o) then (reserveOrderGone, s)
      else if bool_decide (is_Some (st_reserved s !! key)) then (reserveOrderBusy, s)
      else
        let locked := lockedInfoLocked s in
        if existsb (fun k => bool_decide (k ∈ locked)) (feeKeys ++ fundKeys) then (reserveKeyCollision, s)
        else if 0 <? zlen feeKeys + zlen fundKeys
             then (reserveOK, s <| st_reserved ::= <[key := mkReservedKeys feeKeys fundKeys fundCurrency]> |>)
             else (reserveOK, s)
  end.

Definition ReleaseReserve (key : bytes) (s : Store) : Store := s <| st_reserved ::= delete key |>.

(** ** FlushCancelled *)

Record flushedOrder := mkFlushedOrder { f_ID : bytes; f_Txtime : Z }.

Definition keep_time (minAgeMillis now : Z) : Z :=
  if minAgeMillis <=? (2 ^ 63 - 1) / 1000 then
    let sub := minAgeMillis * 1000 in
    if sub <=? now then now - sub else 0
  else 0.

Definition flushable (status : string) (updated keepTime : Z) : bool :=
  String.eqb (statusString status) "canceled" && (updated <? keepTime).

Definition flush_one (keepTime : Z) (acc : gmap bytes Order * list flushedOrder) (key : bytes) : gmap bytes Order * list flushedOrder :=
  let '(orders, flushed) := acc in
  match orders !! key with
  | Some o => if flushable (o_Status o) (o_Updated o) keepTime
              then (delete key orders, flushed ++ [mkFlushedOrder (o_ID o) (o_Updated o)]) else (orders, flushed)
  | None => (orders, flushed)
  end.

Definition historyOrderID (e : historyEntry) : bytes :=
  match h_Order e with
  | Some o => o_ID o
  | None => match DecodeString (h_ID e) with
            | Some raw => if zlen raw =? 32 then raw else repeat x00 32
            | None => repeat x00 32
            end
  end.

Definition FlushCancelled (minAgeMillis now : Z) (keys : list bytes) (s : Store) : Store * list flushedOrder :=
  let keepTime := keep_time minAgeMillis now in
  let '(orders, live) := fold_left (flush_one keepTime) keys (st_orders s, []) in
  let gone := List.filter (fun e => flushable (h_Status e) (h_Updated e) keepTime) (st_history s) in
  let kept := List.filter (fun e => negb (flushable (h_Status e) (h_Updated e) keepTime)) (st_history s) in
  let by_id a b := bytes_lt (f_ID a) (f_ID b) in
  (s <| st_orders := orders |> <| st_history := kept |>,
   sort_by by_id live ++ sort_by by_id (map (fun e => mkFlushedOrder (historyOrderID e) (h_Updated e)) gone)).

(** ** Fills *)

(** The rows of [dxGetOrderFills] before rendering: orders and times. *)
Definition fill_row (acc : list (Order * Z) * gset bytes) (o : Order) (status : string) (t : Z) : list (Order * Z) * gset bytes :=
  let '(out, seen) := acc in
  if negb (o_Mine o) || negb (String.eqb (statusString status) "finished") || bool_decide (orderKey (o_ID o) ∈ seen)
  then acc else (out ++ [(o, t)], {[orderKey (o_ID o)]} ∪ seen).

Definition Fills (keys : list bytes) (s : Store) : list (Order * Z) :=
  let acc := fold_left (fun acc e => match h_Order e with Some o => fill_row acc o (h_Status e) (h_Updated e) | None => acc end)
               (rev (st_history s)) ([], ∅) in
  let acc := fold_left (fun acc key => match st_orders s !! key with
                                      | Some o => fill_row acc o (o_Status o) (o_Updated o) | None => acc end) keys acc in
  sort_by (fun a b => if negb (snd a =? snd b) then snd b <? snd a
                      else bytes_lt (orderIDString (o_ID (fst a))) (orderIDString (o_ID (fst b)))) (fst acc).

(** ** Invariants of the store *)

Definition keys_ok (m : gmap bytes Order) : Prop := forall k o, m !! k = Some o -> k = orderKey (o_ID o).

Definition entry_ok (e : historyEntry) : Prop :=
  forall o, h_Order e = Some o -> o_Status o = h_Status e /\ o_Updated o = h_Updated e /\ h_ID e = orderKey (o_ID o).

Record Store_wf (s : Store) : Prop := mkStore_wf {
  wf_keys : keys_ok (st_orders s);
  wf_unique : NoDup (map h_ID (st_history s));
  wf_entries : Forall entry_ok (st_history s);
}.

(** The mutating methods, with their arguments. *)
Inductive StoreOp :=
| OpAdd (o : Order)
| OpUpdate (idHex : bytes) (fn : Order -> Order) (keeps_id : forall o, o_ID (fn o) = o_ID o)
| OpTouch (idHex : bytes) (now : Z)
| OpRemove (idHex : bytes)
| OpMove (idHex : bytes) (status : string) (reason updated : Z)
| OpAddToHistory (o : Order) (status : string) (reason updated : Z)
| OpPruneUnconnected (kept : gset bytes)
| OpPruneExpired (nowUs currentBlock : Z) (inSwap : gset bytes) (keys : list bytes)
| OpReserve (key : bytes) (feeKeys fundKeys : list bytes) (cur : bytes)
| OpRelease (key : bytes)
| OpLock (o : Order)
| OpFlush (minAgeMillis now : Z) (keys : list bytes).

Definition store_step (op : StoreOp) (s : Store) : Store :=
  match op with
  | OpAdd o => Add o s
  | OpUpdate idHex fn _ => Update idHex fn s
  | OpTouch idHex now => snd (Touch idHex now s)
  | OpRemove idHex => Remove idHex s
  | OpMove idHex status reason updated => MoveToHistory idHex status reason updated s
  | OpAddToHistory o status reason updated => AddToHistory o status reason updated s
  | OpPruneUnconnected kept => PruneUnconnected kept s
  | OpPruneExpired nowUs currentBlock inSwap keys => fst (PruneExpired nowUs currentBlock inSwap keys s)
  | OpReserve key feeKeys fundKeys cur => snd (ReserveForTake key feeKeys fundKeys cur s)
  | OpRelease key => ReleaseReserve key s
  | OpLock o => Lock o s
  | OpFlush minAgeMillis now keys => fst (FlushCancelled minAgeMillis now keys s)
  end.

Lemma in_history_elem idHex s : in_history idHex s = true <-> idHex ∈ map h_ID (st_history s).
Proof.
  unfold in_history. rewrite existsb_exists, list_elem_of_In, in_map_iff.
  split; [intros (e & He & H%bool_decide_eq_true); eauto|intros (e & H & He); exists e; split; [done|by apply bool_decide_eq_true]].
Qed.

Lemma keys_ok_subseteq m m' : m' ⊆ m -> keys_ok m -> keys_ok m'.
Proof. intros Hsub Hk k o Hl. apply Hk. by eapply lookup_weaken. Qed.

Lemma historyLocked_orders idHex status reason updated o s :
  st_orders (historyLocked idHex status reason updated o s) = st_orders s /\
  st_reserved (historyLocked idHex status reason updated o s) = st_reserved s.
Proof. unfold historyLocked. by destruct (in_history idHex s). Qed.

Lemma historyLocked_wf idHex status reason updated o s :
  Store_wf s -> (forall o', o = Some o' -> idHex = orderKey (o_ID o')) ->
  Store_wf (historyLocked idHex status reason updated o s) /\
  st_history s `prefix_of` st_history (historyLocked idHex status reason updated o s).
Proof.
  intros [Hk Hu He] Ho. unfold historyLocked. destruct (in_history idHex s) eqn:E; [done|].
  split; [|by apply prefix_app_r]. constructor; cbn; [done| |].
  - rewrite map_app. apply NoDup_app. split; [done|]. split; [|by apply NoDup_singleton].
    intros x Hx Hx'. apply list_elem_of_singleton in Hx' as ->. cbn in Hx. apply in_history_elem in Hx. congruence.
  - apply Forall_app. split; [done|]. constructor; [|constructor]. intros o' Ho'. cbn in Ho'.
    destruct o as [o''|]; [|done]. cbn in Ho'. injection Ho' as <-. cbn. split; [done|]. split; [done|]. by apply Ho.
Qed.

Lemma prune_one_wf nowUs cb inSwap key s pruned s' pruned' :
  Store_wf s -> prune_one nowUs cb inSwap (s, pruned) key = (s', pruned') ->
  Store_wf s' /\ st_history s `prefix_of` st_history s'.
Proof.
  intros Hwf. unfold prune_one. destruct (st_orders s !! key) as [o|] eqn:Ho; [|by intros [= <- <-]].
  repeat case_match; intros [= <- <-]; try done.
  destruct (historyLocked_wf key "expired" crTimeout nowUs (Some o) s Hwf) as [[Hk Hu He] Hpre].
  { intros o' [= <-]. by apply (wf_keys s Hwf). }
  split; [|done]. constructor; cbn; [|done|done]. eapply keys_ok_subseteq; [apply delete_subseteq|done].
Qed.

Lemma prune_fold_wf nowUs cb inSwap keys s pruned :
  Store_wf s ->
  let r := fold_left (prune_one nowUs cb inSwap) keys (s, pruned) in Store_wf (fst r) /\ st_history s `prefix_of` st_history (fst r).
Proof.
  revert s pruned. induction keys as [|k keys IH]; intros s pruned Hwf; [done|]. cbn [fold_left].
  destruct (prune_one nowUs cb inSwap (s, pruned) k) as [s1 p1] eqn:E.
  destruct (prune_one_wf _ _ _ _ _ _ _ _ Hwf E) as [Hwf1 Hp1].
  destruct (IH s1 p1 Hwf1) as [H1 H2]. split; [done|]. by etransitivity.
Qed.

Lemma flush_fold_subseteq keepTime keys m out :
  fst (fold_left (flush_one keepTime) keys (m, out)) ⊆ m.
Proof.
  revert m out. induction keys as [|k keys IH]; intros m out; [done|]. cbn [fold_left flush_one].
  destruct (m !! k) as [o|]; [|apply IH]. destruct (flushable _ _ _); [|apply IH].
  etransitivity; [apply IH|apply delete_subseteq].
Qed.

Lemma filter_map_NoDup {A B} (f : A -> B) (p : A -> bool) l : NoDup (map f l) -> NoDup (map f (List.filter p l)).
Proof.
  induction l as [|a l IH]; [done|]. cbn. intros [Ha Hl]%NoDup_cons. destruct (p a); [|by apply IH].
  cbn. apply NoDup_cons. split; [|by apply IH].
  intros Hin. apply Ha. apply list_elem_of_In, in_map_iff in Hin as (x & <- & Hx). apply filter_In in Hx as [Hx _].
  by apply list_elem_of_In, in_map.
Qed.

Lemma Forall_list_filter {A} (P : A -> Prop) (p : A -> bool) l : Forall P l -> Forall P (List.filter p l).
Proof. induction 1; cbn; [constructor|]. destruct (p x); [by constructor|done]. Qed.

Lemma store_step_wf op s : Store_wf s -> Store_wf (store_step op s).
Proof.
  intros Hwf. pose proof Hwf as [Hk Hu He]. destruct op; cbn [store_step]; try (constructor; cbn; done).
  - constructor; cbn; [|done|done]. intros k o' Hl. destruct (decide (k = orderKey (o_ID o))) as [->|Hne].
    + rewrite lookup_insert in Hl. destruct (decide _) in Hl; [|done]. by injection Hl as <-.
    + rewrite lookup_insert_ne in Hl by done. by apply Hk.
  - constructor; cbn; [|done|done]. intros k o' Hl. destruct (decide (k = idHex)) as [->|Hne].
    + rewrite lookup_alter in Hl. destruct (decide _) in Hl; [|done]. destruct (st_orders s !! idHex) as [o|] eqn:Eo; [|done].
      injection Hl as <-. rewrite keeps_id. by apply Hk.
    + rewrite lookup_alter_ne in Hl by done. by apply Hk.
  - unfold Touch. destruct (st_orders s !! idHex) as [ex|] eqn:Eo; [|done]. destruct (String.eqb _ _); [done|].
    constructor; cbn; [|done|done]. intros k o' Hl. destruct (decide (k = idHex)) as [->|Hne].
    + rewrite lookup_insert in Hl. destruct (decide _) in Hl; [|done]. injection Hl as <-. by apply Hk in Eo.
    + rewrite lookup_insert_ne in Hl by done. by apply Hk.
  - constructor; cbn; [|done|done]. eapply keys_ok_subseteq; [apply delete_subseteq|done].
  - unfold MoveToHistory. destruct (st_orders s !! idHex) as [o|] eqn:Eo; [|done].
    apply historyLocked_wf; [constructor; cbn; [|done|done]; eapply keys_ok_subseteq; [apply delete_subseteq|done]|].
    intros o' [= <-]. by apply Hk.
  - unfold AddToHistory. apply historyLocked_wf; [done|]. by intros o' [= <-].
  - constructor; cbn; [|done|done]. eapply keys_ok_subseteq; [apply map_filter_subseteq|done].
  - unfold PruneExpired. destruct (prune_fold_wf nowUs currentBlock inSwap keys s [] Hwf) as [H _].
    by destruct (fold_left _ keys _).
  - unfold ReserveForTake. destruct (st_orders s !! key); [|done]. destruct (isOrderTerminal _); [done|].
    case_bool_decide; [done|]. cbv zeta. destruct (existsb _ _); [done|]. by destruct (_ <? _).
  - unfold FlushCancelled. pose proof (flush_fold_subseteq (keep_time minAgeMillis now) keys (st_orders s) []) as Hsub.
    destruct (fold_left _ keys _) as [orders live]. cbn in Hsub |- *. constructor; cbn.
    + by eapply keys_ok_subseteq.
    + by apply filter_map_NoDup.
    + by apply Forall_list_filter.
Qed.

(** Records are appended; only a flush drops some, canceled ones. *)
Definition history_grows (op : StoreOp) (s : Store) : Prop :=
  let kept := List.filter (fun e => negb (String.eqb (statusString (h_Status e)) "canceled")) in
  match op with
  | OpFlush _ _ _ => kept (st_history s) = kept (st_history (store_step op s))
  | _ => st_history s `prefix_of` st_history (store_step op s)
  end.

Lemma store_step_history op s : Store_wf s -> history_grows op s.
Proof.
  intros Hwf. unfold history_grows. cbv zeta.
  pose proof Hwf as [Hk Hu He]. destruct op; cbn [store_step]; try done.
  - unfold Touch. destruct (st_orders s !! idHex); [|done]. by destruct (String.eqb _ _).
  - unfold MoveToHistory. destruct (st_orders s !! idHex) as [o|] eqn:Eo; [|done].
    set (s' := s <| st_orders ::= delete idHex |>). change (st_history s) with (st_history s').
    apply historyLocked_wf; [constructor; cbn; [|done|done]; eapply keys_ok_subseteq; [apply delete_subseteq|done]|].
    intros o' [= <-]. by apply Hk.
  - unfold AddToHistory. apply historyLocked_wf; [done|]. by intros o' [= <-].
  - unfold PruneExpired. destruct (prune_fold_wf nowUs currentBlock inSwap keys s [] Hwf) as [_ H].
    by destruct (fold_left _ keys _).
  - unfold ReserveForTake. destruct (st_orders s !! key); [|done]. destruct (isOrderTerminal _); [done|].
    case_bool_decide; [done|]. cbv zeta. destruct (existsb _ _); [done|]. by destruct (_ <? _).
  - unfold FlushCancelled. destruct (fold_left _ keys _) as [orders live]. cbn. clear Hu He Hk Hwf.
    induction (st_history s) as [|e h IH]; [done|]. cbn [List.filter]. unfold flushable at 1.
    destruct (String.eqb (statusString (h_Status e)) "canceled") eqn:Ec; cbn [andb negb].
    + destruct (Z.ltb _ _); cbn [negb List.filter]; [done|]. by rewrite Ec.
    + cbn [List.filter]. rewrite Ec. cbn [negb]. f_equal. apply IH.
Qed.

(** C16. Whatever the mutating methods do, in any sequence from an empty store: live
    orders are under their own id, the history has at most one record per id,
    and a record's snapshot carries the record's status and time. Records are
    only appended, so the first terminal state of an order is final, except by
    FlushCancelled, which keeps every record that is not canceled. *)
Theorem store_invariant (ops : list StoreOp) (op : StoreOp) :
  let s := fold_left (fun s op => store_step op s) ops NewStore in Store_wf s /\ history_grows op s.
Proof.
  cbv zeta. assert (Store_wf (fold_left (fun s op => store_step op s) ops NewStore)) as Hwf.
  { assert (Store_wf NewStore) as H0 by (constructor; cbn; [done|constructor|constructor]).
    revert H0. generalize NewStore. induction ops as [|o ops IH]; intros s H0; [done|]. cbn. by apply IH, store_step_wf. }
  split; [done|]. by apply store_step_history.
Qed.

(** ** Reservations *)

Lemma elem_of_locked s x :
  x ∈ lockedInfoLocked s <->
  (exists k o, st_orders s !! k = Some o /\ orderLockReleased (o_Status o) = false /\ x ∈ order_keys o) \/
  (exists k r, st_reserved s !! k = Some r /\ holds s k = true /\ x ∈ reserve_keys r).
Proof.
  unfold lockedInfoLocked. rewrite elem_of_union, !elem_of_union_list. split; intros [H|H].
  - destruct H as (X & HX & Hx). apply list_elem_of_fmap in HX as ([k o] & -> & Hko). apply elem_of_map_to_list in Hko.
    cbn in Hx. destruct (orderLockReleased (o_Status o)) eqn:E; [set_solver|]. left. by exists k, o.
  - destruct H as (X & HX & Hx). apply list_elem_of_fmap in HX as ([k r] & -> & Hkr). apply elem_of_map_to_list in Hkr.
    cbn in Hx. destruct (holds s k) eqn:E; [|set_solver]. right. by exists k, r.
  - left. destruct H as (k & o & Ho & Hr & Hx). exists (order_keys o). split; [|done].
    apply list_elem_of_fmap. exists (k, o). cbn. rewrite Hr. split; [done|by apply elem_of_map_to_list].
  - right. destruct H as (k & r & Hk & Hh & Hx). exists (reserve_keys r). split; [|done].
    apply list_elem_of_fmap. exists (k, r). cbn. rewrite Hh. split; [done|by apply elem_of_map_to_list].
Qed.

Lemma ReserveForTake_ok key fee fund cur s s' :
  ReserveForTake key fee fund cur s = (reserveOK, s') ->
  st_reserved s !! key = None /\ (forall x, x ∈ fee ++ fund -> x ∉ lockedInfoLocked s) /\
  (forall x, x ∈ fee ++ fund -> st_reserved s' = <[key := mkReservedKeys fee fund cur]> (st_reserved s)) /\
  (fee ++ fund = [] -> s' = s) /\ st_orders s' = st_orders s.
Proof.
  unfold ReserveForTake. destruct (st_orders s !! key) as [o|]; [|done]. destruct (isOrderTerminal _); [done|].
  case_bool_decide as Hr; [done|]. cbv zeta. destruct (existsb _ _) eqn:Hx; [done|].
  apply eq_None_not_Some in Hr. intros H. split; [done|]. split.
  - intros x Hin Hl. apply not_true_iff_false in Hx. apply Hx. apply existsb_exists. exists x.
    split; [by apply list_elem_of_In|by apply bool_decide_eq_true].
  - rewrite <- zlen_app in H. destruct (Z.ltb_spec 0 (zlen (fee ++ fund))) as [Hp|Hp]; injection H as <-; cbn.
    + split; [done|]. split; [|done]. intros E. by rewrite E in Hp.
    + split; [|done]. intros x Hin. destruct (fee ++ fund); [by apply elem_of_nil in Hin|].
      unfold zlen in Hp. cbn in Hp. lia.
Qed.

Lemma PruneExpired_reserved nowUs cb inSwap keys s : st_reserved (fst (PruneExpired nowUs cb inSwap keys s)) = st_reserved s.
Proof.
  unfold PruneExpired. assert (forall acc, st_reserved (fst (fold_left (prune_one nowUs cb inSwap) keys acc)) = st_reserved (fst acc)) as H.
  { induction keys as [|k keys IH]; intros acc; [done|]. cbn [fold_left]. rewrite IH. destruct acc as [s0 pruned]. unfold prune_one.
    repeat case_match; try done. cbn. apply historyLocked_orders. }
  specialize (H (s, [])). by destruct (fold_left _ _ _).
Qed.

Lemma FlushCancelled_reserved age now keys s : st_reserved (fst (FlushCancelled age now keys s)) = st_reserved s.
Proof. unfold FlushCancelled. by destruct (fold_left _ _ _). Qed.

(** Only a release of the key changes a reservation: another take of the same order
    finds it busy. *)
Lemma reservation_stands op key r s : op <> OpRelease key -> st_reserved s !! key = Some r -> st_reserved (store_step op s) !! key = Some r.
Proof.
  intros Hne Hr. destruct op; cbn [store_step]; try exact Hr.
  - unfold Touch. by repeat case_match.
  - unfold MoveToHistory. case_match; [|done]. by rewrite (proj2 (historyLocked_orders _ _ _ _ _ _)).
  - unfold AddToHistory. by rewrite (proj2 (historyLocked_orders _ _ _ _ _ _)).
  - rewrite PruneExpired_reserved. exact Hr.
  - destruct (ReserveForTake key0 feeKeys fundKeys cur s) as [[] s'] eqn:E; cbn [snd];
      try (unfold ReserveForTake in E; cbv zeta in E; repeat case_match; by simplify_eq).
    pose proof (ReserveForTake_ok _ _ _ _ _ _ E) as (Hnone & _ & Hins & Hnil & _).
    destruct (feeKeys ++ fundKeys) as [|x l]; [by rewrite Hnil|]. rewrite (Hins x) by left.
    rewrite lookup_insert_ne; [done|]. intros ->. by rewrite Hr in Hnone.
  - cbn. rewrite lookup_delete_ne; [done|]. intros ->. by apply Hne.
  - rewrite FlushCancelled_reserved. exact Hr.
Qed.

Definition run_store (ops : list StoreOp) (s : Store) : Store := fold_left (fun s op => store_step op s) ops s.

(** C17. Inputs reserved are inputs nobody else gets. A reservation that succeeds claims
    keys that no order or other reservation locked; whatever is done to the book
    afterwards, at any point before the reservation is released at which its
    order holds its locks (it is in the book, and neither ended nor rolled back),
    every key of it counts as locked and every reservation that shares one, for
    any order, is refused; and releasing it at once gives the book back as it
    was. (While the order is rolled back its reservation stands and blocks
    nothing: [rolled_back_shares].) *)
Theorem reserve_exclusive (key cur : bytes) (fee fund : list bytes) (s s' : Store) (x : bytes)
    (Hok : ReserveForTake key fee fund cur s = (reserveOK, s')) (Hx : x ∈ fee ++ fund) :
  x ∉ lockedInfoLocked s /\
  (forall ops, OpRelease key ∉ ops -> holds (run_store ops s') key = true ->
    x ∈ lockedInfoLocked (run_store ops s') /\
    forall key2 fee2 fund2 cur2, x ∈ fee2 ++ fund2 -> fst (ReserveForTake key2 fee2 fund2 cur2 (run_store ops s')) <> reserveOK) /\
  ReleaseReserve key s' = s.
Proof.
  pose proof (ReserveForTake_ok _ _ _ _ _ _ Hok) as (Hnone & Hfree & Hres & _ & Hord).
  split; [by apply Hfree|]. split.
  - intros ops Hrel Hh. assert (st_reserved (run_store ops s') !! key = Some (mkReservedKeys fee fund cur)) as Hst.
    { assert (st_reserved s' !! key = Some (mkReservedKeys fee fund cur)) as H0 by (rewrite (Hres x Hx); by rewrite lookup_insert_eq).
      clear -H0 Hrel. unfold run_store. revert s' H0. induction ops as [|op ops IH]; intros s' H0; [exact H0|].
      apply not_elem_of_cons in Hrel as [Hne Hrel]. apply IH; [done|]. apply reservation_stands; [congruence|done]. }
    assert (x ∈ lockedInfoLocked (run_store ops s')) as Hl.
    { apply elem_of_locked. right. exists key, (mkReservedKeys fee fund cur). split; [done|]. split; [done|].
      unfold reserve_keys. cbn. by apply elem_of_list_to_set. }
    split; [done|]. intros key2 fee2 fund2 cur2 Hx2 H2.
    destruct (ReserveForTake key2 fee2 fund2 cur2 (run_store ops s')) as [r s2] eqn:E. cbn in H2. subst r.
    apply ReserveForTake_ok in E as (_ & Hfree2 & _). by apply (Hfree2 x).
  - unfold ReserveForTake in Hok. destruct (st_orders s !! key) as [o|]; [|done].
    destruct (isOrderTerminal _); [done|]. destruct (bool_decide _); [done|]. cbv zeta in Hok.
    destruct (existsb _ _); [done|]. destruct (0 <? _); injection Hok as <-; unfold ReleaseReserve; destruct s; cbn in *;
      unfold set; cbn; f_equal; [by apply delete_insert_id|by apply delete_id].
Qed.

Definition sample_order : Order := zero_order <| o_ID := repeat x01 32 |> <| o_Status := "open"%string |>.
Definition sample_book : Store := Add sample_order NewStore.
Definition sample_key : bytes := orderKey (repeat x01 32).

Definition other_order : Order := zero_order <| o_ID := repeat x02 32 |> <| o_Status := "open"%string |>.

Lemma reserve_exclusive_witness :
  fst (ReserveForTake sample_key [bytes_of "aa:0"] [] [] sample_book) = reserveOK /\
  fst (ReserveForTake (orderKey (repeat x02 32)) [] [bytes_of "aa:0"] []
    (run_store [OpAdd other_order; OpTouch sample_key 5] (snd (ReserveForTake sample_key [bytes_of "aa:0"] [] [] sample_book)))) <> reserveOK.
Proof.
  destruct (ReserveForTake sample_key [bytes_of "aa:0"] [] [] sample_book) as [r s'] eqn:E.
  assert (r = reserveOK) as ->.
  { assert (fst (ReserveForTake sample_key [bytes_of "aa:0"] [] [] sample_book) = reserveOK) as H by (vm_compute; reflexivity).
    by rewrite E in H. }
  split; [reflexivity|].
  assert (bytes_of "aa:0" ∈ [bytes_of "aa:0"] ++ ([] : list bytes)) as Hx by (apply list_elem_of_here).
  assert (OpRelease sample_key ∉ [OpAdd other_order; OpTouch sample_key 5]) as Hrel by (rewrite !not_elem_of_cons; split_and!; [done|done|apply not_elem_of_nil]).
  assert (holds (run_store [OpAdd other_order; OpTouch sample_key 5] s') sample_key = true) as Hh.
  { assert (s' = snd (ReserveForTake sample_key [bytes_of "aa:0"] [] [] sample_book)) as -> by (by rewrite E). vm_compute. reflexivity. }
  exact (proj2 (proj1 (proj2 (reserve_exclusive sample_key [] [bytes_of "aa:0"] [] sample_book s' (bytes_of "aa:0") E Hx)) _ Hrel Hh)
    (orderKey (repeat x02 32)) [] [bytes_of "aa:0"] [] Hx).
Defined.

(** A rolled back order can still be taken, but its reservation locks nothing: the
    outputs of that take are free for the next one. *)
Lemma rolled_back_shares :
  let book := Add (sample_order <| o_Status := "rolled back"%string |>) (Add other_order NewStore) in
  let first := ReserveForTake sample_key [] [bytes_of "aa:0"] [] book in
  fst first = reserveOK /\ fst (ReserveForTake (orderKey (repeat x02 32)) [] [bytes_of "aa:0"] [] (snd first)) = reserveOK.
Proof. vm_compute. split; reflexivity. Qed.


(** ** Expiry *)

(** An order the sweep removes. *)
Definition prunable (nowUs currentBlock : Z) (inSwap : gset bytes) (key : bytes) (o : Order) : bool :=
  negb (bool_decide (key ∈ inSwap)) && (String.eqb (o_Status o) "created" || String.eqb (o_Status o) "open")
  && bool_decide (o_PrepTx o = []) && is_expired nowUs currentBlock o.

Lemma prune_one_eq nowUs cb inSwap s pruned key :
  prune_one nowUs cb inSwap (s, pruned) key =
  match st_orders s !! key with
  | Some o => if prunable nowUs cb inSwap key o
              then (historyLocked key "expired" crTimeout nowUs (Some o) s <| st_orders ::= delete key |>, pruned ++ [key])
              else (s, pruned)
  | None => (s, pruned)
  end.
Proof.
  unfold prune_one, prunable. destruct (st_orders s !! key) as [o|]; [|done].
  destruct (bool_decide (key ∈ inSwap)), (String.eqb (o_Status o) "created"), (String.eqb (o_Status o) "open"),
    (bool_decide (o_PrepTx o = [])), (is_expired nowUs cb o); reflexivity.
Qed.

Definition pruned_keys (nowUs cb : Z) (inSwap : gset bytes) (m : gmap bytes Order) (keys : list bytes) : list bytes :=
  List.filter (fun k => match m !! k with Some o => prunable nowUs cb inSwap k o | None => false end) keys.

Lemma prune_fold_eq nowUs cb inSwap keys s pruned :
  NoDup keys ->
  let r := fold_left (prune_one nowUs cb inSwap) keys (s, pruned) in
  let gone := pruned_keys nowUs cb inSwap (st_orders s) keys in
  snd r = pruned ++ gone /\ (forall k, st_orders (fst r) !! k = if bool_decide (k ∈ gone) then None else st_orders s !! k) /\
  (forall k, k ∈ map h_ID (st_history s) \/ k ∈ gone <-> k ∈ map h_ID (st_history (fst r))).
Proof.
  revert s pruned. induction keys as [|key keys IH]; intros s pruned Hnd.
  { cbn. rewrite app_nil_r. split; [done|]. split; [done|]. intros k. set_solver. }
  apply NoDup_cons in Hnd as [Hnin Hnd]. cbn [fold_left]. rewrite prune_one_eq. cbv zeta.
  unfold pruned_keys. cbn [List.filter]. destruct (st_orders s !! key) as [o|] eqn:Ho; [|by apply IH].
  destruct (prunable nowUs cb inSwap key o) eqn:Hp; [|by apply IH].
  set (s1 := historyLocked _ _ _ _ _ s <| st_orders ::= delete key |>).
  destruct (IH s1 (pruned ++ [key]) Hnd) as (H1 & H2 & H3).
  assert (st_orders s1 = delete key (st_orders s)) as Hs1.
  { unfold s1. cbn. by rewrite (proj1 (historyLocked_orders key "expired" crTimeout nowUs (Some o) s)). }
  assert (pruned_keys nowUs cb inSwap (st_orders s1) keys = pruned_keys nowUs cb inSwap (st_orders s) keys) as Hsame.
  { unfold pruned_keys. rewrite Hs1. apply filter_ext_in. intros k Hk.
    rewrite lookup_delete_ne; [done|]. intros ->. by apply Hnin, list_elem_of_In. }
  rewrite Hsame in *. fold (pruned_keys nowUs cb inSwap (st_orders s) keys).
  split; [rewrite H1; by rewrite <- app_assoc|]. split.
  - intros k. rewrite H2, Hs1. destruct (decide (k = key)) as [->|Hne].
    + rewrite lookup_delete_eq, (bool_decide_eq_true_2 (key ∈ key :: _)) by set_solver. by case_bool_decide.
    + rewrite lookup_delete_ne by done. do 2 case_bool_decide; try done; set_solver.
  - intros k. rewrite <- H3. unfold s1, historyLocked. destruct (in_history key s) eqn:Eh; cbn.
    + apply in_history_elem in Eh. set_solver.
    + rewrite map_app. cbn. set_solver.
Qed.

(** The expiry sweep, whatever the order in which the map is visited: exactly
    the prunable orders leave the book, they and no other id enter the history,
    and the returned list is those ids. *)
Theorem PruneExpired_exact (nowUs cb : Z) (inSwap : gset bytes) (keys : list bytes) (s : Store)
    (Hnd : NoDup keys) (Hkeys : forall k, is_Some (st_orders s !! k) -> k ∈ keys) :
  let '(s', pruned) := PruneExpired nowUs cb inSwap keys s in
  (forall k, st_orders s' !! k = match st_orders s !! k with
                                | Some o => if prunable nowUs cb inSwap k o then None else Some o | None => None end) /\
  (forall k, k ∈ pruned <-> exists o, st_orders s !! k = Some o /\ prunable nowUs cb inSwap k o = true) /\
  (forall k, k ∈ map h_ID (st_history s') <-> k ∈ map h_ID (st_history s) \/ k ∈ pruned).
Proof.
  unfold PruneExpired. destruct (prune_fold_eq nowUs cb inSwap keys s [] Hnd) as (H1 & H2 & H3).
  destruct (fold_left _ keys _) as [s' pruned]. cbn in H1, H2, H3. subst pruned.
  set (gone := pruned_keys nowUs cb inSwap (st_orders s) keys) in *.
  assert (forall k, k ∈ gone <-> exists o, st_orders s !! k = Some o /\ prunable nowUs cb inSwap k o = true) as Hgone.
  { intros k. unfold gone, pruned_keys. rewrite list_elem_of_In, filter_In, <- list_elem_of_In. split.
    - intros [_ H]. destruct (st_orders s !! k) as [o|]; [|done]. by exists o.
    - intros (o & Ho & Hp). split; [apply Hkeys; by rewrite Ho|by rewrite Ho]. }
  split; [|split].
  - intros k. rewrite H2. case_bool_decide as Hk; [apply Hgone in Hk as (o & -> & Hp); by rewrite Hp|].
    destruct (st_orders s !! k) as [o|] eqn:Ho; [|done]. destruct (prunable nowUs cb inSwap k o) eqn:Hp; [|done].
    exfalso. apply Hk, Hgone. by exists o.
  - intros k. by rewrite sort_by_perm.
  - intros k. rewrite sort_by_perm. by rewrite H3.
Qed.

Lemma PruneExpired_exact_witness :
  snd (PruneExpired 400000000 0 ∅ [sample_key] sample_book) = [sample_key] /\
  st_orders (fst (PruneExpired 400000000 0 ∅ [sample_key] sample_book)) !! sample_key = None.
Proof.
  pose proof (PruneExpired_exact 400000000 0 ∅ [sample_key] sample_book) as H.
  assert (snd (PruneExpired 400000000 0 ∅ [sample_key] sample_book) = [sample_key]) as Hp by (vm_compute; reflexivity).
  split; [exact Hp|]. destruct (PruneExpired 400000000 0 ∅ [sample_key] sample_book) as [s' pruned]. cbn in Hp. subst pruned.
  destruct H as (H1 & H2 & _).
  - apply NoDup_singleton.
  - intros k Hk. destruct (decide (k = sample_key)) as [->|Hne]; [apply list_elem_of_here|].
    unfold sample_book, Add in Hk. cbn in Hk. rewrite lookup_insert_ne in Hk by done. rewrite lookup_empty in Hk. by destruct Hk.
  - cbn [fst]. rewrite H1.
    destruct (proj1 (H2 sample_key) (list_elem_of_here _ _)) as (o & -> & ->). reflexivity.
Defined.

(** The flush takes out exactly the canceled records last touched before the
    cutoff, from the book and from the history, and reports all of them; an
    age beyond the clock flushes nothing. *)
Theorem FlushCancelled_exact (minAge now : Z) (keys : list bytes) (s : Store)
    (Hnd : NoDup keys) (Hkeys : forall k, is_Some (st_orders s !! k) -> k ∈ keys)
    (Htime : forall k o, st_orders s !! k = Some o -> 0 <= o_Updated o) (Hage : 0 <= minAge < 2 ^ 64) (Hnow : 0 <= now < 2 ^ 63) :
  let old status updated := String.eqb (statusString status) "canceled" && (updated + 1000 * minAge <? now) in
  let '(s', flushed) := FlushCancelled minAge now keys s in
  (forall k, st_orders s' !! k = match st_orders s !! k with
                                | Some o => if old (o_Status o) (o_Updated o) then None else Some o | None => None end) /\
  (Forall (fun e => 0 <= h_Updated e) (st_history s) ->
   st_history s' = List.filter (fun e => negb (old (h_Status e) (h_Updated e))) (st_history s)).
Proof.
  cbv zeta. unfold FlushCancelled. set (kt := keep_time minAge now).
  assert (forall status updated, 0 <= updated ->
    flushable status updated kt = String.eqb (statusString status) "canceled" && (updated + 1000 * minAge <? now)) as Hflush.
  { intros status updated Hu. unfold flushable, kt, keep_time. f_equal.
    destruct (Z.leb_spec minAge ((2 ^ 63 - 1) / 1000)); cbv zeta.
    - destruct (Z.leb_spec (minAge * 1000) now), (Z.ltb_spec (updated + 1000 * minAge) now); try lia; 
        first [apply Z.ltb_lt; lia | apply Z.ltb_ge; lia].
    - assert (2 ^ 63 <= 1000 * minAge).
      { pose proof (Z.div_mod (2 ^ 63 - 1) 1000 ltac:(lia)). pose proof (Z.mod_pos_bound (2 ^ 63 - 1) 1000 ltac:(lia)). lia. }
      destruct (Z.ltb_spec (updated + 1000 * minAge) now); [lia|]. apply Z.ltb_ge. lia. }
  assert (forall keys m out, NoDup keys -> forall k, fst (fold_left (flush_one kt) keys (m, out)) !! k =
    match m !! k with Some o => if bool_decide (k ∈ keys) && flushable (o_Status o) (o_Updated o) kt then None else Some o | None => None end) as Hfold.
  { clear. induction keys as [|key keys IH]; intros m out Hnd k.
    { cbn. destruct (m !! k); by rewrite ?bool_decide_eq_false_2 by apply not_elem_of_nil. }
    apply NoDup_cons in Hnd as [Hnin Hnd]. cbn [fold_left flush_one].
    destruct (m !! key) as [o|] eqn:Ho; [destruct (flushable (o_Status o) (o_Updated o) kt) eqn:Hf|];
      rewrite IH by done; (destruct (decide (k = key)) as [->|Hne];
        [rewrite ?lookup_delete_eq, ?Ho; rewrite ?(bool_decide_eq_true_2 (key ∈ key :: keys)), ?(bool_decide_eq_false_2 (key ∈ keys)) by set_solver;
          rewrite ?Hf; try done; by rewrite ?andb_false_r
        |rewrite ?lookup_delete_ne by done; destruct (m !! k); [|done]; by rewrite (bool_decide_ext (k ∈ keys) (k ∈ key :: keys)) by set_solver]). }
  specialize (Hfold keys (st_orders s) [] Hnd). destruct (fold_left (flush_one kt) keys (st_orders s, [])) as [orders live].
  cbn in Hfold |- *. split.
  - intros k. rewrite Hfold. destruct (st_orders s !! k) as [o|] eqn:Ho; [|done].
    rewrite bool_decide_eq_true_2 by (apply Hkeys; by rewrite Ho). rewrite Hflush by (by eapply Htime). done.
  - intros Hh. apply filter_ext_in. intros e He. rewrite Forall_forall in Hh. rewrite Hflush; [done|].
    by apply Hh, list_elem_of_In.
Qed.
