(* ===== verification/Activate.v ===== *)
(** * Wallet activation and the configuration of a running node

    Which of the configured wallets are connected (wallet/activate.go,
    wallet/conf.go), the connector that signs with its own keys
    (wallet/local.go), and the reload and sweep of a running node's
    configuration (api/node.go, reloadConf and sweepConnectors).  [dial] is the
    wallet behind an endpoint.  Reload is all or nothing
    ([reload_all_or_nothing]), and a connected wallet is one that was asked for,
    admitted and reachable ([activate_exact]). *)

From S2P Require Import Prelude GoLib Hex Codec Conf Coin Script Tx Wallet Deposit Order Store.

(** ** Activation *)

Definition badWalletRetryInterval : Z := 300 * 1000000.

Inductive dropReason := NotFound | NotAdmitted | BadWallet | NotBuilt | NotReachable.

Record activation := mkActivation {
  ac_connectors : gmap bytes Connector;
  ac_drops : list (bytes * dropReason);
  ac_bad : gmap bytes Z;     (** the time of the last failed probe *)
}.
#[export] Instance activation_eta : Eta activation := fun a => mkActivation (ac_connectors a) (ac_drops a) (ac_bad a).

Section Activate.
Variable dial : CoinConf -> Connector.

Definition NewConnectorFromConf (c : CoinConf) : res Connector :=
  if bool_decide (cc_Ip c = []) || (cc_Port c =? 0) then Err "wallet: Ip/Port missing in xbridge.conf"
  else coin ← FromConf c; Ok (dial c).

(** A block count within the time of a probe; a timeout is an error. *)
Definition reachable (conn : Connector) : bool := match GetBlockCount conn with inl _ => true | inr _ => false end.

Section Confs.
Variables (confs : gmap bytes CoinConf) (checkReachability : bool).

Definition drop (sym : bytes) (r : dropReason) (a : activation) : activation := a <| ac_drops ::= fun l => l ++ [(sym, r)] |>.

(** A failed probe less than five minutes ago. *)
Definition waiting (t : Z) (bad : gmap bytes Z) (sym : bytes) : bool :=
  match bad !! sym with Some since => t - since <? badWalletRetryInterval | None => false end.

(** One currency, its earlier failure looked up at [t] and a new one noted at [t']. *)
Definition activate_one (a : activation) (sym : bytes) (t t' : Z) : activation :=
  match confs !! sym with
  | None => drop sym NotFound a
  | Some cc =>
      if negb (is_ok (Admit cc)) then drop sym NotAdmitted a
      else if checkReachability && waiting t (ac_bad a) sym then drop sym BadWallet a
      else
        let a := if checkReachability then a <| ac_bad ::= delete sym |> else a in
        match NewConnectorFromConf cc with
        | Ok conn =>
            if checkReachability && negb (reachable conn) then drop sym NotReachable (a <| ac_bad ::= <[sym := t']> |>)
            else a <| ac_connectors ::= <[sym := conn]> |>
        | _ => drop sym NotBuilt a
        end
  end.

(** [clock i] are the times of the [i]-th currency. *)
Fixpoint activate_all (wallets : list bytes) (clock : nat -> Z * Z) (a : activation) : activation :=
  match wallets with
  | [] => a
  | sym :: wallets => activate_all wallets (fun i => clock (S i)) (activate_one a sym (clock O).1 (clock O).2)
  end.

Definition Activate (wallets : list bytes) (clock : nat -> Z * Z) (bad : gmap bytes Z) : activation :=
  activate_all wallets clock (mkActivation ∅ [] bad).

(** ** Laws of the activation *)

(** What it takes to connect. *)
Definition admissible (sym : bytes) (conn : Connector) : Prop :=
  exists cc, confs !! sym = Some cc /\ Admit cc = Ok tt /\ NewConnectorFromConf cc = Ok conn /\ (checkReachability = true -> reachable conn = true).

Definition activated (done : list bytes) (bad : gmap bytes Z) (a : activation) : Prop :=
  (forall sym conn, ac_connectors a !! sym = Some conn -> sym ∈ done /\ admissible sym conn) /\
  (forall sym, sym ∈ done -> is_Some (ac_connectors a !! sym) \/ sym ∈ map fst (ac_drops a)) /\
  (forall sym, sym ∈ map fst (ac_drops a) -> sym ∈ done) /\
  (checkReachability = false -> ac_bad a = bad) /\
  (forall sym t, ac_bad a !! sym = Some t -> bad !! sym = Some t \/
    (sym ∈ done /\ exists cc conn, confs !! sym = Some cc /\ NewConnectorFromConf cc = Ok conn /\ reachable conn = false)).

Lemma drop_activated done bad a sym r : activated done bad a -> activated (done ++ [sym]) bad (drop sym r a).
Proof.
  intros (H1 & H2 & H3 & H4 & H5). unfold drop, activated. cbn. rewrite map_app. cbn. split_and!; [| | |done|].
  - intros s c Hc. destruct (H1 s c Hc). split; [set_solver|done].
  - intros s Hs. apply elem_of_app in Hs as [Hs|Hs]; [destruct (H2 s Hs); [by left|right; set_solver]|right; set_solver].
  - intros s Hs. set_solver.
  - intros s t Ht. destruct (H5 s t Ht) as [?|[? ?]]; [by left|right; split; [set_solver|done]].
Qed.

Lemma forget_activated done bad a sym : checkReachability = true -> activated done bad a -> activated done bad (a <| ac_bad ::= delete sym |>).
Proof.
  intros Hc (H1 & H2 & H3 & H4 & H5). unfold activated. cbn. split_and!; try done; [congruence|].
  intros s t Ht. apply lookup_delete_Some in Ht as [_ Ht]. by apply H5.
Qed.

Lemma activate_one_activated done bad a sym t t' : activated done bad a -> activated (done ++ [sym]) bad (activate_one a sym t t').
Proof.
  intros Ha. unfold activate_one. destruct (confs !! sym) as [cc|] eqn:Ecc; [|by apply drop_activated].
  destruct (Admit cc) as [[]| |] eqn:Ead; cbn [is_ok negb]; [|by apply drop_activated..].
  destruct (checkReachability && waiting t (ac_bad a) sym); [by apply drop_activated|].
  set (a' := if checkReachability then _ else a).
  assert (activated done bad a') as Ha' by (subst a'; destruct checkReachability eqn:E; [by apply forget_activated|done]). clearbody a'.
  destruct (NewConnectorFromConf cc) as [conn| |] eqn:En; [|by apply drop_activated..].
  destruct (checkReachability && negb (reachable conn)) eqn:Er.
  - apply andb_true_iff in Er as [Hc Hr%negb_true_iff]. pose proof (drop_activated done bad a' sym NotReachable Ha') as (H1 & H2 & H3 & H4 & H5).
    unfold drop in *. cbn in *. split_and!; try done; [congruence|]. intros s u Hu. cbn in Hu. destruct (decide (s = sym)) as [->|Hne].
    + right. split; [set_solver|]. by exists cc, conn.
    + rewrite lookup_insert_ne in Hu by done. by apply H5.
  - destruct Ha' as (H1 & H2 & H3 & H4 & H5). unfold activated. cbn. split_and!; [| | |done|].
    + intros s c Hc. destruct (decide (s = sym)) as [->|Hne].
      * rewrite lookup_insert_eq in Hc. injection Hc as <-. split; [set_solver|]. exists cc. split_and!; [done..|].
        intros Hcr. rewrite Hcr in Er. cbn in Er. by apply negb_false_iff in Er.
      * rewrite lookup_insert_ne in Hc by done. destruct (H1 s c Hc). split; [set_solver|done].
    + intros s Hs. destruct (decide (s = sym)) as [->|Hne]; [left; rewrite lookup_insert_eq; eauto|].
      rewrite lookup_insert_ne by done. apply H2. set_solver.
    + intros s Hs. set_solver.
    + intros s u Hu. destruct (H5 s u Hu) as [?|[? ?]]; [by left|right; split; [set_solver|done]].
Qed.

(** The wallets connected are among those asked for, admitted by the static
    rules, built and, where that is checked, reachable; every other one is
    reported; a wallet is noted as bad only for a failed probe, and without the
    check nothing is noted. *)
Theorem activate_exact wallets clock bad : activated wallets bad (Activate wallets clock bad).
Proof.
  unfold Activate. assert (forall l done a clock, activated done bad a -> activated (done ++ l) bad (activate_all l clock a)) as H.
  { clear. induction l as [|sym l IH]; intros done a clock Ha; cbn [activate_all]; [by rewrite app_nil_r|].
    change (sym :: l) with ([sym] ++ l). rewrite app_assoc. by apply IH, activate_one_activated. }
  apply (H wallets [] _ clock). unfold activated. cbn. split_and!; [intros ? ? Hc; by rewrite lookup_empty in Hc|set_solver|set_solver|done|by left].
Qed.
End Confs.

(** ** Reload and sweep *)

Record NodeConfig := mkNodeConfig {
  nc_ConfPath : bytes;
  nc_Confs : gmap bytes CoinConf;
  nc_Connectors : gmap bytes Connector;
  nc_ExchangeWallets : list bytes;
  nc_ShowAllOrders : bool;
  nc_ForceShowAllOrders : bool;
  nc_CheckReachability : bool;
}.
#[export] Instance NodeConfig_eta : Eta NodeConfig := fun c => mkNodeConfig (nc_ConfPath c) (nc_Confs c) (nc_Connectors c)
  (nc_ExchangeWallets c) (nc_ShowAllOrders c) (nc_ForceShowAllOrders c) (nc_CheckReachability c).

(** What a reload changes: the configuration, the coin registry, the bad wallets and the book. *)
Record Loaded := mkLoaded { ld_config : NodeConfig; ld_registry : Registry; ld_bad : gmap bytes Z; ld_store : Store }.

Context (uni : Unicode).

(** [file]: the content of a path, if it can be read. *)
Definition reloadConf (file : bytes -> option bytes) (clock : nat -> Z * Z) (l : Loaded) : bool * Loaded :=
  let c := ld_config l in
  if bool_decide (nc_ConfPath c = []) then (false, l)
  else match Load uni (file (nc_ConfPath c)) with
       | Ok conf =>
           let admitted := AdmittedConfs (cf_Coins conf) in
           match InitFromConf admitted (ld_registry l) with
           | (registry, Ok _) =>
               let wallets := Conf_Wallets conf in
               let a := Activate admitted (nc_CheckReachability c) wallets clock ∅ in
               let fresh := mkNodeConfig (nc_ConfPath c) admitted (ac_connectors a) wallets
                              (ShowAllOrders (cf_Main conf) || nc_ForceShowAllOrders c) (nc_ForceShowAllOrders c) (nc_CheckReachability c) in
               let store := if nc_ShowAllOrders fresh then ld_store l else PruneUnconnected (dom (ac_connectors a)) (ld_store l) in
               (true, mkLoaded fresh registry (ac_bad a) store)
           | (registry, _) => (false, mkLoaded c registry (ld_bad l) (ld_store l))
           end
       | _ => (false, l)
       end.

Definition sameConnectorTickers (a b : gmap bytes Connector) : bool := bool_decide (dom a = dom b).

(** The sweep keeps its result unless the configuration was replaced during the probes. *)
Definition sweepConnectors (replaced : bool) (clock : nat -> Z * Z) (l : Loaded) : Loaded :=
  let c := ld_config l in
  let a := Activate (nc_Confs c) (nc_CheckReachability c) (nc_ExchangeWallets c) clock (ld_bad l) in
  let l := mkLoaded c (ld_registry l) (ac_bad a) (ld_store l) in
  if replaced || sameConnectorTickers (nc_Connectors c) (ac_connectors a) then l
  else mkLoaded (c <| nc_Connectors := ac_connectors a |>) (ld_registry l) (ld_bad l) (ld_store l).

(** C31. A reload that fails changes nothing. One that succeeds puts the new
    configuration, registry and wallets into force together; every connected
    wallet belongs to an admitted coin of the file, and unless all orders are to
    be shown, of foreign orders only those between connected coins stay in the
    book, the node's own and the history being kept. *)
Theorem reload_all_or_nothing file clock l ok l' : reloadConf file clock l = (ok, l') ->
  if ok then
    exists conf, Load uni (file (nc_ConfPath (ld_config l))) = Ok conf /\
      let c := ld_config l' in
      nc_Confs c = AdmittedConfs (cf_Coins conf) /\ nc_ExchangeWallets c = Conf_Wallets conf /\
      InitFromConf (nc_Confs c) (ld_registry l) = (ld_registry l', Ok tt) /\
      activated (nc_Confs c) (nc_CheckReachability c) (nc_ExchangeWallets c) ∅
        (Activate (nc_Confs c) (nc_CheckReachability c) (nc_ExchangeWallets c) clock ∅) /\
      nc_Connectors c = ac_connectors (Activate (nc_Confs c) (nc_CheckReachability c) (nc_ExchangeWallets c) clock ∅) /\
      st_history (ld_store l') = st_history (ld_store l) /\
      (forall k o, st_orders (ld_store l') !! k = Some o <->
         st_orders (ld_store l) !! k = Some o /\
         (nc_ShowAllOrders c = true \/ o_Mine o = true \/
          (is_Some (nc_Connectors c !! o_FromCurrency o) /\ is_Some (nc_Connectors c !! o_ToCurrency o))))
  else l' = l.
Proof.
  unfold reloadConf. case_bool_decide; [by intros [= <- <-]|]. destruct (Load uni _) as [conf| |] eqn:El; [|by intros [= <- <-]..].
  destruct (InitFromConf _ _) as [registry r] eqn:Ei. assert (r = Ok tt \/ registry = ld_registry l) as Hr.
  { unfold InitFromConf in Ei. destruct (build_registry _ _); injection Ei as <- <-; [by left|by right..]. }
  destruct r as [[]| |].
  - intros [= <- <-]. exists conf. cbn. split_and!; try done; [apply activate_exact|by destruct (_ || _)|].
    intros k o. destruct (ShowAllOrders (cf_Main conf) || nc_ForceShowAllOrders (ld_config l)); [tauto|].
    unfold PruneUnconnected. cbn. rewrite map_lookup_filter_Some. cbn. rewrite !elem_of_dom. naive_solver.
  - destruct Hr as [Hr | ->]; [done|]. intros [= <- <-]. by destruct l.
  - destruct Hr as [Hr | ->]; [done|]. intros [= <- <-]. by destruct l.
Qed.
End Activate.

(** ** The local connector *)

Section Local.
Context (mem : Z).
(** [SignInput]: the script of an input. *)
Variables (SignInput : Tx -> nat -> PrevTx -> wres bytes) (broadcast : option (bytes -> wres bytes)) (hasTimeField : bool).

(** Later inputs are signed over the scripts of the earlier ones. *)
Fixpoint sign_inputs (tx : Tx) (i : nat) (prevs : list PrevTx) : wres Tx :=
  match prevs with
  | [] => inl tx
  | p :: prevs =>
      sig ← SignInput tx i p;
      let set_sig inp := mkTxIn (in_PrevOut inp) sig (in_Sequence inp) (in_Witness inp) (in_Amount inp) in
      sign_inputs (mkTx (tx_Version tx) (tx_LockTime tx) (alter set_sig i (tx_Inputs tx)) (tx_Outputs tx) (tx_SegWit tx) (tx_WithTime tx) (tx_TxTime tx))
        (S i) prevs
  end.

Definition local_sign (txHex : bytes) (prevs : list PrevTx) : wres (bytes * bool) :=
  raw ← of_option (DecodeString txHex);
  tx ← of_res (DeserializeWithTime mem raw hasTimeField);
  _ ← require (length prevs =? length (tx_Inputs tx))%nat failure;
  tx ← sign_inputs tx 0 prevs;
  inl (EncodeToString (Tx_Serialize tx), true).

(** It has no chain, no address and no outputs of its own. *)
Definition LocalConnector : Connector :=
  mkConnector fail fail (fun _ => fail) fail local_sign (fun hex => match broadcast with Some send => send hex | None => fail end)
    fail (fun _ => fail) (fun _ _ _ _ => fail) (fun _ _ => fail) (fun _ _ _ => fail) (fun _ _ => fail) (fun _ => fail) fail
    (fun _ => fail) (fun _ => fail).

(** Signing changes the scripts of the inputs and nothing else, each to what the
    signer answers. *)
Lemma sign_inputs_keeps prevs : forall tx i tx', sign_inputs tx i prevs = inl tx' ->
  tx_Version tx' = tx_Version tx /\ tx_LockTime tx' = tx_LockTime tx /\ tx_Outputs tx' = tx_Outputs tx /\
  map in_PrevOut (tx_Inputs tx') = map in_PrevOut (tx_Inputs tx) /\ map in_Sequence (tx_Inputs tx') = map in_Sequence (tx_Inputs tx).
Proof.
  induction prevs as [|p prevs IH]; intros tx i tx' H; cbn [sign_inputs] in H; [by injection H as <-|].
  apply wres_bind_inl in H as (sig & _ & H). apply IH in H as (-> & -> & -> & -> & ->). cbn.
  assert (forall (A : Type) (f : TxIn -> A) (g : TxIn -> TxIn) l, (forall x, f (g x) = f x) -> map f (alter g i l) = map f l) as Hm.
  { intros A f g l Hfg. revert i; induction l as [|x l IHl]; intros [|j]; cbn; f_equal; auto; apply IHl. }
  split_and!; try done; by apply Hm.
Qed.
End Local.

(** ** A reload *)

Definition sample_dial (c : CoinConf) : Connector := LocalConnector 0 (fun _ _ _ => fail) None false.
Definition sample_loaded : Loaded := mkLoaded (mkNodeConfig (bytes_of "xbridge.conf") ∅ ∅ [] false false false) ∅ ∅ NewStore.
Definition full_conf_file : bytes :=
  concat (map (fun l => bytes_of l ++ [x0a]) ["[Main]"; "ExchangeWallets=BTC,LTC"; "[BTC]"; "Ip=127.0.0.1"; "Port=8332"; "COIN=100000000";
    "DustAmount=5460"; "BlockTime=600"; "Confirmations=1"; "CreateTxMethod=BTC"; "[LTC]"; "COIN=100000000"; "DustAmount=1"]%string).
Definition sample_reload : bool * Loaded := reloadConf sample_dial no_unicode (fun _ => Some full_conf_file) (fun _ => (0, 0)) sample_loaded.

Example sample_reload_connects :
  sample_reload.1 = true /\ elements (dom (nc_Connectors (ld_config sample_reload.2))) = [bytes_of "BTC"].
Proof. split; vm_compute; reflexivity. Qed.

Lemma reload_all_or_nothing_witness :
  exists conf, Load no_unicode (Some full_conf_file) = Ok conf /\ nc_ExchangeWallets (ld_config sample_reload.2) = Conf_Wallets conf.
Proof.
  assert (sample_reload.1 = true) as E by (vm_compute; reflexivity).
  pose proof (reload_all_or_nothing sample_dial no_unicode (fun _ => Some full_conf_file) (fun _ => (0, 0)) sample_loaded
    sample_reload.1 sample_reload.2 (surjective_pairing sample_reload)) as H.
  rewrite E in H. destruct H as (conf & H1 & _ & H2 & _). exists conf. split; [exact H1|exact H2].
Defined.
