(* ===== verification/Utxos.v ===== *)
(** * Ownership proofs of outputs (api/node.go)

    An order carries, for each of its outputs, a signature of its owner over
    the output and its value.  [buildUtxoProofs] makes them and
    [verifyOrderUtxos] checks those of an order seen on the network, both
    through a wallet: [proofs_verify] composes the two. *)

From S2P Require Import Prelude GoLib Hex Codec Bodies Conf Coin Base58 Address Price Wallet Deposit DepositLaws Order Float Store.

(** A 25-byte pay-to-public-key-hash script. *)
Definition isP2PKH25 (scriptHex : bytes) : bool :=
  match DecodeString scriptHex with
  | Some b => (zlen b =? 25) && bool_decide (take 3 b = [x76; xa9; x14]) && bool_decide (drop 23 b = [x88; xac])
  | None => false
  end.

Definition wholeCoinOstream (v : f64) : bytes := FormatFloat_g 6 v.

Definition utxoChallenge (txid : bytes) (vout : Z) (amount : f64) (address : bytes) : bytes :=
  txid ++ [x3a] ++ vout_string vout ++ [x3a] ++ wholeCoinOstream amount ++ [x3a] ++ address.

(** ** Making the proofs *)

Inductive proofError := errTxid | errBadAddr | errSign | errBadSigLen.

Section Proofs.
Variable uni : Unicode.

Definition utxo_proof (conn : Connector) (c : Coin) (u : Utxo) : res (UtxoEntry + proofError) :=
  match reverseTxidHex (u_TxID u) with
  | None => Ok (inr errTxid)
  | Some id =>
      match decodeAddress uni c (u_Address u) with
      | Panic => Panic
      | Err _ => Ok (inr errBadAddr)
      | Ok a =>
          match Address_ID a with
          | None => Ok (inr errBadAddr)
          | Some raw =>
              match SignMessage conn (u_Address u) (utxoChallenge (u_TxID u) (u_Vout u) (u_Value u) (u_Address u)) with
              | inr _ => Ok (inr errSign)
              | inl sig => if negb (zlen sig =? 65) then Ok (inr errBadSigLen)
                           else Ok (inl (mkUtxoEntry id (u_Vout u) raw sig))
              end
          end
      end
  end.

Fixpoint buildUtxoProofs (conn : Connector) (utxos : list Utxo) (c : Coin) : res (list UtxoEntry + proofError) :=
  match utxos with
  | [] => Ok (inl [])
  | u :: utxos =>
      r ← utxo_proof conn c u;
      match r with
      | inr e => Ok (inr e)
      | inl p =>
          rest ← buildUtxoProofs conn utxos c;
          Ok (match rest with inl l => inl (p :: l) | inr e => inr e end)
      end
  end.

End Proofs.

(** ** Checking them *)

(** The value an entry adds, when its output is unspent and its signature holds; an unanswered query skips it. *)
Definition entry_value (conn : Connector) (c : Coin) (e : UtxoEntry) : res (option f64) :=
  let txid := EncodeToString (rev (Utxo_TxID e)) in
  match GetTxOut conn txid (Utxo_Vout e) with
  | inr _ | inl None => Ok None
  | inl (Some u) =>
      address ← Address_String (mkAddress c P2PKH (P2PKH_version c) (Utxo_RawAddress e) 0);
      if bool_decide (address = []) then Ok None
      else match VerifyMessage conn address (Utxo_Signature e) (utxoChallenge txid (Utxo_Vout e) (u_Value u) address) with
           | inl true => Ok (Some (u_Value u))
           | _ => Ok None
           end
  end.

(** The sum of the values so far and whether any entry was valid. *)
Fixpoint sum_entries (conn : Connector) (c : Coin) (utxos : list UtxoEntry) (sum : f64) (valid : bool) : res (f64 * bool) :=
  match utxos with
  | [] => Ok (sum, valid)
  | e :: utxos =>
      v ← entry_value conn c e;
      match v with
      | Some v => sum_entries conn c utxos (f64_add sum v) true
      | None => sum_entries conn c utxos sum valid
      end
  end.

Definition verifyOrderUtxos (conn : Connector) (c : Coin) (utxos : list UtxoEntry) (required : Z) : res bool :=
  '(sum, valid) ← sum_entries conn c utxos f64_zero false;
  Ok (valid && f64_le (f64_of required) (f64_mul sum (f64_of coinScale))).

(** ** What a proof is worth *)

Section Laws.
Variable uni : Unicode.

(** The wallet's output [u] of the coin [c]: a lower-case id, and the address
    of the P2PKH hash [h]. *)
Definition wallet_utxo (c : Coin) (u : Utxo) (h : bytes) : Prop :=
  (exists id, zlen id = 32 /\ u_TxID u = EncodeToString (rev id)) /\
  zlen h = 20 /\ u_Address u <> [] /\
  let a := mkAddress c P2PKH (P2PKH_version c) h 0 in
  decodeAddress uni c (u_Address u) = Ok a /\ Address_String a = Ok (u_Address u).

(** What the two wallets agree on: the value of the output, and that a
    signature made for an address verifies for it. *)
Definition wallets_agree (ours theirs : Connector) (u : Utxo) : Prop :=
  (exists u', GetTxOut theirs (u_TxID u) (u_Vout u) = inl (Some u') /\ u_Value u' = u_Value u) /\
  forall msg sig, SignMessage ours (u_Address u) msg = inl sig -> VerifyMessage theirs (u_Address u) sig msg = inl true.

Lemma entry_value_proof ours theirs c u h p :
  wallet_utxo c u h -> wallets_agree ours theirs u ->
  utxo_proof uni ours c u = Ok (inl p) -> entry_value theirs c p = Ok (Some (u_Value u)).
Proof.
  intros ((id & Hid & Hu) & Hh & Hne & Hd & Hs) [(u' & Hg & Hv) Hver] H. unfold utxo_proof, reverseTxidHex in H.
  rewrite Hu, hex_roundtrip in H. cbn [mbind option_bind] in H.
  replace (zlen (rev id) =? 32) with true in H by (unfold zlen in *; rewrite length_rev; by rewrite Hid).
  rewrite rev_involutive, Hd in H. unfold Address_ID in H. cbn [A_Hash] in H. rewrite Hh in H. cbn [Z.eqb Pos.eqb negb] in H.
  destruct (SignMessage _ _ _) as [sig|] eqn:Es; [|done]. destruct (zlen sig =? 65); [|done]. cbn [negb] in H. injection H as <-.
  unfold entry_value. cbn [Utxo_TxID Utxo_Vout Utxo_RawAddress Utxo_Signature]. rewrite <- Hu, Hg, Hs. cbn [mbind res_bind].
  rewrite bool_decide_false by done. rewrite Hv. rewrite <- Hu in Es. by rewrite (Hver _ _ Es).
Qed.

Lemma sum_entries_proofs ours theirs c us l sum valid :
  (forall u, u ∈ us -> wallets_agree ours theirs u /\ exists h, wallet_utxo c u h) ->
  buildUtxoProofs uni ours us c = Ok (inl l) ->
  sum_entries theirs c l sum valid = Ok (fold_left f64_add (map u_Value us) sum, valid || negb (zlen us =? 0)).
Proof.
  revert l sum valid; induction us as [|u us IH]; intros l sum valid Hus H; cbn [buildUtxoProofs] in H.
  { injection H as <-. cbn. by rewrite orb_false_r. }
  apply res_bind_ok in H as ([p|] & Hp & H); [|done]. apply res_bind_ok in H as ([rest|] & Hr & [= <-]).
  destruct (Hus u (list_elem_of_here _ _)) as (Hg & h & Hw). cbn [sum_entries map fold_left].
  rewrite (entry_value_proof ours theirs c u h p Hw Hg Hp). cbn [mbind res_bind].
  rewrite (IH rest (f64_add sum (u_Value u)) true); [|intros u' Hu'; apply Hus; by right|done]. do 2 f_equal.
  assert (zlen (u :: us) =? 0 = false) as -> by (apply Z.eqb_neq; unfold zlen; cbn; lia). by rewrite orb_true_r.
Qed.

(** An entry that counts, with a value: the wallet shows its output unspent at the
    value, and the P2PKH address of its key hash has signed the challenge. *)
Definition counts (conn : Connector) (c : Coin) (e : UtxoEntry) (v : f64) : Prop :=
  let txid := EncodeToString (rev (Utxo_TxID e)) in
  exists u addr, GetTxOut conn txid (Utxo_Vout e) = inl (Some u) /\ u_Value u = v /\ addr <> [] /\
    Address_String (mkAddress c P2PKH (P2PKH_version c) (Utxo_RawAddress e) 0) = Ok addr /\
    VerifyMessage conn addr (Utxo_Signature e) (utxoChallenge txid (Utxo_Vout e) v addr) = inl true.

(** The values of the entries that count, in order. *)
Inductive counted (conn : Connector) (c : Coin) : list UtxoEntry -> list f64 -> Prop :=
| counted_nil : counted conn c [] []
| counted_yes e v l vs : counts conn c e v -> counted conn c l vs -> counted conn c (e :: l) (v :: vs)
| counted_no e l vs : (forall v, ~ counts conn c e v) -> counted conn c l vs -> counted conn c (e :: l) vs.

Lemma entry_value_counts conn c e v : entry_value conn c e = Ok (Some v) <-> counts conn c e v.
Proof.
  unfold entry_value, counts. cbv zeta. split.
  - destruct (GetTxOut _ _ _) as [[u|]|]; [|done..]. destruct (Address_String _) as [a| |]; [|done..]. cbn [mbind res_bind].
    case_bool_decide; [done|]. destruct (VerifyMessage _ _ _ _) as [[]|] eqn:Ev; intros [= <-]. by exists u, a.
  - intros (u & addr & -> & <- & Hne & -> & Hv). cbn [mbind res_bind]. rewrite bool_decide_false by done. by rewrite Hv.
Qed.

Lemma sum_entries_counted conn c l sum valid s b : sum_entries conn c l sum valid = Ok (s, b) ->
  exists vs, counted conn c l vs /\ s = fold_left f64_add vs sum /\ b = valid || negb (zlen vs =? 0).
Proof.
  revert sum valid; induction l as [|e l IH]; intros sum valid H; cbn [sum_entries] in H.
  { injection H as <- <-. exists []. split_and!; [constructor|done|by rewrite orb_false_r]. }
  apply res_bind_ok in H as ([v|] & Hv & H).
  - apply IH in H as (vs & Hc & -> & ->). exists (v :: vs). split_and!; [constructor; [by apply entry_value_counts|done]|done|].
    assert (zlen (v :: vs) =? 0 = false) as -> by (apply Z.eqb_neq; unfold zlen; cbn; lia). by rewrite orb_true_r.
  - apply IH in H as (vs & Hc & -> & ->). exists vs. split_and!; [|done|done]. apply counted_no; [|done].
    intros v Hc'. apply entry_value_counts in Hc'. congruence.
Qed.

Lemma counted_fun conn c l vs vs' : counted conn c l vs -> counted conn c l vs' -> vs = vs'.
Proof.
  intros H. revert vs'. induction H as [|e v l vs Hv Hc IH|e l vs Hn Hc IH]; intros vs' H'; inversion H'; subst; try done.
  - f_equal; [|by apply IH]. apply entry_value_counts in Hv. match goal with H : counts _ _ _ _ |- _ => apply entry_value_counts in H end. congruence.
  - exfalso. naive_solver.
  - exfalso. naive_solver.
  - by apply IH.
Qed.

(** C27. What a node's verdict on an order's proofs means, and that honest proofs
    pass. When a node reaches a verdict, the values it adds are those of exactly
    the entries whose output its own wallet shows unspent and whose signature
    holds for the P2PKH address of the entry ([counted]); the order is booked if
    there is one and their binary64 sum, in millionths, is not below its amount.
    The proofs that a maker's wallet makes of P2PKH outputs under canonical
    addresses all count, at the values of the outputs, for every node whose
    wallet shows them at these values and verifies the maker's signatures. (The
    sum is rounded: outputs that cover the amount exactly can be refused,
    [rounded_sum_refused].) *)
Theorem proofs_verify (theirs : Connector) (c : Coin) (l : list UtxoEntry) (required : Z) :
  (forall b, verifyOrderUtxos theirs c l required = Ok b ->
    exists vs, counted theirs c l vs /\
      (b = true <-> vs <> [] /\ f64_le (f64_of required) (f64_mul (fold_left f64_add vs f64_zero) (f64_of coinScale)) = true)) /\
  (forall ours us, buildUtxoProofs uni ours us c = Ok (inl l) ->
    (forall u, u ∈ us -> wallets_agree ours theirs u /\ exists h, wallet_utxo c u h) ->
    length l = length us /\ counted theirs c l (map u_Value us) /\ exists b, verifyOrderUtxos theirs c l required = Ok b).
Proof.
  split.
  - intros b H. unfold verifyOrderUtxos in H. apply res_bind_ok in H as ([s valid] & Hs & H). injection H as <-.
    apply sum_entries_counted in Hs as (vs & Hc & -> & ->). exists vs. split; [done|]. rewrite andb_true_iff. cbn [orb].
    rewrite negb_true_iff, Z.eqb_neq. assert (vs <> [] <-> zlen vs <> 0) as ->; [|done]. destruct vs; unfold zlen; cbn; [tauto|]. split; [lia|done].
  - intros ours us H Hus. split.
    + clear Hus. revert l H; induction us as [|u us IH]; intros l H; cbn [buildUtxoProofs] in H; [by injection H as <-|].
      apply res_bind_ok in H as ([p|] & Hp & H); [|done]. apply res_bind_ok in H as ([rest|] & Hr & [= <-]). cbn. f_equal. by apply IH.
    + split.
      * revert l H; induction us as [|u us IH]; intros l H; cbn [buildUtxoProofs] in H; [injection H as <-; constructor|].
        apply res_bind_ok in H as ([p|] & Hp & H); [|done]. apply res_bind_ok in H as ([rest|] & Hr & [= <-]).
        destruct (Hus u (list_elem_of_here _ _)) as (Hg & h & Hw). cbn [map]. constructor.
        -- apply entry_value_counts. by eapply entry_value_proof.
        -- apply IH; [intros u' Hu'; apply Hus; by right|done].
      * unfold verifyOrderUtxos. rewrite (sum_entries_proofs ours theirs c us l f64_zero false Hus H). eauto.
Qed.

(** An entry is counted as often as it is listed: an order that repeats the
    proof of one output passes with a fraction of the funds it promises. *)
Theorem repeated_proof_counts (conn : Connector) (c : Coin) (e : UtxoEntry) (v : f64) (required : Z) :
  entry_value conn c e = Ok (Some v) ->
  verifyOrderUtxos conn c [e] required = Ok (f64_le (f64_of required) (f64_mul (f64_add f64_zero v) (f64_of coinScale))) /\
  verifyOrderUtxos conn c [e; e] required = Ok (f64_le (f64_of required) (f64_mul (f64_add (f64_add f64_zero v) v) (f64_of coinScale))).
Proof. intros H. unfold verifyOrderUtxos. cbn [sum_entries]. rewrite H. cbn [mbind res_bind]. done. Qed.

End Laws.

(** A wallet that signs with 65 bytes and finds every output at 2 coins. *)
Definition proving_wallet : Connector :=
  mkConnector fail fail (fun _ => fail) fail (fun _ _ => fail) (fun _ => fail) fail (fun _ => fail) (fun _ _ _ _ => fail)
    (fun _ _ => inl (repeat x01 65)) (fun _ _ _ => inl true) (fun txid vout => inl (Some (sample_utxo txid vout 200000000)))
    (fun _ => fail) fail (fun _ => fail) (fun _ => fail).

Definition proven_utxo : Utxo := sample_utxo (sample_txid x0c) 1 200000000.

Lemma proven_utxo_ok : wallets_agree proving_wallet proving_wallet proven_utxo /\ exists h, wallet_utxo no_unicode sample_coin proven_utxo h.
Proof.
  split; [split; [by eexists|done]|]. exists sample_hash. split; [by exists (repeat x0c 32)|]. split; [done|]. split; [done|].
  cbv zeta. split; vm_compute; reflexivity.
Qed.

Lemma proofs_verify_witness :
  exists l, buildUtxoProofs no_unicode proving_wallet [proven_utxo] sample_coin = Ok (inl l) /\
    counted proving_wallet sample_coin l [u_Value proven_utxo] /\ verifyOrderUtxos proving_wallet sample_coin l 2000000 = Ok true.
Proof.
  assert (match buildUtxoProofs no_unicode proving_wallet [proven_utxo] sample_coin with Ok (inl _) => true | _ => false end = true) as H
    by (vm_compute; reflexivity).
  destruct (buildUtxoProofs no_unicode proving_wallet [proven_utxo] sample_coin) as [[l|]| |] eqn:E; try discriminate H.
  exists l. split; [reflexivity|].
  assert (forall u, u ∈ [proven_utxo] -> wallets_agree proving_wallet proving_wallet u /\ exists h, wallet_utxo no_unicode sample_coin u h) as Hu
    by (intros u ->%list_elem_of_singleton; exact proven_utxo_ok).
  destruct (proofs_verify no_unicode proving_wallet sample_coin l 2000000) as [Hv Hb].
  destruct (Hb proving_wallet [proven_utxo] E Hu) as (_ & Hc & b & Hok). split; [exact Hc|].
  destruct (Hv b Hok) as (vs & Hc' & Hiff). rewrite (counted_fun _ _ _ _ _ Hc' Hc) in Hiff. rewrite Hok. f_equal. apply Hiff.
  split; [discriminate|vm_compute; reflexivity].
Defined.

(** One output of 2 coins, listed twice, passes for 4. *)
Lemma repeated_proof_counts_witness :
  exists e, verifyOrderUtxos proving_wallet sample_coin [e] 4000000 = Ok false /\ verifyOrderUtxos proving_wallet sample_coin [e; e] 4000000 = Ok true.
Proof.
  exists (mkUtxoEntry (repeat x0c 32) 1 sample_hash (repeat x01 65)).
  assert (entry_value proving_wallet sample_coin (mkUtxoEntry (repeat x0c 32) 1 sample_hash (repeat x01 65)) = Ok (Some (f64_div (f64_of 200000000) (f64_of 100000000))))
    as H by (vm_compute; reflexivity).
  destruct (repeated_proof_counts proving_wallet sample_coin _ _ 4000000 H) as [H1 H2]. rewrite H1, H2. split; vm_compute; reflexivity.
Defined.

(** A wallet with an output of 0.7 coins at index 0 and of 0.1 at the others. *)
Definition tenths_wallet : Connector :=
  mkConnector fail fail (fun _ => fail) fail (fun _ _ => fail) (fun _ => fail) fail (fun _ => fail) (fun _ _ _ _ => fail)
    (fun _ _ => inl (repeat x01 65)) (fun _ _ _ => inl true)
    (fun txid vout => inl (Some (sample_utxo txid vout (if vout =? 0 then 70000000 else 10000000))))
    (fun _ => fail) fail (fun _ => fail) (fun _ => fail).

(** Outputs of 0.7 and 0.1 do not cover an order of 0.8: 799999.9999999999. *)
Example rounded_sum_refused :
  let entry v := mkUtxoEntry (repeat x0c 32) v sample_hash (repeat x01 65) in
  verifyOrderUtxos tenths_wallet sample_coin [entry 0; entry 1] 800000 = Ok false /\
  verifyOrderUtxos tenths_wallet sample_coin [entry 0; entry 1] 799999 = Ok true.
Proof. split; vm_compute; reflexivity. Qed.
