(* ===== verification/Select.v ===== *)
(** * The selection of funding outputs (api/utxo_select.go, api/fee_tx.go)

    The selectors of an order's outputs, of a take's funding and of the service
    fee's inputs.  Values are the wallet's doubles, amounts are compared as the
    code compares them: [float64] for whole orders and the fee, [int64] for
    partial orders.  sort.Slice is the interface of Sort.v.  A loop that
    removes the elements it takes from a slice is a traversal with the kept
    elements in hand. *)

From S2P Require Import Prelude Sort Sha256 GoLib Hex Codec Bodies Peer Conf Price Wallet Deposit Order Float XAmount Store Utxos.

Definition maxPartialOrderUtxos : Z := 10.

(** ** Fees and dust *)

Definition camount (u : Utxo) : Z := xBridgeIntFromReal (u_Value u).

Definition ceilFeeXB (cc : option CoinConf) (feeNative : Z) : Z :=
  let perXB := match cc with Some c => if 1000000 <=? cc_Coin c then cc_Coin c / 1000000 else 100 | None => 100 end in
  if perXB <=? 1 then feeNative else wrap 64 (wrap 64 (feeNative + perXB) - 1) / perXB.

Definition minTxFeeWhole (cc : option CoinConf) (nIn nOut : Z) : f64 :=
  f64_div (f64_of (estimateFee cc nIn nOut)) (f64_of (match cc with Some c => cc_Coin c | None => coinScale end)).

Definition isDustNative (v : f64) (cc : option CoinConf) (nativeCoin : Z) : bool :=
  let a := f64_mul v (f64_of nativeCoin) in
  (f64_to_int64 a <? 0) || (f64_to_uint64 a <? effectiveDust cc).

(** ** Whole orders *)

Definition sum_values (l : list Utxo) (from : f64) : f64 := fold_left (fun r u => f64_add r (u_Value u)) l from.

(** The first ideal output, or those at least [minAmount] and those below it, in order. *)
Fixpoint bucket (ideal : Utxo -> bool) (minAmount : f64) (a gt lt : list Utxo) : Utxo + (list Utxo * list Utxo) :=
  match a with
  | [] => inr (gt, lt)
  | u :: a =>
      if ideal u then inl u
      else if f64_le minAmount (u_Value u) then bucket ideal minAmount a (gt ++ [u]) lt
      else if f64_lt (u_Value u) minAmount then bucket ideal minAmount a gt (lt ++ [u])
      else bucket ideal minAmount a gt lt
  end.

(** The shortest prefix whose sum, its fees taken off, reaches [minAmount]. *)
Fixpoint accumulate (net : list Utxo -> f64) (minAmount : f64) (sel lt : list Utxo) : list Utxo :=
  match lt with
  | [] => []
  | u :: lt =>
      let sel := sel ++ [u] in
      if f64_le minAmount (net sel) then sel else accumulate net minAmount sel lt
  end.

Definition by_value (a b : Utxo) : bool := f64_lt (u_Value a) (u_Value b).
Definition by_value_desc (a b : Utxo) : bool := f64_lt (u_Value b) (u_Value a).

(** [int64] arithmetic *)
Definition i64 : Z -> Z := swrap64.

Record pick := mkPick {
  pk_utxos : list Utxo;
  pk_out : list Utxo;
  pk_used : Z;
  pk_fees : Z;
  pk_ideal : Z;
}.
#[export] Instance eta_pick : Eta pick := fun p => mkPick (pk_utxos p) (pk_out p) (pk_used p) (pk_fees p) (pk_ideal p).

(** Take [u]: its amount and, where the code adds one, a fee. *)
Definition take_utxo (u : Utxo) (fee : Z) (p : pick) : pick :=
  p <| pk_used ::= (fun v => i64 (v + i64 (camount u))) |> <| pk_out ::= (fun l => l ++ [u]) |>
    <| pk_fees ::= (fun f => wrap 64 (f + fee)) |>.

Record partial_req := mkPartialReq {
  pr_Amount : Z;
  pr_UtxoCount : Z;
  pr_FeePerUtxo : Z;
  pr_PrepTxVouts : Z;
  pr_SplitSize : Z;
  pr_Remainder : Z;
}.

Section Select.
Context {gosort : GoSort}.

Definition choose_bucket (ideal : Utxo -> bool) (minAmount : f64) (net : list Utxo -> f64) (a : list Utxo) : list Utxo :=
  match bucket ideal minAmount a [] [] with
  | inl u => [u]
  | inr ([u], _) => [u]
  | inr ([], lt) => if zlen lt <? 2 then [] else accumulate net minAmount [] (sort_slice by_value_desc lt)
  | inr (gt, _) => take 1 (sort_slice by_value gt)
  end.

(** [feeAmount(amt, 1, 3)] *)
Definition min_amount (cc : option CoinConf) (amt : f64) : f64 :=
  f64_add (f64_add amt (minTxFeeWhole cc 1 3)) (minTxFeeWhole cc 1 1).

Definition order_ideal (cc : option CoinConf) (addr : bytes) (minAmount : f64) (u : Utxo) : bool :=
  f64_le minAmount (u_Value u)
  && f64_lt (u_Value u) (f64_add minAmount (f64_mul (f64_add (minTxFeeWhole cc 1 3) (minTxFeeWhole cc 1 1)) (f64_of 1000)))
  && (bool_decide (u_Address u = addr) || bool_decide (addr = [])).

(** The running sum of the code starts from the negated fees. *)
Definition order_net (cc : option CoinConf) (sel : list Utxo) : f64 :=
  sum_values sel (f64_mul (f64_add (minTxFeeWhole cc (zlen sel) 3) (minTxFeeWhole cc 1 1)) (f64_of (-1))).

Definition selUtxos (cc : option CoinConf) (addr : bytes) (amt : f64) (a : list Utxo) : list Utxo :=
  let minAmount := min_amount cc amt in
  choose_bucket (order_ideal cc addr minAmount) minAmount (order_net cc) a.

Definition sum_xb (l : list Utxo) : Z :=
  fold_left (fun r u => wrap 64 (r + f64_to_uint64 (f64_mul (u_Value u) (f64_of coinScale)))) l 0.

(** The outputs, their total and the prep fee; [None] is [ok = false]. *)
Definition selectUtxos (addr : bytes) (outputs : list Utxo) (cc : option CoinConf) (requiredAmount : Z) : option (list Utxo * Z * Z) :=
  let o := selUtxos cc addr (f64_div (f64_of requiredAmount) (f64_of coinScale)) (sort_slice by_value_desc outputs) in
  if zlen o =? 0 then None
  else Some (o, sum_xb o, ceilFeeXB cc (estimateFee cc (zlen o) 3)).

(** The funding of a take, and the fee candidates without it. *)
Definition selectTakeFunding (fromAddr : bytes) (fundAvail feeAvail : list Utxo) (ccTo : option CoinConf) (fromSize : Z)
    : option (list Utxo * list Utxo) :=
  '(funding, _, _) ← selectUtxos fromAddr fundAvail ccTo fromSize;
  Some (funding, List.filter (fun u => negb (bool_decide (utxoKey u ∈ map utxoKey funding))) feeAvail).

(** ** The service fee *)

Definition serviceNodeFeeReal : f64 := f64_const 15 1000.
Definition feeTxRelayPerByte : f64 := f64_const 40 100000000.

Definition estFeeBlock (inputs outputs : Z) : f64 := f64_mul (f64_of (192 * inputs + 34 * outputs)) feeTxRelayPerByte.

Definition fee_ideal (minAmount : f64) (u : Utxo) : bool :=
  f64_le minAmount (u_Value u) && f64_lt (u_Value u) (f64_add minAmount (f64_mul (estFeeBlock 1 3) (f64_of 100))).

Definition fee_net (sel : list Utxo) : f64 := f64_sub (sum_values sel f64_zero) (estFeeBlock (zlen sel) 3).

(** What is not at least the minimum is below it, also a value that compares with nothing. *)
Fixpoint fee_bucket (minAmount : f64) (a gt lt : list Utxo) : Utxo + (list Utxo * list Utxo) :=
  match a with
  | [] => inr (gt, lt)
  | u :: a =>
      if fee_ideal minAmount u then inl u
      else if f64_le minAmount (u_Value u) then fee_bucket minAmount a (gt ++ [u]) lt
      else fee_bucket minAmount a gt (lt ++ [u])
  end.

Definition selectFeeUtxos (a : list Utxo) (amt : f64) : option (list Utxo) :=
  let minAmount := f64_add amt (estFeeBlock 1 3) in
  match fee_bucket minAmount (sort_slice by_value_desc a) [] [] with
  | inl u => Some [u]
  | inr ([u], _) => Some [u]
  | inr ([], lt) =>
      if zlen lt <? 2 then None
      else match accumulate fee_net minAmount [] (sort_slice by_value_desc lt) with
           | [] => None
           | sel => Some sel
           end
  | inr (gt, _) => Some (take 1 (sort_slice by_value gt))
  end.

(** ** Partial orders *)

Section Partial.
Variable (cc : option CoinConf) (rq : partial_req).

Definition split_fee : Z := wrap 64 (pr_SplitSize rq + pr_FeePerUtxo rq).
Definition split_needed : Z := i64 (wrap 64 (split_fee * pr_UtxoCount rq)).
Definition remainder_needed : Z := if 0 <? pr_Remainder rq then i64 (wrap 64 (pr_Remainder rq + pr_FeePerUtxo rq)) else 0.

(** The total with the fees of a prep transaction of [nIn] inputs. *)
Definition prep_needed (nIn : Z) : Z :=
  i64 (i64 (split_needed + remainder_needed) + i64 (ceilFeeXB cc (estimateFee cc nIn (pr_PrepTxVouts rq)))).

(** The outputs of exactly the split size and its fees, and of the remainder. *)
Fixpoint ideal_loop (utxos kept : list Utxo) (p : pick) : pick :=
  match utxos with
  | [] => p <| pk_utxos := kept |>
  | u :: utxos' =>
      let camt := i64 (camount u) in
      if (camt =? i64 split_fee) && (pk_used p <? split_needed)
      then ideal_loop utxos' kept (take_utxo u (pr_FeePerUtxo rq) p <| pk_ideal ::= Z.succ |>)
      else if (0 <? pr_Remainder rq) && (camt =? i64 (pr_Remainder rq))
      then ideal_loop utxos' kept (take_utxo u (pr_FeePerUtxo rq) p)
      else if i64 (pr_Amount rq) <=? pk_used p then p <| pk_utxos := kept ++ utxos |>
      else ideal_loop utxos' (kept ++ [u]) p
  end.

(** The first output that passes [f] is taken, with a fee. *)
Fixpoint take_first (f : Z -> bool) (fee : Z) (utxos kept : list Utxo) (p : pick) : pick :=
  match utxos with
  | [] => p <| pk_utxos := kept |>
  | u :: utxos' =>
      if f (i64 (camount u)) then take_utxo u fee p <| pk_utxos := kept ++ utxos' |>
      else take_first f fee utxos' (kept ++ [u]) p
  end.

(** Outputs of [f] are taken until the total of a growing prep transaction is reached. *)
Fixpoint cover_loop (f : Utxo -> bool) (count : Z) (utxos kept : list Utxo) (p : pick) : pick :=
  match utxos with
  | [] => p <| pk_utxos := kept |>
  | u :: utxos' =>
      if i64 (prep_needed count - pk_used p) <=? 0 then p <| pk_utxos := kept ++ utxos |>
      else if f u then cover_loop f (count + 1) utxos' kept (take_utxo u 0 p)
      else cover_loop f count utxos' (kept ++ [u]) p
  end.

Definition sort_pick (lt : Utxo -> Utxo -> bool) (p : pick) : pick := p <| pk_utxos ::= sort_slice lt |>.
Definition by_camount (a b : Utxo) : bool := camount a <? camount b.
Definition by_camount_desc (a b : Utxo) : bool := camount b <? camount a.

(** The required number of outputs is there and covers the amount and the fees so far. *)
Definition exact_match (len_ok : bool) (p : pick) : bool :=
  len_ok && (i64 (i64 (i64 (pr_Amount rq) + i64 (pk_fees p)) - pk_used p) <=? 0).

(** The prep transaction's side: what the ideal pass left is covered with further outputs. *)
Definition prep_pick (p : pick) : pick :=
  let next p := zlen (pk_out p) - pk_ideal p + 1 in
  let need := prep_needed (next p) in
  let p := if pk_used p <? need then take_first (fun a => need <=? i64 (a + pk_used p)) 0 (pk_utxos p) [] p else p in
  if pk_used p <? need
  then let p := sort_pick by_camount_desc p in cover_loop (fun _ => true) (next p) (pk_utxos p) [] p
  else p.

(** The outputs, their total, the fees, and whether they match exactly. *)
Definition partial_result (p : pick) : option (list Utxo * Z * Z * bool) :=
  if (zlen (pk_out p) =? 0) || (i64 (pk_used p - prep_needed (zlen (pk_out p) - pk_ideal p)) <=? 0) then None
  else Some (pk_out p, wrap 64 (pk_used p), wrap 64 (zlen (pk_out p) * pr_FeePerUtxo rq), false).

Definition exact_result (p : pick) : option (list Utxo * Z * Z * bool) := Some (pk_out p, wrap 64 (pk_used p), pk_fees p, true).

Definition selectPartialUtxos (outputs : list Utxo) : option (list Utxo * Z * Z * bool) :=
  let count := i64 (pr_UtxoCount rq) in
  let p := ideal_loop outputs [] (mkPick [] [] 0 0 0) in
  let n := zlen (pk_out p) in
  if exact_match ((n =? count) || ((0 <? pr_Remainder rq) && (n =? count + 1))) p then exact_result p
  else
    let p := sort_pick by_camount p in
    if zlen (pk_out p) =? count then
      let p := take_first (fun a => a =? i64 (i64 (i64 (i64 (pr_Amount rq) + i64 (pk_fees p)) + i64 (pr_FeePerUtxo rq)) - pk_used p))
                 (pr_FeePerUtxo rq) (pk_utxos p) [] p in
      if exact_match (count <=? zlen (pk_out p)) p then exact_result p else partial_result (prep_pick p)
    else
      partial_result (prep_pick (cover_loop (fun u => split_fee <=? camount u) (zlen (pk_out p) - pk_ideal p + 1) (pk_utxos p) [] p)).

End Partial.

End Select.

(** ** The order id *)

Definition sha256dOrderID (from fromCur : bytes) (fromAmt : Z) (to toCur : bytes) (toAmt ts : Z) (blockHash sig : bytes) : bytes :=
  let b := marshalVarStr from ++ marshalVarStr fromCur ++ le_split 8 fromAmt ++ marshalVarStr to ++ marshalVarStr toCur ++
           le_split 8 toAmt ++ le_split 8 ts ++ blockHash ++ marshalVarStr sig in
  Sum256 (Sum256 b).
