(* ===== verification/SelectLaws.v ===== *)
(** * The selectors only spend what they are given, and cover what is asked

    Every selector returns outputs of its candidates, each at most once
    ([submseteq]), whatever order sort.Slice leaves ties in; funding and fee
    inputs of a take never share an output; and a successful selection covers
    its amount: in doubles where the code compares doubles, and for partial
    orders in integers, as long as the sums stay below 2^63. *)

From S2P Require Import Prelude Sort Sha256 GoLib Hex Codec Bodies Peer Conf Price Wallet Deposit Order Float XAmount Store Utxos Select.

Section Laws.
Context {gosort : GoSort} {sortlaws : @GoSortLaws gosort}.

(** ** Whole orders and fees *)

Lemma bucket_sub ideal m a gt lt :
  match bucket ideal m a gt lt with
  | inl u => u ∈ a /\ ideal u = true
  | inr (gt', lt') => exists g l, gt' = gt ++ g /\ lt' = lt ++ l /\ g ++ l ⊆+ a /\ Forall (fun u => f64_le m (u_Value u) = true) g
  end.
Proof.
  revert gt lt; induction a as [|u a IH]; intros gt lt; cbn [bucket].
  { exists [], []. rewrite !app_nil_r. split_and!; [done..|constructor]. }
  destruct (ideal u) eqn:Ei; [by split; [left|]|].
  destruct (f64_le m (u_Value u)) eqn:Em.
  { specialize (IH (gt ++ [u]) lt). destruct (bucket _ _ _ _ _) as [v|[gt' lt']]; [destruct IH; split; [by right|done]|].
    destruct IH as (g & l & -> & -> & Hs & Hg). exists (u :: g), l. rewrite <- app_assoc. split_and!; try done.
    - cbn. by apply submseteq_skip.
    - by constructor. }
  destruct (f64_lt (u_Value u) m).
  - specialize (IH gt (lt ++ [u])). destruct (bucket _ _ _ _ _) as [v|[gt' lt']]; [destruct IH; split; [by right|done]|].
    destruct IH as (g & l & -> & -> & Hs & Hg). exists g, (u :: l). rewrite <- (app_assoc lt). split_and!; try done.
    rewrite <- Permutation_middle. by apply submseteq_skip.
  - specialize (IH gt lt). destruct (bucket _ _ _ _ _) as [v|[gt' lt']]; [destruct IH; split; [by right|done]|].
    destruct IH as (g & l & -> & -> & Hs & Hg). exists g, l. split_and!; try done. by apply submseteq_cons.
Qed.

(** What is accumulated is a prefix that reaches the minimum. *)
Lemma accumulate_spec net m sel lt :
  let r := accumulate net m sel lt in r = [] \/ (f64_le m (net r) = true /\ exists k, r = sel ++ k /\ k `prefix_of` lt).
Proof.
  revert sel; induction lt as [|u lt IH]; intros sel; cbn [accumulate]; [by left|].
  destruct (f64_le m (net (sel ++ [u]))) eqn:E.
  - right. split; [done|]. exists [u]. split; [done|]. by exists lt.
  - destruct (IH (sel ++ [u])) as [H|(H & k & Hk & Hp)]; [by left|right]. split; [done|].
    exists (u :: k). split; [by rewrite Hk, <- app_assoc|]. by apply prefix_cons.
Qed.

(** A selection covers the minimum: one output at least that large, or several whose sum net of fees is. *)
Definition covers (m : f64) (net : list Utxo -> f64) (o : list Utxo) : Prop :=
  (exists u, o = [u] /\ f64_le m (u_Value u) = true) \/ f64_le m (net o) = true.

Lemma head_sort_sub (lt : Utxo -> Utxo -> bool) (l : list Utxo) : take 1 (sort_slice lt l) ⊆+ l.
Proof. rewrite <- (sort_slice_perm lt l) at 2. rewrite <- (take_drop 1 (sort_slice lt l)) at 2. apply submseteq_inserts_r. done. Qed.

Lemma choose_bucket_spec ideal m net a :
  (forall u, ideal u = true -> f64_le m (u_Value u) = true) ->
  let o := choose_bucket ideal m net a in o ⊆+ a /\ (o = [] \/ covers m net o).
Proof.
  intros Hid. unfold choose_bucket. pose proof (bucket_sub ideal m a [] []) as H.
  destruct (bucket ideal m a [] []) as [u|[gt lt]].
  - destruct H as [Hin Hi]. split; [by apply singleton_submseteq_l|]. right. left. eauto.
  - destruct H as (g & l & -> & -> & Hs & Hg). cbn [app]. destruct g as [|u [|v g]].
    + destruct (zlen l <? 2); [by split; [apply submseteq_nil_l|left]|].
      destruct (accumulate_spec net m [] (sort_slice by_value_desc l)) as [->|(Hc & k & Hk & Hp)];
        [by split; [apply submseteq_nil_l|left]|].
      split; [|by right; right]. rewrite Hk. cbn [app] in *. rewrite <- Hs, <- (sort_slice_perm by_value_desc l).
      destruct Hp as [t ->]. by apply submseteq_inserts_r.
    + split; [etransitivity; [|exact Hs]; by apply submseteq_inserts_r|]. right. left. inversion Hg. eauto.
    + set (gt := u :: v :: g) in *. split.
      { etransitivity; [apply head_sort_sub|]. etransitivity; [|exact Hs]. by apply submseteq_inserts_r. }
      right. left. pose proof (sort_slice_perm by_value gt) as Hp.
      destruct (sort_slice by_value gt) as [|w s]; [by apply Permutation_nil in Hp|]. exists w. split; [done|].
      rewrite Forall_forall in Hg. apply Hg. rewrite <- Hp. by left.
Qed.

Lemma selectUtxos_spec addr outputs cc required o amount fee :
  selectUtxos addr outputs cc required = Some (o, amount, fee) ->
  o ⊆+ outputs /\ o <> [] /\ amount = sum_xb o /\ fee = ceilFeeXB cc (estimateFee cc (zlen o) 3) /\
  covers (min_amount cc (f64_div (f64_of required) (f64_of coinScale))) (order_net cc) o.
Proof.
  unfold selectUtxos, selUtxos. set (a := sort_slice by_value_desc outputs). set (m := min_amount _ _).
  destruct (choose_bucket_spec (order_ideal cc addr m) m (order_net cc) a) as [Hs Hc].
  { intros u H. unfold order_ideal in H. by destruct (f64_le m (u_Value u)). }
  set (ch := choose_bucket _ _ _ a) in *. destruct (Z.eqb_spec (zlen ch) 0) as [|Hne]; [done|]. intros [= <- <- <-].
  assert (ch <> []) as Hn by (by intros E; rewrite E in Hne). split_and!; try done.
  - rewrite Hs. unfold a. by rewrite sort_slice_perm.
  - by destruct Hc.
Qed.

Lemma filter_sub {A} (f : A -> bool) (l : list A) : List.filter f l ⊆+ l.
Proof. induction l as [|v l IH]; cbn [List.filter]; [done|]. destruct (f v); [by apply submseteq_skip|by apply submseteq_cons]. Qed.

Lemma selectTakeFunding_sub addr fund fee cc size o rest :
  selectTakeFunding addr fund fee cc size = Some (o, rest) ->
  o ⊆+ fund /\ o <> [] /\ rest ⊆+ fee /\ (forall u v, u ∈ o -> v ∈ rest -> utxoKey u <> utxoKey v) /\
  covers (min_amount cc (f64_div (f64_of size) (f64_of coinScale))) (order_net cc) o.
Proof.
  unfold selectTakeFunding. destruct (selectUtxos _ _ _ _) as [[[o' amount] f]|] eqn:E; [|done]. cbn. intros [= <- <-].
  apply selectUtxos_spec in E as (Hs & Hne & _ & _ & Hc). split_and!; try done.
  - apply filter_sub.
  - intros u v Hu Hv E. apply list_elem_of_In, filter_In in Hv as [_ Hv]. apply negb_true_iff, bool_decide_eq_false in Hv.
    apply Hv. rewrite <- E. apply list_elem_of_fmap. by exists u.
Qed.

Lemma fee_bucket_sub m a gt lt :
  match fee_bucket m a gt lt with
  | inl u => u ∈ a /\ fee_ideal m u = true
  | inr (gt', lt') => exists g l, gt' = gt ++ g /\ lt' = lt ++ l /\ g ++ l ⊆+ a /\ Forall (fun u => f64_le m (u_Value u) = true) g
  end.
Proof.
  revert gt lt; induction a as [|u a IH]; intros gt lt; cbn [fee_bucket].
  { exists [], []. rewrite !app_nil_r. split_and!; [done..|constructor]. }
  destruct (fee_ideal m u) eqn:Ei; [by split; [left|]|].
  destruct (f64_le m (u_Value u)) eqn:Em.
  - specialize (IH (gt ++ [u]) lt). destruct (fee_bucket _ _ _ _) as [v|[gt' lt']]; [destruct IH; split; [by right|done]|].
    destruct IH as (g & l & -> & -> & Hs & Hg). exists (u :: g), l. rewrite <- app_assoc. split_and!; try done.
    + cbn. by apply submseteq_skip.
    + by constructor.
  - specialize (IH gt (lt ++ [u])). destruct (fee_bucket _ _ _ _) as [v|[gt' lt']]; [destruct IH; split; [by right|done]|].
    destruct IH as (g & l & -> & -> & Hs & Hg). exists g, (u :: l). rewrite <- (app_assoc lt). split_and!; try done.
    rewrite <- Permutation_middle. by apply submseteq_skip.
Qed.

Lemma selectFeeUtxos_spec a amt sel :
  selectFeeUtxos a amt = Some sel -> sel ⊆+ a /\ sel <> [] /\ covers (f64_add amt (estFeeBlock 1 3)) fee_net sel.
Proof.
  unfold selectFeeUtxos. set (m := f64_add _ _). set (a' := sort_slice by_value_desc a).
  assert (a' ≡ₚ a) as Ha by apply sort_slice_perm. pose proof (fee_bucket_sub m a' [] []) as H.
  destruct (fee_bucket m a' [] []) as [u|[gt lt]].
  - destruct H as [Hin Hi]. intros [= <-]. split_and!; [rewrite <- Ha; by apply singleton_submseteq_l|done|].
    left. exists u. split; [done|]. unfold fee_ideal in Hi. by destruct (f64_le m (u_Value u)).
  - destruct H as (g & l & -> & -> & Hs & Hg). cbn [app]. rewrite Ha in Hs. destruct g as [|u [|v g]].
    + destruct (zlen l <? 2); [done|]. pose proof (accumulate_spec fee_net m [] (sort_slice by_value_desc l)) as Hacc. cbv zeta in Hacc.
      destruct (accumulate _ _ _ _) as [|w s] eqn:Eacc; [done|]. intros [= <-]. destruct Hacc as [|(Hc & k & Hk & [t Hp])]; [done|].
      split_and!; [|done|by right]. cbn [app] in Hk, Hs. rewrite Hk, <- Hs, <- (sort_slice_perm by_value_desc l), Hp. by apply submseteq_inserts_r.
    + intros [= <-]. split_and!; [etransitivity; [|exact Hs]; by apply submseteq_inserts_r|done|]. left. inversion Hg. eauto.
    + set (gt := u :: v :: g) in *. intros [= <-]. pose proof (sort_slice_perm by_value gt) as Hp. split_and!.
      * etransitivity; [apply head_sort_sub|]. etransitivity; [|exact Hs]. by apply submseteq_inserts_r.
      * destruct (sort_slice by_value gt); [by apply Permutation_nil in Hp|done].
      * destruct (sort_slice by_value gt) as [|w s]; [by apply Permutation_nil in Hp|]. left. exists w. split; [done|].
        rewrite Forall_forall in Hg. apply Hg. rewrite <- Hp. by left.
Qed.

(** ** Partial orders *)

Definition sum_camount (l : list Utxo) : Z := foldr (fun u s => camount u + s) 0 l.

Lemma sum_camount_app l k : sum_camount (l ++ k) = sum_camount l + sum_camount k.
Proof. induction l; cbn; [done|]. unfold sum_camount in *. lia. Qed.

Lemma camount_nonneg u : 0 <= camount u.
Proof.
  unfold camount, xBridgeIntFromReal, f64_to_uint64. destruct (f64_lt _ _); [by apply wrap_ok|].
  apply Z.lxor_nonneg. split; [done|]. intros _. by apply wrap_ok.
Qed.

Lemma camount_u64 u : uint_ok 64 (camount u).
Proof.
  split; [apply camount_nonneg|]. unfold camount, xBridgeIntFromReal, f64_to_uint64. destruct (f64_lt _ _); [by apply wrap_ok|].
  set (a := wrap 64 _). assert (0 <= a < 2 ^ 64) as Ha by by apply wrap_ok. clearbody a.
  assert (0 <= Z.lxor a (2 ^ 63)) as Hn by (apply Z.lxor_nonneg; lia).
  destruct (Z.eq_dec (Z.lxor a (2 ^ 63)) 0) as [->|Hz]; [done|]. apply Z.log2_lt_pow2; [lia|].
  pose proof (Z.log2_lxor a (2 ^ 63) ltac:(lia) ltac:(lia)) as Hl. rewrite Z.log2_pow2 in Hl by lia.
  assert (Z.log2 a < 64) as Hla; [|lia]. destruct (Z.eq_dec a 0) as [->|]; [done|]. apply Z.log2_lt_pow2; lia.
Qed.

Lemma sum_camount_nonneg l : 0 <= sum_camount l.
Proof. induction l as [|u l]; cbn; [done|]. pose proof (camount_nonneg u). unfold sum_camount in *. lia. Qed.

Lemma i64_range v : - 2 ^ 63 <= i64 v < 2 ^ 63.
Proof. unfold i64, swrap64. pose proof (Z.mod_pos_bound (v + 2 ^ 63) (2 ^ 64)). lia. Qed.

Lemma i64_small v : - 2 ^ 63 <= v < 2 ^ 63 -> i64 v = v.
Proof. apply swrap64_small. Qed.

Lemma i64_idem v : i64 (i64 v) = i64 v.
Proof. apply i64_small, i64_range. Qed.

Lemma i64_add a b : i64 (i64 a + i64 b) = i64 (a + b).
Proof.
  unfold i64, swrap64. f_equal. pose proof (Z.div_mod (a + 2 ^ 63) (2 ^ 64)). pose proof (Z.div_mod (b + 2 ^ 63) (2 ^ 64)).
  replace (a + b + 2 ^ 63) with ((a + 2 ^ 63) mod 2 ^ 64 - 2 ^ 63 + ((b + 2 ^ 63) mod 2 ^ 64 - 2 ^ 63) + 2 ^ 63 +
    ((a + 2 ^ 63) / 2 ^ 64 + (b + 2 ^ 63) / 2 ^ 64) * 2 ^ 64) by lia. by rewrite Z.mod_add.
Qed.

Lemma i64_inj a b : uint_ok 64 a -> uint_ok 64 b -> i64 a = i64 b -> a = b.
Proof.
  unfold uint_ok, i64, swrap64. intros Ha Hb H. assert ((a + 2 ^ 63) mod 2 ^ 64 = (b + 2 ^ 63) mod 2 ^ 64) as E by lia.
  pose proof (Z.div_mod (a + 2 ^ 63) (2 ^ 64) ltac:(lia)). pose proof (Z.div_mod (b + 2 ^ 63) (2 ^ 64) ltac:(lia)).
  assert ((a + 2 ^ 63) / 2 ^ 64 = (b + 2 ^ 63) / 2 ^ 64); [|lia]. 
  assert (0 <= (a + 2 ^ 63) / 2 ^ 64 <= 1 /\ 0 <= (b + 2 ^ 63) / 2 ^ 64 <= 1) by (split; split; [apply Z.div_pos; lia|apply Z.lt_succ_r, Z.div_lt_upper_bound; lia|apply Z.div_pos; lia|apply Z.lt_succ_r, Z.div_lt_upper_bound; lia]).
  nia.
Qed.

Lemma wrap_i64 v : wrap 64 (i64 v) = wrap 64 v.
Proof.
  unfold wrap, i64, swrap64. rewrite Zminus_mod_idemp_l. f_equal. lia.
Qed.

Lemma wrap_add_l a b : wrap 64 (wrap 64 a + b) = wrap 64 (a + b).
Proof. unfold wrap. by rewrite Zplus_mod_idemp_l. Qed.

(** What every pass keeps: the outputs taken and those left are the
    candidates, and the total is that of the outputs taken. *)
Definition pick_inv (outputs left : list Utxo) (p : pick) : Prop :=
  pk_out p ++ left ⊆+ outputs /\ pk_used p = i64 (sum_camount (pk_out p)) /\ 0 <= pk_ideal p <= zlen (pk_out p).

(** The fees are one per output taken. *)
Definition fees_inv (fee : Z) (p : pick) : Prop := pk_fees p = wrap 64 (zlen (pk_out p) * fee).

Lemma take_utxo_inv outputs left u fee p :
  pick_inv outputs (u :: left) p -> pick_inv outputs left (take_utxo u fee p).
Proof.
  intros (Hs & Hu & Hi). unfold take_utxo. split_and!; cbn.
  - by rewrite <- app_assoc.
  - rewrite Hu, i64_add, sum_camount_app. f_equal. cbn. lia.
  - lia.
  - unfold zlen in *. rewrite length_app. lia.
Qed.

Lemma take_ideal_inv outputs left u fee p :
  pick_inv outputs (u :: left) p -> pick_inv outputs left (take_utxo u fee p <| pk_ideal ::= Z.succ |>).
Proof.
  intros H. pose proof H as (_ & _ & Hi). apply (take_utxo_inv _ _ _ fee) in H as (Hs & Hu & _). split_and!; [done..| |]; cbn in *.
  - lia.
  - unfold zlen in *. rewrite length_app. cbn. lia.
Qed.

Lemma take_utxo_fees u fee p : fees_inv fee p -> fees_inv fee (take_utxo u fee p).
Proof.
  intros H. unfold fees_inv, take_utxo. cbn. rewrite H, wrap_add_l. f_equal. unfold zlen. rewrite length_app. cbn. lia.
Qed.

Lemma pick_inv_perm outputs l l' p : l ≡ₚ l' -> pick_inv outputs l p -> pick_inv outputs l' p.
Proof. intros Hp (Hs & Hu & Hi). split; [by rewrite <- Hp|done]. Qed.

Lemma pick_inv_mid outputs kept u l p : pick_inv outputs (kept ++ u :: l) p -> pick_inv outputs (u :: kept ++ l) p.
Proof. apply pick_inv_perm. by rewrite Permutation_middle. Qed.

Section Partial.
Variable (cc : option CoinConf) (rq : partial_req) (outputs : list Utxo).

Lemma ideal_loop_inv utxos kept p :
  pick_inv outputs (kept ++ utxos) p -> fees_inv (pr_FeePerUtxo rq) p ->
  let p' := ideal_loop rq utxos kept p in pick_inv outputs (pk_utxos p') p' /\ fees_inv (pr_FeePerUtxo rq) p'.
Proof.
  revert kept p; induction utxos as [|u utxos IH]; intros kept p Hi Hf; cbn [ideal_loop].
  { rewrite app_nil_r in Hi. by split. }
  pose proof (pick_inv_mid _ _ _ _ _ Hi) as Hi'.
  destruct (_ && _); [|destruct ((0 <? pr_Remainder rq) && _); [|destruct (_ <=? _)]].
  - apply IH; [by apply take_ideal_inv|exact (take_utxo_fees u _ _ Hf)].
  - apply IH; [by apply take_utxo_inv|by apply take_utxo_fees].
  - by split.
  - apply IH; [by rewrite <- app_assoc|done].
Qed.

Lemma take_first_inv f fee utxos kept p :
  pick_inv outputs (kept ++ utxos) p ->
  let p' := take_first f fee utxos kept p in pick_inv outputs (pk_utxos p') p' /\ (fees_inv fee p -> fees_inv fee p').
Proof.
  revert kept; induction utxos as [|u utxos IH]; intros kept Hi; cbn [take_first].
  { rewrite app_nil_r in Hi. by split. }
  destruct (f _).
  - split; [|exact (take_utxo_fees u fee p)]. exact (take_utxo_inv outputs _ u fee p (pick_inv_mid _ _ _ _ _ Hi)).
  - apply IH. by rewrite <- app_assoc.
Qed.

Lemma cover_loop_inv f count utxos kept p :
  pick_inv outputs (kept ++ utxos) p ->
  let p' := cover_loop cc rq f count utxos kept p in pick_inv outputs (pk_utxos p') p'.
Proof.
  revert count kept p; induction utxos as [|u utxos IH]; intros count kept p Hi; cbn [cover_loop].
  { by rewrite app_nil_r in Hi. }
  destruct (_ <=? 0); [done|]. destruct (f u).
  - apply IH. apply take_utxo_inv. by apply pick_inv_mid.
  - apply IH. by rewrite <- app_assoc.
Qed.

Lemma sort_pick_inv lt p : pick_inv outputs (pk_utxos p) p -> pick_inv outputs (pk_utxos (sort_pick lt p)) (sort_pick lt p).
Proof. intros (Hs & Hu & Hi). split; [|done]. cbn. by rewrite sort_slice_perm. Qed.

Lemma prep_pick_inv p : pick_inv outputs (pk_utxos p) p -> pick_inv outputs (pk_utxos (prep_pick cc rq p)) (prep_pick cc rq p).
Proof.
  intros H. unfold prep_pick. cbv zeta.
  set (need := prep_needed _ _ _). set (q := if _ <? need then take_first _ _ _ _ _ else p).
  assert (pick_inv outputs (pk_utxos q) q) as Hq.
  { unfold q. destruct (_ <? need); [|done]. by apply (take_first_inv _ 0 (pk_utxos p) []). }
  clearbody q. destruct (pk_used q <? need); [|exact Hq]. apply (cover_loop_inv _ _ (pk_utxos (sort_pick by_camount_desc q)) []). by apply sort_pick_inv.
Qed.

(** What the first pass took stays first, and its count of ideal outputs stays. *)
Definition grows (p p' : pick) : Prop := pk_out p `prefix_of` pk_out p' /\ pk_ideal p' = pk_ideal p.

Lemma grows_refl p : grows p p.
Proof. by split. Qed.
Lemma grows_trans p q r : grows p q -> grows q r -> grows p r.
Proof. intros [H1 H2] [H3 H4]. split; [by etransitivity|congruence]. Qed.
Lemma take_utxo_grows u fee p : grows p (take_utxo u fee p).
Proof. split; [by apply prefix_app_r|done]. Qed.

Lemma take_first_grows f fee utxos kept p : grows p (take_first f fee utxos kept p).
Proof. revert kept; induction utxos as [|u utxos IH]; intros kept; cbn [take_first]; [by split|]. destruct (f _); [exact (take_utxo_grows u fee p)|apply IH]. Qed.

Lemma cover_loop_grows f count utxos kept p : grows p (cover_loop cc rq f count utxos kept p).
Proof.
  revert count kept p; induction utxos as [|u utxos IH]; intros count kept p; cbn [cover_loop]; [by split|].
  destruct (_ <=? 0); [by split|]. destruct (f u); [|apply IH]. eapply grows_trans; [exact (take_utxo_grows u 0 p)|apply IH].
Qed.

Lemma prep_pick_grows p : grows p (prep_pick cc rq p).
Proof.
  unfold prep_pick. cbv zeta. set (need := prep_needed _ _ _). set (q := if _ <? need then take_first _ _ _ _ _ else p).
  assert (grows p q) as Hq by (unfold q; destruct (_ <? need); [apply take_first_grows|apply grows_refl]). clearbody q.
  eapply grows_trans; [exact Hq|]. destruct (pk_used q <? need); [|apply grows_refl].
  exact (cover_loop_grows _ _ (pk_utxos (sort_pick by_camount_desc q)) [] (sort_pick by_camount_desc q)).
Qed.

(** The first pass, and the outputs of exactly the split size with its fee. *)
Definition first_pass : pick := ideal_loop rq outputs [] (mkPick [] [] 0 0 0).
Definition is_split (u : Utxo) : bool := camount u =? split_fee rq.

(** It takes outputs of that size and of the remainder, and counts the former. *)
Lemma first_pass_counts : 0 <= pr_Remainder rq < split_fee rq ->
  pk_ideal first_pass = zlen (List.filter is_split (pk_out first_pass)) /\
  Forall (fun u => is_split u = true \/ (0 < pr_Remainder rq /\ camount u = pr_Remainder rq)) (pk_out first_pass).
Proof.
  intros Hr. assert (uint_ok 64 (split_fee rq)) as Hs by by apply wrap_ok.
  assert (uint_ok 64 (pr_Remainder rq)) as Hr64 by (unfold uint_ok in *; lia).
  unfold first_pass. assert (forall utxos kept p, pk_ideal p = zlen (List.filter is_split (pk_out p)) ->
    Forall (fun u => is_split u = true \/ (0 < pr_Remainder rq /\ camount u = pr_Remainder rq)) (pk_out p) ->
    let p' := ideal_loop rq utxos kept p in pk_ideal p' = zlen (List.filter is_split (pk_out p')) /\
      Forall (fun u => is_split u = true \/ (0 < pr_Remainder rq /\ camount u = pr_Remainder rq)) (pk_out p')) as H; [|by apply H].
  induction utxos as [|u utxos IH]; intros kept p H1 H2; cbn [ideal_loop]; [done|].
  destruct ((i64 (camount u) =? i64 (split_fee rq)) && _) eqn:E1.
  - apply andb_true_iff in E1 as [E1%Z.eqb_eq _]. apply i64_inj in E1; [|apply camount_u64|done].
    assert (is_split u = true) as Hu by (by apply Z.eqb_eq). apply IH; cbn.
    + rewrite List.filter_app. cbn [List.filter]. rewrite Hu. unfold zlen in *. rewrite length_app, H1. cbn. lia.
    + apply Forall_app. split; [done|]. constructor; [by left|done].
  - destruct ((0 <? pr_Remainder rq) && _) eqn:E2; [|destruct (_ <=? _); [done|by apply IH]].
    apply andb_true_iff in E2 as [E2%Z.ltb_lt E3%Z.eqb_eq]. apply i64_inj in E3; [|apply camount_u64|done].
    assert (is_split u = false) as Hu by (apply Z.eqb_neq; lia). apply IH; cbn.
    + rewrite List.filter_app. cbn [List.filter]. by rewrite Hu, app_nil_r.
    + apply Forall_app. split; [done|]. constructor; [by right|done].
Qed.

(** Below 2^63 the signed comparisons are those of the integers. *)
Lemma i64_le0 a b : 0 <= a < 2 ^ 62 -> 0 <= b < 2 ^ 62 -> i64 (a - b) <= 0 -> a <= b.
Proof. intros Ha Hb H. rewrite i64_small in H by lia. lia. Qed.

Lemma i64_gt0 a b : 0 <= a < 2 ^ 62 -> - 2 ^ 63 <= b < 2 ^ 63 -> 0 < i64 (a - b) -> b < a.
Proof.
  intros Ha Hb H. destruct (decide (a - b < 2 ^ 63)).
  - rewrite i64_small in H by lia. lia.
  - lia.
Qed.

(** What a successful selection of a partial order is worth, up to overflow. *)
Definition partial_ok (r : list Utxo * Z * Z * bool) : Prop :=
  let '(o, amount, fees, exact) := r in
  o ⊆+ outputs /\ amount = wrap 64 (sum_camount o) /\ fees = wrap 64 (zlen o * pr_FeePerUtxo rq) /\
  (0 <= pr_Amount rq -> 0 <= pr_FeePerUtxo rq -> pr_Amount rq + zlen o * pr_FeePerUtxo rq < 2 ^ 62 -> sum_camount o < 2 ^ 62 ->
   if exact then i64 (pr_UtxoCount rq) <= zlen o /\ pr_Amount rq + zlen o * pr_FeePerUtxo rq <= sum_camount o
   else o <> [] /\ prep_needed cc rq (zlen o - pk_ideal first_pass) < sum_camount o) /\
  pk_out first_pass `prefix_of` o.

Lemma pick_sub left p : pick_inv outputs left p -> pk_out p ⊆+ outputs.
Proof. intros (Hs & _). etransitivity; [|exact Hs]. by apply submseteq_inserts_r. Qed.

Lemma pick_used left p : pick_inv outputs left p -> wrap 64 (pk_used p) = wrap 64 (sum_camount (pk_out p)).
Proof. intros (_ & -> & _). apply wrap_i64. Qed.

Lemma exact_result_ok left p ok r :
  pick_inv outputs left p -> grows first_pass p -> fees_inv (pr_FeePerUtxo rq) p -> (ok = true -> i64 (pr_UtxoCount rq) <= zlen (pk_out p)) ->
  exact_match rq ok p = true -> exact_result p = Some r -> partial_ok r.
Proof.
  intros Hp [Hg _] Hf Hok Hm [= <-]. apply andb_true_iff in Hm as [H1 H2]. apply Z.leb_le in H2. split_and!; [| | | |exact Hg].
  - by eapply pick_sub.
  - by eapply pick_used.
  - done.
  - intros HA HF HB HS. split; [by apply Hok|]. pose proof (sum_camount_nonneg (pk_out p)). destruct Hp as (_ & Hu & _).
    assert (0 <= zlen (pk_out p) * pr_FeePerUtxo rq) by (unfold zlen; nia).
    rewrite Hf, Hu, i64_add in H2. rewrite (wrap_small 64) in H2 by (unfold uint_ok; lia).
    apply i64_le0; [lia..|]. by rewrite (i64_small (sum_camount _)), (i64_small (pr_Amount rq + _)) in H2 by lia.
Qed.

Lemma partial_result_ok left p r : pick_inv outputs left p -> grows first_pass p -> partial_result cc rq p = Some r -> partial_ok r.
Proof.
  intros Hp [Hg Hgi]. unfold partial_result. destruct (Z.eqb_spec (zlen (pk_out p)) 0) as [|Hne]; [done|]. cbn [orb].
  destruct (Z.leb_spec (i64 (pk_used p - prep_needed cc rq (zlen (pk_out p) - pk_ideal p))) 0) as [|Hlt]; [done|]. intros [= <-].
  split_and!; [| | | |exact Hg].
  - by eapply pick_sub.
  - by eapply pick_used.
  - done.
  - intros _ _ _ HS. split; [by intros E; rewrite E in Hne|]. rewrite <- Hgi. destruct Hp as (_ & Hu & Hi).
    pose proof (sum_camount_nonneg (pk_out p)). apply i64_gt0; [lia| |].
    + apply i64_range.
    + by rewrite Hu, (i64_small (sum_camount _)) in Hlt by lia.
Qed.

Lemma selectPartialUtxos_ok r : selectPartialUtxos cc rq outputs = Some r -> partial_ok r.
Proof.
  unfold selectPartialUtxos. cbv zeta. fold first_pass. set (p := first_pass).
  assert (pick_inv outputs (pk_utxos p) p /\ fees_inv (pr_FeePerUtxo rq) p) as [Hp Hf].
  { apply ideal_loop_inv; [|by cbv]. split_and!; cbn; [done..|by vm_compute]. }
  destruct (exact_match _ _ p) eqn:Em.
  { refine (exact_result_ok (pk_utxos p) p _ r Hp (grows_refl p) Hf _ Em).
    intros [H%Z.eqb_eq|[_ H%Z.eqb_eq]%andb_true_iff]%orb_true_iff; lia. }
  pose proof (sort_pick_inv by_camount p Hp) as Hq. assert (grows p (sort_pick by_camount p)) as Gq by by split.
  set (q := sort_pick by_camount p) in *. destruct (zlen (pk_out q) =? _).
  - set (f := fun a : Z => _). pose proof (grows_trans p q _ Gq (take_first_grows f (pr_FeePerUtxo rq) (pk_utxos q) [] q)) as Gt.
    destruct (take_first_inv f (pr_FeePerUtxo rq) (pk_utxos q) [] q Hq) as [Ht Hft].
    set (t := take_first f _ _ _ q) in *. destruct (exact_match _ _ t) eqn:Et.
    + intros H. refine (exact_result_ok (pk_utxos t) t _ r Ht Gt (Hft Hf) _ Et H). by intros H'%Z.leb_le.
    + apply (partial_result_ok _ _ r (prep_pick_inv t Ht)). exact (grows_trans _ _ _ Gt (prep_pick_grows t)).
  - match goal with |- partial_result _ _ (prep_pick _ _ ?t) = _ -> _ => assert (pick_inv outputs (pk_utxos t) t /\ grows p t) as [Ht Gt] end.
    { split; [by apply (cover_loop_inv _ _ (pk_utxos q) [])|]. exact (grows_trans _ _ _ Gq (cover_loop_grows _ _ _ _ q)). }
    apply (partial_result_ok _ _ r (prep_pick_inv _ Ht)). exact (grows_trans _ _ _ Gt (prep_pick_grows _)).
Qed.

(** What a prep transaction of [nIn] inputs must bring: the split outputs and the
    remainder, each with its fees, and its own fee. *)
Definition prep_cost (nIn : Z) : Z :=
  pr_UtxoCount rq * (pr_SplitSize rq + pr_FeePerUtxo rq) + (if 0 <? pr_Remainder rq then pr_Remainder rq + pr_FeePerUtxo rq else 0)
  + ceilFeeXB cc (estimateFee cc nIn (pr_PrepTxVouts rq)).

Lemma prep_needed_cost nIn : 0 <= pr_SplitSize rq -> 0 <= pr_FeePerUtxo rq -> 0 < pr_UtxoCount rq -> 0 <= pr_Remainder rq ->
  0 <= ceilFeeXB cc (estimateFee cc nIn (pr_PrepTxVouts rq)) -> prep_cost nIn < 2 ^ 62 -> prep_needed cc rq nIn = prep_cost nIn.
Proof.
  intros H1 H2 H3 H4 H5 H. unfold prep_cost in *. unfold prep_needed, split_needed, remainder_needed, split_fee.
  assert (0 <= pr_UtxoCount rq * (pr_SplitSize rq + pr_FeePerUtxo rq)) as Hp by nia.
  assert (pr_SplitSize rq + pr_FeePerUtxo rq <= pr_UtxoCount rq * (pr_SplitSize rq + pr_FeePerUtxo rq)) as Hle by nia.
  set (c := ceilFeeXB _ _) in *. rewrite (wrap_small 64 (pr_SplitSize rq + pr_FeePerUtxo rq)) by (unfold uint_ok; destruct (_ <? _); lia).
  rewrite (Z.mul_comm _ (pr_UtxoCount rq)). set (n := pr_UtxoCount rq * _) in *. clearbody n c.
  destruct (Z.ltb_spec 0 (pr_Remainder rq)); rewrite !(wrap_small 64) by (unfold uint_ok; lia);
    rewrite (i64_small n), (i64_small c), ?(i64_small (pr_Remainder rq + _)) by lia; rewrite !i64_small; lia || (rewrite i64_small; lia).
Qed.

(** C26. A partial order's outputs are candidates, each at most once; the amount
    and the fees reported are theirs. Those of the first pass come first, and are
    of exactly the split size with its fee or of the remainder. While the sums
    stay below 2^62: an exact match has the outputs it needs and covers the order
    with one fee per output; any other result covers the split outputs and the
    remainder, each with its fees, and the fee of a transaction whose inputs are
    all the outputs chosen but those the first pass found of the split size. *)
Theorem selectPartialUtxos_covers (o : list Utxo) (amount fees : Z) (exact : bool) :
  selectPartialUtxos cc rq outputs = Some (o, amount, fees, exact) ->
  0 <= pr_Remainder rq < split_fee rq ->
  let first := pk_out first_pass in
  let nIn := zlen o - zlen (List.filter is_split first) in
  o ⊆+ outputs /\ amount = wrap 64 (sum_camount o) /\ fees = wrap 64 (zlen o * pr_FeePerUtxo rq) /\
  first `prefix_of` o /\ Forall (fun u => is_split u = true \/ (0 < pr_Remainder rq /\ camount u = pr_Remainder rq)) first /\
  (0 <= pr_Amount rq -> 0 <= pr_FeePerUtxo rq -> pr_Amount rq + zlen o * pr_FeePerUtxo rq < 2 ^ 62 -> sum_camount o < 2 ^ 62 ->
   if exact then i64 (pr_UtxoCount rq) <= zlen o /\ pr_Amount rq + zlen o * pr_FeePerUtxo rq <= sum_camount o
   else 0 <= nIn <= zlen o /\ o <> [] /\
     (0 <= pr_SplitSize rq -> 0 < pr_UtxoCount rq -> 0 <= ceilFeeXB cc (estimateFee cc nIn (pr_PrepTxVouts rq)) -> prep_cost nIn < 2 ^ 62 ->
      prep_cost nIn < sum_camount o)).
Proof.
  intros H Hr. cbv zeta. apply selectPartialUtxos_ok in H as (Hs & Ha & Hf & Hok & Hg). destruct (first_pass_counts Hr) as [Hi Hall].
  rewrite Hi in Hok. split; [done|]. split; [done|]. split; [done|]. split; [done|]. split; [done|]. intros H1 H2 H3 H4. specialize (Hok H1 H2 H3 H4). destruct exact; [done|]. destruct Hok as [Hne Hlt].
  assert (zlen (List.filter is_split (pk_out first_pass)) <= zlen o) as Hle.
  { apply prefix_length in Hg. pose proof (List.filter_length_le is_split (pk_out first_pass)). unfold zlen. lia. }
  split; [unfold zlen in *; lia|]. split; [done|]. intros H5 H6 H7 H8. rewrite prep_needed_cost in Hlt; [exact Hlt|done|done|done|lia|done|done].
Qed.

End Partial.

End Laws.

(** Three outputs of the split size with its fee, of four that are needed, and one of three coins. *)
Definition partial_candidates : list Utxo :=
  map (fun v => mkUtxo (EncodeToString (repeat x0a 32)) v [] 0 (f64_const 251 1000) [] 1) [0; 1; 2] ++
  [mkUtxo (EncodeToString (repeat x0b 32)) 0 [] 0 (f64_of 3) [] 1].
Definition partial_request : partial_req := mkPartialReq 1000000 4 1000 5 250000 0.

Lemma selectPartialUtxos_covers_witness :
  exists o amount fees, selectPartialUtxos (gosort := stable_sort) None partial_request partial_candidates = Some (o, amount, fees, false) /\
    zlen o = 4 /\ prep_cost None partial_request 1 < sum_camount o.
Proof.
  assert (match selectPartialUtxos (gosort := stable_sort) None partial_request partial_candidates with
    | Some (o, amount, fees, ex) => negb ex && (zlen o =? 4) && (sum_camount o <? 2 ^ 62) | None => false end = true) as H by (vm_compute; reflexivity).
  destruct (selectPartialUtxos None partial_request partial_candidates) as [[[[o am] f] ex]|] eqn:E; [|discriminate H].
  apply andb_true_iff in H as [[Hx H%Z.eqb_eq]%andb_true_iff Hs%Z.ltb_lt]. destruct ex; [discriminate Hx|].
  exists o, am, f. split; [reflexivity|]. split; [exact H|].
  assert (zlen (List.filter (is_split partial_request) (pk_out (first_pass partial_request partial_candidates))) = 3) as Hn by (vm_compute; reflexivity).
  assert (0 <= pr_Remainder partial_request < split_fee partial_request) as Hr by (split; [discriminate|vm_compute; reflexivity]).
  destruct (selectPartialUtxos_covers None partial_request partial_candidates o am f false E Hr) as (_ & _ & _ & _ & _ & Hc).
  rewrite Hn, H in Hc. change (4 - 3) with 1 in Hc.
  apply Hc; [discriminate|discriminate|vm_compute; reflexivity|exact Hs|discriminate|reflexivity|vm_compute; discriminate|vm_compute; reflexivity].
Defined.
