(* ===== verification/Fee.v ===== *)
(** * The service-node fee and the prep transaction (api/fee_tx.go, api/handlers.go)

    Errors of the RPC handlers, the order information a take carries in its
    fee transaction, the fee transaction itself, and the transaction that
    splits the funds of a partial order.  Of an error its code and the method
    it names are kept, not its text. *)

From S2P Require Import Prelude Sort Sha256 GoLib Digits Hex Json Codec Bodies Conf Coin Address Script Tx Price Wallet Deposit Order Float.
From S2P Require Import XAmount Store Utxos Select.

(** ** Answers of a handler (api/response.go)

    The server recovers a panicking handler and answers -32603: [Crash]. *)

Record rpcError := mkRpcError { re_Code : Z; re_Name : string }.

Inductive rpc (A : Type) : Type :=
| Good (a : A)
| Bad (e : rpcError)
| Crash.
Arguments Good {A}. Arguments Bad {A}. Arguments Crash {A}.

#[export] Instance rpc_ret : MRet rpc := fun A a => Good a.
#[export] Instance rpc_bind : MBind rpc := fun A B f m => match m with Good a => f a | Bad e => Bad e | Crash => Crash end.

Lemma rpc_bind_good {A B} (m : rpc A) (f : A -> rpc B) b : (m ≫= f) = Good b <-> exists a, m = Good a /\ f a = Good b.
Proof. destruct m; split; [eauto|by intros (? & [= <-] & ?)|done|by intros (? & ? & ?)|done|by intros (? & ? & ?)]. Qed.

Definition makeError (code : Z) (name : string) : rpcError := mkRpcError code name.
Definition refuse {A} (code : Z) (name : string) : rpc A := Bad (makeError code name).
(** [if !c { return makeError(code, name, ...) }] *)
Definition ensure (c : bool) (code : Z) (name : string) : rpc unit := if c then Good tt else refuse code name.
Definition need {A} (o : option A) (code : Z) (name : string) : rpc A := match o with Some a => Good a | None => refuse code name end.
Definition need_w {A} (w : wres A) (code : Z) (name : string) : rpc A := match w with inl a => Good a | inr _ => refuse code name end.
Definition need_r {A} (r : res A) (code : Z) (name : string) : rpc A :=
  match r with Ok a => Good a | Err _ => refuse code name | Panic => Crash end.

Lemma ensure_good c code name u : ensure c code name = Good u -> c = true.
Proof. by destruct c. Qed.
Lemma need_good {A} (o : option A) code name a : need o code name = Good a -> o = Some a.
Proof. destruct o; [by intros [= <-]|done]. Qed.
Lemma need_w_good {A} (w : wres A) code name a : need_w w code name = Good a -> w = inl a.
Proof. destruct w; [by intros [= <-]|done]. Qed.
Lemma need_r_good {A} (r : res A) code name a : need_r r code name = Good a -> r = Ok a.
Proof. destruct r; [by intros [= <-]|done..]. Qed.

(** Takes the successful steps of a handler apart. *)
Ltac rpc_inv :=
  repeat match goal with
  | H : (_ ≫= _) = Good _ |- _ => apply rpc_bind_good in H as (? & ? & H)
  | H : (let '(_, _) := ?x in _) = Good _ |- _ => is_var x; destruct x
  | H : refuse _ _ = Good _ |- _ => unfold refuse in H; discriminate H
  | H : need _ _ _ = Good _ |- _ => apply need_good in H
  | H : need_w _ _ _ = Good _ |- _ => apply need_w_good in H
  | H : need_r _ _ _ = Good _ |- _ => apply need_r_good in H
  | H : ensure _ _ _ = Good _ |- _ => apply ensure_good in H
  | H : Good _ = Good _ |- _ => injection H as H; try subst
  end.

Definition errUnknown : Z := 1002.
Definition errBadRequest : Z := 1004.
Definition errNoSession : Z := 1018.
Definition errInsufficientFunds : Z := 1019.
Definition errFundsNotSigned : Z := 1020.
Definition errTxNotFound : Z := 1021.
Definition errInvalidAmount : Z := 1024.
Definition errInvalidParameters : Z := 1025.
Definition errInvalidAddress : Z := 1026.
Definition errInvalidSignature : Z := 1027.
Definition errDust : Z := 1030.
Definition errInsufficientFundsDX : Z := 1031.
Definition errNoServiceNode : Z := 1032.
Definition errInvalidOnchainHist : Z := 1033.
Definition errInvalidPartialOrder : Z := 1034.

(** ** The order information *)

Definition maxOrderInfoBytes : Z := 160 - 3.

Definition order_info (orderID fromCur : bytes) (fromAmt : Z) (toCur : bytes) (toAmt : Z) : bytes :=
  marshal_array [SStr orderID; SStr fromCur; SUint fromAmt; SStr toCur; SUint toAmt].

(** The id cut to what the other fields leave. *)
Definition fit_id (base : Z) (orderID : bytes) : bytes :=
  if maxOrderInfoBytes <? base + zlen orderID then
    let leftOver := maxOrderInfoBytes - base in
    if 0 <? leftOver then take (Z.to_nat leftOver) orderID
    else if leftOver =? 0 then [] else orderID
  else orderID.

(** [None] is errOrderInfoOverflow. *)
Definition feeOrderInfo (id fromCur : bytes) (fromAmt : Z) (toCur : bytes) (toAmt : Z) : option bytes :=
  let base := zlen (order_info [] fromCur fromAmt toCur toAmt) in
  let out := order_info (fit_id base (orderIDString id)) fromCur fromAmt toCur toAmt in
  if maxOrderInfoBytes <? zlen out then None else Some out.

(** ** Scripts and transactions *)

Section Fee.
Context {gosort : GoSort} (uni : Unicode).

Definition legacyOutputScript (c : Coin) (addr : bytes) : rpc bytes :=
  a ← need_r (decodeAddress uni c addr) errInvalidAddress "dxSplit";
  match A_Kind a with
  | P2PKH => Good (BuildP2PKHScript (hash20 a))
  | P2SH => Good (BuildP2SHScript (hash20 a))
  | _ => refuse errInvalidAddress "dxSplit"
  end.

Definition tx_version (cc : option CoinConf) : Z :=
  match cc with Some c => if cc_TxVersion c =? 0 then 1 else to_int32 (cc_TxVersion c) | None => 1 end.

Definition fee_change (blkConf : CoinConf) (sel : list Utxo) : Z :=
  f64_to_uint64 (f64_mul (f64_sub (f64_sub (sum_values sel f64_zero) serviceNodeFeeReal) (estFeeBlock (zlen sel) 3))
                         (f64_of (cc_Coin blkConf))).
Definition fee_value (blkConf : CoinConf) : Z := f64_to_uint64 (f64_mul serviceNodeFeeReal (f64_of (cc_Coin blkConf))).

(** [OP_RETURN data], the fee, and the change where it is no dust. *)
Definition fee_outputs (blkCoin : Coin) (blkConf : CoinConf) (dest data : bytes) (sel : list Utxo) : rpc (list TxOut) :=
  let changeAmt := fee_change blkConf sel in
  let outs := [mkTxOut 0 (BuildOpReturnScript data); mkTxOut (fee_value blkConf) (BuildP2PKHScript dest)] in
  match sel with
  | u :: _ =>
      if effectiveDust (Some blkConf) <=? changeAmt then
        script ← legacyOutputScript blkCoin (u_Address u);
        Good (outs ++ [mkTxOut changeAmt script])
      else Good outs
  | [] => if effectiveDust (Some blkConf) <=? changeAmt then Crash else Good outs
  end.

Definition buildServiceNodeFeeTx (conn : Connector) (blkCoin : Coin) (blkConf : option CoinConf) (dest data : bytes) (avail : list Utxo)
    : rpc (bytes * list Utxo) :=
  sel ← need (selectFeeUtxos avail serviceNodeFeeReal) errInsufficientFunds "dxTakeOrder";
  blkConf ← need blkConf errInsufficientFunds "dxTakeOrder";
  ins ← need_r (funding_ins sel) errInsufficientFunds "dxTakeOrder";
  outs ← fee_outputs blkCoin blkConf dest data sel;
  let tx := mkTx (tx_version (Some blkConf)) 0 ins outs false (TxWithTimeField blkCoin) 0 in
  '(signed, complete) ← need_w (SignRawTransaction conn (EncodeToString (Tx_Serialize tx)) (prev_txs sel)) errInsufficientFunds "dxTakeOrder";
  _ ← ensure complete errInsufficientFunds "dxTakeOrder";
  Good (signed, sel).

(** ** The prep transaction *)

Record prepVout := mkPrepVout { pv_addr : bytes; pv_amount : Z }.

Definition txidOfRawTx (rawHex : bytes) : rpc bytes :=
  b ← need (DecodeString rawHex) errInvalidParameters "dxSplit"; Good (txIDFromBytes b).

(** Every output pays to the address of the first. *)
Definition buildPrepTx (conn : Connector) (clock : Z) (cc : option CoinConf) (coin : Coin) (vins : list Utxo) (vouts : list prepVout)
    : rpc (bytes * bytes) :=
  first ← need (head vouts) errInvalidParameters "dxMakePartialOrder";
  destScript ← legacyOutputScript coin (pv_addr first);
  ins ← need_r (funding_ins vins) errInvalidParameters "dxMakePartialOrder";
  let tx := mkTx (tx_version cc) 0 ins (map (fun vo => mkTxOut (pv_amount vo) destScript) vouts) false (TxWithTimeField coin) (wrap 32 clock) in
  '(signedHex, complete) ← need_w (SignRawTransaction conn (EncodeToString (Tx_Serialize tx)) (prev_txs vins)) errUnknown "dxMakePartialOrder";
  _ ← ensure complete errUnknown "dxMakePartialOrder";
  txid ← txidOfRawTx signedHex;
  Good (signedHex, txid).

End Fee.

(** ** What the payload carries *)

(** A currency that JSON writes as it is, quotes aside. *)
Definition plain_currency (cur : bytes) : Prop := Forall (fun b => html_safe b = true /\ byte.unsigned b < 128) cur.

Lemma quote_plain cur : plain_currency cur -> quote cur = [x22] ++ cur ++ [x22] /\ coerce (length cur) cur = cur.
Proof.
  intros H. unfold quote_with. assert (quote_text true (length cur) cur = cur /\ coerce (length cur) cur = cur) as [E1 E2]; [|by rewrite E1].
  induction H as [|b cur [Hs Ha] _ [IH1 IH2]]; [done|]. cbn [length quote_text coerce]. unfold quote_rune, text_rune, rune_len, quote_ascii.
  rewrite (proj2 (Z.ltb_lt _ _) Ha), Hs. rewrite IH1. split; [done|]. change (b :: coerce (length cur) cur = b :: cur). by rewrite IH2.
Qed.

Lemma order_info_length orderID fromCur fromAmt toCur toAmt :
  plain_currency orderID -> plain_currency fromCur -> plain_currency toCur ->
  zlen (order_info orderID fromCur fromAmt toCur toAmt) =
    12 + zlen orderID + zlen fromCur + zlen toCur + zlen (dec_string fromAmt) + zlen (dec_string toAmt).
Proof.
  intros Ho Hf Ht. unfold order_info, marshal_array. cbn [map marshal_scalar join].
  rewrite (proj1 (quote_plain _ Ho)), (proj1 (quote_plain _ Hf)), (proj1 (quote_plain _ Ht)).
  unfold zlen. rewrite !length_app. cbn [length]. lia.
Qed.

Lemma hex_length b : zlen (EncodeToString b) = 2 * zlen b.
Proof. unfold EncodeToString, zlen. induction b as [|x b IH]; [done|]. cbn [map concat]. rewrite length_app. cbn [length] in *. lia. Qed.

Lemma plain_hex b : plain_currency (EncodeToString b).
Proof.
  unfold plain_currency, EncodeToString. induction b as [|x b IH]; [constructor|]. cbn [map concat app].
  repeat constructor; try exact IH; by destruct x.
Qed.

Lemma fit_id_whole base id : base + zlen id <= maxOrderInfoBytes -> fit_id base id = id.
Proof. intros H. unfold fit_id. by rewrite (proj2 (Z.ltb_ge _ _)) by lia. Qed.

(** The information of an order with tickers of at most eight plain characters
    always fits, with the whole id; and the hub reads out of it exactly the id,
    the currencies and the amounts of the take. *)
Theorem feeOrderInfo_roundtrip (id fromCur toCur : bytes) (fromAmt toAmt : Z) :
  length id = 32%nat -> plain_currency fromCur -> plain_currency toCur -> zlen fromCur <= 8 -> zlen toCur <= 8 ->
  uint_ok 64 fromAmt -> uint_ok 64 toAmt ->
  exists out, feeOrderInfo id fromCur fromAmt toCur toAmt = Some out /\ zlen out <= 132 /\
    parse_json out = Some (JArr [JStr (orderIDString id); JStr fromCur; JNum (dec_string fromAmt); JStr toCur; JNum (dec_string toAmt)]).
Proof.
  intros Hid Hf Ht Hfl Htl Hfa Hta. unfold uint_ok in *.
  pose proof (dec_string_length fromAmt 20 ltac:(lia) ltac:(lia)) as H1. pose proof (dec_string_length toAmt 20 ltac:(lia) ltac:(lia)) as H2.
  assert (plain_currency (orderIDString id)) as Hp by apply plain_hex.
  assert (zlen (orderIDString id) = 64) as Hl.
  { unfold orderIDString, hexEncode. rewrite hex_length. unfold zlen. by rewrite length_rev, Hid. }
  assert (plain_currency []) as Hn by constructor.
  pose proof (order_info_length [] _ fromAmt _ toAmt Hn Hf Ht) as Hb. pose proof (order_info_length _ _ fromAmt _ toAmt Hp Hf Ht) as Ho.
  rewrite Hl in Ho. change (zlen []) with 0 in Hb. unfold feeOrderInfo. rewrite fit_id_whole by (unfold zlen, maxOrderInfoBytes in *; lia).
  assert (maxOrderInfoBytes <? zlen (order_info (orderIDString id) fromCur fromAmt toCur toAmt) = false) as ->
    by (apply Z.ltb_ge; unfold zlen, maxOrderInfoBytes in *; lia).
  eexists. split_and!; [done|unfold zlen in *; lia|].
  unfold order_info. rewrite marshal_array_roundtrip; [|repeat constructor; cbn; lia|done]. cbn [map scalar_json].
  by rewrite (proj2 (quote_plain _ Hp)), (proj2 (quote_plain _ Hf)), (proj2 (quote_plain _ Ht)).
Qed.

Lemma feeOrderInfo_roundtrip_witness :
  exists out, feeOrderInfo (repeat x5a 32) (bytes_of "LTC") 2000000 (bytes_of "BLOCK") (2 ^ 64 - 1) = Some out /\ zlen out <= 132.
Proof.
  destruct (feeOrderInfo_roundtrip (repeat x5a 32) (bytes_of "LTC") (bytes_of "BLOCK") 2000000 (2 ^ 64 - 1)) as (out & H & Hl & _);
    [done|do 3 (apply Forall_cons_2; [split; by vm_compute|]); apply Forall_nil_2
    |do 5 (apply Forall_cons_2; [split; by vm_compute|]); apply Forall_nil_2|by vm_compute|by vm_compute|unfold uint_ok; lia|unfold uint_ok; lia|]. by exists out.
Defined.
