(* ===== verification/Server.v ===== *)
(** * The JSON-RPC server (api/server.go, api/dispatch.go)

    From an HTTP request to its reply: credentials, the limit on the body, the
    request objects and batches, the dispatch table with its arity gates, and
    the shape and status of the answer.  What a handler does is the argument
    [handle] (Rpc.v gives it); of an error its code and method are kept, not its
    text, and an error without a method is one of the envelope. *)

From S2P Require Import Prelude GoLib Hex Json HttpLib XAmount Fee.

(** ** Credentials *)

Record Server := mkServer {
  sv_user : bytes;
  sv_pass : bytes;
  sv_authUsers : gmap bytes (bytes * bytes);   (** user to salt and hash *)
}.
#[export] Instance Server_eta : Eta Server := fun s => mkServer (sv_user s) (sv_pass s) (sv_authUsers s).

Definition NewServer : Server := mkServer [] [] ∅.

Definition SetAuth (user pass : bytes) (s : Server) : Server :=
  if bool_decide (user = []) || bool_decide (pass = []) then s <| sv_user := [] |> <| sv_pass := [] |>
  else s <| sv_user := user |> <| sv_pass := pass |>.

(** [user:salt$hash] *)
Definition parseRpcAuthEntry (entry : bytes) : option (bytes * bytes * bytes) :=
  match FieldsFunc entry (fun c => Byte.eqb c x3a || Byte.eqb c x24) with
  | [u; salt; hash] => Some (u, salt, hash)
  | _ => None
  end.

Definition SetRpcAuth (entries : list bytes) (s : Server) : Server :=
  s <| sv_authUsers := fold_left (fun m e => match parseRpcAuthEntry e with Some (u, salt, hash) => <[u := (salt, hash)]> m | None => m end)
                                 entries ∅ |>.

Definition authConfigured (s : Server) : bool :=
  negb (bool_decide (sv_user s = [])) || negb (bool_decide (sv_authUsers s = ∅)).

(** [Basic base64(user:pass)]; the password may hold colons. *)
Definition parseBasicAuth (h : bytes) : option (bytes * bytes) :=
  if (zlen h <? 6) || negb (bool_decide (fold_ascii (take 6 h) = bytes_of "BASIC ")) then None
  else
    b ← b64_decode (TrimSpace (drop 6 h));
    i ← IndexByte b x3a;
    Some (take i b, drop (S i) b).

(** The password of a salted entry. *)
Definition salted_ok (e : bytes * bytes) (p : bytes) : bool := bool_decide (EncodeToString (HMAC e.1 p) = e.2).

Definition authorized (s : Server) (header : bytes) : bool :=
  if negb (authConfigured s) then true
  else match parseBasicAuth header with
       | None => false
       | Some (u, p) =>
           (negb (bool_decide (sv_user s = [])) && bool_decide (u = sv_user s) && bool_decide (p = sv_pass s))
           || match sv_authUsers s !! u with Some e => salted_ok e p | None => false end
       end.

(** ** Requests *)

Record rawRequest := mkRawRequest { rr_Method : option bytes; rr_Params : option bytes; rr_ID : option bytes }.

Definition read_request (s : bytes) : option rawRequest :=
  l ← raw_object s;
  Some (mkRawRequest (raw_field (bytes_of "Method") l) (raw_field (bytes_of "Params") l) (raw_field (bytes_of "ID") l)).

Definition codeInvalidRequest : Z := -32600.
Definition codeMethodNotFound : Z := -32601.
Definition codeInternal : Z := -32603.
Definition codeParse : Z := -32700.

(** An error of the envelope. *)
Definition envelope {A} (code : Z) : rpc A := refuse code "".

(** A field that is missing or [null]. *)
Definition unset (r : option bytes) : bool := match r with Some t => bool_decide (t = bytes_of "null") | None => true end.

Definition request_method (r : rawRequest) : rpc bytes :=
  if unset (rr_Method r) then envelope codeInvalidRequest
  else match rr_Method r ≫= parse_json with
       | Some (JStr m) => Good m
       | _ => envelope codeInvalidRequest
       end.

(** Positional parameters; a named one is refused by its (first) name. *)
Definition request_params (r : rawRequest) : rpc (list json) :=
  if unset (rr_Params r) then Good []
  else match rr_Params r ≫= parse_json with
       | Some (JArr l) => Good l
       | Some (JObj ((k, _) :: _)) => if bool_decide (k = []) then Good [] else envelope (-8)
       | Some (JObj []) => Good []
       | _ => envelope codeInvalidRequest
       end.

Definition parseRequest (r : rawRequest) : rpc (bytes * list json) :=
  m ← request_method r; ps ← request_params r; Good (m, ps).

(** ** The dispatch table *)

Inductive arityKind := arityBusiness | arityThrow.

(** [None] as the upper bound is maxArity, no bound. *)
Record aritySpec := mkArity { ar_min : nat; ar_max : option nat; ar_kind : arityKind }.

Definition dispatch : list string := [
  "dxGetOrderFills"; "dxGetOrders"; "dxGetOrder"; "dxGetLocalTokens"; "dxLoadXBridgeConf"; "dxGetNewTokenAddress";
  "dxGetNetworkTokens"; "dxMakeOrder"; "dxMakePartialOrder"; "dxTakeOrder"; "dxCancelOrder"; "dxGetOrderHistory";
  "dxGetOrderBook"; "dxGetTokenBalances"; "dxGetMyOrders"; "dxGetMyPartialOrderChain"; "dxPartialOrderChainDetails";
  "dxGetLockedUtxos"; "dxFlushCancelledOrders"; "dxGetTradingData"; "dxSplitAddress"; "dxSplitInputs"; "dxGetUtxos";
  "getnetworkinfo"; "help"]%string.

Definition arity : list (string * aritySpec) :=
  let biz lo hi := mkArity lo (Some hi) arityBusiness in
  let throw lo hi := mkArity lo hi arityThrow in
  [("dxGetNewTokenAddress", biz 1 1); ("dxLoadXBridgeConf", biz 0 0); ("dxGetLocalTokens", biz 0 0);
   ("dxGetNetworkTokens", biz 0 0); ("dxGetOrders", biz 0 0); ("dxGetOrderFills", biz 2 3);
   ("dxGetOrderHistory", biz 5 8); ("dxGetOrder", biz 1 1); ("dxCancelOrder", biz 1 1); ("dxGetOrderBook", biz 3 4);
   ("dxGetTokenBalances", biz 0 0); ("dxGetLockedUtxos", biz 0 1); ("dxFlushCancelledOrders", biz 0 1);
   ("dxGetMyOrders", biz 0 0);
   ("dxMakeOrder", throw 7 None); ("dxMakePartialOrder", throw 6 None); ("dxTakeOrder", throw 3 (Some 5));
   ("dxGetMyPartialOrderChain", throw 1 (Some 1)); ("dxPartialOrderChainDetails", throw 1 (Some 1));
   ("dxSplitAddress", throw 3 (Some 6)); ("dxSplitInputs", throw 3 (Some 7)); ("dxGetUtxos", throw 1 (Some 2));
   ("dxGetTradingData", throw 0 (Some 2)); ("help", throw 0 (Some 1))]%string%nat.

Definition arity_of (method : string) : option aritySpec := snd <$> List.find (fun e => String.eqb e.1 method) arity.

Definition within (sp : aritySpec) (n : nat) : bool :=
  (ar_min sp <=? n)%nat && match ar_max sp with Some m => (n <=? m)%nat | None => true end.

Definition checkArity (method : string) (n : nat) : rpc unit :=
  match arity_of method with
  | None => Good tt
  | Some sp =>
      if within sp n then Good tt
      else match ar_kind sp with
           | arityThrow => envelope (-1)
           | arityBusiness => refuse errInvalidParameters method
           end
  end.

(** The registered name: an exact match, or the one that differs in case only. *)
Definition canonicalMethod (method : bytes) : option string :=
  match List.find (fun n => bool_decide (bytes_of n = method)) dispatch with
  | Some n => Some n
  | None => List.find (fun n => bool_decide (fold_ascii (bytes_of n) = fold_ascii method)) dispatch
  end.

(** ** Replies *)

Inductive result := RNull | RValue (v : json) | RError (e : rpcError).

(** The envelope: result, error code, and the id as it was sent. *)
Record rpcResponse := mkResponse { rs_Result : result; rs_Error : option Z; rs_ID : option bytes }.

Definition is_envelope (e : rpcError) : bool := String.eqb (re_Name e) "".

Definition envelopeResponse (code : Z) (id : option bytes) : rpcResponse := mkResponse RNull (Some code) id.

(** What a request answers: [Crash] is a recovered panic. *)
Definition response_of (r : rpc json) (id : option bytes) : rpcResponse :=
  match r with
  | Good v => mkResponse (RValue v) None id
  | Bad e => if is_envelope e then envelopeResponse (re_Code e) id else mkResponse (RError e) None id
  | Crash => envelopeResponse codeInternal id
  end.

Definition httpStatusForCode (code : Z) : Z :=
  if code =? codeInvalidRequest then 400 else if code =? codeMethodNotFound then 404 else 500.

Definition response_status (r : rpcResponse) : Z := match rs_Error r with Some code => httpStatusForCode code | None => 200 end.

Record httpRequest := mkHttpRequest { hq_post : bool; hq_auth : bytes; hq_body : bytes }.

Inductive reply_body := Empty | PostOnly | One (r : rpcResponse) | Batch (l : list rpcResponse).

Record httpReply := mkHttpReply { hr_status : Z; hr_challenge : bool; hr_delay : bool; hr_body : reply_body }.

Definition rpcMaxBodyBytes : Z := Z.shiftl 32 20.

(** ** Serving *)

Section Serve.
Context {St : Type} (handle : string -> list json -> St -> rpc json * St).

(** The handler of a parsed request, behind the arity gate. *)
Definition call (method : bytes) (params : list json) (st : St) : rpc json * St :=
  match canonicalMethod method with
  | None => (envelope codeMethodNotFound, st)
  | Some name =>
      match checkArity name (length params) with
      | Good _ => handle name params st
      | Bad e => (Bad e, st)
      | Crash => (Crash, st)
      end
  end.

Definition dispatchOne (raw : rawRequest) (st : St) : rpcResponse * St :=
  match parseRequest raw with
  | Good (method, params) => let '(r, st) := call method params st in (response_of r (rr_ID raw), st)
  | Bad e => (envelopeResponse (re_Code e) (rr_ID raw), st)
  | Crash => (envelopeResponse codeInternal (rr_ID raw), st)
  end.

Definition execOne (el : bytes) (st : St) : rpcResponse * St :=
  match TrimSpace el with
  | x7b :: _ =>
      match read_request el with
      | Some raw => dispatchOne raw st
      | None => (envelopeResponse codeParse None, st)
      end
  | _ => (envelopeResponse codeInvalidRequest None, st)
  end.

Fixpoint exec_batch (els : list bytes) (st : St) : list rpcResponse * St :=
  match els with
  | [] => ([], st)
  | el :: els =>
      let '(r, st) := execOne el st in
      let '(l, st) := exec_batch els st in (r :: l, st)
  end.

Definition reply_one (r : rpcResponse) : httpReply := mkHttpReply (response_status r) false false (One r).

Definition serve_body (body : bytes) (st : St) : httpReply * St :=
  let parse_error := reply_one (envelopeResponse codeParse None) in
  match TrimSpace body with
  | x7b :: _ =>
      match read_request body with
      | Some raw => let '(r, st) := dispatchOne raw st in (reply_one r, st)
      | None => (parse_error, st)
      end
  | x5b :: _ =>
      match raw_array body with
      | Some els => let '(l, st) := exec_batch els st in (mkHttpReply 200 false false (Batch l), st)
      | None => (parse_error, st)
      end
  | _ => (parse_error, st)
  end.

Definition ServeHTTP (s : Server) (q : httpRequest) (st : St) : httpReply * St :=
  if negb (hq_post q) then (mkHttpReply 405 false false PostOnly, st)
  else if negb (authorized s (hq_auth q)) then
    (mkHttpReply 401 true (negb (bool_decide (hq_auth q = []))) Empty, st)
  else if rpcMaxBodyBytes <? zlen (hq_body q) then (mkHttpReply 413 false false Empty, st)
  else serve_body (hq_body q) st.
End Serve.

(** ** Laws *)

Lemma dispatch_find p n : List.find p dispatch = Some n -> n ∈ dispatch /\ p n = true.
Proof. intros [H1 H2]%List.find_some. split; [by apply list_elem_of_In|done]. Qed.

Lemma canonicalMethod_registered m n : canonicalMethod m = Some n -> n ∈ dispatch /\ fold_ascii (bytes_of n) = fold_ascii m.
Proof.
  unfold canonicalMethod. destruct (List.find (fun n => bool_decide (bytes_of n = m)) dispatch) as [k|] eqn:E.
  - intros [= <-]. apply dispatch_find in E as [H ->%bool_decide_eq_true]. done.
  - intros [H ->%bool_decide_eq_true]%dispatch_find. done.
Qed.

(** The registered names differ in more than their case, so the map's order does not matter. *)
Lemma dispatch_unique : NoDup (map (fun n => fold_ascii (bytes_of n)) dispatch).
Proof. apply (bool_decide_unpack _). vm_compute. exact I. Qed.

Lemma canonicalMethod_any_case m n : n ∈ dispatch -> fold_ascii m = fold_ascii (bytes_of n) -> canonicalMethod m = Some n.
Proof.
  intros Hn Hm. assert (exists k, canonicalMethod m = Some k) as [k Hk].
  { unfold canonicalMethod. destruct (List.find (fun n => bool_decide (bytes_of n = m)) dispatch) as [k|]; [eauto|].
    destruct (List.find _ dispatch) as [k|] eqn:E; [eauto|]. apply list_elem_of_In in Hn.
    pose proof (List.find_none _ _ E n Hn) as H. cbn in H. apply bool_decide_eq_false in H. congruence. }
  rewrite Hk. f_equal. apply canonicalMethod_registered in Hk as [Hk Hf].
  apply list_elem_of_lookup in Hn as [i Hi]. apply list_elem_of_lookup in Hk as [j Hj].
  assert (i = j) as ->; [|congruence]. eapply (NoDup_lookup _ i j _ dispatch_unique).
  - by rewrite list_lookup_fmap, Hi.
  - rewrite list_lookup_fmap, Hj. cbn. congruence.
Qed.

Section Gate.
Context {St : Type} (handle : string -> list json -> St -> rpc json * St).

(** A call the gates let through. *)
Definition legal (c : string * list json) : Prop :=
  c.1 ∈ dispatch /\ forall sp, arity_of c.1 = Some sp -> within sp (length c.2) = true.

Definition run_calls (cs : list (string * list json)) (st : St) : St := fold_left (fun st c => snd (handle c.1 c.2 st)) cs st.

(** Some legal calls, at most [n], lead from one state to the other. *)
Definition ran (n : nat) (st st' : St) : Prop := exists cs, st' = run_calls cs st /\ Forall legal cs /\ (length cs <= n)%nat.

(** An answer has a result or an error of the envelope, never both, and no
    business error is one of the envelope. *)
Definition shaped (r : rpcResponse) : Prop :=
  match rs_Error r, rs_Result r with
  | Some _, RNull => True
  | None, RValue _ => True
  | None, RError e => is_envelope e = false
  | _, _ => False
  end.

Lemma response_of_shaped r id : shaped (response_of r id).
Proof. destruct r as [v|e|]; cbn; [done| |done]. destruct (is_envelope e) eqn:E; cbn; [done|]. unfold shaped. cbn. exact E. Qed.

Lemma ran_none n st : ran n st st.
Proof. exists []. split_and!; [done|constructor|cbn; lia]. Qed.

Lemma call_ran m ps st : ran 1 st (snd (call handle m ps st)).
Proof.
  unfold call. destruct (canonicalMethod m) as [name|] eqn:Em; [|apply ran_none].
  unfold checkArity. apply canonicalMethod_registered in Em as [Hn _].
  assert (forall sp, arity_of name = Some sp -> within sp (length ps) = true -> ran 1 st (snd (handle name ps st))) as Hyes.
  { intros sp E H. exists [(name, ps)]. split_and!; [done| |done]. constructor; [|constructor]. split; [done|]. cbn [fst snd]. intros ? E'. congruence. }
  destruct (arity_of name) as [sp|] eqn:E.
  - destruct (within sp (length ps)) eqn:Ew; [by eapply Hyes|]. destruct (ar_kind sp); apply ran_none.
  - exists [(name, ps)]. split_and!; [done| |done]. constructor; [|constructor]. split; [done|]. cbn [fst snd]. intros ? E'. congruence.
Qed.

Lemma dispatchOne_ran raw st : ran 1 st (snd (dispatchOne handle raw st)) /\ shaped (fst (dispatchOne handle raw st)) /\
  rs_ID (fst (dispatchOne handle raw st)) = rr_ID raw.
Proof.
  unfold dispatchOne. destruct (parseRequest raw) as [[m ps]|e|]; [|by split; [apply ran_none|]..].
  pose proof (call_ran m ps st) as H. destruct (call handle m ps st) as [r st']. cbn in *. split_and!; [done|apply response_of_shaped|].
  destruct r as [v|e|]; cbn; [done| |done]. by destruct (is_envelope e).
Qed.

Lemma execOne_ran el st : ran 1 st (snd (execOne handle el st)) /\ shaped (fst (execOne handle el st)).
Proof.
  unfold execOne. assert (ran 1 st st /\ forall c, shaped (envelopeResponse c None)) as [H0 H1] by (split; [apply ran_none|done]).
  destruct (TrimSpace el) as [|c l]; [done|]. destruct c; try done.
  destruct (read_request el) as [raw|]; [|done]. pose proof (dispatchOne_ran raw st) as (? & ? & _). done.
Qed.

Lemma ran_trans n m st st' st'' : ran n st st' -> ran m st' st'' -> ran (n + m) st st''.
Proof.
  intros (c1 & -> & H1 & L1) (c2 & -> & H2 & L2). exists (c1 ++ c2). unfold run_calls. rewrite fold_left_app, length_app.
  split_and!; [done|by apply Forall_app|lia].
Qed.

Lemma exec_batch_ran els : forall st, ran (length els) st (snd (exec_batch handle els st)) /\
  Forall shaped (fst (exec_batch handle els st)) /\ length (fst (exec_batch handle els st)) = length els.
Proof.
  induction els as [|el els IH]; intros st; cbn [exec_batch]; [split_and!; [apply ran_none|constructor|done]|].
  pose proof (execOne_ran el st) as [H1 H2]. destruct (execOne handle el st) as [r st1]. cbn in H1, H2.
  destruct (IH st1) as (H3 & H4 & H5). destruct (exec_batch handle els st1) as [l st2]. cbn in *.
  split_and!; [by apply (ran_trans 1 (length els) st st1)|by constructor|lia].
Qed.

(** The answers of a reply: one per request object, of status 200 unless it is
    an error of the envelope. *)
Definition well_answered (body : bytes) (rep : httpReply) : Prop :=
  match hr_body rep with
  | One r => shaped r /\ hr_status rep = response_status r
  | Batch l => Forall shaped l /\ hr_status rep = 200 /\ exists els, raw_array body = Some els /\ length l = length els
  | PostOnly => hr_status rep = 405
  | Empty => hr_status rep = 401 \/ hr_status rep = 413
  end.

Definition requests_in (body : bytes) : nat := match raw_array body with Some els => length els | None => 1 end.

Lemma serve_body_ran body st :
  (exists n, ran n st (snd (serve_body handle body st)) /\ (n <= Nat.max 1 (requests_in body))%nat) /\
  well_answered body (fst (serve_body handle body st)).
Proof.
  unfold serve_body. set (pe := reply_one (envelopeResponse codeParse None)).
  assert (((exists n, ran n st st /\ (n <= Nat.max 1 (requests_in body))%nat)) /\ well_answered body pe) as H0.
  { split; [|done]. exists 0%nat. split; [apply ran_none|lia]. }
  destruct (TrimSpace body) as [|c l]; [done|]. destruct c; try done.
  - destruct (raw_array body) as [els|] eqn:E; [|done]. destruct (exec_batch_ran els st) as (H1 & H2 & H3).
    destruct (exec_batch handle els st) as [rs st']. cbn in *. split; [|split_and!; eauto].
    exists (length els). unfold requests_in. rewrite E. split; [done|lia].
  - destruct (read_request body) as [raw|]; [|done]. destruct (dispatchOne_ran raw st) as (H1 & H2 & _).
    destruct (dispatchOne handle raw st) as [r st']. cbn in *. split; [|done]. exists 1%nat. split; [done|lia].
Qed.

Lemma request_calls s q st : exists cs, snd (ServeHTTP handle s q st) = run_calls cs st /\ Forall legal cs.
Proof.
  unfold ServeHTTP. do 3 (case_match; [by exists []|]).
  destruct (serve_body_ran (hq_body q) st) as [(n & (cs & E & Hl & _) & _) _]. by exists cs.
Qed.

(** C28. Whatever is sent to the server, the state changes only through calls of
    registered handlers with a number of parameters their gate allows, at most
    one for each request object, and through none unless the request is an
    authorised POST of at most 32 MiB; every request gets an answer, with a
    result or an envelope error and the status that goes with it. *)
Theorem serve_gate s q st :
  exists cs, snd (ServeHTTP handle s q st) = run_calls cs st /\ Forall legal cs /\
    (length cs <= Nat.max 1 (requests_in (hq_body q)))%nat /\
    (cs = [] \/ (hq_post q = true /\ authorized s (hq_auth q) = true /\ zlen (hq_body q) <= 2 ^ 25)) /\
    well_answered (hq_body q) (fst (ServeHTTP handle s q st)).
Proof.
  unfold ServeHTTP. destruct (hq_post q); cbn [negb].
  2: { exists []. split_and!; [done|constructor|cbn; lia|by left|done]. }
  destruct (authorized s (hq_auth q)); cbn [negb].
  2: { exists []. split_and!; [done|constructor|cbn; lia|by left|by left]. }
  destruct (rpcMaxBodyBytes <? zlen (hq_body q)) eqn:El.
  { exists []. split_and!; [done|constructor|cbn; lia|by left|by right]. }
  destruct (serve_body_ran (hq_body q) st) as [(n & (cs & -> & Hl & Hn) & Hm) Hw]. exists cs.
  apply Z.ltb_ge in El. change rpcMaxBodyBytes with (2 ^ 25) in El. split_and!; [done|done|lia|by right|done].
Qed.
End Gate.

(** ** Credentials *)

(** A byte of a base64 text is no part of a space rune. *)
Definition b64_byte (c : byte) : bool := bool_decide (is_Some (b64_val c)) || Byte.eqb c b64_pad.

Lemma b64_byte_no_space c (runes : list bytes) : runes = space_runes \/ runes = map (@rev byte) space_runes -> b64_byte c = true ->
  Forall (fun r => match r with [] => False | y :: _ => y <> c end) runes.
Proof.
  intros Hr Hc. apply (Forall_impl (fun r => match r with y :: _ => negb (Byte.eqb y c) | [] => false end = true)).
  - apply Forall_forall. intros r Hin. apply list_elem_of_In in Hin. revert r Hin. apply forallb_forall.
    destruct Hr as [-> | ->]; destruct c; try discriminate Hc; by vm_compute.
  - intros [|y r]; [done|]. intros H ->. by destruct c.
Qed.

Lemma b64_encode_bytes s : Forall (fun c => b64_byte c = true) (b64_encode s).
Proof.
  assert (forall v, 0 <= v < 64 -> b64_byte (b64_char v) = true) as Hv.
  { intros v H. unfold b64_byte. apply b64_val_char in H as (-> & _ & _). rewrite bool_decide_eq_true_2; [done|eauto]. }
  induction s as [|a|a b|a b c r IH] using by_three; cbn [b64_encode]; repeat (constructor; [|]); try done.
  all: apply Hv; pose proof (byte.unsigned_range a); try (pose proof (byte.unsigned_range b)); try (pose proof (byte.unsigned_range c)); zdiv.
Qed.

Lemma TrimSpace_b64 s : Forall (fun c => b64_byte c = true) s -> TrimSpace s = s.
Proof.
  intros H. apply TrimSpace_id.
  - destruct s as [|c s]; [by vm_compute|]. apply space_prefix_ascii, b64_byte_no_space; [by left|]. by apply Forall_cons_1 in H as [? _].
  - apply Forall_rev in H. destruct (rev s) as [|c r]; [by vm_compute|]. apply space_prefix_ascii, b64_byte_no_space; [by right|].
    by apply Forall_cons_1 in H as [? _].
Qed.

(** The header of a user without a colon and a password. *)
Definition basic_header (u p : bytes) : bytes := bytes_of "Basic " ++ b64_encode (u ++ x3a :: p).

Lemma parseBasicAuth_header u p : x3a ∉ u -> parseBasicAuth (basic_header u p) = Some (u, p).
Proof.
  intros Hu. unfold parseBasicAuth, basic_header. set (e := b64_encode (u ++ x3a :: p)).
  assert (zlen (bytes_of "Basic " ++ e) <? 6 = false) as -> by (rewrite zlen_app; apply Z.ltb_ge; pose proof (zlen_nonneg e); change (zlen (bytes_of "Basic ")) with 6; lia).
  change (take 6 (bytes_of "Basic " ++ e)) with (bytes_of "Basic "). change (drop 6 (bytes_of "Basic " ++ e)) with e.
  cbn [orb negb]. subst e. rewrite TrimSpace_b64 by apply b64_encode_bytes. rewrite base64_roundtrip. cbn [mbind option_bind].
  rewrite (IndexByte_app u x3a p Hu). cbn [mbind option_bind]. f_equal. f_equal; [by rewrite take_app_length|].
  rewrite drop_app, drop_ge by lia. by replace (S (length u) - length u)%nat with 1%nat by lia.
Qed.

(** What a header says: the six bytes of "Basic " in any case, then, spaces around it aside, the
    base64 of a user without a colon, a colon and a password. *)
Definition says (header u p : bytes) : Prop :=
  exists scheme text, header = scheme ++ text /\ length scheme = 6%nat /\ fold_ascii scheme = bytes_of "BASIC " /\
    b64_decode (TrimSpace text) = Some (u ++ x3a :: p) /\ x3a ∉ u.

Lemma parseBasicAuth_says header u p : parseBasicAuth header = Some (u, p) <-> says header u p.
Proof.
  unfold parseBasicAuth, says. split.
  - destruct (_ || _) eqn:E; [done|]. apply orb_false_iff in E as [El E%negb_false_iff%bool_decide_eq_true].
    destruct (b64_decode (TrimSpace (drop 6 header))) as [b|] eqn:Eb; [|done]. cbn [mbind option_bind].
    destruct (IndexByte b x3a) as [i|] eqn:Ei; [|done]. intros [= <- <-]. apply IndexByte_Some in Ei as (x & y & -> & Hx & ->).
    exists (take 6 header), (drop 6 header). rewrite take_drop, take_app_length. split_and!; [done| |done| |done]; [rewrite length_take; unfold zlen in El; lia|]. rewrite Eb.
    rewrite drop_app, drop_ge by lia. by replace (S (length x) - length x)%nat with 1%nat by lia.
  - intros (scheme & text & -> & Hl & Hs & Hb & Hu). replace (take 6 (scheme ++ text)) with scheme by (by rewrite <- Hl, take_app_length).
    replace (drop 6 (scheme ++ text)) with text by (by rewrite <- Hl, drop_app_length). rewrite Hs, bool_decide_eq_true_2 by done. cbn [negb].
    rewrite zlen_app. unfold zlen at 1. rewrite Hl, orb_false_r. rewrite (proj2 (Z.ltb_ge _ _)) by (pose proof (zlen_nonneg text); lia).
    rewrite Hb. cbn [mbind option_bind]. rewrite (IndexByte_app u x3a p Hu). cbn [mbind option_bind]. f_equal.
    f_equal; [by rewrite take_app_length|]. rewrite drop_app, drop_ge by lia. by replace (S (length u) - length u)%nat with 1%nat by lia.
Qed.

Lemma basic_header_says u p : x3a ∉ u -> says (basic_header u p) u p.
Proof. intros Hu. by apply parseBasicAuth_says, parseBasicAuth_header. Qed.

(** C29. Who gets in. Without credentials configured the server is open; with some,
    whatever the header, a request gets in exactly when the header is a basic one
    that says the configured user and password, or a user of a salted entry and a
    password with its hash; and the header of the standard for a user without a
    colon says that user and password. *)
Theorem auth_exact s header :
  (authorized s header = true <->
    (sv_user s = [] /\ sv_authUsers s = ∅) \/
    exists u p, says header u p /\ ((sv_user s <> [] /\ u = sv_user s /\ p = sv_pass s) \/
      (exists salt hash, sv_authUsers s !! u = Some (salt, hash) /\ EncodeToString (HMAC salt p) = hash))) /\
  (forall u p, x3a ∉ u -> says (basic_header u p) u p).
Proof.
  split; [|apply basic_header_says]. unfold authorized, authConfigured.
  assert (forall u p, says header u p <-> parseBasicAuth header = Some (u, p)) as Hsays by (intros; symmetry; apply parseBasicAuth_says).
  setoid_rewrite Hsays. clear Hsays. destruct (parseBasicAuth header) as [[u p]|];
    case_bool_decide as E1; case_bool_decide as E2; cbn [negb orb andb]; try naive_solver.
  - destruct (sv_authUsers s !! u) as [[salt hash]|] eqn:E; unfold salted_ok; cbn [fst snd].
    + rewrite bool_decide_eq_true. naive_solver.
    + naive_solver.
  - rewrite E2. rewrite lookup_empty, orb_false_r, andb_true_iff, !bool_decide_eq_true. setoid_rewrite lookup_empty. naive_solver.
  - rewrite orb_true_iff, andb_true_iff, !bool_decide_eq_true.
    destruct (sv_authUsers s !! u) as [[salt hash]|] eqn:E; unfold salted_ok; cbn [fst snd]; rewrite ?bool_decide_eq_true; naive_solver.
Qed.

Definition sample_server : Server := SetRpcAuth [bytes_of "bob:Jefe$5bdcc146bf60754e6a042426089575c75a003f089d2739839dec58b964ec3843"; bytes_of "bad"]
  (SetAuth (bytes_of "alice") (bytes_of "a:b") NewServer).

Lemma auth_exact_witness :
  authorized sample_server (basic_header (bytes_of "alice") (bytes_of "a:b")) = true /\
  authorized sample_server (bytes_of "Bearer YWxpY2U6YTpi") = false /\ authorized sample_server [] = false /\
  authorized sample_server (basic_header (bytes_of "bob") (bytes_of "what do ya want for nothing?")) = true.
Proof.
  split.
  { destruct (auth_exact sample_server (basic_header (bytes_of "alice") (bytes_of "a:b"))) as [H Hsays]. apply H. right.
    exists (bytes_of "alice"), (bytes_of "a:b"). split; [apply Hsays; by apply (bool_decide_unpack _)|left; by vm_compute]. }
  split_and!; by vm_compute.
Defined.
