(* ===== verification/Params.v ===== *)
(** * Positional parameters (api/dispatch.go)

    The typed readers of the parameters of an RPC call, with the errors of the
    envelope they answer: -1 where the value has the wrong type, -3 where the
    type is checked first.  A parameter that is not there is [None]. *)

From S2P Require Import Prelude GoLib Json XAmount Fee Server.

#[local] Set Warnings "-register-all".

Inductive jsonType := TObject | TArray | TString | TBoolean | TInteger | TReal | TNull.
#[export] Instance jsonType_eq_dec : EqDecision jsonType.
Proof. solve_decision. Defined.

(** A number with a fraction or an exponent is a real. *)
Definition jsonTypeOf (v : json) : jsonType :=
  match v with
  | JObj _ => TObject
  | JArr _ => TArray
  | JStr _ => TString
  | JBool _ => TBoolean
  | JNull => TNull
  | JNum l => if existsb (fun c => existsb (Byte.eqb c) [x2e; x65; x45]) l then TReal else TInteger
  end.

(** [json.Unmarshal] of a number into a signed or unsigned integer of some width. *)
Definition ParseInt64 (s : bytes) : option Z :=
  let '(sg, d) := jsign [x2b; x2d] s in
  if all_digits d then
    let n := if bool_decide (sg = [x2d]) then - dec_value d else dec_value d in
    if (- 2 ^ 63 <=? n) && (n <? 2 ^ 63) then Some n else None
  else None.

Definition ParseUint32 (s : bytes) : option Z := n ← ParseUint64 s; if n <? 2 ^ 32 then Some n else None.

(** ** json_spirit: a value of the wrong type is an error *)

Definition spStr (ps : list json) (i : nat) : rpc (option bytes) :=
  match ps !! i with
  | None => Good None
  | Some (JStr s) => Good (Some s)
  | Some _ => envelope (-1)
  end.

Definition spBool (ps : list json) (i : nat) : rpc (option bool) :=
  match ps !! i with
  | None => Good None
  | Some (JBool b) => Good (Some b)
  | Some _ => envelope (-1)
  end.

(** [int] has 64 bits: spInt and spInt64 are one function. *)
Definition spInt64 (ps : list json) (i : nat) : rpc (option Z) :=
  match ps !! i with
  | None => Good None
  | Some v => if decide (jsonTypeOf v = TInteger) then
                match v with JNum l => match ParseInt64 l with Some n => Good (Some n) | None => envelope (-1) end | _ => envelope (-1) end
              else envelope (-1)
  end.
Definition spInt : list json -> nat -> rpc (option Z) := spInt64.

(** ** UniValue: a missing value is one of the wrong type *)

Definition uvStr (ps : list json) (i : nat) : rpc bytes := match ps !! i with Some (JStr s) => Good s | _ => envelope (-1) end.
Definition uvBool (ps : list json) (i : nat) : rpc bool := match ps !! i with Some (JBool b) => Good b | _ => envelope (-1) end.

(** A missing or null value keeps the default. *)
Definition uvBoolOpt (ps : list json) (i : nat) (def : bool) : rpc bool :=
  match ps !! i with
  | None | Some JNull => Good def
  | Some (JBool b) => Good b
  | Some _ => envelope (-1)
  end.

Definition uvArr (ps : list json) (i : nat) : rpc (list json) := match ps !! i with Some (JArr l) => Good l | _ => envelope (-1) end.

Definition uvInt (v : option json) : rpc Z :=
  match v with
  | Some (JNum l) => if decide (jsonTypeOf (JNum l) = TInteger) then match ParseUint32 l with Some n => Good n | None => envelope (-1) end
                     else envelope (-1)
  | _ => envelope (-1)
  end.

(** ** RPCTypeCheck first *)

Definition rtcStr (ps : list json) (i : nat) : rpc bytes :=
  match ps !! i with None => Good [] | Some (JStr s) => Good s | Some _ => envelope (-3) end.

Definition rtcNum (ps : list json) (i : nat) : rpc Z :=
  match ps !! i with
  | None => Good 0
  | Some (JNum l) => if decide (jsonTypeOf (JNum l) = TReal) then envelope (-1)
                     else match ParseInt64 l with Some n => Good n | None => envelope (-1) end
  | Some _ => envelope (-3)
  end.

Definition rtcBool (ps : list json) (i : nat) : rpc bool :=
  match ps !! i with None => Good false | Some (JBool b) => Good b | Some _ => envelope (-3) end.

(** ** Amounts *)

(** A required string that is missing fails with the given business error. *)
Definition req_str (ps : list json) (i : nat) (method : string) : rpc bytes :=
  s ← spStr ps i; need s errInvalidParameters method.

Definition opt_str (ps : list json) (i : nat) : rpc bytes := s ← spStr ps i; Good (default [] s).

(** The ["dryrun"] that may end a call as its parameter [n]. *)
Definition dry_run (read : list json -> nat -> rpc bytes) (ps : list json) (n : nat) (method : string) : rpc bool :=
  if (length ps =? S n)%nat then
    d ← read ps n;
    _ ← ensure (bool_decide (d = bytes_of "dryrun")) errInvalidParameters method;
    Good true
  else Good false.

Definition params_of (s : string) : list json := match parse_json (json_text s) with Some (JArr l) => l | _ => [] end.

Example param_readers :
  let ps := params_of "['a', 3, 3.0, null, true, -9223372036854775808, 9223372036854775808, 4294967296, 1e2]"%string in
  spStr ps 0 = Good (Some (bytes_of "a")) /\ spStr ps 1 = envelope (-1) /\ spStr ps 9 = Good None /\ uvStr ps 9 = envelope (-1) /\
  spInt ps 1 = Good (Some 3) /\ spInt ps 2 = envelope (-1) /\ spInt ps 5 = Good (Some (- 2 ^ 63)) /\ spInt ps 6 = envelope (-1) /\
  uvInt (ps !! 7%nat) = envelope (-1) /\ uvInt (ps !! 1%nat) = Good 3 /\ rtcNum ps 8 = envelope (-1) /\ rtcNum ps 0 = envelope (-3) /\
  uvBoolOpt ps 3 true = Good true /\ uvBoolOpt ps 4 false = Good true /\ rtcBool ps 3 = envelope (-3).
Proof. by vm_compute. Qed.
