(* ===== verification/Render.v ===== *)
(** * Rows and replies of the RPC handlers (api/order.go, api/response.go)

    The records the handlers answer with and the JSON objects they are written
    as, field by field in the order of their declaration. *)

From S2P Require Import Prelude GoLib Json Reply Codec Bodies Conf Wallet Order Float XAmount Calendar Store.

#[local] Set Warnings "-register-all".

(** ** JSON of the Go types *)

Definition fld (name : string) (v : json) : bytes * json := (bytes_of name, v).
Definition jtext (s : string) : json := JStr (bytes_of s).
Definition jint (v : Z) : json := JNum ((if v <? 0 then [x2d] else []) ++ dec_string (Z.abs v)).
Definition jamount (v : Z) : json := JStr (formatXAmount v).
Definition jtime (us : Z) : json := JStr (iso8601 us).

Definition orderTypeString (partial : bool) : string := if partial then "partial" else "exact".
Definition zero_id : bytes := repeat x00 32.

(** ** Orders *)

Record orderBase := mkOrderBase {
  ob_ID : bytes;
  ob_Maker : bytes;
  ob_MakerSize : bytes;
  ob_Taker : bytes;
  ob_TakerSize : bytes;
  ob_UpdatedAt : bytes;
  ob_CreatedAt : bytes;
  ob_OrderType : string;
  ob_PartialMinimum : bytes;
  ob_PartialOrigMakerSize : bytes;
  ob_PartialOrigTakerSize : bytes;
  ob_PartialRepost : bool;
  ob_PartialParentID : bytes;
  ob_Status : string;
}.
#[export] Instance orderBase_eta : Eta orderBase := fun b => mkOrderBase (ob_ID b) (ob_Maker b) (ob_MakerSize b) (ob_Taker b)
  (ob_TakerSize b) (ob_UpdatedAt b) (ob_CreatedAt b) (ob_OrderType b) (ob_PartialMinimum b) (ob_PartialOrigMakerSize b)
  (ob_PartialOrigTakerSize b) (ob_PartialRepost b) (ob_PartialParentID b) (ob_Status b).

Definition orderBase_json (b : orderBase) : json := JObj [
  fld "id" (JStr (ob_ID b)); fld "maker" (JStr (ob_Maker b)); fld "maker_size" (JStr (ob_MakerSize b));
  fld "taker" (JStr (ob_Taker b)); fld "taker_size" (JStr (ob_TakerSize b)); fld "updated_at" (JStr (ob_UpdatedAt b));
  fld "created_at" (JStr (ob_CreatedAt b)); fld "order_type" (jtext (ob_OrderType b));
  fld "partial_minimum" (JStr (ob_PartialMinimum b)); fld "partial_orig_maker_size" (JStr (ob_PartialOrigMakerSize b));
  fld "partial_orig_taker_size" (JStr (ob_PartialOrigTakerSize b)); fld "partial_repost" (JBool (ob_PartialRepost b));
  fld "partial_parent_id" (JStr (ob_PartialParentID b)); fld "status" (jtext (ob_Status b))].

Definition toOrderBase (o : Order) : orderBase :=
  let '(maker, makerSize, taker, takerSize) := localSense o in
  mkOrderBase (orderIDString (o_ID o)) maker (formatXAmount makerSize) taker (formatXAmount takerSize)
    (iso8601 (o_Updated o)) (iso8601 (o_Created o)) (orderTypeString (o_PartialAllowed o)) (formatXAmount (o_MinFromAmount o))
    (formatXAmount (o_OrigFromAmount o)) (formatXAmount (o_OrigToAmount o)) (o_PartialRepost o) (parentIDString (o_ParentID o))
    (statusString (o_Status o)).

Definition toListResult (o : Order) : json := orderBase_json (toOrderBase o).

(** The taker's view of a take: the pair swapped. *)
Definition toTakeResult (fromSize toSize : Z) (o : Order) : json :=
  orderBase_json (toOrderBase o <| ob_Maker := o_ToCurrency o |> <| ob_MakerSize := formatXAmount fromSize |>
                                <| ob_Taker := o_FromCurrency o |> <| ob_TakerSize := formatXAmount toSize |>).

(** A dry run answers with the pair not swapped. *)
Definition toTakeDryrunResult (fromSize toSize : Z) (o : Order) : json :=
  orderBase_json (toOrderBase o <| ob_Maker := o_FromCurrency o |> <| ob_MakerSize := formatXAmount fromSize |>
                                <| ob_Taker := o_ToCurrency o |> <| ob_TakerSize := formatXAmount toSize |>
                                <| ob_Status := "filled"%string |> <| ob_ID := repeat x30 64 |>).

Definition toDetailResult (o : Order) : json :=
  let '(maker, makerSize, taker, takerSize) := localSense o in
  JObj [
  fld "id" (JStr (orderIDString (o_ID o))); fld "maker" (JStr maker); fld "maker_size" (jamount makerSize);
  fld "maker_address" (JStr (o_MakerAddress o)); fld "taker" (JStr taker); fld "taker_size" (jamount takerSize);
  fld "taker_address" (JStr (o_TakerAddress o)); fld "updated_at" (jtime (o_Updated o)); fld "created_at" (jtime (o_Created o));
  fld "order_type" (jtext (orderTypeString (o_PartialAllowed o))); fld "partial_minimum" (jamount (o_MinFromAmount o));
  fld "partial_orig_maker_size" (jamount (o_OrigFromAmount o)); fld "partial_orig_taker_size" (jamount (o_OrigToAmount o));
  fld "partial_repost" (JBool (o_PartialRepost o)); fld "partial_parent_id" (JStr (parentIDString (o_ParentID o)));
  fld "status" (jtext (statusString (o_Status o)))].

(** The replies of a make, [None] for an exact order, the repost flag for a partial one. *)
Definition partial_fields (o : Order) (repost : option bool) (parent : bytes) : list (bytes * json) :=
  let amt (v : Z) := match repost with Some _ => jamount v | None => jtext "0" end in [
  fld "order_type" (jtext (orderTypeString (bool_decide (is_Some repost)))); fld "partial_minimum" (amt (o_MinFromAmount o));
  fld "partial_orig_maker_size" (amt (o_OrigFromAmount o)); fld "partial_orig_taker_size" (amt (o_OrigToAmount o));
  fld "partial_repost" (JBool (default false repost)); fld "partial_parent_id" (JStr (parentIDString parent));
  fld "status" (jtext "created")].

Definition made_json (now : Z) (o : Order) (repost : option bool) (parent : bytes) : json := JObj ([
  fld "id" (JStr (orderIDString (o_ID o))); fld "maker_address" (JStr (o_MakerAddress o)); fld "maker" (JStr (o_FromCurrency o));
  fld "maker_size" (jamount (o_FromAmount o)); fld "taker_address" (JStr (o_TakerAddress o)); fld "taker" (JStr (o_ToCurrency o));
  fld "taker_size" (jamount (o_ToAmount o)); fld "created_at" (jtime (o_Created o)); fld "updated_at" (jtime now);
  fld "block_id" (JStr (o_BlockID o))] ++ partial_fields o repost parent).

Definition makeOrderResponse (now : Z) (o : Order) : json := made_json now o None zero_id.
Definition makePartialOrderResponse (now : Z) (repost : bool) (o : Order) : json := made_json now o (Some repost) (o_ParentID o).

Definition dryrun_json (o : Order) (repost : option bool) : json := JObj ([
  fld "id" (JStr (orderIDString zero_id)); fld "maker" (JStr (o_FromCurrency o)); fld "maker_size" (jamount (o_FromAmount o));
  fld "maker_address" (JStr (o_MakerAddress o)); fld "taker" (JStr (o_ToCurrency o)); fld "taker_size" (jamount (o_ToAmount o));
  fld "taker_address" (JStr (o_TakerAddress o))] ++ partial_fields o repost zero_id).

Definition dryrunMakeOrderResponse (o : Order) : json := dryrun_json o None.
Definition dryrunMakePartialOrderResponse (repost : bool) (o : Order) : json := dryrun_json o (Some repost).

Definition toCancelResult (o : Order) : json :=
  let '(maker, makerSize, taker, takerSize) := localSense o in
  JObj [
  fld "id" (JStr (orderIDString (o_ID o))); fld "maker" (JStr maker); fld "maker_size" (jamount makerSize);
  fld "maker_address" (JStr (o_MakerAddress o)); fld "taker" (JStr taker); fld "taker_size" (jamount takerSize);
  fld "taker_address" (JStr (o_TakerAddress o)); fld "refund_tx" (JStr (o_RefundTx o)); fld "updated_at" (jtime (o_Updated o));
  fld "created_at" (jtime (o_Created o)); fld "status" (jtext (statusString (o_Status o)))].

(** ** Fills *)

Record fillEntry := mkFillEntry {
  fe_ID : bytes;
  fe_Time : Z;
  fe_Maker : bytes;
  fe_MakerSize : bytes;
  fe_Taker : bytes;
  fe_TakerSize : bytes;
  fe_ParentID : bytes;
  fe_OrderType : string;
  fe_PartialMinimum : bytes;
  fe_PartialOrigMakerSize : bytes;
  fe_PartialOrigTakerSize : bytes;
  fe_PartialRepost : bool;
}.

(** A row of [Store.Fills]. *)
Definition fill_entry (ot : Order * Z) : fillEntry :=
  let '(o, t) := ot in let '(maker, makerSize, taker, takerSize) := localSense o in
  mkFillEntry (orderIDString (o_ID o)) t maker (formatXAmount makerSize) taker (formatXAmount takerSize) (parentIDString (o_ParentID o))
    (orderTypeString (o_PartialAllowed o)) (formatXAmount (o_MinFromAmount o)) (formatXAmount (o_OrigFromAmount o))
    (formatXAmount (o_OrigToAmount o)) (o_PartialRepost o).

Definition fillOut_json (f : fillEntry) : json := JObj [
  fld "id" (JStr (fe_ID f)); fld "time" (jtime (fe_Time f)); fld "maker" (JStr (fe_Maker f)); fld "maker_size" (JStr (fe_MakerSize f));
  fld "taker" (JStr (fe_Taker f)); fld "taker_size" (JStr (fe_TakerSize f)); fld "order_type" (jtext (fe_OrderType f));
  fld "partial_minimum" (JStr (fe_PartialMinimum f)); fld "partial_orig_maker_size" (JStr (fe_PartialOrigMakerSize f));
  fld "partial_orig_taker_size" (JStr (fe_PartialOrigTakerSize f)); fld "partial_repost" (JBool (fe_PartialRepost f));
  fld "partial_parent_id" (JStr (fe_ParentID f))].

(** ** Flushed orders *)

(** [use_count] is always 1. *)
Definition flushedOrder_json (f : flushedOrder) : json := JObj [
  fld "id" (JStr (orderIDString (f_ID f))); fld "txtime" (jtime (f_Txtime f)); fld "use_count" (jint 1)].

Definition flushCancelledResult (ageMillis now duration : Z) (l : list flushedOrder) : json := JObj [
  fld "ageMillis" (jint ageMillis); fld "now" (jtime now); fld "durationMicrosec" (jint duration);
  fld "flushedOrders" (JArr (map flushedOrder_json l))].

(** ** The order book *)

(** Detail 4 writes each side flat. *)
Definition orderBook_json (detail : Z) (maker taker : bytes) (asks bids : list (list json)) : json :=
  let side (l : list (list json)) := JArr (if detail =? 4 then match l with r :: _ => r | [] => [] end else map JArr l) in
  JObj [fld "detail" (jint detail); fld "maker" (JStr maker); fld "taker" (JStr taker); fld "asks" (side asks); fld "bids" (side bids)].

(** ** Splits *)

Record splitTxResult := mkSplitTxResult {
  sr_Token : bytes;
  sr_IncludeFees : bool;
  sr_Requested : Z;
  sr_WithFees : Z;
  sr_Count : Z;
  sr_Total : Z;
  sr_TxID : bytes;
  sr_RawTx : bytes;
}.

Definition splitTxResult_json (r : splitTxResult) : json := JObj [
  fld "token" (JStr (sr_Token r)); fld "include_fees" (JBool (sr_IncludeFees r)); fld "split_amount_requested" (jamount (sr_Requested r));
  fld "split_amount_with_fees" (jamount (sr_WithFees r)); fld "split_utxo_count" (jint (sr_Count r)); fld "split_total" (jamount (sr_Total r));
  fld "txid" (JStr (sr_TxID r)); fld "rawtx" (JStr (sr_RawTx r))].

(** ** Every row can be read back *)

Lemma jnumber_digits d : all_digits d = true -> (forall r, d = x30 :: r -> r = []) -> jnumber d = Some (d, []).
Proof.
  intros Hd H0. apply all_digits_true in Hd as [Hd Hne]. destruct d as [|a d]; [done|]. cbn in Hd. apply andb_true_iff in Hd as [Ha Hd].
  unfold jnumber. assert (jsign [x2d] (a :: d) = ([], a :: d)) as -> by (destruct a; done).
  assert (Json.jint (a :: d) = Some (a :: d, [])) as ->.
  { unfold Json.jint. cbn [expect]. destruct (Byte.eqb a x30) eqn:E.
    - apply Byte.byte_dec_bl in E. subst a. by rewrite (H0 d).
    - unfold digits1. assert (span is_digit (a :: d) = (a :: d, [])) as ->; [|done].
      cbn [span]. rewrite Ha. clear -Hd. assert (span is_digit d = (d, [])) as ->; [|done].
      induction d as [|b d IH]; [done|]. cbn in *. apply andb_true_iff in Hd as [Hb Hd]. by rewrite Hb, (IH Hd). }
  cbn. by rewrite !app_nil_r.
Qed.

Lemma jint_ok v : json_ok (jint v) = true.
Proof.
  unfold jint. cbn [json_ok]. unfold num_ok. apply bool_decide_eq_true.
  assert (jnumber (dec_string (Z.abs v)) = Some (dec_string (Z.abs v), [])) as H.
  { apply jnumber_digits; [apply dec_string_digits; lia|]. intros r Hr. destruct (dec_string_cons (Z.abs v) ltac:(lia)) as (a & l & E & _ & H0).
    rewrite E in Hr. injection Hr as -> ->. by apply H0. }
  destruct (v <? 0); [|exact H]. cbn [app]. unfold jnumber in *. cbn [jsign existsb].
  change (Byte.eqb x2d x2d) with true. cbn [orb]. destruct (dec_string_cons (Z.abs v) ltac:(lia)) as (a & l & E & Ha & _). rewrite E in *.
  assert (jsign [x2d] (a :: l) = ([], a :: l)) as Hs by (destruct a; done). rewrite Hs in H.
  apply bind_Some in H as ([i s2] & Hi & H). apply bind_Some in H as ([f s3] & Hf & H). apply bind_Some in H as ([e s4] & He & H).
  injection H as H ->. rewrite Hi. cbn [mbind option_bind]. rewrite Hf. cbn [mbind option_bind]. rewrite He. cbn [mbind option_bind].
  by rewrite <- H.
Qed.
