(* ===== verification/Round.v ===== *)
(** * Division in binary64 is correctly rounded

    The [float64] nearest to a fraction, as the Standard Library's [SFdiv]
    computes it, is within half a unit of the last place of the fraction
    ([ratio_rounded]); an amount of fewer than 2^52 base units survives the way
    through the [float64] of whole coins ([amount_digits]). *)

From Stdlib Require Import SpecFloat.
From S2P Require Import Prelude Price Wallet Float Decimal.

(** ** Digits *)

Lemma digits2_pos_bound m : 2 ^ (Z.pos (digits2_pos m) - 1) <= Z.pos m < 2 ^ Z.pos (digits2_pos m).
Proof.
  induction m as [m IH|m IH|]; cbn [digits2_pos]; [| |done].
  all: rewrite Pos2Z.inj_succ; replace (Z.succ (Z.pos (digits2_pos m)) - 1) with (Z.succ (Z.pos (digits2_pos m) - 1)) by lia.
  all: rewrite !Z.pow_succ_r by lia; lia.
Qed.

Lemma pow2_order a b x : 2 ^ a <= x -> x < 2 ^ b -> a < b.
Proof. intros Ha Hb. destruct (Z.lt_ge_cases a b); [done|]. pose proof (Z.pow_le_mono_r 2 b a). lia. Qed.

Lemma Zdigits2_eq k x : 0 < k -> 2 ^ (k - 1) <= x < 2 ^ k -> Zdigits2 x = k.
Proof.
  intros Hk Hx. pose proof (Z.pow_pos_nonneg 2 (k - 1)). destruct x as [|m|m]; [lia| |lia]. cbn [Zdigits2].
  pose proof (digits2_pos_bound m) as [Hl Hu].
  pose proof (pow2_order _ _ _ Hl (proj2 Hx)). pose proof (pow2_order _ _ _ (proj1 Hx) Hu). lia.
Qed.

(** ** Rounding a quotient

    [N/d] lies in the unit that starts at the mantissa of a record, on the side
    of its middle the record's two bits tell. *)

Definition placed (mrs : shr_record) (N d : Z) : Prop :=
  let r := N - shr_m mrs * d in
  0 <= shr_m mrs /\ 0 <= r < d /\
  match shr_r mrs, shr_s mrs with
  | false, false => r = 0
  | false, true => 0 < 2 * r < d
  | true, false => 2 * r = d
  | true, true => d < 2 * r
  end.

Lemma new_location_placed m d : 0 <= m -> 0 < d -> placed (shr_record_of_loc (m / d) (new_location d (m mod d))) m d.
Proof.
  intros Hm Hd. pose proof (Z.mod_pos_bound m d Hd) as Hr. pose proof (Z.div_mod m d ltac:(lia)) as E. pose proof (Z.div_pos m d Hm Hd) as Hq.
  assert (m - m / d * d = m mod d) as E' by lia. unfold placed, new_location, new_location_even, new_location_odd.
  destruct (Z.even d) eqn:Ev.
  - destruct (m mod d =? 0) eqn:E0; zbool; [cbn; lia|].
    destruct (Z.compare_spec (2 * (m mod d)) d); cbn; lia.
  - assert (2 * (m mod d) <> d) by (intros Heq; assert (Z.even (2 * (m mod d)) = true) by (by rewrite Z.even_mul); congruence).
    destruct (m mod d =? 0) eqn:E0; zbool; [cbn; lia|].
    destruct (Z.compare_spec (2 * (m mod d) + 1) d); cbn; lia.
Qed.

Lemma shr_1_placed mrs N d : placed mrs N d -> placed (shr_1 mrs) N (2 * d) /\ shr_m (shr_1 mrs) = shr_m mrs / 2.
Proof.
  destruct mrs as [m r s]. unfold placed. cbn [shr_m shr_r shr_s]. intros (Hm & Hr & Hs).
  assert (r || s = negb (N - m * d =? 0)) as Ers by (destruct r, s; cbn; symmetry; rewrite ?negb_true_iff, ?negb_false_iff, ?Z.eqb_neq, ?Z.eqb_eq; lia).
  assert (forall h b, m = 2 * h + Z.b2z b -> placed (Build_shr_record h b (r || s)) N (2 * d) /\ h = m / 2) as Hhalf.
  { intros h b ->. rewrite Ers. clear Ers Hs. unfold placed. cbn [shr_m shr_r shr_s]. split; [|destruct b; cbn [Z.b2z]; Z.to_euclidean_division_equations; lia].
    assert (N - h * (2 * d) = N - (2 * h + Z.b2z b) * d + Z.b2z b * d) as -> by ring. generalize dependent (N - (2 * h + Z.b2z b) * d). intros t Ht.
    destruct b; cbn [Z.b2z] in *; destruct (t =? 0) eqn:E0; cbn [negb]; zbool; split_and!; lia. }
  destruct m as [|[p|p|]|]; [| | | |lia]; cbn [shr_1]; cbn [shr_m].
  - by apply (Hhalf 0 false).
  - by apply (Hhalf (Z.pos p) true).
  - by apply (Hhalf (Z.pos p) false).
  - by apply (Hhalf 0 true).
Qed.

(** To the nearest, at most half a unit away. *)
Lemma round_placed mrs N d : placed mrs N d ->
  let m := round_nearest_even (shr_m mrs) (loc_of_shr_record mrs) in
  - d <= 2 * (m * d - N) <= d /\ shr_m mrs <= m <= shr_m mrs + 1.
Proof.
  destruct mrs as [m r s]. unfold placed. cbn [shr_m shr_r shr_s]. intros (Hm & Hr & Hs).
  destruct r, s; cbn; try (split; [|lia]; nia). destruct (Z.even m); split; nia.
Qed.

Lemma record_m q l : shr_m (shr_record_of_loc q l) = q.
Proof. by destruct l as [|[]]. Qed.

(** Exponents of values above 2^-900: nothing is subnormal. *)
Lemma fexp_normal x : -900 <= x -> fexp 53 1024 x = x - 53.
Proof. intros. unfold fexp, emin. lia. Qed.

(** Rounds a quotient of 53 or 54 bits at the exponent [e], with the rest known. *)
Lemma binary_round_placed q l N d e :
  placed (shr_record_of_loc q l) N d -> 0 < d -> 2 ^ 52 <= q < 2 ^ 54 -> -900 <= e <= 0 -> N < 2 ^ 52 * d * 2 ^ (- e) ->
  exists m e', binary_round_aux 53 1024 false q e l = S754_finite false m e' /\ e <= e' <= 0 /\ 2 ^ 52 <= Z.pos m /\
    - (d * 2 ^ (e' - e)) <= 2 * (Z.pos m * (d * 2 ^ (e' - e)) - N) <= d * 2 ^ (e' - e).
Proof.
  intros Hp Hd Hq He HN. unfold binary_round_aux.
  (* the first shift leaves 53 bits *)
  assert (exists mrs e1 d1, shr_fexp 53 1024 q e l = (mrs, e1) /\ placed mrs N d1 /\ e <= e1 <= 0 /\ e1 <= e + 1 /\ d1 = d * 2 ^ (e1 - e) /\
    2 ^ 52 <= shr_m mrs < 2 ^ 53 /\ e1 < 0) as (mrs & e1 & d1 & -> & Hp1 & He1 & He1' & Ed1 & Hm1 & Hneg).
  { assert (forall k, 2 ^ 52 * d * 2 ^ k <= N -> e + k < 0) as Hlow.
    { intros k Hk. destruct (Z.lt_ge_cases (e + k) 0) as [|Hge]; [done|exfalso].
      pose proof (Z.pow_le_mono_r 2 (- e) k ltac:(lia) ltac:(lia)). nia. }
    pose proof Hp as (Hq0 & Hr & _). rewrite record_m in Hq0, Hr. unfold shr_fexp.
    destruct (Z.lt_ge_cases q (2 ^ 53)) as [Hlt|Hge].
    - rewrite (Zdigits2_eq 53) by lia. rewrite fexp_normal by lia. replace (53 + e - 53 - e) with 0 by lia. cbn [shr].
      exists (shr_record_of_loc q l), e, d. rewrite record_m. replace (e - e) with 0 by lia. rewrite Z.pow_0_r.
      assert (e + 0 < 0) as H0 by (apply (Hlow 0); nia).
      split_and!; [done|exact Hp|lia..].
    - rewrite (Zdigits2_eq 54) by lia. rewrite fexp_normal by lia. replace (54 + e - 53 - e) with 1 by lia. cbn [shr iter_pos].
      destruct (shr_1_placed (shr_record_of_loc q l) N d) as [Hp1 Em]; [exact Hp|].
      rewrite record_m in Em. exists (shr_1 (shr_record_of_loc q l)), (e + 1), (2 * d). rewrite Em. replace (e + 1 - e) with 1 by lia.
      assert (e + 1 < 0) by (apply (Hlow 1); nia).
      split_and!; try done; try lia; Z.to_euclidean_division_equations; lia. }
  pose proof (round_placed _ _ _ Hp1) as [Herr Hm2]. set (m2 := round_nearest_even _ _) in *. clearbody m2.
  unfold shr_fexp. destruct (Z.lt_ge_cases m2 (2 ^ 53)) as [Hlt|Hge].
  - rewrite (Zdigits2_eq 53) by lia. rewrite fexp_normal by lia. replace (53 + e1 - 53 - e1) with 0 by lia. cbn [shr shr_record_of_loc shr_m].
    destruct m2 as [|m|m]; [lia| |lia]. rewrite (proj2 (Z.leb_le e1 (1024 - 53))) by lia.
    exists m, e1. rewrite Ed1 in Herr. split_and!; try done; lia.
  - assert (m2 = 2 ^ 53) as -> by lia. rewrite (Zdigits2_eq 54) by lia. rewrite fexp_normal by lia. replace (54 + e1 - 53 - e1) with 1 by lia.
    cbn [shr iter_pos shr_record_of_loc]. change (shr_1 (Build_shr_record (2 ^ 53) false false)) with (Build_shr_record (2 ^ 52) false false).
    cbn [shr_m]. change (2 ^ 52) with (Z.pos (2 ^ 52)). cbv iota. rewrite (proj2 (Z.leb_le (e1 + 1) (1024 - 53))) by lia.
    exists (2 ^ 52)%positive, (e1 + 1). replace (e1 + 1 - e) with (e1 - e + 1) by lia. rewrite Z.pow_add_r, Z.pow_1_r by lia. rewrite Ed1 in *.
    pose proof (Z.pow_pos_nonneg 2 (e1 - e) ltac:(lia) ltac:(lia)).
    split_and!; try done; try lia; nia.
Qed.

(** ** The nearest value to a fraction below 2^52 *)

Lemma ratio_rounded n d : 0 < n -> 0 < d < 2 ^ 800 -> n < 2 ^ 52 * d ->
  exists m e, f64_ratio n d = S754_finite false m e /\ e <= 0 /\ 2 ^ 52 <= Z.pos m /\
    - d <= 2 * (Z.pos m * d - n * 2 ^ (- e)) <= d.
Proof.
  intros Hn [Hd0 Hd] Hnd. destruct n as [|n|]; [lia| |lia]. destruct d as [|d|]; [lia| |lia].
  cbn [f64_ratio]. unfold SFdiv, SFdiv_core_binary. cbn [xorb].
  pose proof (digits2_pos_bound n) as [Hn1 Hn2]. pose proof (digits2_pos_bound d) as [Hd1 Hd2]. cbn [Zdigits2]. rewrite !Z.add_0_r.
  set (a := Z.pos (digits2_pos n)) in *. set (b := Z.pos (digits2_pos d)) in *.
  assert (0 < a /\ 0 < b) as [Ha Hb] by (subst a b; lia).
  assert (b - 1 < 800) as Hb' by (eapply pow2_order; [exact Hd1|exact Hd]).
  assert (a - 1 < 52 + b) as Hab.
  { eapply pow2_order; [exact Hn1|]. rewrite Z.pow_add_r by lia. nia. }
  rewrite fexp_normal by lia. rewrite Z.sub_diag. rewrite Z.min_l by lia. set (e := a - b - 53) in *.
  assert (-900 <= e <= 0) as He by (subst e; lia).
  assert (match 0 - e with 0 => Z.pos n | Z.pos _ => Z.shiftl (Z.pos n) (0 - e) | Z.neg _ => 0 end = Z.pos n * 2 ^ (- e)) as ->.
  { destruct (0 - e) eqn:E; [replace (- e) with 0 by lia; lia| |lia].
    rewrite <- E, Z.shiftl_mul_pow2 by lia. by rewrite Z.sub_0_l. }
  set (N := Z.pos n * 2 ^ (- e)). pose proof (Z.pow_pos_nonneg 2 (- e) ltac:(lia) ltac:(lia)) as HP.
  assert (0 < N) as HN by (subst N; nia).
  assert (Z.div_eucl N (Z.pos d) = (N / Z.pos d, N mod Z.pos d)) as -> by (unfold Z.div, Z.modulo; by destruct (Z.div_eucl N (Z.pos d))).
  assert (2 ^ (a - 1) * 2 ^ (- e) = 2 ^ 52 * 2 ^ b) as E1 by (rewrite <- !Z.pow_add_r by lia; f_equal; lia).
  assert (2 ^ a * 2 ^ (- e) = 2 ^ 54 * 2 ^ (b - 1)) as E2 by (rewrite <- !Z.pow_add_r by lia; f_equal; lia).
  assert (2 ^ 52 <= N / Z.pos d < 2 ^ 54) as Hq.
  { split; [apply Z.div_le_lower_bound; [lia|]|apply Z.div_lt_upper_bound; [lia|]]; subst N; nia. }
  destruct (binary_round_placed (N / Z.pos d) (new_location (Z.pos d) (N mod Z.pos d)) N (Z.pos d) e) as (m & e' & Hr & He' & Hm & Herr).
  - apply new_location_placed; lia.
  - lia.
  - done.
  - done.
  - subst N. nia.
  - exists m, e'. split_and!; [done|lia|done|..].
    all: assert (2 ^ (- e) = 2 ^ (e' - e) * 2 ^ (- e')) as E by (rewrite <- Z.pow_add_r by lia; f_equal; lia).
    all: pose proof (Z.pow_pos_nonneg 2 (e' - e) ltac:(lia) ltac:(lia)); subst N; rewrite E in Herr; nia.
Qed.

(** ** Amounts *)

Lemma round_half_even_near num den v : 0 < den -> - den < 2 * (num - v * den) < den -> round_half_even num den = v.
Proof.
  intros Hd H. unfold round_half_even. pose proof (Z.div_mod num den ltac:(lia)) as E. pose proof (Z.mod_pos_bound num den Hd) as Hr.
  assert (num / den = v \/ num / den = v - 1) as [Eq | Eq] by nia; rewrite Eq in *.
  - destruct (den <? 2 * (num mod den)) eqn:E1; zbool; [nia|]. destruct (2 * (num mod den) =? den) eqn:E2; zbool; [nia|]. done.
  - rewrite (proj2 (Z.ltb_lt den (2 * (num mod den)))) by nia. cbn [orb]. lia.
Qed.

(** The decimals of the [float64] nearest to an amount are those of the amount,
    also when common factors of ten were cancelled first. *)
Lemma amount_digits (v D K : Z) : 0 <= v -> 0 < K -> v * K < 2 ^ 52 -> 0 < D < 2 ^ 800 ->
  exists num den, f64_frac (f64_ratio v D) = Some (false, num, den) /\ 0 < den /\ round_half_even (num * (D * K)) den = v * K.
Proof.
  intros Hv HK Hm HD. destruct (decide (v = 0)) as [-> | Hne].
  { exists 0, 1. destruct D; [lia| |lia]. split_and!; done. }
  destruct (ratio_rounded v D) as (m & e & -> & He & Hlow & Herr); [lia..|nia|]. unfold f64_frac.
  pose proof (Z.pow_pos_nonneg 2 (- e) ltac:(lia) ltac:(lia)) as HP.
  assert ((if 0 <=? e then Z.pos m * 2 ^ e else Z.pos m) = Z.pos m /\ (if 0 <=? e then 1 else 2 ^ (- e)) = 2 ^ (- e)) as [-> ->].
  { destruct (0 <=? e) eqn:E; zbool; [|done]. assert (e = 0) as -> by lia. cbn. lia. }
  eexists _, _. split_and!; [done|done|]. apply round_half_even_near; [done|]. set (P := 2 ^ (- e)) in *.
  assert (- (D * K) <= 2 * (Z.pos m * (D * K) - v * K * P) <= D * K) as Herr' by nia.
  assert (D * K < P) by nia. lia.
Qed.
