(* ===== verification/Unmarshal.v ===== *)
(** * Decoding JSON into Go values (encoding/json)

    [json.Unmarshal] into the types the wallet client declares: what a decoder
    makes of a value depends on what the target holds (an absent member, [null]
    and a mismatch leave it), and the first mismatch is an error although the
    rest is still decoded.  Numbers are read as [strconv] reads them. *)

From Stdlib Require Import SpecFloat.
From S2P Require Import Prelude Digits GoLib Json HttpLib Price Wallet Float Decimal.

(** The new value of the target, and whether everything fitted. *)
Definition decoder (A : Type) : Type := json -> A -> A * bool.

(** ** Numbers *)

(** The sign, the digits and the power of ten of a literal. *)
Definition num_value (l : bytes) : option (bool * Z * Z) :=
  let '(m, s) := jsign [x2d] l in
  '(i, s) ← Json.jint s;
  '(f, s) ← jfrac s;
  '(e, _) ← jexp s;
  let fp := drop 1 f in
  let ex := match e with [] => 0 | _ :: e => let '(sg, d) := jsign [x2b; x2d] e in if bool_decide (sg = [x2d]) then - dec_value d else dec_value d end in
  Some (negb (bool_decide (m = [])), dec_value (i ++ fp), ex - zlen fp).

Definition f64_finite (v : f64) : bool := match v with S754_infinity _ | S754_nan => false | _ => true end.

(** [strconv.ParseFloat] of a literal of the grammar; a value too large is an error. *)
Definition float_of_number (l : bytes) : option f64 :=
  '(neg, n, k) ← num_value l;
  let v := if 0 <=? k then f64_ratio (n * 10 ^ k) 1 else f64_ratio n (10 ^ (- k)) in
  if f64_finite v then Some (if neg : bool then SFopp v else v) else None.

(** [strconv.ParseInt] and [ParseUint]: digits only, within the range of the type. *)
Definition int_of_number (lo hi : Z) (l : bytes) : option Z :=
  let '(m, d) := jsign (if lo <? 0 then [x2d] else []) l in
  if all_digits d then
    let v := if bool_decide (m = []) then dec_value d else - dec_value d in
    if (lo <=? v) && (v <? hi) then Some v else None
  else None.

(** ** Decoders *)

Section Scalars.
Definition scalar {A} (read : json -> option A) : decoder A := fun v x =>
  match v with
  | JNull => (x, true)
  | _ => match read v with Some a => (a, true) | None => (x, false) end
  end.

Definition d_string : decoder bytes := scalar (fun v => match v with JStr s => Some s | _ => None end).
Definition d_bool : decoder bool := scalar (fun v => match v with JBool b => Some b | _ => None end).
Definition d_float : decoder f64 := scalar (fun v => match v with JNum l => float_of_number l | _ => None end).
Definition d_num (lo hi : Z) : decoder Z := scalar (fun v => match v with JNum l => int_of_number lo hi l | _ => None end).
(** [int] and [int64], [uint32], [uint64] *)
Definition d_int : decoder Z := d_num (- 2 ^ 63) (2 ^ 63).
Definition d_uint32 : decoder Z := d_num 0 (2 ^ 32).
Definition d_uint64 : decoder Z := d_num 0 (2 ^ 64).
(** [json.RawMessage] *)
Definition d_raw : decoder (option json) := fun v _ => (Some v, true).
End Scalars.

(** A pointer: [null] clears it, anything else fills what it points to. *)
Definition d_ptr {A} (zero : A) (d : decoder A) : decoder (option A) := fun v x =>
  match v with
  | JNull => (None, true)
  | _ => let '(a, ok) := d v (default zero x) in (Some a, ok)
  end.

(** A slice: its elements are decoded over those it held. *)
Fixpoint d_elements {A} (zero : A) (d : decoder A) (l : list json) (old : list A) : list A * bool :=
  match l with
  | [] => ([], true)
  | v :: l =>
      let '(a, ok) := d v (default zero (head old)) in
      let '(r, ok') := d_elements zero d l (tail old) in
      (a :: r, ok && ok')
  end.

Definition d_list {A} (zero : A) (d : decoder A) : decoder (list A) := fun v x =>
  match v with
  | JNull => ([], true)
  | JArr l => d_elements zero d l x
  | _ => (x, false)
  end.

(** The same with [nil] apart from the empty slice. *)
Definition d_slice {A} (zero : A) (d : decoder A) : decoder (option (list A)) := fun v x =>
  match v with
  | JNull => (None, true)
  | JArr l => let '(r, ok) := d_elements zero d l (default [] x) in (Some r, ok)
  | _ => (x, false)
  end.

(** A struct: each member goes to the field its name folds to, in the order of
    the document; other members are skipped. *)
Definition member {A B} (name : string) (get : A -> B) (set : B -> A -> A) (d : decoder B) : bytes * decoder A :=
  (bytes_of name, fun v x => let '(b, ok) := d v (get x) in (set b x, ok)).

Definition find_member {A} (fields : list (bytes * decoder A)) (k : bytes) : option (decoder A) :=
  snd <$> List.find (fun f => bool_decide (fold_ascii f.1 = fold_ascii k)) fields.

Definition d_member {A} (fields : list (bytes * decoder A)) (acc : A * bool) (kv : bytes * json) : A * bool :=
  match find_member fields kv.1 with
  | Some d => let '(x, ok) := d kv.2 acc.1 in (x, acc.2 && ok)
  | None => acc
  end.

Definition d_struct {A} (fields : list (bytes * decoder A)) : decoder A := fun v x =>
  match v with
  | JNull => (x, true)
  | JObj l => fold_left (d_member fields) l (x, true)
  | _ => (x, false)
  end.

(** [json.Unmarshal(data, &x)] *)
Definition Unmarshal {A} (d : decoder A) (data : bytes) (x : A) : A * bool :=
  match parse_json data with Some v => d v x | None => (x, false) end.

Example decoders :
  map float_of_number [bytes_of "1.5"; bytes_of "-0.25e1"; bytes_of "0.00000001"; bytes_of "1e400"; bytes_of "1E2"; bytes_of "0"] =
    [Some (f64_ratio 3 2); Some (SFopp (f64_ratio 5 2)); Some (f64_ratio 1 100000000); None; Some (f64_of 100); Some f64_zero] /\
  map (int_of_number (- 2 ^ 63) (2 ^ 63)) [bytes_of "-7"; bytes_of "1.0"; bytes_of "9223372036854775808"] = [Some (-7); None; None] /\
  int_of_number 0 (2 ^ 32) (bytes_of "-0") = None /\
  Unmarshal (d_list [] d_string) (json_text "['a', null, 'b']") [] = ([bytes_of "a"; []; bytes_of "b"], true) /\
  Unmarshal (d_list [] d_string) (json_text "['a', 1, 'b']") [] = ([bytes_of "a"; []; bytes_of "b"], false) /\
  Unmarshal (d_ptr 0 d_int) (bytes_of "null") (Some 3) = (None, true) /\
  Unmarshal (d_struct [member "hex" fst (fun b x => (b, snd x)) d_string; member "complete" snd (fun b x => (fst x, b)) d_bool])
    (json_text "{'Hex': 'aa', 'x': 1, 'complete': 1}") ([], true) = ((bytes_of "aa", true), false).
Proof. by vm_compute. Qed.
