(* ===== verification/WalletRpc.v ===== *)
(** * The JSON-RPC connector (wallet/rpc.go)

    The client of a wallet or node: the request it writes, what it makes of the
    answer, and every call of the connector over it.  The HTTP exchange is an
    argument: the status and the body the server answers a request with, or
    nothing when the transport fails.  The number an exchange draws from the
    counter of the client, which other goroutines draw from too, is an argument
    as well. *)

From Stdlib Require Import SpecFloat.
From S2P Require Import Prelude GoLib Hex Conf Coin Amount Json Reply HttpLib Price Wallet Float Decimal Render Unmarshal.

#[local] Set Warnings "-register-all".

(** ** Amounts *)

(** The coin the amount helpers take: only its decimals count. *)
Definition coin_of_decimals (decimals : Z) : Coin := mkCoin [] [] decimals x00 x00 [] false FamilyUTXOBTC [] SigLegacy 0 false.

Definition amountFloatToBase (decimals : Z) (f : f64) : wres Z :=
  of_res (ParseAmount (coin_of_decimals decimals) (FormatFloat_f (Z.to_nat decimals) f)).

(** [FormatAmount] writes a plain decimal. *)
Definition amountBaseToFloat (decimals : Z) (v : Z) : wres f64 :=
  of_option (ParseFloat (FormatAmount (coin_of_decimals decimals) v)).

(** A float as encoding/json writes it: in the exponent form below 10^-6 and
    from 10^21 on, [e-09] cleaned up to [e-9]. *)
Definition exponent_text (c k : Z) : bytes :=
  let ds := trim_zeros (dec_string c) in
  let e := zlen (dec_string c) - 1 + k in
  take 1 ds ++ (if (length ds <=? 1)%nat then [] else x2e :: drop 1 ds) ++
  [x65; if e <? 0 then x2d else x2b] ++ (if e <? 0 then dec_string (- e) else pad_left 2 (dec_string e)).

Definition json_float (f : f64) : bytes :=
  match f with
  | S754_finite s m e =>
      match shortest_decimal 650 309 m e with
      | Some (c, k) =>
          (if s : bool then [x2d] else []) ++
          (if f64_lt (f64_abs f) (f64_ratio 1 1000000) || f64_le (f64_of (10 ^ 21)) (f64_abs f) then exponent_text c k else decimal_text c k)
      | None => []
      end
  | S754_zero true => bytes_of "-0"
  | _ => [x30]
  end.

Example float_texts :
  map (fun p => json_float (f64_ratio p.1 p.2)) [(1, 100000000); (12345678, 100000000); (15, 10); (0, 1); (10 ^ 21, 1); (123456789, 10 ^ 18); (2100000000000000, 10 ^ 8)] =
  map bytes_of ["1e-8"; "0.12345678"; "1.5"; "0"; "1e+21"; "1.23456789e-10"; "21000000"]%string.
Proof. by vm_compute. Qed.

(** ** The client *)

Record RPCClient := mkRPCClient {
  cl_url : bytes;
  cl_user : bytes;
  cl_pass : bytes;
  cl_jsonVersion : bytes;
  cl_omitJSONVersion : bool;
  cl_contentType : bytes;
}.

(** What goes over the wire: a POST with these headers and this body. *)
Record HttpRequest := mkHttpRequest {
  rq_url : bytes;
  rq_authorization : bytes;
  rq_contentType : option bytes;
  rq_body : bytes;
}.

Record rpcResponse := mkResponse {
  rp_Result : option json;
  rp_Error : option (Z * bytes);
  rp_ID : bytes;
}.
#[export] Instance rpcResponse_eta : Eta rpcResponse := fun r => mkResponse (rp_Result r) (rp_Error r) (rp_ID r).
Definition no_response : rpcResponse := mkResponse None None [].

Definition d_error : decoder (Z * bytes) := d_struct [
  member "code" fst (fun c x => (c, x.2)) d_int; member "message" snd (fun m x => (x.1, m)) d_string].

Definition d_response : decoder rpcResponse := d_struct [
  member "result" rp_Result (fun v r => r <| rp_Result := v |>) d_raw;
  member "error" rp_Error (fun v r => r <| rp_Error := v |>) (d_ptr (0, []) d_error);
  member "id" rp_ID (fun v r => r <| rp_ID := v |>) d_string].

Definition rpc_error (code : Z) : error := mkError false true (Some code) None.
Definition isMethodNotFound (e : error) : bool := bool_decide (err_Code e = Some (-32601)).

Section Client.
(** The exchange, and the number the counter gives a call. *)
Variables (exchange : HttpRequest -> option (Z * bytes)) (drawn : bytes -> list json -> Z).
Variable cli : RPCClient.

Definition request_body (method : bytes) (params : list json) : bytes :=
  let ver := if cl_omitJSONVersion cli then [] else cl_jsonVersion cli in
  write_json true (JObj ((if bool_decide (ver = []) then [] else [fld "jsonrpc" (JStr ver)]) ++
    [fld "id" (JStr (bytes_of "xbg-" ++ dec_string (drawn method params))); fld "method" (JStr method); fld "params" (JArr params)])).

Definition request (method : bytes) (params : list json) : HttpRequest :=
  mkHttpRequest (cl_url cli) (bytes_of "Basic " ++ b64_encode (cl_user cli ++ bytes_of ":" ++ cl_pass cli))
    (if bool_decide (cl_contentType cli = []) then None else Some (cl_contentType cli)) (request_body method params).

(** [RPCClient.call]: the target afterwards, and the error. *)
Definition call {A} (d : decoder A) (method : string) (params : list json) (out : A) : A * wres unit :=
  match exchange (request (bytes_of method) params) with
  | None => (out, fail)
  | Some (status, data) =>
      if status =? 401 then (out, fail)
      else
        let '(r, ok) := Unmarshal d_response data no_response in
        if negb ok then (out, fail)
        else
          match rp_Error r with
          | Some (code, _) => (out, inr (rpc_error code))
          | None =>
              match rp_Result r with
              | None | Some JNull => (out, inl tt)
              | Some v => let '(out, ok) := d v out in (out, if ok then inl tt else fail)
              end
          end
  end.

(** A call for its value alone. *)
Definition Call {A} (d : decoder A) (zero : A) (method : string) (params : list json) : wres A :=
  match call d method params zero with (a, inl _) => inl a | (_, inr e) => inr e end.

(** ** The connector *)

Variable decimals : Z.

Record rpcUtxo := mkRpcUtxo {
  ru_TxID : bytes;
  ru_Vout : Z;
  ru_Address : bytes;
  ru_Amount : f64;
  ru_ScriptPubKey : bytes;
  ru_Confirmations : option Z;
  ru_Spendable : option bool;
}.
#[local] Instance rpcUtxo_eta : Eta rpcUtxo := fun u => mkRpcUtxo (ru_TxID u) (ru_Vout u) (ru_Address u) (ru_Amount u)
  (ru_ScriptPubKey u) (ru_Confirmations u) (ru_Spendable u).
Definition no_rpcUtxo : rpcUtxo := mkRpcUtxo [] 0 [] f64_zero [] None None.

Definition d_utxo : decoder rpcUtxo := d_struct [
  member "txid" ru_TxID (fun v u => u <| ru_TxID := v |>) d_string;
  member "vout" ru_Vout (fun v u => u <| ru_Vout := v |>) d_uint32;
  member "address" ru_Address (fun v u => u <| ru_Address := v |>) d_string;
  member "amount" ru_Amount (fun v u => u <| ru_Amount := v |>) d_float;
  member "scriptPubKey" ru_ScriptPubKey (fun v u => u <| ru_ScriptPubKey := v |>) d_string;
  member "confirmations" ru_Confirmations (fun v u => u <| ru_Confirmations := v |>) (d_ptr 0 d_int);
  member "spendable" ru_Spendable (fun v u => u <| ru_Spendable := v |>) (d_ptr false d_bool)].

(** The entries [listUnspentFiltered] keeps. *)
Definition listed (minConf : Z) (includeZeroConf : bool) (u : rpcUtxo) : bool :=
  negb (bool_decide (ru_Spendable u = Some false)) && negb (f64_le (ru_Amount u) f64_zero) &&
  match ru_Confirmations u with
  | Some c => negb (c <? 0) && negb (negb includeZeroConf && (c <=? 0)) && negb (c <? minConf)
  | None => true
  end.

Definition to_utxo (u : rpcUtxo) : wres Utxo :=
  amt ← amountFloatToBase decimals (ru_Amount u);
  inl (mkUtxo (ru_TxID u) (ru_Vout u) (ru_Address u) amt (ru_Amount u) (ru_ScriptPubKey u) (default 0 (ru_Confirmations u))).

Fixpoint map_w {A B} (f : A -> wres B) (l : list A) : wres (list B) :=
  match l with
  | [] => inl []
  | a :: l => b ← f a; r ← map_w f l; inl (b :: r)
  end.

Definition listUnspentFiltered (minConf : Z) (includeZeroConf : bool) : wres (list Utxo) :=
  raw ← Call (d_list no_rpcUtxo d_utxo) [] "listunspent" [];
  map_w to_utxo (List.filter (listed minConf includeZeroConf) raw).

(** The sum of the confirmed outputs only when the method is unknown. *)
Definition GetBalance : wres Z :=
  match Call d_float f64_zero "getbalance" [] with
  | inl v => amountFloatToBase decimals v
  | inr e =>
      if negb (isMethodNotFound e) then inr e
      else
        out ← listUnspentFiltered 1 false;
        inl (fold_left (fun t u => wrap 64 (t + u_Amount u)) out 0)
  end.

Definition GetNewAddress : wres bytes := Call d_string [] "getnewaddress" [].

Definition prev_json (p : PrevTx) : wres json :=
  amt ← amountBaseToFloat decimals (pt_Amount p);
  inl (JObj [fld "txid" (JStr (pt_TxID p)); fld "vout" (jint (pt_Vout p)); fld "scriptPubKey" (JStr (pt_ScriptPubKey p)); fld "amount" (JNum (json_float amt))]).

Definition d_signed : decoder (bytes * bool) := d_struct [
  member "hex" fst (fun h x => (h, x.2)) d_string; member "complete" snd (fun c x => (x.1, c)) d_bool].

(** Any failure of the first method leads to the second, into the same target. *)
Definition SignRawTransaction (txHex : bytes) (prevTxs : list PrevTx) : wres (bytes * bool) :=
  prev ← map_w prev_json prevTxs;
  let args := [JStr txHex; if bool_decide (prevTxs = []) then JNull else JArr prev; JNull] in
  match call d_signed "signrawtransaction" args ([], false) with
  | (res, inl _) => inl res
  | (res, inr _) =>
      match call d_signed "signrawtransactionwithwallet" args res with
      | (res, inl _) => inl res
      | (_, inr e) => inr e
      end
  end.

Definition SendRawTransaction (txHex : bytes) : wres bytes := Call d_string [] "sendrawtransaction" [JStr txHex].
Definition GetBlockCount : wres Z := Call d_int 0 "getblockcount" [].

Definition revHashHex (s : bytes) : wres bytes :=
  b ← of_option (DecodeString s); _ ← require (zlen b =? 32) failure; inl (rev b).
Definition displayHashHex (h : bytes) : bytes := EncodeToString (rev h).

Definition GetBlockHash (height : Z) : wres bytes :=
  hexStr ← Call d_string [] "getblockhash" [jint height]; revHashHex hexStr.

Definition d_vin : decoder BlockVin := d_struct [
  member "txid" bv_TxID (fun t v => mkBlockVin t (bv_Vout v)) d_string; member "vout" bv_Vout (fun n v => mkBlockVin (bv_TxID v) n) d_uint32].
Definition d_blockTx : decoder BlockTx := d_struct [
  member "txid" bt_TxID (fun t x => mkBlockTx t (bt_Vin x)) d_string;
  member "vin" bt_Vin (fun l x => mkBlockTx (bt_TxID x) l) (d_list (mkBlockVin [] 0) d_vin)].

(** An entry without an id or without inputs fails the page. *)
Definition block_tx (entry : json) : wres BlockTx :=
  let '(t, ok) := d_blockTx entry (mkBlockTx [] []) in
  if ok && negb (bool_decide (bt_TxID t = [])) && negb (bool_decide (bt_Vin t = [])) then inl t else fail.

(** The entries of a block object; its absence and the empty list fail. *)
Definition d_block : decoder (list json) := d_struct [member "tx" id (fun l _ => l) (d_list JNull (fun v _ => (v, true)))].

Definition GetBlockTxs (blockHash : bytes) : wres (list BlockTx) :=
  let disp := JStr (displayHashHex blockHash) in
  raw ← (match Call d_raw None "getblock" [disp; jint 2] with
         | inl raw => inl raw
         | inr e => match Call d_raw None "getblock" [disp] with inl raw => inl raw | inr _ => inr e end
         end);
  match raw with
  | None => fail
  | Some v =>
      let '(l, ok) := d_block v [] in
      if ok && negb (bool_decide (l = [])) then map_w block_tx l else fail
  end.

Definition GetRawTransaction (txid : bytes) : wres bytes := Call d_string [] "getrawtransaction" [JStr txid; jint 0].

(** *** The verbose view *)

Record rawVin := mkRawVin { vi_TxID : option bytes; vi_Vout : option Z; vi_Sequence : option Z }.
Record rawVout := mkRawVout { ro_Value : f64; ro_N : Z; ro_Hex : bytes }.
Record rpcRawTxVerbose := mkRawTxVerbose {
  rt_Confirmations : option Z;
  rt_Vin : list rawVin;
  rt_Vout : list rawVout;
}.

Definition d_rawVin : decoder rawVin := d_struct [
  member "txid" vi_TxID (fun t v => mkRawVin t (vi_Vout v) (vi_Sequence v)) (d_ptr [] d_string);
  member "vout" vi_Vout (fun n v => mkRawVin (vi_TxID v) n (vi_Sequence v)) (d_ptr 0 d_uint32);
  member "sequence" vi_Sequence (fun s v => mkRawVin (vi_TxID v) (vi_Vout v) s) (d_ptr 0 d_uint64)].
Definition d_rawVout : decoder rawVout := d_struct [
  member "value" ro_Value (fun a o => mkRawVout a (ro_N o) (ro_Hex o)) d_float;
  member "n" ro_N (fun n o => mkRawVout (ro_Value o) n (ro_Hex o)) d_uint32;
  member "scriptPubKey" ro_Hex (fun h o => mkRawVout (ro_Value o) (ro_N o) h) (d_struct [member "hex" id (fun h _ => h) d_string])].
Definition d_rawTx : decoder rpcRawTxVerbose := d_struct [
  member "confirmations" rt_Confirmations (fun c t => mkRawTxVerbose c (rt_Vin t) (rt_Vout t)) (d_ptr 0 d_int);
  member "vin" rt_Vin (fun l t => mkRawTxVerbose (rt_Confirmations t) l (rt_Vout t)) (d_list (mkRawVin None None None) d_rawVin);
  member "vout" rt_Vout (fun l t => mkRawTxVerbose (rt_Confirmations t) (rt_Vin t) l) (d_list (mkRawVout f64_zero 0 []) d_rawVout)].

Definition getRawTransactionVerbose (txid : bytes) : wres rpcRawTxVerbose :=
  Call d_rawTx (mkRawTxVerbose None [] []) "getrawtransaction" [JStr txid; jint 1].

Definition verbose_out (o : rawVout) : wres (Z * VerboseTxOut) :=
  amt ← amountFloatToBase decimals (ro_Value o); inl (ro_N o, mkVerboseTxOut amt (ro_Hex o)).

Definition GetRawTransactionVerbose (txid : bytes) : wres VerboseTx :=
  raw ← getRawTransactionVerbose txid;
  outs ← map_w verbose_out (rt_Vout raw);
  inl (mkVerboseTx (default 0 (rt_Confirmations raw)) (bool_decide (is_Some (rt_Confirmations raw)))
    (fold_left (fun m kv => <[kv.1 := kv.2]> m) outs ∅)).

(** *** Unspent outputs, the mempool, messages *)

Definition getTxOutConfirmations (txid : bytes) (vout : Z) : option Z :=
  match Call (d_struct [member "confirmations" id (fun c _ => c) (d_ptr 0 d_int)]) None "gettxout" [JStr txid; jint vout] with
  | inl confs => confs
  | inr _ => None
  end.

Record rpcTxOut := mkRpcTxOut { to_Confirmations : option Z; to_Value : option f64; to_Addresses : list bytes }.
Definition d_txOut : decoder rpcTxOut := d_struct [
  member "confirmations" to_Confirmations (fun c o => mkRpcTxOut c (to_Value o) (to_Addresses o)) (d_ptr 0 d_int);
  member "value" to_Value (fun v o => mkRpcTxOut (to_Confirmations o) v (to_Addresses o)) (d_ptr f64_zero d_float);
  member "scriptPubKey" to_Addresses (fun l o => mkRpcTxOut (to_Confirmations o) (to_Value o) l)
    (d_struct [member "addresses" id (fun l _ => l) (d_list [] d_string)])].

Definition GetTxOut (txid : bytes) (vout : Z) : wres (option Utxo) :=
  out ← Call d_txOut (mkRpcTxOut None None []) "gettxout" [JStr txid; jint vout];
  inl (match to_Value out with
       | None => None
       | Some v => Some (mkUtxo txid vout (default [] (head (to_Addresses out))) 0 v [] (default 0 (to_Confirmations out)))
       end).

Definition GetRawMempool : wres (list bytes) := Call (d_list [] d_string) [] "getrawmempool" [].

Definition SignMessage (address message : bytes) : wres bytes :=
  b64 ← Call d_string [] "signmessage" [JStr address; JStr message]; of_option (b64_decode b64).

Definition VerifyMessage (address sig message : bytes) : wres bool :=
  Call d_bool false "verifymessage" [JStr address; JStr (b64_encode sig); JStr message].

(** The remote node of the deposit check. *)
Definition remote : RPC := mkRPC GetRawTransaction
  (fun txid => raw ← getRawTransactionVerbose txid; inl (mkRawVerbose (rt_Confirmations raw) (map (fun o => (ro_N o, ro_Value o)) (rt_Vout raw))))
  getTxOutConfirmations.

(** The connector of a chain; [mem] bounds the allocations of the parser. *)
Definition RPCConnector (mem : Z) (chain : Chain) : Connector :=
  mkConnector GetBalance GetNewAddress (fun minConf => listUnspentFiltered minConf false) (listUnspentFiltered 0 true)
    SignRawTransaction SendRawTransaction GetBlockCount GetRawTransaction (CheckDepositTransaction mem chain remote)
    SignMessage VerifyMessage GetTxOut GetRawTransactionVerbose GetRawMempool GetBlockHash GetBlockTxs.
End Client.

(** [NewConnectorFromConf], past its checks: the client and the chain of a
    section; [FromConf] derives the decimals from [COIN]. *)
Definition chain_of_conf (c : CoinConf) : Chain :=
  mkChain (decimalsFromCoin (cc_Coin c)) (cc_FeePerByte c) (cc_MinTxFee c) (cc_TxWithTimeField c).
Definition client_of_conf (c : CoinConf) : RPCClient :=
  mkRPCClient (bytes_of "http://" ++ cc_Ip c ++ bytes_of ":" ++ dec_string (cc_Port c)) (cc_Username c) (cc_Password c)
    (cc_JSONVersion c) (cc_OmitJSONVersion c) (cc_ContentType c).
Definition dial_conf (exchange : HttpRequest -> option (Z * bytes)) (drawn : bytes -> list json -> Z) (mem : Z) (c : CoinConf) : Connector :=
  RPCConnector exchange drawn (client_of_conf c) (decimalsFromCoin (cc_Coin c)) mem (chain_of_conf c).
