(* ===== verification/WalletLaws.v ===== *)
(** * What the wallet lists is what the chain holds

    A wallet of bitcoin's family prints its amounts with the decimals of the
    coin; encoding/json reads them into [float64], the connector prints and
    parses them again.  [listed_amounts_exact] shows that the way through JSON
    and [float64] loses nothing for amounts below 2^52 base units. *)

From Stdlib Require Import SpecFloat.
From S2P Require Import Prelude Digits GoLib Hex Coin Amount Json Reply HttpLib Price Wallet Float Decimal XAmount Render Unmarshal Round WalletRpc.

#[local] Set Warnings "-register-all".

(** ** An amount with all its decimals *)

Section Fixed.
Variables (d v : Z).
Hypotheses (Hd : 1 <= d <= 18) (Hv : 0 <= v).

Let scale := 10 ^ d.
Let ip := dec_string (v / scale).
Let fp := pad_zeros d (dec_string (v mod scale)).

Lemma scale_pos : 0 < scale < 2 ^ 800.
Proof. subst scale. split; [apply Z.pow_pos_nonneg; lia|]. pose proof (Z.pow_le_mono_r 10 d 18 ltac:(lia) ltac:(lia)). lia. Qed.

Lemma fixed_text : FormatAmountFixed (coin_of_decimals d) v = ip ++ x2e :: fp.
Proof. unfold FormatAmountFixed, Exp10. cbn [Decimals coin_of_decimals]. by rewrite (proj2 (Z.ltb_ge d 0)) by lia. Qed.

Lemma fixed_parts : forallb is_digit ip = true /\ forallb is_digit fp = true /\ zlen fp = d /\ fp <> [] /\
  dec_value ip = v / scale /\ dec_value fp = v mod scale.
Proof.
  pose proof scale_pos. pose proof (Z.mod_pos_bound v scale ltac:(lia)) as Hr. pose proof (Z.div_pos v scale Hv ltac:(lia)).
  assert (forallb is_digit (dec_string (v mod scale)) = true) as Hdig by (apply dec_string_forall; lia).
  destruct (pad_zeros_value d (dec_string (v mod scale)) Hdig) as [Hval Hfp].
  assert (zlen fp = d) as Hl by (apply pad_zeros_length; pose proof (dec_string_length (v mod scale) (Z.to_nat d)) as Hlen; rewrite Z2Nat.id in Hlen by lia; fold scale in Hlen; unfold zlen; lia).
  split_and!; [by apply dec_string_forall|done|done|intros E; pose proof (f_equal zlen E) as E'; rewrite Hl in E'; change (zlen (@nil byte)) with 0 in E'; lia|apply dec_value_string; lia|].
  subst fp. rewrite Hval. apply dec_value_string. lia.
Qed.

Lemma fixed_value : dec_value (ip ++ fp) = v.
Proof.
  destruct fixed_parts as (_ & _ & Hl & _ & Hi & Hf). rewrite dec_value_app, Hi, Hf, Hl. pose proof scale_pos. fold scale.
  pose proof (Z.div_mod v scale). lia.
Qed.

(** It is a literal of JSON's grammar, of the amount's value. *)
Lemma fixed_pieces : jsign [x2d] (ip ++ x2e :: fp) = ([], ip ++ x2e :: fp) /\
  Json.jint (ip ++ x2e :: fp) = Some (ip, x2e :: fp) /\ jfrac (x2e :: fp) = Some (x2e :: fp, []).
Proof.
  destruct fixed_parts as (Hi & Hf & _ & Hne & _). pose proof scale_pos.
  destruct (dec_string_cons (v / scale) ltac:(apply Z.div_pos; lia)) as (a & l & E & Ha & H0). fold ip in E. rewrite E in *. split_and!.
  - destruct a; done.
  - unfold Json.jint. cbn [app expect]. destruct (Byte.eqb a x30) eqn:E0.
    + apply Byte.byte_dec_bl in E0. subst a. by rewrite H0.
    + unfold digits1. change (a :: l ++ x2e :: fp) with ((a :: l) ++ x2e :: fp). by rewrite (span_app _ _ _ _ Hi).
  - unfold jfrac, digits1. cbn [expect]. change (Byte.eqb x2e x2e) with true. cbv iota.
    assert (span is_digit fp = (fp, [])) as ->; [|by cbn [mbind option_bind]; rewrite bool_decide_false].
    clear -Hf. induction fp as [|b r IH]; [done|]. cbn in *. apply andb_true_iff in Hf as [Hb Hr]. by rewrite Hb, (IH Hr).
Qed.

Lemma fixed_num_ok : num_ok (FormatAmountFixed (coin_of_decimals d) v) = true.
Proof.
  rewrite fixed_text. unfold num_ok, jnumber. destruct fixed_pieces as (-> & -> & E). cbn [mbind option_bind]. rewrite E. cbn [mbind option_bind].
  apply bool_decide_eq_true. cbn. by rewrite app_nil_r.
Qed.

Lemma fixed_float : v < 2 ^ 52 -> float_of_number (FormatAmountFixed (coin_of_decimals d) v) = Some (f64_ratio v scale).
Proof.
  intros Hm. rewrite fixed_text. unfold float_of_number, num_value. destruct fixed_pieces as (-> & -> & E).
  cbn [mbind option_bind]. rewrite E. cbn [mbind option_bind jexp jsign drop]. cbv beta iota.
  rewrite drop_0, fixed_value. destruct fixed_parts as (_ & _ & -> & _). change (bool_decide ([] = [])) with true. cbn [negb].
  rewrite (proj2 (Z.leb_gt 0 (0 - d))) by lia. replace (- (0 - d)) with d by lia. fold scale.
  assert (f64_finite (f64_ratio v scale) = true) as ->; [|done]. pose proof scale_pos.
  destruct (decide (v = 0)) as [-> | Hne]; [by destruct scale|]. destruct (ratio_rounded v scale) as (m & e & -> & _); [lia..|nia|done].
Qed.

(** The connector's way from the [float64] back to the amount. *)
Lemma float_survives f num den : v < 2 ^ 64 -> f64_frac f = Some (false, num, den) -> round_half_even (num * scale) den = v ->
  amountFloatToBase d f = inl v.
Proof.
  intros Hm Hf Hr. pose proof scale_pos as HS. unfold amountFloatToBase. assert (FormatFloat_f (Z.to_nat d) f = ip ++ [x2e] ++ fp) as ->.
  { unfold FormatFloat_f. rewrite Z2Nat.id by lia. fold scale. rewrite Hf, Hr.
    rewrite (proj2 (Nat.eqb_neq _ _)) by lia. cbn [app]. f_equal. f_equal. unfold fp, pad_left, pad_zeros. do 2 f_equal. unfold zlen. lia. }
  destruct fixed_parts as (Hi & Hfp & Hl & Hne & Vi & Vf). rewrite parse_frac by (cbn; done || lia). cbn [Decimals coin_of_decimals].
  rewrite Hl, Z.ltb_irrefl. unfold amount_value, in_uint64. cbn [Decimals coin_of_decimals]. rewrite Hl, Z.sub_diag, Vi, Vf. fold scale.
  assert (v / scale * scale + v mod scale * 10 ^ 0 = v) as -> by (pose proof (Z.div_mod v scale); lia).
  by rewrite (proj2 (Z.ltb_lt _ _)) by lia.
Qed.

Lemma amount_survives : v < 2 ^ 52 -> amountFloatToBase d (f64_ratio v scale) = inl v.
Proof.
  intros Hm. destruct (amount_digits v scale 1) as (num & den & Hf & _ & Hr); [lia..|exact scale_pos|]. rewrite !Z.mul_1_r in Hr.
  eapply float_survives; [lia|done|done].
Qed.

(** What the signer is told of a previous output, without trailing zeros, is
    worth the amount again. *)
Lemma base_float_roundtrip : v < 2 ^ 52 -> exists f, amountBaseToFloat d v = inl f /\ amountFloatToBase d f = inl v.
Proof.
  intros Hm. pose proof scale_pos as HS. destruct fixed_parts as (Hi & Hf & Hl & Hne & Vi & Vf).
  assert (exists v' k, 0 <= v' /\ 0 <= k <= d /\ v' * 10 ^ k = v /\ amountBaseToFloat d v = inl (f64_ratio v' (10 ^ (d - k)))) as (v' & k & Hv' & Hk & Ev & ->).
  { assert (Exp10 d = scale) as Esc by (unfold Exp10; by rewrite (proj2 (Z.ltb_ge d 0)) by lia).
    unfold amountBaseToFloat, FormatAmount. cbn [Decimals coin_of_decimals]. rewrite Esc. fold ip fp. unfold ParseFloat, split_dot.
    assert (x2e ∉ ip) as Hdot by by apply dot_not_digits. assert (ip <> []) as Hip by (apply dec_string_nonempty, Z.div_pos; lia).
    destruct (v mod scale =? 0) eqn:E; zbool.
    - exists (v / scale), d. pose proof (Z.div_mod v scale). pose proof (Z.div_pos v scale). split_and!; [lia..|fold scale; lia|].
      rewrite (proj2 (IndexByte_None ip x2e)) by done. rewrite app_nil_r, (proj2 (all_digits_true ip)) by done. rewrite Vi, Z.sub_diag. done.
    - destruct (TrimRightZeros_split fp) as (k & Efp). set (t := TrimRightZeros fp) in *.
      assert (forallb is_digit t = true) as Ht by (rewrite Efp, forallb_app in Hf; by apply andb_true_iff in Hf as [? _]).
      assert (zlen t = d - Z.of_nat k) as Elt by (rewrite Efp, zlen_app in Hl; unfold zlen in *; rewrite repeat_length in Hl; lia).
      exists (dec_value (ip ++ t)), (Z.of_nat k). pose proof (dec_value_bound (ip ++ t)) as Hb. rewrite forallb_app, Hi, Ht in Hb. specialize (Hb eq_refl).
      split_and!; [lia..|unfold zlen in Elt; lia| |].
      + pose proof fixed_value as Efv. assert (ip ++ fp = (ip ++ t) ++ repeat x30 k) as Eip by (rewrite <- app_assoc; f_equal; exact Efp).
        rewrite Eip, dec_value_app in Efv. rewrite <- Efv. unfold zlen. rewrite repeat_length.
        assert (dec_value (repeat x30 k) = 0) as ->; [|lia]. rewrite <- (app_nil_r (repeat x30 k)). by rewrite dec_value_zeros.
      + cbn [app]. rewrite IndexByte_app by done. rewrite take_app_length. change (ip ++ x2e :: t) with (ip ++ [x2e] ++ t).
        rewrite app_assoc, (drop_app_len (ip ++ [x2e]) t) by (rewrite length_app; cbn; lia).
        rewrite (proj2 (all_digits_true (ip ++ t))) by (rewrite forallb_app, Hi, Ht; by destruct ip). by rewrite Elt. }
  pose proof (Z.pow_pos_nonneg 10 k ltac:(lia) ltac:(lia)). pose proof (Z.pow_pos_nonneg 10 (d - k) ltac:(lia) ltac:(lia)).
  assert (10 ^ (d - k) * 10 ^ k = scale) as Es by (rewrite <- Z.pow_add_r by lia; unfold scale; f_equal; lia).
  eexists. split; [done|]. destruct (amount_digits v' (10 ^ (d - k)) (10 ^ k)) as (num & den & Hfr & _ & Hr); [lia..|nia|].
  rewrite Ev, Es in Hr. eapply float_survives; [lia|done|done].
Qed.
End Fixed.

(** ** Integers *)

Lemma d_num_jint lo hi c x : lo <= c < hi -> lo <= 0 -> d_num lo hi (Render.jint c) x = (c, true).
Proof.
  intros Hc Hlo. unfold d_num, scalar, Render.jint, int_of_number.
  pose proof (dec_string_digits (Z.abs c) ltac:(lia)) as Hdig. destruct (dec_string_cons (Z.abs c) ltac:(lia)) as (a & l & E & Ha & _).
  destruct (c <? 0) eqn:En; zbool.
  - rewrite (proj2 (Z.ltb_lt lo 0)) by lia. cbn [app jsign existsb]. change (Byte.eqb x2d x2d) with true. cbn [orb]. rewrite Hdig.
    rewrite bool_decide_false by done. rewrite dec_value_string by lia. replace (- Z.abs c) with c by lia.
    by rewrite (proj2 (Z.leb_le _ _)), (proj2 (Z.ltb_lt _ _)) by lia.
  - assert (jsign (if lo <? 0 then [x2d] else []) ([] ++ dec_string (Z.abs c)) = ([], dec_string (Z.abs c))) as ->.
    { cbn [app]. rewrite E in *. destruct (lo <? 0); [destruct a|]; done. }
    rewrite Hdig, bool_decide_true by done. rewrite dec_value_string by lia. replace (Z.abs c) with c by lia.
    by rewrite (proj2 (Z.leb_le _ _)), (proj2 (Z.ltb_lt _ _)) by lia.
Qed.

(** ** Structs *)

Lemma d_member_at {A} (fields : list (bytes * decoder A)) x o k v (dec : decoder A) y ok :
  find_member fields (bytes_of k) = Some dec -> dec v x = (y, ok) -> d_member fields (x, o) (fld k v) = (y, o && ok).
Proof. intros Hf Hdec. unfold d_member, fld. cbn [fst snd]. by rewrite Hf, Hdec. Qed.

Lemma member_at {A B} (get : A -> B) (set : B -> A -> A) (dec : decoder B) v x b ok :
  dec v (get x) = (b, ok) -> (let '(b, ok) := dec v (get x) in (set b x, ok)) = (set b x, ok).
Proof. by intros ->. Qed.

(** ** The outputs of a wallet and the reply that lists them *)

Record coin_output := mkOutput {
  co_TxID : bytes;
  co_Vout : Z;
  co_Address : bytes;
  co_Amount : Z;
  co_Script : bytes;
  co_Confirmations : Z;
  co_Spendable : bool;
}.

(** UTF-8 text is read as it was written. *)
Definition text_ok (s : bytes) : Prop := coerce (length s) s = s.

Definition output_ok (o : coin_output) : Prop :=
  text_ok (co_TxID o) /\ text_ok (co_Address o) /\ text_ok (co_Script o) /\ 0 <= co_Vout o < 2 ^ 32 /\
  0 < co_Amount o < 2 ^ 52 /\ - 2 ^ 63 <= co_Confirmations o < 2 ^ 63.

Section Listing.
Variable d : Z.
Hypothesis Hd : 1 <= d <= 18.

Definition output_json (o : coin_output) : json := JObj [
  fld "txid" (JStr (co_TxID o)); fld "vout" (Render.jint (co_Vout o)); fld "address" (JStr (co_Address o));
  fld "amount" (JNum (FormatAmountFixed (coin_of_decimals d) (co_Amount o))); fld "scriptPubKey" (JStr (co_Script o));
  fld "confirmations" (Render.jint (co_Confirmations o)); fld "spendable" (JBool (co_Spendable o))].

Definition reply_json (id : bytes) (result : json) : json := JObj [fld "result" result; fld "error" JNull; fld "id" (JStr id)].

(** What the connector is to report of an output. *)
Definition whole_coins (o : coin_output) : f64 := f64_ratio (co_Amount o) (10 ^ d).
Definition native_utxo (o : coin_output) : Utxo :=
  mkUtxo (co_TxID o) (co_Vout o) (co_Address o) (co_Amount o) (whole_coins o) (co_Script o) (co_Confirmations o).
Definition fundable (minConf : Z) (zeroConf : bool) (o : coin_output) : bool :=
  co_Spendable o && (0 <=? co_Confirmations o) && (zeroConf || (0 <? co_Confirmations o)) && (minConf <=? co_Confirmations o).

Definition read_output (o : coin_output) : rpcUtxo :=
  mkRpcUtxo (co_TxID o) (co_Vout o) (co_Address o) (whole_coins o) (co_Script o) (Some (co_Confirmations o)) (Some (co_Spendable o)).

Lemma d_utxo_reads o : output_ok o -> d_utxo (output_json o) no_rpcUtxo = (read_output o, true).
Proof.
  intros (_ & _ & _ & Hn & Ha & Hc). unfold d_utxo, output_json, d_struct. cbn [fold_left].
  repeat (erewrite d_member_at; [|reflexivity|]; cycle 1; [first [reflexivity
    | apply member_at, d_num_jint; lia
    | eapply member_at; cbn [d_float scalar]; rewrite fixed_float by lia; reflexivity
    | eapply member_at; unfold d_ptr, Render.jint; fold (Render.jint (co_Confirmations o)); unfold d_int; rewrite d_num_jint by lia; reflexivity]|]).
  reflexivity.
Qed.

Lemma d_elements_reads {A B} (zero : A) (dec : decoder A) (js : B -> json) (val : B -> A) l :
  Forall (fun o => dec (js o) zero = (val o, true)) l -> d_elements zero dec (map js l) [] = (map val l, true).
Proof. induction 1 as [|o l Ho _ IH]; [done|]. cbn [map d_elements head tail default]. unfold id. by rewrite Ho, IH. Qed.

(** *** The reply through the text *)

Lemma output_json_ok o : output_ok o -> json_ok (output_json o) = true /\ norm (output_json o) = output_json o /\ depth (output_json o) = 1.
Proof.
  intros (H1 & H2 & H3 & Hn & Ha & Hc). split_and!; [| |reflexivity].
  - cbn [output_json json_ok forallb snd fld]. rewrite !jint_ok, fixed_num_ok by lia. done.
  - unfold output_json. cbn [norm map fld fst snd]. by rewrite H1, H2, H3.
Qed.

Lemma reply_reads html id result : json_ok result = true -> norm result = result -> 0 <= depth result <= 9999 -> text_ok id ->
  Unmarshal d_response (write_json html (reply_json id result)) no_response = (mkResponse (Some result) None id, true).
Proof.
  intros Hok Hn Hdp Hid. unfold Unmarshal. rewrite <- (app_nil_r (write_json _ _)).
  rewrite write_json_roundtrip; [| |unfold maxNestingDepth|by left].
  - unfold reply_json. cbn [norm map fld fst snd]. rewrite Hn, Hid. unfold d_response, d_struct. cbn [fold_left].
    repeat (erewrite (d_member_at _ _ _ _ _ _); [|reflexivity|reflexivity]). reflexivity.
  - unfold reply_json. cbn [json_ok forallb snd fld]. by rewrite Hok.
  - unfold reply_json. cbn [depth fold_right snd fld]. lia.
Qed.
End Listing.

Lemma reply_outputs d outs : Forall output_ok outs -> 1 <= d <= 18 ->
  json_ok (JArr (map (output_json d) outs)) = true /\ norm (JArr (map (output_json d) outs)) = JArr (map (output_json d) outs) /\
  0 <= depth (JArr (map (output_json d) outs)) <= 9999.
Proof.
  intros H Hd. cbn [json_ok norm depth]. assert (forallb json_ok (map (output_json d) outs) = true /\
    map norm (map (output_json d) outs) = map (output_json d) outs /\
    0 <= fold_right (fun w m => Z.max (depth w) m) 0 (map (output_json d) outs) <= 1) as (H1 & H2 & H3).
  { induction H as [|o outs Ho _ (IH1 & IH2 & IH3)]; [done|]. destruct (output_json_ok d Hd o Ho) as (E1 & E2 & E3).
    cbn [map forallb fold_right]. rewrite E1, E2, E3, IH1, IH2. split_and!; [done|done|lia..]. }
  split_and!; [done|by f_equal|lia..].
Qed.

Lemma listed_fundable d o minConf zeroConf : output_ok o -> 1 <= d <= 18 ->
  listed minConf zeroConf (read_output d o) = fundable minConf zeroConf o.
Proof.
  intros (_ & _ & _ & _ & Ha & _) Hd. unfold listed, fundable, read_output. cbn [ru_Spendable ru_Amount ru_Confirmations].
  assert (f64_le (whole_coins d o) f64_zero = false) as ->.
  { unfold whole_coins. pose proof (scale_pos d Hd). destruct (ratio_rounded (co_Amount o) (10 ^ d)) as (m & e & -> & _); [lia..|nia|done]. }
  rewrite !Z.leb_antisym, (Z.ltb_antisym 0), (Z.ltb_antisym minConf). rewrite !Z.leb_antisym.
  assert (bool_decide (Some (co_Spendable o) = Some false) = negb (co_Spendable o)) as -> by (by destruct (co_Spendable o)).
  by destruct (co_Spendable o), zeroConf, (co_Confirmations o <? 0), (0 <? co_Confirmations o), (co_Confirmations o <? minConf).
Qed.

Lemma filter_reads d outs minConf zeroConf : Forall output_ok outs -> 1 <= d <= 18 ->
  map_w (to_utxo d) (List.filter (listed minConf zeroConf) (map (read_output d) outs)) =
    inl (map (native_utxo d) (List.filter (fundable minConf zeroConf) outs)).
Proof.
  intros H Hd. induction H as [|o outs Ho _ IH]; [done|]. cbn [map List.filter]. rewrite listed_fundable by done.
  destruct (fundable minConf zeroConf o); [|done]. cbn [map_w map]. rewrite IH. destruct Ho as (_ & _ & _ & _ & Ha & _).
  assert (to_utxo d (read_output d o) = inl (native_utxo d o)) as ->; [|done].
  unfold to_utxo, read_output, whole_coins. cbn [ru_Amount]. by rewrite amount_survives by lia.
Qed.

(** C24. Nothing of an amount is lost between the wallet and the daemon: when
    the wallet answers [listunspent] with outputs of fewer than 2^52 base units
    each, printed with the decimals of the coin, the connector lists exactly the
    spendable ones that are not conflicted and confirmed as asked for, each with
    its exact amount in base units, although the amounts travel as JSON numbers
    and [float64] whole coins; and the whole coins it names to the wallet's signer
    for such an output read back as the same amount. *)
Theorem listed_amounts_exact (exchange : HttpRequest -> option (Z * bytes)) (drawn : bytes -> list json -> Z) (cli : RPCClient)
    (d : Z) (outs : list coin_output) (minConf : Z) (zeroConf html : bool) (id : bytes) :
  1 <= d <= 18 -> Forall output_ok outs -> text_ok id ->
  exchange (request drawn cli (bytes_of "listunspent") []) = Some (200, write_json html (reply_json id (JArr (map (output_json d) outs)))) ->
  listUnspentFiltered exchange drawn cli d minConf zeroConf = inl (map (native_utxo d) (List.filter (fundable minConf zeroConf) outs)) /\
  Forall (fun o => exists f, amountBaseToFloat d (co_Amount o) = inl f /\ amountFloatToBase d f = inl (co_Amount o)) outs.
Proof.
  intros Hd Ho Hid Hx. destruct (reply_outputs d outs Ho Hd) as (H1 & H2 & H3). split.
  - unfold listUnspentFiltered, Call, call. rewrite Hx. change (200 =? 401) with false. cbv iota. rewrite reply_reads by done.
    cbn [negb rp_Error rp_Result d_list]. rewrite (d_elements_reads no_rpcUtxo d_utxo (output_json d) (read_output d)).
    + cbn [mbind wres_bind]. by apply filter_reads.
    + eapply Forall_impl; [exact Ho|]. intros o. by apply d_utxo_reads.
  - eapply Forall_impl; [exact Ho|]. intros o (_ & _ & _ & _ & Ha & _). by apply base_float_roundtrip; lia.
Qed.

(** A wallet with a confirmed, a pending, a locked and a conflicted output, and 21 million coins. *)
Definition sample_outputs : list coin_output :=
  let out n amount confs spendable := mkOutput (repeat x61 64) n (bytes_of "addr") amount (bytes_of "76a9") confs spendable in
  [out 0 1 6 true; out 1 150000000 0 true; out 2 7 6 false; out 3 9 (-1) true; out 4 2100000000000000 100 true].
Definition sample_client : RPCClient := mkRPCClient (bytes_of "http://127.0.0.1:8332") (bytes_of "user") (bytes_of "pass") (bytes_of "1.0") false [].
Definition sample_exchange (q : HttpRequest) : option (Z * bytes) :=
  if bool_decide (rq_body q = json_text "{'jsonrpc':'1.0','id':'xbg-0','method':'listunspent','params':[]}")
  then Some (200, write_json false (reply_json (bytes_of "xbg-0") (JArr (map (output_json 8) sample_outputs)))) else None.

Lemma listed_amounts_exact_witness :
  listUnspentFiltered sample_exchange (fun _ _ => 0) sample_client 8 1 false =
    inl (map (native_utxo 8) (List.filter (fundable 1 false) sample_outputs)) /\
  map u_Amount (map (native_utxo 8) (List.filter (fundable 1 false) sample_outputs)) = [1; 2100000000000000].
Proof.
  split; [|by vm_compute].
  apply (listed_amounts_exact sample_exchange (fun _ _ => 0) sample_client 8 sample_outputs 1 false false (bytes_of "xbg-0")); [lia| |by vm_compute..].
  repeat constructor; try (by vm_compute); cbn; lia.
Defined.

(** ** The calls on answers of a node *)

Section Calls.
Let answer (table : list (string * string)) (q : HttpRequest) : option (Z * bytes) :=
  match parse_json (rq_body q) with
  | Some (JObj l) =>
      match map_get l (bytes_of "method") with
      | Some (JStr m) => (fun kv => (200, json_text kv.2)) <$> List.find (fun kv => bool_decide (bytes_of kv.1 = m)) table
      | _ => None
      end
  | _ => None
  end.
Let on {A} (table : list (string * string)) (f : (HttpRequest -> option (Z * bytes)) -> (bytes -> list json -> Z) -> RPCClient -> A) : A :=
  f (answer table) (fun _ _ => 0) sample_client.

Example wallet_calls :
  request_body (fun _ _ => 7) sample_client (bytes_of "sendrawtransaction") [JStr (bytes_of "00")] =
    json_text "{'jsonrpc':'1.0','id':'xbg-7','method':'sendrawtransaction','params':['00']}" /\
  on [("getbalance", "{'result':1.5,'error':null,'id':'x'}")]%string (fun x n c => GetBalance x n c 8) = inl 150000000 /\
  (* an id that is not a string fails the call *)
  on [("getbalance", "{'result':1.5,'id':1}")]%string (fun x n c => GetBalance x n c 8) = fail /\
  (* without getbalance the confirmed outputs are summed; any other error is kept *)
  on [("getbalance", "{'error':{'code':-32601,'message':'no'}}"); ("listunspent", "{'result':[{'amount':0.3,'confirmations':2},{'amount':1,'confirmations':0},{'amount':0.1}]}")]%string
    (fun x n c => GetBalance x n c 8) = inl 40000000 /\
  on [("getbalance", "{'error':{'code':-18}}")]%string (fun x n c => GetBalance x n c 8) = inr (rpc_error (-18)) /\
  (* an answer of the first signing method that does not decode is completed by the second *)
  on [("signrawtransaction", "{'result':{'hex':'aa','complete':1}}"); ("signrawtransactionwithwallet", "{'result':{'complete':true}}")]%string
    (fun x n c => SignRawTransaction x n c 8 [] []) = inl (bytes_of "aa", true) /\
  on [("getblock", "{'result':{'tx':[{'txid':'a','vin':[{'txid':'b','vout':1}]}]}}")]%string (fun x n c => GetBlockTxs x n c (repeat x00 32)) =
    inl [mkBlockTx (bytes_of "a") [mkBlockVin (bytes_of "b") 1]] /\
  on [("getblock", "{'result':{'tx':['a']}}")]%string (fun x n c => GetBlockTxs x n c (repeat x00 32)) = fail /\
  on [("gettxout", "{'result':null}")]%string (fun x n c => (GetTxOut x n c [] 0, getTxOutConfirmations x n c [] 0)) = (inl None, None).
Proof. by vm_compute. Qed.
End Calls.

(** From 2^26 whole coins of eight decimals on, the neighbours of a [float64] are
    more than one base unit apart: the connector reports, and would sign for, an
    amount that is one unit off. *)
Example large_amount_off :
  float_of_number (bytes_of "67108864.00000002") = Some (f64_ratio 6710886400000002 100000000) /\
  amountFloatToBase 8 (f64_ratio 6710886400000002 100000000) = inl 6710886400000001.
Proof. by vm_compute. Qed.
