(* ===== verification/JsonRow.v ===== *)
(** * Go structs through encoding/json

    A struct is described by its fields: their JSON names, whether a zero value
    is left out, and their kinds (booleans, integers at their width, floats,
    strings, byte arrays, and slices of flat structs).  [enc_struct] is
    [json.Marshal], [d_row] is [json.Unmarshal], and [struct_roundtrip] shows
    that what was written into a zero struct reads back, for every description
    whose names are distinct. *)

From Stdlib Require Import SpecFloat.
From S2P Require Import Prelude GoLib Json Reply HttpLib Price Wallet Float Decimal Render Unmarshal WalletRpc WalletLaws.

#[local] Set Warnings "-register-all".

(** ** Kinds and values *)

Inductive skind := KBool | KNum (lo hi : Z) | KFloat | KStr | KArr (n : nat).
Inductive sval := VBool (b : bool) | VNum (z : Z) | VFloat (f : f64) | VStr (s : bytes) | VArr (b : bytes).

(** [int], [uint8], [uint32], [uint64] *)
Definition KInt : skind := KNum (- 2 ^ 63) (2 ^ 63).
Definition KU8 : skind := KNum 0 256.
Definition KU32 : skind := KNum 0 (2 ^ 32).
Definition KU64 : skind := KNum 0 (2 ^ 64).

Definition zero_s (k : skind) : sval :=
  match k with
  | KBool => VBool false | KNum _ _ => VNum 0 | KFloat => VFloat f64_zero | KStr => VStr [] | KArr n => VArr (repeat x00 n)
  end.

Definition byte_json (b : byte) : json := Render.jint (byte.unsigned b).

Definition enc_s (v : sval) : json :=
  match v with
  | VBool b => JBool b
  | VNum z => Render.jint z
  | VFloat f => JNum (json_float f)
  | VStr s => JStr s
  | VArr b => JArr (map byte_json b)
  end.

(** A fixed array: missing elements are zeroed, extra ones skipped. *)
Fixpoint d_bytes (l : list json) (b : bytes) : bytes * bool :=
  match b with
  | [] => ([], true)
  | x :: b =>
      match l with
      | [] => (x00 :: repeat x00 (length b), true)
      | v :: l =>
          let '(z, ok) := d_num 0 256 v (byte.unsigned x) in
          let '(r, ok') := d_bytes l b in
          (byte.of_Z z :: r, ok && ok')
      end
  end.

Definition d_array : decoder bytes := fun v x =>
  match v with JNull => (x, true) | JArr l => d_bytes l x | _ => (x, false) end.

Definition d_s (k : skind) : decoder sval := fun v x =>
  match k, x with
  | KBool, VBool b => let '(b, ok) := d_bool v b in (VBool b, ok)
  | KNum lo hi, VNum z => let '(z, ok) := d_num lo hi v z in (VNum z, ok)
  | KFloat, VFloat f => let '(f, ok) := d_float v f in (VFloat f, ok)
  | KStr, VStr s => let '(s, ok) := d_string v s in (VStr s, ok)
  | KArr _, VArr b => let '(b, ok) := d_array v b in (VArr b, ok)
  | _, _ => (x, false)
  end.

(** The values a Go variable of the kind can hold; of texts the ones in UTF-8,
    of floats the ones whose shortest decimal reads back. *)
Definition s_ok (k : skind) (v : sval) : Prop :=
  match k, v with
  | KBool, VBool _ => True
  | KNum lo hi, VNum z => lo <= z < hi /\ lo <= 0
  | KFloat, VFloat f => num_ok (json_float f) = true /\ float_of_number (json_float f) = Some f
  | KStr, VStr s => text_ok s
  | KArr n, VArr b => length b = n
  | _, _ => False
  end.

(** ** Structs over any kinds of members *)

Section Members.
Context {K V : Type} (name : K -> bytes) (dec : K -> decoder V) (enc : K -> V -> json) (omit : K -> V -> bool) (zero : K -> V) (ok : K -> V -> Prop).

(** A member for the field of that name. *)
Fixpoint put (sch : list K) (k : bytes) (v : json) (row : list V) : list V * bool :=
  match sch, row with
  | f :: sch, x :: row =>
      if bool_decide (fold_ascii (name f) = fold_ascii k) then let '(x, good) := dec f v x in (x :: row, good)
      else let '(row, good) := put sch k v row in (x :: row, good)
  | _, _ => (row, true)
  end.

Definition put_member (sch : list K) (acc : list V * bool) (kv : bytes * json) : list V * bool :=
  let '(row, good) := put sch kv.1 kv.2 acc.1 in (row, acc.2 && good).

Definition d_row (sch : list K) : decoder (list V) := fun v row =>
  match v with
  | JNull => (row, true)
  | JObj l => fold_left (put_member sch) l (row, true)
  | _ => (row, false)
  end.

Fixpoint enc_members (sch : list K) (row : list V) : list (bytes * json) :=
  match sch, row with
  | f :: sch, x :: row => (if omit f x then [] else [(name f, enc f x)]) ++ enc_members sch row
  | _, _ => []
  end.

Definition enc_struct (sch : list K) (row : list V) : json := JObj (enc_members sch row).

Definition zero_row (sch : list K) : list V := map zero sch.

Hypothesis dec_enc : forall k v, ok k v -> dec k (enc k v) (zero k) = (v, true).
Hypothesis omit_zero : forall k v, ok k v -> omit k v = true -> v = zero k.

Lemma put_at s1 r1 f v x s2 r2 : length s1 = length r1 -> fold_ascii (name f) ∉ map (fun f => fold_ascii (name f)) s1 ->
  put (s1 ++ f :: s2) (name f) v (r1 ++ x :: r2) = let '(y, good) := dec f v x in (r1 ++ y :: r2, good).
Proof.
  revert r1; induction s1 as [|g s1 IH]; intros [|y r1]; try done; cbn [app put map].
  - intros _ _. by rewrite bool_decide_true.
  - intros [= Hl] Hn. apply not_elem_of_cons in Hn as [Hne Hn]. rewrite bool_decide_false by congruence.
    rewrite IH by done. by destruct (dec f v x).
Qed.

(** A struct reads back as it was written. *)
Lemma struct_roundtrip sch row : NoDup (map (fun f => fold_ascii (name f)) sch) -> Forall2 ok sch row ->
  d_row sch (enc_struct sch row) (zero_row sch) = (row, true).
Proof.
  intros Hnd H. cbn [d_row enc_struct]. change (zero_row sch) with ([] ++ zero_row sch). change row with ([] ++ row) at 2.
  assert (forall s1 r1 s2 r2, length s1 = length r1 -> NoDup (map (fun f => fold_ascii (name f)) (s1 ++ s2)) -> Forall2 ok s2 r2 ->
    fold_left (put_member (s1 ++ s2)) (enc_members s2 r2) (r1 ++ zero_row s2, true) = (r1 ++ r2, true)) as Hgen.
  { clear -dec_enc omit_zero. intros s1 r1 s2 r2 Hl Hnd H. revert s1 r1 Hl Hnd. induction H as [|f x s2 r2 Hx H IH]; intros s1 r1 Hl Hnd; [done|].
    assert (fold_ascii (name f) ∉ map (fun f => fold_ascii (name f)) s1) as Hnot.
    { rewrite map_app in Hnd. apply NoDup_app in Hnd as (_ & Hd & _). intros Hin. apply (Hd _ Hin). cbn. set_solver. }
    specialize (IH (s1 ++ [f]) (r1 ++ [x])). rewrite <- !app_assoc in IH. cbn [app] in IH.
    rewrite !length_app in IH. specialize (IH ltac:(cbn; lia) Hnd). cbn [enc_members zero_row map].
    destruct (omit f x) eqn:E; cbn [app].
    - rewrite <- (omit_zero _ _ Hx E). exact IH.
    - cbn [fold_left]. unfold put_member at 2. cbn [fst snd]. rewrite put_at by done. rewrite dec_enc by done. exact IH. }
  by apply (Hgen [] [] sch row).
Qed.

(** *** Its text *)

Hypothesis enc_ok : forall k v, ok k v -> json_ok (enc k v) = true /\ norm (enc k v) = enc k v.

Lemma struct_text sch row n : Forall (fun f => text_ok (name f)) sch -> Forall2 ok sch row ->
  (forall k v, ok k v -> 0 <= depth (enc k v) <= n) -> 0 <= n ->
  json_ok (enc_struct sch row) = true /\ norm (enc_struct sch row) = enc_struct sch row /\ 0 <= depth (enc_struct sch row) <= n + 1.
Proof.
  intros Hnm H Hdep Hn. unfold enc_struct. cbn [json_ok norm depth].
  assert (forallb (fun kv : bytes * json => json_ok kv.2) (enc_members sch row) = true /\
    map (fun kv : bytes * json => (coerce (length kv.1) kv.1, norm kv.2)) (enc_members sch row) = enc_members sch row /\
    0 <= fold_right (fun (kv : bytes * json) d => Z.max (depth kv.2) d) 0 (enc_members sch row) <= n) as (E1 & E2 & E3).
  { induction H as [|f x sch row Hx H IH]; [cbn; split_and!; done || lia|]. apply Forall_cons_1 in Hnm as [Hf Hnm]. destruct (IH Hnm) as (IH1 & IH2 & IH3).
    cbn [enc_members]. destruct (omit f x); cbn [app]; [exact (conj IH1 (conj IH2 IH3))|]. destruct (enc_ok f x Hx) as [Ho He]. specialize (Hdep f x Hx).
    cbn [forallb map fold_right fst snd]. rewrite Ho, He, Hf, IH1, IH2. split_and!; [done|done|lia..]. }
  rewrite E2. split_and!; [done|done|lia..].
Qed.
End Members.

(** ** Flat structs *)

Definition col : Type := string * skind.
Definition col_name (c : col) : bytes := bytes_of c.1.
Definition s_keep (_ : col) (_ : sval) : bool := false.
Definition d_cells (cols : list col) : decoder (list sval) := d_row col_name (fun c => d_s c.2) cols.
Definition enc_cells (cols : list col) (cells : list sval) : json := enc_struct col_name (fun _ => enc_s) s_keep cols cells.
Definition zero_cells (cols : list col) : list sval := zero_row (fun c => zero_s c.2) cols.
Definition cells_ok (cols : list col) (cells : list sval) : Prop := Forall2 (fun c => s_ok c.2) cols cells.

(** Names are distinct up to case, and plain text. *)
Definition names_ok (names : list bytes) : Prop := NoDup (map fold_ascii names) /\ Forall text_ok names.

(** ** Structs with slices of flat structs *)

Inductive kind := Scalar (k : skind) | Rows (cols : list col).
(** [Many None] is the nil slice. *)
Inductive value := One (v : sval) | Many (l : option (list (list sval))).
Record field := mkField { fd_name : string; fd_omitempty : bool; fd_kind : kind }.
Definition field_name (f : field) : bytes := bytes_of (fd_name f).

(** [omitempty] is only used on scalars here. *)
Definition s_empty (v : sval) : bool :=
  match v with VBool b => negb b | VNum z => z =? 0 | VStr s => bool_decide (s = []) | VFloat _ | VArr _ => false end.
Definition omitted (f : field) (v : value) : bool := fd_omitempty f && match v with One v => s_empty v | Many _ => false end.

Definition d_value (f : field) : decoder value := fun v x =>
  match fd_kind f, x with
  | Scalar k, One s => let '(s, good) := d_s k v s in (One s, good)
  | Rows cols, Many l => let '(l, good) := d_slice (zero_cells cols) (d_cells cols) v l in (Many l, good)
  | _, _ => (x, false)
  end.

Definition zero_value (f : field) : value := match fd_kind f with Scalar k => One (zero_s k) | Rows _ => Many None end.

Definition enc_value (f : field) (v : value) : json :=
  match fd_kind f, v with
  | Rows cols, Many (Some l) => JArr (map (enc_cells cols) l)
  | _, One s => enc_s s
  | _, _ => JNull
  end.

Definition value_ok (f : field) (v : value) : Prop :=
  match fd_kind f, v with
  | Scalar k, One s => s_ok k s
  | Rows cols, Many None => True
  | Rows cols, Many (Some l) => names_ok (map col_name cols) /\ Forall (cells_ok cols) l
  | _, _ => False
  end.

(** ** Round trips *)

Lemma d_bytes_map b x : length x = length b -> d_bytes (map byte_json b) x = (b, true).
Proof.
  revert x; induction b as [|c b IH]; intros [|y x]; try done. intros [= Hl]. cbn [map d_bytes]. unfold byte_json at 1.
  rewrite d_num_jint by (pose proof (byte.unsigned_range c); lia). rewrite IH by done. by rewrite byte.of_Z_unsigned.
Qed.

Lemma s_roundtrip k v : s_ok k v -> d_s k (enc_s v) (zero_s k) = (v, true).
Proof.
  destruct k, v; cbn [s_ok d_s enc_s zero_s]; try done.
  - intros [H1 H2]. by rewrite d_num_jint.
  - intros [_ H]. unfold d_float, scalar. by rewrite H.
  - intros H. unfold d_array. rewrite d_bytes_map; [done|]. by rewrite repeat_length.
Qed.

Lemma s_text k v : s_ok k v -> json_ok (enc_s v) = true /\ norm (enc_s v) = enc_s v /\ 0 <= depth (enc_s v) <= 1.
Proof.
  destruct k, v; cbn [s_ok enc_s]; try done; intros H.
  - cbn. split_and!; [by apply jint_ok|done|lia..].
  - cbn. split_and!; [apply H|done|lia..].
  - cbn. split_and!; [done|by f_equal|lia..].
  - cbn [json_ok norm depth]. split_and!.
    + clear H. induction b as [|x b IH]; [done|]. cbn [map forallb]. rewrite IH. unfold byte_json. by rewrite jint_ok.
    + f_equal. rewrite map_map. by apply map_ext.
    + clear H. induction b as [|x b IH]; cbn in *; lia.
    + clear H. induction b as [|x b IH]; cbn in *; lia.
Qed.

Lemma s_empty_zero k v : s_ok k v -> s_empty v = true -> v = zero_s k.
Proof.
  destruct k, v; cbn; try done; intros H E.
  - by destruct b.
  - by apply Z.eqb_eq in E as ->.
  - by apply bool_decide_eq_true in E as ->.
Qed.

Lemma names_ok_cols {K} (name : K -> bytes) sch : names_ok (map name sch) ->
  NoDup (map (fun f => fold_ascii (name f)) sch) /\ Forall (fun f => text_ok (name f)) sch.
Proof. intros [H1 H2]. rewrite map_map in H1. split; [exact H1|]. exact (proj1 (Forall_map _ _ _) H2). Qed.

Lemma cells_roundtrip cols cells : names_ok (map col_name cols) -> cells_ok cols cells ->
  d_cells cols (enc_cells cols cells) (zero_cells cols) = (cells, true).
Proof.
  intros [H1 _]%names_ok_cols H. apply (struct_roundtrip _ _ _ _ _ (fun c : col => s_ok c.2)); try done.
  intros k v Hv. by apply s_roundtrip.
Qed.

Lemma cells_text cols cells : names_ok (map col_name cols) -> cells_ok cols cells ->
  json_ok (enc_cells cols cells) = true /\ norm (enc_cells cols cells) = enc_cells cols cells /\ 0 <= depth (enc_cells cols cells) <= 2.
Proof.
  intros [_ H2]%names_ok_cols H. apply (struct_text col_name (fun _ => enc_s) s_keep (fun c : col => s_ok c.2)) with (n := 1); try done.
  - intros k v Hv. destruct (s_text _ _ Hv) as (? & ? & _). by split.
  - intros k v Hv. by destruct (s_text _ _ Hv) as (_ & _ & ?).
Qed.

(** An array of values that read back. *)
Lemma array_text l n : Forall (fun v => json_ok v = true /\ norm v = v /\ 0 <= depth v <= n) l -> 0 <= n ->
  json_ok (JArr l) = true /\ norm (JArr l) = JArr l /\ 0 <= depth (JArr l) <= n + 1.
Proof.
  intros H Hn. cbn [json_ok norm depth]. assert (forallb json_ok l = true /\ map norm l = l /\ 0 <= fold_right (fun w d => Z.max (depth w) d) 0 l <= n) as (-> & -> & ?).
  { induction H as [|v l (H1 & H2 & H3) _ (E1 & E2 & E3)]; [cbn; split_and!; done || lia|]. cbn [forallb map fold_right]. rewrite H1, H2, E1, E2. split_and!; [done|done|lia..]. }
  split_and!; done || lia.
Qed.

Lemma d_slice_map {A B} (zero : A) (dec : decoder A) (js : B -> json) (val : B -> A) l :
  Forall (fun o => dec (js o) zero = (val o, true)) l -> d_slice zero dec (JArr (map js l)) None = (Some (map val l), true).
Proof. intros H. cbn [d_slice default]. by rewrite (d_elements_reads zero dec js val). Qed.

Lemma value_roundtrip f v : value_ok f v -> d_value f (enc_value f v) (zero_value f) = (v, true).
Proof.
  unfold value_ok, d_value, enc_value, zero_value. destruct (fd_kind f) as [k|cols], v as [s|[l|]]; try done.
  - intros H. by rewrite s_roundtrip.
  - intros [Hn H]. rewrite (d_slice_map _ _ (enc_cells cols) id); [by rewrite map_id|].
    eapply Forall_impl; [exact H|]. intros cells Hc. by apply cells_roundtrip.
Qed.

Lemma value_text f v : value_ok f v -> json_ok (enc_value f v) = true /\ norm (enc_value f v) = enc_value f v /\ 0 <= depth (enc_value f v) <= 3.
Proof.
  unfold value_ok, enc_value. destruct (fd_kind f) as [k|cols], v as [s|[l|]]; try done.
  - intros (? & ? & ?)%s_text. split_and!; done || lia.
  - intros [Hn H]. destruct (array_text (map (enc_cells cols) l) 2) as (? & ? & ?); [|lia|split_and!; done || lia].
    apply Forall_map. eapply Forall_impl; [exact H|]. intros cells Hc. by apply cells_text.
Qed.

Lemma omitted_zero f v : value_ok f v -> omitted f v = true -> v = zero_value f.
Proof.
  unfold value_ok, omitted, zero_value. destruct (fd_kind f) as [k|cols], v as [s|l]; rewrite ?andb_false_r; try done.
  intros H [_ E]%andb_true_iff. f_equal. by apply s_empty_zero.
Qed.

(** *** Whole structs *)

Definition row := list value.
Definition d_fields (sch : list field) : decoder row := d_row field_name d_value sch.
Definition enc_fields (sch : list field) (r : row) : json := enc_struct field_name enc_value omitted sch r.
Definition zero_fields (sch : list field) : row := zero_row zero_value sch.
Definition row_ok (sch : list field) (r : row) : Prop := Forall2 value_ok sch r.

Lemma fields_roundtrip sch r : names_ok (map field_name sch) -> row_ok sch r -> d_fields sch (enc_fields sch r) (zero_fields sch) = (r, true).
Proof. intros [H1 _]%names_ok_cols H. apply (struct_roundtrip _ _ _ _ _ value_ok); auto using value_roundtrip, omitted_zero. Qed.

Lemma fields_text sch r : names_ok (map field_name sch) -> row_ok sch r ->
  json_ok (enc_fields sch r) = true /\ norm (enc_fields sch r) = enc_fields sch r /\ 0 <= depth (enc_fields sch r) <= 4.
Proof.
  intros [_ H2]%names_ok_cols H. apply (struct_text field_name enc_value omitted value_ok) with (n := 3); try done.
  - intros k v Hv. destruct (value_text _ _ Hv) as (? & ? & _). by split.
  - intros k v Hv. by destruct (value_text _ _ Hv) as (_ & _ & ?).
Qed.

(** *** Deciding [row_ok] *)

#[export] Instance f64_eq_dec : EqDecision f64.
Proof. intros x y. unfold f64 in *. unfold Decision. repeat decide equality. Defined.
#[export] Instance text_ok_dec s : Decision (text_ok s).
Proof. unfold text_ok. apply _. Defined.

#[export] Instance s_ok_dec k v : Decision (s_ok k v).
Proof. destruct k, v; cbn [s_ok]; apply _. Defined.
#[export] Instance cells_ok_dec cols cells : Decision (cells_ok cols cells).
Proof. unfold cells_ok. apply _. Defined.
#[export] Instance names_ok_dec names : Decision (names_ok names).
Proof. unfold names_ok. apply _. Defined.
#[export] Instance value_ok_dec f v : Decision (value_ok f v).
Proof. unfold value_ok. destruct (fd_kind f), v as [|[|]]; apply _. Defined.
#[export] Instance row_ok_dec sch r : Decision (row_ok sch r).
Proof. unfold row_ok. apply _. Defined.
