(* ===== verification/Session.v ===== *)
(** * The state of a swap (api/swap.go, api/swap_retry.go, api/persist.go)

    [SwapSession] is one order's client side of a swap: its protocol state,
    the keys and scripts' inputs, what was built (deposit, refund, claim), what
    was learned of the counterparty, and the retry schedules.  Here are the
    record, the checks and schedules that read nothing but it, and its durable
    form.  The engine that owns it is in Node.v. *)

From S2P Require Import Prelude Sha256 GoLib Hex Codec Bodies Conf Coin Address Script Price Tx Wallet Deposit Order.

(** ** clientState *)

Inductive clientState :=
| csIdle | csMaker | csTaker | csHoldApplied | csInitialized | csCreatedA | csCreatedB | csConfirmedA | csConfirmedB
| csFinished.
#[export] Instance clientState_eq_dec : EqDecision clientState.
Proof. solve_decision. Defined.

Definition cs_num (c : clientState) : Z :=
  match c with
  | csIdle => 0 | csMaker => 1 | csTaker => 2 | csHoldApplied => 3 | csInitialized => 4 | csCreatedA => 5
  | csCreatedB => 6 | csConfirmedA => 7 | csConfirmedB => 8 | csFinished => 9
  end.

(** [a >= b], [a < b] *)
Definition cs_ge (a b : clientState) : bool := cs_num b <=? cs_num a.
Definition cs_lt (a b : clientState) : bool := cs_num a <? cs_num b.

(** ** The session

    [s_gen] stands for the pointer: two sessions of the same order are told
    apart by it. *)

Record SwapSession := mkSwapSession {
  s_gen : Z;
  s_isMaker : bool;
  s_id : bytes;
  s_srcCur : bytes;
  s_dstCur : bytes;
  s_srcAmt : Z;
  s_dstAmt : Z;
  s_ourSourceAddr : bytes;
  s_ourDestAddr : bytes;
  s_theirPub : bytes;
  s_privKey : bytes;
  s_pubKey : bytes;
  s_secret : bytes;
  s_secretHash : bytes;
  s_ourLockTime : Z;
  s_ourDepositTxID : bytes;
  s_refundHex : bytes;
  s_refundDone : bool;
  s_secretHunt : bool;
  s_huntSince : Z;
  s_scanCursor : Z;
  s_depositHex : bytes;
  s_claimHex : bytes;
  s_claimTxID : bytes;
  s_claimCur : bytes;
  s_theirDepositTxID : bytes;
  s_theirLockTime : Z;
  s_theirSecretHash : bytes;
  s_theirPayTxID : bytes;
  s_claimRetryAt : Z;
  s_claimRetries : Z;
  s_depositRetryAt : Z;
  s_depositRetries : Z;
  s_notReadySince : Z;
  s_notReadySeen : bool;
  s_theirDepositVout : Z;
  s_theirP2SHNative : Z;
  s_theirOverpayment : Z;
  s_hub : bytes;
  s_hubKey : bytes;
  s_state : clientState;
  s_await : bool;
  s_awaitSince : Z;
  s_vanishMisses : Z;
  s_lastProgress : Z;
  s_holdApplySentAt : Z;
}.
#[export] Instance eta_SwapSession : Eta SwapSession := fun s => mkSwapSession (s_gen s) (s_isMaker s) (s_id s)
  (s_srcCur s) (s_dstCur s) (s_srcAmt s) (s_dstAmt s) (s_ourSourceAddr s) (s_ourDestAddr s) (s_theirPub s) (s_privKey s)
  (s_pubKey s) (s_secret s) (s_secretHash s) (s_ourLockTime s) (s_ourDepositTxID s) (s_refundHex s) (s_refundDone s)
  (s_secretHunt s) (s_huntSince s) (s_scanCursor s) (s_depositHex s) (s_claimHex s) (s_claimTxID s) (s_claimCur s)
  (s_theirDepositTxID s) (s_theirLockTime s) (s_theirSecretHash s) (s_theirPayTxID s) (s_claimRetryAt s) (s_claimRetries s)
  (s_depositRetryAt s) (s_depositRetries s) (s_notReadySince s) (s_notReadySeen s) (s_theirDepositVout s)
  (s_theirP2SHNative s) (s_theirOverpayment s) (s_hub s) (s_hubKey s) (s_state s) (s_await s) (s_awaitSince s)
  (s_vanishMisses s) (s_lastProgress s) (s_holdApplySentAt s).

Definition zero_session : SwapSession :=
  mkSwapSession 0 false (zeros 32) [] [] 0 0 [] [] (zeros 33) (zeros 32) (zeros 33) (zeros 33) (zeros 20) 0 [] [] false false
    0 0 [] [] [] [] [] 0 (zeros 20) [] 0 0 0 0 0 false 0 0 0 (zeros 20) (zeros 33) csIdle false 0 0 0 0.

(** ** The world of one engine step

    [e_now] is [NowMicro()], [e_unix] the time of a packet header; the
    connectors, configurations and coins are those in force during the step;
    [e_keys] is the order in which ranging over a map visits the order ids. *)

Record Env := mkEnv {
  e_now : Z;
  e_unix : Z;
  e_ver : Z;
  e_Connectors : gmap bytes Connector;
  e_Confs : gmap bytes CoinConf;
  e_Coins : gmap bytes Coin;
  e_DataDir : bool;
  e_connected : bool;
  e_exchangeStarted : bool;
  e_Known : bytes -> bool;
  e_TakeRetry : Z;
  e_startedAt : Z;
  e_height : Z;
  e_keys : list bytes;
}.

(** ** The swap context of a worker (snapshot) *)

Definition coins_of (e : Env) (s : SwapSession) : gmap bytes Coin :=
  let add (cur : bytes) (m : gmap bytes Coin) := match e_Coins e !! cur with Some c => <[cur := c]> m | None => m end in
  add (s_dstCur s) (add (s_srcCur s) ∅).

Definition snapshot (e : Env) (funding : list Utxo) (s : SwapSession) : swapCtx :=
  mkSwapCtx (s_isMaker s) (s_srcCur s) (s_dstCur s) (s_srcAmt s) (s_dstAmt s) (s_ourSourceAddr s) (s_ourDestAddr s)
    (s_theirPub s) (s_privKey s) (s_pubKey s) (s_secret s) (s_secretHash s) (s_theirDepositTxID s) (s_theirLockTime s)
    (s_theirSecretHash s) (s_theirDepositVout s) (s_theirP2SHNative s) (s_theirOverpayment s) (s_ourDepositTxID s)
    (s_ourLockTime s) (s_refundHex s) (e_Connectors e) (e_Confs e) (coins_of e s) 0 funding.

(** ** New sessions *)

Definition decodePub33 (s : bytes) : bytes :=
  match DecodeString s with Some b => if zlen b =? 33 then b else zeros 33 | None => zeros 33 end.

(** [secret] is the fresh compressed public key that serves as the secret. *)
Definition newMakerSession (ripemd160 : bytes -> bytes) (now gen : Z) (o : Order) (makerAddr takerAddr priv pub secret : bytes) : SwapSession :=
  zero_session <| s_gen := gen |> <| s_isMaker := true |> <| s_id := o_ID o |> <| s_srcCur := o_FromCurrency o |>
    <| s_dstCur := o_ToCurrency o |> <| s_srcAmt := o_FromAmount o |> <| s_dstAmt := o_ToAmount o |>
    <| s_ourSourceAddr := makerAddr |> <| s_ourDestAddr := takerAddr |> <| s_privKey := priv |> <| s_pubKey := pub |>
    <| s_secret := secret |> <| s_secretHash := KeyID ripemd160 secret |> <| s_state := csMaker |> <| s_lastProgress := now |>
    <| s_hub := o_HubAddress o |> <| s_hubKey := decodePub33 (o_SNodePubkey o) |>.

Definition newTakerSession (now gen : Z) (o : Order) (fromAddr toAddr priv pub : bytes) : SwapSession :=
  zero_session <| s_gen := gen |> <| s_id := o_ID o |> <| s_srcCur := o_ToCurrency o |> <| s_dstCur := o_FromCurrency o |>
    <| s_srcAmt := o_ToAmount o |> <| s_dstAmt := o_FromAmount o |> <| s_ourSourceAddr := fromAddr |>
    <| s_ourDestAddr := toAddr |> <| s_privKey := priv |> <| s_pubKey := pub |> <| s_state := csTaker |>
    <| s_lastProgress := now |> <| s_hubKey := decodePub33 (o_SNodePubkey o) |> <| s_hub := o_HubAddress o |>.

(** ** Await guard and retry schedules *)

Definition notReadyPollMicro : Z := 5 * 1000000.
Definition notReadyTaperAfterMicro : Z := 60 * 1000000.
Definition notReadyTaperPollMicro : Z := 15 * 1000000.
Definition notReadyFastWindowMicro : Z := 10 * 60 * 1000000.
Definition claimRetryBaseMicro : Z := 60 * 1000000.
Definition claimRetryCapMicro : Z := 15 * 60 * 1000000.
Definition broadcastRepostMax : Z := 10.
Definition awaitStuckMicro : Z := 3 * 60 * 1000000.

Definition holdAwait (now : Z) (s : SwapSession) : SwapSession := s <| s_await := true |> <| s_awaitSince := now |>.
Definition releaseAwait (s : SwapSession) : SwapSession := s <| s_await := false |> <| s_awaitSince := 0 |>.

Definition retryBackoff (retries : Z) : Z :=
  let shift := if 3 <? retries then 3 else retries in
  let d := Z.shiftl claimRetryBaseMicro shift in
  if claimRetryCapMicro <? d then claimRetryCapMicro else d.

(** The not-ready re-poll; [None] leaves the error to the backoff. *)
Definition not_ready_poll (now : Z) (isClaim : bool) (terr : error) (s : SwapSession) : SwapSession * bool :=
  if negb (err_NotReady terr) then (s, false)
  else
    let s := if now <? s_notReadySince s then s <| s_notReadySince := now |> else s in
    if negb (s_notReadySince s =? 0) && (s_notReadySince s <=? now) && (notReadyFastWindowMicro <=? now - s_notReadySince s)
    then (s, false)
    else
      let s := if s_notReadySince s =? 0 then s <| s_notReadySince := now |> else s in
      let s := s <| s_notReadySeen := err_Seen terr |> in
      let poll := if negb (s_notReadySeen s) && (s_notReadySince s <=? now) && (notReadyTaperAfterMicro <=? now - s_notReadySince s)
                  then notReadyTaperPollMicro else notReadyPollMicro in
      let s := if isClaim then s <| s_claimRetryAt := now + poll |> else s <| s_depositRetryAt := now + poll |> in
      (s <| s_lastProgress := now |>, true).

Definition claim_backoff (now : Z) (s : SwapSession) : SwapSession :=
  s <| s_claimRetries := wrap 32 (s_claimRetries s + 1) |> <| s_claimRetryAt := now + retryBackoff (s_claimRetries s) |>
    <| s_lastProgress := now |>.

Definition deposit_backoff (now : Z) (s : SwapSession) : SwapSession :=
  s <| s_depositRetries := wrap 32 (s_depositRetries s + 1) |> <| s_depositRetryAt := now + retryBackoff (s_depositRetries s) |>
    <| s_lastProgress := now |>.

Definition clearClaimRetry (s : SwapSession) : SwapSession :=
  s <| s_claimRetryAt := 0 |> <| s_claimRetries := 0 |> <| s_notReadySince := 0 |> <| s_notReadySeen := false |>.

Definition clearDepositRetry (s : SwapSession) : SwapSession :=
  s <| s_depositRetryAt := 0 |> <| s_depositRetries := 0 |> <| s_notReadySince := 0 |> <| s_notReadySeen := false |>.

(** ** The checks of Hold and Init *)

(** [o] is the order in the book. *)
Definition verifyHold (o : option Order) (s : SwapSession) (b : HoldBody) : bool :=
  if s_isMaker s then
    if s_srcAmt s <? Hold_ToAmount b then false
    else if s_dstAmt s <? Hold_FromAmount b then false
    else if match o with Some o => o_PartialAllowed o && (Hold_ToAmount b <? o_MinFromAmount o) | None => false end then false
    else PartialOrderDriftCheck (s_srcAmt s) (s_dstAmt s) (Hold_FromAmount b) (Hold_ToAmount b)
  else
    if negb (Hold_FromAmount b =? s_srcAmt s) then false
    else if negb (Hold_ToAmount b =? s_dstAmt s) then false
    else
      let '(origFrom, origTo) := match o with
        | Some o => if 0 <? o_OrigFromAmount o then (o_OrigFromAmount o, o_OrigToAmount o) else (s_dstAmt s, s_srcAmt s)
        | None => (s_dstAmt s, s_srcAmt s)
        end in
      PartialOrderDriftCheck origFrom origTo (s_srcAmt s) (s_dstAmt s).

(** The zero hash for a coin that is not registered or an address that does not parse. *)
Definition decodeAddrHash (uni : Unicode) (coins : gmap bytes Coin) (cur addrStr : bytes) : res bytes :=
  match Get coins cur with
  | None => Ok (zeros 20)
  | Some c => match decodeAddress uni c addrStr with
              | Ok a => Ok (hash20 a)
              | Err _ => Ok (zeros 20)
              | Panic => Panic
              end
  end.

Definition verifyInit (uni : Unicode) (coins : gmap bytes Coin) (s : SwapSession) (b : InitBody) : res bool :=
  if negb (bool_decide (Init_ID b = s_id s)) then Ok false
  else
    from ← decodeAddrHash uni coins (s_srcCur s) (s_ourSourceAddr s);
    if negb (bool_decide (Init_FromAddress b = from)) then Ok false
    else if negb (bool_decide (Init_FromCurrency b = s_srcCur s)) then Ok false
    else if negb (Init_FromAmount b =? s_srcAmt s) then Ok false
    else
      to ← decodeAddrHash uni coins (s_dstCur s) (s_ourDestAddr s);
      if negb (bool_decide (Init_ToAddress b = to)) then Ok false
      else if negb (bool_decide (Init_ToCurrency b = s_dstCur s)) then Ok false
      else Ok (Init_ToAmount b =? s_dstAmt s).

(** The source address of HoldApply (api/hold_resend.go). *)
Definition holdApplySource (uni : Unicode) (coins : gmap bytes Coin) (s : SwapSession) : res bytes :=
  match Get coins (s_srcCur s) with
  | None => Err "api: unknown coin"
  | Some c => hash20 <$> decodeAddress uni c (s_ourSourceAddr s)
  end.

(** Rounds of absence before a deposit counts as gone. *)
Definition depositWatchVanishThreshold (blockTimeSec : Z) : Z :=
  if blockTimeSec <=? 0 then 6
  else
    let n := (2 * blockTimeSec + 59) / 60 + 1 in
    if n <? 3 then 3 else if 12 <? n then 12 else n.
