(* ===== verification/Persist.v ===== *)
(** * The durable form of swaps (api/persist.go)

    What is written of an order and its session, and what a restart makes of a
    record.  The flat record of the code is kept as its order half and its
    session half, with the fields that are not written at their zero value.
    Here and in the engine a file is its list of records; SwapFile.v is its
    text and shows that a start from the text is a start from the records. *)

From S2P Require Import Prelude Hex Codec Bodies Script Wallet Deposit Order Session.

Record persistedSwap := mkPersistedSwap {
  ps_order : Order;
  ps_session : SwapSession;
  ps_Historical : bool;
}.

(** ** Writing *)

(** [PrepTx], [FeeUtxos] and [Mine] are not written. *)
Definition orderFields (o : Order) : Order :=
  o <| o_PrepTx := [] |> <| o_FeeUtxos := [] |> <| o_Mine := false |>.

Definition persistFromOrder (o : Order) : persistedSwap := mkPersistedSwap (orderFields o) zero_session false.

(** [(status, reason, updated)] are those of the history entry. *)
Definition persistFromHistoryEntry (status : string) (reason updated : Z) (o : Order) : persistedSwap :=
  mkPersistedSwap (orderFields o <| o_Status := status |> <| o_Reason := reason |> <| o_Updated := updated |>) zero_session true.

(** The guard, the watch counter and the progress clock are not written; the id is the order's. *)
Definition sessionFields (id : bytes) (s : SwapSession) : SwapSession :=
  s <| s_gen := 0 |> <| s_id := id |> <| s_await := false |> <| s_awaitSince := 0 |> <| s_vanishMisses := 0 |>
    <| s_lastProgress := 0 |>.

Definition persistFromSession (s : SwapSession) (o : Order) : persistedSwap :=
  mkPersistedSwap (orderFields o) (sessionFields (o_ID o) s) false.

(** ** Reading back *)

Definition buildOrder (ps : persistedSwap) : Order := ps_order ps <| o_Mine := true |>.

Definition hasSessionData (ps : persistedSwap) : bool :=
  let s := ps_session ps in
  (cs_num csIdle <? cs_num (s_state s)) || negb (bool_decide (s_privKey s = zeros 32))
  || negb (bool_decide (s_pubKey s = zeros 33)) || negb (bool_decide (s_refundHex s = []))
  || negb (bool_decide (s_ourDepositTxID s = [])) || negb (bool_decide (s_secretHash s = zeros 20)).

Definition is_empty (b : bytes) : bool := bool_decide (b = []).

(** A canceled record that still owes a refund. *)
Definition refundPending (ps : persistedSwap) : bool :=
  let o := ps_order ps in
  String.eqb (o_Status o) "canceled" && o_DepositSent o && negb (is_empty (o_RefundTx o)) && negb (s_refundDone (ps_session ps)).

(** A finished record whose deposit is out and that never claimed. *)
Definition finishedRefundPending (ps : persistedSwap) : bool :=
  let o := ps_order ps in let s := ps_session ps in
  String.eqb (o_Status o) "finished" && o_DepositSent o && negb (is_empty (o_RefundTx o)) && negb (s_refundDone s)
  && is_empty (s_claimTxID s) && negb (o_CounterpartyRedeemed o).

(** The record goes to the history and nothing else is made of it. *)
Definition restores_to_history (ps : persistedSwap) : bool :=
  let o := ps_order ps in let s := ps_session ps in
  (ps_Historical ps || bool_decide (s_state s = csFinished)
   || (isOrderTerminal (o_Status o) && (s_refundDone s || is_empty (s_refundHex s) || cs_lt (s_state s) csCreatedA)))
  && negb (refundPending ps) && negb (finishedRefundPending ps).

Definition restored_order (now : Z) (ps : persistedSwap) : Order :=
  let o := buildOrder ps in
  if finishedRefundPending ps then o <| o_Status := "created"%string |> <| o_Updated := now |> else o.

(** The session of a record; [gen] names the new object. *)
Definition restored_session (now gen : Z) (ps : persistedSwap) : option SwapSession :=
  if negb (hasSessionData ps) then None
  else
    let s := ps_session ps in
    let st := if finishedRefundPending ps then (if s_isMaker s then csCreatedA else csCreatedB) else s_state s in
    let s := s <| s_gen := gen |> <| s_state := st |> <| s_lastProgress := now |> in
    let s := if bool_decide (s_state s = csHoldApplied) && (s_holdApplySentAt s =? 0) then s <| s_holdApplySentAt := now |> else s in
    let s := if s_secretHunt s && (s_huntSince s =? 0) then s <| s_huntSince := now |> else s in
    let s := if (bool_decide (s_state s = csConfirmedA) || bool_decide (s_state s = csConfirmedB))
                && negb (is_empty (s_claimTxID s)) && negb (is_empty (s_claimHex s)) && (s_claimRetryAt s =? 0)
             then s <| s_claimRetryAt := now |> else s in
    Some s.
