(* ===== verification/Node.v ===== *)
(** * The engine of the daemon (api/node.go, api/swap.go, api/swap_retry.go, api/refund_sweep.go)

    [Node] is the state the engine goroutine owns: the sessions, the order
    store, the queue of worker tasks, the guards and backoffs of the sweeps,
    the watch table, and the swap file with the snapshots on their way to it.
    Everything the engine runs is a function of it: here the shared services
    (persistence, sending, task posting, refunds, cancels) and the handlers of
    hub packets; the resumptions of worker results are in Resume.v and the
    sweeps in Sweep.v.

    A step runs on the engine goroutine alone. What a write to the disk or to
    the peer returns is read from [n_io], a list of outcomes fixed beforehand
    (success when it is exhausted). Logging, deduplication of log lines and
    the transaction log are left out. *)

From S2P Require Import Prelude Sha256 GoLib Hex Codec Bodies Packet Secp Signer Conf Coin Address Script Price Tx Wallet.
From S2P Require Import Deposit Order Store Session Persist.

(** ** Data *)

Inductive broadcastKind := broadcastDeposit | broadcastClaim | broadcastRefund | broadcastPrep | broadcastSplit.
#[export] Instance broadcastKind_eq_dec : EqDecision broadcastKind.
Proof. solve_decision. Defined.

Record trackedBroadcast := mkTrackedBroadcast {
  tb_OrderID : bytes;
  tb_Kind : broadcastKind;
  tb_Coin : bytes;
  tb_TxID : bytes;
  tb_Hex : bytes;
  tb_Seq : Z;
  tb_Confs : Z;
  tb_FirstSeenMicro : Z;
  tb_Attempts : Z;
}.
#[export] Instance eta_trackedBroadcast : Eta trackedBroadcast := fun t => mkTrackedBroadcast (tb_OrderID t) (tb_Kind t)
  (tb_Coin t) (tb_TxID t) (tb_Hex t) (tb_Seq t) (tb_Confs t) (tb_FirstSeenMicro t) (tb_Attempts t).

Record swapFile := mkSwapFile { f_swaps : list persistedSwap; f_broadcasts : list trackedBroadcast }.

(** What a broadcast task resumes with. *)
Inductive broadcastApply :=
| BcDepositA (out : depositOutcome)
| BcDepositB (out : createdBOutcome)
| BcClaimA (out : confirmOutcome)
| BcClaimB (out : confirmOutcome).

Definition apply_kind (k : broadcastApply) : broadcastKind :=
  match k with BcDepositA _ | BcDepositB _ => broadcastDeposit | BcClaimA _ | BcClaimB _ => broadcastClaim end.

Inductive refundErr := errRefundDepositSpent | errRefundOther.

(** The callback of a refund: none, the caller of [BroadcastRefund], or the
    closure of [tryStoredRefund] with the currencies left to try. *)
Inductive refundDone := DoneNil | DoneUser | DoneChain (cands : list bytes) (user : bool).

Record refundTask := mkRefundTask {
  rt_order : bytes;
  rt_conn : option Connector;
  rt_cur : bytes;
  rt_hex : bytes;
  rt_lockTime : Z;
  rt_depTxID : bytes;
  rt_proveSpend : bool;
  rt_done : refundDone;
}.

Record refundOutcome := mkRefundOutcome { ro_txid : bytes; ro_depositSpent : bool }.

Record watchTask := mkWatchTask {
  wt_order : bytes;
  wt_conn : option Connector;
  wt_depTxID : bytes;
  wt_depVout : Z;
  wt_threshold : Z;
  wt_decisiveOwnProbe : bool;
  wt_ownConn : option Connector;
  wt_ourDepTxID : bytes;
}.

Record depositWatchOutcome := mkDepositWatchOutcome { dw_unspent : bool; dw_ownKnown : bool; dw_ownSpent : bool }.

Record ownWatchTask := mkOwnWatchTask {
  ow_order : bytes;
  ow_gen : Z;
  ow_conn : option Connector;
  ow_depTxID : bytes;
  ow_hunt : bool;
  ow_cursor : Z;
  ow_hx : bytes;
  ow_hasTime : bool;
  ow_blockTime : Z;
  ow_excludeTxID : bytes;
  ow_rescanDue : bool;
  ow_seen : gset bytes;
}.

Inductive workTask :=
| TDepositA (id : bytes) (gen : Z) (c : swapCtx)
| TDepositB (id : bytes) (gen : Z) (c : swapCtx)
| TClaimA (id : bytes) (gen : Z) (c : swapCtx)
| TClaimB (id : bytes) (gen : Z) (c : swapCtx) (payTxID : bytes)
| TBroadcast (id : bytes) (gen : Z) (conn : option Connector) (cur hex : bytes) (k : broadcastApply)
| TRefund (t : refundTask)
| TWatch (t : watchTask)
| TOwnWatch (t : ownWatchTask)
| TConfirms (l : list (bytes * Connector))
| TRebroadcast (l : list (bytes * Connector * bytes))
| TVerify (o : Order) (conn : Connector) (coin : Coin).

Record Node := mkNode {
  n_nextGen : Z;
  n_sessions : gmap bytes SwapSession;
  n_store : Store;
  n_tasks : list workTask;
  n_pendingRefunds : gset bytes;
  n_pendingWatch : gset bytes;
  n_pendingOwnWatch : gset bytes;
  n_ownWatchSeen : gmap bytes (gset bytes);
  n_rescanAttempts : gmap bytes Z;
  n_rescanRetryAt : gmap bytes Z;
  n_pendingConfirm : bool;
  n_pendingRebroadcast : bool;
  n_refundAttempts : gmap bytes Z;
  n_refundRetryAt : gmap bytes Z;
  n_takeRetries : gmap bytes Z;
  n_silentHubs : gmap bytes Z;
  n_tracked : gmap bytes trackedBroadcast;
  n_trackedSeq : Z;
  n_disk : option swapFile;
  n_latest : option swapFile;
  n_loopJob : option swapFile;
  n_io : list bool;
  n_sent : list (bytes * Packet);
  n_reports : list (bytes * bytes * option refundErr);
}.
#[export] Instance eta_Node : Eta Node := fun n => mkNode (n_nextGen n) (n_sessions n) (n_store n) (n_tasks n)
  (n_pendingRefunds n) (n_pendingWatch n) (n_pendingOwnWatch n) (n_ownWatchSeen n) (n_rescanAttempts n)
  (n_rescanRetryAt n) (n_pendingConfirm n) (n_pendingRebroadcast n) (n_refundAttempts n) (n_refundRetryAt n) (n_takeRetries n) (n_silentHubs n)
  (n_tracked n) (n_trackedSeq n) (n_disk n) (n_latest n) (n_loopJob n) (n_io n) (n_sent n) (n_reports n).

Definition empty_node : Node := mkNode 1 ∅ NewStore [] ∅ ∅ ∅ ∅ ∅ ∅ false false ∅ ∅ ∅ ∅ ∅ 0 None None None [] [] [].

(** A session's or an order's fields, changed in place. *)
Definition updS (id : bytes) (f : SwapSession -> SwapSession) (n : Node) : Node := n <| n_sessions ::= alter f id |>.
Definition updO (id : bytes) (f : Order -> Order) (n : Node) : Node := n <| n_store ::= Update id f |>.

(** ** Orders behind sessions *)

Definition get_order (n : Node) (id : bytes) : option Order := Store_Get (n_store n) id.
Definition orderFunding (n : Node) (id : bytes) : list Utxo := match get_order n id with Some o => o_UsedCoins o | None => [] end.
Definition orderDepositSent (n : Node) (id : bytes) : bool := match get_order n id with Some o => o_DepositSent o | None => false end.

Definition sessionAlive (n : Node) (id : bytes) (gen : Z) : bool :=
  match n_sessions n !! id with Some s => s_gen s =? gen | None => false end.

Definition sessionIsTerminal (n : Node) (id : bytes) (s : SwapSession) : bool :=
  if bool_decide (s_state s = csFinished) then true
  else if negb (is_empty (s_refundHex s)) && negb (s_refundDone s) && (cs_ge (s_state s) csCreatedA || orderDepositSent n id)
  then false
  else if s_await s then false
  else match get_order n id with
       | None => true
       | Some o => isOrderTerminal (o_Status o) || s_refundDone s
       end.

(** An on-chain deposit exists to redeem. *)
Definition rollbackGate (n : Node) (id : bytes) : bool :=
  match n_sessions n !! id with
  | Some s => cs_ge (s_state s) csCreatedA || orderDepositSent n id
  | None => match get_order n id with
            | Some o => negb (is_empty (o_RefundTx o)) && o_DepositSent o
            | None => false
            end
  end.

(** ** The swap file *)

Definition snapshotSwaps (n : Node) : list persistedSwap :=
  concat (map (fun ko : bytes * Order =>
      let o := snd ko in
      if o_Mine o then
        let id := hexEncode (o_ID o) in
        match n_sessions n !! id with
        | Some s => if sessionIsTerminal n id s then [persistFromOrder o] else [persistFromSession s o]
        | None => [persistFromOrder o]
        end
      else []) (map_to_list (st_orders (n_store n)))) ++
  concat (map (fun e => match h_Order e with
      | Some o => if o_Mine o then [persistFromHistoryEntry (h_Status e) (h_Reason e) (h_Updated e) o] else []
      | None => []
      end) (st_history (n_store n))).

Definition file_of (n : Node) : swapFile := mkSwapFile (snapshotSwaps n) (map snd (map_to_list (n_tracked n))).

(** The outcome of the next write. *)
Definition next_io (n : Node) : bool * Node :=
  match n_io n with [] => (true, n) | b :: io => (b, n <| n_io := io |>) end.

(** The synchronous write: the queued snapshot is dropped, and the state of the moment is on the disk on success. *)
Definition persistNow (e : Env) (n : Node) : bool * Node :=
  if negb (e_DataDir e) then (true, n)
  else
    let '(ok, n) := next_io (n <| n_latest := None |>) in
    if ok then (true, n <| n_disk := Some (file_of n) |>) else (false, n).

(** The asynchronous one: the snapshot is left for [persistLoop]. *)
Definition persist (e : Env) (n : Node) : Node :=
  if negb (e_DataDir e) then n else n <| n_latest := Some (file_of n) |>.

(** ** Posting tasks *)

Definition task_queue : Z := 16.

Definition post (t : workTask) (n : Node) : bool * Node :=
  if zlen (n_tasks n) <? task_queue then (true, n <| n_tasks ::= fun q => q ++ [t] |>) else (false, n).

(** A dropped swap or broadcast task releases the guard of the session. *)
Definition postSwapTask (id : bytes) (t : workTask) (n : Node) : bool * Node :=
  let '(ok, n) := post t n in if ok then (true, n) else (false, updS id releaseAwait n).

Definition postBroadcastTask (id : bytes) (gen : Z) (conn : option Connector) (cur hex : bytes) (k : broadcastApply) (n : Node) : bool * Node :=
  postSwapTask id (TBroadcast id gen conn cur hex k) n.

(** ** The watch table (api/reconcile.go) *)

Definition recordBroadcast (e : Env) (id : bytes) (kind : broadcastKind) (coin txid hex : bytes) (n : Node) : Node :=
  if is_empty txid then n
  else match n_tracked n !! txid with
       | Some _ => n
       | None =>
           n <| n_trackedSeq ::= Z.add 1 |>
             <| n_tracked ::= <[txid := mkTrackedBroadcast id kind coin txid hex (n_trackedSeq n + 1) 0 (e_now e) 0]> |>
       end.

(** ** Refund backoff (api/refund_sweep.go) *)

Definition refundBackoffBaseMicro : Z := 10 * 60 * 1000000.
Definition refundBackoffCapMicro : Z := 24 * 60 * 60 * 1000000.

Definition refundBackoffActive (e : Env) (n : Node) (id : bytes) : bool :=
  match n_refundRetryAt n !! id with Some retryAt => e_now e <? retryAt | None => false end.

(** The doubling loop, [i] rounds of it. *)
Fixpoint backoff_delay (i : nat) (delay : Z) : Z :=
  match i with
  | O => delay
  | S i => if delay <? refundBackoffCapMicro then backoff_delay i (delay * 2) else delay
  end.

Definition refund_delay (attempts : Z) : Z :=
  let d := backoff_delay (Z.to_nat (attempts - 1)) refundBackoffBaseMicro in
  if refundBackoffCapMicro <? d then refundBackoffCapMicro else d.

Definition recordRefundFailure (e : Env) (id : bytes) (n : Node) : Node :=
  let a := default 0 (n_refundAttempts n !! id) + 1 in
  n <| n_refundAttempts ::= <[id := a]> |> <| n_refundRetryAt ::= <[id := e_now e + refund_delay a]> |>.

Definition clearRefundBackoff (id : bytes) (n : Node) : Node :=
  n <| n_refundAttempts ::= delete id |> <| n_refundRetryAt ::= delete id |>.

Definition clearRescanFailure (id : bytes) (n : Node) : Node :=
  n <| n_rescanAttempts ::= delete id |> <| n_rescanRetryAt ::= delete id |>.

(** ** Refund tasks *)

(** The own deposit a refund task probes: the session's, else the stored order's. *)
Definition refund_probe (n : Node) (id : bytes) : bytes * bool :=
  let stored := match get_order n id with
    | Some o => if is_empty (o_BinTxId o) then ([], false) else (o_BinTxId o, rollbackGate n id)
    | None => ([], false)
    end in
  match n_sessions n !! id with
  | Some s => if is_empty (s_ourDepositTxID s) then stored else (s_ourDepositTxID s, rollbackGate n id)
  | None => stored
  end.

(** [on_drop] is what [done] does with a dropped task. *)
Definition postRefundTask (e : Env) (id cur hex : bytes) (lockTime : Z) (done : refundDone) (on_drop : Node -> Node) (n : Node) : Node :=
  let '(depTxID, proveSpend) := refund_probe n id in
  let '(ok, n) := post (TRefund (mkRefundTask id (e_Connectors e !! cur) cur hex lockTime depTxID proveSpend done)) n in
  if ok then n else on_drop (n <| n_pendingRefunds ::= fun p => p ∖ {[id]} |>).

(** The caller of [BroadcastRefund] is told the transaction id or the error. *)
Definition report (id txid : bytes) (err : option refundErr) (user : bool) (n : Node) : Node :=
  if user then n <| n_reports ::= fun r => r ++ [(id, txid, err)] |> else n.

Fixpoint tryStoredRefund (e : Env) (id hex : bytes) (lockTime : Z) (cands : list bytes) (user : bool) (n : Node) : Node :=
  match cands with
  | [] => report id [] (Some errRefundOther) user n
  | cur :: cands =>
      postRefundTask e id cur hex lockTime (DoneChain cands user) (tryStoredRefund e id hex lockTime cands user) n
  end.

(** The own chain first, then the two of the order, each once, where a wallet is connected. *)
Definition refund_candidates (e : Env) (o : Order) : list bytes :=
  fold_left (fun cands cur =>
    if negb (is_empty cur) && negb (bool_decide (cur ∈ cands)) && bool_decide (is_Some (e_Connectors e !! cur))
    then cands ++ [cur] else cands) [utxoCurrency o; o_FromCurrency o; o_ToCurrency o] [].

Definition user_done (user : bool) : refundDone := if user then DoneUser else DoneNil.

(** [false]: the parser of the stored transaction panicked, and what called this is abandoned. *)
Definition enqueueRefund (mem : Z) (e : Env) (id : bytes) (user : bool) (n : Node) : bool * Node :=
  let none := (true, report id [] (Some errRefundOther) user n) in
  let stored :=
    match get_order n id with
    | Some o =>
        if is_empty (o_RefundTx o) || negb (o_DepositSent o) then none
        else match DecodeString (o_RefundTx o) with
             | None => none
             | Some raw =>
                 match Deserialize mem raw with
                 | Ok rtx => (true, tryStoredRefund e id (o_RefundTx o) (tx_LockTime rtx) (refund_candidates e o) user n)
                 | Err _ => none
                 | Panic => (false, n)
                 end
             end
    | None => none
    end in
  match n_sessions n !! id with
  | Some s =>
      if is_empty (s_refundHex s) then stored
      else if cs_lt (s_state s) csCreatedA && negb (orderDepositSent n id) then none
      else
        (true, postRefundTask e id (s_srcCur s) (s_refundHex s) (s_ourLockTime s) (user_done user)
          (report id [] (Some errRefundOther) user) (n <| n_pendingRefunds ::= fun p => {[id]} ∪ p |>))
  | None => stored
  end.

Section Engine.
Context (ripemd160 : bytes -> bytes) {secp : Secp} (uni : Unicode) (mem : Z).

(** ** Sending *)

(** The signed packet, the durable write, then the packet to the peer. *)
Definition send (e : Env) (dest : bytes) (cmd : Z) (body priv : bytes) (n : Node) : bool * Node :=
  if negb (e_connected e) then (false, n)
  else if negb (zlen priv =? 32) then (false, n)
  else
    match Sign (NewPacket (e_ver e) (e_unix e) cmd body) priv with
    | Ok pkt =>
        let '(ok, n) := persistNow e n in
        if negb ok then (false, n)
        else
          let '(ok, n) := next_io n in
          if ok then (true, n <| n_sent ::= fun l => l ++ [(dest, pkt)] |>) else (false, n)
    | _ => (false, n)
    end.

(** [n.conn.WritePacket(pkt, dest)] *)
Definition write_packet (dest : bytes) (pkt : Packet) (n : Node) : bool * Node :=
  let '(ok, n) := next_io n in
  if ok then (true, n <| n_sent ::= fun l => l ++ [(dest, pkt)] |>) else (false, n).

(** ** Cancels and rejects *)

Definition dropTakeRetry (id : bytes) (n : Node) : Node := n <| n_takeRetries ::= delete id |>.

Definition sendCancelTransaction (e : Env) (id : bytes) (reason : Z) (n : Node) : bool * Node :=
  if negb (e_connected e) then (false, n)
  else match n_sessions n !! id with
       | None => (false, n)
       | Some s =>
           match Sign (NewPacket (e_ver e) (e_unix e) XbcTransactionCancel (CancelBody_Marshal (mkCancelBody (s_id s) reason))) (s_privKey s) with
           | Ok pkt => write_packet (zeros 20) pkt n
           | _ => (false, n)
           end
       end.

Definition set_canceled (e : Env) (reason : Z) (o : Order) : Order :=
  o <| o_Status := "canceled"%string |> <| o_Reason := reason |> <| o_Updated := e_now e |>.

(** Who may cancel an order: its maker key (ours), its service node, the counterparty. *)
Definition cancel_by_us (o : Order) (pkt : Packet) : bool := negb (is_empty (o_MakerKey o)) && verified_by pkt (o_MakerKey o).
Definition cancel_verified (o : Order) (pkt : Packet) : bool :=
  verified_by pkt (o_SNodePubkey o) || verified_by pkt (o_OtherPubkey o) || cancel_by_us o pkt.

(** A service node's side of a cancel. *)
Definition hub_cancel (e : Env) (id : bytes) (pkt : Packet) (reason : Z) (n : Node) : Node :=
  match n_sessions n !! id with
  | None => n
  | Some s =>
      if verified_by pkt (hexEncode (s_pubKey s)) || verified_by pkt (hexEncode (s_theirPub s))
      then let '(ok, n) := sendCancelTransaction e id reason n in if ok then dropTakeRetry id n else n
      else n
  end.

Definition markStale (e : Env) (o : Order) : Order := o <| o_Updated := wrap 64 (e_now e - 241000000) |>.

Definition handleRemoteCancel (e : Env) (pkt : Packet) (b : CancelBody) (n : Node) : bool * Node :=
  let id := hexEncode (Cancel_ID b) in
  match get_order n id with
  | None => (true, n)
  | Some o =>
      if e_exchangeStarted e then (true, hub_cancel e id pkt (Cancel_Reason b) n)
      else if negb (cancel_verified o pkt) then (true, n)
      else if negb (bool_decide (is_Some (e_Connectors e !! o_FromCurrency o))) then (true, n)
      else if o_Mine o && (stateOrdinal (o_Status o) <=? 2) && negb (cancel_by_us o pkt)
      then (true, dropTakeRetry id (updO id (markStale e) n))
      else if stateOrdinal (o_Status o) <? 6
      then (true, dropTakeRetry id (n <| n_store ::= MoveToHistory id "canceled" (Cancel_Reason b) (e_now e) |>))
      else if String.eqb (o_Status o) "canceled" then (true, n)
      else if negb (o_DepositSent o)
      then (true, persist e (dropTakeRetry id (updO id (set_canceled e (Cancel_Reason b)) n)))
      else if o_CounterpartyRedeemed o then (true, n)
      else
        let n := dropTakeRetry id (updO id (set_canceled e (Cancel_Reason b)) n) in
        if is_empty (o_RefundTx o) then (true, persist e n)
        else let '(returned, n) := enqueueRefund mem e id false n in
             if returned then (true, persist e n) else (false, n)
  end.

Definition crNotAccepted : Z := 8.

(** The attempt counter of a take retry; the timer that takes the order again is in Retry.v. *)
Definition scheduleTakeRetry (e : Env) (id : bytes) (n : Node) : Node :=
  if e_TakeRetry e <=? 0 then n
  else match n_takeRetries n !! id with
       | None => n
       | Some attempts =>
           if e_TakeRetry e <=? attempts then dropTakeRetry id n
           else n <| n_takeRetries ::= <[id := attempts + 1]> |>
       end.

Definition handleRemoteReject (e : Env) (pkt : Packet) (b : RejectBody) (n : Node) : Node :=
  let id := hexEncode (Reject_ID b) in
  match get_order n id with
  | None => n
  | Some o =>
      if negb (o_Role o =? RoleB) || (3 <? stateOrdinal (o_Status o)) then n
      else if negb (verified_by pkt (o_SNodePubkey o)) then n
      else
        let n := updO id (fun o => clearUsedCoins (o <| o_Reason := Reject_Reason b |> <| o_Status := "open"%string |>)) n in
        let n := persist e n in
        if Reject_Reason b =? crNotAccepted then scheduleTakeRetry e id n else dropTakeRetry id n
  end.

(** Local rollback first, then the durable write, then the signed Cancel. *)
Definition sendSelfCancel (e : Env) (id : bytes) (reason : Z) (n : Node) : bool * Node :=
  match n_sessions n !! id with
  | None => (true, n)
  | Some s =>
      if negb (e_connected e) then (true, n)
      else
        let body := mkCancelBody (s_id s) reason in
        match Sign (NewPacket (e_ver e) (e_unix e) XbcTransactionCancel (CancelBody_Marshal body)) (s_privKey s) with
        | Ok pkt =>
            let '(returned, n) := handleRemoteCancel e pkt body n in
            if returned then (true, snd (write_packet (zeros 20) pkt (snd (persistNow e n)))) else (false, n)
        | _ => (true, n)
        end
  end.

(** ** The handlers of hub packets

    A handler gets the session and returns the response to send, if any. *)

Definition response : Type := option (Z * bytes).

Definition setOrderStatus (e : Env) (id : bytes) (status : string) (n : Node) : Node :=
  updO id (fun o => o <| o_Status := status |> <| o_Updated := e_now e |>) n.

Definition OnHold (e : Env) (id : bytes) (s : SwapSession) (b : HoldBody) (n : Node) : Node * response :=
  if cs_ge (s_state s) csHoldApplied then (n, None)
  else if negb (verifyHold (get_order n id) s b) then (n, None)
  else match holdApplySource uni (e_Coins e) s with
       | Ok src =>
           let n := if s_isMaker s
             then persist e (updO id (fun o => o <| o_FromAmount := Hold_ToAmount b |> <| o_ToAmount := Hold_FromAmount b |>)
                    (updS id (fun s => s <| s_srcAmt := Hold_ToAmount b |> <| s_dstAmt := Hold_FromAmount b |>) n))
             else n in
           let n := setOrderStatus e id "hold" (updS id (fun s => s <| s_state := csHoldApplied |>) n) in
           (n, Some (XbcTransactionHoldApply, HoldApplyBody_Marshal (mkHoldApplyBody (s_hub s) src (s_id s))))
       | _ => (n, None)
       end.

Definition OnInit (e : Env) (id : bytes) (s : SwapSession) (b : InitBody) (n : Node) : Node * response :=
  if cs_ge (s_state s) csInitialized then (n, None)
  else match verifyInit uni (e_Coins e) s b with
       | Ok true =>
           (setOrderStatus e id "initialized" (updS id (fun s => s <| s_state := csInitialized |>) n),
            Some (XbcTransactionInitialized, InitializedBody_Marshal (mkInitializedBody (s_hub s) (Init_ClientAddress b) (s_id s))))
       | _ => (n, None)
       end.

(** [s.holdAwait()] and the post of a task built on the snapshot of the session. *)
Definition start_task (e : Env) (id : bytes) (mk : Z -> swapCtx -> workTask) (n : Node) : Node :=
  match n_sessions n !! id with
  | Some s =>
      snd (postSwapTask id (mk (s_gen s) (snapshot e (orderFunding n id) s)) (updS id (holdAwait (e_now e)) n))
  | None => n
  end.

Definition OnCreateA (e : Env) (id : bytes) (s : SwapSession) (b : CreateABody) (n : Node) : Node :=
  if negb (s_isMaker s) then n
  else if cs_ge (s_state s) csCreatedA then n
  else if s_await s then n
  else if bool_decide (CreateA_BPubKey b = zeros 33) then n
  else
    let n := updS id (fun s => s <| s_theirPub := CreateA_BPubKey b |>) n in
    let n := updO id (fun o => o <| o_OtherPubkey := hexEncode (CreateA_BPubKey b) |>) n in
    start_task e id (TDepositA id) n.

Definition OnCreateB (e : Env) (id : bytes) (s : SwapSession) (b : CreateBBody) (n : Node) : Node :=
  if cs_ge (s_state s) csCreatedB then n
  else if s_await s then n
  else if s_isMaker s then n
  else if is_empty (CreateB_ADepositTxID b) then snd (sendSelfCancel e id crBadADepositTx n)
  else if negb (bool_decide (s_theirPub s = zeros 33)) then n
  else if bool_decide (CreateB_APubKey b = zeros 33) then n
  else
    let n := updS id (fun s => s <| s_theirPub := CreateB_APubKey b |> <| s_theirDepositTxID := CreateB_ADepositTxID b |>
               <| s_theirSecretHash := CreateB_HashedSecret b |> <| s_theirLockTime := CreateB_ALockTime b |>) n in
    let n := updO id (fun o => o <| o_OBinTxId := CreateB_ADepositTxID b |> <| o_OtherPubkey := hexEncode (CreateB_APubKey b) |>) n in
    start_task e id (TDepositB id) n.

Definition OnConfirmA (e : Env) (id : bytes) (s : SwapSession) (b : ConfirmABody) (n : Node) : Node :=
  if cs_ge (s_state s) csConfirmedA then n
  else if negb (s_isMaker s) then n
  else if s_await s then n
  else
    let n := updS id (fun s => s <| s_theirDepositTxID := ConfirmA_BDepositTxID b |> <| s_theirLockTime := ConfirmA_BLockTime b |>) n in
    let n := updO id (fun o => o <| o_OBinTxId := ConfirmA_BDepositTxID b |>) n in
    start_task e id (TClaimA id) n.

Definition OnConfirmB (e : Env) (id : bytes) (s : SwapSession) (payTxID : bytes) (n : Node) : Node :=
  if cs_ge (s_state s) csConfirmedB then n
  else if s_await s then n
  else
    let n := persist e (updS id (fun s => s <| s_theirPayTxID := payTxID |>) n) in
    start_task e id (fun gen c => TClaimB id gen c payTxID) n.

(** ** Finished *)

Definition finishedMayTerminate (n : Node) (id : bytes) (s : SwapSession) : bool :=
  if cs_ge (s_state s) csConfirmedA then true
  else if match get_order n id with Some o => o_CounterpartyRedeemed o | None => false end then true
  else cs_lt (s_state s) csCreatedA && negb (orderDepositSent n id).

(** A sweep over the sessions. *)
Definition each_session (e : Env) (f : bytes -> SwapSession -> Node -> Node) (n : Node) : Node :=
  fold_left (fun n id => match n_sessions n !! id with Some s => f id s n | None => n end) (e_keys e) n.

Definition prune_session (id : bytes) (s : SwapSession) (n : Node) : Node :=
  if sessionIsTerminal n id s then
    clearRescanFailure id (clearRefundBackoff id (n <| n_pendingRefunds ::= fun p => p ∖ {[id]} |>))
      <| n_pendingWatch ::= fun p => p ∖ {[id]} |> <| n_pendingOwnWatch ::= fun p => p ∖ {[id]} |>
      <| n_ownWatchSeen ::= delete id |> <| n_sessions ::= delete id |>
  else n.

Definition pruneSessions (e : Env) (n : Node) : Node := each_session e prune_session n.

Definition OnFinished (e : Env) (id : bytes) (s : SwapSession) (n : Node) : Node :=
  if negb (finishedMayTerminate n id s) then n
  else
    let n := n <| n_store ::= MoveToHistory id "finished" 0 (e_now e) |> in
    let n := updS id (fun s => s <| s_state := csFinished |>) n in
    pruneSessions e (persist e n).

(** ** Dispatch *)

Definition verifyHubPacket (e : Env) (pkt : Packet) (s : SwapSession) : bool :=
  if bool_decide (s_hubKey s = zeros 33) then false
  else if negb (verified_by pkt (hexEncode (s_hubKey s))) then false
  else if cs_ge (s_state s) csHoldApplied then true
  else e_Known e (s_hubKey s).

(** The gate before a handler: session, hub signature, progress, in-flight task. *)
Definition processSwap (e : Env) (pkt : Packet) (ID hub : bytes)
    (fn : bytes -> SwapSession -> Node -> Node * response) (n : Node) : Node :=
  let id := hexEncode ID in
  match n_sessions n !! id with
  | None => n
  | Some s =>
      if negb (verifyHubPacket e pkt s) then n
      else
        let s := (if bool_decide (hub = zeros 20) then s else s <| s_hub := hub |>) <| s_lastProgress := e_now e |> in
        let n := n <| n_sessions ::= <[id := s]> |> in
        if s_await s then n
        else
          let '(n, r) := fn id s n in
          match r with
          | None => n
          | Some (cmd, body) =>
              let '(ok, n) := send e (s_hub s) cmd body (s_privKey s) n in
              if ok && (cmd =? XbcTransactionHoldApply) then updS id (fun s => s <| s_holdApplySentAt := e_now e |>) n else n
          end
  end.

Definition no_reply (f : bytes -> SwapSession -> Node -> Node) (id : bytes) (s : SwapSession) (n : Node) : Node * response :=
  (f id s n, None).

(** ** Order gossip *)

Definition verifyAndBook (e : Env) (o : Order) (n : Node) : Node :=
  if bool_decide (o_Utxos o = []) then n <| n_store ::= Add o |>
  else match e_Connectors e !! o_FromCurrency o, Get (e_Coins e) (o_FromCurrency o) with
       | Some conn, Some coin => snd (post (TVerify o conn coin) n)
       | _, _ => n <| n_store ::= Add o |>
       end.

Definition ingestPending (e : Env) (b : PendingTransactionBody) (snode : bytes) (n : Node) : Node :=
  let o := normalizeFromPendingBody b snode <| o_BlockNumber := e_height e |> in
  let id := hexEncode (o_ID o) in
  let '(touched, st) := Touch id (e_now e) (n_store n) in
  if touched then n <| n_store := st |>
  else if HasOrder id (n_store n) then n
  else verifyAndBook e o n.

Definition handlePacket (e : Env) (pkt : Packet) (n : Node) : Node :=
  match DecodeBody (Command pkt) (PBody pkt) with
  | Ok (Body_Pending b) => ingestPending e b (hexEncode (Pubkey pkt)) n
  | Ok (Body_Hold b) => processSwap e pkt (Hold_ID b) (Hold_HubAddress b) (fun id s => OnHold e id s b) n
  | Ok (Body_Init b) => processSwap e pkt (Init_ID b) (Init_HubAddress b) (fun id s => OnInit e id s b) n
  | Ok (Body_CreateA b) => processSwap e pkt (CreateA_ID b) (CreateA_HubAddress b) (no_reply (fun id s => OnCreateA e id s b)) n
  | Ok (Body_CreateB b) => processSwap e pkt (CreateB_ID b) (CreateB_HubAddress b) (no_reply (fun id s => OnCreateB e id s b)) n
  | Ok (Body_ConfirmA b) => processSwap e pkt (ConfirmA_ID b) (ConfirmA_HubAddress b) (no_reply (fun id s => OnConfirmA e id s b)) n
  | Ok (Body_ConfirmB b) =>
      processSwap e pkt (ConfirmB_ID b) (ConfirmB_HubAddress b) (no_reply (fun id s => OnConfirmB e id s (ConfirmB_APayTxID b))) n
  | Ok (Body_Finished b) => processSwap e pkt (Finished_ID b) (zeros 20) (no_reply (OnFinished e)) n
  | Ok (Body_Cancel b) => snd (handleRemoteCancel e pkt b n)
  | Ok (Body_Reject b) => handleRemoteReject e pkt b n
  | _ => n
  end.

End Engine.
