(* ===== verification/Resume.v ===== *)
(** * Worker tasks and their resumptions (api/swap.go, api/swap_retry.go)

    [run_task] is what a worker computes off the engine; the [apply] functions
    are what the engine does with a result, which may come at any later time
    and find its session gone, finished or replaced.  A result is not tied to
    [run_task]: a worker that panicked or a wallet that failed hands an error. *)

From S2P Require Import Prelude Sha256 GoLib Hex Codec Bodies Packet Secp Signer Conf Coin Address Script Price Tx Wallet.
From S2P Require Import Deposit Order Store Utxos Session Persist Node.

(** The worker's scan: what it found, and how far it came. *)
Record ownWatchResult := mkOwnWatchResult {
  or_spender : bytes;
  or_scanned : list bytes;
  or_rechecked : bool;
  or_depositLive : bool;
  or_nextCursor : Z;
  or_cursorAdvanced : bool;
  or_rescanErr : bool;
  or_ranRescanLeg : bool;
}.

Inductive workResult :=
| RDepositA (id : bytes) (gen : Z) (r : wres depositOutcome)
| RDepositB (id : bytes) (gen : Z) (r : wres createdBOutcome)
| RClaimA (id : bytes) (gen : Z) (r : wres confirmOutcome)
| RClaimB (id : bytes) (gen : Z) (r : wres confirmOutcome)
| RBroadcast (id : bytes) (gen : Z) (cur hex : bytes) (k : broadcastApply) (r : wres bytes)
| RRefund (t : refundTask) (r : wres refundOutcome)
| RWatch (t : watchTask) (r : wres depositWatchOutcome)
| ROwnWatch (t : ownWatchTask) (r : ownWatchResult) (ok : bool)
| RConfirms (depths : list (bytes * Z))
| RRebroadcast (sent : list (bytes * bool))
| RVerify (o : Order) (r : wres bool).

(** ** The workers' side *)

(** Known, and spent: an inconclusive reading is neither. *)
Definition probeOwnDeposit (conn : option Connector) (depTxID : bytes) (depVout : Z) : bool * bool :=
  match conn with
  | None => (false, false)
  | Some conn =>
      if is_empty depTxID then (false, false)
      else match GetRawTransactionVerbose conn depTxID with
           | inr _ => (false, false)
           | inl vtx =>
               if negb (vt_HasConfirmations vtx) || (vt_Confirmations vtx <? 0) then (false, false)
               else match GetTxOut conn depTxID depVout with
                    | inr _ => (false, false)
                    | inl out => (true, negb (bool_decide (is_Some out)))
                    end
           end
  end.

Definition runRefundTask (conn : option Connector) (hex : bytes) (lockTime : Z) (checkLock : bool) (depTxID : bytes)
    (proveSpend : bool) : wres refundOutcome :=
  match conn with
  | None => fail
  | Some c =>
      let broadcast :=
        match SendRawTransaction c hex with
        | inl txid => inl (mkRefundOutcome txid false)
        | inr err =>
            match match txIDFromHex hex with
                  | Some localID => match GetRawTransaction c localID with inl _ => Some localID | inr _ => None end
                  | None => None
                  end with
            | Some localID => inl (mkRefundOutcome localID false)
            | None =>
                if proveSpend && (let '(known, spent) := probeOwnDeposit conn depTxID ownDepositVout in known && spent)
                then inl (mkRefundOutcome [] true)
                else inr err
            end
        end in
      if checkLock then
        match GetBlockCount c with
        | inr _ => fail
        | inl h =>
            if h <? 1 then fail
            else if wrap 32 h <? lockTime then inl (mkRefundOutcome [] false)
            else broadcast
        end
      else broadcast
  end.

Definition runDepositWatchTask (conn : option Connector) (txid : bytes) (vout : Z) : wres bool :=
  match conn with None => fail | Some c => out ← GetTxOut c txid vout; inl (bool_decide (is_Some out)) end.

Definition run_watch (t : watchTask) : wres depositWatchOutcome :=
  unspent ← runDepositWatchTask (wt_conn t) (wt_depTxID t) (wt_depVout t);
  if unspent || negb (wt_decisiveOwnProbe t) then inl (mkDepositWatchOutcome unspent false false)
  else
    let '(known, spent) := probeOwnDeposit (wt_ownConn t) (wt_ourDepTxID t) ownDepositVout in
    inl (mkDepositWatchOutcome false known spent).

(** ** The own-deposit watch (api/own_deposit_watch.go) *)

Definition ownWatchFetchBudget : Z := 200.
Definition rescanPageBudget : Z := 3.
Definition rescanPageBudgetCap : Z := 12.
Definition rescanWindowBlocks : Z := 144.

Definition rescanPageBudgetFor (blockTime : Z) : Z :=
  if (0 <? blockTime) && (blockTime <=? 20) then
    let p := 120 / blockTime + 1 in
    if p <? rescanPageBudgetCap then p else rescanPageBudgetCap
  else rescanPageBudget.

(** The first height to scan: the deposit's depth below the tip, else a window. *)
Definition seedRescanStart (conn : Connector) (depTxID : bytes) (tip : Z) : Z :=
  let start := match GetRawTransactionVerbose conn depTxID with
               | inl vtx => if vt_HasConfirmations vtx && (0 <=? vt_Confirmations vtx) then tip - vt_Confirmations vtx
                            else tip - rescanWindowBlocks
               | inr _ => tip - rescanWindowBlocks
               end in
  if 0 <? start then wrap 32 start else 0.

Record rescanOutcome := mkRescanOutcome { rs_spender : bytes; rs_nextCursor : Z; rs_advanced : bool; rs_err : bool }.

Section OwnWatch.
Context (ripemd160 : bytes -> bytes) (mem : Z) (conn : Connector) (t : ownWatchTask).

Definition is_spender (payHex : bytes) : bool :=
  bool_decide (is_Some (secretFromPayTx ripemd160 mem payHex (ow_hx t) (ow_hasTime t) (ow_depTxID t) ownDepositVout)).

(** One page: the first transaction that spends the deposit and carries the
    secret, [None] for none; an unreadable candidate is an error. *)
Fixpoint scan_page (txs : list BlockTx) : wres (option bytes) :=
  match txs with
  | [] => inl None
  | tx :: txs =>
      if negb (is_empty (ow_excludeTxID t)) && bool_decide (bt_TxID tx = ow_excludeTxID t) then scan_page txs
      else if negb (existsb (fun i => bool_decide (bv_TxID i = ow_depTxID t) && (bv_Vout i =? ownDepositVout)) (bt_Vin tx))
      then scan_page txs
      else
        payHex ← GetRawTransaction conn (bt_TxID tx);
        if is_spender payHex then inl (Some (bt_TxID tx)) else scan_page txs
  end.

(** [pages] heights from [next] on, up to the tip. *)
Fixpoint scan_pages (pages : nat) (tip start next : Z) : rescanOutcome :=
  match pages with
  | O => mkRescanOutcome [] next (negb (next =? start)) false
  | S pages =>
      if tip <? next then mkRescanOutcome [] next (negb (next =? start)) false
      else match bh ← GetBlockHash conn next; txs ← GetBlockTxs conn bh; scan_page txs with
           | inr _ => mkRescanOutcome [] next (negb (next =? start)) true
           | inl (Some spender) => mkRescanOutcome spender (wrap 32 next + 1) true false
           | inl None => scan_pages pages tip start (wrap 32 next + 1)
           end
  end.

Definition runRescanPages : rescanOutcome :=
  match GetBlockCount conn with
  | inr _ => mkRescanOutcome [] (ow_cursor t) false true
  | inl tip =>
      if tip <? 1 then mkRescanOutcome [] (ow_cursor t) false false
      else
        let cursor := if ow_cursor t =? 0 then seedRescanStart conn (ow_depTxID t) tip else ow_cursor t in
        scan_pages (Z.to_nat (rescanPageBudgetFor (ow_blockTime t))) tip cursor cursor
  end.

(** The mempool scan: the spender, and the ids it read. *)
Fixpoint scan_mempool (txids : list bytes) (fetched : Z) (scanned : list bytes) : bytes * list bytes :=
  match txids with
  | [] => ([], scanned)
  | txid :: txids =>
      if bool_decide (txid ∈ ow_seen t) then scan_mempool txids fetched scanned
      else if ownWatchFetchBudget <=? fetched then ([], scanned)
      else match GetRawTransaction conn txid with
           | inr _ => scan_mempool txids (fetched + 1) scanned
           | inl payHex =>
               if is_spender payHex then (txid, scanned ++ [txid]) else scan_mempool txids (fetched + 1) (scanned ++ [txid])
           end
  end.

End OwnWatch.

(** The whole round; [false] is the error of the mempool leg. *)
Definition runOwnWatchTask (ripemd160 : bytes -> bytes) (mem : Z) (t : ownWatchTask) : ownWatchResult * bool :=
  let '(known, spent) := if ow_hunt t then probeOwnDeposit (ow_conn t) (ow_depTxID t) ownDepositVout else (false, false) in
  let '(spender, scanned, ok) :=
    match ow_conn t with
    | None => ([], [], false)
    | Some conn => match GetRawMempool conn with
                   | inr _ => ([], [], false)
                   | inl txids => (scan_mempool ripemd160 mem conn t txids 0 [], true)
                   end
    end in
  match ow_conn t with
  | Some conn =>
      if ow_hunt t && is_empty spender && ow_rescanDue t then
        let rsc := runRescanPages ripemd160 mem conn t in
        (mkOwnWatchResult (rs_spender rsc) scanned known (known && negb spent) (rs_nextCursor rsc) (rs_advanced rsc) (rs_err rsc) true, ok)
      else (mkOwnWatchResult spender scanned known (known && negb spent) 0 false false false, ok)
  | None => (mkOwnWatchResult spender scanned known (known && negb spent) 0 false false false, ok)
  end.

(** ** The workers of the watch table (api/reconcile.go) *)

(** The depths the wallets assert. *)
Definition run_confirms (l : list (bytes * Connector)) : list (bytes * Z) :=
  concat (map (fun tc : bytes * Connector =>
    match GetRawTransactionVerbose (snd tc) (fst tc) with
    | inl vtx => if negb (vt_HasConfirmations vtx) || (vt_Confirmations vtx <? 0) then [] else [(fst tc, vt_Confirmations vtx)]
    | inr _ => []
    end) l).

Definition run_rebroadcast (l : list (bytes * Connector * bytes)) : list (bytes * bool) :=
  map (fun '(txid, conn, hex) => (txid, match SendRawTransaction conn hex with inl _ => true | inr _ => false end)) l.

Section Engine.
Context (ripemd160 : bytes -> bytes) {secp : Secp} (uni : Unicode) (mem : Z).

(** [clock] is the worker's time. *)
Definition run_task (clock : Z) (t : workTask) : option workResult :=
  match t with
  | TDepositA id gen c => Some (RDepositA id gen (makerDepositBuildTask ripemd160 uni clock c))
  | TDepositB id gen c => Some (RDepositB id gen (takerDepositBuildTask ripemd160 uni clock c))
  | TClaimA id gen c => Some (RClaimA id gen (makerClaimBuildTask ripemd160 uni clock c))
  | TClaimB id gen c payTxID => Some (RClaimB id gen (takerClaimBuildTask ripemd160 uni mem clock c payTxID))
  | TBroadcast id gen conn cur hex k =>
      Some (RBroadcast id gen cur hex k (match conn with None => fail | Some c => SendRawTransaction c hex end))
  | TRefund t => Some (RRefund t (runRefundTask (rt_conn t) (rt_hex t) (rt_lockTime t) true (rt_depTxID t) (rt_proveSpend t)))
  | TWatch t => Some (RWatch t (run_watch t))
  | TOwnWatch t => let '(r, ok) := runOwnWatchTask ripemd160 mem t in Some (ROwnWatch t r ok)
  | TConfirms l => Some (RConfirms (run_confirms l))
  | TRebroadcast l => Some (RRebroadcast (run_rebroadcast l))
  | TVerify o conn coin => Some (RVerify o (of_res (verifyOrderUtxos conn coin (o_Utxos o) (o_FromAmount o))))
  end.

(** ** Retry schedules on the engine *)

(** A schedule is kept in memory when its durable write fails. *)
Definition scheduleClaimRetry (e : Env) (id : bytes) (n : Node) : Node :=
  snd (persistNow e (updS id (claim_backoff (e_now e)) n)).
Definition scheduleDepositRetry (e : Env) (id : bytes) (n : Node) : Node :=
  snd (persistNow e (updS id (deposit_backoff (e_now e)) n)).

Definition scheduleNotReady (e : Env) (id : bytes) (isClaim : bool) (terr : error) (n : Node) : bool * Node :=
  match n_sessions n !! id with
  | None => (false, n)
  | Some s =>
      let '(s, ok) := not_ready_poll (e_now e) isClaim terr s in
      let n := updS id (fun _ => s) n in
      if ok then (true, snd (persistNow e n)) else (false, n)
  end.

(** A failed build: the fast re-poll, else the backoff. *)
Definition build_failed (e : Env) (id : bytes) (isClaim : bool) (terr : error) (n : Node) : Node :=
  let '(ok, n) := scheduleNotReady e id isClaim terr n in
  if ok then n else if isClaim then scheduleClaimRetry e id n else scheduleDepositRetry e id n.

(** ** Results of builds *)

Definition session_of (n : Node) (id : bytes) : SwapSession := default zero_session (n_sessions n !! id).

Definition adopt_deposit (out : depositOutcome) (s : SwapSession) : SwapSession :=
  clearDepositRetry s <| s_ourDepositTxID := do_txid out |> <| s_ourLockTime := do_lockTime out |>
    <| s_refundHex := do_refundHex out |> <| s_depositHex := do_depositHex out |>.

Definition adopt_check (check : DepositCheck) (s : SwapSession) : SwapSession :=
  s <| s_theirDepositVout := dc_DepositVout check |> <| s_theirP2SHNative := dc_P2SHNative check |>
    <| s_theirOverpayment := dc_Excess check |>.

Definition record_deposit (out : depositOutcome) (o : Order) : Order :=
  o <| o_BinTxId := do_txid out |> <| o_DepositSent := false |> <| o_RefundTx := do_refundHex out |>.

(** [toXBridgeAmt(counterpartyCoin(s), v)]: an unknown coin is the zero coin. *)
Definition counterparty_xamt (e : Env) (s : SwapSession) (v : Z) : Z :=
  match Get (e_Coins e) (s_dstCur s) with Some c => toXBridgeAmt c v | None => wrap 64 (v * coinScale) end.

Definition record_check (e : Env) (s : SwapSession) (check : DepositCheck) (o : Order) : Order :=
  o <| o_OBinTxVout := dc_DepositVout check |> <| o_OBinTxP2SHAmount := counterparty_xamt e s (dc_P2SHNative check) |>
    <| o_OOverpayment := dc_Excess check |>.

(** The durable intent, then the broadcast. *)
Definition intent_then_broadcast (e : Env) (id : bytes) (gen : Z) (conn : option Connector) (cur hex : bytes) (k : broadcastApply)
    (n : Node) : Node :=
  let '(ok, n) := persistNow e n in
  if ok then snd (postBroadcastTask id gen conn cur hex k n) else updS id releaseAwait n.

Definition applyCreatedA (e : Env) (id : bytes) (gen : Z) (r : wres depositOutcome) (n : Node) : Node :=
  if negb (sessionAlive n id gen) then n
  else match r with
       | inr terr =>
           let n := updS id releaseAwait n in
           if is_empty (s_ourDepositTxID (session_of n id)) then build_failed e id false terr n else n
       | inl out =>
           let n := updO id (record_deposit out) (updS id (adopt_deposit out) n) in
           intent_then_broadcast e id gen (Some (do_conn out)) (s_srcCur (session_of n id)) (do_depositHex out) (BcDepositA out) n
       end.

Definition applyCreatedB (e : Env) (id : bytes) (gen : Z) (r : wres createdBOutcome) (n : Node) : Node :=
  if negb (sessionAlive n id gen) then n
  else match r with
       | inr terr =>
           let n := updS id releaseAwait n in
           match err_Cancel terr with
           | Some reason => snd (sendSelfCancel mem e id reason n)
           | None => if is_empty (s_ourDepositTxID (session_of n id)) then build_failed e id false terr n else n
           end
       | inl out =>
           let n := updS id (fun s => adopt_check (cb_check out) (adopt_deposit (cb_out out) s)) n in
           let n := updO id (fun o => record_check e (session_of n id) (cb_check out) (record_deposit (cb_out out) o)) n in
           intent_then_broadcast e id gen (Some (do_conn (cb_out out))) (s_srcCur (session_of n id)) (do_depositHex (cb_out out))
             (BcDepositB out) n
       end.

Definition adopt_claim (out : confirmOutcome) (s : SwapSession) : SwapSession :=
  clearClaimRetry s <| s_claimHex := co_payHex out |> <| s_claimTxID := co_payTxID out |> <| s_claimCur := co_cur out |>.

Definition applyConfirmedA (e : Env) (id : bytes) (gen : Z) (r : wres confirmOutcome) (n : Node) : Node :=
  if negb (sessionAlive n id gen) then n
  else match r with
       | inr terr =>
           let n := updS id releaseAwait n in
           match err_Cancel terr with
           | Some reason => snd (sendSelfCancel mem e id reason n)
           | None => if is_empty (s_claimTxID (session_of n id)) then build_failed e id true terr n else n
           end
       | inl out =>
           let n := updS id (fun s => adopt_check (co_check out) (adopt_claim out s)) n in
           intent_then_broadcast e id gen (Some (co_conn out)) (co_cur out) (co_payHex out) (BcClaimA out) n
       end.

Definition applyConfirmedB (e : Env) (id : bytes) (gen : Z) (r : wres confirmOutcome) (n : Node) : Node :=
  if negb (sessionAlive n id gen) then n
  else match r with
       | inr terr =>
           let n := updS id releaseAwait n in
           if is_empty (s_claimTxID (session_of n id)) then build_failed e id true terr n else n
       | inl out =>
           let n := updS id (fun s => adopt_claim out s <| s_secret := co_secret out |>) n in
           intent_then_broadcast e id gen (Some (co_conn out)) (co_cur out) (co_payHex out) (BcClaimB out) n
       end.

(** ** Results of broadcasts *)

(** The reply that ends a phase. *)
Definition reply (e : Env) (id : bytes) (cmd : Z) (body : SwapSession -> bytes) (n : Node) : Node :=
  let s := session_of n id in
  snd (send e (s_hub s) cmd (body s) (s_privKey s) (persist e n)).

Definition deposit_failed (e : Env) (id : bytes) (n : Node) : Node :=
  let s := session_of n id in
  if negb (is_empty (s_ourDepositTxID s)) && negb (is_empty (s_depositHex s)) then scheduleDepositRetry e id n else n.

Definition claim_failed (e : Env) (id : bytes) (n : Node) : Node :=
  let s := session_of n id in
  if negb (is_empty (s_claimTxID s)) && negb (is_empty (s_claimHex s)) then scheduleClaimRetry e id n else n.

Definition deposit_sent (e : Env) (id : bytes) (st : clientState) (n : Node) : Node :=
  let n := updO id (fun o => o <| o_DepositSent := true |>) (updS id clearDepositRetry n) in
  setOrderStatus e id "created" (updS id (fun s => s <| s_state := st |>) n).

Definition applyCreatedABroadcast (e : Env) (id : bytes) (gen : Z) (cur : bytes) (out : depositOutcome) (ok : bool) (n : Node) : Node :=
  if negb (sessionAlive n id gen) then recordBroadcast e id broadcastDeposit cur (do_txid out) (do_depositHex out) n
  else
    let n := updS id releaseAwait n in
    if negb ok then deposit_failed e id n
    else
      reply e id XbcTransactionCreatedA (fun s => CreatedABody_Marshal
        (mkCreatedABody (s_hub s) (s_id s) (do_txid out) (s_secretHash s) (do_lockTime out) [] (do_refundHex out)))
        (deposit_sent e id csCreatedA n).

Definition applyCreatedBBroadcast (e : Env) (id : bytes) (gen : Z) (cur : bytes) (out : createdBOutcome) (ok : bool) (n : Node) : Node :=
  if negb (sessionAlive n id gen) then recordBroadcast e id broadcastDeposit cur (do_txid (cb_out out)) (do_depositHex (cb_out out)) n
  else
    let n := updS id releaseAwait n in
    if negb ok then deposit_failed e id n
    else
      reply e id XbcTransactionCreatedB (fun s => CreatedBBody_Marshal
        (mkCreatedBBody (s_hub s) (s_id s) (do_txid (cb_out out)) (do_lockTime (cb_out out)) [] (do_refundHex (cb_out out))))
        (deposit_sent e id csCreatedB n).

Definition applyConfirmedABroadcast (e : Env) (id : bytes) (gen : Z) (out : confirmOutcome) (ok : bool) (n : Node) : Node :=
  if negb (sessionAlive n id gen) then recordBroadcast e id broadcastClaim (co_cur out) (co_payTxID out) (co_payHex out) n
  else
    let n := updS id releaseAwait n in
    if negb ok then claim_failed e id n
    else
      let n := setOrderStatus e id "finished" (updS id (fun s => clearClaimRetry s <| s_state := csFinished |>) n) in
      let n := updO id (fun o => record_check e (session_of n id) (co_check out) (o <| o_CounterpartyRedeemed := true |>)) n in
      reply e id XbcTransactionConfirmedA (fun s => ConfirmedABody_Marshal (mkConfirmedABody (s_hub s) (s_id s) (co_payTxID out))) n.

Definition applyConfirmedBBroadcast (e : Env) (id : bytes) (gen : Z) (out : confirmOutcome) (ok : bool) (n : Node) : Node :=
  if negb (sessionAlive n id gen) then recordBroadcast e id broadcastClaim (co_cur out) (co_payTxID out) (co_payHex out) n
  else
    let n := updS id releaseAwait n in
    if negb ok then claim_failed e id n
    else
      let n := setOrderStatus e id "finished" (updS id (fun s => clearClaimRetry s <| s_state := csFinished |>) n) in
      let n := updO id (fun o => o <| o_CounterpartyRedeemed := true |>) n in
      reply e id XbcTransactionConfirmedB (fun s => ConfirmedBBody_Marshal (mkConfirmedBBody (s_hub s) (s_id s) (co_payTxID out))) n.

Definition resume_broadcast (e : Env) (id : bytes) (gen : Z) (cur : bytes) (k : broadcastApply) (ok : bool) (n : Node) : Node :=
  match k with
  | BcDepositA out => applyCreatedABroadcast e id gen cur out ok n
  | BcDepositB out => applyCreatedBBroadcast e id gen cur out ok n
  | BcClaimA out => applyConfirmedABroadcast e id gen out ok n
  | BcClaimB out => applyConfirmedBBroadcast e id gen out ok n
  end.

(** The part every broadcast shares: the watch table and the progress clock of
    the session now under that id. *)
Definition broadcast_done (e : Env) (id : bytes) (gen : Z) (cur hex : bytes) (k : broadcastApply) (r : wres bytes) (n : Node) : Node :=
  match r with
  | inr _ => resume_broadcast e id gen cur k false n
  | inl _ =>
      let n := match txIDFromHex hex with
               | Some localID => recordBroadcast e id (apply_kind k) cur localID hex n
               | None => n
               end in
      resume_broadcast e id gen cur k true (updS id (fun s => s <| s_lastProgress := e_now e |>) n)
  end.

End Engine.
