(* ===== verification/Sweep.v ===== *)
(** * The sweeps of the engine

    api/swap.go (refunds, deposit watch), api/swap_retry.go (rebuilds),
    api/hold_resend.go, api/stall_watch.go and api/refund_sweep.go: the loops
    over all sessions or orders that the ticker runs, and what the results of
    their tasks do.  A loop over a Go map visits the ids in the order of
    [e_keys]. *)

From S2P Require Import Prelude Sort Sha256 GoLib Hex Codec Bodies Packet Secp Signer Conf Coin Address Script Price Tx Wallet.
From S2P Require Import Deposit Order Store Session Persist Node Resume.

(** A sweep over the orders of the book. *)
Definition each_order (e : Env) (f : bytes -> Order -> Node -> Node) (n : Node) : Node :=
  fold_left (fun n id => match st_orders (n_store n) !! id with Some o => f id o n | None => n end) (e_keys e) n.

(** ** Stuck guards (api/swap_retry.go) *)

Definition stuck (now : Z) (s : SwapSession) : bool :=
  s_await s && negb (s_awaitSince s =? 0) && (s_awaitSince s <=? now) && (awaitStuckMicro <? now - s_awaitSince s).

Definition clearStuckAwait (e : Env) (n : Node) : Node :=
  each_session e (fun id s n => if stuck (e_now e) s then updS id releaseAwait n else n) n.

(** ** Refunds *)

Definition enterSecretHunt (e : Env) (id : bytes) (n : Node) : Node :=
  match n_sessions n !! id with
  | Some s =>
      if s_secretHunt s then n
      else persist e (clearRefundBackoff id (updS id (fun s => s <| s_secretHunt := true |> <| s_huntSince := e_now e |>) n))
  | None => n
  end.

(** The refund loop of the live sessions. *)
Definition refund_due (e : Env) (n : Node) (id : bytes) (s : SwapSession) : bool :=
  negb (s_refundDone s) && negb (is_empty (s_refundHex s)) && negb (bool_decide (s_state s = csFinished))
  && negb (s_secretHunt s)
  && negb (s_isMaker s && cs_ge (s_state s) csConfirmedA) && negb (negb (s_isMaker s) && cs_ge (s_state s) csConfirmedB)
  && negb (refundBackoffActive e n id)
  && negb (cs_lt (s_state s) csCreatedA && negb (orderDepositSent n id))
  && negb (bool_decide (id ∈ n_pendingRefunds n)).

Definition scanRefunds (e : Env) (n : Node) : Node :=
  each_session e (fun id s n =>
    if refund_due e n id s
    then postRefundTask e id (s_srcCur s) (s_refundHex s) (s_ourLockTime s) DoneNil (fun n => n)
           (n <| n_pendingRefunds ::= fun p => {[id]} ∪ p |>)
    else n) n.

(** What a refund's callback does with an outcome ([None]: no error). *)
Definition call_done (e : Env) (t : refundTask) (txid : bytes) (err : option refundErr) (n : Node) : Node :=
  let id := rt_order t in
  match rt_done t with
  | DoneNil => n
  | DoneUser => report id txid err true n
  | DoneChain cands user =>
      match err with
      | None => report id txid None user n
      | Some errRefundDepositSpent => if user then report id [] err true n else recordRefundFailure e id n
      | Some errRefundOther => tryStoredRefund e id (rt_hex t) (rt_lockTime t) cands user n
      end
  end.

Definition is_nil (d : refundDone) : bool := match d with DoneNil => true | _ => false end.

Definition set_status_at (e : Env) (status : string) (o : Order) : Order :=
  o <| o_Status := status |> <| o_Updated := e_now e |>.

Definition mark_rollback_failed (e : Env) (o : Order) : Order :=
  if negb (isOrderTerminal (o_Status o)) && negb (String.eqb (o_Status o) "rollback failed")
  then set_status_at e "rollback failed" o else o.

Definition mark_rolled_back (e : Env) (o : Order) : Order :=
  if (negb (isOrderTerminal (o_Status o)) || String.eqb (o_Status o) "canceled") && negb (String.eqb (o_Status o) "rolled back")
  then set_status_at e "rolled back" o else o.

Definition refund_failed (e : Env) (t : refundTask) (n : Node) : Node :=
  let id := rt_order t in
  let n := call_done e t [] (Some errRefundOther) n in
  let n := if rollbackGate n id then persist e (updO id (mark_rollback_failed e) n) else n in
  if is_nil (rt_done t) then recordRefundFailure e id n else n.

Definition refund_sent (e : Env) (t : refundTask) (txid : bytes) (n : Node) : Node :=
  let id := rt_order t in
  let n := call_done e t txid None n in
  if is_empty txid then n
  else
    let n := clearRefundBackoff id n in
    let n := match txIDFromHex (rt_hex t) with
             | Some localID => recordBroadcast e id broadcastRefund (rt_cur t) localID (rt_hex t) n
             | None => n
             end in
    let n := updS id (fun s => s <| s_refundDone := true |>) n in
    let n := if rollbackGate n id then updO id (mark_rolled_back e) n else n in
    pruneSessions e (persist e n).

(** The result of a refund task. A spent deposit sends a taker hunting for the
    secret; for a maker it contradicts the protocol and counts as a failure. *)
Definition apply_refund (e : Env) (t : refundTask) (r : wres refundOutcome) (n : Node) : Node :=
  let id := rt_order t in
  let n := n <| n_pendingRefunds ::= fun p => p ∖ {[id]} |> in
  match r with
  | inr _ => refund_failed e t n
  | inl out =>
      if ro_depositSpent out then
        match n_sessions n !! id with
        | Some s =>
            if s_isMaker s then refund_failed e t n
            else call_done e t [] (Some errRefundDepositSpent) (enterSecretHunt e id n)
        | None => if is_nil (rt_done t) then recordRefundFailure e id n else call_done e t [] (Some errRefundDepositSpent) n
        end
      else refund_sent e t (ro_txid out) n
  end.

(** ** Refunds of stored orders (api/refund_sweep.go) *)

(** What the sweep makes of one order; [None]: the transaction parser panicked. *)
Definition stored_refund (mem : Z) (e : Env) (id : bytes) (o : Order) (n : Node) : option (Node * bool) :=
  let skip := Some (n, false) in
  if negb (o_Mine o) || is_empty (o_RefundTx o) || negb (o_DepositSent o) then skip
  else if one_of (statusString (o_Status o)) ["finished"; "dropped"; "invalid"; "rolled back"] then skip
  else if bool_decide (is_Some (n_sessions n !! id)) then skip
  else if refundBackoffActive e n id then skip
  else match DecodeString (o_RefundTx o) with
       | None => skip
       | Some raw =>
           match Deserialize mem raw with
           | Panic => None
           | Err _ => skip
           | Ok rtx =>
               match n_tracked n !! txIDFromBytes raw with
               | Some tb =>
                   let reconcile := (1 <=? tb_Confs tb) && rollbackGate n id in
                   let n := if reconcile then updO id (mark_rolled_back e) n else n in
                   Some (clearRefundBackoff id n, reconcile)
               | None =>
                   let coin := utxoCurrency o in
                   if is_empty coin || negb (bool_decide (is_Some (e_Connectors e !! coin))) then skip
                   else if bool_decide (id ∈ n_pendingRefunds n) then skip
                   else Some (postRefundTask e id coin (o_RefundTx o) (tx_LockTime rtx) DoneNil (fun n => n)
                                (n <| n_pendingRefunds ::= fun p => {[id]} ∪ p |>), false)
               end
           end
       end.

(** A panic ends the whole sweep, the final [persist] included. *)
Fixpoint scan_stored (mem : Z) (e : Env) (keys : list bytes) (dirty : bool) (n : Node) : Node :=
  match keys with
  | [] => if dirty then persist e n else n
  | id :: keys =>
      match st_orders (n_store n) !! id with
      | None => scan_stored mem e keys dirty n
      | Some o => match stored_refund mem e (hexEncode (o_ID o)) o n with
                  | None => n
                  | Some (n, d) => scan_stored mem e keys (dirty || d) n
                  end
      end
  end.

Definition scanStoredRefunds (mem : Z) (e : Env) (n : Node) : Node := scan_stored mem e (e_keys e) false n.

(** ** The counterparty's deposit (api/swap.go) *)

(** Canceled, claimed or failed orders are not watched. *)
Definition watch_settled (n : Node) (id : bytes) : bool :=
  match get_order n id with
  | Some o => isOrderTerminal (o_Status o) || o_CounterpartyRedeemed o || String.eqb (o_Status o) "rolled back"
              || String.eqb (o_Status o) "rollback failed"
  | None => false
  end.

(** The window between our deposit and our claim. *)
Definition pre_claim (s : SwapSession) : bool :=
  if s_isMaker s then cs_ge (s_state s) csCreatedA && cs_lt (s_state s) csConfirmedA
  else cs_ge (s_state s) csCreatedB && cs_lt (s_state s) csConfirmedB.

Definition no_claim (s : SwapSession) : bool := is_empty (s_claimHex s) && is_empty (s_claimTxID s).

Definition block_time (e : Env) (cur : bytes) : Z :=
  match e_Confs e !! cur with Some cc => if 0 <? cc_BlockTime cc then cc_BlockTime cc else 0 | None => 0 end.

Definition postDepositWatchTask (e : Env) (id : bytes) (s : SwapSession) (n : Node) : Node :=
  let threshold := depositWatchVanishThreshold (block_time e (s_dstCur s)) in
  let proveSpend := negb (is_empty (s_ourDepositTxID s)) && rollbackGate n id in
  let t := mkWatchTask id (e_Connectors e !! s_dstCur s) (s_theirDepositTxID s) (s_theirDepositVout s) threshold
             (proveSpend && (threshold <=? s_vanishMisses s + 1)) (e_Connectors e !! s_srcCur s) (s_ourDepositTxID s) in
  let '(ok, n) := post (TWatch t) n in
  if ok then n else n <| n_pendingWatch ::= fun p => p ∖ {[id]} |>.

Definition no_misses (id : bytes) (n : Node) : Node := updS id (fun s => s <| s_vanishMisses := 0 |>) n.

Definition watch_due (n : Node) (id : bytes) (s : SwapSession) : bool :=
  negb (is_empty (s_theirDepositTxID s)) && negb (s_await s) && no_claim s && negb (s_secretHunt s) && pre_claim s
  && negb (watch_settled n id) && negb (s_theirP2SHNative s =? 0).

Definition watchCounterpartyDeposits (e : Env) (n : Node) : Node :=
  each_session e (fun id s n =>
    if negb (watch_due n id s) then no_misses id n
    else if bool_decide (id ∈ n_pendingWatch n) then n
    else postDepositWatchTask e id s (n <| n_pendingWatch ::= fun p => {[id]} ∪ p |>)) n.

Section Engine.
Context (ripemd160 : bytes -> bytes) {secp : Secp} (uni : Unicode) (mem : Z).

Definition apply_watch (e : Env) (t : watchTask) (r : wres depositWatchOutcome) (n : Node) : Node :=
  let id := wt_order t in
  let n := n <| n_pendingWatch ::= fun p => p ∖ {[id]} |> in
  match r with
  | inr _ => no_misses id n
  | inl out =>
      if dw_unspent out then no_misses id n
      else match n_sessions n !! id with
           | None => n
           | Some s =>
               if s_secretHunt s || s_await s || negb (no_claim s) || negb (pre_claim s) || watch_settled n id then no_misses id n
               else
                 let misses := s_vanishMisses s + 1 in
                 if misses <? wt_threshold t then updS id (fun s => s <| s_vanishMisses := misses |>) n
                 else
                   let n := no_misses id n in
                   if dw_ownKnown out && dw_ownSpent out && negb (s_isMaker s) then enterSecretHunt e id n
                   else snd (sendSelfCancel mem e id (if s_isMaker s then crBadBDepositTx else crBadADepositTx) n)
           end
  end.

(** ** Rebuilds and reposts (api/swap_retry.go) *)

(** The wallet shows the transaction in a block. *)
Definition on_chain (conn : option Connector) (txid : bytes) : bool :=
  match conn with
  | None => false
  | Some c => match GetRawTransactionVerbose c txid with inl v => 1 <=? vt_Confirmations v | inr _ => false end
  end.

Definition built_deposit (s : SwapSession) (conn : Connector) : depositOutcome :=
  mkDepositOutcome (s_ourDepositTxID s) (s_ourLockTime s) (s_refundHex s) (s_depositHex s) conn.
Definition built_check (s : SwapSession) : DepositCheck :=
  mkDepositCheck true 0 (s_theirP2SHNative s) (s_theirDepositVout s) (s_theirOverpayment s).
Definition built_claim (s : SwapSession) (conn : Connector) : confirmOutcome :=
  mkConfirmOutcome (s_secret s) (s_claimTxID s) (s_claimHex s) (s_claimCur s) (built_check s) conn.

(** The repost of bytes already built: a confirmed transaction is adopted; the
    identical bytes go out again a bounded number of times. *)
Definition adoptOrRepostDeposit (e : Env) (id : bytes) (s : SwapSession) (n : Node) : Node :=
  let now := e_now e in
  let retry_at v := updS id (fun s => s <| s_depositRetryAt := v |>) in
  match e_Connectors e !! s_srcCur s with
  | Some conn =>
      let out := built_deposit s conn in
      let k := if s_isMaker s then BcDepositA out else BcDepositB (mkCreatedBOutcome out (built_check s)) in
      if on_chain (Some conn) (s_ourDepositTxID s) then
        resume_broadcast e id (s_gen s) (s_srcCur s) k true (retry_at 0 n)
      else if broadcastRepostMax <=? s_depositRetries s then retry_at 0 n
      else
        let n := updS id (fun s => holdAwait now s <| s_depositRetryAt := 0 |> <| s_lastProgress := now |>) n in
        let '(ok, n) := postBroadcastTask id (s_gen s) (Some conn) (s_srcCur s) (s_depositHex s) k n in
        if ok then n else retry_at (now + claimRetryBaseMicro) (updS id releaseAwait n)
  | None => if broadcastRepostMax <=? s_depositRetries s then retry_at 0 n else retry_at (now + claimRetryBaseMicro) n
  end.

Definition adoptOrRepostClaim (e : Env) (id : bytes) (s : SwapSession) (n : Node) : Node :=
  let now := e_now e in
  let retry_at v := updS id (fun s => s <| s_claimRetryAt := v |>) in
  match e_Connectors e !! s_claimCur s with
  | Some conn =>
      let out := built_claim s conn in
      let k := if s_isMaker s then BcClaimA out else BcClaimB out in
      if on_chain (Some conn) (s_claimTxID s) then
        resume_broadcast e id (s_gen s) (s_claimCur s) k true (retry_at 0 n)
      else if broadcastRepostMax <=? s_claimRetries s then retry_at 0 n
      else
        let n := updS id (fun s => holdAwait now s <| s_claimRetryAt := 0 |> <| s_lastProgress := now |>) n in
        let '(ok, n) := postBroadcastTask id (s_gen s) (Some conn) (s_claimCur s) (s_claimHex s) k n in
        if ok then n else retry_at (now + claimRetryBaseMicro) (updS id releaseAwait n)
  | None => if broadcastRepostMax <=? s_claimRetries s then retry_at 0 n else retry_at (now + claimRetryBaseMicro) n
  end.

(** [s.holdAwait(); s.lastProgress = now], then the rebuild task; a dropped one is due again after one base delay. *)
Definition repost_build (e : Env) (id : bytes) (isClaim : bool) (t : workTask) (n : Node) : Node :=
  let now := e_now e in
  let clear (v : Z) (s : SwapSession) := if isClaim then s <| s_claimRetryAt := v |> else s <| s_depositRetryAt := v |> in
  let n := updS id (fun s => holdAwait now (clear 0 s) <| s_lastProgress := now |>) n in
  let '(ok, n) := postSwapTask id t n in
  if ok then n else updS id (fun s => clear (now + claimRetryBaseMicro) (releaseAwait s)) n.

Definition rebuild_deposit_task (e : Env) (n : Node) (id : bytes) (s : SwapSession) : option workTask :=
  if s_isMaker s && cs_lt (s_state s) csCreatedA && negb (bool_decide (s_theirPub s = zeros 33))
  then Some (TDepositA id (s_gen s) (snapshot e (orderFunding n id) s))
  else if negb (s_isMaker s) && cs_lt (s_state s) csCreatedB && negb (is_empty (s_theirDepositTxID s))
  then Some (TDepositB id (s_gen s) (snapshot e (orderFunding n id) s))
  else None.

Definition retry_deposit (e : Env) (id : bytes) (s : SwapSession) (n : Node) : Node :=
  let now := e_now e in
  if s_await s then n
  else if negb (is_empty (s_ourDepositTxID s)) && negb (is_empty (s_depositHex s)) then
    let rolePreCreated := if s_isMaker s then cs_lt (s_state s) csCreatedA else cs_lt (s_state s) csCreatedB in
    if negb rolePreCreated || orderDepositSent n id then n
    else if (s_depositRetryAt s =? 0) || (now <? s_depositRetryAt s) then n
    else adoptOrRepostDeposit e id s n
  else if negb (is_empty (s_ourDepositTxID s)) then n
  else match rebuild_deposit_task e n id s with
       | None => n
       | Some t =>
           if s_depositRetryAt s =? 0
           then if negb (s_lastProgress s =? 0) && (now <? s_lastProgress s + claimRetryBaseMicro) then n
                else repost_build e id false t n
           else if now <? s_depositRetryAt s then n
           else repost_build e id false t n
       end.

Definition retryFailedDepositBuilds (e : Env) (n : Node) : Node := each_session e (retry_deposit e) n.

Definition rebuild_claim_task (e : Env) (n : Node) (id : bytes) (s : SwapSession) : option workTask :=
  if negb (s_isMaker s) && bool_decide (s_state s = csCreatedB) && negb (is_empty (s_theirPayTxID s))
  then Some (TClaimB id (s_gen s) (snapshot e (orderFunding n id) s) (s_theirPayTxID s))
  else if s_isMaker s && bool_decide (s_state s = csCreatedA)
  then Some (TClaimA id (s_gen s) (snapshot e (orderFunding n id) s))
  else None.

Definition retry_claim (e : Env) (id : bytes) (s : SwapSession) (n : Node) : Node :=
  let now := e_now e in
  if s_await s || (s_claimRetryAt s =? 0) || (now <? s_claimRetryAt s) then n
  else if negb (is_empty (s_claimTxID s)) && negb (is_empty (s_claimHex s)) then
    let rolePreConfirmed :=
      if s_isMaker s then bool_decide (s_state s = csCreatedA) || bool_decide (s_state s = csConfirmedA)
      else bool_decide (s_state s = csCreatedB) || bool_decide (s_state s = csConfirmedB) in
    if negb rolePreConfirmed then updS id (fun s => s <| s_claimRetryAt := 0 |>) n
    else adoptOrRepostClaim e id s n
  else if negb (is_empty (s_claimTxID s)) then n
  else match rebuild_claim_task e n id s with
       | None => n
       | Some t => repost_build e id true t n
       end.

Definition retryFailedClaimBuilds (e : Env) (n : Node) : Node := each_session e (retry_claim e) n.

(** ** HoldApply repair (api/hold_resend.go) *)

Definition holdApplyResendMicro : Z := 60 * 1000000.
Definition hubSilenceMicro : Z := 10 * 60 * 1000000.
Definition silentHubTTLMicro : Z := 24 * 60 * 60 * 1000000.

(** Parked after a HoldApply sent at least [age] ago. *)
Definition parked (now age : Z) (s : SwapSession) : bool :=
  bool_decide (s_state s = csHoldApplied) && negb (s_holdApplySentAt s =? 0) && (s_holdApplySentAt s <? now)
  && (age <=? now - s_holdApplySentAt s).

(** A panic of the address decoder ends the sweep. *)
Fixpoint resend_loop (e : Env) (keys : list bytes) (n : Node) : Node :=
  match keys with
  | [] => n
  | id :: keys =>
      match n_sessions n !! id with
      | None => resend_loop e keys n
      | Some s =>
          if negb (parked (e_now e) holdApplyResendMicro s) || s_await s then resend_loop e keys n
          else match holdApplySource uni (e_Coins e) s with
               | Panic => n
               | Err _ => resend_loop e keys n
               | Ok src =>
                   let body := HoldApplyBody_Marshal (mkHoldApplyBody (s_hub s) src (s_id s)) in
                   let '(ok, n) := send e (s_hub s) XbcTransactionHoldApply body (s_privKey s) n in
                   resend_loop e keys (if ok then updS id (fun s => s <| s_holdApplySentAt := e_now e |>) n else n)
               end
      end
  end.

Definition resendHoldApplies (e : Env) (n : Node) : Node := resend_loop e (e_keys e) n.

Definition recordSilentHubs (e : Env) (n : Node) : Node :=
  each_session e (fun id s n =>
    if negb (parked (e_now e) hubSilenceMicro s) || bool_decide (s_hubKey s = zeros 33) then n
    else if negb (e_startedAt e =? 0) && (s_holdApplySentAt s <? e_startedAt e) then n
    else match n_silentHubs n !! s_hubKey s with
         | Some _ => n
         | None => n <| n_silentHubs ::= <[s_hubKey s := e_now e + silentHubTTLMicro]> |>
         end) n.

(** The keys excluded now, and the table without the lapsed ones. *)
Definition hubExclusions (now : Z) (n : Node) : list bytes * Node :=
  let live := filter (fun ku : bytes * Z => now < snd ku) (n_silentHubs n) in
  (sort_by bytes_lt (map fst (map_to_list live)), n <| n_silentHubs := live |>).

(** [pick] is the registry's choice with the given keys excluded. *)
Definition pickHub (pick : list bytes -> option bytes) (now : Z) (n : Node) : option bytes * Node :=
  let '(excl, n) := hubExclusions now n in
  match excl with
  | [] => (pick [], n)
  | _ => match pick excl with Some k => (Some k, n) | None => (pick [], n) end
  end.

(** ** The watchdog and the garbage of the book (api/stall_watch.go) *)

Definition sessionStallMicro : Z := 30 * 60 * 1000000.
Definition mineOrderTTLMicro : Z := 24 * 60 * 60 * 1000000.

Definition stalled (e : Env) (n : Node) (id : bytes) (s : SwapSession) : bool :=
  negb (bool_decide (s_state s = csFinished) || s_refundDone s || s_await s || negb (is_empty (s_claimHex s)) || s_secretHunt s)
  && negb (s_lastProgress s =? 0)
  && (s_lastProgress s <=? e_now e) && (sessionStallMicro <? e_now e - s_lastProgress s)
  && negb (watch_settled n id) && negb (refundBackoffActive e n id).

(** A panic inside a cancel ends the sweep. *)
Fixpoint stall_loop (e : Env) (keys : list bytes) (n : Node) : Node :=
  match keys with
  | [] => n
  | id :: keys =>
      match n_sessions n !! id with
      | None => stall_loop e keys n
      | Some s =>
          if stalled e n id s
          then let '(returned, n) := sendSelfCancel mem e id crTimeout n in if returned then stall_loop e keys n else n
          else stall_loop e keys n
      end
  end.

Definition watchStalledSessions (e : Env) (n : Node) : Node := stall_loop e (e_keys e) n.

(** Some unconfirmed broadcast of the order is watched. *)
Definition tracked_unconfirmed (n : Node) (id : bytes) : bool :=
  existsb (fun kt : bytes * trackedBroadcast => (tb_Confs (snd kt) =? 0) && bool_decide (tb_OrderID (snd kt) = id))
    (map_to_list (n_tracked n)).

Definition limbo (e : Env) (n : Node) (id : bytes) (o : Order) : bool :=
  o_Mine o && negb (isOrderTerminal (o_Status o)) && negb (o_DepositSent o)
  && negb (bool_decide (is_Some (n_sessions n !! id))) && negb (tracked_unconfirmed n id)
  && (o_Updated o <=? e_now e) && (mineOrderTTLMicro <? e_now e - o_Updated o).

Definition gcStaleMineOrders (e : Env) (n : Node) : Node :=
  each_order e (fun _ o n =>
    let id := hexEncode (o_ID o) in
    if limbo e n id o then n <| n_store ::= MoveToHistory id "dropped" crTimeout (e_now e) |> else n) n.

(** ** Expiry of the book (api/node.go) *)

Definition in_swap (n : Node) (id : bytes) (s : SwapSession) : bool :=
  if cs_num (s_state s) <=? cs_num csMaker then false
  else if s_isMaker s then true
  else match get_order n id with Some o => negb (String.eqb (o_Status o) "open") | None => false end.

Definition pruneExpired (e : Env) (n : Node) : Node :=
  let inSwap := dom (filter (fun ks : bytes * SwapSession => in_swap n (fst ks) (snd ks) = true) (n_sessions n)) in
  n <| n_store ::= fun st => fst (PruneExpired (e_now e) (e_height e) inSwap (e_keys e) st) |>.

Definition pruneTakeRetries (n : Node) : Node :=
  n <| n_takeRetries ::= filter (fun ka : bytes * Z =>
    match get_order n (fst ka) with
    | Some o => String.eqb (o_Status o) "open" || String.eqb (o_Status o) "accepting"
    | None => false
    end = true) |>.

End Engine.
