(* ===== verification/Track.v ===== *)
(** * Watched broadcasts and the own-deposit watch

    api/reconcile.go: the table of local broadcasts, polled for confirmations,
    broadcast again while unconfirmed, dropped once deep. api/own_deposit_watch.go,
    the engine's side: the scans for the spender of a taker's deposit, whose
    result drives the ConfirmB handler. *)

From S2P Require Import Prelude Sort Sha256 GoLib Hex Codec Bodies Packet Secp Signer Conf Coin Address Script Price Tx Wallet.
From S2P Require Import Deposit Order Store Session Persist Node Resume Sweep.

(** ** The watch table (api/reconcile.go) *)

Definition trackedCap : Z := 500.
Definition trackedRetainDepth : Z := 6.
Definition maxRebroadcasts : Z := 10.
Definition rebroadcastFloorMicro : Z := 120 * 1000000.

(** The depth below which a broadcast is watched. *)
Definition settleDepth (e : Env) (coin : bytes) : Z :=
  match e_Confs e !! coin with
  | Some cc => if trackedRetainDepth <? cc_Confirmations cc then cc_Confirmations cc else trackedRetainDepth
  | None => trackedRetainDepth
  end.

Definition refundSettleable (n : Node) (id : bytes) (kind : broadcastKind) : bool :=
  if negb (bool_decide (kind = broadcastRefund)) then true
  else match get_order n id with
       | None => true
       | Some o => isOrderTerminal (o_Status o) || String.eqb (statusString (o_Status o)) "rolled back"
       end.

Definition has_session (n : Node) (id : bytes) : bool := bool_decide (is_Some (n_sessions n !! id)).

Definition watchNeeded (e : Env) (n : Node) (coin id : bytes) (kind : broadcastKind) (confs : Z) : bool :=
  let live := negb (is_empty id) && has_session n id in
  (confs <? settleDepth e coin) || live || negb (refundSettleable n id kind).

Definition tb_watched (e : Env) (n : Node) (tb : trackedBroadcast) : bool :=
  watchNeeded e n (tb_Coin tb) (tb_OrderID tb) (tb_Kind tb) (tb_Confs tb).

(** Whether an entry was dropped, and the table without the settled ones. *)
Definition finalizeWatchEntries (e : Env) (n : Node) : bool * Node :=
  (existsb (fun kt : bytes * trackedBroadcast => negb (tb_watched e n (snd kt))) (map_to_list (n_tracked n)),
   n <| n_tracked := filter (fun kt : bytes * trackedBroadcast => tb_watched e n (snd kt) = true) (n_tracked n) |>).

Definition finalize_and_persist (e : Env) (n : Node) : Node :=
  let '(dropped, n) := finalizeWatchEntries e n in if dropped then persist e n else n.

(** Deep, sessionless, reconciled. *)
Definition droppable (n : Node) (tb : trackedBroadcast) : bool :=
  negb (tb_Confs tb <? trackedRetainDepth) && negb (has_session n (tb_OrderID tb)) && refundSettleable n (tb_OrderID tb) (tb_Kind tb).

Definition drop_over_cap (t : gmap bytes trackedBroadcast) (txid : bytes) : gmap bytes trackedBroadcast :=
  if Z.of_nat (size t) <=? trackedCap then t else delete txid t.

(** The oldest droppable entries, down to the cap. *)
Definition pruneTracked (n : Node) : Node :=
  if Z.of_nat (size (n_tracked n)) <=? trackedCap then n
  else
    let cands := filter (fun kt : bytes * trackedBroadcast => droppable n (snd kt) = true) (map_to_list (n_tracked n)) in
    let oldest := sort_by (fun a b : bytes * trackedBroadcast => tb_Seq (snd a) <? tb_Seq (snd b)) cands in
    n <| n_tracked := fold_left drop_over_cap (map fst oldest) (n_tracked n) |>.

(** ** Confirmation polls *)

(** The watched transactions whose coin has a wallet. *)
Definition confirm_list (e : Env) (n : Node) : list (bytes * Connector) :=
  omap (fun kt : bytes * trackedBroadcast => c ← e_Connectors e !! tb_Coin (snd kt); Some (fst kt, c)) (map_to_list (n_tracked n)).

Definition pollBroadcastConfirmations (e : Env) (n : Node) : Node :=
  if n_pendingConfirm n then n
  else match confirm_list e n with
       | [] => finalize_and_persist e n
       | l => let '(ok, n) := post (TConfirms l) (n <| n_pendingConfirm := true |>) in
              if ok then n else n <| n_pendingConfirm := false |>
       end.

Definition set_confs (d : bytes * Z) (t : gmap bytes trackedBroadcast) : gmap bytes trackedBroadcast :=
  alter (fun tb => tb <| tb_Confs := snd d |>) (fst d) t.

Definition confs_differ (n : Node) (d : bytes * Z) : bool :=
  match n_tracked n !! fst d with Some tb => negb (tb_Confs tb =? snd d) | None => false end.

Definition apply_confirms (e : Env) (depths : list (bytes * Z)) (n : Node) : Node :=
  let n := n <| n_pendingConfirm := false |> in
  let changed := existsb (confs_differ n) depths in
  let '(finalized, n) := finalizeWatchEntries e (n <| n_tracked ::= fun t => fold_right set_confs t depths |>) in
  if changed || finalized then persist e n else n.

(** ** Rebroadcasts *)

Definition rebroadcastAfterMicro (e : Env) (coin : bytes) : Z :=
  let blockTime := match e_Confs e !! coin with Some cc => if 0 <? cc_BlockTime cc then cc_BlockTime cc else 60 | None => 60 end in
  let after := swrap64 (blockTime * 3 * 1000000) in
  if after <? rebroadcastFloorMicro then rebroadcastFloorMicro else after.

Definition rebroadcast_due (e : Env) (tb : trackedBroadcast) : bool :=
  (tb_Confs tb =? 0) && (tb_Attempts tb <? maxRebroadcasts) && negb (is_empty (tb_Hex tb))
  && (tb_FirstSeenMicro tb <=? e_now e) && (rebroadcastAfterMicro e (tb_Coin tb) <? e_now e - tb_FirstSeenMicro tb).

Definition rebroadcast_list (e : Env) (n : Node) : list (bytes * Connector * bytes) :=
  omap (fun kt : bytes * trackedBroadcast =>
    if rebroadcast_due e (snd kt)
    then c ← e_Connectors e !! tb_Coin (snd kt); Some (fst kt, c, tb_Hex (snd kt))
    else None) (map_to_list (n_tracked n)).

Definition rebroadcastUnconfirmed (e : Env) (n : Node) : Node :=
  if n_pendingRebroadcast n then n
  else match rebroadcast_list e n with
       | [] => n
       | l => let '(ok, n) := post (TRebroadcast l) (n <| n_pendingRebroadcast := true |>) in
              if ok then n else n <| n_pendingRebroadcast := false |>
       end.

Definition count_attempt (e : Env) (sent : bool) (tb : trackedBroadcast) : trackedBroadcast :=
  let tb := tb <| tb_Attempts ::= Z.add 1 |> in if sent then tb <| tb_FirstSeenMicro := e_now e |> else tb.

Definition apply_rebroadcast (e : Env) (sent : list (bytes * bool)) (n : Node) : Node :=
  let n := n <| n_pendingRebroadcast := false |> in
  let changed := existsb (fun s : bytes * bool => bool_decide (is_Some (n_tracked n !! fst s))) sent in
  let n := n <| n_tracked ::= fun t => fold_right (fun s : bytes * bool => alter (count_attempt e (snd s)) (fst s)) t sent |> in
  if changed then persist e n else n.

(** ** The table across restarts *)

Definition insert_tracked (e : Env) (n : Node) (p : trackedBroadcast) : Node :=
  if is_empty (tb_TxID p) || is_empty (tb_Coin p) then n
  else match n_tracked n !! tb_TxID p with
       | Some _ => n
       | None =>
           let p' := if tb_FirstSeenMicro p =? 0 then p <| tb_FirstSeenMicro := e_now e |> else p in
           n <| n_tracked ::= <[tb_TxID p := p']> |> <| n_trackedSeq ::= Z.max (tb_Seq p) |>
       end.

Definition insertTracked (e : Env) (bc : list trackedBroadcast) (n : Node) : Node := fold_left (insert_tracked e) bc n.

Definition restoreTracked (e : Env) (bc : list trackedBroadcast) (n : Node) : Node := insertTracked e bc n.

(** The settled section of older files. *)
Definition migrateSettledArchive (e : Env) (settled : list trackedBroadcast) (n : Node) : Node :=
  insertTracked e (filter (fun p : trackedBroadcast =>
    negb (is_empty (tb_TxID p) || is_empty (tb_Coin p)) && tb_watched e n p = true) settled) n.

(** ** The own-deposit watch (api/own_deposit_watch.go) *)

Definition rescanBackoffActive (e : Env) (n : Node) (id : bytes) : bool :=
  match n_rescanRetryAt n !! id with Some retryAt => e_now e <? retryAt | None => false end.

Definition recordRescanFailure (e : Env) (id : bytes) (n : Node) : Node :=
  let a := default 0 (n_rescanAttempts n !! id) + 1 in
  n <| n_rescanAttempts ::= <[id := a]> |> <| n_rescanRetryAt ::= <[id := e_now e + refund_delay a]> |>.

Definition own_watch_due (n : Node) (id : bytes) (s : SwapSession) : bool :=
  negb (s_isMaker s) && negb (s_await s)
  && (bool_decide (s_state s = csCreatedB) || (s_secretHunt s && orderDepositSent n id))
  && negb (is_empty (s_ourDepositTxID s)) && is_empty (s_claimTxID s) && bool_decide (s_secret s = zeros 33)
  && negb (bool_decide (s_theirSecretHash s = zeros 20)) && negb (bool_decide (id ∈ n_pendingOwnWatch n)).

(** The refund's own id, which is no spender to look for. *)
Definition excluded_txid (s : SwapSession) : bytes := if is_empty (s_refundHex s) then [] else default [] (txIDFromHex (s_refundHex s)).

Definition own_watch_task (e : Env) (n : Node) (id : bytes) (s : SwapSession) : ownWatchTask :=
  let '(hasTime, blockTime) := match e_Confs e !! s_srcCur s with
    | Some cc => (cc_TxWithTimeField cc, cc_BlockTime cc) | None => (false, 0) end in
  mkOwnWatchTask id (s_gen s) (e_Connectors e !! s_srcCur s) (s_ourDepositTxID s) (s_secretHunt s) (s_scanCursor s)
    (s_theirSecretHash s) hasTime blockTime (excluded_txid s) (negb (rescanBackoffActive e n id)) (default ∅ (n_ownWatchSeen n !! id)).

Definition postOwnWatchTask (e : Env) (id : bytes) (n : Node) : bool * Node :=
  match n_sessions n !! id with
  | None => (false, n)
  | Some s =>
      let n := n <| n_ownWatchSeen ::= partial_alter (fun v => Some (default ∅ v)) id |> in
      let '(ok, n) := post (TOwnWatch (own_watch_task e n id s)) n in
      if ok then (true, n) else (false, n <| n_pendingOwnWatch ::= fun p => p ∖ {[id]} |>)
  end.

Definition watchOwnDepositSpends (e : Env) (n : Node) : Node :=
  each_session e (fun id s n =>
    if own_watch_due n id s then snd (postOwnWatchTask e id (n <| n_pendingOwnWatch ::= fun p => {[id]} ∪ p |>)) else n) n.

(** A hunted deposit that reads unspent again clears the hunt. *)
Definition clear_hunt (e : Env) (id : bytes) (r : ownWatchResult) (n : Node) : Node :=
  if is_empty (or_spender r) && s_secretHunt (session_of n id) && or_rechecked r && or_depositLive r
  then persist e (updS id (fun s => s <| s_secretHunt := false |> <| s_huntSince := 0 |>) n) else n.

Definition advance_cursor (e : Env) (id : bytes) (r : ownWatchResult) (n : Node) : Node :=
  if or_cursorAdvanced r
  then persist e (clearRescanFailure id (updS id (fun s => s <| s_scanCursor := or_nextCursor r |>) n)) else n.

Definition rescan_backoff (e : Env) (id : bytes) (r : ownWatchResult) (n : Node) : Node :=
  if negb (or_ranRescanLeg r) then n
  else if or_rescanErr r then recordRescanFailure e id n
  else if negb (is_empty (or_spender r)) || or_cursorAdvanced r then clearRescanFailure id n
  else n.

Definition apply_own_watch (e : Env) (t : ownWatchTask) (r : ownWatchResult) (ok : bool) (n : Node) : Node :=
  let id := ow_order t in
  let n := n <| n_pendingOwnWatch ::= fun p => p ∖ {[id]} |> in
  if negb (sessionAlive n id (ow_gen t)) then n
  else
    let n := n <| n_ownWatchSeen ::= alter (fun seen => list_to_set (or_scanned r) ∪ seen) id |> in
    let n := rescan_backoff e id r (advance_cursor e id r (clear_hunt e id r n)) in
    if negb ok || is_empty (or_spender r) then n
    else OnConfirmB e id (session_of n id) (or_spender r) n.
