(* ===== verification/Commands.v ===== *)
(** * Commands of the RPC and the upkeep of our own offers

    api/node.go: the parts of dxMakeOrder, dxTakeOrder and dxCancelOrder that
    run on the engine as one unit, the manual refund of api/swap.go, and the
    sweep that posts open offers to the hub again. What the handlers compute
    before that (amounts, funding, proofs, fee transaction) comes in as an
    argument; Take.v and Make.v compute it. *)

From S2P Require Import Prelude Sha256 GoLib Hex Codec Bodies Packet Secp Signer Conf Coin Address Script Price Tx Wallet.
From S2P Require Import Deposit Order Store Session Persist Node Resume Sweep Track.

Definition crRpcRequest : Z := 10.
Definition crBadAUtxo : Z := 20.

(** The engine's answer to a handler. *)
Inductive answer := Done | Gone | Refused.
#[export] Instance answer_eq_dec : EqDecision answer.
Proof. solve_decision. Defined.

Section Commands.
Context (ripemd160 : bytes -> bytes) {secp : Secp} (mem : Z).

(** A new session under its order's id. *)
Definition add_session (id : bytes) (mk : Z -> SwapSession) (n : Node) : Node :=
  n <| n_sessions ::= <[id := mk (n_nextGen n)]> |> <| n_nextGen ::= Z.add 1 |>.

(** ** dxMakeOrder *)

(** [o] is the order as built, [pending] an order that waits for its split transaction. *)
Definition commitMake (e : Env) (o : Order) (makerAddr takerAddr priv pub secret : bytes) (pkt : Packet) (pending : bool) (n : Node)
    : answer * Node :=
  let id := hexEncode (o_ID o) in
  let n := n <| n_store ::= Add o |> in
  let n := add_session id (fun gen => newMakerSession ripemd160 (e_now e) gen o makerAddr takerAddr priv pub secret) n in
  if pending then (Done, persist e n)
  else
    let undo n := n <| n_sessions ::= delete id |> <| n_store ::= Remove id |> in
    let '(ok, n) := persistNow e n in
    if negb ok then (Refused, undo n)
    else
      let '(ok, n) := write_packet (o_HubAddress o) pkt n in
      if ok then (Done, n) else (Refused, snd (persistNow e (undo n))).

(** ** dxTakeOrder *)

(** What the take writes into the order of the book. *)
Definition take_stamp (e : Env) (fromAddr toAddr pub : bytes) (proofs : list UtxoEntry) (usedCoins feeInputs : list Utxo) (o : Order) : Order :=
  o <| o_Updated := e_now e |> <| o_Status := "accepting"%string |> <| o_Role := RoleB |> <| o_Mine := true |>
    <| o_MakerKey := hexEncode pub |> <| o_OrigFromCurrency := o_FromCurrency o |> <| o_OrigToCurrency := o_ToCurrency o |>
    <| o_OrigFromAmount := (if o_OrigFromAmount o =? 0 then o_FromAmount o else o_OrigFromAmount o) |>
    <| o_OrigToAmount := (if o_OrigToAmount o =? 0 then o_ToAmount o else o_OrigToAmount o) |>
    <| o_MakerAddress := fromAddr |> <| o_TakerAddress := toAddr |> <| o_Utxos := proofs |> <| o_UsedCoins := usedCoins |>
    <| o_FeeUtxos := feeInputs |> <| o_UtxoCurrency := o_ToCurrency o |>.

Definition registerTakeRetry (e : Env) (id : bytes) (n : Node) : Node :=
  if e_TakeRetry e <=? 0 then n else n <| n_takeRetries ::= partial_alter (fun v => Some (default 0 v)) id |>.

Definition revertTake (e : Env) (key : bytes) (prev : Order) (n : Node) : Node :=
  snd (persistNow e (n <| n_store ::= Update key (fun _ => prev) |> <| n_sessions ::= delete key |>)).

Definition commitTake (e : Env) (key fromAddr toAddr : bytes) (pkt : Packet) (priv pub : bytes) (proofs : list UtxoEntry)
    (usedCoins feeInputs : list Utxo) (n : Node) : answer * Node :=
  match get_order n key with
  | None => (Gone, n <| n_store ::= ReleaseReserve key |>)
  | Some prev =>
      let live := take_stamp e fromAddr toAddr pub proofs usedCoins feeInputs prev in
      let n := n <| n_store ::= fun st => ReleaseReserve key (Update key (fun _ => live) st) |> in
      let n := add_session (hexEncode (o_ID live)) (fun gen => newTakerSession (e_now e) gen live fromAddr toAddr priv pub) n in
      let '(ok, n) := persistNow e n in
      if negb ok then (Refused, revertTake e key prev n)
      else
        let '(ok, n) := write_packet (o_HubAddress live) pkt n in
        if ok then (Done, registerTakeRetry e key n) else (Refused, revertTake e key prev n)
  end.

(** ** dxCancelOrder and dxBroadcastRefund *)

Definition commitCancel (e : Env) (id : bytes) (n : Node) : answer * Node :=
  match get_order n id with
  | None => (Gone, n)
  | Some cur =>
      if 6 <? stateOrdinal (o_Status cur) then (Refused, n)
      else
        let '(ok, n) := sendCancelTransaction e id crRpcRequest n in
        if negb ok then (Refused, n)
        else
          let n := updO id (fun o => o <| o_Status := "canceled"%string |> <| o_Updated := e_now e |>) n in
          let '(returned, n) := enqueueRefund mem e id false (dropTakeRetry id n) in
          (Done, if returned then persist e n else n)
  end.

Definition BroadcastRefund (e : Env) (id : bytes) (n : Node) : Node := snd (enqueueRefund mem e id true n).

(** ** Open offers posted again *)

Definition rebroadcastInterval : Z := 240 * 1000000.

Definition order_body (o : Order) : OrderBody :=
  mkOrderBody (o_ID o) (o_From o) (o_FromCurrency o) (o_FromAmount o) (o_To o) (o_ToCurrency o) (o_ToAmount o) (o_Created o)
    (o_BlockHash o) (o_PartialAllowed o) (o_MinFromAmount o) (o_Utxos o).

Definition buildOrderPacket (e : Env) (o : Order) (priv : bytes) : res Packet :=
  Sign (NewPacket (e_ver e) (e_unix e) XbcTransaction (OrderBody_Marshal (order_body o))) priv.

(** [pick] is the registry's choice of a hub for the currencies, the excluded keys aside. *)
Definition rotateHub (e : Env) (pick : list bytes -> list bytes -> option bytes) (id : bytes) (s : SwapSession) (o : Order) (n : Node)
    : option bytes * Node :=
  if negb (s_isMaker s) || negb (bool_decide (s_state s = csMaker)) then (None, n)
  else match pick [o_FromCurrency o; o_ToCurrency o] (if bool_decide (s_hubKey s = zeros 33) then [] else [s_hubKey s]) with
       | None => (None, n)
       | Some newKey =>
           let newAddr := KeyID ripemd160 newKey in
           let n := updS id (fun s => s <| s_hub := newAddr |> <| s_hubKey := newKey |>) n in
           let n := updO id (fun o => o <| o_HubAddress := newAddr |> <| o_SNodePubkey := hexEncode newKey |>) n in
           (Some newAddr, persist e n)
       end.

(** The funding coins one by one; a spent one cancels the order, an unreachable wallet ends the check. *)
Fixpoint utxos_valid (e : Env) (conn : Connector) (id : bytes) (coins : list Utxo) (n : Node) : bool * Node :=
  match coins with
  | [] => (true, n)
  | u :: coins =>
      match GetTxOut conn (u_TxID u) (u_Vout u) with
      | inr _ => (true, n)
      | inl (Some _) => utxos_valid e conn id coins n
      | inl None =>
          let n := snd (sendCancelTransaction e id crBadAUtxo n) in
          (false, persist e (updO id (fun o => o <| o_Status := "canceled"%string |> <| o_Updated := e_now e |>) n))
      end
  end.

Definition orderUtxosStillValid (e : Env) (o : Order) (n : Node) : bool * Node :=
  match e_Connectors e !! o_FromCurrency o with
  | Some conn => utxos_valid e conn (hexEncode (o_ID o)) (o_UsedCoins o) n
  | None => (true, n)
  end.

Definition rebroadcast_offer (e : Env) (pick : list bytes -> list bytes -> option bytes) (id : bytes) (s : SwapSession) (n : Node) : Node :=
  if negb (s_isMaker s) || negb (bool_decide (s_state s = csMaker)) then n
  else match get_order n id with
       | None => n
       | Some o =>
           if negb (o_Mine o) || negb (is_empty (o_PrepTx o)) || negb (String.eqb (o_Status o) "open") then n
           else if wrap 64 (e_now e - o_Updated o) <? rebroadcastInterval then n
           else
             let '(valid, n) := orderUtxosStillValid e o n in
             if negb valid then n
             else
               let sent := updO id (fun o => o <| o_Updated := e_now e |>) in
               let hubAddr := if bool_decide (o_HubAddress o = zeros 20) then s_hub s else o_HubAddress o in
               match buildOrderPacket e o (s_privKey s) with
               | Ok pkt =>
                   let '(ok, n) := write_packet hubAddr pkt n in
                   if ok then sent n
                   else
                     let '(newAddr, n) := rotateHub e pick id s o n in
                     match newAddr with
                     | None => n
                     | Some newAddr =>
                         let '(ok, n) := write_packet newAddr pkt n in if ok then sent n else n
                     end
               | _ => n
               end
       end.

Definition rebroadcastOpenOrders (e : Env) (pick : list bytes -> list bytes -> option bytes) (n : Node) : Node :=
  each_session e (rebroadcast_offer e pick) n.

End Commands.
