(* ===== verification/Take.v ===== *)
(** * dxTakeOrder (api/node.go)

    The handler in the stages between which the engine and other handlers may
    run: [take_checks] up to the dry run, [take_plan] with the wallets' outputs
    and the transactions, [reserve_take] and [finish_take], the last of which
    hands the take to the engine as one unit ([commitTake] of Commands.v).
    Each stage has the store as it is when the code reads it.  The registry of
    service nodes is that of Registry.v, absent when the daemon has none. *)

From S2P Require Import Prelude Sort Sha256 GoLib Digits Hex Json Codec Bodies Packet Secp Signer Registry Conf Coin Address Script Tx Price.
From S2P Require Import Wallet Deposit Order Float XAmount Store Utxos Select SelectLaws Fee Session Persist Node Resume Sweep Track Commands.

Definition take_method : string := "dxTakeOrder".

Record TakeOrderParams := mkTakeOrderParams {
  tp_ID : bytes;
  tp_FromAddress : bytes;
  tp_ToAddress : bytes;
  tp_Amount : bytes;
  tp_DryRun : bool;
}.

(** The outputs of the wallet a take may spend: P2PKH, and not locked. *)
Definition spendable (locked : gset bytes) (us : list Utxo) : list Utxo :=
  List.filter (fun u => isP2PKH25 (u_ScriptPubKey u) && negb (bool_decide (utxoKey u ∈ locked))) us.

(** Those for the fee also need a confirmation. *)
Definition fee_spendable (locked feeLocked : gset bytes) (us : list Utxo) : list Utxo :=
  List.filter (fun u => (1 <=? u_Confirmations u) && isP2PKH25 (u_ScriptPubKey u)
                 && negb (bool_decide (utxoKey u ∈ locked) || bool_decide (utxoKey u ∈ feeLocked))) us.

Definition lexical (s : bytes) : rpc Z := match lexicalAmount s with inl v => Good v | inr code => refuse code "" end.

(** The optional amount; zero is no amount. *)
Definition take_amount (p : TakeOrderParams) : rpc (option Z) :=
  if is_empty (tp_Amount p) then Good None
  else a ← lexical (tp_Amount p); _ ← ensure (negb (a =? 0)) errInvalidParameters take_method; Good (Some a).

(** What the taker sends and what it receives. *)
Definition take_sizes (o : Order) (amount : option Z) : rpc (Z * Z) :=
  match amount with
  | None => Good (o_ToAmount o, o_FromAmount o)
  | Some a =>
      _ ← ensure (o_PartialAllowed o) errInvalidPartialOrder take_method;
      _ ← ensure (negb (a <? o_MinFromAmount o)) errInvalidParameters take_method;
      _ ← ensure (negb (o_FromAmount o <? a)) errInvalidParameters take_method;
      Good (if a <? o_FromAmount o then (xBridgeSourceAmountFromPrice a (o_ToAmount o) (o_FromAmount o), a)
            else (o_ToAmount o, o_FromAmount o))
  end.

(** The order as found, the amounts, and the decoded addresses. *)
Record take_quote := mkTakeQuote {
  tq_order : Order;
  tq_fromSize : Z;
  tq_toSize : Z;
  tq_fromID : bytes;
  tq_toID : bytes;
}.

(** Everything the commit needs. *)
Record take_plan := mkTakePlan {
  tpl_key : bytes;
  tpl_quote : take_quote;
  tpl_usedCoins : list Utxo;
  tpl_feeInputs : list Utxo;
  tpl_proofs : list UtxoEntry;
  tpl_body : AcceptingBody;
}.

Inductive take_answer := DryRun (fromSize toSize : Z) | Taken (o : Order) (fromSize toSize : Z).

Section Take.
Context (ripemd160 : bytes -> bytes) {secp : Secp} (uni : Unicode) {gosort : GoSort}.

Definition decodeAddr (e : Env) (method : string) (currency addrStr : bytes) : rpc bytes :=
  c ← need (Get (e_Coins e) currency) errInvalidParameters method;
  a ← need_r (decodeAddress uni c addrStr) errInvalidAddress method;
  need (Address_ID a) errInvalidAddress method.

Definition requireWrite (e : Env) (method : string) : rpc unit := ensure (e_connected e) errNoServiceNode method.

Definition connector (e : Env) (t : bytes) (method : string) : rpc Connector := need (e_Connectors e !! t) errNoSession method.
Definition confFor (e : Env) (t : bytes) (method : string) : rpc CoinConf := need (e_Confs e !! t) errNoSession method.

Definition blockConnector (e : Env) : option Connector := e_Connectors e !! bytes_of "BLOCK".

Definition availableBalance (e : Env) : wres Z := match blockConnector e with None => inl 0 | Some blk => GetBalance blk end.

(** The height, 0 from 2^32 on, and the first eight characters of the hash. *)
Definition blockContext (e : Env) (ticker : bytes) : rpc (Z * bytes) :=
  conn ← connector e ticker take_method;
  h ← need_w (GetBlockCount conn) errNoSession take_method;
  _ ← ensure (1 <=? h) errNoSession take_method;
  bh ← need_w (GetBlockHash conn h) errNoSession take_method;
  Good (if h <=? 2 ^ 32 - 1 then h else 0, take 8 (hexEncode (rev bh))).

Definition checkAcceptParams (e : Env) (st : Store) (currency : bytes) (fromSize : Z) : rpc unit :=
  conn ← connector e currency take_method;
  outputs ← need_w (ListUnspent conn 1) errInsufficientFunds take_method;
  let balance := sum_values (spendable (LockedUtxoInfoFor currency st) outputs) f64_zero in
  ensure (negb (f64_lt balance (f64_div (f64_of fromSize) (f64_of coinScale)))) errInsufficientFunds take_method.

(** Up to the dry run.  [st_get] is the book when the order is read, [st_bal] when the balance is. *)
Definition take_checks (e : Env) (st_get st_bal : Store) (p : TakeOrderParams) : rpc take_quote :=
  _ ← requireWrite e take_method;
  _ ← ensure (negb (bool_decide (tp_FromAddress p = tp_ToAddress p))) errInvalidParameters take_method;
  amount ← take_amount p;
  o ← need (Store_Get st_get (orderIDKey (tp_ID p))) errTxNotFound take_method;
  '(fromSize, toSize) ← take_sizes o amount;
  _ ← checkAcceptParams e st_bal (o_ToCurrency o) fromSize;
  _ ← ensure (negb (o_Mine o)) errInvalidParameters take_method;
  _ ← connector e (o_ToCurrency o) take_method;
  _ ← connector e (o_FromCurrency o) take_method;
  toID ← decodeAddr e take_method (o_FromCurrency o) (tp_ToAddress p);
  fromID ← decodeAddr e take_method (o_ToCurrency o) (tp_FromAddress p);
  Good (mkTakeQuote o fromSize toSize fromID toID).

(** The service node of the order and the address its fee goes to. *)
Definition fee_destination (reg : option Registry.Registry) (o : Order) : rpc bytes :=
  let hubKey := decodePub33 (o_SNodePubkey o) in
  reg ← need reg errNoServiceNode take_method;
  _ ← ensure (Known reg hubKey) errNoServiceNode take_method;
  need (PaymentAddress reg hubKey) errNoServiceNode take_method.

Definition proof_error (err : proofError) : Z :=
  match err with errBadSigLen => errInvalidSignature | errBadAddr => errInvalidAddress | _ => errFundsNotSigned end.

Definition order_proofs (conn : Connector) (us : list Utxo) (c : Coin) (method : string) : rpc (list UtxoEntry) :=
  match buildUtxoProofs uni conn us c with
  | Ok (inl l) => Good l
  | Ok (inr err) => refuse (proof_error err) method
  | Err _ => refuse errFundsNotSigned method
  | Panic => Crash
  end.

(** Go's zero value, for a coin that is not registered. *)
Definition zero_coin : Coin := mkCoin [] [] 0 x00 x00 [] false FamilyUTXOBTC [] SigLegacy 0 false.

(** From the dry run to the reservation.  [st_lock] and [st_fee] are the book at the two reads of the locks. *)
Definition plan_take (e : Env) (reg : option Registry.Registry) (st_lock st_fee : Store) (p : TakeOrderParams) (q : take_quote)
    : rpc take_plan :=
  let o := tq_order q in
  ccTo ← confFor e (o_ToCurrency o) take_method;
  ccFrom ← confFor e (o_FromCurrency o) take_method;
  _ ← ensure (negb (isDustNative (xBridgeValueFromAmount (tq_fromSize q)) (Some ccTo) (cc_Coin ccTo))) errDust take_method;
  _ ← ensure (negb (isDustNative (xBridgeValueFromAmount (tq_toSize q)) (Some ccFrom) (cc_Coin ccFrom))) errDust take_method;
  funds ← need_w (availableBalance e) errNoSession take_method;
  _ ← ensure (negb (funds <? xBridgeIntFromReal serviceNodeFeeReal)) errInsufficientFundsDX take_method;
  feeDest ← fee_destination reg o;
  let locked := LockedUtxoInfoFor (o_ToCurrency o) st_lock in
  let feeLocked := lockedInfoLocked st_fee in
  conn ← connector e (o_ToCurrency o) take_method;
  outputs ← need_w (ListUnspent conn 1) errInsufficientFunds take_method;
  match blockConnector e with
  | None => Crash
  | Some blk =>
      feeAvail ← need_w (ListUnspentWithZeroConf blk) errInsufficientFunds take_method;
      '(usedCoins, feeRest) ← need (selectTakeFunding (tp_FromAddress p) (spendable locked outputs)
                                     (fee_spendable locked feeLocked feeAvail) (Some ccTo) (tq_fromSize q)) errInsufficientFunds take_method;
      info ← need (feeOrderInfo (o_ID o) (o_ToCurrency o) (tq_fromSize q) (o_FromCurrency o) (tq_toSize q)) errInvalidOnchainHist take_method;
      '(rawFeeHex, feeInputs) ← buildServiceNodeFeeTx uni blk (default zero_coin (Get (e_Coins e) (bytes_of "BLOCK")))
                                  (e_Confs e !! bytes_of "BLOCK") feeDest info feeRest;
      feeBytes ← need (DecodeString rawFeeHex) errInsufficientFunds take_method;
      proofs ← order_proofs conn usedCoins (default zero_coin (Get (e_Coins e) (o_ToCurrency o))) take_method;
      '(fromH, fromHash) ← blockContext e (o_ToCurrency o);
      '(toH, toHash) ← blockContext e (o_FromCurrency o);
      Good (mkTakePlan (orderIDKey (tp_ID p)) q usedCoins feeInputs proofs
        (mkAcceptingBody (o_HubAddress o) (o_ID o) feeBytes (tq_fromID q) (o_ToCurrency o) (tq_fromSize q) fromH fromHash
           (tq_toID q) (o_FromCurrency o) (tq_toSize q) toH toHash proofs))
  end.

(** The keys the store locks; those of the fee come out of a map, each once. *)
Definition fee_keys (pl : take_plan) : list bytes := remove_dups (map utxoKey (tpl_feeInputs pl)).
Definition fund_keys (pl : take_plan) : list bytes := map utxoKey (tpl_usedCoins pl).

Definition reserve_take (pl : take_plan) (st : Store) : rpc unit * Store :=
  let '(r, st) := ReserveForTake (tpl_key pl) (fee_keys pl) (fund_keys pl) (o_ToCurrency (tq_order (tpl_quote pl))) st in
  (match r with
   | reserveOK => Good tt
   | reserveOrderBusy => refuse errBadRequest take_method
   | reserveKeyCollision | reserveOrderGone => refuse errInsufficientFunds take_method
   end, st).

Definition release (key : bytes) (n : Node) : Node := n <| n_store ::= ReleaseReserve key |>.

(** The key, the packet, and the commit on the engine.  [draws] is the
    randomness of the key; [running] is false when the daemon is stopping and
    [submit] returns without having run the commit. *)
Definition finish_take (e : Env) (p : TakeOrderParams) (pl : take_plan) (draws : list bytes) (running : bool) (n : Node)
    : rpc take_answer * Node :=
  let key := tpl_key pl in
  let q := tpl_quote pl in
  match NewPrivateKey 64 draws with
  | Ok tPriv =>
      match CompressedPubKey tPriv with
      | Ok tPub =>
          match Sign (NewPacket (e_ver e) (e_unix e) XbcTransactionAccepting (AcceptingBody_Marshal (tpl_body pl))) tPriv with
          | Ok pkt =>
              let '(ans, n) :=
                if running then commitTake e key (tp_FromAddress p) (tp_ToAddress p) pkt tPriv tPub (tpl_proofs pl)
                                  (tpl_usedCoins pl) (tpl_feeInputs pl) n
                else (Gone, n) in
              match ans with
              | Refused => (refuse errUnknown take_method, n)
              | Done | Gone =>
                  match (match ans with Done => get_order n key | _ => None end) with
                  | Some o => (Good (Taken o (tq_fromSize q) (tq_toSize q)), n)
                  | None => (refuse errTxNotFound take_method, release key n)
                  end
              end
          | Err _ => (refuse errUnknown take_method, release key n)
          | Panic => (Crash, n)
          end
      | Err _ => (refuse errUnknown take_method, release key n)
      | Panic => (Crash, n)
      end
  | Err _ => (refuse errUnknown take_method, release key n)
  | Panic => (Crash, n)
  end.

(** The handler, with nothing running in between. *)
Definition TakeOrder (e : Env) (reg : option Registry.Registry) (p : TakeOrderParams) (draws : list bytes) (running : bool) (n : Node)
    : rpc take_answer * Node :=
  match take_checks e (n_store n) (n_store n) p with
  | Bad err => (Bad err, n)
  | Crash => (Crash, n)
  | Good q =>
      if tp_DryRun p then (Good (DryRun (tq_fromSize q) (tq_toSize q)), n)
      else match plan_take e reg (n_store n) (n_store n) p q with
           | Bad err => (Bad err, n)
           | Crash => (Crash, n)
           | Good pl =>
               let '(r, st) := reserve_take pl (n_store n) in
               let n := n <| n_store := st |> in
               match r with
               | Good _ => finish_take e p pl draws running n
               | Bad err => (Bad err, n)
               | Crash => (Crash, n)
               end
           end
  end.

(** The plan is for the order asked for. *)
Lemma plan_take_key e reg st1 st2 p q pl : plan_take e reg st1 st2 p q = Good pl -> tpl_key pl = orderIDKey (tp_ID p).
Proof.
  unfold plan_take. intros H. rpc_inv. destruct (blockConnector e) as [blk|]; [|done]. by rpc_inv.
Qed.

End Take.
