(* ===== verification/Make.v ===== *)
(** * dxMakeOrder and dxMakePartialOrder (api/node.go)

    The handler in its stages: [make_checks] of the arguments, the hub
    ([pickHub] of Sweep.v), the shape of a partial order, the choice of the
    funding, the transaction that splits it, and the order with its packet,
    which [commitMake] of Commands.v puts into the book as one unit of the
    engine.  [pick] is the choice of the service-node registry, absent when the
    daemon has none; [bh] and [height] are the Blocknet block of the moment,
    [draws] the randomness of the order's key, [secret] that of its session. *)

From S2P Require Import Prelude Sort Sha256 GoLib Digits Hex Json Codec Bodies Packet Secp Signer Conf Coin Address Script Tx Price.
From S2P Require Import Wallet Deposit Order Float XAmount Store Utxos Select SelectLaws Fee Session Persist Node Resume Sweep Track Commands Take.

Definition make_method : string := "dxMakeOrder".
Definition partial_method : string := "dxMakePartialOrder".

Record MakeOrderParams := mkMakeOrderParams {
  mp_Maker : bytes;
  mp_MakerSize : bytes;
  mp_MakerAddress : bytes;
  mp_Taker : bytes;
  mp_TakerSize : bytes;
  mp_TakerAddress : bytes;
  mp_Type : bytes;
  mp_MinSize : bytes;
  mp_UseAllFunds : bool;
  mp_AutoSplit : bool;
  mp_Repost : bool;
  mp_DryRun : bool;
}.

(** The amounts, the maker's wallet and conf, and the decoded addresses. *)
Record make_quote := mkMakeQuote {
  mq_fromAmt : Z;
  mq_toAmt : Z;
  mq_conn : Connector;
  mq_cc : CoinConf;
  mq_fromID : bytes;
  mq_toID : bytes;
}.

(** What a partial order is to be split into. *)
Record partial_shape := mkPartialShape {
  ps_minFrom : Z;
  ps_count : Z;
  ps_remainder : bool;
  ps_perUtxoFees : Z;
  ps_voutsTotal : Z;
  ps_remainderTotal : Z;
  ps_remainderIsDust : bool;
  ps_orderVouts : Z;
}.

Definition no_shape : partial_shape := mkPartialShape 0 0 false 0 0 0 false 0.

Section Shape.
Variable (cc : CoinConf) (fromAmt : Z).

Definition min_is_dust (minFrom : Z) : bool :=
  f64_lt (f64_mul (f64_div (f64_of minFrom) (f64_of coinScale)) (f64_of (cc_Coin cc))) (f64_of (effectiveDust (Some cc))).

(** The number of split outputs, and whether a remainder is left. *)
Definition split_count (minFrom : Z) : Z * bool :=
  let n := fromAmt / minFrom in
  if maxPartialOrderUtxos <=? n then (maxPartialOrderUtxos - 1, true) else (n, negb (fromAmt mod minFrom =? 0)).

Definition shape_of (minFrom : Z) : rpc partial_shape :=
  if minFrom =? 0 then Crash
  else
    let '(count, remainder) := split_count minFrom in
    let per := wrap 64 (ceilFeeXB (Some cc) (estimateFee (Some cc) 1 3) + ceilFeeXB (Some cc) (estimateFee (Some cc) 1 1)) in
    let fees := wrap 64 (wrap 64 (count * per) + (if remainder then per else 0)) in
    let split := wrap 64 (count * minFrom) in
    _ ← ensure (negb (fromAmt <? split)) errInsufficientFunds partial_method;
    let rest := wrap 64 (fromAmt - split) in
    let dust := isDustNative (xBridgeValueFromAmount (wrap 64 (rest + per))) (Some cc) (cc_Coin cc) in
    let whole := remainder && negb dust in
    Good (mkPartialShape minFrom count remainder per (wrap 64 (wrap 64 (fees + split) + (if whole then rest else 0))) rest dust
            (if whole then count + 1 else count)).

Definition partial_shape_of (p : MakeOrderParams) : rpc partial_shape :=
  _ ← ensure (negb (is_empty (mp_MinSize p))) errInvalidParameters partial_method;
  minFrom ← lexical (mp_MinSize p);
  _ ← ensure (negb (fromAmt <? minFrom)) errInvalidParameters partial_method;
  _ ← ensure (negb (min_is_dust minFrom)) errInvalidParameters partial_method;
  shape_of minFrom.

End Shape.

Definition is_partial (p : MakeOrderParams) : bool := bool_decide (mp_Type p = bytes_of "partial").

(** The wallet's outputs an order may use. *)
Definition makeable (locked : gset bytes) (p : MakeOrderParams) (us : list Utxo) : list Utxo :=
  List.filter (fun u => negb (bool_decide (utxoKey u ∈ locked)) && (mp_UseAllFunds p || bool_decide (u_Address u = mp_MakerAddress p))) us.

(** The request of a partial selection. *)
Definition request (fromAmt : Z) (sh : partial_shape) : partial_req :=
  mkPartialReq fromAmt (ps_count sh) (ps_perUtxoFees sh) (ps_orderVouts sh + 1) (ps_minFrom sh) (ps_remainderTotal sh).

(** The split of the funding: outputs that fit already, inputs of the prep
    transaction with their total, split outputs still to make, and the amount still to cover. *)
Record split := mkSplit {
  sp_existing : list Utxo;
  sp_vins : list Utxo;
  sp_vinsTotal : Z;
  sp_remaining : Z;
  sp_voutsTotal : Z;
}.

Definition split_one (sh : partial_shape) (s : split) (vin : Utxo) : split :=
  let size := wrap 64 (ps_minFrom sh + ps_perUtxoFees sh) in
  if (camount vin =? size) && (0 <? sp_remaining s)
  then mkSplit (sp_existing s ++ [vin]) (sp_vins s) (sp_vinsTotal s) (sp_remaining s - 1) (i64 (sp_voutsTotal s - i64 size))
  else mkSplit (sp_existing s) (sp_vins s ++ [vin]) (wrap 64 (sp_vinsTotal s + u_Amount vin)) (sp_remaining s) (sp_voutsTotal s).

Definition split_funding (sh : partial_shape) (outs : list Utxo) : split :=
  fold_left (split_one sh) outs (mkSplit [] [] 0 (ps_count sh) (i64 (ps_voutsTotal sh))).

(** The outputs of the prep transaction before its change. *)
Definition split_vouts (coin : Coin) (addr : bytes) (sh : partial_shape) (remaining : Z) : list prepVout :=
  repeat (mkPrepVout addr (fromXBridgeAmt coin (wrap 64 (ps_minFrom sh + ps_perUtxoFees sh)))) (Z.to_nat remaining) ++
  (if ps_remainder sh && negb (ps_remainderIsDust sh)
   then [mkPrepVout addr (fromXBridgeAmt coin (wrap 64 (ps_remainderTotal sh + ps_perUtxoFees sh)))] else []).

Definition vouts_native (vouts : list prepVout) : Z := fold_left (fun t vo => wrap 64 (t + pv_amount vo)) vouts 0.

(** With the change, where it is no dust. *)
Definition prep_outputs (cc : CoinConf) (coin : Coin) (addr : bytes) (sh : partial_shape) (s : split) : rpc (list prepVout) :=
  let vouts := split_vouts coin addr sh (sp_remaining s) in
  let prepFee := estimateFee (Some cc) (zlen (sp_vins s)) (zlen vouts + 1) in
  let total := vouts_native vouts in
  _ ← ensure (negb (sp_vinsTotal s <=? wrap 64 (total + prepFee))) errInvalidAmount partial_method;
  let change := wrap 64 (sp_vinsTotal s - total - prepFee) in
  Good (if isDustNative (f64_div (f64_of change) (f64_of (cc_Coin cc))) (Some cc) (cc_Coin cc) then vouts
        else vouts ++ [mkPrepVout addr change]).

(** The outputs of the prep transaction that the order uses: the first, until the amount is covered. *)
Fixpoint prep_used (cc : CoinConf) (addr txid : bytes) (voutsTotal : Z) (vouts : list prepVout) (i partialNew : Z) : list Utxo :=
  match vouts with
  | [] => []
  | vo :: vouts =>
      if i64 (voutsTotal - partialNew) <=? 0 then []
      else
        let u := mkUtxo txid i addr (pv_amount vo) (f64_div (f64_of (pv_amount vo)) (f64_of (cc_Coin cc))) [] 0 in
        u :: prep_used cc addr txid voutsTotal vouts (i + 1) (i64 (partialNew + i64 (camount u)))
  end.

Inductive make_answer := MadeDry (o : Order) | Made (o : option Order).

Section Make.
Context (ripemd160 : bytes -> bytes) {secp : Secp} (uni : Unicode) {gosort : GoSort}.

Definition make_checks (e : Env) (p : MakeOrderParams) : rpc make_quote :=
  _ ← requireWrite e make_method;
  _ ← ensure (xBridgeValidCoin (mp_MakerSize p)) errInvalidParameters make_method;
  _ ← ensure (xBridgeValidCoin (mp_TakerSize p)) errInvalidParameters make_method;
  fromAmt ← lexical (mp_MakerSize p);
  toAmt ← lexical (mp_TakerSize p);
  conn ← connector e (mp_Maker p) make_method;
  _ ← connector e (mp_Taker p) make_method;
  cc ← confFor e (mp_Maker p) make_method;
  fromID ← decodeAddr uni e make_method (mp_Maker p) (mp_MakerAddress p);
  toID ← decodeAddr uni e make_method (mp_Taker p) (mp_TakerAddress p);
  _ ← ensure (negb (bool_decide (mp_MakerAddress p = mp_TakerAddress p))) errInvalidParameters make_method;
  _ ← ensure (negb ((maxXSize <? fromAmt) || (maxXSize <? toAmt))) errInvalidParameters make_method;
  _ ← ensure (negb ((fromAmt =? 0) || (toAmt =? 0))) errInvalidParameters make_method;
  Good (mkMakeQuote fromAmt toAmt conn cc fromID toID).

(** The hub of the order; a dry run needs none. *)
Definition make_hub (e : Env) (reg : option (list bytes -> list bytes -> option bytes)) (p : MakeOrderParams) (n : Node)
    : rpc (option bytes) * Node :=
  if mp_DryRun p then (Good None, n)
  else match reg with
       | None => (refuse errNoServiceNode make_method, n)
       | Some pick =>
           let '(k, n) := pickHub (pick [mp_Maker p; mp_Taker p]) (e_now e) n in
           (match k with Some k => Good (Some k) | None => refuse errNoServiceNode make_method end, n)
       end.

(** The funding with its proofs, and whether it matches a partial order exactly. *)
Definition make_funding (e : Env) (st : Store) (p : MakeOrderParams) (q : make_quote) (sh : partial_shape)
    : rpc (list Utxo * list UtxoEntry * bool) :=
  outputs ← need_w (ListUnspent (mq_conn q) (cc_Confirmations (mq_cc q))) errInsufficientFunds make_method;
  let filtered := makeable (LockedUtxoInfoFor (mp_Maker p) st) p outputs in
  '(outs, exact) ← need (if is_partial p
      then '(o, _, _, ex) ← selectPartialUtxos (Some (mq_cc q)) (request (mq_fromAmt q) sh) filtered; Some (o, ex)
      else '(o, _, _) ← selectUtxos (mp_MakerAddress p) filtered (Some (mq_cc q)) (mq_fromAmt q); Some (o, false))
    errInsufficientFunds make_method;
  proofs ← order_proofs uni (mq_conn q) outs (default zero_coin (Get (e_Coins e) (mp_Maker p))) make_method;
  Good (outs, proofs, exact).

Definition order_id (e : Env) (p : MakeOrderParams) (q : make_quote) (bh : bytes) (proofs : list UtxoEntry) : rpc bytes :=
  match proofs with
  | [] => Crash
  | pr :: _ => Good (sha256dOrderID (mq_fromID q) (mp_Maker p) (mq_fromAmt q) (mq_toID q) (mp_Taker p) (mq_toAmt q) (e_now e) bh (Utxo_Signature pr))
  end.

(** The prep transaction, signed. *)
Definition make_prep (e : Env) (p : MakeOrderParams) (q : make_quote) (sh : partial_shape) (outs : list Utxo)
    : rpc (split * list prepVout * bytes * bytes) :=
  let coin := default zero_coin (Get (e_Coins e) (mp_Maker p)) in
  let s := split_funding sh outs in
  vouts ← prep_outputs (mq_cc q) coin (mp_MakerAddress p) sh s;
  '(signedHex, txid) ← buildPrepTx uni (mq_conn q) (e_unix e) (Some (mq_cc q)) coin (sp_vins s) vouts;
  Good (s, vouts, signedHex, txid).

(** The outputs the order is funded with once the prep transaction is made, and their proofs. *)
Definition prep_funding (e : Env) (p : MakeOrderParams) (q : make_quote) (s : split) (vouts : list prepVout) (txid : bytes)
    : rpc (list Utxo * list UtxoEntry) :=
  let used := sp_existing s ++ prep_used (mq_cc q) (mp_MakerAddress p) txid (sp_voutsTotal s) vouts 0 0 in
  _ ← ensure (negb (maxPartialOrderUtxos <? zlen used)) errInvalidAmount partial_method;
  _ ← ensure (negb (zlen used =? 0)) errInvalidPartialOrder partial_method;
  proofs ← order_proofs uni (mq_conn q) used (default zero_coin (Get (e_Coins e) (mp_Maker p))) partial_method;
  Good (used, proofs).

(** The final funding and proofs, and the id of a prep transaction.  The prep
    transaction is sent, and watched, before what follows it can fail. *)
Definition make_split (e : Env) (p : MakeOrderParams) (q : make_quote) (sh : partial_shape) (outs : list Utxo) (proofs : list UtxoEntry)
    (exact : bool) (n : Node) : rpc (list Utxo * list UtxoEntry * option bytes) * Node :=
  if negb (is_partial p) then (Good (outs, proofs, None), n)
  else if exact then
    (_ ← ensure (negb (maxPartialOrderUtxos <? zlen outs)) errInvalidAmount partial_method; Good (outs, proofs, None), n)
  else if negb (mp_AutoSplit p) then (Good (outs, proofs, None), n)
  else match make_prep e p q sh outs with
       | Bad err => (Bad err, n)
       | Crash => (Crash, n)
       | Good (s, vouts, signedHex, txid) =>
           let '(ok, n) :=
             if mp_DryRun p then (true, n)
             else match SendRawTransaction (mq_conn q) signedHex with
                  | inr _ => (false, n)
                  | inl _ => (true, recordBroadcast e [] broadcastPrep (mp_Maker p) txid signedHex n)
                  end in
           if negb ok then (refuse errUnknown partial_method, n)
           else ('(used, final) ← prep_funding e p q s vouts txid; Good (used, final, Some txid), n)
       end.

Definition make_body (e : Env) (p : MakeOrderParams) (q : make_quote) (sh : partial_shape) (bh id : bytes) (proofs : list UtxoEntry) : OrderBody :=
  mkOrderBody id (mq_fromID q) (mp_Maker p) (mq_fromAmt q) (mq_toID q) (mp_Taker p) (mq_toAmt q) (e_now e) bh (is_partial p)
    (ps_minFrom sh) proofs.

(** The order of the book; [hub] is absent in a dry run. *)
Definition make_record (p : MakeOrderParams) (b : OrderBody) (mPub : bytes) (height : Z) (funding : list Utxo) (prepTx hub : option bytes) : Order :=
  let o := normalizeFromOrderBody b (hexEncode mPub) <| o_BlockNumber := height |> <| o_MakerAddress := mp_MakerAddress p |>
    <| o_TakerAddress := mp_TakerAddress p |> <| o_BlockID := orderIDString (Order_BlockHash b) |> <| o_PartialRepost := mp_Repost p |>
    <| o_Mine := true |> <| o_UtxoCurrency := mp_Maker p |> <| o_Role := 65 |> <| o_MakerKey := hexEncode mPub |>
    <| o_OrigFromCurrency := mp_Maker p |> <| o_OrigToCurrency := mp_Taker p |> <| o_UsedCoins := funding |>
    <| o_Status := "open"%string |> <| o_PrepTx := default [] prepTx |> in
  match hub with
  | Some k => o <| o_SNodePubkey := hexEncode k |> <| o_HubAddress := KeyID ripemd160 k |>
  | None => o
  end.

(** What is handed to the engine. *)
Record make_plan := mkMakePlan {
  mpl_order : Order;
  mpl_body : OrderBody;
  mpl_packet : Packet;
  mpl_priv : bytes;
  mpl_pub : bytes;
  mpl_pending : bool;
}.

(** The order is built from the quote, the hub and the funding; the first id, of
    the first proofs, is replaced by that of the final ones. *)
Definition make_build (e : Env) (p : MakeOrderParams) (q : make_quote) (hub : option bytes) (bh : bytes) (height : Z) (draws : list bytes)
    (n : Node) : rpc make_plan * Node :=
  match sh ← (if is_partial p then partial_shape_of (mq_cc q) (mq_fromAmt q) p else Good no_shape);
        '(outs, proofs, exact) ← make_funding e (n_store n) p q sh;
        _ ← order_id e p q bh proofs;
        mPriv ← need_r (NewPrivateKey 64 draws) errUnknown make_method;
        mPub ← need_r (CompressedPubKey mPriv) errUnknown make_method;
        Good (sh, outs, proofs, exact, mPriv, mPub)
  with
  | Bad err => (Bad err, n)
  | Crash => (Crash, n)
  | Good (sh, outs, proofs, exact, mPriv, mPub) =>
      let '(r, n) := make_split e p q sh outs proofs exact n in
      (('(funding, proofs, prepTx) ← r;
        id ← order_id e p q bh proofs;
        let b := make_body e p q sh bh id proofs in
        pkt ← need_r (Sign (NewPacket (e_ver e) (e_unix e) XbcTransaction (OrderBody_Marshal b)) mPriv) errUnknown make_method;
        Good (mkMakePlan (make_record p b mPub height funding prepTx hub) b pkt mPriv mPub (bool_decide (is_Some prepTx)))), n)
  end.

(** [running] is false when the daemon is stopping: there is neither an order nor an error then. *)
Definition make_commit (e : Env) (p : MakeOrderParams) (pl : make_plan) (secret : bytes) (running : bool) (n : Node) : rpc make_answer * Node :=
  if mp_DryRun p then (Good (MadeDry (mpl_order pl)), n)
  else if negb running then (Good (Made None), n)
  else
    let '(ans, n) := commitMake ripemd160 e (mpl_order pl) (mp_MakerAddress p) (mp_TakerAddress p) (mpl_priv pl) (mpl_pub pl) secret
                       (mpl_packet pl) (mpl_pending pl) n in
    match ans with
    | Done => (Good (Made (get_order n (hexEncode (o_ID (mpl_order pl))))), n)
    | _ => (refuse errUnknown make_method, n)
    end.

Definition MakeOrder (e : Env) (reg : option (list bytes -> list bytes -> option bytes)) (p : MakeOrderParams) (bh : bytes) (height : Z)
    (draws : list bytes) (secret : bytes) (running : bool) (n : Node) : rpc make_answer * Node :=
  match make_checks e p with
  | Bad err => (Bad err, n)
  | Crash => (Crash, n)
  | Good q =>
      let '(h, n) := make_hub e reg p n in
      match h with
      | Bad err => (Bad err, n)
      | Crash => (Crash, n)
      | Good hub =>
          let '(r, n) := make_build e p q hub bh height draws n in
          match r with
          | Good pl => make_commit e p pl secret running n
          | Bad err => (Bad err, n)
          | Crash => (Crash, n)
          end
      end
  end.

End Make.
