(* ===== verification/Views.v ===== *)
(** * The read-only RPC handlers (api/handlers.go)

    What the dx* calls that only look at the node answer: fills, orders and
    their history, tokens, balances, the order book, partial-order chains and
    outputs.  [e_keys] is the order in which a handler's range over the map of
    orders visits them; the state is only read. *)

From S2P Require Import Prelude Sort GoLib Digits Hex Json Reply HttpLib Codec Bodies Conf Coin Amount Price Wallet Deposit Order Float Decimal.
From S2P Require Import XAmount Calendar Store Utxos Fee Session Registry Take Server Params Render.

#[local] Set Warnings "-register-all".

Definition errInvalidDetailLevel : Z := 1015.
Definition errNotExchangeNode : Z := 1029.

Record Config := mkConfig {
  cf_ShowAllOrders : bool;
  cf_ExchangeWallets : list bytes;
  cf_WalletVersion : Z;
  cf_WalletVersionStr : bytes;
}.

Section Views.
Variables (e : Env) (cfg : Config) (s : Store).

(** [Store.List]: the live orders as a range over the map visits them. *)
Definition Store_List : list Order := omap (fun k => st_orders s !! k) (e_keys e).

Definition fills : list fillEntry := map fill_entry (Fills (e_keys e) s).

Definition connected (ticker : bytes) : bool := bool_decide (is_Some (e_Connectors e !! ticker)).

(** The order of an id: live, or from the history. *)
Definition find_order (id : bytes) : option Order :=
  match Store_Get s (orderIDKey id) with Some o => Some o | None => HistoryOrder (orderIDKey id) s end.

(** ** Fills and orders *)

(** A fill of the pair, or of the pair turned around. *)
Definition fill_matches (maker taker : bytes) (either : bool) (f : fillEntry) : bool :=
  (bool_decide (fe_Maker f = maker) && bool_decide (fe_Taker f = taker))
  || (either && bool_decide (fe_Maker f = taker) && bool_decide (fe_Taker f = maker)).

Definition dxGetOrderFills (ps : list json) : rpc json :=
  combined ← (if (length ps =? 3)%nat then spBool ps 2 else Good (Some true));
  maker ← req_str ps 0 "dxGetOrderFills";
  taker ← req_str ps 1 "dxGetOrderFills";
  Good (JArr (map fillOut_json (List.filter (fill_matches maker taker (default false combined)) fills))).

(** A finished order is listed for another minute of whole seconds. *)
Definition listed (now : Z) (o : Order) : bool :=
  let ended := existsb (String.eqb (statusString (o_Status o))) ["canceled"; "finished"; "expired"]%string in
  negb (ended && (wrap 64 (o_Updated o + 61000000) <=? now / 1000000 * 1000000))
  && (cf_ShowAllOrders cfg || (connected (o_FromCurrency o) && connected (o_ToCurrency o))).

Definition by_id (a b : Order) : bool := orderIDLess (o_ID a) (o_ID b).

Definition dxGetOrders (ps : list json) : rpc json :=
  Good (JArr (map toListResult (sort_by by_id (List.filter (listed (e_now e)) Store_List)))).

Definition dxGetOrder (ps : list json) : rpc json :=
  id ← req_str ps 0 "dxGetOrder";
  o ← need (find_order id) errTxNotFound "dxGetOrder";
  _ ← connector e (o_FromCurrency o) "dxGetOrder";
  _ ← connector e (o_ToCurrency o) "dxGetOrder";
  Good (toListResult o).

(** ** Tokens and addresses *)

Definition dxGetLocalTokens (ps : list json) : rpc json :=
  Good (JArr (map JStr (sort_by bytes_lt (elements (dom (e_Connectors e)))))).

Definition NetworkTokens (reg : option Registry.Registry) (now : Z) : list bytes :=
  match reg with Some r => WalletServices now r | None => [] end.

(** The registry keeps time in seconds. *)
Definition dxGetNetworkTokens (reg : option Registry.Registry) (ps : list json) : rpc json :=
  Good (JArr (map JStr (NetworkTokens reg (e_now e / 1000000)))).

(** Without a wallet for the coin, or if it fails, the answer is empty. *)
Definition dxGetNewTokenAddress (ps : list json) : rpc json :=
  ticker ← req_str ps 0 "dxGetNewTokenAddress";
  Good (JArr (match e_Connectors e !! ticker with
              | Some conn => match GetNewAddress conn with inl addr => [JStr addr] | inr _ => [] end
              | None => []
              end)).

(** ** Outputs *)

(** The order that locks a key, as the last write of the range leaves it. *)
Definition key_owner (key : bytes) : bytes :=
  let note acc (o : Order) (ks : list bytes) := if bool_decide (key ∈ ks) then orderIDString (o_ID o) else acc in
  let live o := negb (orderLockReleased (o_Status o)) in
  let acc := fold_left (fun acc (o : Order) => if live o then note acc o (map utxoEntryKey (o_Utxos o) ++ map utxoKey (o_FeeUtxos o)) else acc)
               Store_List [] in
  fold_left (fun acc k => match st_orders s !! k, st_reserved s !! k with
                          | Some o, Some rk => if live o then note acc o (r_fee rk ++ r_fund rk) else acc
                          | _, _ => acc
                          end) (e_keys e) acc.

Definition utxo_json (c : Coin) (u : Utxo) : json := JObj [
  fld "address" (JStr (u_Address u)); fld "amount" (JStr (FormatAmountFixed c (u_Amount u))); fld "confirmations" (jint (u_Confirmations u));
  fld "orderid" (JStr (key_owner (utxoKey u))); fld "scriptPubKey" (JStr (u_ScriptPubKey u)); fld "txid" (JStr (u_TxID u));
  fld "vout" (jint (u_Vout u))].

Definition dxGetUtxos (ps : list json) : rpc json :=
  ticker ← uvStr ps 0;
  includeUsed ← uvBoolOpt ps 1 false;
  conn ← connector e ticker "dxGetUtxos";
  let minConf := match e_Confs e !! ticker with Some cc => cc_Confirmations cc | None => 0 end in
  us ← need_w (ListUnspent conn minConf) errBadRequest "dxGetUtxos";
  let c := default zero_coin (Get (e_Coins e) ticker) in
  let free u := includeUsed || negb (bool_decide (utxoKey u ∈ lockedInfoLocked s)) in
  Good (JArr (map (utxo_json c) (List.filter free us))).

Definition total (us : list Utxo) : Z := fold_left (fun t u => wrap 64 (t + u_Amount u)) us 0.

(** Locked outputs are deducted only while they leave something. *)
Definition available (us : list Utxo) : Z :=
  let l := total (List.filter (fun u => bool_decide (utxoKey u ∈ lockedInfoLocked s)) us) in
  if l <? total us then total us - l else total us.

Definition token_balance (ticker : bytes) : option bytes :=
  conn ← e_Connectors e !! ticker;
  us ← match ListUnspent conn 0 with inl us => Some us | inr _ => None end;
  c ← Get (e_Coins e) ticker;
  Some (formatBalanceNative c (available us)).

(** A map of strings is written in the order of its keys. *)
Definition dxGetTokenBalances (ps : list json) : rpc json :=
  let tickers := sort_by bytes_lt (elements (list_to_set (cf_ExchangeWallets cfg) : gset bytes)) in
  Good (JObj (omap (fun t => (fun b => (t, JStr b)) <$> token_balance t) tickers)).

(** ** Own orders *)

Definition by_updated (a b : Order) : bool := o_Updated a <? o_Updated b.

(** The finished and canceled orders of the history, one per id and none that is live. *)
Fixpoint own_history (seen : gset bytes) (h : list historyEntry) : list Order :=
  match h with
  | [] => []
  | en :: h =>
      match h_Order en with
      | Some o =>
          if o_Mine o && existsb (String.eqb (statusString (h_Status en))) ["finished"; "canceled"]%string
             && negb (bool_decide (orderKey (o_ID o) ∈ seen))
          then o :: own_history ({[orderKey (o_ID o)]} ∪ seen) h else own_history seen h
      | None => own_history seen h
      end
  end.

Definition my_orders : list Order :=
  let mine := List.filter o_Mine Store_List in
  sort_by by_updated (mine ++ own_history (list_to_set (map (fun o => orderKey (o_ID o)) mine)) (st_history s)).

Definition dxGetMyOrders (ps : list json) : rpc json := Good (JArr (map toDetailResult my_orders)).

(** ** Partial-order chains *)

(** The own orders that can be in a chain: partial ones and children. *)
Definition chain_candidates : list Order :=
  List.filter (fun o => o_Mine o && (negb (isZeroID (o_ParentID o)) || o_PartialAllowed o))
    (Store_List ++ omap h_Order (st_history s)).

(** The first of each id: the live one. *)
Definition chain_index : gmap bytes Order := fold_right (fun o m => <[orderKey (o_ID o) := o]> m) ∅ chain_candidates.

(** Parents, the oldest first; [seen] stops at a cycle. *)
Fixpoint ancestors (fuel : nat) (idx : gmap bytes Order) (cur : Order) (seen : gset bytes) (chain : list Order) : list Order * gset bytes :=
  match fuel with
  | O => (chain, seen)
  | S fuel =>
      if isZeroID (o_ParentID cur) then (chain, seen)
      else let pid := orderKey (o_ParentID cur) in
           match idx !! pid with
           | Some p => if bool_decide (pid ∈ seen) then (chain, seen)
                       else ancestors fuel idx p ({[pid]} ∪ seen) (p :: chain)
           | None => (chain, seen)
           end
  end.

(** The children of [pid] and, before their siblings, their own. *)
Fixpoint descend (fuel : nat) (idx : gmap bytes Order) (order : list bytes) (pid : bytes) (acc : gset bytes * list Order) : gset bytes * list Order :=
  match fuel with
  | O => acc
  | S fuel =>
      fold_left (fun acc oid =>
        match idx !! oid with
        | Some o => if bool_decide (oid ∈ acc.1) then acc
                    else if bool_decide (orderKey (o_ParentID o) = pid)
                    then descend fuel idx order oid ({[oid]} ∪ acc.1, acc.2 ++ [o]) else acc
        | None => acc
        end) order acc
  end.

Definition by_created (a b : Order) : bool := o_Created a <? o_Created b.

Definition partialOrderChain (id : bytes) : list Order :=
  let idx := chain_index in
  match idx !! id with
  | None => []
  | Some o =>
      let fuel := S (size idx) in
      let '(up, seen) := ancestors fuel idx o {[id]} [] in
      let '(_, chain) := descend fuel idx (elements (dom idx)) id (seen, up ++ [o]) in
      sort_by by_created chain
  end.

Definition chain_param (ps : list json) (method : string) : rpc (list Order) :=
  id ← rtcStr ps 0;
  _ ← ensure (negb (idIsNull (parseOrderIDS id))) errInvalidParameters method;
  Good (partialOrderChain (orderIDKey id)).

Definition dxGetMyPartialOrderChain (ps : list json) : rpc json :=
  chain ← chain_param ps "dxGetMyPartialOrderChain";
  Good (JArr (map toDetailResult chain)).

(** The amounts of the orders of a class, in 64 bits. *)
Definition sum_of (f : Order -> Z) (l : list Order) : Z := fold_left (fun t o => wrap 64 (t + f o)) l 0.
Definition is_finished (o : Order) : bool := String.eqb (o_Status o) "finished".
Definition is_canceled (o : Order) : bool := String.eqb (o_Status o) "canceled".
Definition is_open (o : Order) : bool := negb (is_finished o) && negb (is_canceled o) && (stateOrdinal (o_Status o) <=? 2).

Definition chainDetails (first : Order) (chain : list Order) : json :=
  let last := List.last chain first in
  let fin := List.filter is_finished chain in
  let unfin := List.filter (fun o => negb (is_finished o)) chain in
  let text_list f := JArr (map (fun o => JStr (f o)) chain) in
  JObj [
  fld "first_order_id" (JStr (orderIDString (o_ID first))); fld "maker" (JStr (o_FromCurrency first));
  fld "maker_address" (JStr (o_MakerAddress first)); fld "taker" (JStr (o_ToCurrency first));
  fld "taker_address" (JStr (o_TakerAddress first)); fld "partial_minimum" (jamount (o_MinFromAmount first));
  fld "partial_orig_maker_size" (jamount (o_OrigFromAmount first)); fld "partial_orig_taker_size" (jamount (o_OrigToAmount first));
  fld "first_order_time" (jtime (o_Created first)); fld "last_order_time" (jtime (o_Updated last));
  fld "total_reported_sent" (jamount (sum_of o_FromAmount fin)); fld "total_reported_received" (jamount (sum_of o_ToAmount fin));
  fld "total_reported_notsent" (jamount (sum_of o_FromAmount unfin)); fld "total_reported_notreceived" (jamount (sum_of o_ToAmount unfin));
  fld "total_orders_open" (jint (zlen (List.filter is_open chain))); fld "total_orders_finished" (jint (zlen fin));
  fld "total_orders_canceled" (jint (zlen (List.filter is_canceled chain)));
  fld "orders" (text_list (fun o => orderIDString (o_ID o))); fld "p2sh_deposits" (text_list o_BinTxId);
  fld "p2sh_deposits_counterparty" (text_list o_OBinTxId)].

Definition dxPartialOrderChainDetails (ps : list json) : rpc json :=
  chain ← chain_param ps "dxPartialOrderChainDetails";
  Good (match chain with [] => JObj [] | first :: _ => chainDetails first chain end).

Definition dxGetLockedUtxos (ps : list json) : rpc json := refuse errNotExchangeNode "dxGetLockedUtxos".

(** ** Trading data and network info *)

(** An amount text as a JSON number; one that does not parse is 0. *)
Definition jfloat (text : bytes) : json := JNum (FormatFloat_shortest (default f64_zero (ParseFloat text))).

Definition trade_json (f : fillEntry) : json := JObj [
  fld "fee_txid" (jtext ""); fld "id" (JStr (fe_ID f)); fld "maker" (JStr (fe_Maker f)); fld "maker_size" (jfloat (fe_MakerSize f));
  fld "nodepubkey" (jtext ""); fld "taker" (JStr (fe_Taker f)); fld "taker_size" (jfloat (fe_TakerSize f));
  fld "timestamp" (jint (fe_Time f / 1000000))].

Definition dxGetTradingData (ps : list json) : rpc json :=
  _ ← (if (1 <=? length ps)%nat then rtcNum ps 0 else Good 0);
  _ ← (if (length ps =? 2)%nat then rtcBool ps 1 else Good false);
  Good (JArr (map trade_json fills)).

Definition DefaultWalletVersion : Z := 4040100.
Definition DefaultWalletVersionStr : string := "/Blocknet:4.4.1/".
Definition BitcoinProtocolVersion : Z := 70713.
Definition XRouterProtocolVersion : Z := 50.

Definition network_entry (name : string) (reachable : bool) : json := JObj [
  fld "name" (jtext name); fld "limited" (JBool (negb reachable)); fld "reachable" (JBool reachable); fld "proxy" (jtext "");
  fld "proxy_randomize_credentials" (JBool false)].

(** [conns] is the number of live connections. *)
Definition getNetworkInfo (conns : Z) (ps : list json) : rpc json :=
  _ ← ensure (length ps =? 0)%nat errInvalidParameters "getnetworkinfo";
  let ver := if cf_WalletVersion cfg =? 0 then DefaultWalletVersion else cf_WalletVersion cfg in
  let sub := if bool_decide (cf_WalletVersionStr cfg = []) then bytes_of DefaultWalletVersionStr else cf_WalletVersionStr cfg in
  Good (JObj [
  fld "version" (jint ver); fld "subversion" (JStr sub); fld "protocolversion" (jint BitcoinProtocolVersion);
  fld "xbridgeprotocolversion" (jint (e_ver e)); fld "xrouterprotocolversion" (jint XRouterProtocolVersion);
  fld "localservices" (jtext "000000000000000d"); fld "localrelay" (JBool true); fld "timeoffset" (jint 0);
  fld "networkactive" (JBool true); fld "connections" (jint conns);
  fld "networks" (JArr [network_entry "ipv4" true; network_entry "ipv6" true; network_entry "onion" false]);
  fld "relayfee" (JNum (bytes_of "0.00010000")); fld "incrementalfee" (JNum (bytes_of "0.00001000"));
  fld "localaddresses" (JArr []); fld "warnings" (jtext "")]).
End Views.
