(* ===== verification/Book.v ===== *)
(** * Candles and the order book (api/handlers.go)

    dxGetOrderHistory, which files the node's fills into intervals of time and
    makes a candle of each, and dxGetOrderBook with its four levels of detail.
    Prices are computed in binary64, as the code does. *)

From S2P Require Import Prelude Sort GoLib Digits Json HttpLib Price Wallet Order Float Decimal XAmount Calendar Store Fee Session Server Params Render Views.

#[local] Set Warnings "-register-all".

(** ** dxGetOrderHistory *)

Definition history_method : string := "dxGetOrderHistory".
Definition defaultOrderHistoryMaxBuckets : Z := 100000.
Definition xSeriesEarliest : Z := 1519516800.
Definition granularities : list Z := [60; 300; 900; 3600; 21600; 86400].

Record historyQuery := mkHistoryQuery {
  hq_maker : bytes;
  hq_taker : bytes;
  hq_granularity : Z;
  hq_start : Z;
  hq_end : Z;
  hq_orderIDs : bool;
  hq_inverse : bool;
  hq_limit : option Z;
}.

(** Granularity is read before the times. *)
Definition history_params (ps : list json) : rpc historyQuery :=
  maker ← opt_str ps 0; taker ← opt_str ps 1;
  granularity ← spInt64 ps 4; start ← spInt64 ps 2; stop ← spInt64 ps 3;
  ids ← spBool ps 5; inverse ← spBool ps 6; limit ← spInt ps 7;
  Good (mkHistoryQuery maker taker (default 0 granularity) (default 0 start) (default 0 stop) (default false ids) (default false inverse) limit).

(** The aligned start and end and the number of intervals. *)
Definition history_window (now : Z) (q : historyQuery) : rpc (Z * Z * Z) :=
  let g := hq_granularity q in
  _ ← ensure (existsb (Z.eqb g) granularities) errInvalidParameters history_method;
  let start := if 0 <=? hq_start q then hq_start q / g * g else 0 in
  let stop := if 0 <=? hq_end q then Z.quot (swrap64 (hq_end q + g - 1)) g * g else 0 in
  _ ← ensure (xSeriesEarliest <=? start) errInvalidParameters history_method;
  _ ← ensure (start <? stop) errInvalidParameters history_method;
  _ ← ensure (stop <=? now / 1000000 + 86400) errInvalidParameters history_method;
  _ ← ensure (match hq_limit q with Some l => (1 <=? l) && (l <=? 2147483647) | None => true end) errInvalidParameters history_method;
  let n := (stop - start) / g in
  let limit := default defaultOrderHistoryMaxBuckets (hq_limit q) in
  if limit <? n then Good (stop - limit * g, stop, limit) else Good (start, stop, n).

Definition fill_second (f : fillEntry) : Z := fe_Time f / 1000000.

(** The interval a fill belongs to. *)
Definition bucket_of (start stop g : Z) (f : fillEntry) : option Z :=
  let t := fill_second f in
  if (t <? start) || (stop <=? t) then None else Some ((t - start) / g).

Definition by_time (a b : fillEntry) : bool := fe_Time a <? fe_Time b.

Definition bucket_fills (start stop g i : Z) (fs : list fillEntry) : list fillEntry :=
  sort_by by_time (List.filter (fun f => bool_decide (bucket_of start stop g f = Some i)) fs).

Record candle := mkCandle { cd_open : f64; cd_high : f64; cd_low : f64; cd_close : f64; cd_volume : f64; cd_ids : list bytes }.
Definition no_candle : candle := mkCandle f64_zero f64_zero f64_zero f64_zero f64_zero [].

(** Price and volume of a fill: turned around for an inverse one, whose price is
    not quantized again. *)
Definition fill_price (maker taker : bytes) (f : fillEntry) : option (f64 * f64) :=
  mk ← ParseFloat (fe_MakerSize f); tk ← ParseFloat (fe_TakerSize f);
  if f64_eq mk f64_zero || f64_eq tk f64_zero then None
  else
    let price := quantizePrice (f64_div tk mk) in
    if bool_decide (fe_Maker f = taker) && bool_decide (fe_Taker f = maker)
    then Some (if f64_eq price f64_zero then f64_zero else f64_div (f64_of 1) price, tk)
    else Some (price, mk).

(** A first price of zero is replaced by the next fill's. *)
Definition candle_add (maker taker : bytes) (c : candle) (f : fillEntry) : candle :=
  match fill_price maker taker f with
  | None => c
  | Some (price, vol) =>
      let '(o, h, l) := if f64_eq (cd_open c) f64_zero then (price, price, price) else (cd_open c, cd_high c, cd_low c) in
      mkCandle o (if f64_lt h price then price else h) (if f64_lt price l then price else l) price (f64_add (cd_volume c) vol)
        (cd_ids c ++ [fe_ID f])
  end.

Definition candle_of (maker taker : bytes) (fs : list fillEntry) : candle := fold_left (candle_add maker taker) fs no_candle.

Definition xfloat8 (v : f64) : json := JNum (FormatFloat_f 8 v).

(** A row starts with the start of its interval. *)
Definition candle_json (ids : bool) (start : Z) (c : candle) : json :=
  JArr ([JStr (iso8601 (wrap 64 (start * 1000000))); xfloat8 (cd_low c); xfloat8 (cd_high c); xfloat8 (cd_open c); xfloat8 (cd_close c);
         xfloat8 (cd_volume c)] ++ (if ids then [JArr (map JStr (cd_ids c))] else [])).

Definition intervals (n : Z) : list Z := map Z.of_nat (seq 0 (Z.to_nat n)).

Section Book.
Variables (fold_text : bytes -> bytes) (e : Env) (s : Store).

Definition history_rows (q : historyQuery) (start stop n : Z) : list (Z * list fillEntry) :=
  let fs := List.filter (fill_matches (hq_maker q) (hq_taker q) (hq_inverse q)) (fills e s) in
  map (fun i => (start + i * hq_granularity q, bucket_fills start stop (hq_granularity q) i fs)) (intervals n).

Definition dxGetOrderHistory (ps : list json) : rpc json :=
  q ← history_params ps;
  '(start, stop, n) ← history_window (e_now e) q;
  Good (JArr (map (fun row => candle_json (hq_orderIDs q) row.1 (candle_of (hq_maker q) (hq_taker q) row.2)) (history_rows q start stop n))).

(** ** dxGetOrderBook *)

Record obEntry := mkObEntry { en_price : f64; en_amount : Z; en_id : bytes }.

Definition tradable (o : Order) : bool := String.eqb (o_Status o) "open" && (0 <? o_FromAmount o) && (0 <? o_ToAmount o).

Definition pair_of (from to : bytes) (o : Order) : bool :=
  EqualFold fold_text (o_FromCurrency o) from && EqualFold fold_text (o_ToCurrency o) to.

(** An order that sells what is asked for, and one that buys it. *)
Definition ask_entry (o : Order) : obEntry :=
  mkObEntry (f64_div (xBridgeValueFromAmount (o_ToAmount o)) (xBridgeValueFromAmount (o_FromAmount o))) (o_FromAmount o) (o_ID o).
Definition bid_entry (o : Order) : obEntry :=
  mkObEntry (f64_div (xBridgeValueFromAmount (o_FromAmount o)) (xBridgeValueFromAmount (o_ToAmount o))) (o_ToAmount o) (o_ID o).

(** Both sides by falling price, then by id. *)
Definition by_price (a b : obEntry) : bool :=
  if f64_eq (en_price a) (en_price b) then orderIDLess (en_id a) (en_id b) else f64_lt (en_price b) (en_price a).

Definition asks (maker taker : bytes) : list obEntry :=
  sort_by by_price (map ask_entry (List.filter (fun o => tradable o && pair_of maker taker o) (Store_List e s))).
Definition bids (maker taker : bytes) : list obEntry :=
  sort_by by_price (map bid_entry (List.filter (fun o => tradable o && pair_of taker maker o) (Store_List e s))).

Definition countAtPrice (l : list obEntry) (price : f64) : Z := zlen (List.filter (fun en => floatCompare (en_price en) price) l).

(** The best of a side: the lowest ask, the highest bid, of equals the one with the least id. *)
Definition better (highest : bool) (a b : obEntry) : bool :=
  (if highest then f64_lt (en_price b) (en_price a) else f64_lt (en_price a) (en_price b))
  || (f64_eq (en_price a) (en_price b) && orderIDLess (en_id a) (en_id b)).

Definition bestOf (highest : bool) (first : obEntry) (rest : list obEntry) : obEntry :=
  fold_left (fun best en => if better highest en best then en else best) rest first.

Definition en_by_id (a b : obEntry) : bool := orderIDLess (en_id a) (en_id b).

Definition idsAtPrice (l : list obEntry) (best : obEntry) : list bytes :=
  orderIDString (en_id best) ::
  map (fun en => orderIDString (en_id en))
      (sort_by en_by_id (List.filter (fun en => negb (bool_decide (en_id en = en_id best)) && floatCompare (en_price en) (en_price best)) l)).

Definition price_json (en : obEntry) : json := JStr (formatXPrice (en_price en)).

(** The merge of the entries of one price, below [bound]: the size and the next index. *)
Fixpoint merge_from (fuel : nat) (l : list obEntry) (bound : nat) (price : f64) (size : Z) (i : nat) : Z * nat :=
  match fuel with
  | O => (size, i)
  | S fuel =>
      match l !! i with
      | Some en => if (i <? bound)%nat && floatCompare (en_price en) price
                   then merge_from fuel l bound price (wrap 64 (size + en_amount en)) (S i) else (size, i)
      | None => (size, i)
      end
  end.

(** Detail 2: the index moves on once more after the merge, and on the side of
    the asks the merge stops at [bound] although the loop runs to the end. *)
Fixpoint merged_rows (fuel : nat) (l : list obEntry) (bound stop i : nat) : list json :=
  match fuel with
  | O => []
  | S fuel =>
      if (i <? stop)%nat then
        match l !! i with
        | Some en =>
            let '(size, j) := merge_from (length l) l bound (en_price en) (en_amount en) (S i) in
            JArr [price_json en; jamount size; jint (countAtPrice l (en_price en))] :: merged_rows fuel l bound stop (S j)
        | None => []
        end
      else []
  end.

Definition best_row (highest : bool) (l : list obEntry) (last : obEntry -> json) : list (list json) :=
  match l with
  | [] => []
  | en :: rest => let best := bestOf highest en rest in [[price_json best; jamount (en_amount best); last best]]
  end.

Definition plain_row (en : obEntry) : list json := [price_json en; jamount (en_amount en); JStr (orderIDString (en_id en))].

Definition as_rows (l : list json) : list (list json) := map (fun v => match v with JArr r => r | _ => [] end) l.

(** The rows of both sides, asks first. *)
Definition book_rows (detail maxOrders : Z) (asks bids : list obEntry) : list (list json) * list (list json) :=
  let na := length asks in
  let bound (n : nat) := Nat.min (Z.to_nat maxOrders) n in
  if detail =? 1 then
    (best_row false asks (fun b => jint (countAtPrice asks (en_price b))), best_row true bids (fun b => jint (countAtPrice bids (en_price b))))
  else if detail =? 2 then
    (as_rows (merged_rows na asks (bound na) na (na - bound na)),
     as_rows (merged_rows (length bids) bids (bound (length bids)) (bound (length bids)) 0))
  else if detail =? 3 then
    (map plain_row (drop (na - bound na) asks), map plain_row (take (bound (length bids)) bids))
  else
    (best_row false asks (fun b => JArr (map JStr (idsAtPrice asks b))), best_row true bids (fun b => JArr (map JStr (idsAtPrice bids b)))).

Definition dxGetOrderBook (ps : list json) : rpc json :=
  detail ← spInt ps 0;
  let detail := default 0 detail in
  _ ← ensure ((1 <=? detail) && (detail <=? 4)) errInvalidDetailLevel "dxGetOrderBook";
  maker ← opt_str ps 1; taker ← opt_str ps 2;
  maxOrders ← (if (length ps =? 4)%nat then spInt ps 3 else Good (Some 50));
  let maxOrders := Z.max 1 (default 0 maxOrders) in
  let '(a, b) := book_rows detail maxOrders (asks maker taker) (bids maker taker) in
  Good (orderBook_json detail maker taker a b).
End Book.
