(* ===== verification/Split.v ===== *)
(** * Splitting outputs (api/handlers.go)

    dxSplitAddress and dxSplitInputs: the outputs of an address, or the ones
    asked for, are paid back to it in equal parts.  [plan_split] is splitTx up
    to the transaction, [splitTx] signs and sends it. *)

From S2P Require Import Prelude Sort GoLib Digits Hex Json Reply HttpLib Codec Conf Coin Amount Address Script Tx Price Wallet Deposit Order Float.
From S2P Require Import XAmount Store Utxos Select Fee Session Persist Node Take Make Server Params Render.

#[local] Set Warnings "-register-all".

Record split_req := mkSplitReq {
  sq_ticker : bytes;
  sq_amount : bytes;
  sq_address : bytes;
  sq_includeFees : bool;
  sq_showRawTx : bool;
  sq_submit : bool;
}.

Record split_plan := mkSplitPlan {
  spl_target : Z;
  spl_size : Z;       (** the size of a part, fees included *)
  spl_utxos : list Utxo;
  spl_total : Z;
  spl_fees : Z;
  spl_outs : list Z;
  spl_count : Z;
  spl_tx : Tx;
}.

(** Each requested output once, in the order of the wallet. *)
Fixpoint resolve (want : gset bytes) (wallet : list Utxo) : list Utxo * gset bytes :=
  match wallet with
  | [] => ([], want)
  | w :: wallet =>
      if bool_decide (utxoKey w ∈ want) then let '(l, missing) := resolve (want ∖ {[utxoKey w]}) wallet in (w :: l, missing)
      else resolve want wallet
  end.

(** The parts that pay for the fee, the last one first; [outs] is reversed. *)
Fixpoint claw_back (dust : Z -> bool) (feesLeft n : Z) (outs : list Z) : list Z * Z :=
  match outs with
  | [] => ([], n)
  | last :: rest =>
      if feesLeft <=? 0 then (outs, n)
      else if last <=? feesLeft then claw_back dust (feesLeft - last) (n - 1) rest
      else if dust (last - feesLeft) then (rest, n - 1) else (last - feesLeft :: rest, n - 1)
  end.

(** The outputs and their count: [n] parts and the change, where it is no dust. *)
Definition split_outputs (dust : Z -> bool) (size n remainder fees : Z) : list Z * Z :=
  let parts := repeat size (Z.to_nat n) in
  let change := swrap64 (swrap64 remainder - swrap64 fees) in
  if (0 <? change) && negb (dust change) then (parts ++ [change], n)
  else let '(outs, n) := claw_back dust fees n (rev parts) in (rev outs, n).

Section Split.
Context (uni : Unicode) (e : Env) (s : Store).

Definition locked_keys : gset bytes := lockedInfoLocked s.

(** The outputs to split: the ones asked for, or those of the address that are
    free and not of the size already. *)
Definition split_inputs (q : split_req) (size : Z) (wallet : list Utxo) (asked : list Utxo) (method : string) : rpc (list Utxo) :=
  let wallet := List.filter (fun u => isP2PKH25 (u_ScriptPubKey u)) wallet in
  us ← (if bool_decide (asked = []) then
          Good (List.filter (fun u => negb (bool_decide (utxoKey u ∈ locked_keys)) && negb (camount u =? size)
                                      && bool_decide (u_Address u = sq_address q)) wallet)
        else
          let '(l, missing) := resolve (list_to_set (map utxoKey asked)) wallet in
          _ ← ensure (bool_decide (missing = ∅)) errBadRequest method;
          Good l);
  _ ← ensure (negb (bool_decide (us = []))) errBadRequest method;
  Good (take 100 us).

Definition sum_camount (us : list Utxo) : Z := fold_left (fun t u => wrap 64 (t + camount u)) us 0.

Definition splitable (k : AddressKind) : bool := match k with P2PKH | P2SH => true | _ => false end.

Definition plan_split (q : split_req) (asked : list Utxo) (method : string) : rpc split_plan :=
  conn ← connector e (sq_ticker q) method;
  c ← need (Get (e_Coins e) (sq_ticker q)) errInvalidParameters method;
  target ← lexical (sq_amount q);
  cc ← confFor e (sq_ticker q) method;
  let dust (v : Z) := isDustNative (xBridgeValueFromAmount v) (Some cc) (coinNativeScale c) in
  _ ← ensure (negb (dust target)) errBadRequest method;
  a ← need_r (decodeAddress uni c (sq_address q)) errBadRequest method;
  _ ← ensure (splitable (A_Kind a)) errBadRequest method;
  let fees := wrap 64 (ceilFeeXB (Some cc) (estimateFee (Some cc) 1 3) + ceilFeeXB (Some cc) (estimateFee (Some cc) 1 1)) in
  let size := if sq_includeFees q then wrap 64 (target + fees) else target in
  wallet ← need_w (ListUnspent conn (cc_Confirmations cc)) errBadRequest method;
  us ← split_inputs q size wallet asked method;
  script ← legacyOutputScript uni c (sq_address q);
  let total := sum_camount us in
  (** a size of 0 divides by zero *)
  n ← (if size =? 0 then Crash else Good (swrap64 (total / size)));
  let n := if 100 <? n then 100 else n in
  _ ← ensure (negb (n =? 0)) errBadRequest method;
  (** a capacity below 0 panics *)
  _ ← (if n + 1 <? 0 then Crash else Good tt);
  let remainder := wrap 64 (total - wrap 64 (wrap 64 n * size)) in
  let fees := ceilFeeXB (Some cc) (estimateFee (Some cc) (zlen us) n) in
  let '(outs, count) := split_outputs dust size n remainder fees in
  _ ← ensure (negb (bool_decide (outs = []))) errBadRequest method;
  ins ← need (mapM (fun u => h ← reverseTxidHex (u_TxID u); Some (mkTxIn (mkOutPoint h (u_Vout u)) [] 4294967295 [] 0)) us) errBadRequest method;
  let tx := mkTx (tx_version (Some cc)) 0 ins (map (fun v => mkTxOut (fromXBridgeAmt c v) script) outs) false false 0 in
  Good (mkSplitPlan target size us total fees outs count tx).

(** The node afterwards: a submitted split is watched like any other broadcast. *)
Definition splitTx (q : split_req) (asked : list Utxo) (method : string) (n : Node) : rpc splitTxResult * Node :=
  let plan :=
    p ← plan_split q asked method;
    conn ← connector e (sq_ticker q) method;
    '(signed, complete) ← need_w (SignRawTransaction conn (EncodeToString (Tx_Serialize (spl_tx p))) (prev_txs (spl_utxos p))) errBadRequest method;
    _ ← ensure complete errBadRequest method;
    txid ← txidOfRawTx signed;
    Good (p, conn, signed, txid) in
  match plan with
  | Good (p, conn, signed, txid) =>
      let answer := mkSplitTxResult (sq_ticker q) (sq_includeFees q) (spl_target p) (spl_size p) (spl_count p) (spl_total p) txid
                      (if sq_showRawTx q then signed else []) in
      if sq_submit q then
        match SendRawTransaction conn signed with
        | inl _ => (Good answer, recordBroadcast e [] broadcastSplit (sq_ticker q) txid signed n)
        | inr _ => (refuse errBadRequest method, n)
        end
      else (Good answer, n)
  | Bad err => (Bad err, n)
  | Crash => (Crash, n)
  end.

(** ** The parameters *)

(** A string field of a decoded struct: [null] leaves it, another type is an error. *)
Definition string_field (name : string) (l : list (bytes * json)) : option bytes :=
  fold_left (fun acc kv =>
    acc ← acc;
    if bool_decide (fold_ascii kv.1 = fold_ascii (bytes_of name)) then
      match kv.2 with JStr v => Some v | JNull => Some acc | _ => None end
    else Some acc) l (Some []).

Definition last_field (name : string) (l : list (bytes * json)) : option json :=
  fold_left (fun acc kv => if bool_decide (fold_ascii kv.1 = fold_ascii (bytes_of name)) then Some kv.2 else acc) l None.

Definition parse_utxo (c : Coin) (v : json) : rpc Utxo :=
  l ← need (decode_map v) errInvalidParameters "dxSplitInputs";
  txid ← need (string_field "txid" l) errInvalidParameters "dxSplitInputs";
  amount ← need (string_field "amount" l) errInvalidParameters "dxSplitInputs";
  script ← need (string_field "scriptPubKey" l) errInvalidParameters "dxSplitInputs";
  address ← need (string_field "address" l) errInvalidParameters "dxSplitInputs";
  vout ← uvInt (last_field "vout" l);
  amt ← (if bool_decide (amount = []) then Good 0 else need_r (ParseAmount c amount) errInvalidParameters "dxSplitInputs");
  Good (mkUtxo txid vout address amt f64_zero script 0).

Definition parseUtxoParam (c : Coin) (vs : list json) : rpc (list Utxo) :=
  fold_right (fun v l => u ← parse_utxo c v; l ← l; Good (u :: l)) (Good []) vs.

Definition dxSplitAddress (ps : list json) (n : Node) : rpc splitTxResult * Node :=
  let args :=
    ticker ← uvStr ps 0; amount ← uvStr ps 1; address ← uvStr ps 2;
    includeFees ← uvBoolOpt ps 3 true; showRawTx ← uvBoolOpt ps 4 false; submit ← uvBoolOpt ps 5 true;
    Good (mkSplitReq ticker amount address includeFees showRawTx submit) in
  match args with
  | Good q => splitTx q [] "dxSplitAddress" n
  | Bad err => (Bad err, n)
  | Crash => (Crash, n)
  end.

Definition split_inputs_args (ps : list json) : rpc (split_req * list Utxo) :=
  ticker ← uvStr ps 0; amount ← uvStr ps 1; address ← uvStr ps 2;
  includeFees ← uvBool ps 3; showRawTx ← uvBool ps 4; submit ← uvBool ps 5;
  arr ← uvArr ps 6;
  c ← need (Get (e_Coins e) ticker) errInvalidParameters "dxSplitInputs";
  us ← parseUtxoParam c arr;
  _ ← ensure (negb (bool_decide (us = []))) errBadRequest "dxSplitInputs";
  _ ← ensure (forallb (fun u => negb (bool_decide (utxoKey u ∈ locked_keys))) us) errBadRequest "dxSplitInputs";
  Good (mkSplitReq ticker amount address includeFees showRawTx submit, us).

Definition dxSplitInputs (ps : list json) (n : Node) : rpc splitTxResult * Node :=
  match split_inputs_args ps with
  | Good (q, us) => splitTx q us "dxSplitInputs" n
  | Bad err => (Bad err, n)
  | Crash => (Crash, n)
  end.
End Split.
