(* ===== verification/Rpc.v ===== *)
(** * The handlers behind the dispatch table (api/handlers.go, api/dispatch.go)

    The layer between the parameters of a call and the node: dxMakeOrder,
    dxMakePartialOrder, dxTakeOrder, dxCancelOrder, dxFlushCancelledOrders,
    dxLoadXBridgeConf and help, and the table that puts them and the read-only
    handlers of Views.v, Book.v and Split.v under their names, the [handle] that
    Server.v serves.  What a call finds around it ([Ambient]: clock, order of the
    map, registry, random draws, chain tip) is given call by call.  RpcLaws.v
    says what a call can change. *)

From S2P Require Import Prelude Sort GoLib Digits Hex Json Reply HttpLib Codec Bodies Packet Secp Signer Conf Coin Wallet Deposit Order Float.
From S2P Require Import XAmount Calendar Store Utxos Fee Session Persist Node Resume Sweep Track Commands Registry Take Make.
From S2P Require Import Server Params Render Views Book Split Activate.

#[local] Set Warnings "-register-all".

Definition errInvalidState : Z := 1028.

(** ** The daemon *)

Record Daemon := mkDaemon {
  d_node : Node;
  d_config : NodeConfig;
  d_coins : gmap bytes Coin;
  d_bad : gmap bytes Z;
  d_calls : nat;     (** calls so far *)
}.
#[export] Instance Daemon_eta : Eta Daemon := fun d => mkDaemon (d_node d) (d_config d) (d_coins d) (d_bad d) (d_calls d).

Record Ambient := mkAmbient {
  am_env : Env;                (** clock, version, connection, order of the map; the configuration is the daemon's *)
  am_hubs : option Registry.Registry;
  am_pick : list bytes -> list bytes -> option bytes;   (** [Registry.Pick] with its draws *)
  am_draws : list bytes;
  am_secret : bytes;
  am_running : bool;           (** false when the daemon is stopping *)
  am_tip : bytes * Z;          (** hash text and height of BLOCK *)
  am_conns : Z;
  am_duration : Z;
  am_file : bytes -> option bytes;
  am_times : nat -> Z * Z;
}.

(** The environment of a call: the configuration in force. *)
Definition env_of (am : Ambient) (d : Daemon) : Env :=
  let e := am_env am in
  mkEnv (e_now e) (e_unix e) (e_ver e) (nc_Connectors (d_config d)) (nc_Confs (d_config d)) (d_coins d) (e_DataDir e) (e_connected e)
    (e_exchangeStarted e) (e_Known e) (e_TakeRetry e) (e_startedAt e) (e_height e) (e_keys e).

(** The answer of a handler on the node, put back into the daemon. *)
Definition on_node {A} (d : Daemon) (render : A -> rpc json) (r : rpc A * Node) : rpc json * Daemon :=
  (a ← r.1; render a, d <| d_node := r.2 |>).

(** A handler that stops at its parameters. *)
Definition with_params {A} (d : Daemon) (p : rpc A) (k : A -> rpc json * Daemon) : rpc json * Daemon :=
  match p with Good a => k a | Bad err => (Bad err, d) | Crash => (Crash, d) end.

(** ** Parameters of make and take *)

Definition flag_from (ps : list json) (i : nat) : rpc bool := if (S i <=? length ps)%nat then uvBool ps i else Good true.

Definition make_args (ps : list json) : rpc MakeOrderParams :=
  maker ← opt_str ps 0; makerSize ← opt_str ps 1; makerAddr ← opt_str ps 2;
  taker ← opt_str ps 3; takerSize ← opt_str ps 4; takerAddr ← opt_str ps 5; typ ← opt_str ps 6;
  useAll ← flag_from ps 7;
  dryRun ← dry_run opt_str ps 8 "dxMakeOrder";
  _ ← ensure (bool_decide (typ = bytes_of "exact")) errInvalidParameters "dxMakeOrder";
  Good (mkMakeOrderParams maker makerSize makerAddr taker takerSize takerAddr typ [] useAll false false dryRun).

Definition partial_args (ps : list json) : rpc MakeOrderParams :=
  maker ← uvStr ps 0; makerSize ← uvStr ps 1; makerAddr ← uvStr ps 2;
  taker ← uvStr ps 3; takerSize ← uvStr ps 4; takerAddr ← uvStr ps 5; minSize ← uvStr ps 6;
  repost ← flag_from ps 7; useAll ← flag_from ps 8; autoSplit ← flag_from ps 9;
  dryRun ← dry_run uvStr ps 10 "dxMakePartialOrder";
  Good (mkMakeOrderParams maker makerSize makerAddr taker takerSize takerAddr (bytes_of "partial") minSize useAll autoSplit repost dryRun).

(** Equal addresses and a zero amount are refused before the dry-run word is looked at. *)
Definition take_args (ps : list json) : rpc TakeOrderParams :=
  id ← uvStr ps 0; fromAddr ← uvStr ps 1; toAddr ← uvStr ps 2;
  amount ← (if (4 <=? length ps)%nat then uvStr ps 3 else Good []);
  _ ← ensure (negb (bool_decide (fromAddr = toAddr))) errInvalidParameters "dxTakeOrder";
  _ ← (if bool_decide (amount = []) then Good tt
       else a ← lexical amount; ensure (negb (a =? 0)) errInvalidParameters "dxTakeOrder");
  dryRun ← dry_run uvStr ps 4 "dxTakeOrder";
  Good (mkTakeOrderParams id fromAddr toAddr amount dryRun).

Definition swrap32 (z : Z) : Z := let w := wrap 32 z in if w <? 2 ^ 31 then w else w - 2 ^ 32.

(** The age is held in 32 bits. *)
Definition flush_age (ps : list json) : rpc Z :=
  age ← (match ps with
         | [] => Good 0
         | [_] => v ← spInt ps 0; Good (swrap32 (default 0 v))
         | _ => refuse errInvalidParameters "dxFlushCancelledOrders"
         end);
  _ ← ensure (0 <=? age) errInvalidParameters "dxFlushCancelledOrders";
  Good age.

(** The commands help lists. *)
Definition helpCommandNames : list string := [
  "dxCancelOrder"; "dxFlushCancelledOrders"; "dxGetLocalTokens"; "dxGetLockedUtxos"; "dxGetMyOrders"; "dxGetMyPartialOrderChain";
  "dxGetNetworkTokens"; "dxGetNewTokenAddress"; "dxGetOrder"; "dxGetOrderBook"; "dxGetOrderFills"; "dxGetOrderHistory"; "dxGetOrders";
  "dxGetTokenBalances"; "dxGetTradingData"; "dxGetUtxos"; "dxLoadXBridgeConf"; "dxMakeOrder"; "dxMakePartialOrder";
  "dxPartialOrderChainDetails"; "dxSplitAddress"; "dxSplitInputs"; "dxTakeOrder"; "getnetworkinfo"; "help"]%string.

Section Rpc.
Context (ripemd160 : bytes -> bytes) {secp : Secp} (uni : Unicode) {gosort : GoSort} (mem : Z).
Variables (fold_text : bytes -> bytes) (dial : CoinConf -> Connector) (walletVersion : Z) (walletVersionStr : bytes).
(** The text of a command's help; every listed command has one. *)
Variable help_text : string -> bytes.

Definition config_of (d : Daemon) : Config :=
  mkConfig (nc_ShowAllOrders (d_config d)) (nc_ExchangeWallets (d_config d)) walletVersion walletVersionStr.

(** ** Make and take *)

(** No order and no error, when the daemon stops, is dereferenced. *)
Definition made (dry : Order -> json) (done : Order -> json) (a : make_answer) : rpc json :=
  match a with MadeDry o => Good (dry o) | Made (Some o) => Good (done o) | Made None => Crash end.

Definition make_with (am : Ambient) (p : MakeOrderParams) (d : Daemon) : rpc make_answer * Node :=
  MakeOrder ripemd160 uni (env_of am d) ((fun _ => am_pick am) <$> am_hubs am) p (am_tip am).1 (am_tip am).2
    (am_draws am) (am_secret am) (am_running am) (d_node d).

Definition dxMakeOrder (am : Ambient) (ps : list json) (d : Daemon) : rpc json * Daemon :=
  with_params d (make_args ps) (fun p =>
    on_node d (made dryrunMakeOrderResponse (makeOrderResponse (e_now (am_env am)))) (make_with am p d)).

Definition dxMakePartialOrder (am : Ambient) (ps : list json) (d : Daemon) : rpc json * Daemon :=
  with_params d (partial_args ps) (fun p =>
    on_node d (made (dryrunMakePartialOrderResponse (mp_Repost p)) (makePartialOrderResponse (e_now (am_env am)) (mp_Repost p)))
      (make_with am p d)).

(** The taker's view of the order; a dry run shows the order of the book it looked at. *)
Definition taken_json (am : Ambient) (id : bytes) (n : Node) (a : take_answer) : rpc json :=
  match a with
  | DryRun fromSize toSize =>
      match get_order n (orderIDKey id) with Some o => Good (toTakeDryrunResult fromSize toSize o) | None => Crash end
  | Taken o fromSize toSize => Good (toTakeResult fromSize toSize o)
  end.

Definition dxTakeOrder (am : Ambient) (ps : list json) (d : Daemon) : rpc json * Daemon :=
  with_params d (take_args ps) (fun p =>
    on_node d (taken_json am (tp_ID p) (d_node d))
      (TakeOrder uni (env_of am d) (am_hubs am) p (am_draws am) (am_running am) (d_node d))).

(** ** Cancel *)

(** Why the engine refused. *)
Definition cancel_error (e : Env) (id : bytes) (n : Node) : Z :=
  match get_order n id with
  | None => errTxNotFound
  | Some cur =>
      if 6 <? stateOrdinal (o_Status cur) then errInvalidState
      else if negb (e_connected e) then errNoServiceNode
      else match n_sessions n !! id with None => errBadRequest | Some _ => errUnknown end
  end.

(** The order as it was read, with the new state. A daemon that is stopping answers as if it had cancelled. *)
Definition CancelOrder (e : Env) (running : bool) (id : bytes) (n : Node) : rpc Order * Node :=
  let checks :=
    _ ← requireWrite e "dxCancelOrder";
    o ← need (get_order n id) errTxNotFound "dxCancelOrder";
    _ ← ensure (o_Mine o) errTxNotFound "dxCancelOrder";
    _ ← connector e (o_FromCurrency o) "dxCancelOrder";
    Good o in
  match checks with
  | Good o =>
      if negb running then (Good o, n)
      else
        let '(ans, n') := commitCancel mem e id n in
        match ans with
        | Done => (Good (o <| o_Status := "canceled"%string |> <| o_Updated := e_now e |>), n')
        | _ => (refuse (cancel_error e id n) "dxCancelOrder", n')
        end
  | Bad err => (Bad err, n)
  | Crash => (Crash, n)
  end.

(** Past the created state nothing is cancelled; a missing wallet of the other coin is an error after the fact. *)
Definition dxCancelOrder (am : Ambient) (ps : list json) (d : Daemon) : rpc json * Daemon :=
  let e := env_of am d in
  let checks :=
    id ← opt_str ps 0;
    _ ← ensure (negb (idIsNull (parseOrderIDS id))) errInvalidParameters "dxCancelOrder";
    o ← need (find_order (n_store (d_node d)) id) errTxNotFound "dxCancelOrder";
    _ ← ensure (negb (6 <=? stateOrdinal (o_Status o))) errInvalidState "dxCancelOrder";
    Good (orderIDKey id, o) in
  with_params d checks (fun '(key, o) =>
    let render res :=
      _ ← connector e (o_FromCurrency o) "dxCancelOrder";
      _ ← connector e (o_ToCurrency o) "dxCancelOrder";
      Good (toCancelResult res) in
    on_node d render (CancelOrder e (am_running am) key (d_node d))).

(** ** Flush, reload and help *)

Definition dxFlushCancelledOrders (am : Ambient) (ps : list json) (d : Daemon) : rpc json * Daemon :=
  let e := am_env am in
  with_params d (flush_age ps) (fun age =>
    let '(st, flushed) := FlushCancelled age (e_now e) (e_keys e) (n_store (d_node d)) in
    (Good (flushCancelledResult age (e_now e) (am_duration am) flushed), d <| d_node ::= fun n => n <| n_store := st |> |>)).

(** A failed load is an answer, not an error. *)
Definition dxLoadXBridgeConf (am : Ambient) (ps : list json) (d : Daemon) : rpc json * Daemon :=
  let '(ok, l) := reloadConf dial uni (am_file am) (am_times am)
                    (mkLoaded (d_config d) (d_coins d) (d_bad d) (n_store (d_node d))) in
  (Good (JBool ok),
   mkDaemon (d_node d <| n_store := ld_store l |>) (ld_config l) (ld_registry l) (ld_bad l) (d_calls d)).

Definition unlines (ls : list bytes) : bytes := concat (map (fun l => l ++ [x0a]) ls).

Definition dxHelp (ps : list json) : rpc json :=
  match ps with
  | [] => Good (JStr (unlines (bytes_of "== XBridge ==" :: map bytes_of helpCommandNames)))
  | _ =>
      cmd ← uvStr ps 0;
      match List.find (fun n => bool_decide (bytes_of n = cmd)) helpCommandNames with
      | Some n => Good (JStr (help_text n ++ [x0a]))
      | None => Good (JStr (bytes_of "help: unknown command: " ++ cmd))
      end
  end.

(** ** The table *)

(** A handler that only looks. *)
Definition reading (f : Daemon -> list json -> rpc json) (ps : list json) (d : Daemon) : rpc json * Daemon := (f d ps, d).

Definition splitting (f : Env -> Store -> list json -> Node -> rpc splitTxResult * Node) (am : Ambient) (ps : list json) (d : Daemon)
    : rpc json * Daemon :=
  on_node d (fun r => Good (splitTxResult_json r)) (f (env_of am d) (n_store (d_node d)) ps (d_node d)).

Definition handlers (am : Ambient) : list (string * (list json -> Daemon -> rpc json * Daemon)) :=
  let store d := n_store (d_node d) in [
  ("dxGetOrderFills", reading (fun d => dxGetOrderFills (env_of am d) (store d)));
  ("dxGetOrders", reading (fun d => dxGetOrders (env_of am d) (config_of d) (store d)));
  ("dxGetOrder", reading (fun d => dxGetOrder (env_of am d) (store d)));
  ("dxGetLocalTokens", reading (fun d => dxGetLocalTokens (env_of am d)));
  ("dxLoadXBridgeConf", dxLoadXBridgeConf am);
  ("dxGetNewTokenAddress", reading (fun d => dxGetNewTokenAddress (env_of am d)));
  ("dxGetNetworkTokens", reading (fun d => dxGetNetworkTokens (env_of am d) (am_hubs am)));
  ("dxMakeOrder", dxMakeOrder am);
  ("dxMakePartialOrder", dxMakePartialOrder am);
  ("dxTakeOrder", dxTakeOrder am);
  ("dxCancelOrder", dxCancelOrder am);
  ("dxGetOrderHistory", reading (fun d => dxGetOrderHistory (env_of am d) (store d)));
  ("dxGetOrderBook", reading (fun d => dxGetOrderBook fold_text (env_of am d) (store d)));
  ("dxGetTokenBalances", reading (fun d => dxGetTokenBalances (env_of am d) (config_of d) (store d)));
  ("dxGetMyOrders", reading (fun d => dxGetMyOrders (env_of am d) (store d)));
  ("dxGetMyPartialOrderChain", reading (fun d => dxGetMyPartialOrderChain (env_of am d) (store d)));
  ("dxPartialOrderChainDetails", reading (fun d => dxPartialOrderChainDetails (env_of am d) (store d)));
  ("dxGetLockedUtxos", reading (fun _ => dxGetLockedUtxos));
  ("dxFlushCancelledOrders", dxFlushCancelledOrders am);
  ("dxGetTradingData", reading (fun d => dxGetTradingData (env_of am d) (store d)));
  ("dxSplitAddress", splitting (dxSplitAddress uni) am);
  ("dxSplitInputs", splitting (dxSplitInputs uni) am);
  ("dxGetUtxos", reading (fun d => dxGetUtxos (env_of am d) (store d)));
  ("getnetworkinfo", reading (fun d => getNetworkInfo (env_of am d) (config_of d) (am_conns am)));
  ("help", reading (fun _ => dxHelp))]%string.

(** One call, in the surroundings of its turn. *)
Definition handle (amb : nat -> Ambient) (name : string) (ps : list json) (d : Daemon) : rpc json * Daemon :=
  match List.find (fun h => String.eqb h.1 name) (handlers (amb (d_calls d))) with
  | Some (_, h) => h ps (d <| d_calls ::= S |>)
  | None => (envelope codeMethodNotFound, d)
  end.
End Rpc.
