(* ===== verification/Engine.v ===== *)
(** * The engine loop, restarts and the writer (api/engine.go, api/node.go)

    What the loop does with each thing it receives: a packet the reader let
    through, a worker's result, a command of the RPC, and its three tickers.
    [world_step] adds what runs beside it: the workers, and the goroutine that
    writes queued snapshots. [restoreLocalSwaps] is what a start makes of the
    swap file. *)

From S2P Require Import Prelude Sha256 GoLib Hex Codec Bodies Packet Secp Signer Conf Coin Address Script Price Tx Wallet.
From S2P Require Import Deposit Order Store Session Persist Node Resume Sweep Track Commands.

(** ** Restart (api/persist.go, api/node.go) *)

Definition restoreSwap (e : Env) (ps : persistedSwap) (n : Node) : Node :=
  let o := buildOrder ps in
  if restores_to_history ps
  then n <| n_store ::= AddToHistory o (o_Status o) (o_Reason o) (o_Updated o) |>
  else
    let n := n <| n_store ::= Add (restored_order (e_now e) ps) |> in
    match restored_session (e_now e) (n_nextGen n) ps with
    | None => n
    | Some s => add_session (hexEncode (o_ID o)) (fun _ => s) n
    end.

(** A deposit that a crash left unrecorded and that the wallet knows is marked as sent. *)
Definition deposit_unrecorded (n : Node) (id : bytes) (s : SwapSession) : bool :=
  negb (is_empty (s_refundHex s)) && negb (s_refundDone s) && cs_lt (s_state s) csCreatedA
  && negb (orderDepositSent n id) && negb (is_empty (s_ourDepositTxID s)).

Definition wallet_has (conn : option Connector) (txid : bytes) : bool :=
  match conn with
  | None => false
  | Some c => match GetRawTransaction c txid with inl hex => negb (is_empty hex) | inr _ => false end
  end.

Definition reconcileUnconfirmedDeposits (e : Env) (n : Node) : Node :=
  each_session e (fun id s n =>
    if deposit_unrecorded n id s && wallet_has (e_Connectors e !! s_srcCur s) (s_ourDepositTxID s)
    then updO id (fun o => o <| o_DepositSent := true |>) n else n) n.

(** A file that parses; [settled] is the archive section of older versions. *)
Definition restoreLocalSwaps (e : Env) (f : swapFile) (settled : list trackedBroadcast) (n : Node) : Node :=
  let n := fold_left (fun n ps => restoreSwap e ps n) (f_swaps f) n in
  let n := restoreTracked e (f_broadcasts f) n in
  reconcileUnconfirmedDeposits e (migrateSettledArchive e settled n).

(** A damaged file: the records that could be read. *)
Definition restoreSalvaged (e : Env) (good : list persistedSwap) (n : Node) : Node :=
  reconcileUnconfirmedDeposits e (fold_left (fun n ps => restoreSwap e ps n) good n).

(** ** The loop *)

Section Engine.
Context (ripemd160 : bytes -> bytes) {secp : Secp} (uni : Unicode) (mem : Z).

(** What the reader lets through: a body that decodes, signed by the key of its header. *)
Definition reader_accepts (pkt : Packet) : bool :=
  match DecodeBody (Command pkt) (PBody pkt) with
  | Ok _ => match Verify pkt with Ok b => b | _ => false end
  | _ => false
  end.

(** The stages of the tick, each one run on what the one before left. *)
Definition tickStages (e : Env) : list (string * (Node -> Node)) := [
  ("clearStuckAwait"%string, clearStuckAwait e);
  ("scanRefunds"%string, scanRefunds e);
  ("scanStoredRefunds"%string, scanStoredRefunds mem e);
  ("resendHoldApplies"%string, resendHoldApplies uni e);
  ("retryFailedClaimBuilds"%string, retryFailedClaimBuilds e);
  ("retryFailedDepositBuilds"%string, retryFailedDepositBuilds e);
  ("recordSilentHubs"%string, recordSilentHubs e);
  ("watchStalledSessions"%string, watchStalledSessions mem e);
  ("gcStaleMineOrders"%string, gcStaleMineOrders e);
  ("watchCounterpartyDeposits"%string, watchCounterpartyDeposits e);
  ("watchOwnDepositSpends"%string, watchOwnDepositSpends e);
  ("pollBroadcastConfirmations"%string, pollBroadcastConfirmations e);
  ("rebroadcastUnconfirmed"%string, rebroadcastUnconfirmed e);
  ("pruneTracked"%string, pruneTracked);
  ("pruneSessions"%string, pruneSessions e);
  ("pruneTakeRetries"%string, pruneTakeRetries);
  ("persist"%string, persist e)
].

Definition tick (e : Env) (n : Node) : Node := fold_left (fun n st => snd st n) (tickStages e) n.

Definition expiry (e : Env) (pick : list bytes -> list bytes -> option bytes) (n : Node) : Node :=
  rebroadcastOpenOrders ripemd160 e pick (pruneExpired e n).

(** The fast lane of the retries. *)
Definition retry_lane (e : Env) (n : Node) : Node := retryFailedDepositBuilds e (retryFailedClaimBuilds e n).

Definition apply_verify (o : Order) (r : wres bool) (n : Node) : Node :=
  match r with
  | inl true => if HasOrder (orderKey (o_ID o)) (n_store n) then n else n <| n_store ::= Add o |>
  | _ => n
  end.

Definition apply_result (e : Env) (r : workResult) (n : Node) : Node :=
  match r with
  | RDepositA id gen r => applyCreatedA e id gen r n
  | RDepositB id gen r => applyCreatedB mem e id gen r n
  | RClaimA id gen r => applyConfirmedA mem e id gen r n
  | RClaimB id gen r => applyConfirmedB e id gen r n
  | RBroadcast id gen cur hex k r => broadcast_done e id gen cur hex k r n
  | RRefund t r => apply_refund e t r n
  | RWatch t r => apply_watch mem e t r n
  | ROwnWatch t r ok => apply_own_watch e t r ok n
  | RConfirms depths => apply_confirms e depths n
  | RRebroadcast sent => apply_rebroadcast e sent n
  | RVerify o r => apply_verify o r n
  end.

Inductive Event :=
| EvPacket (pkt : Packet)
| EvResult (r : workResult)
| EvMake (o : Order) (makerAddr takerAddr priv pub secret : bytes) (pkt : Packet) (pending : bool)
| EvTake (key fromAddr toAddr : bytes) (pkt : Packet) (priv pub : bytes) (proofs : list UtxoEntry) (usedCoins feeInputs : list Utxo)
| EvCancel (id : bytes)
| EvRefund (id : bytes)
| EvFlush (minAgeMillis : Z)
| EvTick
| EvExpiry (pick : list bytes -> list bytes -> option bytes)
| EvRetry.

(** One turn of the loop. *)
Definition engine_step (e : Env) (ev : Event) (n : Node) : Node :=
  match ev with
  | EvPacket pkt => if reader_accepts pkt then handlePacket uni mem e pkt n else n
  | EvResult r => apply_result e r n
  | EvMake o makerAddr takerAddr priv pub secret pkt pending =>
      snd (commitMake ripemd160 e o makerAddr takerAddr priv pub secret pkt pending n)
  | EvTake key fromAddr toAddr pkt priv pub proofs usedCoins feeInputs =>
      snd (commitTake e key fromAddr toAddr pkt priv pub proofs usedCoins feeInputs n)
  | EvCancel id => snd (commitCancel mem e id n)
  | EvRefund id => BroadcastRefund mem e id n
  | EvFlush minAgeMillis => n <| n_store ::= fun st => fst (FlushCancelled minAgeMillis (e_now e) (e_keys e) st) |>
  | EvTick => tick e n
  | EvExpiry pick => expiry e pick n
  | EvRetry => retry_lane e n
  end.

(** ** What runs beside the loop *)

(** [writeLatestPersist] in its two halves: the queued snapshot is taken, then written. *)
Definition writer_take (n : Node) : Node := n <| n_loopJob := n_latest n |> <| n_latest := None |>.

Definition writer_write (n : Node) : Node :=
  match n_loopJob n with
  | None => n
  | Some f =>
      let '(ok, n) := next_io (n <| n_loopJob := None |>) in
      if ok then n <| n_disk := Some f |> else n
  end.

(** What a worker may hand back for a task: its result, or the error of a
    panic. *)
Definition result_of (t : workTask) (r : workResult) : Prop :=
  (exists clock, run_task ripemd160 uni mem clock t = Some r) \/
  match t with
  | TDepositA id gen _ => exists err, r = RDepositA id gen (inr err)
  | TDepositB id gen _ => exists err, r = RDepositB id gen (inr err)
  | TClaimA id gen _ => exists err, r = RClaimA id gen (inr err)
  | TClaimB id gen _ _ => exists err, r = RClaimB id gen (inr err)
  | TBroadcast id gen _ cur hex k => exists err, r = RBroadcast id gen cur hex k (inr err)
  | TRefund t => exists err, r = RRefund t (inr err)
  | TWatch t => exists err, r = RWatch t (inr err)
  | TOwnWatch t => r = ROwnWatch t (mkOwnWatchResult [] [] false false 0 false false false) false
  | TVerify o _ _ => exists err, r = RVerify o (inr err)
  | TConfirms _ | TRebroadcast _ => False
  end.

(** The node and the tasks its workers are running. *)
Record World := mkWorld { w_node : Node; w_running : list workTask }.
#[export] Instance eta_World : Eta World := fun w => mkWorld (w_node w) (w_running w).

Definition no_result (ev : Event) : Prop := match ev with EvResult _ => False | _ => True end.

Inductive world_step : World -> World -> Prop :=
| step_event e ev w : no_result ev -> world_step w (w <| w_node := engine_step e ev (w_node w) |>)
| step_start t q w : n_tasks (w_node w) = t :: q ->
    world_step w (mkWorld (w_node w <| n_tasks := q |>) (t :: w_running w))
| step_result e t r run1 run2 w : w_running w = run1 ++ t :: run2 -> result_of t r ->
    world_step w (mkWorld (engine_step e (EvResult r) (w_node w)) (run1 ++ run2))
| step_take w : world_step w (w <| w_node := writer_take (w_node w) |>)
| step_write w : world_step w (w <| w_node := writer_write (w_node w) |>).

(** A restart: what is on the disk is all that is left. *)
Definition restart (e : Env) (n : Node) : Node :=
  let fresh := empty_node <| n_disk := n_disk n |> in
  match n_disk n with
  | Some f => restoreLocalSwaps e f [] fresh
  | None => fresh
  end.

End Engine.
