(* ===== verification/Sample.v ===== *)
(** * A sample node: one maker's swap, for the concrete instances of theorems *)

From S2P Require Import Prelude Sha256 GoLib Hex Codec Bodies Packet Secp Signer Conf Coin Base58 Address Script Price.
From S2P Require Import Tx Wallet Deposit DepositLaws Order Store Session Persist Node Resume Sweep Track Commands Engine.

Definition now0 : Z := 1700000000000000.

Definition sample_env : Env :=
  mkEnv now0 1700000000 70710 (<[tick_a := sample_connector no_raw]> (<[tick_b := sample_connector no_raw]> ∅))
    (<[tick_a := sample_coin_conf]> (<[tick_b := sample_coin_conf]> ∅)) (<[tick_a := sample_coin]> (<[tick_b := sample_coin]> ∅))
    true true false (fun _ => true) 2 1 0 [sample_key].

Definition sample_refund : bytes := EncodeToString (Tx_Serialize sample_deposit).

(** The order of the book and the session behind it, in state [st]. *)
Definition swap_order (status : string) (sent : bool) : Order :=
  zero_order <| o_ID := repeat x01 32 |> <| o_FromCurrency := tick_a |> <| o_ToCurrency := tick_b |> <| o_FromAmount := 1000000 |>
    <| o_ToAmount := 2000000 |> <| o_Status := status |> <| o_Mine := true |> <| o_DepositSent := sent |>
    <| o_RefundTx := sample_refund |> <| o_SNodePubkey := hexEncode (pub_of sample_priv') |> <| o_UtxoCurrency := tick_a |>.

Definition swap_session (st : clientState) : SwapSession :=
  zero_session <| s_gen := 1 |> <| s_isMaker := true |> <| s_id := repeat x01 32 |> <| s_srcCur := tick_a |> <| s_dstCur := tick_b |>
    <| s_srcAmt := 1000000 |> <| s_dstAmt := 2000000 |> <| s_ourSourceAddr := sample_b58_address |>
    <| s_ourDestAddr := sample_b58_address |> <| s_privKey := sample_priv |> <| s_pubKey := pub_of sample_priv |>
    <| s_theirPub := pub_of sample_priv' |> <| s_secret := sample_secret |> <| s_secretHash := sample_hash' |>
    <| s_ourLockTime := 800012 |> <| s_ourDepositTxID := sample_txid x0a |> <| s_refundHex := sample_refund |>
    <| s_depositHex := sample_refund |> <| s_hubKey := pub_of sample_priv' |> <| s_state := st |>.

Definition node_with (o : Order) (s : SwapSession) : Node :=
  empty_node <| n_nextGen := 2 |> <| n_store := Add o NewStore |> <| n_sessions := {[sample_key := s]} |>.

Definition sample_node : Node := node_with (swap_order "created" true) (swap_session csCreatedA).

(** A Cancel signed by a key that has no part in the swap. *)
Definition stray_cancel : Packet :=
  match Sign (NewPacket 70710 1700000000 XbcTransactionCancel (CancelBody_Marshal (mkCancelBody (repeat x01 32) 1))) (repeat x0d 32) with
  | Ok pkt => pkt | _ => NewPacket 0 0 0 [] end.
