(* ===== verification/SwapFile.v ===== *)
(** * The swap file (api/persist.go)

    The bytes of xbridged-swaps.json: the records and the watched broadcasts as
    JSON, with the checksum over their compact text; the strict load, which takes
    a file only with the checksum its own content hashes to; the lenient one,
    which salvages the records that can be read; and the start of the daemon from
    the bytes on the disk.  The rename that puts a file into place is atomic, so
    the disk holds one text or the other. *)

From Stdlib Require Import SpecFloat.
From S2P Require Import Prelude Sha256 GoLib Hex Json Reply HttpLib Codec Bodies Script Wallet Float Deposit Order Store Session Persist Node Render Unmarshal WalletRpc WalletLaws JsonRow Commands Engine Fee Secp Signer DepositLaws Sample.

#[local] Set Warnings "-register-all".

(** ** The records *)

Definition fd (name : string) (k : kind) : field := mkField name false k.
Definition fdo (name : string) (k : kind) : field := mkField name true k.

Definition utxo_cols : list col := [("TxID", KArr 32); ("Vout", KU32); ("RawAddress", KArr 20); ("Signature", KArr 65)]%string.
Definition coin_cols : list col :=
  [("TxID", KStr); ("Vout", KU32); ("Address", KStr); ("Amount", KU64); ("Value", KFloat); ("ScriptPubKey", KStr); ("Confirmations", KInt)]%string.

(** [persistedSwap] *)
Definition swap_fields : list field := [
  fd "id" (Scalar (KArr 32)); fd "isMaker" (Scalar KBool); fd "type" (Scalar KInt); fd "from" (Scalar (KArr 20));
  fd "to" (Scalar (KArr 20)); fd "fromCurrency" (Scalar KStr); fd "toCurrency" (Scalar KStr); fd "fromAmount" (Scalar KU64);
  fd "toAmount" (Scalar KU64); fd "origFromAmount" (Scalar KU64); fd "origToAmount" (Scalar KU64);
  fd "minFromAmount" (Scalar KU64); fd "partialAllowed" (Scalar KBool); fd "partialRepost" (Scalar KBool);
  fd "parentID" (Scalar (KArr 32)); fd "created" (Scalar KU64); fd "updated" (Scalar KU64); fd "blockHash" (Scalar (KArr 32));
  fd "blockNumber" (Scalar KU32); fd "makerPubkey" (Scalar KStr); fd "makerAddress" (Scalar KStr);
  fd "takerAddress" (Scalar KStr); fd "blockID" (Scalar KStr); fd "refundTx" (Scalar KStr); fd "binTxId" (Scalar KStr);
  fd "oBinTxId" (Scalar KStr); fd "oBinTxVout" (Scalar KU32); fd "oBinTxP2SHAmount" (Scalar KU64);
  fd "oOverpayment" (Scalar KU64); fd "status" (Scalar KStr); fd "utxos" (Rows utxo_cols); fd "utxoCurrency" (Scalar KStr);
  fd "usedCoins" (Rows coin_cols); fd "sNodePubkey" (Scalar KStr); fd "hubAddress" (Scalar (KArr 20));
  fd "otherPubkey" (Scalar KStr); fd "makerKey" (Scalar KStr); fd "reason" (Scalar KU32); fd "role" (Scalar KU8);
  fd "depositSent" (Scalar KBool); fd "counterpartyRedeemed" (Scalar KBool); fd "origFromCurrency" (Scalar KStr);
  fd "origToCurrency" (Scalar KStr); fd "srcCur" (Scalar KStr); fd "dstCur" (Scalar KStr); fd "srcAmt" (Scalar KU64);
  fd "dstAmt" (Scalar KU64); fd "ourSourceAddr" (Scalar KStr); fd "ourDestAddr" (Scalar KStr); fd "theirPub" (Scalar (KArr 33));
  fd "privKey" (Scalar (KArr 32)); fd "pubKey" (Scalar (KArr 33)); fd "secret" (Scalar (KArr 33));
  fd "secretHash" (Scalar (KArr 20)); fd "ourLockTime" (Scalar KU32); fd "ourDepositTxID" (Scalar KStr);
  fd "refundHex" (Scalar KStr); fd "refundDone" (Scalar KBool); fdo "secretHunt" (Scalar KBool); fdo "huntSince" (Scalar KU64);
  fdo "scanCursor" (Scalar KU32); fdo "depositHex" (Scalar KStr); fd "theirDepositTxID" (Scalar KStr);
  fd "theirLockTime" (Scalar KU32); fd "theirSecretHash" (Scalar (KArr 20)); fdo "theirPayTxID" (Scalar KStr);
  fdo "claimRetryAt" (Scalar KU64); fdo "claimRetries" (Scalar KU32); fdo "depositRetryAt" (Scalar KU64);
  fdo "depositRetries" (Scalar KU32); fdo "notReadySince" (Scalar KU64); fdo "notReadySeen" (Scalar KBool);
  fdo "theirDepositVout" (Scalar KU32); fdo "theirP2SHNative" (Scalar KU64); fdo "theirOverpayment" (Scalar KU64);
  fdo "claimHex" (Scalar KStr); fdo "claimTxID" (Scalar KStr); fdo "claimCur" (Scalar KStr); fd "hub" (Scalar (KArr 20));
  fd "hubKey" (Scalar (KArr 33)); fd "state" (Scalar KInt); fdo "holdApplySentAt" (Scalar KU64); fdo "historical" (Scalar KBool)].

(** [persistedBroadcast] *)
Definition broadcast_fields : list field := [
  fd "orderID" (Scalar KStr); fd "kind" (Scalar KStr); fd "coin" (Scalar KStr); fd "txid" (Scalar KStr); fd "hex" (Scalar KStr);
  fdo "seq" (Scalar KU64); fdo "confs" (Scalar KInt); fdo "firstSeenMicro" (Scalar KU64); fdo "attempts" (Scalar KInt)].

Lemma swap_names : names_ok (map field_name swap_fields).
Proof. split; [apply (bool_decide_unpack _); by vm_compute|]. repeat (constructor; [by vm_compute|]). constructor. Qed.

Lemma broadcast_names : names_ok (map field_name broadcast_fields).
Proof. split; [apply (bool_decide_unpack _); by vm_compute|]. repeat (constructor; [by vm_compute|]). constructor. Qed.

(** ** The text of a file *)

Definition swap_json : row -> json := enc_fields swap_fields.
Definition broadcast_json : row -> json := enc_fields broadcast_fields.

Definition section (name : string) (l : list row) : list (bytes * json) :=
  match l with [] => [] | _ => [fld name (JArr (map broadcast_json l))] end.

(** [swaps] as the checksum sees them: [None] is a nil slice. *)
Definition swaps_json (swaps : option (list row)) : json := match swaps with Some l => JArr (map swap_json l) | None => JNull end.

Definition swapEnvelope (swaps : option (list row)) (broadcasts settled : list row) : json :=
  JObj ([fld "swaps" (swaps_json swaps); fld "broadcasts" (JArr (map broadcast_json broadcasts))] ++ section "settled" settled).

Definition swapFile_json (sum : bytes) (swaps : option (list row)) (broadcasts settled : list row) : json :=
  JObj ([fld "sum" (JStr sum); fld "swaps" (swaps_json swaps)] ++ section "broadcasts" broadcasts ++ section "settled" settled).

Definition checksum (v : json) : bytes := EncodeToString (Sum256 (write_json true v)).

Definition marshalSwapFile (swaps broadcasts settled : list row) : bytes :=
  write_json true (swapFile_json (checksum (swapEnvelope (Some swaps) broadcasts settled)) (Some swaps) broadcasts settled).

(** ** Loading *)

Record rawFile := mkRawFile {
  rf_Sum : bytes;
  rf_Swaps : option (list row);
  rf_Broadcasts : option (list row);
  rf_Settled : option (list row);
}.
Definition no_file : rawFile := mkRawFile [] None None None.

Definition d_swap : decoder row := d_fields swap_fields.
Definition d_broadcast : decoder row := d_fields broadcast_fields.
Definition d_file : decoder rawFile := d_struct [
  member "sum" rf_Sum (fun v f => mkRawFile v (rf_Swaps f) (rf_Broadcasts f) (rf_Settled f)) d_string;
  member "swaps" rf_Swaps (fun v f => mkRawFile (rf_Sum f) v (rf_Broadcasts f) (rf_Settled f)) (d_slice (zero_fields swap_fields) d_swap);
  member "broadcasts" rf_Broadcasts (fun v f => mkRawFile (rf_Sum f) (rf_Swaps f) v (rf_Settled f)) (d_slice (zero_fields broadcast_fields) d_broadcast);
  member "settled" rf_Settled (fun v f => mkRawFile (rf_Sum f) (rf_Swaps f) (rf_Broadcasts f) v) (d_slice (zero_fields broadcast_fields) d_broadcast)].

Definition or_nil (l : option (list row)) : list row := default [] l.

(** The records, the broadcasts and the archive of older versions. *)
Definition parseSwapFile (data : bytes) : res (list row * list row * list row) :=
  let '(f, good) := Unmarshal d_file data no_file in
  if negb good then Err "api: parse swap file"
  else if bool_decide (checksum (swapEnvelope (rf_Swaps f) (or_nil (rf_Broadcasts f)) (or_nil (rf_Settled f))) = rf_Sum f)
  then Ok (or_nil (rf_Swaps f), or_nil (rf_Broadcasts f), or_nil (rf_Settled f))
  else if bool_decide (or_nil (rf_Broadcasts f) = []) && bool_decide (or_nil (rf_Settled f) = [])
          && bool_decide (checksum (swaps_json (rf_Swaps f)) = rf_Sum f)
  then Ok (or_nil (rf_Swaps f), [], [])
  else Err "api: swap file checksum mismatch".

(** The records that can be read, without those of id zero, and the number dropped. *)
Definition row_id (r : row) : bytes := match r with One (VArr id) :: _ => id | _ => [] end.

Definition salvage_one (v : json) : option row :=
  let '(r, good) := d_swap v (zero_fields swap_fields) in
  if good && negb (bool_decide (row_id r = zeros 32)) then Some r else None.

Definition d_rawSwaps : decoder (option (list json)) := d_struct [member "swaps" id (fun v _ => v) (d_slice JNull (fun v _ => (v, true)))].

Definition loadSwapsLenient (data : bytes) : option (list row * Z) :=
  match Unmarshal d_rawSwaps data None with
  | (Some l, true) => let good := omap salvage_one l in Some (good, zlen l - zlen good)
  | _ => None
  end.

(** ** The records of the model *)

Definition vbool (b : bool) : value := One (VBool b).
Definition vnum (z : Z) : value := One (VNum z).
Definition vstr (s : bytes) : value := One (VStr s).
Definition varr (b : bytes) : value := One (VArr b).

(** An empty slice is written as null or as an empty array, as it came to be. *)
Definition rows_of (isnil : bool) (l : list (list sval)) : value :=
  Many (match l with [] => if isnil then None else Some [] | _ => Some l end).

Definition utxo_cells (u : UtxoEntry) : list sval := [VArr (Utxo_TxID u); VNum (Utxo_Vout u); VArr (Utxo_RawAddress u); VArr (Utxo_Signature u)].
Definition coin_cells (u : Utxo) : list sval :=
  [VStr (u_TxID u); VNum (u_Vout u); VStr (u_Address u); VNum (u_Amount u); VFloat (u_Value u); VStr (u_ScriptPubKey u); VNum (u_Confirmations u)].

Definition type_num (t : OrderType) : Z := match t with OrderTypeUnknown => 0 | OrderTypeMaker => 1 | OrderTypeBroadcast => 2 end.
Definition kind_text (k : broadcastKind) : bytes :=
  bytes_of match k with broadcastDeposit => "deposit" | broadcastClaim => "claim" | broadcastRefund => "refund" | broadcastPrep => "prep" | broadcastSplit => "split" end.

Definition row_of_swap (nils : bool * bool) (p : persistedSwap) : row :=
  let o := ps_order p in let s := ps_session p in [
  varr (o_ID o); vbool (s_isMaker s); vnum (type_num (o_Type o)); varr (o_From o); varr (o_To o); vstr (o_FromCurrency o);
  vstr (o_ToCurrency o); vnum (o_FromAmount o); vnum (o_ToAmount o); vnum (o_OrigFromAmount o); vnum (o_OrigToAmount o);
  vnum (o_MinFromAmount o); vbool (o_PartialAllowed o); vbool (o_PartialRepost o); varr (o_ParentID o); vnum (o_Created o);
  vnum (o_Updated o); varr (o_BlockHash o); vnum (o_BlockNumber o); vstr (o_MakerPubkey o); vstr (o_MakerAddress o);
  vstr (o_TakerAddress o); vstr (o_BlockID o); vstr (o_RefundTx o); vstr (o_BinTxId o); vstr (o_OBinTxId o);
  vnum (o_OBinTxVout o); vnum (o_OBinTxP2SHAmount o); vnum (o_OOverpayment o); vstr (bytes_of (o_Status o));
  rows_of (nils.1) (map utxo_cells (o_Utxos o)); vstr (o_UtxoCurrency o); rows_of (nils.2) (map coin_cells (o_UsedCoins o));
  vstr (o_SNodePubkey o); varr (o_HubAddress o); vstr (o_OtherPubkey o); vstr (o_MakerKey o); vnum (o_Reason o); vnum (o_Role o);
  vbool (o_DepositSent o); vbool (o_CounterpartyRedeemed o); vstr (o_OrigFromCurrency o); vstr (o_OrigToCurrency o);
  vstr (s_srcCur s); vstr (s_dstCur s); vnum (s_srcAmt s); vnum (s_dstAmt s); vstr (s_ourSourceAddr s); vstr (s_ourDestAddr s);
  varr (s_theirPub s); varr (s_privKey s); varr (s_pubKey s); varr (s_secret s); varr (s_secretHash s); vnum (s_ourLockTime s);
  vstr (s_ourDepositTxID s); vstr (s_refundHex s); vbool (s_refundDone s); vbool (s_secretHunt s); vnum (s_huntSince s);
  vnum (s_scanCursor s); vstr (s_depositHex s); vstr (s_theirDepositTxID s); vnum (s_theirLockTime s);
  varr (s_theirSecretHash s); vstr (s_theirPayTxID s); vnum (s_claimRetryAt s); vnum (s_claimRetries s);
  vnum (s_depositRetryAt s); vnum (s_depositRetries s); vnum (s_notReadySince s); vbool (s_notReadySeen s);
  vnum (s_theirDepositVout s); vnum (s_theirP2SHNative s); vnum (s_theirOverpayment s); vstr (s_claimHex s);
  vstr (s_claimTxID s); vstr (s_claimCur s); varr (s_hub s); varr (s_hubKey s); vnum (cs_num (s_state s));
  vnum (s_holdApplySentAt s); vbool (ps_Historical p)].

Definition row_of_broadcast (t : trackedBroadcast) : row :=
  [vstr (tb_OrderID t); vstr (kind_text (tb_Kind t)); vstr (tb_Coin t); vstr (tb_TxID t); vstr (tb_Hex t); vnum (tb_Seq t); vnum (tb_Confs t);
   vnum (tb_FirstSeenMicro t); vnum (tb_Attempts t)].

Section Back.
Variables (sch : list field) (r : row).

(** The value of a named field. *)
Definition at_name (name : string) : option value :=
  snd <$> List.find (fun fv => String.eqb (fd_name fv.1) name) (combine sch r).
Definition get_bool (name : string) : bool := match at_name name with Some (One (VBool b)) => b | _ => false end.
Definition get_num (name : string) : Z := match at_name name with Some (One (VNum z)) => z | _ => 0 end.
Definition get_str (name : string) : bytes := match at_name name with Some (One (VStr s)) => s | _ => [] end.
Definition get_arr (name : string) : bytes := match at_name name with Some (One (VArr b)) => b | _ => [] end.
Definition get_rows (name : string) : list (list sval) := match at_name name with Some (Many (Some l)) => l | _ => [] end.
End Back.

Definition utxo_of_cells (c : list sval) : UtxoEntry :=
  match c with [VArr t; VNum v; VArr a; VArr s] => mkUtxoEntry t v a s | _ => mkUtxoEntry [] 0 [] [] end.
Definition coin_of_cells (c : list sval) : Utxo :=
  match c with
  | [VStr t; VNum v; VStr a; VNum n; VFloat f; VStr s; VNum k] => mkUtxo t v a n f s k
  | _ => mkUtxo [] 0 [] 0 f64_zero [] 0
  end.

Definition type_of_num (z : Z) : option OrderType :=
  List.find (fun t => type_num t =? z) [OrderTypeUnknown; OrderTypeMaker; OrderTypeBroadcast].
Definition cs_of_num (z : Z) : option clientState :=
  List.find (fun c => cs_num c =? z) [csIdle; csMaker; csTaker; csHoldApplied; csInitialized; csCreatedA; csCreatedB; csConfirmedA; csConfirmedB; csFinished].
Definition kind_of_text (s : bytes) : option broadcastKind :=
  List.find (fun k => bool_decide (kind_text k = s)) [broadcastDeposit; broadcastClaim; broadcastRefund; broadcastPrep; broadcastSplit].

(** A record of the model; one whose numbers are outside of the enumerations,
    which the daemon never writes, has none. *)
Definition swap_of_row (r : row) : option persistedSwap :=
  let bool := get_bool swap_fields r in let num := get_num swap_fields r in let str := get_str swap_fields r in
  let arr := get_arr swap_fields r in let rows := get_rows swap_fields r in
  ty ← type_of_num (num "type"%string);
  st ← cs_of_num (num "state"%string);
  Some (mkPersistedSwap
   (mkOrder
    (arr "id") ty (arr "from") (str "fromCurrency") (num "fromAmount") (arr "to") (str "toCurrency") (num "toAmount")
    (num "created") (num "updated") (arr "blockHash") (num "blockNumber") (bool "partialAllowed") (num "minFromAmount")
    (num "origFromAmount") (num "origToAmount") (bool "partialRepost") (arr "parentID") (string_of_list_byte (str "status"))
    (str "makerPubkey") (str "makerAddress") (str "takerAddress") (str "blockID") (str "refundTx") (str "binTxId")
    (str "oBinTxId") (num "oBinTxVout") (num "oBinTxP2SHAmount") (num "oOverpayment") [] (map utxo_of_cells (rows "utxos")) false
    (map coin_of_cells (rows "usedCoins")) [] (str "utxoCurrency") (str "sNodePubkey") (arr "hubAddress") (str "otherPubkey")
    (str "makerKey") (num "reason") (num "role") (bool "depositSent") (bool "counterpartyRedeemed") (str "origFromCurrency")
    (str "origToCurrency"))
   (mkSwapSession
    0 (bool "isMaker") (arr "id") (str "srcCur") (str "dstCur") (num "srcAmt") (num "dstAmt") (str "ourSourceAddr")
    (str "ourDestAddr") (arr "theirPub") (arr "privKey") (arr "pubKey") (arr "secret") (arr "secretHash") (num "ourLockTime")
    (str "ourDepositTxID") (str "refundHex") (bool "refundDone") (bool "secretHunt") (num "huntSince") (num "scanCursor")
    (str "depositHex") (str "claimHex") (str "claimTxID") (str "claimCur") (str "theirDepositTxID") (num "theirLockTime")
    (arr "theirSecretHash") (str "theirPayTxID") (num "claimRetryAt") (num "claimRetries") (num "depositRetryAt")
    (num "depositRetries") (num "notReadySince") (bool "notReadySeen") (num "theirDepositVout") (num "theirP2SHNative")
    (num "theirOverpayment") (arr "hub") (arr "hubKey") st false 0 0 0 (num "holdApplySentAt"))
   (bool "historical"))%string.

Definition broadcast_of_row (r : row) : option trackedBroadcast :=
  let num := get_num broadcast_fields r in let str := get_str broadcast_fields r in
  k ← kind_of_text (str "kind"%string);
  Some (mkTrackedBroadcast (str "orderID") k (str "coin") (str "txid") (str "hex") (num "seq") (num "confs") (num "firstSeenMicro") (num "attempts"))%string.

(** ** The start of the daemon *)

(** [data]: the bytes of the file, [None] if there is none; [quarantined]: the
    damaged file could be put aside. *)
Definition start_from (e : Env) (quarantined : bool) (data : option bytes) (n : Node) : Node :=
  match data with
  | None => restoreLocalSwaps e (mkSwapFile [] []) [] n
  | Some data =>
      match parseSwapFile data with
      | Ok (swaps, broadcasts, settled) =>
          restoreLocalSwaps e (mkSwapFile (omap swap_of_row swaps) (omap broadcast_of_row broadcasts)) (omap broadcast_of_row settled) n
      | _ =>
          match loadSwapsLenient data with
          | Some (good, _) => restoreSalvaged e (omap swap_of_row good) n
          | None => if quarantined then n else restoreSalvaged e [] n
          end
      end
  end.

(** ** The file reads back *)

Definition rows_ok (sch : list field) (l : list row) : Prop := Forall (row_ok sch) l.

Lemma rows_text sch l : names_ok (map field_name sch) -> rows_ok sch l ->
  json_ok (JArr (map (enc_fields sch) l)) = true /\ norm (JArr (map (enc_fields sch) l)) = JArr (map (enc_fields sch) l) /\
  0 <= depth (JArr (map (enc_fields sch) l)) <= 5.
Proof.
  intros Hn H. apply (array_text _ 4); [|lia]. apply Forall_map. eapply Forall_impl; [exact H|]. intros r Hr. by apply fields_text.
Qed.

Lemma rows_read sch l : names_ok (map field_name sch) -> rows_ok sch l ->
  d_slice (zero_fields sch) (d_fields sch) (JArr (map (enc_fields sch) l)) None = (Some l, true).
Proof.
  intros Hn H. rewrite (d_slice_map _ _ (enc_fields sch) id); [by rewrite map_id|]. eapply Forall_impl; [exact H|]. intros r Hr. by apply fields_roundtrip.
Qed.

Lemma section_cases name l : section name l = [] /\ l = [] \/ section name l = [fld name (JArr (map broadcast_json l))].
Proof. destruct l; [by left|by right]. Qed.

(** The text of the file, whatever the checksum in it, and what a reader gets from it. *)
Section Text.
Variables (sum : bytes) (swaps broadcasts settled : list row).
Hypotheses (Hsum : text_ok sum) (Hs : rows_ok swap_fields swaps) (Hb : rows_ok broadcast_fields broadcasts) (Ht : rows_ok broadcast_fields settled).

Let v := swapFile_json sum (Some swaps) broadcasts settled.

Lemma file_text : json_ok v = true /\ norm v = v /\ depth v <= 9999.
Proof.
  destruct (rows_text _ _ swap_names Hs) as (S1 & S2 & S3). destruct (rows_text _ _ broadcast_names Hb) as (B1 & B2 & B3).
  destruct (rows_text _ _ broadcast_names Ht) as (T1 & T2 & T3).
  change (enc_fields swap_fields) with swap_json in *. change (enc_fields broadcast_fields) with broadcast_json in *.
  set (js := JArr (map swap_json swaps)) in *. set (jb := JArr (map broadcast_json broadcasts)) in *. set (jt := JArr (map broadcast_json settled)) in *.
  assert (forall l, v = JObj l -> forallb (fun kv : bytes * json => json_ok kv.2) l = true /\
    map (fun kv : bytes * json => (coerce (length kv.1) kv.1, norm kv.2)) l = l /\
    fold_right (fun (kv : bytes * json) d => Z.max (depth kv.2) d) 0 l <= 5) as H.
  { intros l [= <-]. unfold swaps_json. fold js. destruct (section_cases "broadcasts" broadcasts) as [[-> _] | ->], (section_cases "settled" settled) as [[-> _] | ->];
      fold jb jt; cbn [app forallb map fold_right fld fst snd json_ok norm]; rewrite Hsum, S1, ?B1, ?T1, S2, ?B2, ?T2; cbn [depth];
      (split_and!; [done|reflexivity|lia]). }
  destruct (H _ eq_refl) as (H1 & H2 & H3). unfold v, swapFile_json in *. cbn [json_ok norm depth]. rewrite H2. split_and!; [done|done|lia].
Qed.

Lemma file_reads : Unmarshal d_file (write_json true v) no_file =
  (mkRawFile sum (Some swaps) (match broadcasts with [] => None | _ => Some broadcasts end) (match settled with [] => None | _ => Some settled end), true).
Proof.
  destruct file_text as (H1 & H2 & H3). unfold Unmarshal. rewrite <- (app_nil_r (write_json _ _)).
  rewrite write_json_roundtrip; [|done|unfold maxNestingDepth; lia|by left]. rewrite H2. unfold v, swapFile_json, d_file, d_struct, swaps_json.
  pose proof (rows_read _ _ swap_names Hs) as Rs. pose proof (rows_read _ _ broadcast_names Hb) as Rb. pose proof (rows_read _ _ broadcast_names Ht) as Rt.
  change (enc_fields swap_fields) with swap_json in *. change (enc_fields broadcast_fields) with broadcast_json in *. fold d_swap d_broadcast in Rs, Rb, Rt.
  destruct broadcasts as [|b bs], settled as [|t ts]; cbn [section app fold_left];
    repeat (erewrite d_member_at; [|reflexivity|]; cycle 1;
      [first [reflexivity | eapply member_at; first [exact Rs | exact Rb | exact Rt]]|]); reflexivity.
Qed.

Lemma or_nil_some (l : list row) : or_nil (match l with [] => None | _ => Some l end) = l.
Proof. by destruct l. Qed.

Lemma file_parses : parseSwapFile (write_json true v) =
  if bool_decide (checksum (swapEnvelope (Some swaps) broadcasts settled) = sum)
     || bool_decide (broadcasts = []) && bool_decide (settled = []) && bool_decide (checksum (swaps_json (Some swaps)) = sum)
  then Ok (swaps, broadcasts, settled) else Err "api: swap file checksum mismatch".
Proof.
  unfold parseSwapFile. rewrite file_reads. cbn [negb rf_Sum rf_Swaps rf_Broadcasts rf_Settled]. rewrite !or_nil_some. cbn [or_nil default]. unfold id.
  set (c1 := checksum (swapEnvelope _ _ _)). set (c2 := checksum (swaps_json _)). clearbody c1 c2.
  case_bool_decide; [done|]. cbn [orb]. case_bool_decide as E1; [|done]. case_bool_decide as E2; [|done]. subst. cbn [andb]. by case_bool_decide.
Qed.
End Text.

Lemma checksum_text v : text_ok (checksum v).
Proof. unfold text_ok, checksum. apply (proj2 (quote_plain _ (plain_hex _))). Qed.

(** What is written is what is loaded. *)
Lemma parse_marshal swaps broadcasts settled : rows_ok swap_fields swaps -> rows_ok broadcast_fields broadcasts -> rows_ok broadcast_fields settled ->
  parseSwapFile (marshalSwapFile swaps broadcasts settled) = Ok (swaps, broadcasts, settled).
Proof. intros. unfold marshalSwapFile. rewrite file_parses by (done || apply checksum_text). by rewrite bool_decide_true. Qed.

(** ** Records of the model and rows of the file *)

(** A record with the fields that are not written at their zero value, and the
    session under the id of the order. *)
Definition canon (p : persistedSwap) : persistedSwap :=
  mkPersistedSwap (orderFields (ps_order p)) (sessionFields (o_ID (ps_order p)) (ps_session p)) (ps_Historical p).

Lemma rows_of_back isnil l : match rows_of isnil l with Many (Some l) => l | _ => [] end = l.
Proof. destruct l; [by destruct isnil|done]. Qed.

Lemma swap_row_back nils p : swap_of_row (row_of_swap nils p) = Some (canon p).
Proof.
  destruct p as [o s h]. destruct o, s. unfold swap_of_row, get_rows, get_bool, get_num, get_str, get_arr.
  unfold row_of_swap, swap_fields, at_name. cbn -[type_of_num cs_of_num rows_of type_num cs_num map list_byte_of_string string_of_list_byte].
  assert (forall t, type_of_num (type_num t) = Some t) as -> by (by intros []).
  assert (forall c, cs_of_num (cs_num c) = Some c) as -> by (by intros []).
  cbn [mbind option_bind]. rewrite !rows_of_back, !map_map. unfold canon, orderFields, sessionFields. cbn -[map].
  assert (forall l : list UtxoEntry, map (fun u => utxo_of_cells (utxo_cells u)) l = l) as -> by (intros l; rewrite <- (map_id l) at 2; apply map_ext; by intros []).
  assert (forall l : list Utxo, map (fun u => coin_of_cells (coin_cells u)) l = l) as -> by (intros l; rewrite <- (map_id l) at 2; apply map_ext; by intros []).
  unfold bytes_of. by rewrite string_of_list_byte_of_string.
Qed.

Lemma broadcast_row_back t : broadcast_of_row (row_of_broadcast t) = Some t.
Proof. destruct t as [? k]. destruct k; reflexivity. Qed.

(** ** A restart from the bytes *)

Lemma orderFields_idem o : orderFields (orderFields o) = orderFields o.
Proof. by destruct o. Qed.

Lemma sessionFields_idem i s : sessionFields i (sessionFields i s) = sessionFields i s.
Proof. destruct s. match goal with |- sessionFields _ ?t = _ => let t' := eval lazy in t in change t with t' end. lazy. reflexivity. Qed.

(** Of a record without session data only these fields matter to a start. *)
Lemma order_only_restores e o s s' h n :
  hasSessionData (mkPersistedSwap o s h) = false -> hasSessionData (mkPersistedSwap o s' h) = false ->
  s_state s = s_state s' -> s_refundDone s = s_refundDone s' -> s_refundHex s = s_refundHex s' -> s_claimTxID s = s_claimTxID s' ->
  restoreSwap e (mkPersistedSwap o s h) n = restoreSwap e (mkPersistedSwap o s' h) n.
Proof.
  intros H H' E1 E2 E3 E4. unfold restoreSwap, restored_session. rewrite H, H'. cbn [negb].
  assert (finishedRefundPending (mkPersistedSwap o s h) = finishedRefundPending (mkPersistedSwap o s' h)) as Ef.
  { unfold finishedRefundPending. cbn [ps_order ps_session]. by rewrite E2, E4. }
  assert (restores_to_history (mkPersistedSwap o s h) = restores_to_history (mkPersistedSwap o s' h)) as ->.
  { unfold restores_to_history. rewrite Ef. unfold refundPending. cbn [ps_order ps_session ps_Historical]. by rewrite E1, E2, E3. }
  assert (restored_order (e_now e) (mkPersistedSwap o s h) = restored_order (e_now e) (mkPersistedSwap o s' h)) as ->.
  { unfold restored_order. by rewrite Ef. }
  done.
Qed.

Section Restart.
Variable e : Env.

(** What is not in the file makes no difference to a start. *)
Lemma canon_restores n0 n p : p ∈ snapshotSwaps n -> restoreSwap e (canon p) n0 = restoreSwap e p n0.
Proof.
  unfold snapshotSwaps. intros H.
  assert ((exists o, p = persistFromOrder o) \/ (exists s o, p = persistFromSession s o) \/ (exists st r u o, p = persistFromHistoryEntry st r u o)) as Hp.
  { apply elem_of_app in H as [H | H]; apply list_elem_of_In, in_concat in H as (l & Hl & Hp); apply in_map_iff in Hl as (x & <- & _); cbn in Hp.
    - destruct (o_Mine x.2); [|done]. destruct (n_sessions n !! _) as [s|]; [destruct (sessionIsTerminal _ _ _)|]; destruct Hp as [<- | []]; eauto.
    - destruct (h_Order x) as [o|]; [|done]. destruct (o_Mine o); [|done]. destruct Hp as [<- | []]. eauto 10. }
  destruct Hp as [(o & ->) | [(s & o & ->) | (st & r & u & o & ->)]].
  - unfold canon, persistFromOrder. cbn [ps_order ps_session ps_Historical]. rewrite orderFields_idem. by apply order_only_restores.
  - unfold canon, persistFromSession. cbn [ps_order ps_session ps_Historical]. change (o_ID (orderFields o)) with (o_ID o).
    by rewrite orderFields_idem, sessionFields_idem.
  - unfold canon, persistFromHistoryEntry. cbn [ps_order ps_session ps_Historical].
    assert (forall x, orderFields o <| o_Status := st |> <| o_Reason := r |> <| o_Updated := u |> = x -> orderFields x = x) as Hx.
    { destruct o. intros x <-. match goal with |- orderFields ?t = _ => let t' := eval lazy in t in change t with t' end. lazy. reflexivity. }
    rewrite (Hx _ eq_refl). by apply order_only_restores.
Qed.

Lemma canon_restores_all n l n0 : Forall (fun p => p ∈ snapshotSwaps n) l ->
  fold_left (fun n ps => restoreSwap e ps n) (map canon l) n0 = fold_left (fun n ps => restoreSwap e ps n) l n0.
Proof.
  intros H. revert n0; induction H as [|p l Hp _ IH]; intros n0; [done|]. cbn [map fold_left]. by rewrite (canon_restores n0 n p Hp).
Qed.
End Restart.

Lemma omap_back {A B C} (f : A -> B) (g : B -> option C) (h : A -> C) l : (forall a, g (f a) = Some (h a)) -> omap g (map f l) = map h l.
Proof. intros H. induction l as [|a l IH]; [done|]. cbn. rewrite H. by f_equal. Qed.

(** *** A damaged file *)

Lemma salvage_row r : row_ok swap_fields r -> salvage_one (swap_json r) = if bool_decide (row_id r = zeros 32) then None else Some r.
Proof.
  intros H. unfold salvage_one, d_swap, swap_json. rewrite fields_roundtrip by (done || apply swap_names). by case_bool_decide.
Qed.

Lemma salvage_rows l : rows_ok swap_fields l ->
  omap salvage_one (map swap_json l) = List.filter (fun r => negb (bool_decide (row_id r = zeros 32))) l.
Proof.
  induction 1 as [|r l Hr _ IH]; [done|]. cbn [map List.filter]. cbn [omap list_omap]. rewrite salvage_row by done.
  case_bool_decide; cbn [negb]; [exact IH|by f_equal].
Qed.

Lemma raw_elements_read (l : list json) old : d_elements JNull (fun v _ => (v, true)) l old = (l, true).
Proof. revert old; induction l as [|v l IH]; intros old; [done|]. cbn [d_elements]. by rewrite IH. Qed.

Lemma file_salvaged sum swaps broadcasts settled : text_ok sum -> rows_ok swap_fields swaps -> rows_ok broadcast_fields broadcasts ->
  rows_ok broadcast_fields settled ->
  exists dropped, loadSwapsLenient (write_json true (swapFile_json sum (Some swaps) broadcasts settled)) =
    Some (List.filter (fun r => negb (bool_decide (row_id r = zeros 32))) swaps, dropped).
Proof.
  intros Hsum Hs Hb Ht. destruct (file_text sum swaps broadcasts settled Hsum Hs Hb Ht) as (H1 & H2 & H3).
  unfold loadSwapsLenient, Unmarshal. rewrite <- (app_nil_r (write_json _ _)).
  rewrite write_json_roundtrip; [|done|unfold maxNestingDepth; lia|by left]. rewrite H2.
  assert (d_rawSwaps (swapFile_json sum (Some swaps) broadcasts settled) None = (Some (map swap_json swaps), true)) as ->.
  { unfold d_rawSwaps, swapFile_json, d_struct, swaps_json.
    assert (forall v acc k, k = "sum"%string \/ k = "broadcasts"%string \/ k = "settled"%string ->
      d_member [member "swaps" id (fun v (_ : option (list json)) => v) (d_slice JNull (fun v _ => (v, true)))] acc (fld k v) = acc) as Hskip.
    { intros v acc k Hk. unfold d_member, fld. cbn [fst snd]. by destruct Hk as [-> | [-> | ->]]. }
    cbn [app fold_left]. rewrite (Hskip (JStr sum) _ "sum"%string) by auto.
    erewrite d_member_at; [|reflexivity|]; cycle 1.
    { apply (member_at id (fun v (_ : option (list json)) => v)). cbn [d_slice id]. by rewrite raw_elements_read. }
    destruct (section_cases "broadcasts" broadcasts) as [[-> _] | ->], (section_cases "settled" settled) as [[-> _] | ->];
      cbn [app fold_left]; rewrite ?Hskip by auto; reflexivity. }
  rewrite salvage_rows by done. eauto.
Qed.

(** What a node may hold to be written: values of the types of its fields, with
    strings in UTF-8. *)
Definition writable (nils : persistedSwap -> bool * bool) (n : Node) : Prop :=
  rows_ok swap_fields (map (fun p => row_of_swap (nils p) p) (snapshotSwaps n)) /\ rows_ok broadcast_fields (map row_of_broadcast (f_broadcasts (file_of n))).

(** The file of a node under some checksum, and as it is written. *)
Definition file_with (nils : persistedSwap -> bool * bool) (n : Node) (sum : bytes) : json :=
  swapFile_json sum (Some (map (fun p => row_of_swap (nils p) p) (snapshotSwaps n))) (map row_of_broadcast (f_broadcasts (file_of n))) [].
Definition written (nils : persistedSwap -> bool * bool) (n : Node) : bytes :=
  marshalSwapFile (map (fun p => row_of_swap (nils p) p) (snapshotSwaps n)) (map row_of_broadcast (f_broadcasts (file_of n))) [].

(** The sums under which it would be accepted: the one over all sections, and the
    one of files from before the broadcasts. *)
Definition good_sums (nils : persistedSwap -> bool * bool) (n : Node) : list bytes :=
  let swaps := Some (map (fun p => row_of_swap (nils p) p) (snapshotSwaps n)) in
  [checksum (swapEnvelope swaps (map row_of_broadcast (f_broadcasts (file_of n))) []); checksum (swaps_json swaps)].

Lemma row_id_swap nils p : row_id (row_of_swap nils p) = o_ID (ps_order p).
Proof. reflexivity. Qed.

(** C4. The bytes on the disk carry the whole snapshot, when every string of it is
    text and every number in the range of its Go type ([writable]: a peer's bytes
    in a note need not be, and then the checksum fails, [bad_text_quarantines]):
    a daemon that starts from the file a node wrote is in the state the snapshot
    itself would put it in, although the file is JSON text with a checksum over
    it that the start recomputes; and if only the checksum of that file is
    damaged, the start still restores every record of an order with an id. *)
Theorem restart_from_bytes (e : Env) (nils : persistedSwap -> bool * bool) (n n0 : Node) (quarantined : bool) (sum : bytes) :
  writable nils n ->
  start_from e quarantined (Some (written nils n)) n0 = restoreLocalSwaps e (file_of n) [] n0 /\
  (text_ok sum -> sum ∉ good_sums nils n ->
   start_from e quarantined (Some (write_json true (file_with nils n sum))) n0 =
     restoreSalvaged e (List.filter (fun p => negb (bool_decide (o_ID (ps_order p) = zeros 32))) (snapshotSwaps n)) n0).
Proof.
  intros [Hs Hb]. assert (rows_ok broadcast_fields []) as Ht by constructor. unfold start_from.
  assert (forall l, Forall (fun p => p ∈ snapshotSwaps n) l ->
    fold_left (fun n ps => restoreSwap e ps n) (omap swap_of_row (map (fun p => row_of_swap (nils p) p) l)) n0 = fold_left (fun n ps => restoreSwap e ps n) l n0) as Hfold.
  { intros l Hl. rewrite (omap_back _ _ canon) by (intros; apply swap_row_back). by eapply canon_restores_all. }
  split.
  - unfold written. rewrite parse_marshal by done. unfold restoreLocalSwaps. cbn [f_swaps f_broadcasts file_of].
    rewrite Hfold by (apply Forall_forall; intros ? ?; assumption). rewrite (omap_back row_of_broadcast _ id) by (intros; apply broadcast_row_back). by rewrite map_id.
  - intros Hsum Hne. unfold good_sums in Hne. unfold file_with. rewrite file_parses by done.
    rewrite (bool_decide_false (checksum (swapEnvelope _ _ _) = sum)) by (intros <-; apply Hne; set_solver).
    rewrite (bool_decide_false (checksum (swaps_json _) = sum)) by (intros <-; apply Hne; set_solver). rewrite andb_false_r. cbn [orb]. destruct (file_salvaged sum _ _ [] Hsum Hs Hb Ht) as (d & ->). unfold restoreSalvaged. f_equal.
    assert (forall l, List.filter (fun r => negb (bool_decide (row_id r = zeros 32))) (map (fun p => row_of_swap (nils p) p) l) =
      map (fun p => row_of_swap (nils p) p) (List.filter (fun p => negb (bool_decide (o_ID (ps_order p) = zeros 32))) l)) as ->.
    { intros l. induction l as [|p l IH]; [done|]. cbn [map List.filter]. rewrite row_id_swap. case_bool_decide; cbn [negb map]; by rewrite IH. }
    apply Hfold. apply Forall_forall. intros p Hp. apply list_elem_of_In, filter_In in Hp as [Hp _]. by apply list_elem_of_In.
Qed.

(** *** The sample node of a maker, with a watched deposit *)

Definition sample_nils (_ : persistedSwap) : bool * bool := (true, false).
Definition disk_node : Node :=
  node_with (swap_order "created" true <| o_Utxos := [mkUtxoEntry (repeat x0a 32) 1 (repeat x0b 20) (repeat x0c 65)] |>
      <| o_UsedCoins := [mkUtxo (sample_txid x0a) 1 (bytes_of "addr") 150000000 (whole 150000000) (bytes_of "76a9") 6] |>)
    (swap_session csCreatedA)
  <| n_tracked := {[bytes_of "k" := mkTrackedBroadcast sample_key broadcastDeposit tick_a (sample_txid x0a) sample_refund 1 0 now0 0]} |>.

#[local] Instance writable_dec nils n : Decision (writable nils n).
Proof. unfold writable, rows_ok. apply _. Defined.

Lemma disk_node_writable : writable sample_nils disk_node.
Proof. apply (bool_decide_unpack _). by vm_compute. Qed.

Lemma not_a_checksum s v : length s <> 64%nat -> s <> checksum v.
Proof. intros H ->. apply H. unfold checksum. pose proof (hex_length (Sum256 (write_json true v))) as Hl. pose proof (Sum256_length (write_json true v)). unfold zlen in Hl. lia. Qed.

(** A start from the file of the sample node, and from the same file with a wrong
    checksum, restores the session with its refund. *)
Lemma restart_from_bytes_witness :
  start_from sample_env true (Some (written sample_nils disk_node)) empty_node = restoreLocalSwaps sample_env (file_of disk_node) [] empty_node /\
  start_from sample_env true (Some (write_json true (file_with sample_nils disk_node (bytes_of "damaged")))) empty_node =
    restoreSalvaged sample_env (List.filter (fun p => negb (bool_decide (o_ID (ps_order p) = zeros 32))) (snapshotSwaps disk_node)) empty_node /\
  s_refundHex <$> n_sessions (restoreLocalSwaps sample_env (file_of disk_node) [] empty_node) !! sample_key = Some sample_refund.
Proof.
  destruct (restart_from_bytes sample_env sample_nils disk_node empty_node true (bytes_of "damaged")) as [H1 H2]; [exact disk_node_writable|].
  split_and!; [exact H1| |by vm_compute]. apply H2; [by vm_compute|].
  unfold good_sums. rewrite !not_elem_of_cons. split_and!; [apply not_a_checksum; done|apply not_a_checksum; done|apply not_elem_of_nil].
Defined.

(** ** Text that is not UTF-8

    The peer of a swap names its deposit in a string nobody checks beyond its
    being there (OnCreateB, OnConfirmA).  An ill-formed byte in it is written as
    an escaped U+FFFD, and reads back as the rune itself, which is written
    unescaped: the file does not hash to its own checksum any more, and the next
    start quarantines it, with the watched broadcasts, and salvages the records. *)
Definition misnamed_node : Node :=
  disk_node <| n_sessions := {[sample_key := swap_session csCreatedA <| s_theirDepositTxID := [xff] |>]} |>.

Example bad_text_quarantines :
  let data := written sample_nils misnamed_node in
  parseSwapFile data = Err "api: swap file checksum mismatch" /\
  (fun g => (map (fun p => (s_refundHex (ps_session p), s_theirDepositTxID (ps_session p))) (omap swap_of_row g.1), g.2)) <$> loadSwapsLenient data =
    Some ([(sample_refund, [xef; xbf; xbd])], 0).
Proof. by vm_compute. Qed.
