(* ===== verification/Retry.v ===== *)
(** * Rejected takes tried again (api/take_retry.go)

    A take of ours that the hub rejects because its view of a chain was a block
    ahead is made again after a pause, at most [e_TakeRetry] times.  The node
    keeps the number of retries of each taken order ([n_takeRetries]); the
    entry is made by the commit of the take ([registerTakeRetry]), counted up by
    the reject ([scheduleTakeRetry], Node.v's handleRemoteReject) or by a retry
    that fails before it is sent, and dropped when there is nothing to wait for
    ([pruneTakeRetries]).  [retries_bounded]: while its entry stays no order is
    taken again more often, and a new entry, which only a take of ours makes
    after the last was dropped, allows that many again ([retaken_anew]). *)

From S2P Require Import Prelude Sort GoLib Codec Bodies Packet Secp Signer Registry Conf Coin Wallet Deposit Order Float.
From S2P Require Import XAmount Store Utxos Fee Session Persist Node Resume Sweep Track Commands Take Rpc Engine DepositLaws Sample.

Definition takeRetryBackoff : list Z := [20 * 1000000; 40 * 1000000].

(** The pause before attempt [attempt], counted from 1; the last one serves all later attempts. *)
Definition takeRetryBackoffFor (attempt : Z) : Z :=
  match List.last (map Some takeRetryBackoff) None with
  | None => 0
  | Some d => if attempt - 1 <? zlen takeRetryBackoff then default 0 (takeRetryBackoff !! Z.to_nat (attempt - 1)) else d
  end.

(** A timer: the pause and the number of the attempt. *)
Abbreviation timer := (option (Z * Z)).

(** The timer a reject of our take arms; the entry is [scheduleTakeRetry]'s business. *)
Definition reject_timer (e : Env) (id : bytes) (n : Node) : timer :=
  if e_TakeRetry e <=? 0 then None
  else match n_takeRetries n !! id with
       | None => None
       | Some attempts => if e_TakeRetry e <=? attempts then None else Some (takeRetryBackoffFor (attempts + 1), attempts + 1)
       end.

(** Errors after which trying again is pointless. *)
Definition pointless (code : Z) : bool := existsb (Z.eqb code) [errBadRequest; errTxNotFound; errInvalidState].

Section Retry.
Context {secp : Secp} (uni : Unicode) {gosort : GoSort}.

(** The timer fires. A take that goes out keeps its entry, for its own reject. *)
Definition runTakeRetry (e : Env) (reg : option Registry.Registry) (p : TakeOrderParams) (draws : list bytes) (running : bool) (id : bytes)
    (n : Node) : timer * Node :=
  match n_takeRetries n !! id with
  | None => (None, n)
  | Some _ =>
      if negb (match get_order n id with Some o => String.eqb (o_Status o) "open" | None => false end) then (None, dropTakeRetry id n)
      else
        let '(r, n) := TakeOrder uni e reg p draws running n in
        match r with
        | Good _ | Crash => (None, n)
        | Bad err =>
            if pointless (re_Code err) then (None, dropTakeRetry id n)
            else match n_takeRetries n !! id with
                 | None => (None, n)
                 | Some attempts =>
                     if (e_TakeRetry e <=? 0) || (e_TakeRetry e <=? attempts) then (None, dropTakeRetry id n)
                     else (Some (takeRetryBackoffFor (attempts + 1), attempts + 1), n <| n_takeRetries ::= <[id := attempts + 1]> |>)
                 end
        end
  end.

(** What can happen to the entries. *)
Inductive retryEvent :=
| ReTake (id : bytes)                    (** a take goes out *)
| ReReject (id : bytes)
| ReTimer (reg : option Registry.Registry) (p : TakeOrderParams) (draws : list bytes) (running : bool)
| ReCancel (id : bytes)
| ReTick.

Definition retry_step (e : Env) (ev : retryEvent) (n : Node) : timer * Node :=
  match ev with
  | ReTake id => (None, registerTakeRetry e id n)
  | ReReject id => (reject_timer e id n, scheduleTakeRetry e id n)
  | ReTimer reg p draws running => runTakeRetry e reg p draws running (orderIDKey (tp_ID p)) n
  | ReCancel id => (None, dropTakeRetry id n)
  | ReTick => (None, pruneTakeRetries n)
  end.

(** The order an event is about. *)
Definition retry_order (ev : retryEvent) : option bytes :=
  match ev with
  | ReTake id | ReReject id | ReCancel id => Some id
  | ReTimer _ p _ _ => Some (orderIDKey (tp_ID p))
  | ReTick => None
  end.

(** The attempts armed for [id] on the way, and the node at the end. *)
Fixpoint retry_run (id : bytes) (evs : list (Env * retryEvent)) (n : Node) : list Z * Node :=
  match evs with
  | [] => ([], n)
  | (e, ev) :: evs =>
      let '(t, n) := retry_step e ev n in
      let '(l, n) := retry_run id evs n in
      (match t with Some (_, a) => if bool_decide (retry_order ev = Some id) then a :: l else l | None => l end, n)
  end.

(** The entry of [id] is there after every event. *)
Fixpoint kept (id : bytes) (evs : list (Env * retryEvent)) (n : Node) : Prop :=
  match evs with
  | [] => True
  | (e, ev) :: evs => let n := snd (retry_step e ev n) in is_Some (n_takeRetries n !! id) /\ kept id evs n
  end.

(** A take of ours of [id] goes out and finds no entry. *)
Definition new_take (id : bytes) (ev : retryEvent) (n : Node) : bool :=
  match ev with ReTake key => bool_decide (key = id /\ n_takeRetries n !! id = None) | _ => false end.

(** How often one does. *)
Fixpoint new_takes (id : bytes) (evs : list (Env * retryEvent)) (n : Node) : Z :=
  match evs with
  | [] => 0
  | (e, ev) :: evs => (if new_take id ev n then 1 else 0) + new_takes id evs (snd (retry_step e ev n))
  end.

(** The retries an entry has left. *)
Definition retries_left (cap : Z) (entry : option Z) : Z := match entry with Some a => Z.max 0 (cap - a) | None => 0 end.

(** ** Laws *)

Lemma retries_persistNow e n : n_takeRetries (snd (persistNow e n)) = n_takeRetries n.
Proof. unfold persistNow, next_io. repeat (case_match; simplify_eq; cbn; try done). Qed.

Lemma retries_write_packet dest pkt n : n_takeRetries (snd (write_packet dest pkt n)) = n_takeRetries n.
Proof. unfold write_packet, next_io. repeat (case_match; simplify_eq; cbn; try done). Qed.

(** A take of an order that has an entry, and of any other order, leaves the entry alone. *)
Lemma register_kept e id key n : is_Some (n_takeRetries n !! id) \/ id <> key ->
  n_takeRetries (registerTakeRetry e key n) !! id = n_takeRetries n !! id.
Proof.
  intros H. unfold registerTakeRetry. case_match; [done|]. cbn. destruct (decide (id = key)) as [->|Hne].
  - destruct H as [[a Ha]|]; [|done]. by rewrite lookup_partial_alter_eq, Ha.
  - by rewrite lookup_partial_alter_ne.
Qed.

Lemma commitTake_retries e key fa ta pkt priv pub proofs used fees n id : is_Some (n_takeRetries n !! id) \/ id <> key ->
  n_takeRetries (snd (commitTake e key fa ta pkt priv pub proofs used fees n)) !! id = n_takeRetries n !! id.
Proof.
  intros Hid. unfold commitTake. destruct (get_order n key) as [prev|]; [|done]. cbv zeta. set (n1 := add_session _ _ _).
  assert (n_takeRetries n1 = n_takeRetries n) as E1 by done. clearbody n1.
  assert (forall m, n_takeRetries (revertTake e key prev m) = n_takeRetries m) as Hrev by (intros m; unfold revertTake; by rewrite retries_persistNow).
  pose proof (retries_persistNow e n1) as E2. destruct (persistNow e n1) as [ok n2]. cbn [snd] in *.
  destruct ok; cbn [negb snd]; [|by rewrite Hrev, E2, E1].
  match goal with |- context [write_packet ?d ?q n2] => pose proof (retries_write_packet d q n2) as E3; destruct (write_packet d q n2) as [ok n3] end.
  cbn [snd] in *. destruct ok; cbn [snd]; [|by rewrite Hrev, E3, E2, E1].
  rewrite register_kept; rewrite E3, E2, E1; done.
Qed.

Lemma TakeOrder_retries e reg p draws running n id : is_Some (n_takeRetries n !! id) \/ id <> orderIDKey (tp_ID p) ->
  n_takeRetries (snd (TakeOrder uni e reg p draws running n)) !! id = n_takeRetries n !! id.
Proof.
  intros Hid. unfold TakeOrder. destruct (take_checks _ _ _ _ _) as [q| |]; [|done..]. destruct (tp_DryRun p); [done|].
  destruct (plan_take _ _ _ _ _ _ _) as [pl| |] eqn:Ep; [|done..]. apply plan_take_key in Ep. rewrite <- Ep in Hid. destruct (reserve_take _ _) as [r st]. destruct r; [|done..].
  unfold finish_take. cbv zeta. do 3 (case_match; [|done..]). destruct running.
  - match goal with |- context [commitTake ?a1 ?a2 ?a3 ?a4 ?a5 ?a6 ?a7 ?a8 ?a9 ?b1 ?b2] =>
      pose proof (commitTake_retries a1 a2 a3 a4 a5 a6 a7 a8 a9 b1 b2 id Hid) as E; destruct (commitTake a1 a2 a3 a4 a5 a6 a7 a8 a9 b1 b2) as [ans n'] end.
    cbn [snd] in E. destruct ans; cbn [snd]; repeat case_match; exact E.
  - cbn. by repeat case_match.
Qed.
(** Either nothing happens to the entry, or it is counted up with the timer. *)
Definition one_more (cap a : Z) (id : bytes) (ev : retryEvent) (t : timer) (o : option Z) : Prop :=
  (o = Some a /\ (is_Some t -> retry_order ev <> Some id)) \/
  (o = Some (a + 1) /\ a + 1 <= cap /\ retry_order ev = Some id /\ t = Some (takeRetryBackoffFor (a + 1), a + 1)).

Lemma kept_same cap a id ev n' : n_takeRetries n' !! id = Some a -> one_more cap a id ev None (n_takeRetries n' !! id).
Proof. intros H. left. split; [done|]. by intros []. Qed.

(** Counting up the entry of [key]. *)
Lemma counted cap a id key ev n b : retry_order ev = Some key -> n_takeRetries n !! key = Some b -> b < cap -> n_takeRetries n !! id = Some a ->
  one_more cap a id ev (Some (takeRetryBackoffFor (b + 1), b + 1)) (n_takeRetries (n <| n_takeRetries ::= <[key := b + 1]> |>) !! id).
Proof.
  intros He Hb Hc Ha. cbn. destruct (decide (key = id)) as [->|Hne].
  - right. rewrite lookup_insert_eq. rewrite Ha in Hb. injection Hb as ->. split_and!; [done|lia|done|done].
  - left. rewrite lookup_insert_ne by done. split; [done|]. congruence.
Qed.

Lemma dropped cap a id key ev n : n_takeRetries n !! id = Some a -> is_Some (n_takeRetries (dropTakeRetry key n) !! id) ->
  one_more cap a id ev None (n_takeRetries (dropTakeRetry key n) !! id).
Proof. intros Ha [b Hb]. apply kept_same. cbn in *. apply lookup_delete_Some in Hb as [Hne _]. by rewrite lookup_delete_ne. Qed.

Lemma retry_step_one cap e ev n id a : e_TakeRetry e = cap -> n_takeRetries n !! id = Some a ->
  is_Some (n_takeRetries (snd (retry_step e ev n)) !! id) ->
  one_more cap a id ev (fst (retry_step e ev n)) (n_takeRetries (snd (retry_step e ev n)) !! id).
Proof.
  intros Hcap Ha. destruct ev as [key|key|reg p draws running|key|]; cbn [retry_step fst snd]; intros Hk.
  - rewrite register_kept by eauto. left. split; [done|]. by intros [].
  - unfold reject_timer, scheduleTakeRetry in *. destruct (e_TakeRetry e <=? 0); [by apply kept_same|].
    destruct (n_takeRetries n !! key) as [b|] eqn:Eb; [|by apply kept_same]. destruct (e_TakeRetry e <=? b) eqn:El; [by apply dropped|].
    zbool. apply counted; [done|done|lia|done].
  - revert Hk. unfold runTakeRetry. set (key := orderIDKey (tp_ID p)).
    destruct (n_takeRetries n !! key) as [b|] eqn:Eb; [|intros _; by apply kept_same].
    case_match; [by apply dropped|]. pose proof (TakeOrder_retries e reg p draws running n id ltac:(eauto)) as E.
    destruct (TakeOrder uni e reg p draws running n) as [r n1]. cbn [snd] in E. rewrite Ha in E.
    destruct r as [x|err|]; [intros _; by apply kept_same| |intros _; by apply kept_same].
    destruct (pointless (re_Code err)); [by apply dropped|].
    destruct (n_takeRetries n1 !! key) as [c|] eqn:Ec; [|intros _; by apply kept_same].
    destruct ((e_TakeRetry e <=? 0) || (e_TakeRetry e <=? c)) eqn:El; [by apply dropped|]. intros _. zbool. apply counted; [done|done|lia|done].
  - by apply dropped.
  - apply kept_same. cbn in *. destruct Hk as [b Hb]. rewrite Hb. apply map_lookup_filter_Some in Hb as [Hb _]. congruence.
Qed.

(** An entry that is dropped arms nothing, and only a take of ours makes one anew, at 0. *)
Definition makes_none (id : bytes) (ev : retryEvent) (n : Node) (t : timer) (o : option Z) : Prop :=
  (is_Some t -> retry_order ev <> Some id) /\ (n_takeRetries n !! id = None -> o <> None -> new_take id ev n = true /\ o = Some 0).

Lemma none_stays id ev n o : (n_takeRetries n !! id = None -> o = None) -> makes_none id ev n None o.
Proof. intros H. split; [by intros []|]. intros Ha Ho. by destruct Ho; apply H. Qed.

Lemma none_dropped id key ev n m : n_takeRetries m !! id = n_takeRetries n !! id ->
  makes_none id ev n None (n_takeRetries (dropTakeRetry key m) !! id).
Proof. intros E. apply none_stays. intros H. cbn. apply lookup_delete_None. right. by rewrite E. Qed.

Lemma none_counted id key ev n m b t : retry_order ev = Some key -> n_takeRetries m !! id = n_takeRetries n !! id -> is_Some (n_takeRetries m !! key) ->
  let o := n_takeRetries (m <| n_takeRetries ::= <[key := b]> |>) !! id in n_takeRetries n !! id = None \/ o = None -> makes_none id ev n t o.
Proof.
  intros He E [c Hc] o Hn. subst o. cbn in *. assert (key <> id) as Hne.
  { intros ->. rewrite lookup_insert_eq in Hn. destruct Hn; congruence. }
  rewrite lookup_insert_ne, E by done. split; [congruence|]. intros ->. done.
Qed.

Lemma retry_step_none e ev n id : n_takeRetries n !! id = None \/ n_takeRetries (snd (retry_step e ev n)) !! id = None ->
  makes_none id ev n (fst (retry_step e ev n)) (n_takeRetries (snd (retry_step e ev n)) !! id).
Proof.
  destruct ev as [key|key|reg p draws running|key|]; cbn [retry_step fst snd].
  - intros _. split; [by intros []|]. intros Ha. unfold new_take, registerTakeRetry. case_match; [congruence|]. cbn.
    destruct (decide (key = id)) as [->|Hne]; [|by rewrite lookup_partial_alter_ne, Ha].
    by rewrite Ha, bool_decide_eq_true_2, lookup_partial_alter_eq, Ha.
  - unfold reject_timer, scheduleTakeRetry. destruct (e_TakeRetry e <=? 0); [intros _; by apply none_stays|].
    destruct (n_takeRetries n !! key) as [b|] eqn:Eb; [|intros _; by apply none_stays].
    destruct (e_TakeRetry e <=? b); [intros _; by apply none_dropped|]. apply none_counted; [done|done|by eauto].
  - unfold runTakeRetry. set (key := orderIDKey (tp_ID p)).
    destruct (n_takeRetries n !! key) as [b|] eqn:Eb; [|intros _; by apply none_stays].
    case_match; [intros _; by apply none_dropped|].
    assert (is_Some (n_takeRetries n !! id) \/ id <> key) as Hid.
    { destruct (decide (id = key)) as [->|]; [left; by rewrite Eb|by right]. }
    pose proof (TakeOrder_retries e reg p draws running n id Hid) as E. destruct (TakeOrder uni e reg p draws running n) as [r n1]. cbn [snd] in E.
    destruct r as [x|err|]; [intros _; apply none_stays; cbn; congruence| |intros _; apply none_stays; cbn; congruence].
    destruct (pointless (re_Code err)); [intros _; by apply none_dropped|].
    destruct (n_takeRetries n1 !! key) as [c|] eqn:Ec; [|intros _; apply none_stays; cbn; congruence].
    destruct ((e_TakeRetry e <=? 0) || (e_TakeRetry e <=? c)); [intros _; by apply none_dropped|]. apply none_counted; [done|done|by eauto].
  - intros _. by apply none_dropped.
  - intros _. apply none_stays. intros H. cbn. rewrite map_lookup_filter_None. by left.
Qed.

(** The attempts armed while the entry stays. *)
Lemma kept_run cap id evs n a : Forall (fun ee => e_TakeRetry ee.1 = cap) evs -> n_takeRetries n !! id = Some a -> kept id evs n ->
  exists k, 0 <= k /\ fst (retry_run id evs n) = seqZ (a + 1) k /\ n_takeRetries (snd (retry_run id evs n)) !! id = Some (a + k) /\
    (k = 0 \/ a + k <= cap).
Proof.
  revert n a. induction evs as [|[e ev] evs IH]; intros n a Hcap Ha Hk.
  { exists 0. cbn. rewrite Z.add_0_r. split_and!; [done|done|done|by left]. }
  apply Forall_cons in Hcap as [Hc Hcap]. cbn [kept] in Hk. destruct Hk as [Hs Hk]. cbn [retry_run].
  pose proof (retry_step_one cap e ev n id a Hc Ha Hs) as H. destruct (retry_step e ev n) as [t n1]. cbn [fst snd] in *.
  destruct H as [[E Ht]|(E & Hle & Hid & ->)]; destruct (IH n1 _ Hcap E Hk) as (k & Hk0 & El & En & Hb); destruct (retry_run id evs n1) as [l n2];
    cbn [fst snd] in *.
  - exists k. split_and!; [done| |done|done]. destruct t as [[d b]|]; [|done]. rewrite bool_decide_eq_false_2; [done|]. apply Ht. eauto.
  - exists (k + 1). rewrite bool_decide_eq_true_2 by done. split_and!; [lia| |by replace (a + (k + 1)) with (a + 1 + k) by lia|right; destruct Hb; lia].
    rewrite El. rewrite (seqZ_cons (a + 1) (k + 1)) by lia. f_equal. f_equal; lia.
Qed.

(** Every step pays for the attempt it arms. *)
Lemma retry_step_pays cap e ev n id : e_TakeRetry e = cap ->
  (if bool_decide (is_Some (fst (retry_step e ev n)) /\ retry_order ev = Some id) then 1 else 0)
    + retries_left cap (n_takeRetries (snd (retry_step e ev n)) !! id) <=
  retries_left cap (n_takeRetries n !! id) + Z.max 0 cap * (if new_take id ev n then 1 else 0).
Proof.
  intros Hcap. pose proof (retry_step_one cap e ev n id) as H1. pose proof (retry_step_none e ev n id) as H2. unfold makes_none in H2.
  destruct (n_takeRetries n !! id) as [a|] eqn:Ea; destruct (n_takeRetries (snd (retry_step e ev n)) !! id) as [b|] eqn:Eb.
  - destruct (H1 a Hcap eq_refl (mk_is_Some _ _ eq_refl)) as [[[= ->] Ht]|([= ->] & Hle & Hid & ->)]; unfold retries_left.
    + rewrite bool_decide_eq_false_2 by tauto. case_match; lia.
    + case_bool_decide; case_match; lia.
  - destruct H2 as [Ht _]; [by right|]. rewrite bool_decide_eq_false_2 by tauto. unfold retries_left. case_match; lia.
  - destruct H2 as [Ht Hn]; [by left|]. destruct (Hn eq_refl ltac:(done)) as [-> [= ->]].
    rewrite bool_decide_eq_false_2 by tauto. unfold retries_left. lia.
  - destruct H2 as [Ht _]; [by left|]. rewrite bool_decide_eq_false_2 by tauto. unfold retries_left. case_match; lia.
Qed.

(** C30. However takes, rejects, retries, cancels and prunings follow each other:
    the attempts armed for an order number at most the retries its entry had
    left, and the configured number again for every take of ours that found no
    entry (the one before was cancelled, pruned or exhausted); and as long as
    the entry stays, they are numbered one after the other from the count it
    had, and never beyond the configured number. *)
Theorem retries_bounded cap id evs n : Forall (fun ee => e_TakeRetry ee.1 = cap) evs ->
  zlen (fst (retry_run id evs n)) <= retries_left cap (n_takeRetries n !! id) + Z.max 0 cap * new_takes id evs n /\
  forall a, n_takeRetries n !! id = Some a -> kept id evs n ->
  exists k, 0 <= k /\ fst (retry_run id evs n) = seqZ (a + 1) k /\ n_takeRetries (snd (retry_run id evs n)) !! id = Some (a + k) /\
    (k = 0 \/ a + k <= cap).
Proof.
  intros Hcap. split; [|intros a; by apply kept_run]. revert n. induction evs as [|[e ev] evs IH]; intros n.
  { cbn [retry_run new_takes fst]. change (zlen (@nil Z)) with 0. unfold retries_left. case_match; lia. }
  apply Forall_cons in Hcap as [Hc Hcap]. cbn [new_takes retry_run]. rewrite Z.mul_add_distr_l. pose proof (retry_step_pays cap e ev n id Hc) as Hp.
  destruct (retry_step e ev n) as [t n1]. cbn [fst snd] in *. specialize (IH Hcap n1). destruct (retry_run id evs n1) as [l n2]. cbn [fst] in *.
  destruct t as [[d b]|]; [destruct (decide (retry_order ev = Some id)) as [E|E]|].
  - rewrite (bool_decide_eq_true_2 _ E), zlen_cons. rewrite bool_decide_eq_true_2 in Hp by eauto. lia.
  - rewrite (bool_decide_eq_false_2 _ E). rewrite bool_decide_eq_false_2 in Hp by tauto. lia.
  - rewrite bool_decide_eq_false_2 in Hp by (by intros [[]]). lia.
Qed.
End Retry.

(** An order just taken, with two retries allowed. *)
Definition retry_node : Node := registerTakeRetry sample_env sample_key (node_with (swap_order "accepting" false) (swap_session csTaker)).
Definition retry_events : list (Env * retryEvent) := [(sample_env, ReReject sample_key); (sample_env, ReTick); (sample_env, ReReject sample_key)].

Lemma retries_bounded_witness : fst (retry_run no_unicode sample_key retry_events retry_node) = [1; 2].
Proof.
  destruct (retries_bounded no_unicode 2 sample_key retry_events retry_node) as [_ H]; [by repeat constructor|].
  destruct (H 0) as (k & Hk0 & E & En & _).
  - vm_compute. reflexivity.
  - cbn [kept retry_events]. split_and!; [eexists; vm_compute; reflexivity..|exact I].
  - rewrite E. assert (n_takeRetries (snd (retry_run no_unicode sample_key retry_events retry_node)) !! sample_key = Some 2) as E2 by (vm_compute; reflexivity).
    rewrite E2 in En. injection En as En. assert (k = 2) as -> by lia. reflexivity.
Defined.

(** The third reject finds no retry left; the pauses are 20 and 40 seconds. *)
Example retries_end :
  let n := snd (retry_run no_unicode sample_key retry_events retry_node) in
  n_takeRetries (snd (retry_step no_unicode sample_env (ReReject sample_key) n)) !! sample_key = None /\
  reject_timer sample_env sample_key retry_node = Some (20000000, 1) /\ takeRetryBackoffFor 2 = 40000000 /\ takeRetryBackoffFor 7 = 40000000.
Proof. vm_compute. by split_and!. Qed.

(** After a cancel a take of ours starts the count again. *)
Example retaken_anew :
  let evs := retry_events ++ [(sample_env, ReCancel sample_key); (sample_env, ReTake sample_key); (sample_env, ReReject sample_key)] in
  fst (retry_run no_unicode sample_key evs retry_node) = [1; 2; 1] /\ new_takes no_unicode sample_key evs retry_node = 1.
Proof. vm_compute. by split_and!. Qed.
