(* ===== verification/Market.v ===== *)
(** * A sample market: wallets, a hub and an offer, for the handlers of orders *)

From S2P Require Import Prelude Sort Sha256 GoLib Hex Codec Bodies Packet Secp Signer Registry RegistryLaws Conf Coin Base58 Address Script Price.
From S2P Require Import Tx Wallet Deposit DepositLaws Order Float XAmount Store Utxos Select Fee Session Persist Node Resume Sweep Track Commands Take Make.
From S2P Require Import Engine Sample.

Definition p2pkh_hex : bytes := EncodeToString (BuildP2PKHScript sample_hash).

(** An output of [amount] satoshi. *)
Definition market_utxo (txid : byte) (vout amount : Z) : Utxo :=
  mkUtxo (sample_txid txid) vout sample_b58_address amount (f64_div (f64_of amount) (f64_of 100000000)) p2pkh_hex 6.

(** A wallet with the given outputs, for every currency. *)
Definition market_wallet (funds fees : list Utxo) : Connector :=
  mkConnector (inl 100000000) fail (fun _ => inl funds) (inl fees) (fun h _ => inl (h, true)) (fun h => of_option (txIDFromHex h))
    (inl 800000) no_raw (fun _ _ _ _ => fail) (fun _ _ => inl (repeat x01 65)) (fun _ _ _ => inl true)
    (fun txid vout => inl (Some (sample_utxo txid vout 100000000))) (fun _ => fail) fail (fun _ => inl (repeat x0e 32)) (fun _ => fail).

Definition market_env (funds fees : list Utxo) : Env :=
  let w := market_wallet funds fees in
  let each {A} (a : A) : gmap bytes A := <[bytes_of "BLOCK" := a]> (<[tick_a := a]> (<[tick_b := a]> ∅)) in
  mkEnv now0 1700000000 70710 (each w) (each sample_coin_conf) (each sample_coin) true true false (fun _ => true) 2 1 0 [sample_key].

(** An offer of 1 AAA for 2 BBB, also in parts, by the hub of [sample_registry]. *)
Definition market_order : Order :=
  zero_order <| o_ID := repeat x01 32 |> <| o_FromCurrency := tick_a |> <| o_ToCurrency := tick_b |> <| o_FromAmount := 1000000 |>
    <| o_ToAmount := 2000000 |> <| o_PartialAllowed := true |> <| o_MinFromAmount := 100000 |> <| o_Status := "open"%string |>
    <| o_SNodePubkey := hexEncode (pub_of sample_priv) |>.

Definition market_node : Node := empty_node <| n_store := Add market_order NewStore |>.

Definition take_params (amount : bytes) : TakeOrderParams :=
  mkTakeOrderParams (orderIDString (repeat x01 32)) sample_b58_address sample_p2sh_address amount false.

Definition rich_env : Env := market_env [market_utxo x0c 1 250000000] [market_utxo x0d 0 100000000].
(** The same market with other outputs free. *)
Definition other_env : Env := market_env [market_utxo x0e 1 250000000] [market_utxo x0f 0 100000000].

Definition market_plan (e : Env) (amount : bytes) : rpc take_plan :=
  q ← take_checks no_unicode e (n_store market_node) (n_store market_node) (take_params amount);
  plan_take no_unicode e (Some sample_registry) (n_store market_node) (n_store market_node) (take_params amount) q.

Definition is_good {A} (r : rpc A) : bool := match r with Good _ => true | _ => false end.
Lemma is_good_ex {A} (r : rpc A) : is_good r = true -> exists a, r = Good a.
Proof. destruct r; [eauto|done..]. Qed.

Example market_takes :
  is_good (market_plan rich_env []) = true /\ is_good (market_plan rich_env (bytes_of "0.5")) = true /\
  market_plan rich_env (bytes_of "0.05") = refuse errInvalidParameters take_method /\
  market_plan rich_env (bytes_of "0") = refuse errInvalidParameters take_method /\
  market_plan rich_env (bytes_of "-1") = refuse (-1) "" /\
  market_plan (market_env [market_utxo x0c 1 190000000] []) [] = refuse errInsufficientFunds take_method /\
  (tq_fromSize ∘ tpl_quote <$> (match market_plan rich_env (bytes_of "0.5") with Good pl => Some pl | _ => None end)) = Some 1000000.
Proof. split_and!; vm_compute; reflexivity. Qed.

(** ** Making *)

(** 1 AAA for [taker] BBB; a partial order has the minimum [min]. *)
Definition make_params (partial : bool) (taker min : string) : MakeOrderParams :=
  mkMakeOrderParams tick_a (bytes_of "1") sample_b58_address tick_b (bytes_of taker) sample_p2sh_address
    (if partial then bytes_of "partial" else bytes_of "exact") (bytes_of min) false true true false.

Definition sample_pick : list bytes -> list bytes -> option bytes := fun _ _ => Some (pub_of sample_priv').

Definition market_quote (e : Env) (p : MakeOrderParams) : rpc make_quote := make_checks no_unicode e p.

Definition market_make (e : Env) (p : MakeOrderParams) (draws : list bytes) : rpc make_plan :=
  q ← market_quote e p;
  fst (make_build sample_ripemd160 no_unicode e p q (Some (pub_of sample_priv')) (repeat x0b 32) 1000 draws empty_node).

Definition no_dust_conf : CoinConf :=
  mkCoinConf (bytes_of "BTC") (bytes_of "Bitcoin") [] (bytes_of "127.0.0.1") 8332 [] [] (bytes_of "BTC")
    0 5 128 100000000 0 1 0 1000 600 20 1 false true true true [] [] [] false.

Example market_makes :
  (exists pl, market_make rich_env (make_params false "2" "") [sample_priv] = Good pl /\ mpl_pending pl = false) /\
  (exists pl, market_make rich_env (make_params true "2" "0.25") [sample_priv] = Good pl /\ mpl_pending pl = true /\
     zlen (o_UsedCoins (mpl_order pl)) = 4) /\
  market_make rich_env (make_params true "2" "1.5") [sample_priv] = refuse errInvalidParameters partial_method /\
  market_make rich_env (make_params false "0" "") [sample_priv] = refuse errInvalidParameters make_method /\
  market_make (market_env [] []) (make_params false "2" "") [sample_priv] = refuse errInsufficientFunds make_method /\
  partial_shape_of sample_coin_conf 1000000 (make_params true "2" "0") = refuse errInvalidParameters partial_method /\
  partial_shape_of no_dust_conf 1000000 (make_params true "2" "0") = Crash.
Proof.
  split_and!; [eexists; split; vm_compute; reflexivity|eexists; split_and!; vm_compute; reflexivity|vm_compute; reflexivity..].
Qed.
