(* ===== verification/Frame.v ===== *)
(** * What a step of the engine may do to a session

    [frame X C n n'] is the promise every operation of the engine makes about
    the sessions: none appears and none is replaced outside [X]; identity,
    keys and currencies never change; the protocol state never goes back; and
    a session whose deposit is out and not yet recovered keeps its refund (the
    signed transaction, its lock time, the deposit it spends) and stays.
    Outside [C] the recorded claim does not change either.  The relation is a
    preorder, so the promise of a composed operation is that of its parts. *)

From S2P Require Import Prelude Sha256 GoLib Hex Codec Bodies Packet Secp Signer Conf Coin Address Script Price Tx Wallet.
From S2P Require Import Deposit Order Store Session Persist Node Resume Sweep Track Commands Engine.

(** ** Sessions that hold a deposit *)

(** The deposit is out, and neither the claim nor the refund has happened. *)
Definition holding (s : SwapSession) : bool :=
  cs_ge (s_state s) csCreatedA && cs_lt (s_state s) csFinished && negb (is_empty (s_refundHex s)) && negb (s_refundDone s).

(** What recovers the deposit. *)
Definition refund_of (s : SwapSession) : bytes * Z * bytes * bytes * bytes :=
  (s_refundHex s, s_ourLockTime s, s_ourDepositTxID s, s_depositHex s, s_srcCur s).

Definition identity_of (s : SwapSession) : bytes * bool * bytes * bytes * bytes * bytes :=
  (s_id s, s_isMaker s, s_srcCur s, s_dstCur s, s_privKey s, s_pubKey s).

Record evolves (claims : Prop) (s s' : SwapSession) : Prop := mkEvolves {
  ev_gen : s_gen s' = s_gen s;
  ev_identity : identity_of s' = identity_of s;
  ev_state : cs_num (s_state s) <= cs_num (s_state s');
  ev_holding : holding s = true -> holding s' = true /\ refund_of s' = refund_of s;
  ev_claim : ~ claims -> s_claimTxID s' = s_claimTxID s /\ s_claimCur s' = s_claimCur s;
}.

Definition framed (claims : Prop) (o o' : option SwapSession) : Prop :=
  match o, o' with
  | Some s, Some s' => evolves claims s s'
  | Some s, None => holding s = false
  | None, None => True
  | None, Some _ => False
  end.

Definition frame (X C : bytes -> Prop) (n n' : Node) : Prop :=
  forall id, ~ X id -> framed (C id) (n_sessions n !! id) (n_sessions n' !! id).

Abbreviation never := (fun _ : bytes => False).

Lemma evolves_refl C s : evolves C s s.
Proof. by constructor. Qed.

Lemma evolves_trans C a b c : evolves C a b -> evolves C b c -> evolves C a c.
Proof.
  intros [G1 I1 S1 H1 C1] [G2 I2 S2 H2 C2]. constructor; [congruence | congruence | lia | |].
  - intros Ha. destruct (H1 Ha) as [Hb E1]. destruct (H2 Hb) as [Hc E2]. split; [done | congruence].
  - intros HC. destruct (C1 HC), (C2 HC). split; congruence.
Qed.

Lemma framed_refl C o : framed C o o.
Proof. destruct o; [apply evolves_refl | done]. Qed.

Lemma framed_trans C a b c : framed C a b -> framed C b c -> framed C a c.
Proof.
  destruct a as [a|], b as [b|], c as [c|]; cbn; try done; [apply evolves_trans|].
  intros E Hb. destruct (holding a) eqn:Ha; [|done]. destruct (ev_holding _ _ _ E Ha). congruence.
Qed.

#[export] Instance frame_preorder X C : PreOrder (frame X C).
Proof.
  split; [intros n id _; apply framed_refl|].
  intros a b c H1 H2 id HX. eapply framed_trans; [by apply H1 | by apply H2].
Qed.

Lemma evolves_weaken (C C' : Prop) s s' : (C -> C') -> evolves C s s' -> evolves C' s s'.
Proof. intros Hi [? ? ? ? Hc]. constructor; [done..|]. intros HC. apply Hc. tauto. Qed.

Lemma frame_weaken (X X' C C' : bytes -> Prop) n n' :
  (forall id, X id -> X' id) -> (forall id, C id -> C' id) -> frame X C n n' -> frame X' C' n n'.
Proof.
  intros HX HC F id Hid. specialize (F id (fun h => Hid (HX id h))).
  destruct (n_sessions n !! id), (n_sessions n' !! id); cbn in *; try done. by eapply evolves_weaken, F; auto.
Qed.

Lemma frame_same X C n n' : n_sessions n' = n_sessions n -> frame X C n n'.
Proof. intros E id _. rewrite E. apply framed_refl. Qed.

(** An update of one session that respects it. *)
Lemma frame_updS (X C : bytes -> Prop) id f n :
  (forall s, n_sessions n !! id = Some s -> ~ X id -> evolves (C id) s (f s)) -> frame X C n (updS id f n).
Proof.
  intros Hf j HX. cbn. destruct (decide (j = id)) as [->|Hne].
  - rewrite lookup_alter_eq. destruct (n_sessions n !! id) as [s|] eqn:E; cbn; [by apply Hf | done].
  - rewrite lookup_alter_ne by congruence. apply framed_refl.
Qed.

(** Updates of fields that the promise does not mention. *)
Definition harmless (f : SwapSession -> SwapSession) : Prop := forall C s, evolves C s (f s).

Lemma frame_harmless X C id f n : harmless f -> frame X C n (updS id f n).
Proof. intros Hf. apply frame_updS. intros s _ _. apply Hf. Qed.

Ltac harmless := let c := fresh "c" in intros c [] ; constructor; cbn; (reflexivity || (intros; split; [assumption | reflexivity]) || (intros; split; reflexivity)).

(** ** Operations that leave the sessions alone *)

Create Rewrite HintDb sess.

Lemma sess_persist e n : n_sessions (persist e n) = n_sessions n.
Proof. unfold persist. by case_match. Qed.
Lemma sess_next_io n : n_sessions (snd (next_io n)) = n_sessions n.
Proof. unfold next_io. by case_match. Qed.
Lemma sess_persistNow e n : n_sessions (snd (persistNow e n)) = n_sessions n.
Proof.
  unfold persistNow. case_match; [done|].
  pose proof (sess_next_io (n <| n_latest := None |>)) as E. destruct (next_io _) as [[] m]; cbn in *; done.
Qed.
Lemma sess_post t n : n_sessions (snd (post t n)) = n_sessions n.
Proof. unfold post. by case_match. Qed.
Lemma sess_write_packet dest pkt n : n_sessions (snd (write_packet dest pkt n)) = n_sessions n.
Proof. unfold write_packet. pose proof (sess_next_io n). by destruct (next_io n) as [[] m]. Qed.
Lemma sess_recordBroadcast e id k coin txid hex n : n_sessions (recordBroadcast e id k coin txid hex n) = n_sessions n.
Proof. unfold recordBroadcast. by repeat case_match. Qed.
Lemma sess_report id txid err user n : n_sessions (report id txid err user n) = n_sessions n.
Proof. unfold report. by case_match. Qed.

Lemma store_persistNow e n : n_store (snd (persistNow e n)) = n_store n.
Proof. unfold persistNow, next_io. cbn. destruct (negb _); [done|]. by destruct (n_io n) as [|[] ?]. Qed.

Lemma store_write_packet dest pkt n : n_store (snd (write_packet dest pkt n)) = n_store n.
Proof. unfold write_packet, next_io. by destruct (n_io n) as [|[] ?]. Qed.

#[export] Hint Rewrite sess_persist sess_persistNow sess_post sess_write_packet sess_recordBroadcast sess_report : sess.

Lemma sess_postRefundTask e id cur hex lt done on_drop n :
  (forall m, n_sessions (on_drop m) = n_sessions m) -> n_sessions (postRefundTask e id cur hex lt done on_drop n) = n_sessions n.
Proof.
  intros Hd. unfold postRefundTask. destruct (refund_probe n id) as [d p].
  pose proof (sess_post (TRefund (mkRefundTask id (e_Connectors e !! cur) cur hex lt d p done)) n) as E.
  destruct (post _ n) as [[] m]; cbn in *; [done|]. by rewrite Hd.
Qed.

Lemma sess_tryStoredRefund e id hex lt cands user n : n_sessions (tryStoredRefund e id hex lt cands user n) = n_sessions n.
Proof.
  assert (forall m, n_sessions (tryStoredRefund e id hex lt cands user m) = n_sessions m) as H; [|apply H].
  induction cands as [|c cands IH]; intros m; cbn; [apply sess_report|].
  rewrite sess_postRefundTask; done.
Qed.

Lemma sess_enqueueRefund mem e id user n : n_sessions (snd (enqueueRefund mem e id user n)) = n_sessions n.
Proof.
  unfold enqueueRefund. cbv zeta.
  repeat first [progress cbn -[refund_candidates tryStoredRefund report postRefundTask] | case_match];
    rewrite ?sess_report, ?sess_tryStoredRefund; try done;
    rewrite sess_postRefundTask; try done; intros; apply sess_report.
Qed.

Lemma sess_recordRefundFailure e id n : n_sessions (recordRefundFailure e id n) = n_sessions n.
Proof. done. Qed.
Lemma sess_dropTakeRetry id n : n_sessions (dropTakeRetry id n) = n_sessions n.
Proof. done. Qed.
Lemma sess_updO id f n : n_sessions (updO id f n) = n_sessions n.
Proof. done. Qed.
#[export] Hint Rewrite sess_tryStoredRefund sess_enqueueRefund sess_updO sess_dropTakeRetry sess_recordRefundFailure : sess.

(** [let '(ok, n) := f n in k ok n], with what the rewrite base knows of [f]. *)
Ltac pair_step :=
  match goal with |- context [match ?x with pair _ _ => _ end] =>
    let E := fresh "E" in
    destruct x as [? ?] eqn:E; apply (f_equal (fun p => n_sessions (snd p))) in E; cbn in E; autorewrite with sess in E; cbn in E; symmetry in E
  end.

Ltac sess_tac := repeat first [done | congruence | progress (cbn; autorewrite with sess) | pair_step | case_match].

Lemma sess_send `{Secp} e dest cmd body priv n : n_sessions (snd (send e dest cmd body priv n)) = n_sessions n.
Proof.
  unfold send. do 2 (case_match; [done|]). case_match; try done. pair_step. case_match; cbn; [congruence|].
  pose proof (sess_next_io n0) as E2. destruct (next_io n0) as [[] m]; cbn in *; congruence.
Qed.
#[export] Hint Rewrite @sess_send : sess.

Section Cancels.
Context {secp : Secp} (mem : Z).

Lemma sess_sendCancelTransaction e id reason n : n_sessions (snd (sendCancelTransaction e id reason n)) = n_sessions n.
Proof. unfold sendCancelTransaction. repeat case_match; try done. apply sess_write_packet. Qed.

Lemma sess_hub_cancel e id pkt reason n : n_sessions (hub_cancel e id pkt reason n) = n_sessions n.
Proof.
  unfold hub_cancel. do 2 (case_match; try done).
  pose proof (sess_sendCancelTransaction e id reason n) as E.
  destruct (sendCancelTransaction e id reason n) as [[] m]; cbn in *; done.
Qed.

Lemma sess_handleRemoteCancel e pkt b n : n_sessions (snd (handleRemoteCancel mem e pkt b n)) = n_sessions n.
Proof. unfold handleRemoteCancel. cbv zeta. pose proof sess_hub_cancel. sess_tac. Qed.

Lemma sess_handleRemoteReject e pkt b n : n_sessions (handleRemoteReject e pkt b n) = n_sessions n.
Proof.
  unfold handleRemoteReject, scheduleTakeRetry. cbv zeta.
  repeat case_match; try done; autorewrite with sess; cbn; by autorewrite with sess.
Qed.

Lemma sess_sendSelfCancel e id reason n : n_sessions (snd (sendSelfCancel mem e id reason n)) = n_sessions n.
Proof.
  unfold sendSelfCancel. do 2 (case_match; try done). cbv zeta. case_match; try done.
  pose proof (sess_handleRemoteCancel e a (mkCancelBody (s_id s) reason) n) as E.
  destruct (handleRemoteCancel _ _ _ _ _) as [[] m]; cbn in *; autorewrite with sess; done.
Qed.

End Cancels.
#[export] Hint Rewrite @sess_sendCancelTransaction @sess_handleRemoteCancel @sess_handleRemoteReject @sess_sendSelfCancel : sess.

Lemma sess_verifyAndBook e o n : n_sessions (verifyAndBook e o n) = n_sessions n.
Proof. unfold verifyAndBook. repeat case_match; try done. apply sess_post. Qed.

Lemma sess_ingestPending e b snode n : n_sessions (ingestPending e b snode n) = n_sessions n.
Proof. unfold ingestPending. cbv zeta. case_match. repeat case_match; try done. Qed.

(** ** Operations that touch sessions *)

Lemma frame_eq X C n m m' : frame X C n m -> n_sessions m' = n_sessions m -> frame X C n m'.
Proof. intros F E id HX. rewrite E. by apply F. Qed.

Lemma frame_eq_l X C n n' m : n_sessions n' = n_sessions n -> frame X C n' m -> frame X C n m.
Proof. intros E F id HX. rewrite <- E. by apply F. Qed.

Lemma frame_then X C n m m' : frame X C n m -> frame X C m m' -> frame X C n m'.
Proof. intros; etransitivity; eassumption. Qed.

Lemma harmless_id : harmless (fun s => s).
Proof. intros C s. apply evolves_refl. Qed.
Lemma harmless_holdAwait now : harmless (holdAwait now).
Proof. harmless. Qed.
Lemma harmless_releaseAwait : harmless releaseAwait.
Proof. harmless. Qed.
Lemma harmless_clearDepositRetry : harmless clearDepositRetry.
Proof. harmless. Qed.
Lemma harmless_clearClaimRetry : harmless clearClaimRetry.
Proof. harmless. Qed.
Lemma harmless_claim_backoff now : harmless (claim_backoff now).
Proof. harmless. Qed.
Lemma harmless_deposit_backoff now : harmless (deposit_backoff now).
Proof. harmless. Qed.
Lemma harmless_adopt_check check : harmless (adopt_check check).
Proof. harmless. Qed.
Lemma harmless_progress now : harmless (fun s => s <| s_lastProgress := now |>).
Proof. harmless. Qed.

Lemma harmless_not_ready now isClaim terr C s : evolves C s (fst (not_ready_poll now isClaim terr s)).
Proof.
  destruct s. unfold not_ready_poll. repeat case_match; cbn;
    (constructor; cbn; [reflexivity | reflexivity | reflexivity | intros; split; [assumption | reflexivity] | intros; split; reflexivity]).
Qed.

Create HintDb frame.
#[export] Hint Resolve harmless_id harmless_holdAwait harmless_releaseAwait harmless_clearDepositRetry harmless_clearClaimRetry
  harmless_claim_backoff harmless_deposit_backoff harmless_adopt_check harmless_progress frame_harmless : frame.

Section Ops.
Context (X C : bytes -> Prop).
Local Abbreviation framed_by := (frame X C).

Lemma frame_postSwapTask id t n : framed_by n (snd (postSwapTask id t n)).
Proof.
  unfold postSwapTask. pair_step. case_match; cbn.
  - by apply frame_same.
  - eapply frame_eq_l; [eassumption|]. auto with frame.
Qed.

Lemma frame_start_task e id mk n : framed_by n (start_task e id mk n).
Proof.
  unfold start_task. destruct (n_sessions n !! id); [|reflexivity].
  eapply frame_then; [|apply frame_postSwapTask]. auto with frame.
Qed.

Lemma frame_intent e id gen conn cur hex k n : framed_by n (intent_then_broadcast e id gen conn cur hex k n).
Proof.
  unfold intent_then_broadcast. pair_step. eapply frame_eq_l; [eassumption|].
  case_match; [apply frame_postSwapTask | auto with frame].
Qed.

Lemma frame_scheduleClaimRetry e id n : framed_by n (scheduleClaimRetry e id n).
Proof. unfold scheduleClaimRetry. eapply frame_eq; [|apply sess_persistNow]. auto with frame. Qed.

Lemma frame_scheduleDepositRetry e id n : framed_by n (scheduleDepositRetry e id n).
Proof. unfold scheduleDepositRetry. eapply frame_eq; [|apply sess_persistNow]. auto with frame. Qed.

Lemma frame_scheduleNotReady e id isClaim terr n : framed_by n (snd (scheduleNotReady e id isClaim terr n)).
Proof.
  unfold scheduleNotReady. destruct (n_sessions n !! id) as [s|] eqn:E; [|reflexivity].
  pose proof (harmless_not_ready (e_now e) isClaim terr (C id) s) as Hs.
  destruct (not_ready_poll (e_now e) isClaim terr s) as [s' ok]; cbn in Hs.
  assert (framed_by n (updS id (fun _ => s') n)) as F by (apply frame_updS; intros; simplify_eq; done).
  destruct ok; cbn -[persistNow]; [|done]. eapply frame_eq; [exact F | apply sess_persistNow].
Qed.

Lemma frame_build_failed e id isClaim terr n : framed_by n (build_failed e id isClaim terr n).
Proof.
  unfold build_failed. pose proof (frame_scheduleNotReady e id isClaim terr n) as F.
  destruct (scheduleNotReady e id isClaim terr n) as [[] m]; cbn in F; [done|].
  eapply frame_then; [exact F|]. case_match; [apply frame_scheduleClaimRetry | apply frame_scheduleDepositRetry].
Qed.

Lemma frame_each_session e f n :
  (forall id s m, framed_by n m -> n_sessions m !! id = Some s -> framed_by m (f id s m)) -> framed_by n (each_session e f n).
Proof.
  intros Hf. unfold each_session.
  assert (forall keys m, framed_by n m ->
    framed_by n (fold_left (fun n id => match n_sessions n !! id with Some s => f id s n | None => n end) keys m)) as H.
  { induction keys as [|id keys IH]; intros m F; cbn; [done|]. apply IH.
    destruct (n_sessions m !! id) as [s|] eqn:E; [|done]. eapply frame_then; [exact F | by apply Hf]. }
  apply H. reflexivity.
Qed.

(** ** Retirement *)

(** A session that goes is finished, or does not hold a deposit. *)
Lemma terminal_not_holding n id s : sessionIsTerminal n id s = true -> holding s = false.
Proof.
  unfold sessionIsTerminal, holding, cs_ge, cs_lt. intros Ht.
  destruct (bool_decide_reflect (s_state s = csFinished)) as [->|_]; [done|].
  destruct (is_empty (s_refundHex s)), (s_refundDone s), (cs_num csCreatedA <=? cs_num (s_state s)); cbn in *;
    rewrite ?andb_false_r; done.
Qed.

Lemma frame_prune_session id s n : n_sessions n !! id = Some s -> framed_by n (prune_session id s n).
Proof.
  intros Hs. unfold prune_session. destruct (sessionIsTerminal n id s) eqn:Ht; [|reflexivity].
  intros j HX. cbn. destruct (decide (j = id)) as [->|Hne].
  - rewrite Hs, lookup_delete_eq. cbn. by eapply terminal_not_holding.
  - rewrite lookup_delete_ne by congruence. apply framed_refl.
Qed.

Lemma frame_pruneSessions e n : framed_by n (pruneSessions e n).
Proof. apply frame_each_session. intros. by apply frame_prune_session. Qed.

End Ops.
#[export] Hint Resolve frame_postSwapTask frame_start_task frame_intent frame_scheduleClaimRetry frame_scheduleDepositRetry
  frame_build_failed frame_pruneSessions : frame.
