(* ===== verification/TakeLaws.v ===== *)
(** * What a take promises

    A take spends only outputs that are the wallet's, unlocked and of the right
    kind, its fee goes to the registered address of the order's service node,
    and what it announces is what it computed ([TakeOrder_sound]); a take that
    fails leaves no reservation and the book as it was ([take_never_leaks]).
    [second_take_replaces] is the gap between the two: the order is not
    examined again when the take commits. *)

From S2P Require Import Prelude Sort Sha256 GoLib Digits Hex Json Codec Bodies Packet Secp Signer Registry Conf Coin Address Script Tx Price.
From S2P Require Import Wallet Deposit Order Float XAmount Store Utxos Select SelectLaws Fee Session Persist Node Resume Sweep Track Commands Take.
From S2P Require Import Engine RegistryLaws DepositLaws Sample Market Frame.

(** ** The commit *)

Section Commit.
Context {secp : Secp}.

(** The reservation of an order's take is gone, whatever the answer. *)
Lemma commitTake_store e key fa ta pkt priv pub proofs used fees n :
  let '(ans, n') := commitTake e key fa ta pkt priv pub proofs used fees n in
  st_reserved (n_store n') = delete key (st_reserved (n_store n)) /\
  match ans with
  | Done => exists o, get_order n key = Some o /\ get_order n' key = Some (take_stamp e fa ta pub proofs used fees o)
  | _ => st_orders (n_store n') = st_orders (n_store n)
  end.
Proof.
  unfold commitTake. destruct (get_order n key) as [prev|] eqn:Ho; [|done]. cbv zeta.
  set (live := take_stamp _ _ _ _ _ _ _ _). set (n1 := add_session _ _ _).
  assert (n_store n1 = ReleaseReserve key (Update key (fun _ => live) (n_store n))) as E1 by done.
  clearbody n1. pose proof (store_persistNow e n1) as E2. destruct (persistNow e n1) as [ok n2]. cbn [snd] in E2.
  assert (forall m, n_store m = n_store n1 ->
    st_reserved (n_store (revertTake e key prev m)) = delete key (st_reserved (n_store n)) /\
    st_orders (n_store (revertTake e key prev m)) = st_orders (n_store n)) as Hrev.
  { intros m Em. unfold revertTake. rewrite store_persistNow. cbn. rewrite Em, E1. cbn. split; [done|].
    apply map_eq. intros i. unfold get_order, Store_Get in Ho. destruct (decide (i = key)) as [->|Hne].
    - by rewrite !lookup_alter_eq, Ho.
    - by rewrite !lookup_alter_ne. }
  destruct ok; cbn [negb]; [|exact (Hrev n2 E2)].
  pose proof (store_write_packet (o_HubAddress live) pkt n2) as E3. destruct (write_packet _ _ _) as [ok n3]. cbn [snd] in E3.
  destruct ok; [|apply Hrev; congruence]. unfold registerTakeRetry.
  assert (n_store (if e_TakeRetry e <=? 0 then n3 else n3 <| n_takeRetries ::= partial_alter (fun v => Some (default 0 v)) key |>) = n_store n3) as E4
    by by destruct (e_TakeRetry e <=? 0).
  rewrite E4, E3, E2, E1. split; [done|]. exists prev. split; [done|]. unfold get_order. rewrite E4, E3, E2, E1.
  unfold get_order, Store_Get in Ho |- *. cbn. by rewrite lookup_alter_eq, Ho.
Qed.

End Commit.

Lemma NewPrivateKey_no_panic {secp : Secp} fuel draws : no_panic (NewPrivateKey fuel draws).
Proof. revert draws; induction fuel as [|fuel IH]; intros [|b draws]; cbn; try done. by repeat case_match. Qed.

Lemma Sign_no_panic {secp : Secp} pkt priv : no_panic (Sign pkt priv).
Proof. unfold Sign, CompressedPubKey. by destruct (negb _). Qed.

(** ** Failure *)

Section Failure.
Context {secp : Secp}.

(** C15. Whatever happens after the inputs were reserved (no key, a commit that
    finds the order gone or cannot write or send, a daemon that is stopping),
    the reservation is gone afterwards and the handler answers; if the take
    did not go through, the book is as it was, and if it did, the order in the
    book carries the proofs, the coins and the fee inputs of this take. *)
Theorem take_never_leaks (e : Env) (p : TakeOrderParams) (pl : take_plan) (draws : list bytes) (running : bool) (n : Node) :
  let '(r, n') := finish_take e p pl draws running n in
  st_reserved (n_store n') = delete (tpl_key pl) (st_reserved (n_store n)) /\ r <> Crash /\
  match r with
  | Good (Taken o _ _) => running = true /\ get_order n' (tpl_key pl) = Some o /\ o_Mine o = true /\ o_Role o = RoleB /\
      o_Utxos o = tpl_proofs pl /\ o_UsedCoins o = tpl_usedCoins pl /\ o_FeeUtxos o = tpl_feeInputs pl
  | _ => st_orders (n_store n') = st_orders (n_store n)
  end.
Proof.
  unfold finish_take. pose proof (NewPrivateKey_no_panic 64 draws) as Hk. destruct (NewPrivateKey 64 draws) as [priv| |]; [|done..].
  unfold CompressedPubKey at 1. destruct (negb _); [done|].
  set (pkt0 := NewPacket _ _ _ _). pose proof (Sign_no_panic pkt0 priv) as Hs. destruct (Sign pkt0 priv) as [pkt| |]; [|done..].
  destruct running; [|done].
  pose proof (commitTake_store e (tpl_key pl) (tp_FromAddress p) (tp_ToAddress p) pkt priv
    (SerializeCompressed (PubKeyOf (PrivKeyFromBytes priv))) (tpl_proofs pl) (tpl_usedCoins pl) (tpl_feeInputs pl) n) as H.
  destruct (commitTake _ _ _ _ _ _ _ _ _ _ n) as [ans n']. destruct H as [Hr H]. destruct ans.
  - destruct H as (o & Ho & Ho'). rewrite Ho'. by split_and!.
  - cbn. rewrite Hr. split_and!; [|done..]. by rewrite delete_delete_eq.
  - by split_and!.
Qed.

End Failure.

(** ** What is announced *)

Section Sound.
Context {secp : Secp} (uni : Unicode) {gosort : GoSort} {sortlaws : @GoSortLaws gosort}.

Lemma spendable_spec locked us u : u ∈ spendable locked us <-> u ∈ us /\ isP2PKH25 (u_ScriptPubKey u) = true /\ utxoKey u ∉ locked.
Proof.
  unfold spendable. rewrite list_elem_of_In, filter_In, <- list_elem_of_In, andb_true_iff, negb_true_iff, bool_decide_eq_false. done.
Qed.

Lemma fee_spendable_spec locked feeLocked us u :
  u ∈ fee_spendable locked feeLocked us <->
  u ∈ us /\ 1 <= u_Confirmations u /\ isP2PKH25 (u_ScriptPubKey u) = true /\ utxoKey u ∉ locked /\ utxoKey u ∉ feeLocked.
Proof.
  unfold fee_spendable. rewrite list_elem_of_In, filter_In, <- list_elem_of_In, !andb_true_iff, negb_true_iff, orb_false_iff,
    !bool_decide_eq_false, Z.leb_le. tauto.
Qed.

(** The amounts of a take: the whole order, or the part asked for at the order's price. *)
Definition sizes_ok (p : TakeOrderParams) (o : Order) (fromSize toSize : Z) : Prop :=
  (tp_Amount p = [] /\ fromSize = o_ToAmount o /\ toSize = o_FromAmount o) \/
  (lexicalAmount (tp_Amount p) = inl toSize /\ toSize <> 0 /\ o_PartialAllowed o = true /\
   o_MinFromAmount o <= toSize <= o_FromAmount o /\
   fromSize = if toSize <? o_FromAmount o then xBridgeSourceAmountFromPrice toSize (o_ToAmount o) (o_FromAmount o) else o_ToAmount o).

Lemma take_sizes_ok p o amount fs ts :
  take_amount p = Good amount -> take_sizes o amount = Good (fs, ts) -> sizes_ok p o fs ts.
Proof.
  unfold take_amount, is_empty. case_bool_decide as He.
  - intros [= <-] [= <- <-]. by left.
  - unfold lexical. destruct (lexicalAmount _) as [a|] eqn:El; [|done]. intros Ha Hs. cbn [mbind rpc_bind] in Ha. rpc_inv.
    cbn [take_sizes] in Hs. rpc_inv. zbool. right. destruct (Z.ltb_spec a (o_FromAmount o)) as [Hlt|Hge]; injection Hs as <- <-.
    + rewrite (proj2 (Z.ltb_lt _ _) Hlt). split_and!; try done; lia.
    + assert (a = o_FromAmount o) as -> by lia. rewrite Z.ltb_irrefl. split_and!; try done; lia.
Qed.

Lemma order_proofs_good conn us c m l : order_proofs uni conn us c m = Good l -> buildUtxoProofs uni conn us c = Ok (inl l).
Proof. unfold order_proofs. destruct (buildUtxoProofs _ _ _ _) as [[?|?]| |]; [by intros [= ->]|done..]. Qed.

(** The fee transaction that was signed: its inputs, and in its outputs the
    order information and the fee to [dest]. *)
Definition fee_paid (e : Env) (blk : Connector) (dest info : bytes) (inputs : list Utxo) (feeTx : bytes) : Prop :=
  exists conf tx rest, e_Confs e !! bytes_of "BLOCK" = Some conf /\
    funding_ins inputs = Ok (tx_Inputs tx) /\
    tx_Outputs tx = mkTxOut 0 (BuildOpReturnScript info) :: mkTxOut (fee_value conf) (BuildP2PKHScript dest) :: rest /\
    exists raw, SignRawTransaction blk (EncodeToString (Tx_Serialize tx)) (prev_txs inputs) = inl (raw, true) /\
      DecodeString raw = Some feeTx.

Lemma fee_tx_ok e conn coin dest info avail raw sel feeTx :
  buildServiceNodeFeeTx uni conn coin (e_Confs e !! bytes_of "BLOCK") dest info avail = Good (raw, sel) ->
  DecodeString raw = Some feeTx ->
  sel ⊆+ avail /\ sel <> [] /\ fee_paid e conn dest info sel feeTx.
Proof.
  intros H Hd. unfold buildServiceNodeFeeTx in H. rpc_inv.
  match goal with Hs : selectFeeUtxos _ _ = Some sel |- _ => apply selectFeeUtxos_spec in Hs as (Hs & Hne & _) end.
  match goal with Ho : fee_outputs _ _ ?cf _ _ _ = Good ?outs |- _ => rename cf into conf, outs into os, Ho into Hout end.
  split_and!; [done..|].
  assert (exists rest, os = mkTxOut 0 (BuildOpReturnScript info) :: mkTxOut (fee_value conf) (BuildP2PKHScript dest) :: rest) as [rest ->].
  { unfold fee_outputs in Hout. destruct sel as [|u sel]; [done|]. destruct (_ <=? _); rpc_inv; by eexists. }
  eexists conf, (mkTx (tx_version (Some conf)) 0 _ (mkTxOut 0 (BuildOpReturnScript info) :: mkTxOut (fee_value conf) (BuildP2PKHScript dest) :: rest)
    false (TxWithTimeField coin) 0), rest.
  split_and!; [done|by eassumption|done|]. by exists raw.
Qed.

(** The funding: P2PKH outputs of the wallet of the currency paid, each used
    once and none locked, enough for the amount and the fees, with the proofs
    of their ownership. *)
Definition funding_ok (e : Env) (st_lock : Store) (cur : bytes) (fromSize : Z) (used : list Utxo) (proofs : list UtxoEntry) : Prop :=
  exists conn outs cc, e_Connectors e !! cur = Some conn /\ ListUnspent conn 1 = inl outs /\ e_Confs e !! cur = Some cc /\
    used ⊆+ outs /\ used <> [] /\
    Forall (fun u => isP2PKH25 (u_ScriptPubKey u) = true /\ utxoKey u ∉ LockedUtxoInfoFor cur st_lock) used /\
    covers (min_amount (Some cc) (f64_div (f64_of fromSize) (f64_of coinScale))) (order_net (Some cc)) used /\
    buildUtxoProofs uni conn used (default zero_coin (Get (e_Coins e) cur)) = Ok (inl proofs).

(** The fee: other outputs, confirmed, locked by no order, paid to the address
    registered for the order's service node. *)
Definition fee_ok (e : Env) (reg : option Registry.Registry) (st_fee : Store) (q : take_quote) (used inputs : list Utxo) (feeTx : bytes) : Prop :=
  let o := tq_order q in
  exists r blk outs dest info, reg = Some r /\ blockConnector e = Some blk /\ ListUnspentWithZeroConf blk = inl outs /\
    inputs ⊆+ outs /\ inputs <> [] /\
    Forall (fun u => 1 <= u_Confirmations u /\ utxoKey u ∉ lockedInfoLocked st_fee /\ utxoKey u ∉ map utxoKey used) inputs /\
    PaymentAddress r (decodePub33 (o_SNodePubkey o)) = Some dest /\
    feeOrderInfo (o_ID o) (o_ToCurrency o) (tq_fromSize q) (o_FromCurrency o) (tq_toSize q) = Some info /\
    fee_paid e blk dest info inputs feeTx.

(** The packet: the order, the amounts and currencies from the taker's side, the proofs. *)
Definition packet_ok (q : take_quote) (proofs : list UtxoEntry) (b : AcceptingBody) : Prop :=
  let o := tq_order q in
  Accepting_ID b = o_ID o /\ Accepting_HubAddress b = o_HubAddress o /\
  Accepting_FromCurrency b = o_ToCurrency o /\ Accepting_FromAmount b = tq_fromSize q /\ Accepting_From b = tq_fromID q /\
  Accepting_ToCurrency b = o_FromCurrency o /\ Accepting_ToAmount b = tq_toSize q /\ Accepting_To b = tq_toID q /\
  Accepting_Utxos b = proofs.

(** C13. A take that is announced: the order was in the book and not ours, the two
    addresses differ; the amounts are the order's, or the part asked for at its
    price; its funding and its fee are sound; and the packet says exactly this. *)
Theorem TakeOrder_sound (e : Env) (reg : option Registry.Registry) (st_get st_bal st_lock st_fee : Store)
    (p : TakeOrderParams) (q : take_quote) (pl : take_plan) :
  take_checks uni e st_get st_bal p = Good q ->
  plan_take uni e reg st_lock st_fee p q = Good pl ->
  let o := tq_order q in
  Store_Get st_get (orderIDKey (tp_ID p)) = Some o /\ o_Mine o = false /\ tp_FromAddress p <> tp_ToAddress p /\
  sizes_ok p o (tq_fromSize q) (tq_toSize q) /\
  funding_ok e st_lock (o_ToCurrency o) (tq_fromSize q) (tpl_usedCoins pl) (tpl_proofs pl) /\
  fee_ok e reg st_fee q (tpl_usedCoins pl) (tpl_feeInputs pl) (Accepting_ServiceNodeFeeTx (tpl_body pl)) /\
  packet_ok q (tpl_proofs pl) (tpl_body pl) /\ tpl_key pl = orderIDKey (tp_ID p) /\ tpl_quote pl = q.
Proof.
  intros Hc Hp. unfold take_checks, connector in Hc. rpc_inv.
  unfold plan_take, confFor, connector, fee_destination in Hp. cbn [tq_order tq_fromSize tq_toSize tq_fromID tq_toID] in *. rpc_inv.
  destruct (blockConnector e) as [blk|] eqn:Eb; [|done]. rpc_inv.
  match goal with H : selectTakeFunding _ _ _ _ _ = Some _ |- _ => apply selectTakeFunding_sub in H as (Hs & Hne & Hrs & Hdis & Hcov) end.
  match goal with H : buildServiceNodeFeeTx _ _ _ _ _ _ _ = Good _, Hd : DecodeString _ = Some _ |- _ =>
    destruct (fee_tx_ok _ _ _ _ _ _ _ _ _ H Hd) as (Hfs & Hfne & Hpaid) end.
  match goal with H : order_proofs _ _ _ _ _ = Good _ |- _ => apply order_proofs_good in H end.
  cbn [tpl_usedCoins tpl_feeInputs tpl_proofs tpl_body tpl_key tpl_quote Accepting_ServiceNodeFeeTx].
  split_and!; [done|by apply negb_true_iff| |by eapply take_sizes_ok| | |done..].
  - match goal with H : negb (bool_decide (tp_FromAddress p = _)) = true |- _ => by apply negb_true_iff, bool_decide_eq_false in H end.
  - do 3 eexists. split_and!; [eassumption..| | | | |]; try done.
    + rewrite Hs. apply filter_sub.
    + apply Forall_forall. intros u Hu. apply (elem_of_submseteq _ _ u Hu), spendable_spec in Hs as (_ & ? & ?). done.
  - do 5 eexists. split_and!; [reflexivity|eassumption|eassumption| | | |eassumption..]; try done.
    + rewrite Hfs, Hrs. apply filter_sub.
    + apply Forall_forall. intros u Hu. pose proof (elem_of_submseteq _ _ u Hu Hfs) as Hr.
      pose proof (elem_of_submseteq _ _ u Hr Hrs) as (_ & ? & _ & _ & ?)%fee_spendable_spec. split_and!; try done.
      intros (v & Hv & Hin)%list_elem_of_fmap. by apply (Hdis v u Hin Hr).
Qed.

End Sound.

Lemma TakeOrder_sound_witness :
  exists q pl, take_checks no_unicode rich_env (n_store market_node) (n_store market_node) (take_params (bytes_of "0.5")) = Good q /\
    plan_take no_unicode rich_env (Some sample_registry) (n_store market_node) (n_store market_node) (take_params (bytes_of "0.5")) q = Good pl /\
    sizes_ok (take_params (bytes_of "0.5")) (tq_order q) (tq_fromSize q) (tq_toSize q).
Proof.
  destruct (is_good_ex (take_checks no_unicode rich_env (n_store market_node) (n_store market_node) (take_params (bytes_of "0.5")))) as [q Hq];
    [by vm_compute|].
  destruct (is_good_ex (market_plan rich_env (bytes_of "0.5"))) as [pl Hpl]; [by vm_compute|].
  assert (plan_take no_unicode rich_env (Some sample_registry) (n_store market_node) (n_store market_node) (take_params (bytes_of "0.5")) q = Good pl)
    as Hp by (unfold market_plan in Hpl; rewrite Hq in Hpl; exact Hpl).
  exists q, pl. split; [exact Hq|]. split; [exact Hp|].
  apply (TakeOrder_sound no_unicode rich_env (Some sample_registry) (n_store market_node) (n_store market_node)
    (n_store market_node) (n_store market_node) (take_params (bytes_of "0.5")) q pl Hq Hp).
Defined.

(** ** Two takes of one order *)

Section Twice.
Context {secp : Secp}.

Lemma commitTake_done e key fa ta pkt priv pub proofs used fees n o :
  get_order n key = Some o -> key = orderKey (o_ID o) -> n_io n = [] ->
  exists n', commitTake e key fa ta pkt priv pub proofs used fees n = (Done, n') /\
    exists s, n_sessions n' !! key = Some s /\ s_privKey s = priv.
Proof.
  intros Ho Hk Hio. unfold commitTake. rewrite Ho. cbv zeta. set (live := take_stamp _ _ _ _ _ _ _ _). set (n1 := add_session _ _ _).
  assert (n_io n1 = [] /\ exists s, n_sessions n1 !! key = Some s /\ s_privKey s = priv) as [Hio1 Hs1].
  { split; [done|]. assert (hexEncode (o_ID live) = key) as El by (by rewrite Hk). unfold n1, add_session. rewrite El.
    eexists. split; [apply lookup_insert_eq|done]. }
  clearbody n1. assert (exists n2, persistNow e n1 = (true, n2) /\ n_io n2 = []) as (n2 & E2 & Hio2).
  { unfold persistNow, next_io. destruct (e_DataDir e); cbn; [rewrite Hio1|]; by eexists. }
  pose proof (sess_persistNow e n1) as Es. rewrite E2 in Es |- *. cbn [negb fst snd] in *.
  unfold write_packet, next_io. rewrite Hio2. eexists. split; [done|]. destruct Hs1 as (s & Hs & Hp). exists s. split; [|done].
  unfold registerTakeRetry. destruct (e_TakeRetry e <=? 0); cbn; by rewrite Es.
Qed.

(** After a take that went out, the order is ours and its reservation gone. *)
Lemma finish_taken e p pl d running n0 n o a b :
  finish_take e p pl d running n0 = (Good (Taken o a b), n) ->
  get_order n (tpl_key pl) = Some o /\ o_Status o = "accepting"%string /\ st_reserved (n_store n) !! tpl_key pl = None.
Proof.
  unfold finish_take. destruct (NewPrivateKey 64 d) as [priv1| |]; [|done..]. destruct (CompressedPubKey priv1) as [pub| |]; [|done..].
  destruct (Sign _ priv1) as [pkt| |]; [|done..]. destruct running; [|done].
  pose proof (commitTake_store e (tpl_key pl) (tp_FromAddress p) (tp_ToAddress p) pkt priv1 pub (tpl_proofs pl) (tpl_usedCoins pl) (tpl_feeInputs pl) n0) as Hc.
  destruct (commitTake _ _ _ _ _ _ _ _ _ _ n0) as [ans m]. destruct ans; [|done..]. destruct Hc as (Hr & o' & Ho & Ho').
  rewrite Ho'. intros [= <- _ _ <-]. split_and!; [done|done|]. rewrite Hr. apply lookup_delete_eq.
Qed.

Lemma reserve_take_ok pl st o :
  st_orders st !! tpl_key pl = Some o -> isOrderTerminal (o_Status o) = false -> st_reserved st !! tpl_key pl = None ->
  (forall k, k ∈ fee_keys pl ++ fund_keys pl -> k ∉ lockedInfoLocked st) ->
  exists st', reserve_take pl st = (Good tt, st') /\ st_orders st' = st_orders st.
Proof.
  intros Ho Ht Hr Hfree. unfold reserve_take, ReserveForTake. rewrite Ho, Ht, Hr, bool_decide_false by (by intros [? ?]).
  assert (existsb (fun k => bool_decide (k ∈ lockedInfoLocked st)) (fee_keys pl ++ fund_keys pl) = false) as ->.
  { apply not_true_iff_false. intros (k & Hin & Hl)%existsb_exists. apply bool_decide_eq_true in Hl.
    apply (Hfree k); [by apply list_elem_of_In|done]. }
  destruct (0 <? _); by eexists.
Qed.

Lemma finish_goes_through e p pl d n o priv :
  get_order n (tpl_key pl) = Some o -> tpl_key pl = orderKey (o_ID o) -> n_io n = [] ->
  NewPrivateKey 64 d = Ok priv -> zlen priv = 32 ->
  exists pub n', let o' := take_stamp e (tp_FromAddress p) (tp_ToAddress p) pub (tpl_proofs pl) (tpl_usedCoins pl) (tpl_feeInputs pl) o in
    finish_take e p pl d true n = (Good (Taken o' (tq_fromSize (tpl_quote pl)) (tq_toSize (tpl_quote pl))), n') /\
    exists s, n_sessions n' !! tpl_key pl = Some s /\ s_privKey s = priv.
Proof.
  intros Ho Hid Hio Hk Hp. unfold finish_take. rewrite Hk.
  assert (exists pub, CompressedPubKey priv = Ok pub) as [pub Hpub] by (unfold CompressedPubKey; rewrite Hp; by eexists).
  assert (exists pkt, Sign (NewPacket (e_ver e) (e_unix e) XbcTransactionAccepting (AcceptingBody_Marshal (tpl_body pl))) priv = Ok pkt)
    as [pkt Hpkt] by (unfold Sign; rewrite Hpub; by eexists).
  rewrite Hpub, Hpkt.
  destruct (commitTake_done e (tpl_key pl) (tp_FromAddress p) (tp_ToAddress p) pkt priv pub (tpl_proofs pl) (tpl_usedCoins pl) (tpl_feeInputs pl)
    n o Ho Hid Hio) as (n' & Hc & Hsess).
  pose proof (commitTake_store e (tpl_key pl) (tp_FromAddress p) (tp_ToAddress p) pkt priv pub (tpl_proofs pl) (tpl_usedCoins pl) (tpl_feeInputs pl) n) as Hst.
  rewrite Hc in Hst |- *. destruct Hst as (_ & o2 & Ho2 & Ho'). rewrite Ho'. exists pub, n'. split; [|done]. by rewrite Ho in Ho2; injection Ho2 as <-.
Qed.

(** The commit looks only whether the order is still there. A second take of
    an order whose first take has just gone out, planned from the book as it
    was before, therefore goes through whenever its own inputs are free: its
    reservation is not refused as "already accepted", the proofs, coins and
    fee inputs of the first take are replaced in the order, which no longer
    locks them, and the session loses the key of the packet that was sent. *)
Theorem second_take_replaces (e1 e2 : Env) (p1 p2 : TakeOrderParams) (pl1 pl2 : take_plan) (d1 d2 : list bytes)
    (n0 n : Node) (o1 : Order) (a b : Z) (priv : bytes) :
  finish_take e1 p1 pl1 d1 true n0 = (Good (Taken o1 a b), n) ->
  tpl_key pl2 = tpl_key pl1 -> tpl_key pl1 = orderKey (o_ID o1) ->
  (forall k, k ∈ fee_keys pl2 ++ fund_keys pl2 -> k ∉ lockedInfoLocked (n_store n)) ->
  NewPrivateKey 64 d2 = Ok priv -> zlen priv = 32 -> n_io n = [] ->
  exists st o2 n', reserve_take pl2 (n_store n) = (Good tt, st) /\
    finish_take e2 p2 pl2 d2 true (n <| n_store := st |>) = (Good (Taken o2 (tq_fromSize (tpl_quote pl2)) (tq_toSize (tpl_quote pl2))), n') /\
    o_UsedCoins o2 = tpl_usedCoins pl2 /\
    order_keys o2 = list_to_set (map utxoEntryKey (tpl_proofs pl2) ++ map utxoKey (tpl_feeInputs pl2)) /\
    exists s, n_sessions n' !! tpl_key pl1 = Some s /\ s_privKey s = priv.
Proof.
  intros H1 Hkey Hid Hfree Hk Hp Hio. apply finish_taken in H1 as (Ho & Hst & Hr).
  destruct (reserve_take_ok pl2 (n_store n) o1) as (st & Hres & Hord); [by rewrite Hkey|by rewrite Hst|by rewrite Hkey|done|].
  destruct (finish_goes_through e2 p2 pl2 d2 (n <| n_store := st |>) o1 priv) as (pub & n' & Hf & Hs); [|by rewrite Hkey|done..|].
  { rewrite Hkey. unfold get_order, Store_Get in *. cbn. by rewrite Hord. }
  exists st. do 2 eexists. split; [exact Hres|]. split; [exact Hf|]. split_and!; [done|done|]. by rewrite <- Hkey.
Qed.

End Twice.

(** The offer of the market is taken twice from the same view of the book. *)
Definition taken_twice : bool :=
  match market_plan rich_env [], market_plan other_env [] with
  | Good pl1, Good pl2 =>
      match finish_take rich_env (take_params []) pl1 [sample_priv] true market_node with
      | (Good (Taken o1 _ _), n) =>
          bool_decide (tpl_key pl1 = orderKey (o_ID o1)) && bool_decide (tpl_key pl2 = tpl_key pl1) && (length (n_io n) =? 0)%nat
          && forallb (fun k => negb (bool_decide (k ∈ lockedInfoLocked (n_store n)))) (fee_keys pl2 ++ fund_keys pl2)
      | _ => false
      end
  | _, _ => false
  end.

Lemma second_take_replaces_witness :
  exists pl1 pl2 o1 a b n st o2 n', market_plan rich_env [] = Good pl1 /\ market_plan other_env [] = Good pl2 /\
    finish_take rich_env (take_params []) pl1 [sample_priv] true market_node = (Good (Taken o1 a b), n) /\
    reserve_take pl2 (n_store n) = (Good tt, st) /\
    finish_take other_env (take_params []) pl2 [repeat x08 32] true (n <| n_store := st |>) =
      (Good (Taken o2 (tq_fromSize (tpl_quote pl2)) (tq_toSize (tpl_quote pl2))), n') /\
    o_UsedCoins o2 = tpl_usedCoins pl2.
Proof.
  assert (H : taken_twice = true) by (vm_compute; reflexivity). unfold taken_twice in H.
  destruct (market_plan rich_env []) as [pl1| |]; [|discriminate H..].
  destruct (market_plan other_env []) as [pl2| |]; [|discriminate H..].
  destruct (finish_take rich_env (take_params []) pl1 [sample_priv] true market_node) as [[[|o1 a b]| |] n] eqn:Hf; try discriminate H.
  apply andb_true_iff in H as [[[Hid Hkey]%andb_true_iff Hio]%andb_true_iff Hfree].
  apply bool_decide_eq_true in Hid, Hkey. apply Nat.eqb_eq, nil_length_inv in Hio.
  destruct (second_take_replaces rich_env other_env (take_params []) (take_params []) pl1 pl2 [sample_priv] [repeat x08 32] market_node n o1 a b (repeat x08 32))
    as (st & o2 & n' & Hr & Hf2 & Hu & _); [|exact Hkey|exact Hid| |vm_compute; reflexivity|reflexivity|exact Hio|].
  - exact Hf.
  - intros k Hk. rewrite forallb_forall in Hfree. apply list_elem_of_In, Hfree, negb_true_iff, bool_decide_eq_false in Hk. exact Hk.
  - exists pl1, pl2, o1, a, b, n, st, o2, n'. split_and!; done.
Defined.
