(* ===== verification/MakeLaws.v ===== *)
(** * What an offer promises

    An order that is announced says what was asked for, under an id that is
    the hash of its terms and of a signature of its first output, and carries
    proofs of exactly the outputs it is funded with ([MakeOrder_sound]); the
    transaction that splits the funds of a partial order spends no more than
    its inputs ([prep_balances]).  Unlike a take, a make reserves nothing:
    [makes_share_funding]. *)

From S2P Require Import Prelude Sort Sha256 GoLib Digits Hex Json Codec Bodies Packet Secp Signer Conf Coin Address Script Tx Price.
From S2P Require Import Wallet Deposit Order Float XAmount Store Utxos Select SelectLaws Fee Session Persist Node Resume Sweep Track Commands Take Make.
From S2P Require Import Engine DepositLaws Sample Market Frame TakeLaws.

Section Sound.
Context (ripemd160 : bytes -> bytes) {secp : Secp} (uni : Unicode) {gosort : GoSort} {sortlaws : @GoSortLaws gosort}.

Lemma makeable_spec locked p us u :
  u ∈ makeable locked p us <-> u ∈ us /\ utxoKey u ∉ locked /\ (mp_UseAllFunds p = true \/ u_Address u = mp_MakerAddress p).
Proof.
  unfold makeable. rewrite list_elem_of_In, filter_In, <- list_elem_of_In, andb_true_iff, negb_true_iff, bool_decide_eq_false, orb_true_iff,
    bool_decide_eq_true. done.
Qed.

(** Outputs of the maker's wallet, each used once, none locked, of the maker's
    own address unless all funds may be used; enough for a whole order, and
    for a partial one what its selection promises. *)
Definition selected (e : Env) (st : Store) (p : MakeOrderParams) (q : make_quote) (sh : partial_shape) (exact : bool) (outs : list Utxo) : Prop :=
  exists all, ListUnspent (mq_conn q) (cc_Confirmations (mq_cc q)) = inl all /\ outs ⊆+ all /\
    Forall (fun u => utxoKey u ∉ LockedUtxoInfoFor (mp_Maker p) st /\ (mp_UseAllFunds p = true \/ u_Address u = mp_MakerAddress p)) outs /\
    if is_partial p
    then exists cand amount fees, partial_ok (Some (mq_cc q)) (request (mq_fromAmt q) sh) cand (outs, amount, fees, exact)
    else covers (min_amount (Some (mq_cc q)) (f64_div (f64_of (mq_fromAmt q)) (f64_of coinScale))) (order_net (Some (mq_cc q))) outs.

Lemma make_funding_ok e st p q sh outs proofs exact :
  make_funding uni e st p q sh = Good (outs, proofs, exact) ->
  selected e st p q sh exact outs /\
  buildUtxoProofs uni (mq_conn q) outs (default zero_coin (Get (e_Coins e) (mp_Maker p))) = Ok (inl proofs).
Proof.
  intros H. unfold make_funding in H. rpc_inv. match goal with H : order_proofs _ _ _ _ _ = Good _ |- _ => apply order_proofs_good in H end.
  split; [|done]. match goal with H : ListUnspent _ _ = inl ?l |- _ => rename l into all end.
  exists all. split; [done|]. set (cand := makeable _ p all) in *.
  assert (outs ⊆+ cand /\ if is_partial p
    then exists c amount fees, partial_ok (Some (mq_cc q)) (request (mq_fromAmt q) sh) c (outs, amount, fees, exact)
    else covers (min_amount (Some (mq_cc q)) (f64_div (f64_of (mq_fromAmt q)) (f64_of coinScale))) (order_net (Some (mq_cc q))) outs) as [Hs Hc].
  { destruct (is_partial p).
    - destruct (selectPartialUtxos _ _ cand) as [[[[o am] f] ex]|] eqn:Es; [|done]. match goal with H : _ = Some (outs, exact) |- _ => injection H as <- <- end.
      apply selectPartialUtxos_ok in Es. split; [by destruct Es|]. by exists cand, am, f.
    - destruct (selectUtxos _ cand _ _) as [[[o am] f]|] eqn:Es; [|done]. match goal with H : _ = Some (outs, exact) |- _ => injection H as <- <- end.
      apply selectUtxos_spec in Es as (? & _ & _ & _ & ?). done. }
  split_and!; [|apply Forall_forall; intros u Hu; apply (elem_of_submseteq _ _ u Hu), makeable_spec in Hs as (_ & ? & ?); done|done].
  rewrite Hs. apply filter_sub.
Qed.

Lemma prep_used_txid cc addr txid total vouts i new : Forall (fun u => u_TxID u = txid) (prep_used cc addr txid total vouts i new).
Proof.
  revert i new; induction vouts as [|vo vouts IH]; intros i new; cbn [prep_used]; [constructor|].
  destruct (_ <=? 0); constructor; [done|]. apply IH.
Qed.

(** The final funding: the selection, or outputs of the prep transaction after those that fit already. *)
Lemma make_split_ok e p q sh outs proofs exact n funding final prepTx n' :
  buildUtxoProofs uni (mq_conn q) outs (default zero_coin (Get (e_Coins e) (mp_Maker p))) = Ok (inl proofs) ->
  make_split uni e p q sh outs proofs exact n = (Good (funding, final, prepTx), n') ->
  n_store n' = n_store n /\
  buildUtxoProofs uni (mq_conn q) funding (default zero_coin (Get (e_Coins e) (mp_Maker p))) = Ok (inl final) /\
  match prepTx with
  | None => funding = outs /\ (exact = true -> is_partial p = true -> zlen funding <= maxPartialOrderUtxos)
  | Some txid => is_partial p = true /\ exact = false /\ zlen funding <= maxPartialOrderUtxos /\
      Forall (fun u => u ∈ outs \/ u_TxID u = txid) funding
  end.
Proof.
  intros Hp H. unfold make_split in H. destruct (negb (is_partial p)) eqn:Ep.
  { injection H as <- <- <- <-. apply negb_true_iff in Ep. split_and!; try done. by rewrite Ep. }
  apply negb_false_iff in Ep. destruct exact.
  { injection H as H <-. rpc_inv. split_and!; try done. intros _ _. zbool. lia. }
  destruct (negb (mp_AutoSplit p)); [by injection H as <- <- <- <-|].
  destruct (make_prep uni e p q sh outs) as [[[[s vouts] signed] txid]| |] eqn:Em; [|done..].
  destruct (if mp_DryRun p then _ else _) as [ok m] eqn:Eo. destruct ok; [|done]. cbn [negb] in H. injection H as H <-. rpc_inv.
  match goal with H : prep_funding _ _ _ _ _ _ _ = Good _ |- _ => unfold prep_funding in H end. rpc_inv.
  match goal with H : order_proofs _ _ _ _ _ = Good _ |- _ => apply order_proofs_good in H end.
  assert (n_store m = n_store n) as Hst.
  { destruct (mp_DryRun p); [by injection Eo as <-|]. destruct (SendRawTransaction _ _); [injection Eo as <-|done].
    unfold recordBroadcast. by repeat case_match. }
  split_and!; try done; [zbool; lia|]. apply Forall_app. split.
  - unfold make_prep in Em. rpc_inv. apply Forall_impl with (P := fun u => u ∈ outs); [|by left].
    unfold split_funding. assert (forall l t, Forall (fun u => u ∈ outs) (sp_existing t) -> (forall u, u ∈ l -> u ∈ outs) ->
      Forall (fun u => u ∈ outs) (sp_existing (fold_left (split_one sh) l t))) as Hfold.
    { induction l as [|v l IH]; intros t Ht Hl; [done|]. cbn [fold_left]. apply IH; [|intros u Hu; apply Hl; by right].
      unfold split_one. destruct (_ && _); cbn; [|done]. apply Forall_app. split; [done|]. constructor; [apply Hl; by left|constructor]. }
    apply Hfold; [constructor|done].
  - eapply Forall_impl; [apply prep_used_txid|]. intros u ->. by right.
Qed.

Lemma make_checks_ok e p q : make_checks uni e p = Good q ->
  0 < mq_fromAmt q <= maxXSize /\ 0 < mq_toAmt q <= maxXSize /\ mp_MakerAddress p <> mp_TakerAddress p /\
  lexicalAmount (mp_MakerSize p) = inl (mq_fromAmt q) /\ lexicalAmount (mp_TakerSize p) = inl (mq_toAmt q).
Proof.
  intros H. unfold make_checks, lexical in H.
  destruct (lexicalAmount (mp_MakerSize p)) as [fa|] eqn:R1; [|by rpc_inv]. destruct (lexicalAmount (mp_TakerSize p)) as [ta|] eqn:R2; [|by rpc_inv].
  pose proof (lexicalAmount_range _ _ R1). pose proof (lexicalAmount_range _ _ R2). rpc_inv. cbn [mq_fromAmt mq_toAmt].
  repeat match goal with H : negb _ = true |- _ => apply negb_true_iff in H | H : _ || _ = false |- _ => apply orb_false_iff in H as [? ?]
    | H : bool_decide _ = false |- _ => apply bool_decide_eq_false in H end.
  zbool. split_and!; try lia; done.
Qed.

Lemma make_record_ok p b mPub height funding prepTx hub : let o := make_record ripemd160 p b mPub height funding prepTx hub in
  o_ID o = Order_ID b /\ o_FromCurrency o = Order_FromCurrency b /\ o_FromAmount o = Order_FromAmount b /\
  o_ToCurrency o = Order_ToCurrency b /\ o_ToAmount o = Order_ToAmount b /\ o_Mine o = true /\ o_Status o = "open"%string /\
  o_Utxos o = Order_Utxos b /\ o_PartialAllowed o = Order_PartialAllowed b /\ o_PrepTx o = default [] prepTx /\
  o_UsedCoins o = funding /\ o_MakerKey o = hexEncode mPub.
Proof. destruct hub; repeat split. Qed.

(** A packet of a make signed with the key of the order, over this body. *)
Definition announced (e : Env) (pl : make_plan) : Prop :=
  Sign (NewPacket (e_ver e) (e_unix e) XbcTransaction (OrderBody_Marshal (mpl_body pl))) (mpl_priv pl) = Ok (mpl_packet pl) /\
  CompressedPubKey (mpl_priv pl) = Ok (mpl_pub pl) /\ o_MakerKey (mpl_order pl) = hexEncode (mpl_pub pl).

(** C14. An order that is announced: the amounts are positive and within the
    limits, the addresses differ and decode; body and record carry the same
    terms, id and proofs; the id is the hash of the terms and the signature of
    the first proof; the proofs are those of exactly the outputs that fund the
    order, which are a sound selection of the wallet's outputs or, after a
    split, at most ten outputs of the selection and of the prep transaction;
    and the packet is the body signed with the order's key. *)
Theorem MakeOrder_sound (e : Env) (p : MakeOrderParams) (q : make_quote) (hub : option bytes) (bh : bytes) (height : Z) (draws : list bytes)
    (n n' : Node) (pl : make_plan) :
  make_checks uni e p = Good q ->
  make_build ripemd160 uni e p q hub bh height draws n = (Good pl, n') ->
  let b := mpl_body pl in let o := mpl_order pl in
  0 < mq_fromAmt q <= maxXSize /\ 0 < mq_toAmt q <= maxXSize /\ mp_MakerAddress p <> mp_TakerAddress p /\
  lexicalAmount (mp_MakerSize p) = inl (mq_fromAmt q) /\ lexicalAmount (mp_TakerSize p) = inl (mq_toAmt q) /\
  n_store n' = n_store n /\
  (o_ID o = Order_ID b /\ o_FromCurrency o = mp_Maker p /\ o_FromAmount o = mq_fromAmt q /\ o_ToCurrency o = mp_Taker p /\
   o_ToAmount o = mq_toAmt q /\ o_Mine o = true /\ o_Status o = "open"%string /\ o_Utxos o = Order_Utxos b /\
   o_PartialAllowed o = is_partial p) /\
  (Order_FromCurrency b = mp_Maker p /\ Order_FromAmount b = mq_fromAmt q /\ Order_ToCurrency b = mp_Taker p /\
   Order_ToAmount b = mq_toAmt q /\ Order_From b = mq_fromID q /\ Order_To b = mq_toID q) /\
  (exists pr rest, Order_Utxos b = pr :: rest /\
     Order_ID b = sha256dOrderID (mq_fromID q) (mp_Maker p) (mq_fromAmt q) (mq_toID q) (mp_Taker p) (mq_toAmt q) (e_now e) bh (Utxo_Signature pr)) /\
  buildUtxoProofs uni (mq_conn q) (o_UsedCoins o) (default zero_coin (Get (e_Coins e) (mp_Maker p))) = Ok (inl (Order_Utxos b)) /\
  (exists sh exact outs, selected e (n_store n) p q sh exact outs /\
     (if mpl_pending pl then is_partial p = true /\ zlen (o_UsedCoins o) <= maxPartialOrderUtxos /\
        Forall (fun u => u ∈ outs \/ u_TxID u = o_PrepTx o) (o_UsedCoins o)
      else o_UsedCoins o = outs)) /\
  announced e pl.
Proof.
  intros Hc Hb. cbv zeta. destruct (make_checks_ok e p q Hc) as (H1 & H2 & H3 & H4 & H5). do 5 (split; [done|]).
  unfold make_build in Hb. destruct (_ ≫= _) as [[[[[[sh outs] proofs] exact] mPriv] mPub]| |] eqn:Hpre in Hb; [|done..]. rpc_inv.
  match goal with H : make_funding _ _ _ _ _ _ = Good _ |- _ => apply make_funding_ok in H as [Hsel Hpr] end.
  destruct (make_split uni e p q sh outs proofs exact n) as [r m] eqn:Hs. injection Hb as Hb <-. rpc_inv. rename l0 into final, l into funding.
  destruct (make_split_ok _ _ _ _ _ _ _ _ _ _ _ _ Hpr Hs) as (Hst & Hfp & Hpt).
  match goal with H : order_id e p q bh final = Good ?i |- _ => rename i into id, H into Hid end.
  cbn [mpl_order mpl_body mpl_packet mpl_priv mpl_pub mpl_pending]. set (b := make_body e p q sh bh id final).
  destruct (make_record_ok p b mPub height funding o hub) as (R1 & R2 & R3 & R4 & R5 & R6 & R7 & R8 & R9 & R10 & R11 & R12).
  rewrite R1, R2, R3, R4, R5, R6, R7, R8, R9, R11. split; [done|]. split; [by split_and!|]. split; [by split_and!|].
  split.
  { unfold order_id in Hid. destruct final as [|pr rest]; [done|]. injection Hid as Hid. by exists pr, rest. }
  split; [done|]. split.
  - exists sh, exact, outs. split; [done|]. destruct o as [txid|]; cbn [bool_decide is_Some].
    + rewrite bool_decide_true by done. rewrite R10. by destruct Hpt as (? & _ & ? & ?).
    + rewrite bool_decide_false by (by intros []). by destruct Hpt.
  - unfold announced. cbn [mpl_order mpl_body mpl_packet mpl_priv mpl_pub]. by rewrite R12.
Qed.

End Sound.

(** A partial order whose funds are split first. *)
Lemma MakeOrder_sound_witness :
  exists q pl n', make_checks no_unicode rich_env (make_params true "2" "0.25") = Good q /\
    make_build sample_ripemd160 no_unicode rich_env (make_params true "2" "0.25") q (Some (pub_of sample_priv')) (repeat x0b 32) 1000 [sample_priv] empty_node
      = (Good pl, n') /\
    exists pr rest, Order_Utxos (mpl_body pl) = pr :: rest /\ Order_ID (mpl_body pl) = sha256dOrderID (mq_fromID q) tick_a (mq_fromAmt q) (mq_toID q)
      tick_b (mq_toAmt q) now0 (repeat x0b 32) (Utxo_Signature pr).
Proof.
  destruct (is_good_ex (make_checks no_unicode rich_env (make_params true "2" "0.25"))) as [q Hq]; [by vm_compute|].
  assert (is_good (market_make rich_env (make_params true "2" "0.25") [sample_priv]) = true) as Hm by (vm_compute; reflexivity).
  unfold market_make, market_quote in Hm. rewrite Hq in Hm. cbn [mbind rpc_bind] in Hm. apply is_good_ex in Hm as [pl Hpl].
  destruct (make_build sample_ripemd160 no_unicode rich_env (make_params true "2" "0.25") q (Some (pub_of sample_priv')) (repeat x0b 32) 1000 [sample_priv]
    empty_node) as [r n'] eqn:Hb. cbn in Hpl. subst r.
  exists q, pl, n'. split; [exact Hq|]. split; [exact Hb|].
  apply (MakeOrder_sound sample_ripemd160 no_unicode rich_env (make_params true "2" "0.25") q (Some (pub_of sample_priv')) (repeat x0b 32) 1000
    [sample_priv] empty_node n' pl Hq Hb).
Defined.

(** ** The prep transaction *)

Definition total_of (vouts : list prepVout) : Z := foldr (fun vo t => pv_amount vo + t) 0 vouts.
Definition sum_amount (us : list Utxo) : Z := foldr (fun u t => u_Amount u + t) 0 us.

Lemma sum_amount_app l k : sum_amount (l ++ k) = sum_amount l + sum_amount k.
Proof. induction l; cbn; [done|]. unfold sum_amount in *. lia. Qed.

Lemma sum_amount_perm l k : l ≡ₚ k -> sum_amount l = sum_amount k.
Proof. induction 1; cbn; unfold sum_amount in *; lia. Qed.

Lemma sum_amount_nonneg l : Forall (fun u => 0 <= u_Amount u) l -> 0 <= sum_amount l.
Proof. induction 1; cbn; unfold sum_amount in *; lia. Qed.

Lemma vouts_native_spec l : vouts_native l = wrap 64 (total_of l).
Proof.
  unfold vouts_native. assert (forall t, fold_left (fun t vo => wrap 64 (t + pv_amount vo)) l (wrap 64 t) = wrap 64 (t + total_of l)) as H.
  { induction l as [|vo l IH]; intros t; cbn [fold_left total_of foldr]; [by rewrite Z.add_0_r|].
    rewrite wrap_add_l, IH. f_equal. unfold total_of. lia. }
  exact (H 0).
Qed.

Lemma split_funding_spec sh outs : let s := split_funding sh outs in
  sp_existing s ++ sp_vins s ≡ₚ outs /\ sp_vinsTotal s = wrap 64 (sum_amount (sp_vins s)).
Proof.
  unfold split_funding. assert (forall l t, sp_vinsTotal t = wrap 64 (sum_amount (sp_vins t)) ->
    let s := fold_left (split_one sh) l t in sp_existing s ++ sp_vins s ≡ₚ (sp_existing t ++ sp_vins t) ++ l /\
    sp_vinsTotal s = wrap 64 (sum_amount (sp_vins s))) as H; [|by apply (H outs)].
  induction l as [|u l IH]; intros t Ht; cbn [fold_left]; [by rewrite app_nil_r|].
  set (t' := split_one sh t u). assert (sp_existing t' ++ sp_vins t' ≡ₚ (sp_existing t ++ sp_vins t) ++ [u] /\
    sp_vinsTotal t' = wrap 64 (sum_amount (sp_vins t'))) as [Hp Hs].
  { unfold t', split_one. destruct (_ && _); cbn.
    - split; [|done]. rewrite <- !app_assoc. by rewrite (Permutation_app_comm [u]), app_assoc.
    - split; [by rewrite app_assoc|]. rewrite Ht, wrap_add_l, sum_amount_app. f_equal. cbn. lia. }
  destruct (IH t' Hs) as [IH1 IH2]. split; [|done]. rewrite IH1, Hp, <- app_assoc. done.
Qed.

Lemma total_of_nonneg l : Forall (fun vo => 0 <= pv_amount vo) l -> 0 <= total_of l.
Proof. induction 1; cbn; unfold total_of in *; lia. Qed.

Lemma total_of_app l k : total_of (l ++ k) = total_of l + total_of k.
Proof. induction l; cbn; [done|]. unfold total_of in *. lia. Qed.

Lemma fromXBridgeAmt_nonneg c v : 0 <= fromXBridgeAmt c v.
Proof. unfold fromXBridgeAmt. apply Z.div_pos; [by apply wrap_ok|done]. Qed.

Lemma split_vouts_nonneg coin addr sh r : Forall (fun vo => 0 <= pv_amount vo) (split_vouts coin addr sh r).
Proof.
  unfold split_vouts. apply Forall_app. split.
  - apply Forall_forall. intros vo Hvo. apply list_elem_of_In, repeat_spec in Hvo as ->. apply fromXBridgeAmt_nonneg.
  - destruct (_ && _); constructor; [apply fromXBridgeAmt_nonneg|constructor].
Qed.

Lemma estimateFee_nonneg cc nIn nOut : (forall c, cc = Some c -> 0 <= cc_MinTxFee c) -> 0 <= estimateFee cc nIn nOut.
Proof.
  intros H. unfold estimateFee. destruct cc as [c|]; [|by apply wrap_ok]. specialize (H c eq_refl).
  destruct (_ && _); [done|]. destruct (_ =? 0); by apply wrap_ok.
Qed.

(** An output that fits: worth one part and its fees. *)
Definition fits (sh : partial_shape) (u : Utxo) : bool := camount u =? wrap 64 (ps_minFrom sh + ps_perUtxoFees sh).

(** The outputs that fit are kept, the first of them, as many as parts are wanted. *)
Lemma split_funding_fits sh outs : 0 <= ps_count sh -> let s := split_funding sh outs in
  sp_existing s = take (Z.to_nat (ps_count sh)) (List.filter (fits sh) outs) /\ sp_remaining s = ps_count sh - zlen (sp_existing s).
Proof.
  intros Hc. unfold split_funding. assert (forall l t, 0 <= sp_remaining t ->
    let s := fold_left (split_one sh) l t in let new := take (Z.to_nat (sp_remaining t)) (List.filter (fits sh) l) in
    sp_existing s = sp_existing t ++ new /\ sp_remaining s = sp_remaining t - zlen new) as H.
  { induction l as [|u l IH]; intros t Ht; cbn [fold_left List.filter]; [by rewrite take_nil, app_nil_r, Z.sub_0_r|].
    unfold split_one at 2 4. fold (fits sh u). destruct (fits sh u); cbn [andb].
    - destruct (Z.ltb_spec 0 (sp_remaining t)) as [Hr|Hr].
      + match goal with |- context [fold_left _ _ ?t'] => destruct (IH t') as [-> ->]; [cbn; lia|] end. cbn [sp_existing sp_remaining].
        replace (Z.to_nat (sp_remaining t)) with (S (Z.to_nat (sp_remaining t - 1))) by lia. cbn [take].
        rewrite <- app_assoc. split; [done|]. unfold zlen. cbn [length]. lia.
      + match goal with |- context [fold_left _ _ ?t'] => destruct (IH t') as [-> ->]; [done|] end. cbn [sp_existing sp_remaining].
        replace (Z.to_nat (sp_remaining t)) with 0%nat by lia. done.
    - match goal with |- context [fold_left _ _ ?t'] => destruct (IH t') as [-> ->]; [done|] end. done. }
  destruct (H outs (mkSplit [] [] 0 (ps_count sh) (i64 (ps_voutsTotal sh))) Hc) as [E1 E2]. cbn [sp_existing sp_remaining app] in E1, E2.
  split; [exact E1|]. by rewrite E2, E1.
Qed.

Lemma outputs_sum_vouts ver ins dest wt t vouts :
  outputs_sum (mkTx ver 0 ins (map (fun vo => mkTxOut (pv_amount vo) dest) vouts) false wt t) = total_of vouts.
Proof. unfold outputs_sum, sum_amounts. cbn. induction vouts as [|vo l IH]; cbn in *; [done|]. unfold total_of in *. cbn. lia. Qed.

(** What [buildPrepTx] hands to the wallet, and what it makes of the answer. *)
Lemma buildPrepTx_spec uni conn clock cc coin vins vouts signed txid :
  buildPrepTx uni conn clock cc coin vins vouts = Good (signed, txid) ->
  exists first ins dest raw, head vouts = Some first /\ legacyOutputScript uni coin (pv_addr first) = Good dest /\
    funding_ins vins = Ok ins /\
    SignRawTransaction conn (EncodeToString (Tx_Serialize (mkTx (tx_version cc) 0 ins (map (fun vo => mkTxOut (pv_amount vo) dest) vouts)
      false (TxWithTimeField coin) (wrap 32 clock)))) (prev_txs vins) = inl (signed, true) /\
    DecodeString signed = Some raw /\ txid = txIDFromBytes raw.
Proof.
  unfold buildPrepTx. intros H. apply rpc_bind_good in H as (first & Hfirst%need_good & H). apply rpc_bind_good in H as (dest & Hdest & H).
  apply rpc_bind_good in H as (ins & Hins%need_r_good & H). apply rpc_bind_good in H as ([sg complete] & Hsign%need_w_good & H).
  apply rpc_bind_good in H as ([] & Hc%ensure_good & H). apply rpc_bind_good in H as (id & Hid & H). injection H as -> ->.
  unfold txidOfRawTx in Hid. apply rpc_bind_good in Hid as (raw & Hraw%need_good & Hid). injection Hid as <-.
  exists first, ins, dest, raw. subst complete. split_and!; done.
Qed.


Lemma prep_outputs_vouts cc coin addr sh s vouts : prep_outputs cc coin addr sh s = Good vouts ->
  let base := split_vouts coin addr sh (sp_remaining s) in
  let fee := estimateFee (Some cc) (zlen (sp_vins s)) (zlen base + 1) in
  let change := wrap 64 (sp_vinsTotal s - vouts_native base - fee) in
  wrap 64 (vouts_native base + fee) < sp_vinsTotal s /\
  vouts = (if isDustNative (f64_div (f64_of change) (f64_of (cc_Coin cc))) (Some cc) (cc_Coin cc) then base else base ++ [mkPrepVout addr change]).
Proof.
  unfold prep_outputs. cbv zeta. set (base := split_vouts _ _ _ _). set (fee := estimateFee _ _ _). clearbody base fee.
  intros H. rpc_inv. zbool. split; [lia|done].
Qed.

Lemma vouts_addr coin addr sh r change (b : bool) first :
  head (if b then split_vouts coin addr sh r else split_vouts coin addr sh r ++ [mkPrepVout addr change]) = Some first -> pv_addr first = addr.
Proof.
  assert (Forall (fun vo => pv_addr vo = addr) (split_vouts coin addr sh r)) as H.
  { unfold split_vouts. apply Forall_app. split; [|destruct (_ && _); by repeat constructor].
    apply Forall_forall. intros vo Hvo. by apply list_elem_of_In, repeat_spec in Hvo as ->. }
  intros E. destruct b; destruct (split_vouts coin addr sh r) as [|vo l]; cbn in E; try done; injection E as <-; try done;
    by apply Forall_cons in H as [? _].
Qed.

(** C23. The transaction that splits the funds of a partial order. The selection is
    shared out: the first outputs that are worth exactly one part with its fees,
    as many as parts are wanted, fund the order as they are, and all the others,
    and only they, are the inputs of the transaction. What the wallet is given to
    sign pays the missing parts and the remainder and, if it is no dust, the
    change, all to the maker's address, and the order's inputs come from the id
    of what it signed. As long as no sum overflows, outputs and fee are covered by
    the inputs, and are exactly these when there is change. *)
Theorem prep_balances (uni : Unicode) (e : Env) (p : MakeOrderParams) (q : make_quote) (sh : partial_shape) (outs : list Utxo)
    (s : split) (vouts : list prepVout) (signed txid : bytes) :
  make_prep uni e p q sh outs = Good (s, vouts, signed, txid) -> 0 <= ps_count sh ->
  Forall (fun u => 0 <= u_Amount u) outs -> sum_amount outs < 2 ^ 64 -> 0 <= cc_MinTxFee (mq_cc q) ->
  let coin := default zero_coin (Get (e_Coins e) (mp_Maker p)) in
  let base := split_vouts coin (mp_MakerAddress p) sh (ps_count sh - zlen (sp_existing s)) in
  let fee := estimateFee (Some (mq_cc q)) (zlen (sp_vins s)) (zlen base + 1) in
  let change := sum_amount (sp_vins s) - total_of base - fee in
  total_of base + fee < 2 ^ 64 ->
  (sp_existing s = take (Z.to_nat (ps_count sh)) (List.filter (fits sh) outs) /\ sp_existing s ++ sp_vins s ≡ₚ outs) /\
  (exists tx dest raw, legacyOutputScript uni coin (mp_MakerAddress p) = Good dest /\
    Forall2 (fun u i => reverseTxidHex (u_TxID u) = Some (op_Hash (in_PrevOut i)) /\ op_Index (in_PrevOut i) = u_Vout u /\
      in_Sequence i = seqFinal) (sp_vins s) (tx_Inputs tx) /\
    tx_Outputs tx = map (fun vo => mkTxOut (pv_amount vo) dest) vouts /\
    SignRawTransaction (mq_conn q) (EncodeToString (Tx_Serialize tx)) (prev_txs (sp_vins s)) = inl (signed, true) /\
    DecodeString signed = Some raw /\ txid = txIDFromBytes raw /\
    outputs_sum tx + fee <= sum_amount (sp_vins s) /\ (vouts <> base -> outputs_sum tx + fee = sum_amount (sp_vins s))) /\
  0 < change /\
  vouts = (if isDustNative (f64_div (f64_of change) (f64_of (cc_Coin (mq_cc q)))) (Some (mq_cc q)) (cc_Coin (mq_cc q)) then base
           else base ++ [mkPrepVout (mp_MakerAddress p) change]).
Proof.
  intros H Hc Ha Hsum Hmin. cbv zeta. unfold make_prep in H. cbv zeta in H.
  apply rpc_bind_good in H as (vouts' & Hv & H). apply rpc_bind_good in H as ([sg id] & Hb & H). injection H as <- -> -> ->.
  destruct (split_funding_spec sh outs) as [Hp Ht]. destruct (split_funding_fits sh outs Hc) as [Hfit Hrem].
  set (s := split_funding sh outs) in *. set (coin := default zero_coin _) in *.
  apply prep_outputs_vouts in Hv as [Hlt Hv]. rewrite Hrem in Hlt, Hv.
  set (base := split_vouts coin (mp_MakerAddress p) sh (ps_count sh - zlen (sp_existing s))) in *.
  set (fee := estimateFee _ _ _) in *. intros Hfits.
  assert (0 <= sum_amount (sp_vins s) < 2 ^ 64) as Hs.
  { apply sum_amount_perm in Hp as Hq. rewrite sum_amount_app in Hq. rewrite <- Hp in Ha. apply Forall_app in Ha as [He Hi].
    apply sum_amount_nonneg in He, Hi. lia. }
  assert (0 <= total_of base) as Hb0 by apply total_of_nonneg, split_vouts_nonneg.
  assert (0 <= fee) as Hf0 by (apply estimateFee_nonneg; by intros c [= <-]).
  rewrite (wrap_small 64) in Ht by done. rewrite vouts_native_spec, (wrap_small 64 (total_of base)), Ht in * by (unfold uint_ok; lia).
  rewrite (wrap_small 64) in Hlt by (unfold uint_ok; lia). rewrite (wrap_small 64) in Hv by (unfold uint_ok; lia).
  split; [done|]. split; [|split; [lia|exact Hv]].
  apply buildPrepTx_spec in Hb as (first & ins & dest & raw & Hfirst & Hdest & Hins & Hsign & Hraw & Hid).
  rewrite Hv in Hfirst. apply vouts_addr in Hfirst. rewrite Hfirst in Hdest.
  eexists _, dest, raw. split; [exact Hdest|]. split; [|split; [|split; [exact Hsign|]]]; [by apply funding_ins_ok|done|].
  rewrite outputs_sum_vouts. split; [done|]. split; [done|]. rewrite Hv. destruct (isDustNative _ _ _); [split; [lia|done]|].
  rewrite total_of_app. cbn. split; lia.
Qed.

Definition sample_make_prep : rpc (make_quote * partial_shape * (split * list prepVout * bytes * bytes)) :=
  q ← make_checks no_unicode rich_env (make_params true "2" "0.25");
  sh ← partial_shape_of (mq_cc q) (mq_fromAmt q) (make_params true "2" "0.25");
  r ← make_prep no_unicode rich_env (make_params true "2" "0.25") q sh [market_utxo x0c 1 250000000];
  Good (q, sh, r).

(** Four outputs of 0.25 AAA and their fees, and the change. *)
Lemma prep_balances_witness :
  exists q sh s vouts signed txid, make_prep no_unicode rich_env (make_params true "2" "0.25") q sh [market_utxo x0c 1 250000000] = Good (s, vouts, signed, txid) /\
    zlen vouts = 5 /\ exists tx dest, tx_Outputs tx = map (fun vo => mkTxOut (pv_amount vo) dest) vouts /\
      SignRawTransaction (mq_conn q) (EncodeToString (Tx_Serialize tx)) (prev_txs (sp_vins s)) = inl (signed, true).
Proof.
  assert (H : match sample_make_prep with
    | Good (q, sh, (s, vouts, _, _)) =>
        let base := split_vouts (default zero_coin (Get (e_Coins rich_env) tick_a)) (mp_MakerAddress (make_params true "2" "0.25")) sh
          (ps_count sh - zlen (sp_existing s)) in
        (zlen vouts =? 5) && (0 <=? ps_count sh) && (0 <=? cc_MinTxFee (mq_cc q))
          && (total_of base + estimateFee (Some (mq_cc q)) (zlen (sp_vins s)) (zlen base + 1) <? 2 ^ 64)
    | _ => false end = true) by (vm_compute; reflexivity).
  destruct sample_make_prep as [[[q sh] [[[s vouts] signed] txid]]| |] eqn:Hs; try discriminate H.
  unfold sample_make_prep in Hs. cbv zeta in H. apply andb_true_iff in H as [[[H1 H0]%andb_true_iff H2]%andb_true_iff H3].
  apply Z.eqb_eq in H1. apply Z.leb_le in H0, H2. apply Z.ltb_lt in H3.
  apply rpc_bind_good in Hs as (q' & _ & Hs). apply rpc_bind_good in Hs as (sh' & _ & Hs). apply rpc_bind_good in Hs as (r & Hp & Hs).
  assert (q' = q /\ sh' = sh /\ r = (s, vouts, signed, txid)) as (-> & -> & ->) by (split_and!; congruence).
  exists q, sh, s, vouts, signed, txid. split; [exact Hp|]. split; [exact H1|].
  assert (Forall (fun u => 0 <= u_Amount u) [market_utxo x0c 1 250000000]) as Hf by (constructor; [vm_compute; discriminate|constructor]).
  assert (sum_amount [market_utxo x0c 1 250000000] < 2 ^ 64) as Hsum by (vm_compute; reflexivity).
  destruct (prep_balances no_unicode rich_env (make_params true "2" "0.25") q sh [market_utxo x0c 1 250000000] s vouts signed txid Hp H0 Hf Hsum H2 H3)
    as (_ & (tx & dest & raw & _ & _ & Ho & Hsign & _) & _).
  exists tx, dest. split; [exact Ho|exact Hsign].
Defined.

(** ** Failure *)

(** Nothing is added to the book or to the sessions, and nothing in them changes. *)
Definition adds_nothing (n n' : Node) : Prop :=
  (forall k o, get_order n' k = Some o -> get_order n k = Some o) /\
  (forall k s, n_sessions n' !! k = Some s -> n_sessions n !! k = Some s).

Lemma same_adds_nothing n n' : n_store n' = n_store n -> n_sessions n' = n_sessions n -> adds_nothing n n'.
Proof. intros E1 E2. split; intros k x; unfold get_order; by rewrite ?E1, ?E2. Qed.

Section Failure.
Context (ripemd160 : bytes -> bytes) {secp : Secp} (uni : Unicode) {gosort : GoSort}.

Lemma make_hub_same e reg p n : let n' := snd (make_hub e reg p n) in n_store n' = n_store n /\ n_sessions n' = n_sessions n.
Proof.
  unfold make_hub, pickHub, hubExclusions. destruct (mp_DryRun p); [done|]. destruct reg as [pick|]; [|done]. cbv zeta.
  destruct (sort_by _ _) as [|k l]; [done|]. by destruct (pick _ (k :: l)).
Qed.

Lemma make_split_same e p q sh outs proofs exact n :
  let n' := snd (make_split uni e p q sh outs proofs exact n) in n_store n' = n_store n /\ n_sessions n' = n_sessions n.
Proof.
  unfold make_split. destruct (negb (is_partial p)); [done|]. destruct exact; [done|]. destruct (negb (mp_AutoSplit p)); [done|].
  destruct (make_prep _ _ _ _ _ _) as [[[[s vouts] hex] txid]| |]; [|done..]. destruct (mp_DryRun p); [done|].
  destruct (SendRawTransaction _ _); [|done]. cbn [negb]. unfold recordBroadcast. by repeat case_match.
Qed.

Lemma make_build_same e p q hub bh height draws n :
  let n' := snd (make_build ripemd160 uni e p q hub bh height draws n) in n_store n' = n_store n /\ n_sessions n' = n_sessions n.
Proof.
  unfold make_build. destruct (_ ≫= _) as [[[[[[sh outs] proofs] exact] mPriv] mPub]| |]; [|done..].
  pose proof (make_split_same e p q sh outs proofs exact n) as H. by destruct (make_split _ _ _ _ _ _ _ _ n).
Qed.

Lemma commitMake_spec e o ma ta priv pub secret pkt pending n :
  let '(ans, n') := commitMake ripemd160 e o ma ta priv pub secret pkt pending n in
  match ans with
  | Done => st_orders (n_store n') = <[orderKey (o_ID o) := o]> (st_orders (n_store n))
  | _ => adds_nothing n n'
  end.
Proof.
  unfold commitMake. cbv zeta. set (id := hexEncode (o_ID o)). set (n1 := add_session id _ _).
  assert (n_store n1 = Add o (n_store n) /\ n_sessions n1 = <[id := newMakerSession ripemd160 (e_now e) (n_nextGen n) o ma ta priv pub secret]> (n_sessions n))
    as [E1 F1] by done. clearbody n1.
  set (undo := fun m : Node => m <| n_sessions ::= delete id |> <| n_store ::= Remove id |>).
  assert (forall m, n_store m = n_store n1 -> n_sessions m = n_sessions n1 -> adds_nothing n (undo m)) as Hundo.
  { intros m Em Fm. unfold undo. split; intros k x; unfold get_order, Store_Get; cbn; rewrite ?Em, ?Fm, ?E1, ?F1; cbn; intros [Hne H]%lookup_delete_Some;
      by rewrite lookup_insert_ne in H by exact Hne. }
  destruct pending.
  { unfold persist. destruct (negb _); cbn; by rewrite E1. }
  pose proof (store_persistNow e n1) as E2. pose proof (sess_persistNow e n1) as F2. destruct (persistNow e n1) as [ok n2]. cbn [snd] in *.
  destruct ok; cbn [negb]; [|by apply Hundo].
  pose proof (store_write_packet (o_HubAddress o) pkt n2) as E3. pose proof (sess_write_packet (o_HubAddress o) pkt n2) as F3.
  destruct (write_packet _ _ _) as [ok n3]. cbn [snd] in *. destruct ok; [by rewrite E3, E2, E1|].
  destruct (Hundo n3) as [H1 H2]; [congruence..|]. split; intros k x; unfold get_order; rewrite ?store_persistNow, ?sess_persistNow; [apply H1|apply H2].
Qed.

(** A make that does not end with an order in the book leaves nothing behind in
    it or among the sessions: whatever failed (an argument, the hub, the funds,
    a signature, the disk or the connection), and also when it was a dry run
    or the daemon is stopping. *)
Theorem failed_make_adds_nothing (e : Env) (reg : option (list bytes -> list bytes -> option bytes)) (p : MakeOrderParams) (bh : bytes)
    (height : Z) (draws : list bytes) (secret : bytes) (running : bool) (n : Node) :
  let '(r, n') := MakeOrder ripemd160 uni e reg p bh height draws secret running n in
  match r with
  | Good (Made (Some o)) => get_order n' (orderKey (o_ID o)) = Some o
  | _ => adds_nothing n n'
  end.
Proof.
  unfold MakeOrder. destruct (make_checks uni e p) as [q| |]; [|by apply same_adds_nothing..].
  pose proof (make_hub_same e reg p n) as Hh. destruct (make_hub e reg p n) as [h m1]. cbn in Hh. destruct Hh as [E1 F1].
  destruct h as [hub| |]; [|by apply same_adds_nothing..].
  pose proof (make_build_same e p q hub bh height draws m1) as Hb. destruct (make_build _ _ _ _ _ _ _ _ _ m1) as [r m2]. cbn in Hb. destruct Hb as [E2 F2].
  rewrite E1 in E2. rewrite F1 in F2. destruct r as [pl| |]; [|by apply same_adds_nothing..].
  unfold make_commit. destruct (mp_DryRun p); [by apply same_adds_nothing|]. destruct running; [|by apply same_adds_nothing]. cbn [negb].
  pose proof (commitMake_spec e (mpl_order pl) (mp_MakerAddress p) (mp_TakerAddress p) (mpl_priv pl) (mpl_pub pl) secret (mpl_packet pl) (mpl_pending pl) m2) as Hc.
  destruct (commitMake _ _ _ _ _ _ _ _ _ _ m2) as [ans m3]. destruct ans.
  - change (hexEncode (o_ID (mpl_order pl))) with (orderKey (o_ID (mpl_order pl))).
    assert (get_order m3 (orderKey (o_ID (mpl_order pl))) = Some (mpl_order pl)) as Hg
      by (unfold get_order, Store_Get; rewrite Hc; apply lookup_insert_eq).
    by rewrite Hg.
  - destruct Hc as [H1 H2]. split; intros k x Hx; [apply H1 in Hx; unfold get_order in *; by rewrite <- E2|apply H2 in Hx; by rewrite <- F2].
  - destruct Hc as [H1 H2]. split; intros k x Hx; [apply H1 in Hx; unfold get_order in *; by rewrite <- E2|apply H2 in Hx; by rewrite <- F2].
Qed.

Lemma commitMake_done e o ma ta priv pub secret pkt pending n :
  n_io n = [] -> exists n', commitMake ripemd160 e o ma ta priv pub secret pkt pending n = (Done, n') /\ n_io n' = [].
Proof.
  intros Hio. unfold commitMake. cbv zeta. set (n1 := add_session _ _ _). assert (n_io n1 = []) as H1 by done. clearbody n1.
  destruct pending; [eexists; split; [done|]; unfold persist; by destruct (negb _)|].
  unfold persistNow, write_packet, next_io. destruct (negb (e_DataDir e)); cbn; rewrite H1; cbn; rewrite ?H1; eexists; by split.
Qed.

(** The commit of a make does not look at what the order spends: of two makes
    that selected their funding from the same view of the book, both go
    through, even with the same outputs, which each of the two orders then
    promises and locks. *)
Theorem makes_share_funding (e1 e2 : Env) (p1 p2 : MakeOrderParams) (pl1 pl2 : make_plan) (sec1 sec2 : bytes) (n : Node) :
  mp_DryRun p1 = false -> mp_DryRun p2 = false -> n_io n = [] ->
  let o1 := mpl_order pl1 in let o2 := mpl_order pl2 in
  orderKey (o_ID o1) <> orderKey (o_ID o2) -> o_UsedCoins o1 = o_UsedCoins o2 ->
  exists n1 n2, make_commit ripemd160 e1 p1 pl1 sec1 true n = (Good (Made (Some o1)), n1) /\
    make_commit ripemd160 e2 p2 pl2 sec2 true n1 = (Good (Made (Some o2)), n2) /\
    get_order n2 (orderKey (o_ID o1)) = Some o1 /\ get_order n2 (orderKey (o_ID o2)) = Some o2.
Proof.
  intros Hd1 Hd2 Hio o1 o2 Hne _. unfold make_commit. rewrite Hd1, Hd2. cbn [negb]. fold o1 o2.
  destruct (commitMake_done e1 o1 (mp_MakerAddress p1) (mp_TakerAddress p1) (mpl_priv pl1) (mpl_pub pl1) sec1 (mpl_packet pl1) (mpl_pending pl1) n Hio)
    as (n1 & H1 & Hio1).
  destruct (commitMake_done e2 o2 (mp_MakerAddress p2) (mp_TakerAddress p2) (mpl_priv pl2) (mpl_pub pl2) sec2 (mpl_packet pl2) (mpl_pending pl2) n1 Hio1)
    as (n2 & H2 & _).
  pose proof (commitMake_spec e1 o1 (mp_MakerAddress p1) (mp_TakerAddress p1) (mpl_priv pl1) (mpl_pub pl1) sec1 (mpl_packet pl1) (mpl_pending pl1) n) as S1.
  pose proof (commitMake_spec e2 o2 (mp_MakerAddress p2) (mp_TakerAddress p2) (mpl_priv pl2) (mpl_pub pl2) sec2 (mpl_packet pl2) (mpl_pending pl2) n1) as S2.
  rewrite H1 in S1. rewrite H2 in S2. exists n1, n2. rewrite H1, H2. unfold get_order, Store_Get, orderKey in *.
  rewrite S2, S1, !lookup_insert_eq, lookup_insert_ne by done. rewrite lookup_insert_eq. done.
Qed.

End Failure.

(** Two offers, for 2 and for 3 BBB, funded with the same output. *)
Lemma makes_share_funding_witness :
  exists pl1 pl2 n1 n2, market_make rich_env (make_params false "2" "") [sample_priv] = Good pl1 /\
    market_make rich_env (make_params false "3" "") [sample_priv'] = Good pl2 /\
    map utxoKey (o_UsedCoins (mpl_order pl1)) = [utxoKey (market_utxo x0c 1 250000000)] /\ o_UsedCoins (mpl_order pl1) = o_UsedCoins (mpl_order pl2) /\
    make_commit sample_ripemd160 rich_env (make_params false "2" "") pl1 sample_secret true empty_node = (Good (Made (Some (mpl_order pl1))), n1) /\
    make_commit sample_ripemd160 rich_env (make_params false "3" "") pl2 sample_secret true n1 = (Good (Made (Some (mpl_order pl2))), n2).
Proof.
  assert (H : match market_make rich_env (make_params false "2" "") [sample_priv], market_make rich_env (make_params false "3" "") [sample_priv'] with
    | Good pl1, Good pl2 => bool_decide (map utxoKey (o_UsedCoins (mpl_order pl1)) = [utxoKey (market_utxo x0c 1 250000000)])
        && bool_decide (orderKey (o_ID (mpl_order pl1)) <> orderKey (o_ID (mpl_order pl2)))
    | _, _ => false end = true) by (vm_compute; reflexivity).
  assert (H' : match market_make rich_env (make_params false "2" "") [sample_priv], market_make rich_env (make_params false "3" "") [sample_priv'] with
    | Good pl1, Good pl2 => o_UsedCoins (mpl_order pl1) = o_UsedCoins (mpl_order pl2) | _, _ => False end) by (vm_compute; reflexivity).
  revert H H'. generalize (market_make rich_env (make_params false "2" "") [sample_priv]) as r1.
  generalize (market_make rich_env (make_params false "3" "") [sample_priv']) as r2. intros [pl2| |] [pl1| |] H H'; try discriminate H.
  apply andb_true_iff in H as [H1%bool_decide_eq_true H2%bool_decide_eq_true].
  destruct (makes_share_funding sample_ripemd160 rich_env rich_env (make_params false "2" "") (make_params false "3" "") pl1 pl2 sample_secret sample_secret
    empty_node eq_refl eq_refl eq_refl H2 H') as (n1 & n2 & Hc1 & Hc2 & _).
  exists pl1, pl2, n1, n2. split; [reflexivity|]. split; [reflexivity|]. split; [exact H1|]. split; [exact H'|]. split; [exact Hc1|exact Hc2].
Defined.
