(* ===== verification/RpcLaws.v ===== *)
(** * What the JSON-RPC interface can do to a running swap

    The calls of Rpc.v behind the server of Server.v.  [spares P n n'] is what
    every handler promises: the swap sessions of the ids in [P] are exactly as
    before, and the book changed by the mutating methods of the store only,
    none of which hands an order of [P] over to somebody else.  With the gates
    of the server this gives [http_leaves_swaps]: whatever is sent to the
    daemon, no call reaches into a swap. *)

From S2P Require Import Prelude Sort GoLib Digits Hex Json Reply HttpLib Codec Bodies Packet Secp Signer Conf Coin Script Tx Wallet Deposit Order Float.
From S2P Require Import XAmount Calendar Store Utxos Fee Session Persist Node Resume Sweep Track Commands Registry Take Make.
From S2P Require Import Server Params Render Views Book Split Activate Rpc Engine DepositLaws Sample Market Frame TakeLaws MakeLaws.

#[local] Set Warnings "-register-all".

(** ** Steps of the book *)

(** The order of [id], if there is one, is our own. *)
Definition ours_in (id : bytes) (s : Store) : Prop := forall o, st_orders s !! id = Some o -> o_Mine o = true.
Abbreviation ours id n := (ours_in id (n_store n)).

(** A method of the store that does not put a foreign order under [id]. *)
Definition op_spares (id : bytes) (op : StoreOp) : Prop :=
  match op with
  | OpAdd o => orderKey (o_ID o) <> id
  | OpUpdate k fn _ => k <> id \/ forall o, o_Mine o = true -> o_Mine (fn o) = true
  | OpTouch _ _ | OpMove _ _ _ _ | OpAddToHistory _ _ _ _ | OpPruneExpired _ _ _ _ | OpLock _ => False
  | _ => True
  end.

Definition run_ops (ops : list StoreOp) (s : Store) : Store := fold_left (fun s op => store_step op s) ops s.

Record spares (P : bytes -> Prop) (n n' : Node) : Prop := mkSpares {
  sp_sessions : forall id, P id -> n_sessions n' !! id = n_sessions n !! id;
  sp_book : exists ops, n_store n' = run_ops ops (n_store n) /\ forall id, P id -> Forall (op_spares id) ops;
}.

#[export] Instance spares_preorder P : PreOrder (spares P).
Proof.
  split.
  - intros n. split; [done|]. exists []. split; [done|]. constructor.
  - intros a b c [S1 (o1 & E1 & H1)] [S2 (o2 & E2 & H2)]. split; [intros id Hid; rewrite S2, S1; done|].
    exists (o1 ++ o2). split; [|intros id Hid; apply Forall_app; auto]. unfold run_ops. by rewrite fold_left_app, E2, E1.
Qed.

Lemma run_ops_wf ops s : Store_wf s -> Store_wf (run_ops ops s).
Proof. revert s. induction ops as [|op ops IH]; intros s Hs; [done|]. by apply IH, store_step_wf. Qed.

Lemma ours_subseteq id s s' : st_orders s' ⊆ st_orders s -> ours_in id s -> ours_in id s'.
Proof. intros Hsub H o Ho. apply H. by eapply lookup_weaken. Qed.

Lemma op_ours id op s : op_spares id op -> ours_in id s -> ours_in id (store_step op s).
Proof.
  destruct op; cbn [op_spares store_step]; intros Hop H; try done.
  - intros x Hx. cbn in Hx. rewrite lookup_insert_ne in Hx by done. by apply H.
  - intros x Hx. cbn in Hx. destruct (decide (idHex = id)) as [->|Hne].
    + rewrite lookup_alter_eq in Hx. destruct (st_orders s !! id) as [y|] eqn:Ey; [|done]. injection Hx as <-.
      destruct Hop as [?|Hop]; [done|]. apply Hop. by apply H.
    + rewrite lookup_alter_ne in Hx by done. by apply H.
  - eapply ours_subseteq, H. apply delete_subseteq.
  - eapply ours_subseteq, H. apply map_filter_subseteq.
  - unfold ReserveForTake. repeat case_match; done.
  - eapply ours_subseteq, H. unfold FlushCancelled. pose proof (flush_fold_subseteq (keep_time minAgeMillis now) keys (st_orders s) []) as Hs.
    destruct (fold_left _ keys _) as [m l]. exact Hs.
Qed.

Lemma run_ops_ours id ops s : Forall (op_spares id) ops -> ours_in id s -> ours_in id (run_ops ops s).
Proof. intros H. revert s. induction H as [|op ops Hop _ IH]; intros s Hs; [done|]. by apply IH, op_ours. Qed.

Lemma spares_wf P n n' : spares P n n' -> Store_wf (n_store n) -> Store_wf (n_store n').
Proof. intros [_ (ops & -> & _)]. apply run_ops_wf. Qed.

Lemma spares_ours P n n' id : spares P n n' -> P id -> ours id n -> ours id n'.
Proof. intros [_ (ops & -> & H)] Hid. by apply run_ops_ours, H. Qed.

Lemma spares_same P n n' : n_sessions n' = n_sessions n -> n_store n' = n_store n -> spares P n n'.
Proof. intros E1 E2. split; [by intros ? _; rewrite E1|]. exists []. split; [done|]. constructor. Qed.

(** One method, the sessions untouched. *)
Lemma spares_op P n n' op : n_sessions n' = n_sessions n -> n_store n' = store_step op (n_store n) ->
  (forall id, P id -> op_spares id op) -> spares P n n'.
Proof. intros E1 E2 H. split; [by intros ? _; rewrite E1|]. exists [op]. split; [done|]. intros id Hid. constructor; [auto|constructor]. Qed.

Lemma Update_ext k f g s : (forall o, st_orders s !! k = Some o -> f o = g o) -> Update k f s = Update k g s.
Proof.
  intros H. assert (alter f k (st_orders s) = alter g k (st_orders s)) as E.
  { apply map_eq. intros i. destruct (decide (i = k)) as [->|Hk]; [|by rewrite !lookup_alter_ne].
    rewrite !lookup_alter_eq. destruct (st_orders s !! k) as [o|]; [|done]. cbn. by rewrite H. }
  unfold Update, set. cbn. by rewrite E.
Qed.

(** ** The commands of the engine *)

Section Commands.
Context (ripemd160 : bytes -> bytes) {secp : Secp} (uni : Unicode) {gosort : GoSort} (mem : Z) (P : bytes -> Prop).

Lemma spares_commitMake e o ma ta priv pub secret pkt pending n : (forall id, P id -> orderKey (o_ID o) <> id) ->
  spares P n (snd (commitMake ripemd160 e o ma ta priv pub secret pkt pending n)).
Proof.
  intros Hne. unfold commitMake. cbv zeta. set (n1 := add_session _ _ _).
  assert (forall m, n_store m = n_store n1 -> n_sessions m = n_sessions n1 -> spares P n m) as Hadd.
  { intros m Em Fm. split.
    - intros id Hid. rewrite Fm. cbn. by rewrite lookup_insert_ne by (by apply Hne).
    - exists [OpAdd o]. split; [by rewrite Em|]. intros id Hid. constructor; [by apply Hne|constructor]. }
  set (undo := fun m : Node => m <| n_sessions ::= delete (hexEncode (o_ID o)) |> <| n_store ::= Remove (hexEncode (o_ID o)) |>).
  assert (forall m m', n_store m = n_store n1 -> n_sessions m = n_sessions n1 -> n_store m' = n_store (undo m) ->
    n_sessions m' = n_sessions (undo m) -> spares P n m') as Hundo.
  { intros m m' Em Fm Em' Fm'. split.
    - intros id Hid. rewrite Fm'. cbn. rewrite lookup_delete_ne by (by apply Hne). by apply Hadd.
    - exists [OpAdd o; OpRemove (hexEncode (o_ID o))]. split; [rewrite Em'; cbn; by rewrite Em|].
      intros id Hid. constructor; [by apply Hne|]. by repeat constructor. }
  clearbody n1. destruct pending; [apply Hadd; unfold persist; by case_match|].
  pose proof (store_persistNow e n1) as E2. pose proof (sess_persistNow e n1) as F2. destruct (persistNow e n1) as [ok n2]. cbn [snd] in *.
  destruct ok; cbn [negb]; [|by apply (Hundo n2)].
  pose proof (store_write_packet (o_HubAddress o) pkt n2) as E3. pose proof (sess_write_packet (o_HubAddress o) pkt n2) as F3.
  destruct (write_packet _ _ _) as [ok n3]. cbn [snd] in *. destruct ok; cbn [snd]; [apply Hadd; congruence|].
  apply (Hundo n3); [congruence..|by rewrite store_persistNow|by rewrite sess_persistNow].
Qed.

(** A foreign order gets the taker's fields, and its own back when the take fails. *)
Lemma spares_commitTake e key fa ta pkt priv pub proofs used fees n :
  Store_wf (n_store n) -> (forall id, P id -> key <> id) ->
  spares P n (snd (commitTake e key fa ta pkt priv pub proofs used fees n)).
Proof.
  intros Hwf Hne. unfold commitTake. destruct (get_order n key) as [prev|] eqn:Ho; [|by apply (spares_op P _ _ (OpRelease key))].
  assert (hexEncode (o_ID prev) = key) as Hkey by (symmetry; by apply (wf_keys _ Hwf)). cbv zeta.
  change (o_ID (take_stamp e fa ta pub proofs used fees prev)) with (o_ID prev). rewrite Hkey.
  set (live := take_stamp e fa ta pub proofs used fees prev). set (n1 := add_session key _ _).
  pose (fn := fun o : Order => live <| o_ID := o_ID o |>). pose (back := fun o : Order => prev <| o_ID := o_ID o |>).
  assert (forall o, o_ID (fn o) = o_ID o) as Hfn by done. assert (forall o, o_ID (back o) = o_ID o) as Hback by done.
  assert (Update key (fun _ => live) (n_store n) = Update key fn (n_store n)) as Hup.
  { apply Update_ext. unfold get_order, Store_Get in Ho. rewrite Ho. intros ? [= <-]. subst fn live. by destruct prev. }
  pose (ops := [OpUpdate key fn Hfn; OpRelease key]).
  assert (n_store n1 = run_ops ops (n_store n)) as E1 by (cbn; by rewrite <- Hup).
  assert (forall id, P id -> Forall (op_spares id) ops) as Hops.
  { intros id Hid. constructor; [left; by apply Hne|]. by repeat constructor. }
  assert (forall m, n_store m = n_store n1 -> n_sessions m = n_sessions n1 -> spares P n m) as Hdone.
  { intros m Em Fm. split; [|exists ops; split; [congruence|done]]. intros id Hid. rewrite Fm. cbn. by rewrite lookup_insert_ne by (by apply Hne). }
  assert (forall m, n_store m = n_store n1 -> n_sessions m = n_sessions n1 -> spares P n (revertTake e key prev m)) as Hrev.
  { intros m Em Fm. unfold revertTake. split.
    - intros id Hid. rewrite sess_persistNow. cbn. rewrite lookup_delete_ne by (by apply Hne). by apply Hdone.
    - exists (ops ++ [OpUpdate key back Hback]). rewrite store_persistNow. split.
      + unfold run_ops. rewrite fold_left_app. fold (run_ops ops (n_store n)). rewrite <- E1, <- Em. cbn. apply Update_ext.
        rewrite Em, E1. cbn. rewrite lookup_alter_eq. unfold get_order, Store_Get in Ho. rewrite Ho. intros ? [= <-].
        subst back fn. by destruct prev.
      + intros id Hid. apply Forall_app. split; [by apply Hops|]. constructor; [left; by apply Hne|constructor]. }
  clearbody n1. pose proof (store_persistNow e n1) as E2. pose proof (sess_persistNow e n1) as F2. destruct (persistNow e n1) as [ok n2]. cbn [snd] in *.
  destruct ok; cbn [negb]; [|by apply Hrev].
  pose proof (store_write_packet (o_HubAddress live) pkt n2) as E3. pose proof (sess_write_packet (o_HubAddress live) pkt n2) as F3.
  destruct (write_packet _ _ _) as [ok n3]. cbn [snd] in *. destruct ok; [|apply Hrev; congruence].
  unfold registerTakeRetry. cbn [snd]. case_match; apply Hdone; cbn; congruence.
Qed.

Lemma store_postRefundTask e id cur hex lt done on_drop n :
  (forall m, n_store (on_drop m) = n_store m) -> n_store (postRefundTask e id cur hex lt done on_drop n) = n_store n.
Proof.
  intros Hd. unfold postRefundTask, post. destruct (refund_probe n id) as [d p]. case_match; case_match; simplify_eq; cbn; [done|]. by rewrite Hd.
Qed.

Lemma store_report id txid err user n : n_store (report id txid err user n) = n_store n.
Proof. unfold report. by case_match. Qed.

Lemma store_enqueueRefund e id user n : n_store (snd (enqueueRefund mem e id user n)) = n_store n.
Proof.
  assert (forall hex lt cands m, n_store (tryStoredRefund e id hex lt cands user m) = n_store m) as Hs.
  { intros hex lt cands. induction cands as [|c cands IH]; intros m; cbn; [apply store_report|]. by apply store_postRefundTask. }
  unfold enqueueRefund. cbv zeta. repeat (case_match; cbn [snd]; try apply store_report; try apply Hs; try done).
  all: rewrite store_postRefundTask; [done|]; intros m; apply store_report.
Qed.

Lemma cancel_packet_same e id reason n : let n' := snd (sendCancelTransaction e id reason n) in
  n_store n' = n_store n /\ n_sessions n' = n_sessions n.
Proof.
  unfold sendCancelTransaction. repeat (case_match; try done). cbn. by rewrite store_write_packet, sess_write_packet.
Qed.

Lemma spares_commitCancel e key n : spares P n (snd (commitCancel mem e key n)).
Proof.
  unfold commitCancel. destruct (get_order n key) as [cur|]; [|done]. case_match; [done|].
  pose proof (cancel_packet_same e key crRpcRequest n) as [E1 F1]. destruct (sendCancelTransaction _ _ _ _) as [ok n1]. cbn [snd] in *.
  destruct ok; cbn [negb]; [|by apply spares_same]. set (fn := fun o : Order => o <| o_Status := "canceled"%string |> <| o_Updated := e_now e |>).
  pose proof (store_enqueueRefund e key false (dropTakeRetry key (updO key fn n1))) as E2.
  pose proof (sess_enqueueRefund mem e key false (dropTakeRetry key (updO key fn n1))) as F2.
  destruct (enqueueRefund _ _ _ _ _) as [returned n2]. cbn [snd] in *. assert (forall o, o_ID (fn o) = o_ID o) as Hfn by done.
  assert (forall m, n_store m = n_store n2 -> n_sessions m = n_sessions n2 -> spares P n m) as Hst.
  { intros m Em Fm. apply (spares_op P _ _ (OpUpdate key fn Hfn)); [rewrite Fm, F2; exact F1| |by right].
    rewrite Em, E2. cbn. by rewrite E1. }
  apply Hst; case_match; try done; unfold persist; by case_match.
Qed.

Lemma spares_CancelOrder e running key n : spares P n (snd (CancelOrder mem e running key n)).
Proof.
  unfold CancelOrder. case_match; [|done..]. case_match; [done|].
  pose proof (spares_commitCancel e key n) as Hc. by destruct (commitCancel mem e key n) as [[] n'].
Qed.

(** ** Make and take *)

Lemma spares_finish_take e p pl draws running n : Store_wf (n_store n) -> (forall id, P id -> tpl_key pl <> id) ->
  spares P n (snd (finish_take e p pl draws running n)).
Proof.
  intros Hwf Hne. assert (forall m, spares P m (release (tpl_key pl) m)) as Hrel by (intros m; by apply (spares_op P _ _ (OpRelease (tpl_key pl)))).
  unfold finish_take. cbv zeta. do 3 (case_match; [|apply Hrel|done]).
  set (r := if running then _ else _). assert (spares P n (snd r)) as Hs by (subst r; case_match; [by apply spares_commitTake|done]).
  destruct r as [ans n']. cbn [snd] in Hs. destruct ans; cbn [snd]; [case_match; [done|]|..]; cbn [snd]; [|..|done]; (etransitivity; [exact Hs|apply Hrel]).
Qed.

Lemma take_checks_foreign e st p q : take_checks uni e st st p = Good q ->
  st_orders st !! orderIDKey (tp_ID p) = Some (tq_order q) /\ o_Mine (tq_order q) = false.
Proof. unfold take_checks, connector. intros H. rpc_inv. cbn [tq_order]. split; [done|by apply negb_true_iff]. Qed.

Lemma spares_TakeOrder e reg p draws running n : Store_wf (n_store n) -> (forall id, P id -> ours id n) ->
  spares P n (snd (TakeOrder uni e reg p draws running n)).
Proof.
  intros Hwf Hours. unfold TakeOrder. destruct (take_checks _ _ _ _ _) as [q| |] eqn:Eq; [|done..]. apply take_checks_foreign in Eq as [Ho Hm].
  destruct (tp_DryRun p); [done|]. destruct (plan_take _ _ _ _ _ _ _) as [pl| |] eqn:Ep; [|done..]. apply plan_take_key in Ep.
  unfold reserve_take.
  destruct (ReserveForTake _ _ _ _ _) as [r st] eqn:Er. set (n1 := n <| n_store := st |>).
  assert (spares P n n1) as H1.
  { apply (spares_op P _ _ (OpReserve (tpl_key pl) (fee_keys pl) (fund_keys pl) (o_ToCurrency (tq_order (tpl_quote pl))))); [done| |done].
    cbn [store_step]. by rewrite Er. }
  assert (spares P n (snd (finish_take e p pl draws running n1))) as H2.
  { etransitivity; [exact H1|]. apply spares_finish_take; [by eapply spares_wf|]. intros id Hid Heq. rewrite Ep in Heq. subst id.
    specialize (Hours _ Hid _ Ho). congruence. }
  by destruct r.
Qed.

(** ** Makes *)

(** The id of the order a make comes to. *)
Definition make_plan_of (e : Env) (reg : option (list bytes -> list bytes -> option bytes)) (p : MakeOrderParams) (tip : bytes * Z)
    (draws : list bytes) (n : Node) : option make_plan :=
  match make_checks uni e p with
  | Good q => match make_hub e reg p n with
              | (Good hub, n) => match (make_build ripemd160 uni e p q hub tip.1 tip.2 draws n).1 with Good pl => Some pl | _ => None end
              | _ => None
              end
  | _ => None
  end.

Lemma spares_MakeOrder e reg p tip draws secret running n :
  (forall pl, make_plan_of e reg p tip draws n = Some pl -> forall id, P id -> orderKey (o_ID (mpl_order pl)) <> id) ->
  spares P n (snd (MakeOrder ripemd160 uni e reg p tip.1 tip.2 draws secret running n)).
Proof.
  intros Hne. unfold make_plan_of in Hne. unfold MakeOrder. destruct (make_checks uni e p) as [q| |]; [|done..].
  pose proof (make_hub_same e reg p n) as [E1 F1]. destruct (make_hub e reg p n) as [h n1]. cbn [snd] in E1, F1.
  destruct h as [hub| |]; [|by apply spares_same..].
  pose proof (make_build_same ripemd160 uni e p q hub tip.1 tip.2 draws n1) as [E2 F2].
  destruct (make_build _ _ _ _ _ _ _ _ _ n1) as [r n2]. cbn [snd fst] in *. assert (spares P n n2) as H by (apply spares_same; congruence).
  destruct r as [pl| |]; [|done..]. unfold make_commit. case_match; [done|]. case_match; [done|].
  pose proof (spares_commitMake e (mpl_order pl) (mp_MakerAddress p) (mp_TakerAddress p) (mpl_priv pl) (mpl_pub pl) secret (mpl_packet pl)
    (mpl_pending pl) n2 (Hne pl eq_refl)) as Hc.
  destruct (commitMake _ _ _ _ _ _ _ _ _ _ _) as [ans n3]. cbn [snd] in Hc. etransitivity; [exact H|]. by destruct ans.
Qed.
End Commands.

(** ** Every handler *)

Section Calls.
Context (ripemd160 : bytes -> bytes) {secp : Secp} (uni : Unicode) {gosort : GoSort} (mem : Z).
Variables (fold_text : bytes -> bytes) (dial : CoinConf -> Connector) (walletVersion : Z) (walletVersionStr : bytes) (help_text : string -> bytes).
Variable amb : nat -> Ambient.
Local Abbreviation call := (handle ripemd160 uni mem fold_text dial walletVersion walletVersionStr help_text amb).

(** The id of the order a call makes. *)
Definition new_order (d : Daemon) (c : string * list json) : option bytes :=
  let am := amb (d_calls d) in
  p ← (if String.eqb c.1 "dxMakeOrder" then match make_args c.2 with Good p => Some p | _ => None end
       else if String.eqb c.1 "dxMakePartialOrder" then match partial_args c.2 with Good p => Some p | _ => None end
       else None);
  pl ← make_plan_of ripemd160 uni (env_of am d) ((fun _ => am_pick am) <$> am_hubs am) p (am_tip am) (am_draws am) (d_node d);
  Some (orderKey (o_ID (mpl_order pl))).

Section One.
Variables (P : bytes -> Prop) (d : Daemon).
Local Abbreviation calm d' := (spares P (d_node d) (d_node d')).

Lemma on_node_spares {A} d0 (render : A -> rpc json) r : d_node d0 = d_node d -> spares P (d_node d) (snd r) -> calm (snd (on_node d0 render r)).
Proof. by destruct r. Qed.

Lemma with_params_spares {A} d0 (p : rpc A) k : d_node d0 = d_node d -> (forall a, p = Good a -> calm (snd (k a))) -> calm (snd (with_params d0 p k)).
Proof. intros E H. destruct p; cbn; [by apply H|by rewrite E..]. Qed.

Lemma splitTx_spares e st q asked method n : spares P n (snd (splitTx uni e st q asked method n)).
Proof.
  unfold splitTx. cbv zeta. destruct (_ ≫= _) as [[[[p conn] signed] txid]| |]; [|done..]. destruct (sq_submit q); [|done].
  destruct (SendRawTransaction conn signed); [|done]. cbn. unfold recordBroadcast. repeat case_match; by apply spares_same.
Qed.

Lemma dxSplitAddress_spares e st ps n : spares P n (snd (dxSplitAddress uni e st ps n)).
Proof. unfold dxSplitAddress. cbv zeta. case_match; [apply splitTx_spares|done..]. Qed.

Lemma dxSplitInputs_spares e st ps n : spares P n (snd (dxSplitInputs uni e st ps n)).
Proof. unfold dxSplitInputs. case_match; [|done..]. case_match. apply splitTx_spares. Qed.

Lemma reload_spares am ps d0 : d_node d0 = d_node d -> calm (snd (dxLoadXBridgeConf uni dial am ps d0)).
Proof.
  intros E. unfold dxLoadXBridgeConf. destruct (reloadConf _ _ _ _ _) as [ok l] eqn:Er. cbn. rewrite E in *.
  unfold reloadConf in Er. cbn [ld_config ld_registry ld_bad ld_store] in Er. case_bool_decide; [simplify_eq; by apply spares_same|].
  destruct (Load _ _) as [conf| |]; [|simplify_eq; by apply spares_same..].
  destruct (InitFromConf _ _) as [registry [[]| |]]; [|simplify_eq; by apply spares_same..]. simplify_eq. cbn.
  case_match; [by apply spares_same|].
  by apply (spares_op P _ _ (OpPruneUnconnected (dom (ac_connectors
    (Activate dial (AdmittedConfs (cf_Coins conf)) (nc_CheckReachability (d_config d0)) (Conf_Wallets conf) (am_times am) ∅))))).
Qed.

Lemma handle_spares name ps : Store_wf (n_store (d_node d)) -> (forall id, P id -> ours id (d_node d) /\ new_order d (name, ps) <> Some id) ->
  calm (snd (call name ps d)).
Proof.
  intros Hwf HP. unfold handle. destruct (List.find _ _) as [[nm h]|] eqn:Ef; [|done]. cbn [snd].
  apply List.find_some in Ef as [Hin Heq]. apply String.eqb_eq in Heq. cbn in Heq. subst nm.
  set (d1 := d <| d_calls ::= S |>). assert (d_node d1 = d_node d) as Ed by done.
  assert (forall f, calm (snd (reading f ps d1))) as Hread by done.
  assert (forall p, (name = "dxMakeOrder"%string /\ make_args ps = Good p) \/ (name = "dxMakePartialOrder"%string /\ partial_args ps = Good p) ->
    spares P (d_node d) (snd (make_with ripemd160 uni (amb (d_calls d)) p d1))) as Hmake.
  { intros p Hp. apply spares_MakeOrder. intros pl Hpl id Hid Hk. apply (HP id Hid). unfold new_order. cbn [fst snd].
    destruct Hp as [[-> Hp]|[-> Hp]]; rewrite Hp; cbn -[make_plan_of]; change (env_of (amb (d_calls d)) d1) with (env_of (amb (d_calls d)) d) in Hpl;
      cbn -[make_plan_of env_of] in Hpl; rewrite Hpl; cbn; by f_equal. }
  repeat (destruct Hin as [[= <- <-]|Hin]; [|]); try apply Hread; try done.
  - by apply reload_spares.
  - apply with_params_spares; [done|]. intros p Hp. apply on_node_spares; [done|]. apply Hmake. by left.
  - apply with_params_spares; [done|]. intros p Hp. apply on_node_spares; [done|]. apply Hmake. by right.
  - apply with_params_spares; [done|]. intros p Hp. apply on_node_spares; [done|]. apply spares_TakeOrder; [done|]. intros id Hid. by apply HP.
  - apply with_params_spares; [done|]. intros [key o] _. apply on_node_spares; [done|]. apply spares_CancelOrder.
  - apply with_params_spares; [done|]. intros age _.
    destruct (FlushCancelled _ _ _ _) as [st l] eqn:Efl. cbn.
    apply (spares_op P _ _ (OpFlush age (e_now (am_env (amb (d_calls d)))) (e_keys (am_env (amb (d_calls d)))))); [done| |done].
    cbn [store_step]. change (d_node d1) with (d_node d) in Efl. by rewrite Efl.
  - apply on_node_spares; [done|]. apply dxSplitAddress_spares.
  - apply on_node_spares; [done|]. apply dxSplitInputs_spares.
Qed.
End One.

(** ** Any request *)

Local Abbreviation after := (run_calls call).

(** Some call of [cs] makes an order of this very id. *)
Definition remakes (id : bytes) (d : Daemon) (cs : list (string * list json)) : Prop :=
  exists cs1 c cs2, cs = cs1 ++ c :: cs2 /\ new_order (after cs1 d) c = Some id.

Lemma calls_wf cs d : Store_wf (n_store (d_node d)) -> Store_wf (n_store (d_node (after cs d))).
Proof.
  revert d. induction cs as [|[name ps] cs IH]; intros d Hd; [done|]. cbn. apply IH.
  eapply (spares_wf (fun _ => False)), Hd. by apply handle_spares.
Qed.

Lemma calls_leave cs id d : Store_wf (n_store (d_node d)) -> ours id (d_node d) ->
  (n_sessions (d_node (after cs d)) !! id = n_sessions (d_node d) !! id /\ ours id (d_node (after cs d))) \/ remakes id d cs.
Proof.
  revert d. induction cs as [|[name ps] cs IH]; intros d Hwf Ho; [by left|]. destruct (decide (new_order d (name, ps) = Some id)) as [Hn|Hn].
  { right. by exists [], (name, ps), cs. }
  assert (spares (eq id) (d_node d) (d_node (snd (call name ps d)))) as H by (apply handle_spares; [done|]; intros ? <-; by split).
  destruct (IH (snd (call name ps d))) as [[H1 H2]|(cs1 & c & cs2 & -> & Hr)].
  - by eapply spares_wf.
  - by eapply spares_ours.
  - left. cbn. split; [|done]. etransitivity; [exact H1|]. by apply (sp_sessions _ _ _ H).
  - right. by exists ((name, ps) :: cs1), c, cs2.
Qed.

(** Requests served one after the other, each to its end. *)
Definition serve_all (sv : Server) (qs : list httpRequest) (d : Daemon) : Daemon :=
  fold_left (fun d q => snd (ServeHTTP call sv q d)) qs d.

Lemma serve_all_calls sv qs d : exists cs, serve_all sv qs d = after cs d /\ Forall legal cs.
Proof.
  revert d. induction qs as [|q qs IH]; intros d; [by exists []|]. cbn.
  destruct (request_calls call sv q d) as (cs1 & E1 & H1). destruct (IH (snd (ServeHTTP call sv q d))) as (cs2 & E2 & H2).
  exists (cs1 ++ cs2). split; [|by apply Forall_app]. unfold serve_all in E2. rewrite E2, E1. unfold run_calls. by rewrite fold_left_app.
Qed.

(** C12. Whatever requests are sent to the daemon over HTTP, in whatever batches, when
    they are served one after the other its book stays well formed, and a swap
    under an id whose order is our own, or gone from the book, keeps its session
    exactly as it was: no key, no refund, no state of it changes.  The one way
    around would be a make among the requests that draws the very id, a hash of
    its terms.  (Requests that overlap are another matter: of two takes of one
    order under way at once the second replaces the session of the first,
    [second_take_replaces].) *)
Theorem http_leaves_swaps sv qs d id :
  Store_wf (n_store (d_node d)) -> ours id (d_node d) ->
  let d' := serve_all sv qs d in
  Store_wf (n_store (d_node d')) /\
  exists cs, d' = after cs d /\ Forall legal cs /\
    ((n_sessions (d_node d') !! id = n_sessions (d_node d) !! id /\ ours id (d_node d')) \/ remakes id d cs).
Proof.
  intros Hwf Ho. destruct (serve_all_calls sv qs d) as (cs & E & Hl). cbv zeta. rewrite E. split; [by apply calls_wf|].
  exists cs. split_and!; [done|done|]. by apply calls_leave.
Qed.
End Calls.

(** ** A daemon in a swap *)

Definition rpc_ambient : Ambient :=
  mkAmbient sample_env None (fun _ _ => None) [sample_priv] sample_secret true ([], 0) 2 5 (fun _ => None) (fun _ => (0, 0)).

Definition rpc_config (e : Env) : NodeConfig := mkNodeConfig [] (e_Confs e) (e_Connectors e) [tick_a; tick_b] true true false.

Definition rpc_daemon (n : Node) : Daemon := mkDaemon n (rpc_config sample_env) (e_Coins sample_env) ∅ 0.

Definition rpc_serve (body : string) (d : Daemon) : httpReply * Daemon :=
  ServeHTTP (handle sample_ripemd160 no_unicode (2 ^ 27) (fun s => s) sample_dial 0 [] bytes_of (fun _ => rpc_ambient)) NewServer
    (mkHttpRequest true [] (json_text body)) d.

Definition cancel_call : string :=
  "{'method':'DXCANCELORDER','params':['0101010101010101010101010101010101010101010101010101010101010101'],'id':7}".

Definition reply_of (r : httpReply) : Z * option (option Z * result) :=
  (hr_status r, match hr_body r with One a => Some (rs_Error a, rs_Result a) | _ => None end).

(** An open offer is canceled once; a committed one is not, nor is a wrong id. *)
Example rpc_cancels :
  let d := rpc_daemon (node_with (swap_order "open" false) (swap_session csMaker)) in
  let '(r1, d1) := rpc_serve cancel_call d in
  let '(r2, d2) := rpc_serve cancel_call d1 in
  let '(r3, _) := rpc_serve cancel_call (rpc_daemon sample_node) in
  (exists v, reply_of r1 = (200, Some (None, RValue v))) /\ o_Status <$> get_order (d_node d1) sample_key = Some "canceled"%string /\
  length (n_sent (d_node d1)) = 1%nat /\ d_calls d2 = 2%nat /\
  reply_of r2 = (200, Some (None, RError (mkRpcError errInvalidState "dxCancelOrder"))) /\
  reply_of r3 = (200, Some (None, RError (mkRpcError errInvalidState "dxCancelOrder"))).
Proof. vm_compute. split_and!; eauto. Qed.

(** The gates, the wrong types and an unknown name, through the whole stack. *)
Example rpc_refusals :
  let answer body := reply_of (rpc_serve body (rpc_daemon sample_node)).1 in
  answer "{'method':'dxGetOrder','params':[]}"%string = (200, Some (None, RError (mkRpcError errInvalidParameters "dxGetOrder"))) /\
  answer "{'method':'dxTakeOrder','params':['a','b']}"%string = (500, Some (Some (-1), RNull)) /\
  answer "{'method':'dxTakeOrder','params':['a','b','b']}"%string = (200, Some (None, RError (mkRpcError errInvalidParameters "dxTakeOrder"))) /\
  answer "{'method':'dxFlushCancelledOrders','params':[4294967295]}"%string
    = (200, Some (None, RError (mkRpcError errInvalidParameters "dxFlushCancelledOrders"))) /\
  answer "{'method':'dxLoadXBridgeConf','params':[]}"%string = (200, Some (None, RValue (JBool false))) /\
  answer "{'method':'dxNothing','params':[]}"%string = (404, Some (Some (-32601), RNull)) /\
  answer "{'method':'getnetworkinfo','params':{'a':1}}"%string = (500, Some (Some (-8), RNull)) /\
  answer "[1"%string = (500, Some (Some (-32700), RNull)).
Proof. vm_compute. by split_and!. Qed.

Definition swap_daemon : Daemon := rpc_daemon sample_node.
Definition swap_batch : string :=
  "[{'method':'dxCancelOrder','params':['0101010101010101010101010101010101010101010101010101010101010101']},{'method':'dxFlushCancelledOrders'},{'method':'dxLoadXBridgeConf'}]".

Lemma http_leaves_swaps_witness :
  let d' := serve_all sample_ripemd160 no_unicode (2 ^ 27) (fun s => s) sample_dial 0 [] bytes_of (fun _ => rpc_ambient) NewServer
    [mkHttpRequest true [] (json_text swap_batch); mkHttpRequest true [] (json_text cancel_call)] swap_daemon in
  exists cs, d' = run_calls (handle sample_ripemd160 no_unicode (2 ^ 27) (fun s => s) sample_dial 0 [] bytes_of
      (fun _ => rpc_ambient)) cs swap_daemon /\
    n_sessions (d_node d') !! sample_key = Some (swap_session csCreatedA).
Proof.
  intros d'.
  assert (Store_wf (n_store (d_node swap_daemon))) as Hwf.
  { constructor; cbn; [|constructor..]. intros k o Hk. apply lookup_insert_Some in Hk as [[<- <-]|[_ Hk]]; [done|by rewrite lookup_empty in Hk]. }
  assert (ours sample_key (d_node swap_daemon)) as Ho.
  { intros o Hk. assert (st_orders (n_store (d_node swap_daemon)) !! sample_key = Some (swap_order "created" true)) as E by (vm_compute; reflexivity).
    rewrite E in Hk. by injection Hk as <-. }
  destruct (http_leaves_swaps sample_ripemd160 no_unicode (2 ^ 27) (fun s => s) sample_dial 0 [] bytes_of (fun _ => rpc_ambient) NewServer
    [mkHttpRequest true [] (json_text swap_batch); mkHttpRequest true [] (json_text cancel_call)] swap_daemon sample_key Hwf Ho) as (_ & cs & E & _ & _).
  exists cs. split; [exact E|]. vm_compute. reflexivity.
Defined.
