(* ===== verification/ViewsLaws.v ===== *)
(** * What the views show

    The chain of a partial order is its lineage: the given order, its ancestors
    and its descendants among the node's own orders, each once, in the order of
    their creation ([chain_complete]); the intervals of the order history
    partition the fills of the window ([history_partitions]). *)

From S2P Require Import Prelude Sort GoLib Digits Hex Json Price Wallet Order Float Decimal XAmount Calendar Store Fee Session Engine Sample Server Params Render.
From S2P Require Import Views Book.

(** ** Chains *)

Definition okey (o : Order) : bytes := orderKey (o_ID o).
Definition pkey (o : Order) : bytes := orderKey (o_ParentID o).

Section Chain.
Context (idx : gmap bytes Order) (Hidx : forall k o, idx !! k = Some o -> k = okey o).

(** What a descent below [pid] through the keys [ks] has added: new orders of the
    index, each a child of [pid] or of one of them; all children of the new
    orders, and those of [pid] among [ks], have been seen. *)
Definition explored (ks : list bytes) (pid : bytes) (acc acc' : gset bytes * list Order) : Prop :=
  exists new, acc'.2 = acc.2 ++ new /\ acc'.1 = acc.1 ∪ list_to_set (map okey new) /\ NoDup (map okey new) /\
    (forall k, k ∈ map okey new -> k ∉ acc.1) /\
    (forall o, o ∈ new -> idx !! okey o = Some o /\ pkey o ∈ pid :: map okey new) /\
    (forall k o, k ∈ ks -> idx !! k = Some o -> pkey o = pid -> k ∈ acc'.1) /\
    (forall k o, idx !! k = Some o -> pkey o ∈ map okey new -> k ∈ acc'.1).

Lemma explored_nil pid acc : explored [] pid acc acc.
Proof. exists []. rewrite app_nil_r. split_and!; try set_solver. by apply NoDup_nil. Qed.

(** A key that is no new child adds nothing. *)
Lemma explored_skip ks pid k acc acc' : explored ks pid acc acc' ->
  (forall o, idx !! k = Some o -> pkey o = pid -> k ∈ acc'.1) -> explored (ks ++ [k]) pid acc acc'.
Proof.
  intros (new & H1 & H2 & H3 & H4 & H5 & H6 & H7) Hk. exists new. split_and!; try done.
  intros k' o' Hin. apply elem_of_app in Hin as [Hin | ->%list_elem_of_singleton]; eauto.
Qed.

(** A new child is followed by its own descent. *)
Lemma explored_child ks pid k o acc acc1 acc2 : explored ks pid acc acc1 -> idx !! k = Some o -> pkey o = pid -> k ∉ acc1.1 ->
  explored (elements (dom idx)) k ({[k]} ∪ acc1.1, acc1.2 ++ [o]) acc2 -> explored (ks ++ [k]) pid acc acc2.
Proof.
  intros (new & H1 & H2 & H3 & H4 & H5 & H6 & H7) Ho Hp Hk (sub & S1 & S2 & S3 & S4 & S5 & S6 & S7).
  pose proof (Hidx k o Ho) as Hko. cbn [fst snd] in *. exists (new ++ o :: sub). rewrite map_app. cbn [map]. rewrite <- Hko.
  assert (acc2.1 = acc.1 ∪ list_to_set (map okey new ++ k :: map okey sub)) as E1 by (rewrite S2, H2; set_solver).
  split_and!.
  - by rewrite S1, H1, <- !app_assoc.
  - done.
  - apply NoDup_app. split_and!; [done| |].
    + intros x Hx Hx'. apply elem_of_cons in Hx' as [-> | Hx']; [|apply S4 in Hx']; rewrite H2 in *; set_solver.
    + apply NoDup_cons. split; [|done]. intros Hin. apply S4 in Hin. set_solver.
  - intros x Hx. apply elem_of_app in Hx as [Hx|Hx]; [by apply H4|]. apply elem_of_cons in Hx as [-> | Hx]; [|apply S4 in Hx]; rewrite H2 in *; set_solver.
  - intros c Hc. apply elem_of_app in Hc as [Hc|Hc].
    + destruct (H5 c Hc). split; [done|]. set_solver.
    + apply elem_of_cons in Hc as [-> | Hc]; [rewrite <- Hko; split; [done|rewrite Hp; set_solver]|].
      destruct (S5 c Hc). split; [done|]. set_solver.
  - intros x c Hx Hc Hpc. apply elem_of_app in Hx as [Hx | ->%list_elem_of_singleton].
    + pose proof (H6 x c Hx Hc Hpc). rewrite S2. set_solver.
    + rewrite S2. set_solver.
  - intros x c Hc Hpc. apply elem_of_app in Hpc as [Hpc|Hpc]; [pose proof (H7 x c Hc Hpc); rewrite S2; set_solver|].
    apply elem_of_cons in Hpc as [Hpc|Hpc].
    + apply (S6 x c); [apply elem_of_elements, elem_of_dom; eauto|done|done].
    + by apply (S7 x c).
Qed.

Lemma unseen_less (seen seen' : gset bytes) k : seen ⊆ seen' -> k ∈ dom idx -> k ∉ seen' ->
  (size (dom idx ∖ ({[k]} ∪ seen')) < size (dom idx ∖ seen))%nat.
Proof. intros. apply subset_size. set_solver. Qed.

(** With more fuel than orders not seen, a descent is complete. *)
Lemma descend_explores fuel : forall pid acc, (size (dom idx ∖ acc.1) < fuel)%nat ->
  explored (elements (dom idx)) pid acc (descend fuel idx (elements (dom idx)) pid acc).
Proof.
  induction fuel as [|fuel IH]; intros pid acc Hf; [lia|]. cbn [descend].
  match goal with |- context [fold_left ?g _ _] => set (step := g) end.
  assert (forall l ks acc1, explored ks pid acc acc1 -> explored (ks ++ l) pid acc (fold_left step l acc1)) as H.
  { induction l as [|k l IHl]; intros ks acc1 Hacc; cbn [fold_left]; [by rewrite app_nil_r|].
    change (k :: l) with ([k] ++ l). rewrite app_assoc. apply IHl. subst step. cbn beta.
    destruct (idx !! k) as [o|] eqn:Ho; [|apply explored_skip; [done|congruence]].
    case_bool_decide as Hs; [apply explored_skip; [done|by intros]|].
    case_bool_decide as Hp; [|apply explored_skip; [done|intros o' Ho' ?; simplify_eq; done]].
    eapply explored_child; [done..|]. apply IH. cbn [fst].
    assert (acc.1 ⊆ acc1.1) as Hsub by (destruct Hacc as (new & _ & -> & _); set_solver).
    pose proof (unseen_less acc.1 acc1.1 k Hsub ltac:(apply elem_of_dom; eauto) Hs). lia. }
  exact (H (elements (dom idx)) [] acc (explored_nil pid acc)).
Qed.

(** The ancestors: each the parent of the one before, until a parent that is
    zero, not in the index, or already there. *)
Lemma ancestors_climb fuel : forall cur seen chain chain' seen', (size (dom idx ∖ seen) < fuel)%nat ->
  ancestors fuel idx cur seen chain = (chain', seen') ->
  exists up, chain' = up ++ chain /\ seen' = seen ∪ list_to_set (map okey up) /\ NoDup (map okey up) /\
    (forall k, k ∈ map okey up -> k ∉ seen) /\
    (forall o, o ∈ up -> idx !! okey o = Some o /\ exists d, d ∈ cur :: up /\ isZeroID (o_ParentID d) = false /\ pkey d = okey o) /\
    (forall d p, d ∈ cur :: up -> isZeroID (o_ParentID d) = false -> idx !! pkey d = Some p -> pkey d ∈ seen').
Proof.
  induction fuel as [|fuel IH]; intros cur seen chain chain' seen' Hf H; [lia|]. cbn [ancestors] in H.
  assert (forall acc, (chain, seen) = acc -> (isZeroID (o_ParentID cur) = false -> forall p, idx !! pkey cur = Some p -> pkey cur ∈ seen) ->
    exists up, acc.1 = up ++ chain /\ acc.2 = seen ∪ list_to_set (map okey up) /\ NoDup (map okey up) /\
    (forall k, k ∈ map okey up -> k ∉ seen) /\
    (forall o, o ∈ up -> idx !! okey o = Some o /\ exists d, d ∈ cur :: up /\ isZeroID (o_ParentID d) = false /\ pkey d = okey o) /\
    (forall d p, d ∈ cur :: up -> isZeroID (o_ParentID d) = false -> idx !! pkey d = Some p -> pkey d ∈ acc.2)) as Hstop.
  { intros acc <- Hs. exists []. cbn. split_and!; [done|set_solver|by apply NoDup_nil|set_solver|set_solver|].
    intros d p ->%list_elem_of_singleton Hz Hq. by apply (Hs Hz p). }
  destruct (isZeroID (o_ParentID cur)) eqn:Ez; [exact (Hstop _ H ltac:(intros; congruence))|]. fold (pkey cur) in H.
  destruct (idx !! pkey cur) as [p|] eqn:Hp; [|exact (Hstop _ H ltac:(intros; congruence))].
  case_bool_decide as Hs; [exact (Hstop _ H ltac:(intros; assumption))|]. clear Hstop.
  pose proof (Hidx _ _ Hp) as Hpk.
  pose proof (unseen_less seen seen (pkey cur) ltac:(done) ltac:(apply elem_of_dom; eauto) Hs).
  destruct (IH p ({[pkey cur]} ∪ seen) (p :: chain) chain' seen' ltac:(lia) H) as (up & H1 & H2 & H3 & H4 & H5 & H6).
  exists (up ++ [p]). rewrite map_app. cbn [map]. rewrite <- Hpk. split_and!.
  - by rewrite H1, <- app_assoc.
  - rewrite H2. set_solver.
  - apply NoDup_app. split_and!; [done| |apply NoDup_singleton]. intros x Hx ->%list_elem_of_singleton. apply H4 in Hx. set_solver.
  - intros k Hk. apply elem_of_app in Hk as [Hk | ->%list_elem_of_singleton]; [apply H4 in Hk; set_solver|done].
  - intros c Hc. apply elem_of_app in Hc as [Hc | ->%list_elem_of_singleton].
    + destruct (H5 c Hc) as (? & d & Hd & ? & ?). split; [done|]. exists d. split_and!; [set_solver|done..].
    + rewrite <- Hpk. split; [done|]. exists cur. split_and!; [set_solver|done|done].
  - intros d q Hd Hz Hq. assert (d = cur \/ d ∈ p :: up) as [-> | Hd'] by set_solver; [rewrite H2; set_solver|by eapply H6].
Qed.
End Chain.

Section Views.
Context (e : Env) (s : Store).

Lemma chain_index_keys k o : chain_index e s !! k = Some o -> k = okey o.
Proof.
  unfold chain_index. induction (chain_candidates e s) as [|c l IH]; cbn [fold_right]; [by rewrite lookup_empty|].
  destruct (decide (orderKey (o_ID c) = k)) as [<-|Hne]; [rewrite lookup_insert_eq; by intros [= <-]|].
  by rewrite lookup_insert_ne.
Qed.

(** The chain of one of the node's own partial orders or their children holds
    the order, its ancestors and its descendants, and nothing else, each once and
    by the time of their creation: with an order above or at the given one it
    holds its parent, with one below or at it all its children. *)
Theorem chain_complete id o : chain_index e s !! id = Some o ->
  let idx := chain_index e s in
  let chain := partialOrderChain e s id in
  NoDup (map okey chain) /\ sorted by_created chain /\ (forall c, c ∈ chain -> idx !! okey c = Some c) /\
  exists up down, chain ≡ₚ up ++ o :: down /\
    (forall c, c ∈ up -> exists d, d ∈ o :: up /\ isZeroID (o_ParentID d) = false /\ pkey d = okey c) /\
    (forall d p, d ∈ o :: up -> isZeroID (o_ParentID d) = false -> idx !! pkey d = Some p -> p ∈ o :: up) /\
    (forall c, c ∈ down -> exists d, d ∈ o :: down /\ pkey c = okey d) /\
    (forall d c, d ∈ o :: down -> idx !! okey c = Some c -> pkey c = okey d -> c ∈ chain).
Proof.
  intros Ho idx chain. pose proof (chain_index_keys id o Ho) as Hid. unfold chain, partialOrderChain. fold idx. fold idx in Ho. rewrite Ho.
  assert (forall X : gset bytes, (size (dom idx ∖ X) < S (size idx))%nat) as Hfuel.
  { intros X. pose proof (subseteq_size (dom idx ∖ X) (dom idx) ltac:(set_solver)). rewrite size_dom in H. lia. }
  destruct (ancestors (S (size idx)) idx o {[id]} []) as [up0 seen] eqn:Ea.
  destruct (ancestors_climb idx chain_index_keys _ _ _ _ _ _ (Hfuel _) Ea)
    as (up & U1 & U2 & U3 & U4 & U5 & U6). rewrite app_nil_r in U1. subst up0.
  pose proof (descend_explores idx chain_index_keys (S (size idx)) id (seen, up ++ [o]) (Hfuel _)) as (down & D1 & D2 & D3 & D4 & D5 & D6 & D7).
  destruct (descend _ _ _ _ _) as [seen' chain']. cbn [fst snd] in *. rewrite <- app_assoc in D1. cbn in D1. subst chain'.
  assert (forall k, k ∈ seen' -> exists c, c ∈ up ++ o :: down /\ k = okey c) as Hseen.
  { intros k Hk. rewrite D2, U2, Hid in Hk. assert (k ∈ map okey (up ++ o :: down)) as Hin by (rewrite map_app; cbn [map]; set_solver).
    apply list_elem_of_In, in_map_iff in Hin as (c & <- & Hc). exists c. by rewrite list_elem_of_In. }
  assert (forall c, c ∈ up ++ o :: down -> idx !! okey c = Some c) as Hin.
  { intros c Hc. apply elem_of_app in Hc as [Hc|Hc]; [by apply U5|]. apply elem_of_cons in Hc as [-> | Hc]; [by rewrite <- Hid|by apply D5]. }
  assert (forall k c, k ∈ seen' -> idx !! k = Some c -> c ∈ up ++ o :: down) as Hget.
  { intros k c Hk Hc. destruct (Hseen k Hk) as (c' & Hc' & ->). pose proof (Hin c' Hc'). congruence. }
  pose proof (sort_by_perm by_created (up ++ o :: down)) as Hperm.
  split_and!.
  - rewrite Hperm. rewrite map_app. cbn [map]. apply NoDup_app. split_and!; [done| |].
    + intros k Hk Hk'. rewrite <- Hid in Hk'. pose proof (U4 k Hk). apply elem_of_cons in Hk' as [-> | Hk']; [set_solver|].
      apply D4 in Hk'. rewrite U2 in Hk'. set_solver.
    + apply NoDup_cons. split; [|done]. rewrite <- Hid. intros Hk. apply D4 in Hk. rewrite U2 in Hk. set_solver.
  - apply sort_by_sorted. apply (key_weak o_Created).
  - intros c. rewrite Hperm. apply Hin.
  - exists up, down. split_and!; [exact Hperm| | | |].
    + intros c Hc. by apply U5.
    + intros d p Hd Hz Hp. pose proof (U6 d p Hd Hz Hp) as Hk. rewrite U2 in Hk. pose proof (chain_index_keys _ _ Hp) as Hpk.
      rewrite Hpk in Hk. apply elem_of_union in Hk as [Hk|Hk].
      * apply elem_of_singleton in Hk. rewrite Hpk, Hk, Ho in Hp. injection Hp as ->. by left.
      * apply elem_of_list_to_set, list_elem_of_In, in_map_iff in Hk as (c & Hk & Hc). rewrite <- list_elem_of_In in Hc.
        right. pose proof (U5 c Hc) as [Hcc _]. rewrite Hk, <- Hpk, Hp in Hcc. by injection Hcc as ->.
    + intros c Hc. destruct (D5 c Hc) as [_ Hp]. apply elem_of_cons in Hp as [Hp|Hp].
      * exists o. split; [by left|congruence].
      * apply list_elem_of_In, in_map_iff in Hp as (d & Hd & Hin'). exists d. split; [right; by apply list_elem_of_In|done].
    + intros d c Hd Hc Hp. rewrite Hperm. apply (Hget (okey c)); [|done]. apply elem_of_cons in Hd as [-> | Hd].
      * apply (D6 (okey c) c); [apply elem_of_elements, elem_of_dom; eauto|done|congruence].
      * apply (D7 (okey c) c Hc). rewrite Hp. apply list_elem_of_In, in_map, list_elem_of_In, Hd.
Qed.
End Views.

(** ** A chain of three orders and a fill *)

Definition chain_id (b : byte) : bytes := repeat b 32.
Definition view_order (b parent : byte) (created : Z) (status : string) : Order :=
  zero_order <| o_ID := chain_id b |> <| o_ParentID := chain_id parent |> <| o_PartialAllowed := true |> <| o_Mine := true |>
    <| o_Created := created |> <| o_Updated := created |> <| o_Status := status |> <| o_FromCurrency := bytes_of "AAA" |>
    <| o_ToCurrency := bytes_of "BBB" |> <| o_FromAmount := 2000000 |> <| o_ToAmount := 5000000 |>.

Definition view_store : Store :=
  AddToHistory (view_order x01 x00 1700000000000000 "finished") "finished" 0 1700000030000000
    (Add (view_order x02 x01 1700000010000000 "open") (Add (view_order x03 x02 1700000005000000 "open") NewStore)).

Definition view_env : Env :=
  mkEnv 1700000600000000 1700000600 70710 ∅ ∅ ∅ true true false (fun _ => true) 2 1 0 [orderKey (chain_id x03); orderKey (chain_id x02)].

Example view_chain :
  map (fun o => head (o_ID o)) (partialOrderChain view_env view_store (orderKey (chain_id x02))) = map Some [x01; x03; x02] /\
  map (fun o => head (o_ID o)) (partialOrderChain view_env view_store (orderKey (chain_id x01))) = map Some [x01; x03; x02] /\
  map (fun o => head (o_ID o)) (partialOrderChain view_env view_store (orderKey (chain_id x03))) = map Some [x01; x03; x02] /\
  partialOrderChain view_env view_store (orderKey (chain_id x04)) = [].
Proof. by vm_compute. Qed.

Lemma chain_complete_witness : NoDup (map okey (partialOrderChain view_env view_store (orderKey (chain_id x02)))).
Proof.
  destruct (chain_complete view_env view_store (orderKey (chain_id x02)) (view_order x02 x01 1700000010000000 "open")
    ltac:(by vm_compute)) as (H & _). exact H.
Defined.

(** ** The intervals of the order history *)

Lemma filter_split {A} (p q : A -> bool) l : (forall x, p x = true -> q x = false) ->
  List.filter p l ++ List.filter q l ≡ₚ List.filter (fun x => p x || q x) l.
Proof.
  intros H. induction l as [|x l IH]; cbn [List.filter]; [done|]. destruct (p x) eqn:Ep; cbn [orb].
  - rewrite (H x Ep). cbn [app]. by constructor.
  - destruct (q x); [|done]. rewrite <- Permutation_middle. by constructor.
Qed.

Section History.
Context (start stop g : Z) (Hg : 0 < g).

(** The rows of some intervals hold the fills of those intervals. *)
Lemma buckets_partition fs js : NoDup js ->
  concat (map (fun i => bucket_fills start stop g i fs) js) ≡ₚ
    List.filter (fun f => match bucket_of start stop g f with Some i => bool_decide (i ∈ js) | None => false end) fs.
Proof.
  induction js as [|i js IH]; intros Hnd; cbn [map concat].
  - induction fs as [|f fs IHf]; cbn [List.filter]; [done|]. destruct (bucket_of start stop g f); [|done]. by rewrite bool_decide_eq_false_2 by set_solver.
  - apply NoDup_cons in Hnd as [Hi Hnd]. rewrite (IH Hnd). unfold bucket_fills. rewrite sort_by_perm. rewrite filter_split.
    + clear IH. induction fs as [|f fs IHf]; cbn [List.filter]; [done|]. destruct (bucket_of start stop g f) as [j|]; cbn [orb].
      * destruct (decide (j = i)) as [->|Hne].
        -- rewrite (bool_decide_eq_true_2 (Some i = Some i)), (bool_decide_eq_true_2 (i ∈ i :: js)) by set_solver. cbn [orb]. by constructor.
        -- rewrite (bool_decide_eq_false_2 (Some j = Some i)) by congruence. cbn [orb].
           destruct (decide (j ∈ js)).
           ++ rewrite (bool_decide_eq_true_2 (j ∈ js)), (bool_decide_eq_true_2 (j ∈ i :: js)) by set_solver. by constructor.
           ++ by rewrite (bool_decide_eq_false_2 (j ∈ js)), (bool_decide_eq_false_2 (j ∈ i :: js)) by set_solver.
      * by rewrite bool_decide_eq_false_2 by done.
    + intros f Hf%bool_decide_eq_true. rewrite Hf. by apply bool_decide_eq_false_2.
Qed.

Lemma intervals_nodup n : NoDup (intervals n).
Proof. unfold intervals. apply (NoDup_fmap_2 Z.of_nat), NoDup_seq. Qed.

Lemma elem_of_intervals n i : i ∈ intervals n <-> 0 <= i < n.
Proof.
  unfold intervals. rewrite list_elem_of_In, in_map_iff. split.
  - intros (k & <- & Hk%in_seq). lia.
  - intros H. exists (Z.to_nat i). split; [lia|]. apply in_seq. lia.
Qed.

Definition in_window (f : fillEntry) : bool := (start <=? fill_second f) && (fill_second f <? stop).

Lemma bucket_of_window n f : stop = start + n * g ->
  match bucket_of start stop g f with Some i => bool_decide (i ∈ intervals n) | None => false end = in_window f.
Proof.
  intros Hs. unfold bucket_of, in_window. destruct (fill_second f <? start) eqn:E1; cbn [orb]; [zbool; by rewrite (proj2 (Z.leb_gt _ _)) by lia|].
  destruct (stop <=? fill_second f) eqn:E2; zbool.
  - by rewrite (proj2 (Z.ltb_ge (fill_second f) stop)), andb_false_r by lia.
  - rewrite (proj2 (Z.leb_le _ _)), (proj2 (Z.ltb_lt _ _)) by lia. apply bool_decide_eq_true_2, elem_of_intervals.
    split; [apply Z.div_pos; lia|]. apply Z.div_lt_upper_bound; lia.
Qed.

Lemma bucket_bounds i f : bucket_of start stop g f = Some i -> start + i * g <= fill_second f < start + i * g + g.
Proof.
  unfold bucket_of. destruct (_ || _); [done|]. intros [= <-].
  pose proof (Z.div_mod (fill_second f - start) g ltac:(lia)). pose proof (Z.mod_pos_bound (fill_second f - start) g Hg). lia.
Qed.
End History.

Lemma granularity_pos g : existsb (Z.eqb g) granularities = true -> 0 < g.
Proof. intros H%existsb_exists. destruct H as (x & Hx & ->%Z.eqb_eq). cbn in Hx. lia. Qed.

Lemma history_window_shape now q start stop n : history_window now q = Good (start, stop, n) ->
  0 < hq_granularity q /\ 0 < n /\ n <= default defaultOrderHistoryMaxBuckets (hq_limit q) /\ stop = start + n * hq_granularity q /\
  stop <= now / 1000000 + 86400.
Proof.
  unfold history_window. intros H. apply rpc_bind_good in H as ([] & Hg%ensure_good%granularity_pos & H).
  set (g := hq_granularity q) in *. set (a := if 0 <=? hq_start q then _ else 0) in H. set (b := if 0 <=? hq_end q then _ else 0) in H.
  assert (exists k, a = k * g) as [ka Ha] by (subst a; destruct (0 <=? hq_start q); [by eexists|by exists 0]).
  assert (exists k, b = k * g) as [kb Hb] by (subst b; destruct (0 <=? hq_end q); [by eexists|by exists 0]). clearbody a b.
  apply rpc_bind_good in H as ([] & _ & H). apply rpc_bind_good in H as ([] & Hab%ensure_good & H).
  apply rpc_bind_good in H as ([] & Hnow%ensure_good & H). apply rpc_bind_good in H as ([] & Hl%ensure_good & H). zbool.
  assert (b - a = (kb - ka) * g) as Hd by lia. rewrite Hd, Z.div_mul in H by lia. assert (0 < kb - ka) by nia.
  destruct (_ <? _) eqn:E; injection H as <- <- <-; zbool; split_and!; try lia.
  destruct (hq_limit q); cbn [default]; [|done]. apply andb_true_iff in Hl as [Hl _]. zbool. cbn. lia.
Qed.

(** C32. The candles of an accepted query lie side by side: every fill of the pair
    within the window is in exactly one row, the one of its time, and the fills
    of a row are in the order of their times; there are no more rows than asked
    for, or than 100,000. *)
Theorem history_partitions e s q start stop n : history_window (e_now e) q = Good (start, stop, n) ->
  let g := hq_granularity q in
  let rows := history_rows e s q start stop n in
  0 < n /\ n <= default defaultOrderHistoryMaxBuckets (hq_limit q) /\ stop = start + n * g /\
  map fst rows = map (fun i => start + i * g) (intervals n) /\
  concat (map snd rows) ≡ₚ
    List.filter (in_window start stop) (List.filter (fill_matches (hq_maker q) (hq_taker q) (hq_inverse q)) (fills e s)) /\
  Forall (fun row => sorted by_time row.2 /\ Forall (fun f => row.1 <= fill_second f < row.1 + g) row.2) rows.
Proof.
  intros H g rows. destruct (history_window_shape _ _ _ _ _ H) as (Hg & Hn & Hl & Hs & _). fold g in Hg, Hs.
  subst rows. unfold history_rows. fold g. set (fs := List.filter (fill_matches _ _ _) _). rewrite !map_map. cbn [fst snd]. split_and!; try done.
  - rewrite (buckets_partition start stop g Hg fs (intervals n) (intervals_nodup n)).
    induction fs as [|f fs IH]; cbn [List.filter]; [done|]. rewrite (bucket_of_window start stop g Hg n f Hs).
    destruct (in_window start stop f); [by constructor|done].
  - apply Forall_forall. intros row Hrow. apply list_elem_of_In, in_map_iff in Hrow as (i & <- & _). cbn [fst snd]. unfold bucket_fills. split.
    + apply sort_by_sorted, (key_weak fe_Time).
    + apply Forall_forall. intros f Hf. rewrite sort_by_perm in Hf. apply list_elem_of_In, List.filter_In in Hf as [_ Hf].
      apply bool_decide_eq_true in Hf. by apply (bucket_bounds start stop g Hg i f Hf).
Qed.

Definition view_query : historyQuery := mkHistoryQuery (bytes_of "AAA") (bytes_of "BBB") 60 1699999980 1700000160 true false None.

Example view_candles :
  dxGetOrderHistory view_env view_store (params_of "['AAA', 'BBB', 1700000000, 1700000061, 60, true]") =
  Good (JArr (params_of "[['2023-11-14T22:13:00.000Z', 2.50000000, 2.50000000, 2.50000000, 2.50000000, 2.00000000, ['0101010101010101010101010101010101010101010101010101010101010101']], ['2023-11-14T22:14:00.000Z', 0.00000000, 0.00000000, 0.00000000, 0.00000000, 0.00000000, []]]")).
Proof. by vm_compute. Qed.

Lemma history_partitions_witness :
  length (concat (map snd (history_rows view_env view_store view_query 1699999980 1700000160 3))) = 1%nat.
Proof.
  destruct (history_partitions view_env view_store view_query 1699999980 1700000160 3 ltac:(by vm_compute)) as (_ & _ & _ & _ & H & _).
  rewrite H. by vm_compute.
Defined.
