(* ===== verification/SplitLaws.v ===== *)
(** * What a split promises

    The parts and the change of a split, together with its fee, are what the
    outputs it spends hold ([split_balances]): nothing is paid out that is not
    paid in, and the outputs spent are free ones of the wallet, or the ones the
    caller named. *)

From S2P Require Import Prelude Sort GoLib Digits Hex Json HttpLib Codec Conf Coin Base58 Address Script Tx Price Wallet Deposit Order Float.
From S2P Require Import XAmount Store Utxos Select Fee Session Persist Node Take Make Server Params Render Split Engine DepositLaws Sample Market.

(** ** The outputs *)

Definition sum_list (l : list Z) : Z := fold_right Z.add 0 l.

Lemma sum_list_app l k : sum_list (l ++ k) = sum_list l + sum_list k.
Proof. induction l as [|x l IH]; cbn; [done|]. unfold sum_list in *. lia. Qed.
Lemma sum_list_rev l : sum_list (rev l) = sum_list l.
Proof. induction l as [|x l IH]; [done|]. cbn [rev]. rewrite sum_list_app, IH. cbn. unfold sum_list. lia. Qed.
Lemma sum_list_repeat v n : sum_list (repeat v n) = v * Z.of_nat n.
Proof. induction n as [|n IH]; [cbn; lia|]. cbn [repeat sum_list fold_right]. unfold sum_list in IH. rewrite IH, Nat2Z.inj_succ, Z.mul_succ_r. lia. Qed.
Lemma sum_list_nonneg l : Forall (fun v => 0 < v) l -> 0 <= sum_list l.
Proof. induction 1; cbn; [done|]. unfold sum_list in *. lia. Qed.

(** Parts of the size and at most one more that was cut: together with [fees] they
    are [all], but for a rest of dust that goes with a part given up. *)
Definition cut_parts (dust : Z -> bool) (size fees all : Z) (m : nat) (outs : list Z) : Prop :=
  exists k cut, (k <= m)%nat /\ outs = repeat size k ++ cut /\ (cut = [] \/ exists v, cut = [v] /\ 0 < v < size /\ dust v = false) /\
    (sum_list outs + fees = all \/
      (cut = [] /\ 0 < all - sum_list outs - fees < size /\ dust (all - sum_list outs - fees) = true)).

Lemma claw_back_parts dust size m : 0 < size -> forall f n o c, 0 <= f -> claw_back dust f n (repeat size m) = (o, c) -> o <> [] ->
  cut_parts dust size f (size * Z.of_nat m) m (rev o).
Proof.
  intros Hs. induction m as [|m IH]; intros f n o c Hf H Ho; cbn [repeat claw_back] in H; [by injection H as <- _|].
  rewrite Nat2Z.inj_succ, Z.mul_succ_r. destruct (f <=? 0) eqn:E0; zbool.
  { injection H as <- _. exists (S m), []. change (size :: repeat size m) with (repeat size (S m)). rewrite rev_repeat, app_nil_r.
    split_and!; [done|done|by left|]. left. rewrite sum_list_repeat. lia. }
  destruct (size <=? f) eqn:E1; zbool.
  { destruct (IH (f - size) (n - 1) o c ltac:(lia) H Ho) as (k & cut & Hk & -> & Hc & Hsum). exists k, cut. split_and!; [lia|done|done|].
    destruct Hsum as [Hsum|(-> & Hr & Hd)]; [left; lia|right]. split; [done|].
    replace (size * Z.of_nat m + size - _ - f) with (size * Z.of_nat m - sum_list (repeat size k ++ []) - (f - size)) by lia. done. }
  destruct (dust (size - f)) eqn:Ed; injection H as <- _.
  - exists m, []. rewrite rev_repeat, app_nil_r. split_and!; [lia|done|by left|]. right. rewrite sum_list_repeat. split; [done|].
    replace (size * Z.of_nat m + size - size * Z.of_nat m - f) with (size - f) by lia. split; [lia|done].
  - exists m, [size - f]. cbn [rev]. rewrite rev_repeat. split_and!; [lia|done|right; exists (size - f); split_and!; try done; lia|].
    left. rewrite sum_list_app, sum_list_repeat. cbn. lia.
Qed.

(** What comes out of [n] parts of [size] of a total, with a fee to pay: all the
    parts and the change after the fee, where it is no dust; else the fee is cut
    from the last parts. *)
Definition split_shape (dust : Z -> bool) (size n total fees : Z) (outs : list Z) : Prop :=
  let change := total - n * size - fees in
  (0 < change /\ dust change = false /\ outs = repeat size (Z.to_nat n) ++ [change]) \/
  ((change <= 0 \/ dust change = true) /\ cut_parts dust size fees (n * size) (Z.to_nat n) outs).

Lemma split_outputs_shape dust size n total fees o c :
  0 < size -> 0 < n -> n * size <= total < 2 ^ 63 -> 0 <= fees < 2 ^ 63 ->
  split_outputs dust size n (total - n * size) fees = (o, c) -> o <> [] -> split_shape dust size n total fees o.
Proof.
  intros Hs Hn Ht Hf H Ho. unfold split_outputs in H. rewrite (swrap64_small (total - n * size)), (swrap64_small fees) in H by lia.
  rewrite swrap64_small in H by lia. unfold split_shape. set (change := total - n * size - fees) in *.
  destruct ((0 <? change) && negb (dust change)) eqn:E.
  - injection H as <- _. apply andb_true_iff in E as [E Hd%negb_true_iff]. zbool. by left.
  - right. split.
    { apply andb_false_iff in E as [E|E%negb_false_iff]; [left; by apply Z.ltb_ge|by right]. }
    destruct (claw_back dust fees n (rev (repeat size (Z.to_nat n)))) as [o' c'] eqn:Ec. injection H as <- _. rewrite rev_repeat in Ec.
    replace (n * size) with (size * Z.of_nat (Z.to_nat n)) by lia. apply (claw_back_parts dust size (Z.to_nat n) Hs fees n o' c'); [lia|done|by intros ->].
Qed.

(** Nothing is paid out that is not paid in, and nothing is lost but the fee and
    rests of dust. *)
Lemma split_shape_pays dust size n total fees o : 0 < size -> 0 < n -> n * size <= total -> split_shape dust size n total fees o ->
  Forall (fun v => 0 < v) o /\ sum_list o + fees <= total.
Proof.
  intros Hs Hn Ht [(H1 & _ & ->)|(_ & k & cut & _ & -> & Hc & Hsum)].
  - split; [|rewrite sum_list_app, sum_list_repeat; cbn; lia].
    apply Forall_app. split; [|by constructor]. apply Forall_forall. intros v Hv%list_elem_of_In%repeat_spec. lia.
  - split; [|destruct Hsum as [?|(_ & ? & _)]; lia]. apply Forall_app. split; [apply Forall_forall; intros v Hv%list_elem_of_In%repeat_spec; lia|].
    destruct Hc as [->|(v & -> & ? & _)]; [constructor|constructor; [lia|constructor]].
Qed.

(** ** The inputs *)

Lemma resolve_spec wallet : forall want l missing, resolve want wallet = (l, missing) ->
  Forall (fun u => u ∈ wallet) l /\ NoDup (map utxoKey l) /\ (forall k, k ∈ map utxoKey l -> k ∈ want) /\
  (forall k, k ∈ want -> k ∈ missing \/ k ∈ map utxoKey l).
Proof.
  induction wallet as [|w wallet IH]; intros want l missing H; cbn [resolve] in H.
  { injection H as <- <-. split_and!; [constructor|constructor|set_solver|set_solver]. }
  case_bool_decide as Hw.
  - destruct (resolve (want ∖ {[utxoKey w]}) wallet) as [l' m'] eqn:E. injection H as <- <-. destruct (IH _ _ _ E) as (H1 & H2 & H3 & H4).
    split_and!.
    + constructor; [by left|]. eapply Forall_impl; [exact H1|]. intros u Hu. by right.
    + cbn [map]. constructor; [|done]. intros Hin. apply H3 in Hin. set_solver.
    + intros k. cbn [map]. rewrite elem_of_cons. intros [-> | Hk]; [done|]. apply H3 in Hk. set_solver.
    + intros k Hk. cbn [map]. rewrite elem_of_cons. destruct (decide (k = utxoKey w)) as [->|Hne]; [auto|].
      destruct (H4 k ltac:(set_solver)); auto.
  - destruct (IH _ _ _ H) as (H1 & H2 & H3 & H4). split_and!; try done. eapply Forall_impl; [exact H1|]. intros u Hu. by right.
Qed.

Section Laws.
Context (uni : Unicode) (e : Env) (s : Store).

(** What a split spends: P2PKH outputs of the wallet; of the address and free
    if none were asked for, else the ones asked for, each at most once. *)
Definition split_spends (q : split_req) (wallet asked us : list Utxo) : Prop :=
  us <> [] /\ (length us <= 100)%nat /\ Forall (fun u => u ∈ wallet /\ isP2PKH25 (u_ScriptPubKey u) = true) us /\
  (asked = [] -> Forall (fun u => utxoKey u ∉ lockedInfoLocked s /\ u_Address u = sq_address q) us) /\
  (asked <> [] -> NoDup (map utxoKey us) /\ forall k, k ∈ map utxoKey us -> k ∈ map utxoKey asked).

Lemma split_inputs_sound q size wallet asked method us : split_inputs s q size wallet asked method = Good us ->
  split_spends q wallet asked us.
Proof.
  unfold split_inputs, locked_keys. intros H. apply rpc_bind_good in H as (l & Hl & H). rpc_inv. destruct l as [|u0 l]; [done|]. clear x H0.
  set (l' := u0 :: l) in *. assert (Forall (fun u => u ∈ wallet /\ isP2PKH25 (u_ScriptPubKey u) = true) l' /\
    (asked = [] -> Forall (fun u => utxoKey u ∉ lockedInfoLocked s /\ u_Address u = sq_address q) l') /\
    (asked <> [] -> NoDup (map utxoKey l') /\ forall k, k ∈ map utxoKey l' -> k ∈ map utxoKey asked)) as (H1 & H2 & H3).
  { case_bool_decide as Ha.
    - injection Hl as Hl. rewrite <- Hl. split_and!; [|intros _|done]; apply Forall_forall; intros u Hu;
        apply list_elem_of_In, List.filter_In in Hu as [Hu Hb]; apply List.filter_In in Hu as [Hu Hp]; rewrite <- list_elem_of_In in Hu; [done|].
      rewrite !andb_true_iff, negb_true_iff, bool_decide_eq_true, bool_decide_eq_false in Hb. tauto.
    - destruct (resolve _ _) as [r missing] eqn:E. rpc_inv. apply resolve_spec in E as (E1 & E2 & E3 & E4). split_and!; [|done|].
      + eapply Forall_impl; [exact E1|]. intros u Hu. apply list_elem_of_In, List.filter_In in Hu as [Hu Hp]. by rewrite <- list_elem_of_In in Hu.
      + intros _. split; [done|]. intros k Hk. apply E3 in Hk. by apply elem_of_list_to_set in Hk. }
  assert (forall P, Forall P l' -> Forall P (take 100 l')) as Ht by (intros P; apply Forall_take).
  split; [done|]. split; [rewrite length_take; lia|]. split_and!; [by apply Ht|intros Ha; by apply Ht, H2|].
  intros Ha. destruct (H3 Ha) as [H4 H5]. rewrite <- firstn_map. split.
  - eapply sublist_NoDup; [exact H4|apply sublist_take].
  - intros k Hk. apply H5. rewrite <- (take_drop 100 (map utxoKey l')). apply elem_of_app. by left.
Qed.
End Laws.

(** ** The transaction *)

Section Plan.
Context (uni : Unicode) (e : Env) (s : Store).

Lemma lexical_good t v : lexical t = Good v -> 0 <= v < 2 ^ 64.
Proof. unfold lexical. destruct (lexicalAmount t) as [w|] eqn:E; [|done]. intros [= <-]. apply lexicalAmount_range in E. unfold maxXAmount in E. lia. Qed.

Lemma sum_camount_range us : 0 <= sum_camount us < 2 ^ 64.
Proof.
  unfold sum_camount. assert (forall t, 0 <= t < 2 ^ 64 -> 0 <= fold_left (fun t u => wrap 64 (t + camount u)) us t < 2 ^ 64) as H; [|apply H; lia].
  induction us as [|u us IH]; intros t Ht; cbn; [done|]. apply IH. apply Z.mod_pos_bound. lia.
Qed.

(** The input that spends an output. *)
Definition spends (u : Utxo) (i : TxIn) : Prop :=
  exists h, reverseTxidHex (u_TxID u) = Some h /\ i = mkTxIn (mkOutPoint h (u_Vout u)) [] 4294967295 [] 0.

Lemma mapM_spends us ins :
  mapM (fun u => h ← reverseTxidHex (u_TxID u); Some (mkTxIn (mkOutPoint h (u_Vout u)) [] 4294967295 [] 0)) us = Some ins -> Forall2 spends us ins.
Proof.
  intros H. apply mapM_Some_1 in H. eapply Forall2_impl; [exact H|]. intros u i Hi. apply bind_Some in Hi as (h & Hh & [= <-]). by exists h.
Qed.

(** The parts in base units, as long as nothing overflows: the first bound is at
    184,467.44 coins for a coin of eight decimals. *)
Lemma native_sum c script ins ver wt tt outs : 6 <= Decimals c <= 19 -> Forall (fun v => 0 < v) outs -> sum_list outs * 10 ^ Decimals c < 2 ^ 64 ->
  outputs_sum (mkTx ver 0 ins (map (fun v => mkTxOut (fromXBridgeAmt c v) script) outs) false wt tt) = sum_list outs * 10 ^ (Decimals c - 6).
Proof.
  intros Hd Hpos Hb. unfold outputs_sum, sum_amounts. cbn [tx_Outputs]. induction Hpos as [|v l Hv Hl IH]; [done|]. cbn [map fold_right].
  assert (0 < 10 ^ Decimals c) as Hp by (apply Z.pow_pos_nonneg; lia). pose proof (sum_list_nonneg l Hl) as Hn.
  change (sum_list (v :: l)) with (v + sum_list l) in *. rewrite IH by nia. cbn [out_Value].
  assert (u64_ok v) as Hu by (unfold u64_ok, uint_ok; nia).
  rewrite (proj2 (proj1 (fromXBridgeAmt_exact c v ltac:(lia) Hu)) ltac:(nia)).
  replace (v * 10 ^ Decimals c) with (v * 10 ^ (Decimals c - 6) * 1000000).
  - rewrite Z.div_mul by lia. lia.
  - replace (Decimals c) with (Decimals c - 6 + 6) at 2 by lia. rewrite Z.pow_add_r by lia. lia.
Qed.

(** C25. A transaction that splits, of less than 2^63 millionths. It spends exactly
    the chosen outputs, which are P2PKH outputs of the wallet: free ones of the
    address, or the ones asked for, each once, a hundred at most. It pays
    everything to the address ([split_shape]): as many parts of exactly the size
    as the total holds, a hundred at most, and what is left after the fee, if that
    is no dust; else the fee is cut from the last parts, of which one may be left
    smaller. What is paid and the fee never exceed what is spent; and as long as
    the total in base units fits 64 bits, the outputs of the transaction are these
    amounts exactly. *)
Theorem split_balances q asked method p :
  plan_split uni e s q asked method = Good p -> spl_total p < 2 ^ 63 -> 0 <= spl_fees p < 2 ^ 63 ->
  exists conn wallet c cc script,
    e_Connectors e !! sq_ticker q = Some conn /\ ListUnspent conn (cc_Confirmations cc) = inl wallet /\ Get (e_Coins e) (sq_ticker q) = Some c /\
    split_spends s q wallet asked (spl_utxos p) /\ spl_total p = sum_camount (spl_utxos p) /\
    Forall2 spends (spl_utxos p) (tx_Inputs (spl_tx p)) /\
    legacyOutputScript uni c (sq_address q) = Good script /\
    tx_Outputs (spl_tx p) = map (fun v => mkTxOut (fromXBridgeAmt c v) script) (spl_outs p) /\
    (lexical (sq_amount q) = Good (spl_target p) /\ (sq_includeFees q = false -> spl_size p = spl_target p) /\ 0 < spl_size p) /\
    let n := Z.min 100 (spl_total p / spl_size p) in
    spl_fees p = ceilFeeXB (Some cc) (estimateFee (Some cc) (zlen (spl_utxos p)) n) /\
    split_shape (fun v => isDustNative (xBridgeValueFromAmount v) (Some cc) (coinNativeScale c)) (spl_size p) n (spl_total p) (spl_fees p) (spl_outs p) /\
    spl_outs p <> [] /\ Forall (fun v => 0 < v) (spl_outs p) /\ sum_list (spl_outs p) + spl_fees p <= spl_total p /\
    (6 <= Decimals c <= 19 -> spl_total p * 10 ^ Decimals c < 2 ^ 64 -> outputs_sum (spl_tx p) = sum_list (spl_outs p) * 10 ^ (Decimals c - 6)).
Proof.
  intros H Ht Hf. unfold plan_split in H.
  apply rpc_bind_good in H as (conn & Hconn%need_good & H). apply rpc_bind_good in H as (c & Hc%need_good & H).
  apply rpc_bind_good in H as (target & Hlex & H). pose proof (lexical_good _ _ Hlex) as Htarget. apply rpc_bind_good in H as (cc & Hcc%need_good & H).
  apply rpc_bind_good in H as ([] & _ & H). apply rpc_bind_good in H as (a & _ & H). apply rpc_bind_good in H as ([] & _ & H).
  set (size := if sq_includeFees q then _ else _) in H. assert (0 <= size /\ (sq_includeFees q = false -> size = target)) as [Hsize Hincl].
  { subst size. destruct (sq_includeFees q); [split; [apply Z.mod_pos_bound; lia|done]|split; [lia|done]]. }
  clearbody size. apply rpc_bind_good in H as (wallet & Hw%need_w_good & H). apply rpc_bind_good in H as (us & Hus%split_inputs_sound & H).
  apply rpc_bind_good in H as (script & Hscript & H). pose proof (sum_camount_range us) as Htot.
  apply rpc_bind_good in H as (n & Hn & H). destruct (Z.eqb_spec size 0) as [|Hs0]; [done|]. injection Hn as Hn.
  set (m := if 100 <? n then 100 else n) in H. apply rpc_bind_good in H as ([] & Hm%ensure_good & H).
  apply rpc_bind_good in H as ([] & _ & H). apply negb_true_iff, Z.eqb_neq in Hm.
  destruct (split_outputs _ _ _ _ _) as [outs count] eqn:Eo in H. apply rpc_bind_good in H as ([] & Hne%ensure_good & H).
  apply rpc_bind_good in H as (ins & Hins%need_good & H). injection H as <-. cbn [spl_total spl_size spl_fees spl_outs spl_utxos spl_tx spl_target tx_Inputs tx_Outputs] in *.
  apply negb_true_iff, bool_decide_eq_false in Hne. apply mapM_spends in Hins. assert (0 < size) as Hsp by lia.
  assert (0 <= sum_camount us / size < 2 ^ 63) as Hq by (split; [apply Z.div_pos; lia|apply Z.div_lt_upper_bound; nia]).
  rewrite swrap64_small in Hn by lia. assert (m = Z.min 100 (sum_camount us / size)) as Em by (subst m; destruct (100 <? n) eqn:E; zbool; lia).
  assert (0 < m /\ m * size <= sum_camount us) as [Hm0 Hmt].
  { pose proof (Z.mul_div_le (sum_camount us) size ltac:(lia)). split; [lia|]. nia. }
  rewrite (wrap_small 64 m), (wrap_small 64 (m * size)), (wrap_small 64 (sum_camount us - m * size)) in Eo by (unfold uint_ok; nia).
  apply (split_outputs_shape _ _ _ _ _ _ _ Hsp Hm0 (conj Hmt Ht) Hf) in Eo; [|done].
  destruct (split_shape_pays _ _ _ _ _ _ Hsp Hm0 Hmt Eo) as [H1 H2]. clearbody m. subst m.
  exists conn, wallet, c, cc, script. split_and!; try done. intros Hd Hb. apply native_sum; [done|done|].
  assert (0 < 10 ^ Decimals c) by (apply Z.pow_pos_nonneg; lia). nia.
Qed.
End Plan.

Definition split_example : split_req := mkSplitReq tick_a (bytes_of "0.5") sample_b58_address true false true.

Definition example_plan : rpc split_plan := plan_split no_unicode rich_env NewStore split_example [] "dxSplitAddress".

Example split_example_sizes :
  match example_plan with
  | Good p => (spl_total p, spl_size p, spl_fees p, spl_outs p, spl_count p) = (2500000, 500105, 66, repeat 500105 4 ++ [499514], 4)
  | _ => False
  end.
Proof. by vm_compute. Qed.

Definition no_dust_env : Env :=
  mkEnv now0 1700000000 70710 (<[tick_a := market_wallet [market_utxo x0c 1 250000000] []]> ∅) (<[tick_a := no_dust_conf]> ∅)
    (<[tick_a := sample_coin]> ∅) true true false (fun _ => true) 2 1 0 [sample_key].

(** A split into parts of 0 passes where the coin has no dust threshold, and divides by zero. *)
Example split_by_zero :
  plan_split no_unicode no_dust_env NewStore
    (mkSplitReq tick_a (bytes_of "0") sample_b58_address false false true) [] "dxSplitAddress" = Crash.
Proof. by vm_compute. Qed.

Lemma split_balances_witness :
  match example_plan with
  | Good p => sum_list (spl_outs p) + spl_fees p <= spl_total p /\ outputs_sum (spl_tx p) = sum_list (spl_outs p) * 100
  | _ => False
  end.
Proof.
  assert (match example_plan with Good p => (spl_total p <? 2 ^ 63) && (0 <=? spl_fees p) && (spl_fees p <? 2 ^ 63) && (spl_total p * 10 ^ 8 <? 2 ^ 64)
    | _ => false end = true) as Hb by (vm_compute; reflexivity).
  assert (Get (e_Coins rich_env) (sq_ticker split_example) = Some sample_coin) as Ec by (vm_compute; reflexivity).
  destruct example_plan as [p| |] eqn:E; [|discriminate Hb..]. apply andb_true_iff in Hb as [[[H1 H2]%andb_true_iff H3]%andb_true_iff H4].
  destruct (split_balances no_unicode rich_env NewStore split_example [] "dxSplitAddress" p E (proj1 (Z.ltb_lt _ _) H1)
    (conj (proj1 (Z.leb_le _ _) H2) (proj1 (Z.ltb_lt _ _) H3)))
    as (conn & wallet & c & cc & script & _ & _ & Hc & _ & _ & _ & _ & _ & _ & _ & _ & _ & _ & Hpay & Hnat).
  split; [exact Hpay|]. rewrite Ec in Hc. injection Hc as <-. clear -Hnat H4. apply Z.ltb_lt in H4.
  assert (Decimals sample_coin = 8) as Ed by (vm_compute; reflexivity). rewrite Ed in Hnat. apply Hnat; [lia|exact H4].
Defined.
