(* ===== verification/Safety.v ===== *)
(** * Deposits stay recoverable (Frame.v applied to the whole engine)

    Every handler, sweep and resumption is shown to keep the promise of
    [frame], each with the sessions it may release; together they give what one
    turn of the loop does to a session whose deposit is out. *)

From S2P Require Import Prelude Sha256 GoLib Hex Codec Bodies Packet Secp Signer Conf Coin Address Script Price Tx Wallet.
From S2P Require Import Deposit Order Store Session Persist Node Resume Sweep Track Commands Engine Frame.

Lemma evolves_early (C : Prop) s s' :
  cs_ge (s_state s) csCreatedA = false -> s_gen s' = s_gen s -> identity_of s' = identity_of s ->
  cs_num (s_state s) <= cs_num (s_state s') -> s_claimTxID s' = s_claimTxID s -> s_claimCur s' = s_claimCur s -> evolves C s s'.
Proof. intros He Hg Hi Hs H1 H2. constructor; try done. unfold holding. by rewrite He. Qed.

(** Updates before the deposit is out. *)
Lemma cs_ge_mono a b c : cs_ge a b = false -> cs_num b <= cs_num c -> cs_ge a c = false.
Proof. unfold cs_ge. intros ?%Z.leb_gt ?. apply Z.leb_gt. lia. Qed.

Section Handlers.
Context (X C : bytes -> Prop).
Local Abbreviation framed_by := (frame X C).
Context (uni : Unicode) (mem : Z) {secp : Secp}.

Lemma frame_OnHold e id s b n : n_sessions n !! id = Some s -> framed_by n (fst (OnHold uni e id s b n)).
Proof.
  intros Hs. unfold OnHold. destruct (cs_ge (s_state s) csHoldApplied) eqn:Hge; [reflexivity|].
  destruct (negb _); [reflexivity|]. destruct (holdApplySource _ _ _); [|reflexivity..]. cbn.
  assert (cs_ge (s_state s) csCreatedA = false) as Hearly by (eapply cs_ge_mono; [exact Hge | done]).
  assert (cs_num (s_state s) <= 3) by (unfold cs_ge in Hge; apply Z.leb_gt in Hge; cbn in Hge; lia).
  intros j HX. cbn. destruct (decide (j = id)) as [->|Hne].
  - rewrite lookup_alter_eq. destruct (s_isMaker s); autorewrite with sess; cbn; rewrite ?lookup_alter_eq, Hs; cbn;
      by apply evolves_early.
  - rewrite lookup_alter_ne by congruence.
    destruct (s_isMaker s); autorewrite with sess; cbn; rewrite ?lookup_alter_ne by congruence; apply framed_refl.
Qed.

(** An update of the session the handler was given. *)
Lemma frame_upd_known id s f n : n_sessions n !! id = Some s -> (~ X id -> evolves (C id) s (f s)) -> framed_by n (updS id f n).
Proof. intros Hs Hf. apply frame_updS. intros s' Hs' HX. simplify_eq. by apply Hf. Qed.

Lemma frame_OnInit e id s b n : n_sessions n !! id = Some s -> framed_by n (fst (OnInit uni e id s b n)).
Proof.
  intros Hs. unfold OnInit. destruct (cs_ge (s_state s) csInitialized) eqn:Hge; [reflexivity|].
  destruct (verifyInit _ _ _ _) as [[]| |]; try reflexivity. cbn.
  eapply frame_eq; [|done]. eapply frame_upd_known; [exact Hs|]. intros _. apply evolves_early; try done.
  - by eapply cs_ge_mono.
  - unfold cs_ge in Hge. apply Z.leb_gt in Hge. cbn in *. lia.
Qed.

Lemma frame_OnCreateA e id s b n : framed_by n (OnCreateA e id s b n).
Proof.
  unfold OnCreateA. do 4 (case_match; [reflexivity|]). cbv zeta. eapply frame_then; [|apply frame_start_task].
  eapply frame_eq; [|done]. apply frame_harmless. harmless.
Qed.

Lemma frame_OnCreateB e id s b n : framed_by n (OnCreateB mem e id s b n).
Proof.
  unfold OnCreateB. do 3 (case_match; [reflexivity|]).
  case_match; [apply frame_same; apply sess_sendSelfCancel|]. do 2 (case_match; [reflexivity|]).
  cbv zeta. eapply frame_then; [|apply frame_start_task].
  eapply frame_eq; [|done]. apply frame_harmless. harmless.
Qed.

Lemma frame_OnConfirmA e id s b n : framed_by n (OnConfirmA e id s b n).
Proof.
  unfold OnConfirmA. do 3 (case_match; [reflexivity|]). cbv zeta. eapply frame_then; [|apply frame_start_task].
  eapply frame_eq; [|done]. apply frame_harmless. harmless.
Qed.

Lemma frame_OnConfirmB e id s payTxID n : framed_by n (OnConfirmB e id s payTxID n).
Proof.
  unfold OnConfirmB. do 2 (case_match; [reflexivity|]). cbv zeta. eapply frame_then; [|apply frame_start_task].
  eapply frame_eq; [|apply sess_persist]. apply frame_harmless. harmless.
Qed.

Lemma frame_MoveToHistory id status reason now n : framed_by n (n <| n_store ::= MoveToHistory id status reason now |>).
Proof. by apply frame_same. Qed.

(** Finished retires a session that claimed, or one whose deposit never went out. *)
Lemma frame_OnFinished e id s n :
  n_sessions n !! id = Some s -> (holding s = true -> finishedMayTerminate n id s = true -> X id) -> framed_by n (OnFinished e id s n).
Proof.
  intros Hs HX. unfold OnFinished. destruct (finishedMayTerminate n id s) eqn:Hm; [|reflexivity]. cbn.
  eapply frame_then; [|apply frame_pruneSessions]. eapply frame_eq; [|apply sess_persist].
  eapply frame_then; [apply frame_MoveToHistory|]. eapply frame_upd_known; [exact Hs|]. intros HnX.
  destruct (holding s) eqn:Hh; [exfalso; auto|]. constructor; cbn; try done; [destruct (s_state s); cbn; lia | by rewrite Hh].
Qed.

End Handlers.

(** ** Packets *)

Section Packets.
Context (X C : bytes -> Prop) (uni : Unicode) (mem : Z) {secp : Secp}.
Local Abbreviation framed_by := (frame X C).

Definition touched (e : Env) (hub : bytes) (s : SwapSession) : SwapSession :=
  (if bool_decide (hub = zeros 20) then s else s <| s_hub := hub |>) <| s_lastProgress := e_now e |>.

Lemma touched_evolves e hub s (P : Prop) : evolves P s (touched e hub s).
Proof.
  unfold touched. destruct s. case_bool_decide; constructor; cbn; try done; intros; done.
Qed.

Lemma frame_processSwap e pkt ID hub fn n :
  (forall s m, n_store m = n_store n -> n_sessions n !! hexEncode ID = Some s ->
     n_sessions m !! hexEncode ID = Some (touched e hub s) ->
     framed_by m (fst (fn (hexEncode ID) (touched e hub s) m))) ->
  framed_by n (processSwap e pkt ID hub fn n).
Proof.
  intros Hfn. unfold processSwap. destruct (n_sessions n !! hexEncode ID) as [s|] eqn:Hs; [|reflexivity].
  case_match; [reflexivity|]. fold (touched e hub s).
  set (m := n <| n_sessions ::= <[hexEncode ID := touched e hub s]> |>).
  assert (framed_by n m) as Fm.
  { intros j _. subst m. cbn. destruct (decide (j = hexEncode ID)) as [->|Hne].
    - rewrite Hs, lookup_insert_eq. apply touched_evolves.
    - rewrite lookup_insert_ne by congruence. apply framed_refl. }
  case_match; [done|].
  specialize (Hfn s m eq_refl eq_refl). destruct (fn _ _ m) as [n' r]; cbn in Hfn.
  assert (framed_by n n') as F by (eapply frame_then; [exact Fm|]; apply Hfn; subst m; cbn; by rewrite lookup_insert_eq).
  destruct r as [[cmd body]|]; [|done]. pair_step. eapply frame_then; [exact F|]. eapply frame_eq_l; [eassumption|].
  case_match; [|reflexivity]. apply frame_harmless. harmless.
Qed.

(** The only packet that retires a session that holds a deposit is a Finished
    for a swap whose claim is on record. *)
Definition finishes (e : Env) (pkt : Packet) (n : Node) (id : bytes) : Prop :=
  exists b s, DecodeBody (Command pkt) (PBody pkt) = Ok (Body_Finished b) /\ id = hexEncode (Finished_ID b) /\
    n_sessions n !! id = Some s /\ finishedMayTerminate n id s = true.

Lemma finishedMayTerminate_eq n m id s s' :
  n_store m = n_store n -> s_state s' = s_state s -> finishedMayTerminate m id s' = finishedMayTerminate n id s.
Proof. intros Hst E. unfold finishedMayTerminate, orderDepositSent, get_order. by rewrite Hst, E. Qed.

Lemma frame_handlePacket e pkt n :
  (forall id, finishes e pkt n id -> X id) -> framed_by n (handlePacket uni mem e pkt n).
Proof.
  intros HX. unfold handlePacket. destruct (DecodeBody _ _) as [body| |] eqn:Hb; try reflexivity.
  destruct body; try reflexivity; try (apply frame_processSwap; intros s m Hst Hs0 Hs; cbn [fst no_reply]).
  - apply frame_same. apply sess_ingestPending.
  - by apply frame_OnHold.
  - by apply frame_OnInit.
  - apply frame_OnCreateA.
  - apply frame_OnCreateB.
  - apply frame_OnConfirmA.
  - apply frame_OnConfirmB.
  - apply frame_same. apply sess_handleRemoteCancel.
  - apply frame_OnFinished; [done|]. intros Hh Hm. apply HX. eexists _, s. repeat split; [exact Hb | done |].
    rewrite <- Hm. symmetry. apply finishedMayTerminate_eq; [done|]. unfold touched. by case_bool_decide.
  - apply frame_same. apply sess_handleRemoteReject.
Qed.

End Packets.

(** ** Results of builds and broadcasts *)

Section Results.
Context (X C : bytes -> Prop) (mem : Z) {secp : Secp}.
Local Abbreviation framed_by := (frame X C).

Lemma frame_released id f n : X id -> framed_by n (updS id f n).
Proof. intros Hid. apply frame_updS. intros s _ HX. by destruct (HX Hid). Qed.

Lemma frame_release_failed e id isClaim terr (b : bool) n :
  framed_by n (let n := updS id releaseAwait n in if b then build_failed e id isClaim terr n else n).
Proof.
  cbv zeta. eapply frame_then; [apply frame_harmless; apply harmless_releaseAwait|].
  destruct b; [apply frame_build_failed | reflexivity].
Qed.

Lemma frame_applyCreatedA e id gen r n : (forall out, r = inl out -> X id) -> framed_by n (applyCreatedA e id gen r n).
Proof.
  intros HX. unfold applyCreatedA. case_match; [reflexivity|]. destruct r as [out|terr]; cbv zeta; [|apply frame_release_failed].
  eapply frame_then; [|apply frame_intent]. eapply frame_eq; [|apply sess_updO]. apply frame_released. eauto.
Qed.

Lemma frame_release_cancel e id reason n :
  framed_by n (snd (sendSelfCancel mem e id reason (updS id releaseAwait n))).
Proof. eapply frame_eq; [|apply sess_sendSelfCancel]. apply frame_harmless, harmless_releaseAwait. Qed.

Lemma frame_applyCreatedB e id gen r n : (forall out, r = inl out -> X id) -> framed_by n (applyCreatedB mem e id gen r n).
Proof.
  intros HX. unfold applyCreatedB. case_match; [reflexivity|]. destruct r as [out|terr]; cbv zeta.
  - eapply frame_then; [|apply frame_intent]. eapply frame_eq; [|apply sess_updO]. apply frame_released. eauto.
  - case_match; [apply frame_release_cancel | apply frame_release_failed].
Qed.

(** A claim that was built is recorded; the deposit and its refund are not touched. *)
Lemma claim_built_evolves (P : Prop) out check s : P ->
  evolves P s (adopt_check check (adopt_claim out s)).
Proof. intros HP. destruct s. constructor; cbn; try done. Qed.

Lemma frame_applyConfirmedA e id gen r n : (forall out, r = inl out -> C id) -> framed_by n (applyConfirmedA mem e id gen r n).
Proof.
  intros HC. unfold applyConfirmedA. case_match; [reflexivity|]. destruct r as [out|terr]; cbv zeta.
  - eapply frame_then; [|apply frame_intent]. apply frame_updS. intros s _ _. apply claim_built_evolves. eauto.
  - case_match; [apply frame_release_cancel | apply frame_release_failed].
Qed.

Lemma frame_applyConfirmedB e id gen r n : (forall out, r = inl out -> C id) -> framed_by n (applyConfirmedB e id gen r n).
Proof.
  intros HC. unfold applyConfirmedB. case_match; [reflexivity|]. destruct r as [out|terr]; cbv zeta; [|apply frame_release_failed].
  eapply frame_then; [|apply frame_intent]. apply frame_updS. intros s _ _.
  destruct s. constructor; cbn; try done. intros Hn. destruct Hn. eauto.
Qed.

Lemma frame_reply e id cmd body n : framed_by n (reply e id cmd body n).
Proof. unfold reply. apply frame_same. by autorewrite with sess. Qed.

Lemma frame_deposit_failed e id n : framed_by n (deposit_failed e id n).
Proof. unfold deposit_failed. cbv zeta. case_match; [apply frame_scheduleDepositRetry | reflexivity]. Qed.

Lemma frame_claim_failed e id n : framed_by n (claim_failed e id n).
Proof. unfold claim_failed. cbv zeta. case_match; [apply frame_scheduleClaimRetry | reflexivity]. Qed.

(** The deposit went out: the state moves to [st], the refund stays. *)
Definition forward (st : clientState) (s : SwapSession) : Prop :=
  cs_num (s_state s) <= cs_num st /\ cs_ge st csCreatedA = true /\ st <> csFinished.

Lemma sent_evolves (P : Prop) st s : forward st s -> evolves P s (clearDepositRetry s <| s_state := st |>).
Proof.
  intros (Hle & Hge & Hne). destruct s. constructor; cbn in *; try done. unfold holding. cbn.
  intros [[_ Hr]%andb_true_iff Hd]%andb_true_iff. split; [|done].
  assert (cs_lt st csFinished = true) as -> by (destruct st; done). by rewrite Hge, Hr, Hd.
Qed.

Lemma frame_deposit_sent e id st n :
  (forall s, n_sessions n !! id = Some s -> ~ X id -> forward st s) -> framed_by n (deposit_sent e id st n).
Proof.
  intros Hf. unfold deposit_sent. cbv zeta. eapply frame_eq; [|done].
  intros j HX. cbn. destruct (decide (j = id)) as [->|Hne].
  - rewrite !lookup_alter_eq. destruct (n_sessions n !! id) as [s|] eqn:Hs; [|done]. cbn. apply sent_evolves. by apply Hf.
  - rewrite !lookup_alter_ne by congruence. apply framed_refl.
Qed.

Definition phase_of (k : broadcastApply) : clientState := match k with BcDepositA _ => csCreatedA | _ => csCreatedB end.

(** What an accepted broadcast may release: the session of a claim. A deposit must not rewind its session. *)
Definition resumes_ok (k : broadcastApply) (id : bytes) (ok : bool) (n : Node) : Prop :=
  ok = true ->
  match apply_kind k with
  | broadcastDeposit => forall s, n_sessions n !! id = Some s -> ~ X id -> forward (phase_of k) s
  | _ => X id
  end.

Lemma frame_finish e id f n : X id -> (forall m, n_sessions (f m) = n_sessions m) ->
  framed_by n (f (setOrderStatus e id "finished" (updS id (fun s => clearClaimRetry s <| s_state := csFinished |>) n))).
Proof. intros Hid Hf. eapply frame_eq; [|apply Hf]. eapply frame_eq; [|done]. by apply frame_released. Qed.

Lemma frame_resume_broadcast e id gen cur k ok n : resumes_ok k id ok n -> framed_by n (resume_broadcast e id gen cur k ok n).
Proof.
  intros Hok. unfold resume_broadcast.
  assert (framed_by n (updS id releaseAwait n)) as Frel by apply frame_harmless, harmless_releaseAwait.
  assert (forall m, framed_by n (updS id releaseAwait n) -> framed_by (updS id releaseAwait n) m -> framed_by n m) as Hgo
    by (intros; by eapply frame_then).
  destruct k; unfold applyCreatedABroadcast, applyCreatedBBroadcast, applyConfirmedABroadcast, applyConfirmedBBroadcast;
    (case_match; [apply frame_same, sess_recordBroadcast|]); cbv zeta; (apply Hgo; [done|]); destruct ok; cbn [negb];
    try apply frame_deposit_failed; try apply frame_claim_failed; (eapply frame_then; [|apply frame_reply]).
  - apply frame_deposit_sent. intros s Hs HX. cbn in Hs. rewrite lookup_alter_eq in Hs.
    destruct (n_sessions n !! id) as [s0|] eqn:E; [|done]. simplify_option_eq. by apply (Hok eq_refl s0).
  - apply frame_deposit_sent. intros s Hs HX. cbn in Hs. rewrite lookup_alter_eq in Hs.
    destruct (n_sessions n !! id) as [s0|] eqn:E; [|done]. simplify_option_eq. by apply (Hok eq_refl s0).
  - apply (frame_finish e id (fun n => updO id _ n)); [by apply Hok | done].
  - apply (frame_finish e id (fun n => updO id _ n)); [by apply Hok | done].
Qed.

Lemma frame_broadcast_done e id gen cur hex k r n :
  resumes_ok k id (match r with inl _ => true | inr _ => false end) n -> framed_by n (broadcast_done e id gen cur hex k r n).
Proof.
  intros Hok. unfold broadcast_done. destruct r as [txid|]; [|by apply frame_resume_broadcast].
  set (m := match txIDFromHex hex with Some _ => _ | None => _ end).
  assert (n_sessions m = n_sessions n) as Hm by (subst m; case_match; [apply sess_recordBroadcast | done]).
  eapply frame_eq_l; [exact Hm|]. eapply frame_then; [apply (frame_harmless _ _ id _ m (harmless_progress (e_now e)))|].
  apply frame_resume_broadcast. intros _. specialize (Hok eq_refl). destruct (apply_kind k); try done.
  intros s Hs HX. cbn in Hs. rewrite lookup_alter_eq, Hm in Hs.
  destruct (n_sessions n !! id) as [s0|] eqn:E; [|done]. simplify_option_eq. by apply (Hok s0).
Qed.

End Results.

(** ** Sweeps *)

Section Sweeps.
Context (X C : bytes -> Prop) (uni : Unicode) (mem : Z) {secp : Secp}.
Local Abbreviation framed_by := (frame X C).

Lemma frame_clearStuckAwait e n : framed_by n (clearStuckAwait e n).
Proof.
  apply frame_each_session. intros id s m _ _. case_match; [|reflexivity]. apply frame_harmless, harmless_releaseAwait.
Qed.

Lemma frame_enterSecretHunt e id n : framed_by n (enterSecretHunt e id n).
Proof.
  unfold enterSecretHunt. destruct (n_sessions n !! id); [|reflexivity]. case_match; [reflexivity|].
  eapply frame_eq; [|apply sess_persist]. eapply frame_eq; [|done]. apply frame_harmless. harmless.
Qed.

Lemma frame_scanRefunds e n : framed_by n (scanRefunds e n).
Proof.
  apply frame_each_session. intros id s m _ _. case_match; [|reflexivity].
  apply frame_same. by rewrite sess_postRefundTask.
Qed.

Lemma sess_stored_refund e id o n n' d : stored_refund mem e id o n = Some (n', d) -> n_sessions n' = n_sessions n.
Proof.
  unfold stored_refund. intros H.
  repeat (case_match; simplify_eq; try done). by rewrite sess_postRefundTask.
Qed.

Lemma sess_scanStoredRefunds e n : n_sessions (scanStoredRefunds mem e n) = n_sessions n.
Proof.
  unfold scanStoredRefunds. generalize false. generalize (e_keys e). intros keys. revert n.
  induction keys as [|id keys IH]; intros n d; cbn; [case_match; by rewrite ?sess_persist|].
  destruct (st_orders (n_store n) !! id) as [o|]; [|apply IH].
  destruct (stored_refund _ _ _ _ _) as [[m d']|] eqn:E; [|done]. rewrite IH. by eapply sess_stored_refund.
Qed.

Lemma frame_resendHoldApplies e n : framed_by n (resendHoldApplies uni e n).
Proof.
  unfold resendHoldApplies. generalize (e_keys e). intros keys. revert n.
  induction keys as [|id keys IH]; intros n; cbn [resend_loop]; [reflexivity|].
  destruct (n_sessions n !! id); [|apply IH]. case_match; [apply IH|].
  destruct (holdApplySource _ _ _); [|apply IH | reflexivity]. pair_step.
  eapply frame_eq_l; [eassumption|]. case_match; [|apply IH]. eapply frame_then; [|apply IH]. apply frame_harmless. harmless.
Qed.

Lemma frame_recordSilentHubs e n : framed_by n (recordSilentHubs e n).
Proof. apply frame_each_session. intros id s m _ _. apply frame_same. by repeat case_match. Qed.

Lemma frame_watchStalledSessions e n : framed_by n (watchStalledSessions mem e n).
Proof.
  unfold watchStalledSessions. generalize (e_keys e). intros keys. apply frame_same. revert n.
  induction keys as [|id keys IH]; intros n; cbn [stall_loop]; [done|].
  destruct (n_sessions n !! id); [|apply IH]. case_match; [|apply IH]. pair_step. case_match; [|done]. by rewrite IH.
Qed.

Lemma sess_gcStaleMineOrders e n : n_sessions (gcStaleMineOrders e n) = n_sessions n.
Proof.
  unfold gcStaleMineOrders, each_order. generalize (e_keys e). intros keys. revert n.
  induction keys as [|id keys IH]; intros n; cbn; [done|]. rewrite IH. by repeat case_match.
Qed.

Lemma sess_postDepositWatchTask e id s n : n_sessions (postDepositWatchTask e id s n) = n_sessions n.
Proof. unfold postDepositWatchTask. cbv zeta. pair_step. by case_match. Qed.

Lemma frame_no_misses id n : framed_by n (no_misses id n).
Proof. apply frame_harmless. harmless. Qed.

Lemma frame_watchCounterpartyDeposits e n : framed_by n (watchCounterpartyDeposits e n).
Proof.
  apply frame_each_session. intros id s m _ _. case_match; [apply frame_no_misses|]. case_match; [reflexivity|].
  apply frame_same. by rewrite sess_postDepositWatchTask.
Qed.

Lemma frame_apply_watch e t r n : framed_by n (apply_watch mem e t r n).
Proof.
  unfold apply_watch. cbv zeta. set (m := n <| n_pendingWatch ::= _ |>). apply (frame_eq_l _ _ _ m); [done|].
  destruct r as [out|]; [|apply frame_no_misses]. case_match; [apply frame_no_misses|].
  destruct (n_sessions _ !! _); [|reflexivity]. case_match; [apply frame_no_misses|].
  case_match; [apply frame_harmless; harmless|]. eapply frame_then; [apply frame_no_misses|].
  case_match; [apply frame_enterSecretHunt | apply frame_same, sess_sendSelfCancel].
Qed.

(** ** Refund results *)

Lemma sess_call_done e t txid err n : n_sessions (call_done e t txid err n) = n_sessions n.
Proof. unfold call_done. repeat case_match; autorewrite with sess; done. Qed.

Lemma sess_refund_failed e t n : n_sessions (refund_failed e t n) = n_sessions n.
Proof.
  unfold refund_failed. cbv zeta. repeat case_match; autorewrite with sess; cbn; autorewrite with sess;
    rewrite ?sess_call_done; done.
Qed.

Lemma frame_refund_sent e t txid n : (txid <> [] -> X (rt_order t)) -> framed_by n (refund_sent e t txid n).
Proof.
  intros HX. unfold refund_sent. cbv zeta. eapply frame_eq_l; [apply (sess_call_done e t txid None n)|].
  destruct (is_empty txid) eqn:Ht; [reflexivity|].
  assert (X (rt_order t)) as Hid by (apply HX; intros ->; done).
  eapply frame_then; [|apply frame_pruneSessions]. eapply frame_eq; [|apply sess_persist].
  match goal with |- frame _ _ ?n0 (if ?b then _ else updS _ _ ?m) =>
    assert (n_sessions m = n_sessions n0) as Em by (case_match; [by rewrite sess_recordBroadcast | done]);
    eapply frame_eq_l; [exact Em|]; destruct b end.
  - eapply frame_eq; [|done]. by apply frame_released.
  - by apply frame_released.
Qed.

Definition refund_sends (r : wres refundOutcome) : Prop :=
  exists out, r = inl out /\ ro_depositSpent out = false /\ ro_txid out <> [].

Lemma frame_apply_refund e t r n : (refund_sends r -> X (rt_order t)) -> framed_by n (apply_refund e t r n).
Proof.
  intros HX. unfold apply_refund. cbv zeta. set (m := n <| n_pendingRefunds ::= _ |>). apply (frame_eq_l _ _ _ m); [done|].
  destruct r as [out|]; [|apply frame_same, sess_refund_failed].
  destruct (ro_depositSpent out) eqn:Hsp; [|apply frame_refund_sent; intros; apply HX; by exists out].
  destruct (n_sessions _ !! _) as [s|].
  - case_match; [apply frame_same, sess_refund_failed|].
    eapply frame_then; [apply frame_enterSecretHunt | apply frame_same, sess_call_done].
  - apply frame_same. case_match; [apply sess_recordRefundFailure | apply sess_call_done].
Qed.

(** ** The watch table and the own-deposit watch *)

Lemma sess_finalize_and_persist e n : n_sessions (finalize_and_persist e n) = n_sessions n.
Proof. unfold finalize_and_persist, finalizeWatchEntries. case_match; autorewrite with sess; done. Qed.

Lemma sess_pollBroadcastConfirmations e n : n_sessions (pollBroadcastConfirmations e n) = n_sessions n.
Proof.
  unfold pollBroadcastConfirmations. case_match; [done|]. destruct (confirm_list e n); [apply sess_finalize_and_persist|].
  pair_step. by case_match.
Qed.

Lemma sess_rebroadcastUnconfirmed e n : n_sessions (rebroadcastUnconfirmed e n) = n_sessions n.
Proof.
  unfold rebroadcastUnconfirmed. case_match; [done|]. destruct (rebroadcast_list e n); [done|]. pair_step. by case_match.
Qed.

Lemma sess_apply_confirms e depths n : n_sessions (apply_confirms e depths n) = n_sessions n.
Proof. unfold apply_confirms, finalizeWatchEntries. cbv zeta. case_match; autorewrite with sess; done. Qed.

Lemma sess_apply_rebroadcast e sent n : n_sessions (apply_rebroadcast e sent n) = n_sessions n.
Proof. unfold apply_rebroadcast. cbv zeta. case_match; autorewrite with sess; done. Qed.

Lemma sess_pruneTracked n : n_sessions (pruneTracked n) = n_sessions n.
Proof. unfold pruneTracked. by case_match. Qed.

Lemma sess_postOwnWatchTask e id n : n_sessions (snd (postOwnWatchTask e id n)) = n_sessions n.
Proof. unfold postOwnWatchTask. destruct (n_sessions n !! id); [|done]. cbv zeta. pair_step. by case_match. Qed.

Lemma frame_watchOwnDepositSpends e n : framed_by n (watchOwnDepositSpends e n).
Proof.
  apply frame_each_session. intros id s m _ _. case_match; [|reflexivity]. apply frame_same.
  by rewrite sess_postOwnWatchTask.
Qed.

Lemma frame_apply_own_watch e t r ok n : framed_by n (apply_own_watch e t r ok n).
Proof.
  unfold apply_own_watch. cbv zeta. set (m := n <| n_pendingOwnWatch ::= _ |>). apply (frame_eq_l _ _ _ m); [done|].
  case_match; [reflexivity|].
  match goal with |- frame _ _ ?m _ => assert (forall m', n_sessions m' = n_sessions m ->
    framed_by m (rescan_backoff e (ow_order t) r (advance_cursor e (ow_order t) r (clear_hunt e (ow_order t) r m')))) as F end.
  { intros m' Em. eapply frame_eq_l; [exact Em|].
    eapply frame_eq; [|unfold rescan_backoff; by repeat case_match].
    eapply frame_then with (m := clear_hunt e (ow_order t) r m').
    - unfold clear_hunt. case_match; [|reflexivity]. eapply frame_eq; [|apply sess_persist]. apply frame_harmless. harmless.
    - unfold advance_cursor. case_match; [|reflexivity]. eapply frame_eq; [|apply sess_persist].
      eapply frame_eq; [|done]. apply frame_harmless. harmless. }
  case_match; [by apply F|]. eapply frame_then; [|apply frame_OnConfirmB]. by apply F.
Qed.

End Sweeps.

(** ** Retries *)

(** The claim on record is on the chain: the retry adopts it. *)
Definition claim_on_chain (e : Env) (n : Node) (id : bytes) : bool :=
  match n_sessions n !! id with Some s => on_chain (e_Connectors e !! s_claimCur s) (s_claimTxID s) | None => false end.

Section Retries.
Context (X : bytes -> Prop) (mem : Z) {secp : Secp}.
Local Abbreviation framed_by := (frame X never).

Lemma harmless_depositRetryAt v : harmless (fun s => s <| s_depositRetryAt := v |>).
Proof. harmless. Qed.
Lemma harmless_claimRetryAt v : harmless (fun s => s <| s_claimRetryAt := v |>).
Proof. harmless. Qed.

Lemma frame_repost_build e id isClaim t n : framed_by n (repost_build e id isClaim t n).
Proof.
  unfold repost_build. cbv zeta.
  set (m := updS _ _ n).
  assert (framed_by n m) as Fm by (apply frame_harmless; destruct isClaim; harmless).
  pose proof (frame_postSwapTask X never id t m) as Fp. destruct (postSwapTask id t m) as [[] m']; cbn in Fp.
  - by eapply frame_then.
  - eapply frame_then; [by eapply frame_then|]. apply frame_harmless. destruct isClaim; harmless.
Qed.

(** A repost of stored bytes, once the guards of the retry passed. *)
Lemma frame_repost id gen conn cur hex k f g m :
  harmless f -> harmless g ->
  framed_by m (let '(ok, n') := postBroadcastTask id gen conn cur hex k (updS id f m) in
               if ok then n' else updS id g (updS id releaseAwait n')).
Proof.
  intros Hf Hg. pose proof (frame_postSwapTask X never id (TBroadcast id gen conn cur hex k) (updS id f m)) as Fp.
  unfold postBroadcastTask. destruct (postSwapTask _ _ _) as [[] m']; cbn in Fp.
  - eapply frame_then; [|exact Fp]. by apply frame_harmless.
  - eapply frame_then; [apply (frame_harmless _ _ id f m Hf)|]. eapply frame_then; [exact Fp|].
    eapply frame_then; [apply frame_harmless, harmless_releaseAwait | by apply frame_harmless].
Qed.

Lemma frame_retry_deposit e id s n : n_sessions n !! id = Some s -> framed_by n (retry_deposit e id s n).
Proof.
  intros Hs. unfold retry_deposit. cbv zeta. destruct (s_await s); [reflexivity|].
  destruct (negb _ && negb _).
  - destruct (_ || orderDepositSent n id) eqn:Hpre; [reflexivity|]. apply orb_false_iff in Hpre as [Hpre _]. apply negb_false_iff in Hpre.
    destruct (_ || _); [reflexivity|].
    unfold adoptOrRepostDeposit. cbv zeta. destruct (_ !! s_srcCur s).
    + destruct (on_chain _ _).
      * eapply frame_then; [apply frame_harmless, (harmless_depositRetryAt 0)|]. apply frame_resume_broadcast. intros _.
        destruct (s_isMaker s); cbn; intros s' Hs' _; rewrite lookup_alter_eq, Hs in Hs'; simplify_option_eq;
          unfold forward, cs_lt in *; cbn in *; zbool; repeat split; try done; lia.
      * destruct (_ <=? _); [apply frame_harmless, harmless_depositRetryAt|]. apply frame_repost; [harmless | apply harmless_depositRetryAt].
    + destruct (_ <=? _); apply frame_harmless, harmless_depositRetryAt.
  - destruct (negb _); [reflexivity|]. destruct (rebuild_deposit_task _ _ _ _); [|reflexivity].
    repeat case_match; try reflexivity; apply frame_repost_build.
Qed.

Lemma frame_retryFailedDepositBuilds e n : framed_by n (retryFailedDepositBuilds e n).
Proof. apply frame_each_session. intros id s m _ Hs. by apply frame_retry_deposit. Qed.

Lemma frame_retry_claim e id s n :
  n_sessions n !! id = Some s -> (on_chain (e_Connectors e !! s_claimCur s) (s_claimTxID s) = true -> X id) ->
  framed_by n (retry_claim e id s n).
Proof.
  intros Hs HX. unfold retry_claim. cbv zeta. destruct (_ || _); [reflexivity|].
  destruct (negb _ && negb _).
  - destruct (negb (if s_isMaker s then _ else _)); [apply frame_harmless, harmless_claimRetryAt|].
    unfold adoptOrRepostClaim. cbv zeta. destruct (_ !! s_claimCur s) as [conn|] eqn:Hc.
    + destruct (on_chain _ _) eqn:Hon.
      * eapply frame_then; [apply frame_harmless, (harmless_claimRetryAt 0)|]. apply frame_resume_broadcast. intros _.
        destruct (s_isMaker s); cbn; apply HX; done.
      * destruct (_ <=? _); [apply frame_harmless, harmless_claimRetryAt|]. apply frame_repost; [harmless | apply harmless_claimRetryAt].
    + destruct (_ <=? _); apply frame_harmless, harmless_claimRetryAt.
  - destruct (negb _); [reflexivity|]. destruct (rebuild_claim_task _ _ _ _); [apply frame_repost_build | reflexivity].
Qed.

End Retries.

(** The claim of a session met during the sweep is the one it had before. *)
Definition adopts (e : Env) (n : Node) (id : bytes) : Prop := claim_on_chain e n id = true.

Lemma frame_retryFailedClaimBuilds {secp : Secp} e n m :
  frame (adopts e n) never n m -> frame (adopts e n) never n (retryFailedClaimBuilds e m).
Proof.
  intros F. eapply frame_then; [exact F|]. apply frame_each_session. intros id s m' Fm Hs.
  apply frame_retry_claim; [done|]. intros Hon. unfold adopts.
  destruct (claim_on_chain e n id) eqn:Hc; [done|].
  assert (~ adopts e n id) as HnX by (unfold adopts; congruence).
  pose proof (frame_then _ _ _ _ _ F Fm id HnX) as Fid. rewrite Hs in Fid. unfold claim_on_chain in Hc.
  destruct (n_sessions n !! id) as [s0|] eqn:E; [|done].
  destruct (ev_claim _ _ _ Fid (fun h => h)) as [E1 E2]. rewrite E1, E2 in Hon. congruence.
Qed.

(** ** Commands *)

Section Commands.
Context (X C : bytes -> Prop) (ripemd160 : bytes -> bytes) (mem : Z) {secp : Secp}.
Local Abbreviation framed_by := (frame X C).

(** A map of sessions that differs from another at released ids only. *)
Lemma frame_outside n m : (forall id, ~ X id -> n_sessions m !! id = n_sessions n !! id) -> framed_by n m.
Proof. intros H id HX. rewrite H by done. apply framed_refl. Qed.

Lemma frame_commitMake e o ma ta priv pub secret pkt pending n :
  X (hexEncode (o_ID o)) -> framed_by n (snd (commitMake ripemd160 e o ma ta priv pub secret pkt pending n)).
Proof.
  intros Hid. unfold commitMake. cbv zeta.
  set (m := add_session _ _ _). assert (forall m', n_sessions m' = n_sessions m -> framed_by n m') as Hm.
  { intros m' E. apply frame_outside. intros j HX. rewrite E. cbn. rewrite lookup_insert_ne by (intros <-; done). done. }
  assert (forall m', n_sessions m' = delete (hexEncode (o_ID o)) (n_sessions m) -> framed_by n m') as Hd.
  { intros m' E. apply frame_outside. intros j HX. rewrite E. rewrite lookup_delete_ne by (intros <-; done).
    cbn. rewrite lookup_insert_ne by (intros <-; done). done. }
  clearbody m. destruct pending; [by apply Hm; cbn; autorewrite with sess|]. pair_step. destruct b; cbn [negb].
  - pair_step. destruct b; cbn [snd]; [apply Hm; congruence|]. apply Hd. autorewrite with sess. cbn. congruence.
  - apply Hd. cbn. congruence.
Qed.

Lemma frame_commitTake e key fa ta pkt priv pub proofs used fees n :
  X key -> (forall o, get_order n key = Some o -> X (hexEncode (o_ID o))) ->
  framed_by n (snd (commitTake e key fa ta pkt priv pub proofs used fees n)).
Proof.
  intros Hk Hid. unfold commitTake. destruct (get_order n key) as [o|]; [|by apply frame_same]. specialize (Hid o eq_refl).
  cbv zeta. change (o_ID (take_stamp e fa ta pub proofs used fees o)) with (o_ID o).
  set (m := add_session _ _ _).
  assert (forall m', n_sessions m' = n_sessions m -> framed_by n m') as Hm.
  { intros m' E. apply frame_outside. intros j HX. rewrite E. cbn. rewrite lookup_insert_ne by (intros <-; done). done. }
  assert (forall m', n_sessions m' = n_sessions m -> framed_by n (revertTake e key o m')) as Hr.
  { intros m' E. unfold revertTake. apply frame_outside. intros j HX. autorewrite with sess. cbn.
    rewrite lookup_delete_ne, E by (intros <-; done). cbn. rewrite lookup_insert_ne by (intros <-; done). done. }
  clearbody m. pair_step. destruct b; cbn [negb]; [|by apply Hr].
  pair_step. destruct b; cbn [snd]; [|apply Hr; congruence]. apply Hm. unfold registerTakeRetry. case_match; cbn; congruence.
Qed.

Lemma frame_commitCancel e id n : framed_by n (snd (commitCancel mem e id n)).
Proof.
  apply frame_same. unfold commitCancel. destruct (get_order n id); [|done]. case_match; [done|].
  pair_step. case_match; [done|]. cbv zeta. pair_step. cbn in *. case_match; autorewrite with sess; congruence.
Qed.

Lemma frame_utxos_valid e conn id coins n : framed_by n (snd (utxos_valid e conn id coins n)).
Proof.
  apply frame_same. induction coins as [|u coins IH]; cbn; [done|]. case_match; [|done]. case_match; [done|].
  cbn. autorewrite with sess. cbn. by autorewrite with sess.
Qed.

Lemma frame_rotateHub e pick id s o n : framed_by n (snd (rotateHub ripemd160 e pick id s o n)).
Proof.
  unfold rotateHub. case_match; [reflexivity|]. destruct (pick _ _); [|reflexivity]. cbn.
  eapply frame_eq; [|apply sess_persist]. eapply frame_eq; [|done]. apply frame_harmless. harmless.
Qed.

Lemma frame_rebroadcast_offer e pick id s n : framed_by n (rebroadcast_offer ripemd160 e pick id s n).
Proof.
  unfold rebroadcast_offer. case_match; [reflexivity|]. destruct (get_order n id) as [o|]; [|reflexivity].
  do 2 (case_match; [reflexivity|]).
  assert (framed_by n (snd (orderUtxosStillValid e o n))) as F.
  { unfold orderUtxosStillValid. case_match; [apply frame_utxos_valid | reflexivity]. }
  destruct (orderUtxosStillValid e o n) as [[] m]; cbn in F; [|done]. cbn [negb]. cbv zeta.
  eapply frame_then; [exact F|]. destruct (buildOrderPacket _ _ _); try reflexivity.
  pair_step. eapply frame_eq_l; [eassumption|]. destruct b; [by apply frame_same|].
  pose proof (frame_rotateHub e pick id s o n0) as Fr. destruct (rotateHub _ _ _ _ _ _ _) as [[addr|] m']; cbn in Fr; [|done].
  eapply frame_then; [exact Fr|]. pair_step. eapply frame_eq_l; [eassumption|]. case_match; [by apply frame_same | reflexivity].
Qed.

Lemma frame_expiry e pick n : framed_by n (expiry ripemd160 e pick n).
Proof.
  unfold expiry. apply (frame_eq_l _ _ _ (pruneExpired e n)); [done|]. apply frame_each_session. intros id s m _ _.
  apply frame_rebroadcast_offer.
Qed.

End Commands.

(** ** One turn of the loop *)

Section Step.
Context (ripemd160 : bytes -> bytes) {secp : Secp} (uni : Unicode) (mem : Z).
Local Abbreviation step := (engine_step ripemd160 uni mem).

Lemma frame_tick e n : frame (adopts e n) never n (tick uni mem e n).
Proof.
  unfold tick, tickStages. cbn [fold_left snd].
  eapply frame_eq; [|apply sess_persist]. eapply frame_eq; [|done].
  eapply frame_then; [|apply frame_pruneSessions]. eapply frame_eq; [|apply sess_pruneTracked].
  eapply frame_eq; [|apply sess_rebroadcastUnconfirmed]. eapply frame_eq; [|apply sess_pollBroadcastConfirmations].
  eapply frame_then; [|apply frame_watchOwnDepositSpends]. eapply frame_then; [|apply frame_watchCounterpartyDeposits].
  eapply frame_eq; [|apply sess_gcStaleMineOrders]. eapply frame_then; [|apply frame_watchStalledSessions].
  eapply frame_then; [|apply frame_recordSilentHubs]. eapply frame_then; [|apply frame_retryFailedDepositBuilds].
  refine (frame_retryFailedClaimBuilds e n _ _). eapply frame_then; [|apply frame_resendHoldApplies].
  eapply frame_eq; [|apply sess_scanStoredRefunds]. eapply frame_then; [|apply frame_scanRefunds]. apply frame_clearStuckAwait.
Qed.

(** The sessions one turn may release, and those whose claim it may record. *)
Definition released (e : Env) (ev : Event) (n : Node) (id : bytes) : Prop :=
  match ev with
  | EvPacket pkt => finishes e pkt n id
  | EvResult (RDepositA i _ (inl _)) | EvResult (RDepositB i _ (inl _)) => id = i
  | EvResult (RBroadcast i _ _ _ k (inl _)) => apply_kind k = broadcastClaim /\ id = i
  | EvResult (RRefund t r) => refund_sends r /\ id = rt_order t
  | EvMake o _ _ _ _ _ _ _ => id = hexEncode (o_ID o)
  | EvTake key _ _ _ _ _ _ _ _ => id = key \/ exists o, get_order n key = Some o /\ id = hexEncode (o_ID o)
  | EvTick | EvRetry => adopts e n id
  | _ => False
  end.

Definition claims (ev : Event) (id : bytes) : Prop :=
  match ev with EvResult (RClaimA i _ (inl _)) | EvResult (RClaimB i _ (inl _)) => id = i | _ => False end.

(** A broadcast of a deposit is accepted: the session goes to the phase of that broadcast. *)
Definition deposit_accepted (ev : Event) (id : bytes) : Prop :=
  match ev with EvResult (RBroadcast i _ _ _ k (inl _)) => apply_kind k = broadcastDeposit /\ id = i | _ => False end.

Lemma step_frame e ev n :
  frame (fun id => released e ev n id \/ deposit_accepted ev id) (claims ev) n (step e ev n).
Proof.
  destruct ev as [pkt|r|o ma ta priv pub secret pkt pending|key fa ta pkt priv pub proofs used fees|id|id|age| |pick|]; cbn [engine_step].
  - case_match; [|reflexivity]. apply frame_handlePacket. by left.
  - destruct r as [id gen r|id gen r|id gen r|id gen r|id gen cur hex k r|t r|t r|t r ok|depths|sent|o r]; cbn [apply_result].
    + apply frame_applyCreatedA. intros out ->. by left.
    + apply frame_applyCreatedB. intros out ->. by left.
    + apply frame_applyConfirmedA. by intros out ->.
    + apply frame_applyConfirmedB. by intros out ->.
    + apply frame_broadcast_done. destruct r; [|done]. intros _.
      destruct k; cbn; try (intros s _ Hn; destruct Hn; by right); by left.
    + apply frame_apply_refund. by left.
    + apply frame_apply_watch.
    + apply frame_apply_own_watch.
    + apply frame_same, sess_apply_confirms.
    + apply frame_same, sess_apply_rebroadcast.
    + apply frame_same. unfold apply_verify. by repeat case_match.
  - apply frame_commitMake. by left.
  - apply frame_commitTake; [by left; left|]. intros o E. left. right. by exists o.
  - apply frame_commitCancel.
  - apply frame_same, sess_enqueueRefund.
  - by apply frame_same.
  - eapply frame_weaken; [| |apply frame_tick]; [by left | done].
  - apply frame_expiry.
  - unfold retry_lane. eapply frame_then; [|apply frame_retryFailedDepositBuilds].
    eapply frame_weaken; [| |refine (frame_retryFailedClaimBuilds e n n _); reflexivity]; [by left | done].
Qed.

End Step.
