(* ===== verification/Recovery.v ===== *)
(** * The refund of a deposit survives, is tried, and settles

    [run] is a history of the loop. A session whose deposit is out keeps its
    refund through any history that does not release it, its refund is posted
    to a worker when it is due, and an accepted refund closes the session. *)

From S2P Require Import Prelude Sha256 GoLib Hex Codec Bodies Packet Secp Signer Conf Coin Address Script Price Tx Wallet.
From S2P Require Import Deposit DepositLaws Order Store Session Persist Node Resume Sweep Track Commands Engine Sample.
From S2P Require Import Frame Safety.

(** ** Histories *)

Section Run.
Context (ripemd160 : bytes -> bytes) {secp : Secp} (uni : Unicode) (mem : Z).
Local Abbreviation step := (engine_step ripemd160 uni mem).

Fixpoint run (evs : list (Env * Event)) (n : Node) : Node :=
  match evs with [] => n | (e, ev) :: evs => run evs (step e ev n) end.

(** No event of the history releases the session [id] when it comes. *)
Fixpoint unreleased (evs : list (Env * Event)) (n : Node) (id : bytes) : Prop :=
  match evs with [] => True | (e, ev) :: evs => ~ released e ev n id /\ unreleased evs (step e ev n) id end.

Fixpoint undeposited (evs : list (Env * Event)) (id : bytes) : Prop :=
  match evs with [] => True | (_, ev) :: evs => ~ deposit_accepted ev id /\ undeposited evs id end.

(** The part of a session that its recovery needs. *)
Definition same_recovery (s s' : SwapSession) : Prop :=
  s_gen s' = s_gen s /\ identity_of s' = identity_of s /\ holding s' = true /\ refund_of s' = refund_of s.

Definition recoverable (n : Node) (id : bytes) (s : SwapSession) : Prop :=
  exists s', n_sessions n !! id = Some s' /\ same_recovery s s'.

Lemma framed_recoverable (P : Prop) o s o' :
  framed P (Some s) o' -> holding s = true -> o = Some s -> exists s', o' = Some s' /\ same_recovery s s'.
Proof.
  intros F Hh _. destruct o' as [s'|]; cbn in F; [|congruence]. exists s'. split; [done|].
  destruct F as [Hg Hi _ Hho _]. destruct (Hho Hh). done.
Qed.

(** A deposit accepted late may take the state back, but never the refund. *)
Lemma deposit_accepted_recoverable e id gen cur hex k txid n s :
  apply_kind k = broadcastDeposit -> n_sessions n !! id = Some s -> holding s = true ->
  recoverable (broadcast_done e id gen cur hex k (inl txid) n) id s.
Proof.
  intros Hk Hs Hh.
  assert (forall st m, cs_ge st csCreatedA = true -> st <> csFinished ->
    n_sessions m !! id = Some (releaseAwait (s <| s_lastProgress := e_now e |>)) -> recoverable (deposit_sent e id st m) id s) as Hsent.
  { intros st m Hge Hne Hm. eexists. split.
    - unfold deposit_sent. cbn. by rewrite lookup_alter_eq, lookup_alter_eq, Hm.
    - unfold holding in Hh. apply andb_true_iff in Hh as [[_ Hr]%andb_true_iff Hd].
      destruct s. unfold same_recovery, holding, refund_of. cbn in *. repeat split.
      rewrite Hge, Hr, Hd. by destruct st. }
  assert (forall m m', n_sessions m' = n_sessions m -> recoverable m id s -> recoverable m' id s) as Heq.
  { intros m m' E (s' & Hs' & Hr). exists s'. by rewrite E. }
  unfold broadcast_done. cbv zeta. set (m := match txIDFromHex hex with Some _ => _ | None => _ end).
  assert (n_sessions m = n_sessions n) as Hm by (subst m; case_match; [apply sess_recordBroadcast | done]).
  assert (recoverable (updS id (fun s => s <| s_lastProgress := e_now e |>) m) id s) as Hprog.
  { eexists. split; [cbn; by rewrite lookup_alter_eq, Hm, Hs|]. by destruct s. }
  destruct k as [out|out|out|out]; try discriminate Hk; cbn [resume_broadcast];
    unfold applyCreatedABroadcast, applyCreatedBBroadcast; (case_match; [by eapply Heq; [apply sess_recordBroadcast|]|]);
    cbv zeta; cbn [negb]; unfold reply; cbv zeta; (eapply Heq; [by autorewrite with sess|]); eapply Hsent; try done;
    cbn; by rewrite lookup_alter_eq, lookup_alter_eq, Hm, Hs.
Qed.

Lemma step_recoverable e ev n id s :
  n_sessions n !! id = Some s -> holding s = true -> ~ released e ev n id -> recoverable (step e ev n) id s.
Proof.
  intros Hs Hh Hr.
  assert (deposit_accepted ev id \/ ~ deposit_accepted ev id) as [Hd|Hd].
  { destruct ev as [|[| | | |i gen cur hex k [|]| | | | | |]| | | | | | | |]; cbn; try tauto.
    destruct (decide (apply_kind k = broadcastDeposit)), (decide (id = i)); tauto. }
  - destruct ev as [|[| | | |i gen cur hex k [txid|]| | | | | |]| | | | | | | |]; cbn in Hd; try done.
    destruct Hd as [Hk ->]. by apply deposit_accepted_recoverable.
  - pose proof (step_frame ripemd160 uni mem e ev n id) as F. cbn beta in F. rewrite Hs in F.
    eapply framed_recoverable; [apply F; tauto | done | done].
Qed.

Lemma same_recovery_trans a b c : same_recovery a b -> same_recovery b c -> same_recovery a c.
Proof. unfold same_recovery. intros (?&?&?&?) (?&?&?&?). repeat split; congruence. Qed.

(** C1. Once the deposit is out, its refund is never lost. Through any sequence of
    hub packets, worker results, commands and ticks, in any order, the session
    stays, with the same signed refund, lock time, deposit and keys, unless its
    claim or its refund was accepted by a wallet, its claim was found on the
    chain, a Finished came for a claimed swap, a second deposit was built, or a
    new session replaced it. *)
Theorem refund_kept evs n id s :
  n_sessions n !! id = Some s -> holding s = true -> unreleased evs n id -> recoverable (run evs n) id s.
Proof.
  revert n s. induction evs as [|[e ev] evs IH]; intros n s Hs Hh Hu; cbn in *.
  - exists s. done.
  - destruct Hu as [Hr Hu]. destruct (step_recoverable e ev n id s Hs Hh Hr) as (s' & Hs' & Hrec).
    destruct (IH _ s' Hs' (proj1 (proj2 (proj2 Hrec))) Hu) as (s'' & Hs'' & Hrec').
    exists s''. split; [done|]. by eapply same_recovery_trans.
Qed.

End Run.

(** A day of the sample node: ticks, a stray Cancel, a failed claim build. *)
Definition sample_day : list (Env * Event) :=
  [(sample_env, EvTick); (sample_env, EvPacket stray_cancel); (sample_env, EvRetry);
   (sample_env, EvResult (RClaimA sample_key 1 (inr failure))); (sample_env, EvCancel sample_key); (sample_env, EvTick)].

Lemma refund_kept_witness :
  recoverable (run sample_ripemd160 no_unicode (2 ^ 27) sample_day sample_node) sample_key (swap_session csCreatedA).
Proof.
  refine (refund_kept sample_ripemd160 no_unicode (2 ^ 27) sample_day sample_node sample_key (swap_session csCreatedA) _ _ _).
  - vm_compute. reflexivity.
  - vm_compute. reflexivity.
  - cbn [unreleased sample_day]. repeat split; try (vm_compute; intuition discriminate).
    intros (b & s & Hb & _). vm_compute in Hb. discriminate Hb.
Defined.

(** ** The protocol state never goes back *)

Section Forward.
Context (ripemd160 : bytes -> bytes) {secp : Secp} (uni : Unicode) (mem : Z).

(** What a session may have become; [None]: it was retired. *)
Definition later (s : SwapSession) (o : option SwapSession) : Prop :=
  match o with
  | Some s' => s_gen s' = s_gen s /\ identity_of s' = identity_of s /\ cs_num (s_state s) <= cs_num (s_state s')
  | None => holding s = false
  end.

Lemma frame_run evs n id : unreleased ripemd160 uni mem evs n id -> undeposited evs id ->
  framed True (n_sessions n !! id) (n_sessions (run ripemd160 uni mem evs n) !! id).
Proof.
  revert n. induction evs as [|[e ev] evs IH]; intros n Hu Hd; cbn in *; [apply framed_refl|].
  destruct Hu as [Hr Hu], Hd as [Hd0 Hd]. eapply framed_trans; [|by apply IH].
  pose proof (frame_weaken _ (fun id => released e ev n id \/ deposit_accepted ev id) _ (fun _ => True) _ _
    (fun _ h => h) (fun _ _ => I) (step_frame ripemd160 uni mem e ev n)) as F.
  apply F. tauto.
Qed.

(** C11. The protocol state of a session never goes back. Through any history that
    neither releases the session nor reports an accepted deposit broadcast, a
    session is never replaced by another, its role, keys and currencies stay, its
    state only grows, and it is retired only when it holds no deposit. *)
Theorem state_forward evs n id s :
  n_sessions n !! id = Some s -> unreleased ripemd160 uni mem evs n id -> undeposited evs id ->
  later s (n_sessions (run ripemd160 uni mem evs n) !! id).
Proof.
  intros Hs Hu Hd. pose proof (frame_run evs n id Hu Hd) as F. rewrite Hs in F.
  destruct (n_sessions (run _ _ _ evs n) !! id) as [s'|]; cbn in *; [|done]. by destruct F.
Qed.

End Forward.

Definition early_node : Node := node_with (swap_order "initialized" false) (swap_session csInitialized).

Lemma state_forward_witness :
  later (swap_session csInitialized) (n_sessions (run sample_ripemd160 no_unicode (2 ^ 27) sample_day early_node) !! sample_key).
Proof.
  refine (state_forward sample_ripemd160 no_unicode (2 ^ 27) sample_day early_node sample_key (swap_session csInitialized) _ _ _).
  - vm_compute. reflexivity.
  - cbn [unreleased sample_day]. repeat split; try (vm_compute; intuition discriminate).
    intros (b & s & Hb & _). vm_compute in Hb. discriminate Hb.
  - cbn. tauto.
Defined.

(** ** A due refund is posted *)

(** The refund of a session is with a worker, or on its way there. *)
Definition refund_task_for (e : Env) (id : bytes) (s : SwapSession) (t : workTask) : Prop :=
  exists rt, t = TRefund rt /\ rt_order rt = id /\ rt_hex rt = s_refundHex s /\ rt_lockTime rt = s_ourLockTime s /\
    rt_cur rt = s_srcCur s /\ rt_conn rt = e_Connectors e !! s_srcCur s.

(** What makes a session owe itself a refund, in terms of the swap: the deposit is
    out, the signed refund is at hand and not accepted yet, the other side's
    deposit is not claimed (a maker has claimed from ConfirmedA on, a taker from
    ConfirmedB), nothing says that our deposit was spent, the time of the next
    attempt has come, and none is in flight. *)
Record owes_refund (e : Env) (n : Node) (id : bytes) (s : SwapSession) : Prop := {
  ow_refund : s_refundHex s <> [] /\ s_refundDone s = false;
  ow_out : 5 <= cs_num (s_state s) \/ (exists o, get_order n id = Some o /\ o_DepositSent o = true);
  ow_unclaimed : cs_num (s_state s) < (if s_isMaker s then 7 else 8);
  ow_unspent : s_secretHunt s = false;
  ow_time : forall t, n_refundRetryAt n !! id = Some t -> t <= e_now e;
  ow_idle : id ∉ n_pendingRefunds n;
}.

Lemma refund_due_owes e n id s : refund_due e n id s = true <-> owes_refund e n id s.
Proof.
  unfold refund_due, is_empty. rewrite !andb_true_iff, !negb_true_iff, !andb_false_iff, !negb_false_iff, !bool_decide_eq_false. split.
  - intros [[[[[[[[H1 H2] H3] H4] H5] H6] H7] H8] H9]. constructor; try done.
    + unfold cs_lt in H8. destruct H8 as [H8|H8]; [left; apply Z.ltb_ge in H8; done|right]. unfold orderDepositSent in H8.
      destruct (get_order n id) as [o|]; [by exists o|done].
    + destruct (s_isMaker s); [destruct H5 as [?|H5]|destruct H6 as [?|H6]]; try done; by apply Z.leb_gt in H5 || apply Z.leb_gt in H6.
    + intros t Ht. unfold refundBackoffActive in H7. rewrite Ht in H7. by apply Z.ltb_ge in H7.
  - intros [[Hr Hd] Ho Hu Hh Ht Hi]. split_and!; try done.
    + intros E. rewrite E in Hu. by destruct (s_isMaker s).
    + destruct (s_isMaker s); [right; by apply Z.leb_gt|by left].
    + destruct (s_isMaker s); [by left|right; by apply Z.leb_gt].
    + unfold refundBackoffActive. destruct (n_refundRetryAt n !! id) as [t|] eqn:E; [|done]. apply Z.ltb_ge. by apply Ht.
    + destruct Ho as [Ho|(o & Eo & Ho)]; [left; by apply Z.ltb_ge|right]. unfold orderDepositSent. by rewrite Eo.
Qed.

(** A worker sends the refund as it was signed once the chain is at its lock time,
    and before that nothing. *)
Lemma refund_task_runs ripemd160 (secp : Secp) uni mem clock e id s t c h :
  refund_task_for e id s t -> e_Connectors e !! s_srcCur s = Some c -> GetBlockCount c = inl h -> 1 <= h < 2 ^ 32 ->
  exists rt, t = TRefund rt /\
    (h < s_ourLockTime s -> run_task ripemd160 uni mem clock t = Some (RRefund rt (inl (mkRefundOutcome [] false)))) /\
    (s_ourLockTime s <= h -> forall txid, SendRawTransaction c (s_refundHex s) = inl txid ->
      run_task ripemd160 uni mem clock t = Some (RRefund rt (inl (mkRefundOutcome txid false)))).
Proof.
  intros (rt & -> & _ & Hhex & Hlt & _ & Hconn) Hc Hh Hr. exists rt. split; [done|]. cbn [run_task]. unfold runRefundTask.
  rewrite Hconn, Hc, Hh, Hhex, Hlt. destruct (Z.ltb_spec h 1); [lia|]. rewrite wrap_small by (unfold uint_ok; lia). split.
  - intros Hl. by destruct (Z.ltb_spec h (s_ourLockTime s)); [|lia].
  - intros Hl txid Hs. destruct (Z.ltb_spec h (s_ourLockTime s)); [lia|]. by rewrite Hs.
Qed.

Definition scan_refund (e : Env) (id : bytes) (s : SwapSession) (n : Node) : Node :=
  if refund_due e n id s
  then postRefundTask e id (s_srcCur s) (s_refundHex s) (s_ourLockTime s) DoneNil (fun n => n)
         (n <| n_pendingRefunds ::= fun p => {[id]} ∪ p |>)
  else n.

(** The queue after a post: the same when full, one longer otherwise. *)
Lemma post_tasks t n :
  n_tasks (snd (post t n)) = (if zlen (n_tasks n) <? task_queue then n_tasks n ++ [t] else n_tasks n) /\
  fst (post t n) = (zlen (n_tasks n) <? task_queue).
Proof. unfold post. by destruct (_ <? _). Qed.

Record untouched (id : bytes) (n m : Node) : Prop := mkUntouched {
  un_sessions : n_sessions m = n_sessions n;
  un_store : n_store m = n_store n;
  un_retry : n_refundRetryAt m = n_refundRetryAt n;
  un_tasks : n_tasks n `prefix_of` n_tasks m;
  un_pending : (id ∈ n_pendingRefunds m) <-> (id ∈ n_pendingRefunds n);
}.

Lemma scan_refund_post e id s n : refund_due e n id s = true ->
  exists t, refund_task_for e id s t /\
    scan_refund e id s n =
      (let n' := n <| n_pendingRefunds ::= fun p => {[id]} ∪ p |> in
       if zlen (n_tasks n) <? task_queue then n' <| n_tasks ::= fun q => q ++ [t] |>
       else n' <| n_pendingRefunds ::= fun p => p ∖ {[id]} |>).
Proof.
  intros Hd. unfold scan_refund. rewrite Hd. unfold postRefundTask. destruct (refund_probe _ id) as [d p].
  set (rt := mkRefundTask _ _ _ _ _ d p _). exists (TRefund rt). split; [by exists rt|]. unfold post. cbn. by destruct (_ <? _).
Qed.

Lemma scan_refund_untouched e id j s n : j <> id -> untouched id n (scan_refund e j s n).
Proof.
  intros Hne. destruct (refund_due e n j s) eqn:Hd.
  - destruct (scan_refund_post e j s n Hd) as (t & _ & ->). cbv zeta.
    destruct (_ <? _); constructor; try done; cbn; [by apply prefix_app_r | set_solver | set_solver].
  - unfold scan_refund. rewrite Hd. by constructor.
Qed.

Lemma refund_due_untouched e id s n m : untouched id n m -> refund_due e m id s = refund_due e n id s.
Proof.
  intros [Hs Hst Hr _ Hp]. unfold refund_due, refundBackoffActive, orderDepositSent, get_order. rewrite Hst, Hr.
  by rewrite (bool_decide_ext _ _ Hp).
Qed.

Definition scan_refund_key (e : Env) (n : Node) (id : bytes) : Node :=
  match n_sessions n !! id with Some s => scan_refund e id s n | None => n end.

Lemma scan_refund_key_untouched e id j n : j <> id -> untouched id n (scan_refund_key e n j).
Proof. intros. unfold scan_refund_key. destruct (_ !! j); [by apply scan_refund_untouched | by constructor]. Qed.

Lemma untouched_trans id a b c : untouched id a b -> untouched id b c -> untouched id a c.
Proof. intros [] []. constructor; try congruence; [by etransitivity | tauto]. Qed.

(** Tasks are only added. *)
Lemma scan_refund_key_tasks e n j : n_tasks n `prefix_of` n_tasks (scan_refund_key e n j).
Proof.
  unfold scan_refund_key. destruct (_ !! j) as [s|]; [|done]. destruct (refund_due e n j s) eqn:Hd.
  - destruct (scan_refund_post e j s n Hd) as (t & _ & ->). cbv zeta. destruct (_ <? _); cbn; [by apply prefix_app_r | done].
  - unfold scan_refund. by rewrite Hd.
Qed.

Lemma scan_refunds_tasks e keys n : n_tasks n `prefix_of` n_tasks (fold_left (scan_refund_key e) keys n).
Proof.
  revert n. induction keys as [|j keys IH]; intros n; cbn; [done|].
  etransitivity; [apply scan_refund_key_tasks | apply IH].
Qed.

(** Every task the sweep adds is the refund of a session that owed one. *)
Lemma scan_refunds_owed e keys n m :
  n_sessions m = n_sessions n -> n_store m = n_store n -> n_refundRetryAt m = n_refundRetryAt n -> n_pendingRefunds n ⊆ n_pendingRefunds m ->
  exists l, n_tasks (fold_left (scan_refund_key e) keys m) = n_tasks m ++ l /\
    Forall (fun t => exists id s, n_sessions n !! id = Some s /\ owes_refund e n id s /\ refund_task_for e id s t) l.
Proof.
  revert m. induction keys as [|j keys IH]; intros m Hs Hst Hr Hp; cbn [fold_left]; [exists []; by rewrite app_nil_r|].
  unfold scan_refund_key at 2. destruct (n_sessions m !! j) as [s|] eqn:Ej; [|by apply IH].
  destruct (refund_due e m j s) eqn:Hd; [|unfold scan_refund; rewrite Hd; by apply IH].
  assert (owes_refund e n j s) as Ho.
  { apply refund_due_owes in Hd as [H1 H2 H3 H4 H5 H6]. unfold get_order in H2. rewrite Hst in H2. rewrite Hr in H5.
    constructor; [done..|]. set_solver. }
  destruct (scan_refund_post e j s m Hd) as (t & Ht & ->). cbv zeta.
  assert (j ∉ n_pendingRefunds m) as Hnp by (apply refund_due_owes in Hd as [_ _ _ _ _ H6]; exact H6).
  destruct (_ <? _).
  - destruct (IH (m <| n_pendingRefunds ::= fun p => {[j]} ∪ p |> <| n_tasks ::= fun q => q ++ [t] |>)) as (l & E & Hl); [done|done|done|cbn; set_solver|].
    exists (t :: l). split; [by rewrite E; cbn; rewrite <- app_assoc|]. constructor; [|done]. exists j, s. by rewrite <- Hs.
  - destruct (IH (m <| n_pendingRefunds ::= fun p => {[j]} ∪ p |> <| n_pendingRefunds ::= fun p => p ∖ {[j]} |>)) as (l & E & Hl); [done|done|done|cbn; set_solver|].
    by exists l.
Qed.

(** C19. What owes a refund gets one. The sweep leaves, for every session that owes
    itself a refund ([owes_refund]) and while the queue has room, a task with
    exactly the signed refund, its lock time and its wallet, and a task for no
    other session; and the worker that runs the task sends exactly these bytes
    once the chain is at the lock time, and nothing before. *)
Theorem refund_due_posted ripemd160 (secp : Secp) uni mem clock e n :
  (forall id s, n_sessions n !! id = Some s -> owes_refund e n id s -> id ∈ e_keys e -> zlen (n_tasks (scanRefunds e n)) < task_queue ->
    exists t, t ∈ n_tasks (scanRefunds e n) /\ refund_task_for e id s t) /\
  (exists l, n_tasks (scanRefunds e n) = n_tasks n ++ l /\
    Forall (fun t => exists id s, n_sessions n !! id = Some s /\ owes_refund e n id s /\ refund_task_for e id s t) l) /\
  (forall id s t c h, refund_task_for e id s t -> e_Connectors e !! s_srcCur s = Some c -> GetBlockCount c = inl h -> 1 <= h < 2 ^ 32 ->
    exists rt, t = TRefund rt /\
      (h < s_ourLockTime s -> run_task ripemd160 uni mem clock t = Some (RRefund rt (inl (mkRefundOutcome [] false)))) /\
      (s_ourLockTime s <= h -> forall txid, SendRawTransaction c (s_refundHex s) = inl txid ->
        run_task ripemd160 uni mem clock t = Some (RRefund rt (inl (mkRefundOutcome txid false))))).
Proof.
  change (scanRefunds e n) with (fold_left (scan_refund_key e) (e_keys e) n).
  split; [|split; [by apply scan_refunds_owed | intros; by eapply refund_task_runs]].
  intros id s Hs Hd%refund_due_owes Hin Hroom. revert Hin Hroom.
  generalize (e_keys e). intros keys. revert n Hs Hd. induction keys as [|j keys IH]; intros n Hs Hd Hin Hroom; [by apply elem_of_nil in Hin|].
  cbn in *. destruct (decide (j = id)) as [->|Hne].
  - destruct (scan_refund_post e id s n Hd) as (t & Ht & E). exists t. split; [|done].
    pose proof (scan_refunds_tasks e keys (scan_refund_key e n id)) as Hpre. unfold scan_refund_key in Hpre, Hroom |- *. rewrite Hs, E in *.
    cbv zeta in *. destruct (Z.ltb_spec (zlen (n_tasks n)) task_queue) as [Hlt|Hge].
    + destruct Hpre as [k ->]. cbn. rewrite !elem_of_app, list_elem_of_singleton. auto.
    + exfalso. apply prefix_length in Hpre. cbn in Hpre. unfold zlen in *. lia.
  - pose proof (scan_refund_key_untouched e id j n Hne) as U. apply IH.
    + by rewrite (un_sessions _ _ _ U).
    + by rewrite (refund_due_untouched _ _ _ _ _ U).
    + apply list_elem_of_In in Hin as [->|Hin]; [done|]. by apply list_elem_of_In.
    + done.
Qed.

(** A taker that confirmed nothing yet owes the refund as well. *)
Definition taker_session : SwapSession := swap_session csConfirmedA <| s_isMaker := false |>.
Definition taker_node : Node := node_with (swap_order "created" true) taker_session.

Lemma refund_due_posted_witness :
  exists t, t ∈ n_tasks (scanRefunds sample_env taker_node) /\ refund_task_for sample_env sample_key taker_session t.
Proof.
  refine (proj1 (refund_due_posted sample_ripemd160 toy_secp no_unicode (2 ^ 27) 0 sample_env taker_node) sample_key taker_session _ _ _ _).
  - vm_compute. reflexivity.
  - apply refund_due_owes. vm_compute. reflexivity.
  - apply list_elem_of_singleton. reflexivity.
  - vm_compute. reflexivity.
Defined.

(** ** An accepted refund closes the session *)

Definition prune_key (n : Node) (id : bytes) : Node :=
  match n_sessions n !! id with Some s => prune_session id s n | None => n end.

Lemma prune_key_spec n j : n_store (prune_key n j) = n_store n /\
  forall id, n_sessions (prune_key n j) !! id =
    (if decide (id = j) then match n_sessions n !! id with Some s => if sessionIsTerminal n id s then None else Some s | None => None end
     else n_sessions n !! id).
Proof.
  unfold prune_key. destruct (n_sessions n !! j) as [s|] eqn:E.
  - unfold prune_session. destruct (sessionIsTerminal n j s) eqn:Ht.
    + split; [done|]. intros id. cbn. case_decide as Hd; [subst id; by rewrite lookup_delete_eq, E, Ht|].
      by rewrite lookup_delete_ne by congruence.
    + split; [done|]. intros id. case_decide as Hd; [subst id; by rewrite E, Ht | done].
  - split; [done|]. intros id. case_decide as Hd; [subst id; by rewrite E | done].
Qed.

(** Terminal depends on the store and the session alone. *)
Lemma sessionIsTerminal_store n m id s : n_store m = n_store n -> sessionIsTerminal m id s = sessionIsTerminal n id s.
Proof. intros E. unfold sessionIsTerminal, orderDepositSent, get_order. by rewrite E. Qed.

Lemma pruneSessions_spec e n id : n_store (pruneSessions e n) = n_store n /\
  n_sessions (pruneSessions e n) !! id =
    match n_sessions n !! id with
    | Some s => if sessionIsTerminal n id s && bool_decide (id ∈ e_keys e) then None else Some s
    | None => None
    end.
Proof.
  change (pruneSessions e n) with (fold_left prune_key (e_keys e) n). generalize (e_keys e). intros keys. revert n.
  induction keys as [|j keys IH]; intros n; cbn [fold_left].
  - split; [done|]. destruct (n_sessions n !! id); [|done]. rewrite (bool_decide_eq_false_2 (id ∈ [])) by set_solver.
    by rewrite andb_false_r.
  - destruct (prune_key_spec n j) as [Hst Hl]. destruct (IH (prune_key n j)) as [Hst' Hl'].
    split; [congruence|]. rewrite Hl', Hl. destruct (decide (id = j)) as [<-|Hd].
    + rewrite (bool_decide_eq_true_2 (id ∈ id :: keys)) by set_solver.
      destruct (n_sessions n !! id) as [s|]; [|done]. destruct (sessionIsTerminal n id s) eqn:Ht; [done|].
      by rewrite (sessionIsTerminal_store _ _ _ _ Hst), Ht.
    + destruct (n_sessions n !! id) as [s|]; [|done]. rewrite (sessionIsTerminal_store _ _ _ _ Hst).
      by rewrite (bool_decide_ext (id ∈ j :: keys) (id ∈ keys)) by set_solver.
Qed.

(** The worker of a refund past its lock time whose wallet takes the transaction. *)
Definition refund_accepted (t : refundTask) (txid : bytes) : Prop :=
  exists c h, rt_conn t = Some c /\ GetBlockCount c = inl h /\ 1 <= h < 2 ^ 32 /\ rt_lockTime t <= h /\
    SendRawTransaction c (rt_hex t) = inl txid /\ txid <> [].

Definition closes (o : Order) : bool := negb (isOrderTerminal (o_Status o)) || String.eqb (o_Status o) "canceled".

(** C18. An accepted refund closes the swap. When the lock time has passed and the
    wallet takes the refund, the worker reports its id, and the engine marks the
    order rolled back and retires the session; no backoff and no pending mark is
    left, so a later sweep posts nothing for it. *)
Theorem refund_settles ripemd160 (secp : Secp) uni mem clock e t txid n s o :
  refund_accepted t txid -> let id := rt_order t in
  n_sessions n !! id = Some s -> s_await s = false -> id ∈ e_keys e ->
  get_order n id = Some o -> closes o = true -> rollbackGate n id = true ->
  run_task ripemd160 uni mem clock (TRefund t) = Some (RRefund t (inl (mkRefundOutcome txid false))) /\
  let n' := apply_refund e t (inl (mkRefundOutcome txid false)) n in
  n_sessions n' !! id = None /\
  (exists o', get_order n' id = Some o' /\ o_Status o' = "rolled back"%string).
Proof.
  intros (c & h & Hc & Hh & Hr & Hlt & Hsend & Hne) id Hs Haw Hin Ho Hcl Hgate. split.
  - cbn. unfold runRefundTask. rewrite Hc, Hh, Hsend.
    destruct (Z.ltb_spec h 1); [lia|]. rewrite wrap_small by (unfold uint_ok; lia). by destruct (Z.ltb_spec h (rt_lockTime t)); [lia|].
  - cbv zeta. unfold apply_refund. cbv zeta. cbn [ro_depositSpent ro_txid]. unfold refund_sent. cbv zeta.
    fold id. set (m0 := call_done _ _ _ _ _).
    assert (n_sessions m0 = n_sessions n /\ n_store m0 = n_store n) as [Hm0 Hm0'].
    { subst m0. unfold call_done, report. by repeat case_match. }
    destruct (is_empty txid) eqn:He; [unfold is_empty in He; by apply bool_decide_eq_true in He|].
    set (m1 := match txIDFromHex _ with Some _ => _ | None => _ end).
    assert (n_sessions m1 = n_sessions n /\ n_store m1 = n_store n) as [Hm1 Hm1'].
    { subst m1. unfold recordBroadcast. case_match; [repeat case_match|]; done. }
    set (m2 := updS id _ m1).
    assert (n_sessions m2 !! id = Some (s <| s_refundDone := true |>)) as Hm2 by (subst m2; cbn; by rewrite lookup_alter_eq, Hm1, Hs).
    assert (rollbackGate m2 id = true) as ->.
    { unfold rollbackGate in Hgate |- *. rewrite Hm2. rewrite Hs in Hgate. unfold orderDepositSent, get_order in *.
      subst m2. cbn. by rewrite Hm1'. }
    set (m3 := persist _ _).
    assert (n_store m3 = Update id (mark_rolled_back e) (n_store n) /\ n_sessions m3 = n_sessions m2) as [Hst3 Hs3].
    { subst m3 m2. unfold persist. case_match; cbn; by rewrite Hm1'. }
    destruct (pruneSessions_spec e m3 id) as [Hst Hl].
    assert (get_order m3 id = Some (mark_rolled_back e o)) as Ho3.
    { unfold get_order, Store_Get. rewrite Hst3. cbn. unfold get_order, Store_Get in Ho. by rewrite lookup_alter_eq, Ho. }
    split.
    + rewrite Hl, Hs3, Hm2. rewrite bool_decide_eq_true_2 by done.
      assert (sessionIsTerminal m3 id (s <| s_refundDone := true |>) = true) as ->; [|done].
      unfold sessionIsTerminal. cbn. rewrite andb_false_r, Haw, Ho3. rewrite orb_true_r. by destruct (bool_decide (s_state s = csFinished)).
    + eexists. split; [unfold get_order; rewrite Hst; exact Ho3|]. unfold mark_rolled_back, closes in *.
      destruct (String.eqb_spec (o_Status o) "rolled back") as [E|]; [by rewrite andb_false_r|]. by rewrite Hcl.
Qed.

Definition sample_refund_task : refundTask :=
  mkRefundTask sample_key (Some (sample_connector no_raw)) tick_a sample_refund 799999 (sample_txid x0a) true DoneNil.

Lemma refund_settles_witness : exists txid,
  n_sessions (apply_refund sample_env sample_refund_task (inl (mkRefundOutcome txid false)) sample_node) !! sample_key = None.
Proof.
  destruct (is_inl_ex (SendRawTransaction (sample_connector no_raw) sample_refund)) as [txid Hsend]; [by vm_compute|].
  exists txid.
  pose proof (refund_settles sample_ripemd160 toy_secp no_unicode (2 ^ 27) 0 sample_env sample_refund_task txid sample_node
    (swap_session csCreatedA) (swap_order "created" true)) as H. cbv zeta in H.
  destruct H as [_ [H _]]; [| reflexivity | reflexivity | | vm_compute; reflexivity | reflexivity | vm_compute; reflexivity | exact H].
  - exists (sample_connector no_raw), 800000. split; [reflexivity|]. split; [reflexivity|].
    split; [lia|]. split; [cbn; lia|]. split; [exact Hsend|]. intros ->. vm_compute in Hsend. discriminate Hsend.
  - apply list_elem_of_singleton. reflexivity.
Defined.
