(* ===== verification/Restart.v ===== *)
(** * What the disk keeps

    A snapshot written while a deposit is out brings the session back after a
    crash, and no deposit or claim is handed to a wallet before the snapshot
    that holds it is on the disk. *)

From S2P Require Import Prelude Sha256 GoLib Hex Codec Bodies Packet Secp Signer Conf Coin Address Script Price Tx Wallet.
From S2P Require Import Deposit DepositLaws Order Store Session Persist Node Resume Sweep Track Commands Engine Sample.
From S2P Require Import Frame.

(** ** A restart *)

(** Everything of a session but what a restart sets again: the pointer, the
    guard, the counter and the clock of the sweeps, which are not written, and
    the phase and two clocks, of which [resumes] says what becomes of them. *)
Definition durable (s : SwapSession) : SwapSession :=
  s <| s_gen := 0 |> <| s_id := [] |> <| s_await := false |> <| s_awaitSince := 0 |> <| s_vanishMisses := 0 |>
    <| s_lastProgress := 0 |> <| s_state := csIdle |> <| s_huntSince := 0 |> <| s_claimRetryAt := 0 |>.

(** The session [s'] a restart at [now] makes of the record of [s] and its order
    [o]: a clock is set where it should run and had no value, and the phase is
    the one it had but for an order that finished without a claim, which is back
    at its deposit. *)
Record resumes (now : Z) (o : Order) (s s' : SwapSession) : Prop := {
  re_holding : holding s' = true;
  re_refund : refund_of s' = refund_of s;
  re_durable : durable s' = durable s;
  re_id : s_id s' = o_ID o;
  re_await : s_await s' = false;
  re_state : s_state s' = s_state s \/
    (o_Status o = "finished"%string /\ s_claimTxID s = [] /\ o_CounterpartyRedeemed o = false /\
     s_state s' = (if s_isMaker s then csCreatedA else csCreatedB));
  re_hunt : s_huntSince s' = (if s_secretHunt s && (s_huntSince s =? 0) then now else s_huntSince s);
  re_claimRetry : s_claimRetryAt s' = s_claimRetryAt s \/ (s_claimRetryAt s = 0 /\ s_claimHex s <> [] /\ s_claimRetryAt s' = now);
}.

Lemma holding_live s o : holding s = true ->
  restores_to_history (persistFromSession s o) = false /\ hasSessionData (persistFromSession s o) = true.
Proof.
  unfold holding. intros [[[Hge Hlt]%andb_true_iff Hr]%andb_true_iff Hd]%andb_true_iff. split.
  - unfold restores_to_history, persistFromSession, sessionFields. cbn.
    destruct (bool_decide_reflect (s_state s = csFinished)) as [E|_]; [by rewrite E in Hlt|].
    unfold cs_ge, cs_lt in *. apply Z.leb_le in Hge. apply negb_true_iff in Hd, Hr. rewrite Hd, Hr.
    destruct (Z.ltb_spec (cs_num (s_state s)) (cs_num csCreatedA)); [lia|]. by rewrite andb_false_r.
  - unfold hasSessionData, persistFromSession, sessionFields. cbn. unfold cs_ge in Hge. by destruct (s_state s).
Qed.

(** Of a session that holds, a record in a phase [st] of a deposit still holds. *)
Lemma restored_shape now gen s o : holding s = true ->
  let ps := persistFromSession s o in
  let st := if finishedRefundPending ps then (if s_isMaker s then csCreatedA else csCreatedB) else s_state s in
  let hunt := if s_secretHunt s && (s_huntSince s =? 0) then now else s_huntSince s in
  exists retry, restored_session now gen ps =
    Some (s <| s_gen := gen |> <| s_id := o_ID o |> <| s_await := false |> <| s_awaitSince := 0 |> <| s_vanishMisses := 0 |>
            <| s_lastProgress := now |> <| s_state := st |> <| s_huntSince := hunt |> <| s_claimRetryAt := retry |>) /\
    (retry = s_claimRetryAt s \/ (s_claimRetryAt s = 0 /\ s_claimHex s <> [] /\ retry = now)).
Proof.
  intros Hh ps st hunt. assert (hasSessionData ps = true) as Hdata by (by apply holding_live).
  unfold restored_session. rewrite Hdata. cbn [negb]. cbv zeta. change (s_isMaker (ps_session ps)) with (s_isMaker s). change (s_state (ps_session ps)) with (s_state s). fold st.
  assert (bool_decide (st = csHoldApplied) = false) as Hst.
  { apply bool_decide_eq_false. unfold holding in Hh. subst st. intros E.
    destruct (finishedRefundPending ps); [by destruct (s_isMaker s)|]. by rewrite E in Hh. }
  cbn [s_state set ps_session ps persistFromSession sessionFields]. rewrite Hst. cbn [andb].
  set (s0 := sessionFields (o_ID o) s <| s_gen := gen |> <| s_state := st |> <| s_lastProgress := now |>).
  change (s_secretHunt s0) with (s_secretHunt s). change (s_huntSince s0) with (s_huntSince s).
  set (s1 := if s_secretHunt s && (s_huntSince s =? 0) then _ else s0).
  assert (s1 = s0 <| s_huntSince := hunt |>) as -> by (subst s1 hunt; by destruct (s_secretHunt s && _)).
  match goal with |- context [if ?b then s0 <| s_huntSince := hunt |> <| s_claimRetryAt := now |> else _] => destruct b eqn:Er end.
  - exists now. split; [reflexivity|right].
    apply andb_true_iff in Er as [[_ H1%negb_true_iff%bool_decide_eq_false]%andb_true_iff H2%Z.eqb_eq]. done.
  - exists (s_claimRetryAt s). split; [reflexivity|by left].
Qed.

Lemma restored_holding now gen s o : holding s = true ->
  restores_to_history (persistFromSession s o) = false /\
  exists s', restored_session now gen (persistFromSession s o) = Some s' /\ resumes now o s s'.
Proof.
  intros Hh. split; [by apply holding_live|]. destruct (restored_shape now gen s o Hh) as (retry & E & Hr). cbv zeta in E.
  eexists. split; [exact E|]. clear E.
  destruct (finishedRefundPending (persistFromSession s o)) eqn:Ef; constructor; try reflexivity; try exact Hr; try by left.
  - unfold holding in *. cbn. apply andb_true_iff in Hh as [[_ ->]%andb_true_iff ->]. by destruct (s_isMaker s).
  - right. unfold finishedRefundPending in Ef. cbn in Ef. repeat (apply andb_true_iff in Ef as [Ef ?]).
    repeat match goal with H : negb _ = true |- _ => apply negb_true_iff in H end. unfold is_empty in *.
    split_and!; [by apply String.eqb_eq|exact (bool_decide_eq_true_1 _ H0)|done|done].
  - exact Hh.
Qed.

Section Restore.
Context (e : Env) (id : bytes) (ps0 : persistedSwap) (R : Z -> SwapSession).

(** The record of the session, and no other record of the file that makes a session under its id. *)
Hypothesis (Hid : hexEncode (o_ID (ps_order ps0)) = id) (Hlive : restores_to_history ps0 = false).
Hypothesis (HR : forall gen, restored_session (e_now e) gen ps0 = Some (R gen)).

Definition back (n : Node) : Prop := exists gen, n_sessions n !! id = Some (R gen).

Lemma sess_add_session id' mk n : n_sessions (add_session id' mk n) = <[id' := mk (n_nextGen n)]> (n_sessions n).
Proof. reflexivity. Qed.

Lemma restore_one ps n :
  (hexEncode (o_ID (ps_order ps)) = id -> hasSessionData ps = true -> ps = ps0) ->
  ps = ps0 \/ back n -> back (restoreSwap e ps n).
Proof.
  intros Honly Hor. unfold restoreSwap. cbv zeta.
  assert (forall ps, hexEncode (o_ID (buildOrder ps)) = hexEncode (o_ID (ps_order ps))) as Hb0 by reflexivity.
  destruct Hor as [->|Hb].
  - rewrite Hlive, HR. eexists. rewrite sess_add_session, Hb0, Hid. apply lookup_insert_eq.
  - destruct (restores_to_history ps); [exact Hb|].
    destruct (restored_session _ _ ps) as [s|] eqn:Hs; [|exact Hb].
    destruct (decide (hexEncode (o_ID (ps_order ps)) = id)) as [E|Hne].
    + assert (hasSessionData ps = true) as Hdata by (unfold restored_session in Hs; by destruct (hasSessionData ps)).
      pose proof (Honly E Hdata) as ->. rewrite HR in Hs. injection Hs as <-.
      eexists. rewrite sess_add_session, Hb0, E. apply lookup_insert_eq.
    + destruct Hb as [g Hg]. exists g. rewrite sess_add_session, Hb0, lookup_insert_ne by congruence. exact Hg.
Qed.

Lemma restore_all l n :
  (forall ps, ps ∈ l -> hexEncode (o_ID (ps_order ps)) = id -> hasSessionData ps = true -> ps = ps0) ->
  ps0 ∈ l \/ back n -> back (fold_left (fun n ps => restoreSwap e ps n) l n).
Proof.
  revert n. induction l as [|ps l IH]; intros n Honly Hor; cbn.
  - destruct Hor as [H|H]; [by apply elem_of_nil in H | done].
  - apply IH; [intros; apply Honly; [by apply list_elem_of_further | done | done]|].
    destruct Hor as [H|H].
    + apply list_elem_of_In in H as [->|H]; [|left; by apply list_elem_of_In].
      right. apply restore_one; [|by left]. intros. apply Honly; [apply list_elem_of_here | done | done].
    + right. apply restore_one; [|by right]. intros. apply Honly; [apply list_elem_of_here | done | done].
Qed.

End Restore.

Lemma sess_insertTracked e bc n : n_sessions (insertTracked e bc n) = n_sessions n.
Proof.
  unfold insertTracked. revert n. induction bc as [|p bc IH]; intros n; cbn; [done|]. rewrite IH. unfold insert_tracked.
  by repeat case_match.
Qed.

Lemma sess_reconcileUnconfirmedDeposits e n : n_sessions (reconcileUnconfirmedDeposits e n) = n_sessions n.
Proof.
  unfold reconcileUnconfirmedDeposits, each_session. generalize (e_keys e). intros keys. revert n.
  induction keys as [|id keys IH]; intros n; cbn; [done|]. rewrite IH. by repeat case_match.
Qed.

(** The records a snapshot writes with session data. *)
Lemma snapshot_records n ps : keys_ok (st_orders (n_store n)) -> ps ∈ snapshotSwaps n -> hasSessionData ps = true ->
  exists o s, get_order n (hexEncode (o_ID o)) = Some o /\ n_sessions n !! hexEncode (o_ID o) = Some s /\ ps = persistFromSession s o.
Proof.
  intros Hk Hin Hd. unfold snapshotSwaps in Hin. apply elem_of_app in Hin as [Hin|Hin].
  - apply list_elem_of_In, in_concat in Hin as (l & Hl & Hin). apply in_map_iff in Hl as ([k o] & <- & Ho).
    apply list_elem_of_In, elem_of_map_to_list in Ho. cbn in *. destruct (o_Mine o); [|done].
    pose proof (Hk k o Ho) as E. unfold orderKey in E.
    destruct (n_sessions n !! hexEncode (o_ID o)) as [s|] eqn:Hs; [destruct (sessionIsTerminal _ _ _)|]; destruct Hin as [<-|[]].
    + discriminate Hd.
    + exists o, s. split; [|done]. unfold get_order, Store_Get. by rewrite <- E.
    + discriminate Hd.
  - apply list_elem_of_In, in_concat in Hin as (l & Hl & Hin). apply in_map_iff in Hl as (h & <- & _).
    destruct (h_Order h) as [o|]; [|done]. destruct (o_Mine o); [|done]. destruct Hin as [<-|[]]. discriminate Hd.
Qed.

Lemma snapshot_has n id s o : keys_ok (st_orders (n_store n)) ->
  get_order n id = Some o -> o_Mine o = true -> n_sessions n !! id = Some s -> sessionIsTerminal n id s = false ->
  persistFromSession s o ∈ snapshotSwaps n /\ hexEncode (o_ID o) = id.
Proof.
  intros Hk Ho Hm Hs Ht. pose proof (Hk id o Ho) as E. unfold orderKey in E. split; [|done].
  unfold snapshotSwaps. apply elem_of_app. left. apply list_elem_of_In, in_concat. exists [persistFromSession s o]. split; [|by left].
  apply in_map_iff. exists (id, o). split; [cbn; by rewrite Hm, <- E, Hs, Ht|]. by apply list_elem_of_In, elem_of_map_to_list.
Qed.

(** What a successful synchronous write leaves on the disk. *)
Lemma persistNow_disk e n : e_DataDir e = true -> fst (persistNow e n) = true ->
  n_disk (snd (persistNow e n)) = Some (file_of n).
Proof.
  intros Hd. unfold persistNow. rewrite Hd. cbn [negb]. unfold next_io. cbn. destruct (n_io n) as [|[] io]; cbn; done.
Qed.

Section Law.
Context (e e' : Env) (n : Node) (id : bytes) (s : SwapSession) (o : Order).

(** C2. A crash does not lose a deposit. After a synchronous write made while a
    session of our own order in the book holds a deposit, a restart from that
    file, whatever the daemon did in memory since the write, brings the session
    back under the same id, still holding, with the same refund, and with
    everything else that is written of it (keys, secret, amounts, what is known
    of the counterparty, what was built) as it was: only a clock that should run
    and had no value is set, and a finish without a claim is back at the deposit. *)
Theorem restart_resumes later :
  keys_ok (st_orders (n_store n)) -> get_order n id = Some o -> o_Mine o = true ->
  n_sessions n !! id = Some s -> holding s = true ->
  e_DataDir e = true -> fst (persistNow e n) = true -> n_disk later = n_disk (snd (persistNow e n)) ->
  exists s', n_sessions (restart e' later) !! id = Some s' /\ resumes (e_now e') o s s'.
Proof.
  intros Hk Ho Hm Hs Hh Hdir Hok Hlater.
  assert (sessionIsTerminal n id s = false) as Ht.
  { destruct (sessionIsTerminal n id s) eqn:E; [|done]. apply terminal_not_holding in E. congruence. }
  destruct (snapshot_has n id s o Hk Ho Hm Hs Ht) as [Hin Hid].
  destruct (restored_holding (e_now e') 0 s o Hh) as [Hlive _].
  set (R := fun gen => default zero_session (restored_session (e_now e') gen (persistFromSession s o))).
  assert (forall gen, restored_session (e_now e') gen (persistFromSession s o) = Some (R gen) /\ resumes (e_now e') o s (R gen)) as HR.
  { intros gen. destruct (restored_holding (e_now e') gen s o Hh) as (_ & s' & E & Hr). unfold R. by rewrite E. }
  unfold restart. rewrite Hlater, (persistNow_disk e n Hdir Hok). unfold restoreLocalSwaps, restoreTracked, migrateSettledArchive.
  rewrite sess_reconcileUnconfirmedDeposits, !sess_insertTracked.
  destruct (restore_all e' id (persistFromSession s o) R Hid Hlive (fun g => proj1 (HR g)) (f_swaps (file_of n))
    (empty_node <| n_disk := Some (file_of n) |>)) as [gen Hgen].
  - intros ps Hps Eid Hd. destruct (snapshot_records n ps Hk Hps Hd) as (o' & s'' & Ho' & Hs' & ->).
    change (hexEncode (o_ID o') = id) in Eid. rewrite Eid in Ho', Hs'. congruence.
  - left. exact Hin.
  - exists (R gen). split; [exact Hgen | apply HR].
Qed.

End Law.

Lemma restart_resumes_witness :
  exists s', n_sessions (restart sample_env (snd (persistNow sample_env sample_node) <| n_sessions := ∅ |> <| n_store := NewStore |>)) !! sample_key = Some s' /\
    resumes (e_now sample_env) (swap_order "created" true) (swap_session csCreatedA) s'.
Proof.
  refine (restart_resumes sample_env sample_env sample_node sample_key (swap_session csCreatedA) (swap_order "created" true)
    (snd (persistNow sample_env sample_node) <| n_sessions := ∅ |> <| n_store := NewStore |>) _ _ _ _ _ _ _ _).
  - intros k o. cbn. intros H. apply lookup_insert_Some in H as [[<- <-]|[_ H]]; [reflexivity | by rewrite lookup_empty in H].
  - vm_compute. reflexivity.
  - reflexivity.
  - vm_compute. reflexivity.
  - vm_compute. reflexivity.
  - reflexivity.
  - reflexivity.
  - reflexivity.
Defined.

(** ** The intent is durable before the broadcast *)

(** The broadcast a build result asks for. *)
Definition build_of (r : workResult) : option (bytes * Z * bytes * broadcastApply) :=
  match r with
  | RDepositA id gen (inl out) => Some (id, gen, do_depositHex out, BcDepositA out)
  | RDepositB id gen (inl out) => Some (id, gen, do_depositHex (cb_out out), BcDepositB out)
  | RClaimA id gen (inl out) => Some (id, gen, co_payHex out, BcClaimA out)
  | RClaimB id gen (inl out) => Some (id, gen, co_payHex out, BcClaimB out)
  | _ => None
  end.

(** What the record of a swap must hold of a deposit, or of a claim. *)
Definition holds_deposit (out : depositOutcome) (ps : persistedSwap) : Prop :=
  s_depositHex (ps_session ps) = do_depositHex out /\ s_ourDepositTxID (ps_session ps) = do_txid out /\
  s_refundHex (ps_session ps) = do_refundHex out /\ s_ourLockTime (ps_session ps) = do_lockTime out /\
  o_RefundTx (ps_order ps) = do_refundHex out.

Definition recorded (k : broadcastApply) (ps : persistedSwap) : Prop :=
  match k with
  | BcDepositA out => holds_deposit out ps
  | BcDepositB out => holds_deposit (cb_out out) ps
  | BcClaimA out => s_claimHex (ps_session ps) = co_payHex out /\ s_claimTxID (ps_session ps) = co_payTxID out
  | BcClaimB out => s_claimHex (ps_session ps) = co_payHex out /\ s_claimTxID (ps_session ps) = co_payTxID out /\
                    s_secret (ps_session ps) = co_secret out
  end.

(** The order is ours, in the book, and its session waits for the result. *)
Definition awaits (n : Node) (id : bytes) (s : SwapSession) : Prop :=
  s_await s = true /\ s_state s <> csFinished /\ exists o, get_order n id = Some o /\ o_Mine o = true.

(** Nothing posted; or exactly this broadcast posted, for the session that asked
    for it, once a snapshot has been written in this very step, in which the
    record of the order holds what is broadcast. *)
Definition durable_first (e : Env) (id : bytes) (gen : Z) (hex : bytes) (k : broadcastApply) (n n' : Node) : Prop :=
  n_tasks n' = n_tasks n \/
  exists s n1 conn cur, n_sessions n !! id = Some s /\ s_gen s = gen /\
    n_tasks n' = n_tasks n ++ [TBroadcast id gen conn cur hex k] /\
    fst (persistNow e n1) = true /\ n_disk n' = Some (file_of n1) /\ n_io n1 = n_io n /\
    (awaits n id s -> exists ps, ps ∈ f_swaps (file_of n1) /\ hexEncode (o_ID (ps_order ps)) = id /\ recorded k ps).

Lemma persistNow_tasks e n : n_tasks (snd (persistNow e n)) = n_tasks n.
Proof. unfold persistNow, next_io. cbn. destruct (negb _); [done|]. by destruct (n_io n) as [|[] ?]. Qed.

(** What adopting a result does to the engine's state. *)
Definition adopts (id : bytes) (k : broadcastApply) (n n1 : Node) : Prop :=
  n_tasks n1 = n_tasks n /\ n_io n1 = n_io n /\ (keys_ok (st_orders (n_store n)) -> keys_ok (st_orders (n_store n1))) /\
  forall s o, get_order n id = Some o -> n_sessions n !! id = Some s -> exists s1 o1,
    get_order n1 id = Some o1 /\ n_sessions n1 !! id = Some s1 /\ o_Mine o1 = o_Mine o /\ s_await s1 = s_await s /\
    s_state s1 = s_state s /\ recorded k (persistFromSession s1 o1).

Lemma intent_durable e id gen conn cur hex k n n1 :
  keys_ok (st_orders (n_store n)) -> e_DataDir e = true -> adopts id k n n1 -> sessionAlive n id gen = true ->
  durable_first e id gen hex k n (intent_then_broadcast e id gen conn cur hex k n1).
Proof.
  intros Hk Hdir (Htn & Hio & Hkn & Had) Halive. unfold intent_then_broadcast.
  pose proof (persistNow_disk e n1 Hdir) as Hdisk. pose proof (persistNow_tasks e n1) as Htasks.
  destruct (persistNow e n1) as [[] m] eqn:Ep; cbn [fst snd] in *; [|left; cbn; congruence].
  unfold postBroadcastTask, postSwapTask, post. destruct (_ <? _); cbn [snd]; [|left; cbn; congruence].
  unfold sessionAlive in Halive. destruct (n_sessions n !! id) as [s|] eqn:Hs; [|done]. apply Z.eqb_eq in Halive.
  right. exists s, n1, conn, cur. split_and!; [done|done|cbn; congruence|by rewrite Ep|by apply Hdisk|done|].
  intros (Haw & Hst & o & Ho & Hm). destruct (Had s o Ho eq_refl) as (s1 & o1 & Ho1 & Hs1 & Em & Ea & Es & Hrec).
  assert (sessionIsTerminal n1 id s1 = false) as Ht.
  { unfold sessionIsTerminal. rewrite bool_decide_eq_false_2 by congruence. rewrite Ea, Haw. by case_match. }
  destruct (snapshot_has n1 id s1 o1 (Hkn Hk) Ho1 ltac:(congruence) Hs1 Ht) as [Hin Hid]. by exists (persistFromSession s1 o1).
Qed.

Lemma adopts_both id k n fS fO :
  (forall o, o_ID (fO o) = o_ID o /\ o_Mine (fO o) = o_Mine o) -> (forall s, s_await (fS s) = s_await s /\ s_state (fS s) = s_state s) ->
  (forall s o, recorded k (persistFromSession (fS s) (fO o))) -> adopts id k n (updO id fO (updS id fS n)).
Proof.
  intros HfO HfS Hrec. split_and!; [done|done| |].
  - intros Hk j x. cbn. rewrite lookup_alter_Some. intros [(-> & y & Hy & ->)|[_ Hx]]; [|by apply Hk].
    destruct (HfO y) as [-> _]. by apply Hk.
  - intros s o Ho Hs. exists (fS s), (fO o). destruct (HfO o), (HfS s). split_and!; try done.
    + unfold get_order, Store_Get in *. cbn. by rewrite lookup_alter_eq, Ho.
    + cbn. by rewrite lookup_alter_eq, Hs.
Qed.

(** The same when the order does not change. *)
Lemma adopts_claim id k n fS :
  (forall s, s_await (fS s) = s_await s /\ s_state (fS s) = s_state s) ->
  (forall s o, recorded k (persistFromSession (fS s) o)) -> adopts id k n (updS id fS n).
Proof.
  intros HfS Hrec. split_and!; [done|done|done|]. intros s o Ho Hs. exists (fS s), o. destruct (HfS s). split_and!; try done.
  cbn. by rewrite lookup_alter_eq, Hs.
Qed.

Section Intent.
Context (mem : Z) {secp : Secp}.

(** C3. What is broadcast is on the disk first. When the result of a deposit or
    claim build reaches the engine of a daemon with a data directory, nothing is
    queued unless the session that asked for it is still there and the swap file
    is written in the same step; and if the order is still ours in the book and
    its session still waits for the result, that file holds a record of the order
    with the bytes to be sent: for a deposit also its id, the signed refund and
    its lock time, for a claim its id and, for a taker, the secret.  (An order
    canceled during the build is in the history by then, and its file has no
    session: [cancel_in_build_unrecorded] of Hazards.v.  What the retry sweep posts
    again is not a build's result.) *)
Theorem intent_before_broadcast e r n id gen hex k :
  build_of r = Some (id, gen, hex, k) -> keys_ok (st_orders (n_store n)) -> e_DataDir e = true ->
  durable_first e id gen hex k n (apply_result mem e r n).
Proof.
  intros Hb Hk Hdir. destruct (sessionAlive n id gen) eqn:Halive.
  - destruct r as [i g [out|]|i g [out|]|i g [out|]|i g [out|]| | | | | | | ]; try discriminate Hb; injection Hb as <- <- <- <-;
      cbn [apply_result]; unfold applyCreatedA, applyCreatedB, applyConfirmedA, applyConfirmedB; rewrite Halive; cbn [negb]; cbv zeta;
      apply intent_durable; try done; first [by apply adopts_both | by apply adopts_claim].
  - left. destruct r as [i g [out|]|i g [out|]|i g [out|]|i g [out|]| | | | | | | ]; try discriminate Hb; injection Hb as <- <- <- <-;
      cbn [apply_result]; unfold applyCreatedA, applyCreatedB, applyConfirmedA, applyConfirmedB; by rewrite Halive.
Qed.

End Intent.

Definition built : depositOutcome :=
  mkDepositOutcome (sample_txid x0a) 800012 sample_refund sample_refund (sample_connector no_raw).
Definition building_node : Node := node_with (swap_order "initialized" false) (holdAwait now0 (swap_session csInitialized)).

Lemma intent_before_broadcast_witness :
  exists f ps, n_disk (apply_result (2 ^ 27) sample_env (RDepositA sample_key 1 (inl built)) building_node) = Some f /\
    ps ∈ f_swaps f /\ recorded (BcDepositA built) ps.
Proof.
  assert (keys_ok (st_orders (n_store building_node))) as Hk.
  { intros k o. cbn. intros H. apply lookup_insert_Some in H as [[<- <-]|[_ H]]; [reflexivity | by rewrite lookup_empty in H]. }
  destruct (intent_before_broadcast (2 ^ 27) sample_env (RDepositA sample_key 1 (inl built)) building_node sample_key 1 sample_refund
    (BcDepositA built) eq_refl Hk eq_refl) as [H|(s & n1 & conn & cur & Hs & _ & _ & _ & Hd & _ & Hrec)].
  - exfalso. apply (f_equal length) in H. vm_compute in H. discriminate H.
  - destruct Hrec as (ps & Hin & _ & Hr); [|exists (file_of n1), ps; exact (conj Hd (conj Hin Hr))].
    assert (bool_decide (s_state <$> n_sessions building_node !! sample_key = Some csInitialized) &&
      bool_decide (s_await <$> n_sessions building_node !! sample_key = Some true) = true) as H by (vm_compute; reflexivity).
    apply andb_true_iff in H as [H1 H2]. apply bool_decide_eq_true_1 in H1, H2. rewrite Hs in H1, H2. injection H1 as H1. injection H2 as H2.
    split; [exact H2|]. split; [rewrite H1; discriminate|]. exists (swap_order "initialized" false). split; [vm_compute; reflexivity|reflexivity].
Defined.
