(* ===== verification/Gate.v ===== *)
(** * Who moves a swap, and when it is tried again

    A packet changes a node only when the key entitled to it signed it, and a
    hub packet starts nothing while a task of the session is in flight. A failed
    build is due again within bounds, and the retry posts it. *)

From S2P Require Import Prelude Sha256 GoLib Hex Codec Bodies Packet Secp Signer Conf Coin Address Script Price Tx Wallet.
From S2P Require Import Deposit DepositLaws Order Store Session Persist Node Resume Sweep Track Commands Engine Sample.
From S2P Require Import Frame Safety.

(** ** Authority *)

(** The swap a hub packet is about. *)
Definition swap_id (b : Body) : option bytes :=
  match b with
  | Body_Hold b => Some (Hold_ID b)
  | Body_Init b => Some (Init_ID b)
  | Body_CreateA b => Some (CreateA_ID b)
  | Body_CreateB b => Some (CreateB_ID b)
  | Body_ConfirmA b => Some (ConfirmA_ID b)
  | Body_ConfirmB b => Some (ConfirmB_ID b)
  | Body_Finished b => Some (Finished_ID b)
  | _ => None
  end.

(** Offers are open to all. A swap packet needs the hub pinned in the session; a
    cancel the order's node, the counterparty or our own key; a reject the node. *)
Definition entitled {secp : Secp} (n : Node) (pkt : Packet) (b : Body) : bool :=
  match b with
  | Body_Pending _ => true
  | Body_Cancel b => match get_order n (hexEncode (Cancel_ID b)) with Some o => cancel_verified o pkt | None => false end
  | Body_Reject b => match get_order n (hexEncode (Reject_ID b)) with Some o => verified_by pkt (o_SNodePubkey o) | None => false end
  | _ => match swap_id b with
         | Some id => match n_sessions n !! hexEncode id with
                      | Some s => negb (bool_decide (s_hubKey s = zeros 33)) && verified_by pkt (hexEncode (s_hubKey s))
                      | None => false
                      end
         | None => false
         end
  end.

Section Authority.
Context (uni : Unicode) (mem : Z) {secp : Secp}.

Lemma processSwap_unentitled e pkt ID hub fn n :
  match n_sessions n !! hexEncode ID with
  | Some s => negb (bool_decide (s_hubKey s = zeros 33)) && verified_by pkt (hexEncode (s_hubKey s))
  | None => false
  end = false -> processSwap e pkt ID hub fn n = n.
Proof.
  unfold processSwap. destruct (n_sessions n !! hexEncode ID) as [s|]; [|done]. unfold verifyHubPacket. intros H.
  destruct (bool_decide _); [done|]. cbn in H. by rewrite H.
Qed.

(** C10. Nobody else moves a swap. A packet that decodes but was not signed by the
    key entitled to its command leaves the whole node as it was: sessions, book,
    tasks, files and wire. (The node is a trader, not a hub.) *)
Theorem authority e pkt b n :
  e_exchangeStarted e = false -> DecodeBody (Command pkt) (PBody pkt) = Ok b -> entitled n pkt b = false ->
  handlePacket uni mem e pkt n = n.
Proof.
  intros Hex Hb He. unfold handlePacket. rewrite Hb. destruct b; try done; cbn in He; try by apply processSwap_unentitled.
  - unfold handleRemoteCancel. cbv zeta. destruct (get_order _ _); [|done]. by rewrite Hex, He.
  - unfold handleRemoteReject. cbv zeta. destruct (get_order _ _); [|done]. case_match; [done|]. by rewrite He.
Qed.

(** The session a hub packet touched: its hub and its progress clock. *)
Definition hub_of (b : Body) : bytes :=
  match b with
  | Body_Hold b => Hold_HubAddress b
  | Body_Init b => Init_HubAddress b
  | Body_CreateA b => CreateA_HubAddress b
  | Body_CreateB b => CreateB_HubAddress b
  | Body_ConfirmA b => ConfirmA_HubAddress b
  | Body_ConfirmB b => ConfirmB_HubAddress b
  | _ => zeros 20
  end.

Lemma processSwap_await e pkt ID hub fn n s :
  n_sessions n !! hexEncode ID = Some s -> s_await s = true ->
  processSwap e pkt ID hub fn n = n \/
  processSwap e pkt ID hub fn n = n <| n_sessions ::= <[hexEncode ID := touched e hub s]> |>.
Proof.
  intros Hs Haw. unfold processSwap. rewrite Hs. destruct (negb _); [by left|]. right. unfold touched.
  assert (forall h, s_await ((if bool_decide (h = zeros 20) then s else s <| s_hub := h |>) <| s_lastProgress := e_now e |>) = true) as ->
    by (intros h; by case_bool_decide).
  done.
Qed.

(** One task at a time. While a deposit or claim of a session is being built or
    broadcast, a hub packet for that swap, even a genuine one, starts nothing and
    changes nothing but the session's hub address and progress clock. *)
Theorem await_excludes e pkt b id s n :
  DecodeBody (Command pkt) (PBody pkt) = Ok b -> swap_id b = Some id ->
  n_sessions n !! hexEncode id = Some s -> s_await s = true ->
  handlePacket uni mem e pkt n = n \/
  handlePacket uni mem e pkt n = n <| n_sessions ::= <[hexEncode id := touched e (hub_of b) s]> |>.
Proof.
  intros Hb Hid Hs Haw. unfold handlePacket. rewrite Hb.
  destruct b; try discriminate Hid; injection Hid as <-; by apply processSwap_await.
Qed.

End Authority.

Lemma authority_witness : handlePacket no_unicode (2 ^ 27) sample_env stray_cancel sample_node = sample_node.
Proof.
  refine (authority no_unicode (2 ^ 27) sample_env stray_cancel (Body_Cancel (mkCancelBody (repeat x01 32) 1)) sample_node _ _ _).
  - reflexivity.
  - vm_compute. reflexivity.
  - vm_compute. reflexivity.
Defined.

Definition hub_packet (cmd : Z) (body : bytes) : Packet :=
  match Sign (NewPacket 70710 1700000000 cmd body) sample_priv' with Ok pkt => pkt | _ => NewPacket 0 0 0 [] end.
Definition finished_packet : Packet := hub_packet XbcTransactionFinished (FinishedBody_Marshal (mkFinishedBody (repeat x01 32))).
Definition busy_node : Node := node_with (swap_order "created" true) (holdAwait now0 (swap_session csCreatedA)).

Lemma await_excludes_witness :
  handlePacket no_unicode (2 ^ 27) sample_env finished_packet busy_node = busy_node \/
  handlePacket no_unicode (2 ^ 27) sample_env finished_packet busy_node =
    busy_node <| n_sessions ::= <[sample_key := touched sample_env (zeros 20) (holdAwait now0 (swap_session csCreatedA))]> |>.
Proof.
  refine (await_excludes no_unicode (2 ^ 27) sample_env finished_packet (Body_Finished (mkFinishedBody (repeat x01 32))) (repeat x01 32)
    (holdAwait now0 (swap_session csCreatedA)) busy_node _ _ _ _).
  - vm_compute. reflexivity.
  - reflexivity.
  - vm_compute. reflexivity.
  - reflexivity.
Defined.

(** ** Backoff *)

Lemma backoff_delay_spec i d : 0 < d -> exists j, 0 <= j <= Z.of_nat i /\ backoff_delay i d = d * 2 ^ j /\
  (backoff_delay i d < refundBackoffCapMicro -> j = Z.of_nat i) /\ (j = 0 \/ d * 2 ^ (j - 1) < refundBackoffCapMicro).
Proof.
  revert d. induction i as [|i IH]; intros d Hd; cbn [backoff_delay].
  - exists 0. rewrite Z.mul_1_r. split_and!; [lia | lia | done | done | by left].
  - destruct (Z.ltb_spec d refundBackoffCapMicro) as [Hlt|Hge].
    + destruct (IH (d * 2) ltac:(lia)) as (j & Hj & E & Hcap & Hstop). exists (j + 1). split_and!; [lia | lia | | |].
      * rewrite E, Z.pow_add_r by lia. lia.
      * intros H. apply Hcap in H. lia.
      * right. replace (j + 1 - 1) with j by lia. destruct (Z.eq_dec j 0) as [->|Hj0]; [lia|].
        destruct Hstop as [->|Hs]; [lia|]. replace (2 ^ j) with (2 * 2 ^ (j - 1)); [lia|].
        rewrite <- Z.pow_succ_r by lia. f_equal. lia.
    + exists 0. rewrite Z.mul_1_r. split_and!; [lia | lia | done | lia | by left].
Qed.

(** Retries neither storm nor starve. The delay after the [a]-th failed refund
    is ten minutes doubled [a - 1] times while that is below a day, and a day from
    then on; the delay of a failed build lies between one and eight minutes. *)
Theorem retry_bounds a r : 1 <= a -> 0 <= r ->
  refundBackoffBaseMicro <= refund_delay a <= refundBackoffCapMicro /\
  (refundBackoffBaseMicro * 2 ^ (a - 1) <= refundBackoffCapMicro -> refund_delay a = refundBackoffBaseMicro * 2 ^ (a - 1)) /\
  (refundBackoffCapMicro <= refundBackoffBaseMicro * 2 ^ (a - 1) -> refund_delay a = refundBackoffCapMicro) /\
  claimRetryBaseMicro <= retryBackoff r <= 8 * claimRetryBaseMicro.
Proof.
  intros Ha Hr.
  destruct (backoff_delay_spec (Z.to_nat (a - 1)) refundBackoffBaseMicro ltac:(done)) as (j & Hj & E & Hcap & _).
  rewrite Z2Nat.id in Hj, Hcap by lia.
  assert (refundBackoffBaseMicro * 2 ^ j <= refundBackoffBaseMicro * 2 ^ (a - 1)) as Hmono.
  { apply Z.mul_le_mono_nonneg_l; [done|]. apply Z.pow_le_mono_r; lia. }
  assert (1 <= 2 ^ j) as H1 by (pose proof (Z.pow_pos_nonneg 2 j ltac:(lia) ltac:(lia)); lia).
  assert (refundBackoffBaseMicro <= refundBackoffBaseMicro * 2 ^ j) as Hbase by (unfold refundBackoffBaseMicro in *; lia).
  unfold refund_delay. cbv zeta. rewrite E in *.
  split_and!.
  - destruct (_ <? _); [done | exact Hbase].
  - destruct (Z.ltb_spec refundBackoffCapMicro (refundBackoffBaseMicro * 2 ^ j)); lia.
  - intros Hle. destruct (Z.ltb_spec refundBackoffCapMicro (refundBackoffBaseMicro * 2 ^ j)); [lia|].
    destruct (Z.eq_dec (refundBackoffBaseMicro * 2 ^ j) refundBackoffCapMicro) as [Hc|Hc]; [lia|].
    assert (j = a - 1) as -> by (apply Hcap; lia). done.
  - intros Hge. destruct (Z.ltb_spec refundBackoffCapMicro (refundBackoffBaseMicro * 2 ^ j)); [done|].
    destruct (Z.eq_dec (refundBackoffBaseMicro * 2 ^ j) refundBackoffCapMicro); [done|].
    assert (j = a - 1) as -> by (apply Hcap; lia). lia.
  - unfold retryBackoff. cbv zeta. destruct (Z.ltb_spec 3 r); [by vm_compute|].
    assert (r = 0 \/ r = 1 \/ r = 2 \/ r = 3) as [-> | [-> | [-> | ->]]] by lia; by vm_compute.
  - unfold retryBackoff. cbv zeta. destruct (Z.ltb_spec 3 r); [by vm_compute|].
    assert (r = 0 \/ r = 1 \/ r = 2 \/ r = 3) as [-> | [-> | [-> | ->]]] by lia; by vm_compute.
Qed.

Lemma retry_bounds_witness : refund_delay 4 = 80 * 60 * 1000000 /\ retryBackoff 5 <= 8 * claimRetryBaseMicro.
Proof.
  split.
  - refine (eq_trans (proj1 (proj2 (retry_bounds 4 5 _ _)) _) _); [lia | lia | by vm_compute | by vm_compute].
  - apply (retry_bounds 4 5); lia.
Defined.

(** ** A failed deposit build is tried again *)

(** The schedule after a failed build: due soon, and nothing else of the plan changed. *)
Record scheduled (now : Z) (s s' : SwapSession) : Prop := mkScheduled {
  sc_due : now < s_depositRetryAt s' <= now + 8 * claimRetryBaseMicro;
  sc_await : s_await s' = s_await s;
  sc_gen : s_gen s' = s_gen s;
  sc_role : s_isMaker s' = s_isMaker s;
  sc_state : s_state s' = s_state s;
  sc_pub : s_theirPub s' = s_theirPub s;
  sc_deposit : s_ourDepositTxID s' = s_ourDepositTxID s;
  sc_txid : s_theirDepositTxID s' = s_theirDepositTxID s;
}.

Lemma retryBackoff_pos r : 0 <= r -> 0 < retryBackoff r <= 8 * claimRetryBaseMicro.
Proof.
  intros Hr. unfold retryBackoff. cbv zeta. destruct (Z.ltb_spec 3 r); [by vm_compute|].
  assert (r = 0 \/ r = 1 \/ r = 2 \/ r = 3) as [-> | [-> | [-> | ->]]] by lia; by vm_compute.
Qed.

Lemma backoff_scheduled now s : 0 <= s_depositRetries s -> scheduled now s (deposit_backoff now s).
Proof.
  intros H%retryBackoff_pos. constructor; try done.
  change (s_depositRetryAt (deposit_backoff now s)) with (now + retryBackoff (s_depositRetries s)). lia.
Qed.

Lemma poll_cases now terr s : let '(s', ok) := not_ready_poll now false terr s in
  if ok then scheduled now s s'
  else s_await s' = s_await s /\ s_gen s' = s_gen s /\ s_isMaker s' = s_isMaker s /\ s_state s' = s_state s /\
       s_theirPub s' = s_theirPub s /\ s_ourDepositTxID s' = s_ourDepositTxID s /\ s_theirDepositTxID s' = s_theirDepositTxID s /\
       s_depositRetries s' = s_depositRetries s.
Proof.
  unfold not_ready_poll, notReadyPollMicro, notReadyTaperPollMicro.
  repeat case_match; simplify_eq; try done; constructor; cbn; try done; unfold claimRetryBaseMicro; lia.
Qed.

Lemma failed_scheduled e id terr n s : n_sessions n !! id = Some s -> 0 <= s_depositRetries s ->
  exists s', n_sessions (build_failed e id false terr n) !! id = Some s' /\ scheduled (e_now e) s s'.
Proof.
  intros Hs Hr. unfold build_failed, scheduleNotReady. rewrite Hs.
  pose proof (poll_cases (e_now e) terr s) as Hp. destruct (not_ready_poll (e_now e) false terr s) as [s1 ok].
  destruct ok; cbv beta iota zeta.
  - exists s1. split; [|exact Hp]. rewrite sess_persistNow. cbn. by rewrite lookup_alter_eq, Hs.
  - unfold scheduleDepositRetry. exists (deposit_backoff (e_now e) s1). split.
    + rewrite sess_persistNow. cbn. by rewrite !lookup_alter_eq, Hs.
    + destruct Hp as (?&?&?&?&?&?&?&?). destruct (backoff_scheduled (e_now e) s1); [lia|]. constructor; congruence || done.
Qed.

Lemma persistNow_tasks' e n : n_tasks (snd (persistNow e n)) = n_tasks n.
Proof. unfold persistNow, next_io. cbn. destruct (negb _); [done|]. by destruct (n_io n) as [|[] ?]. Qed.

Lemma tasks_build_failed e id isClaim terr n : n_tasks (build_failed e id isClaim terr n) = n_tasks n.
Proof.
  unfold build_failed, scheduleNotReady, scheduleClaimRetry, scheduleDepositRetry.
  destruct (n_sessions n !! id) as [s|]; [destruct (not_ready_poll _ _ _ _) as [s1 []]|]; cbv beta iota zeta;
    [by rewrite persistNow_tasks'| |]; destruct isClaim; by rewrite persistNow_tasks'.
Qed.

(** A build worth trying: the maker knows its taker's key, the taker its maker's deposit. *)
Definition buildable (s : SwapSession) : bool :=
  if s_isMaker s then cs_lt (s_state s) csCreatedA && negb (bool_decide (s_theirPub s = zeros 33))
  else cs_lt (s_state s) csCreatedB && negb (is_empty (s_theirDepositTxID s)).

(** The task that builds the session's deposit. *)
Definition build_task_for (id : bytes) (s : SwapSession) (t : workTask) : Prop :=
  exists c, t = (if s_isMaker s then TDepositA else TDepositB) id (s_gen s) c.

Lemma retry_posts {secp : Secp} e id s n :
  n_sessions n !! id = Some s -> s_await s = false -> s_ourDepositTxID s = [] -> buildable s = true ->
  0 < s_depositRetryAt s <= e_now e -> zlen (n_tasks n) < task_queue ->
  exists t, n_tasks (retry_deposit e id s n) = n_tasks n ++ [t] /\ build_task_for id s t.
Proof.
  intros Hs Haw Hdep Hb Hdue Hroom. unfold retry_deposit. cbv zeta. rewrite Haw, Hdep. cbn [is_empty bool_decide negb andb].
  change (is_empty []) with true. cbn [negb andb].
  assert (exists t, rebuild_deposit_task e n id s = Some t /\ build_task_for id s t) as (t & -> & Ht).
  { unfold rebuild_deposit_task, buildable, build_task_for in *. destruct (s_isMaker s); cbn in *; rewrite Hb; eauto. }
  exists t. split; [|exact Ht].
  destruct (Z.eqb_spec (s_depositRetryAt s) 0); [lia|]. destruct (Z.ltb_spec (e_now e) (s_depositRetryAt s)); [lia|].
  unfold repost_build, postSwapTask, post. cbn. by destruct (Z.ltb_spec (zlen (n_tasks n)) task_queue); [|lia].
Qed.

Section Liveness.
Context (mem : Z) {secp : Secp}.

(** The result of a failed deposit build of the session. *)
Definition failed_build (id : bytes) (s : SwapSession) (terr : error) : workResult :=
  if s_isMaker s then RDepositA id (s_gen s) (inr terr) else RDepositB id (s_gen s) (inr terr).

(** C20. A failed deposit build is not given up. After the failure of a build that
    does not cancel the swap, the session is free again and due within eight
    minutes; from then on the retry sweep posts the build once more, for the same
    session, unless the queue is full. *)
Theorem failed_deposit_retried e e' id s terr n :
  n_sessions n !! id = Some s -> s_ourDepositTxID s = [] -> buildable s = true -> err_Cancel terr = None -> 0 <= e_now e ->
  0 <= s_depositRetries s ->
  let n1 := apply_result mem e (failed_build id s terr) n in
  exists s1, n_sessions n1 !! id = Some s1 /\ s_await s1 = false /\
    e_now e < s_depositRetryAt s1 <= e_now e + 8 * claimRetryBaseMicro /\
    (s_depositRetryAt s1 <= e_now e' -> zlen (n_tasks n) < task_queue ->
     exists t, n_tasks (retry_deposit e' id s1 n1) = n_tasks n ++ [t] /\ build_task_for id s t).
Proof.
  intros Hs Hdep Hb Hterr Hnow Hret n1.
  assert (n1 = build_failed e id false terr (updS id releaseAwait n)) as E1.
  { unfold n1, failed_build. assert (sessionAlive n id (s_gen s) = true) as Ha by (unfold sessionAlive; rewrite Hs; apply Z.eqb_refl).
    destruct (s_isMaker s); cbn [apply_result]; unfold applyCreatedA, applyCreatedB; rewrite Ha; cbn [negb]; cbv zeta; rewrite ?Hterr;
      unfold session_of; cbn [n_sessions updS]; cbn; by rewrite lookup_alter_eq, Hs; cbn; rewrite Hdep. }
  assert (n_sessions (updS id releaseAwait n) !! id = Some (releaseAwait s)) as Hs0 by (cbn; by rewrite lookup_alter_eq, Hs).
  destruct (failed_scheduled e id terr _ _ Hs0 Hret) as (s1 & Hs1 & [Hdue Haw Hg Hr Hst Hp Hd Ht]).
  pose proof (tasks_build_failed e id false terr (updS id releaseAwait n)) as Htasks. rewrite <- E1 in Hs1, Htasks.
  exists s1. split; [exact Hs1|]. split; [exact Haw|]. split; [exact Hdue|]. intros Hle Hroom.
  destruct (retry_posts e' id s1 n1 Hs1 Haw ltac:(rewrite Hd; exact Hdep)) as (t & Ht1 & Ht2).
  - unfold buildable in *. rewrite Hr, Hst, Hp, Ht. exact Hb.
  - lia.
  - rewrite Htasks. exact Hroom.
  - exists t. rewrite Ht1, Htasks. split; [done|]. unfold build_task_for in *. by rewrite Hr, Hg in Ht2.
Qed.

End Liveness.

Definition unbuilt : SwapSession :=
  holdAwait now0 (swap_session csInitialized) <| s_ourDepositTxID := [] |> <| s_refundHex := [] |> <| s_depositHex := [] |>.
Definition unbuilt_node : Node := node_with (swap_order "initialized" false <| o_RefundTx := [] |>) unbuilt.

Lemma failed_deposit_retried_witness :
  exists s1, n_sessions (apply_result (2 ^ 27) sample_env (failed_build sample_key unbuilt failure) unbuilt_node) !! sample_key = Some s1 /\
    s_await s1 = false.
Proof.
  destruct (failed_deposit_retried (2 ^ 27) sample_env sample_env sample_key unbuilt failure unbuilt_node) as (s1 & Hs1 & Haw & _).
  - vm_compute. reflexivity.
  - reflexivity.
  - vm_compute. reflexivity.
  - reflexivity.
  - done.
  - done.
  - exists s1. split; [exact Hs1 | exact Haw].
Defined.
