(* ===== verification/Hazards.v ===== *)
(** * What the engine does not prevent

    Behaviour that the comments of the source rule out, stated as theorems
    about the model: a partial take that can never start, a deposit result that
    takes a finished swap back, a second deposit that replaces the first one's
    refund, a stale snapshot written over a newer one, and a cancel that loses
    the record of a deposit on its way to the chain. *)

From S2P Require Import Prelude Sha256 GoLib Hex Codec Bodies Packet Secp Signer Conf Coin Address Script Price Tx Wallet.
From S2P Require Import Deposit DepositLaws Order Store Session Persist Node Resume Sweep Track Commands Engine Sample.
From S2P Require Import Frame.

(** ** Partial takes *)

Section Take.
Context {secp : Secp} (uni : Unicode).

(** The session of a take made for part of an offer. *)
Definition taken_session (e : Env) (gen : Z) (key fromAddr toAddr priv pub : bytes) (proofs : list UtxoEntry)
    (usedCoins feeInputs : list Utxo) (o : Order) : SwapSession :=
  newTakerSession (e_now e) gen (take_stamp e fromAddr toAddr pub proofs usedCoins feeInputs o) fromAddr toAddr priv pub.

Lemma taken_eq e gen key fa ta priv pub proofs used fees o (s := taken_session e gen key fa ta priv pub proofs used fees o) :
  s_state s = csTaker /\ s_isMaker s = false /\ s_srcAmt s = o_ToAmount o /\ s_dstAmt s = o_FromAmount o.
Proof. repeat split. Qed.

Lemma take_stamp_id e fa ta pub proofs used fees o : o_ID (take_stamp e fa ta pub proofs used fees o) = o_ID o.
Proof. reflexivity. Qed.

Lemma done_session e key fa ta pkt priv pub proofs used fees n o n' :
  get_order n key = Some o -> key = hexEncode (o_ID o) ->
  commitTake e key fa ta pkt priv pub proofs used fees n = (Done, n') ->
  exists gen, n_sessions n' !! key = Some (taken_session e gen key fa ta priv pub proofs used fees o).
Proof.
  intros Ho Hkey Hc. unfold commitTake in Hc. rewrite Ho in Hc. cbv zeta in Hc. rewrite take_stamp_id, <- Hkey in Hc.
  fold (taken_session e (n_nextGen n) key fa ta priv pub proofs used fees o) in Hc.
  set (mk := fun gen => newTakerSession _ gen _ _ _ _ _) in Hc.
  set (n1 := add_session key mk _) in Hc.
  assert (exists gen, n_sessions n1 !! key = Some (mk gen)) as [gen H1] by (eexists; apply lookup_insert_eq).
  exists gen. clearbody n1. change (taken_session _ _ _ _ _ _ _ _ _ _ _) with (mk gen). clearbody mk.
  destruct (persistNow e n1) as [ok n2] eqn:E2.
  apply (f_equal (fun p => n_sessions (snd p))) in E2. rewrite sess_persistNow in E2. cbn in E2.
  destruct ok; [|discriminate Hc]. cbn [negb] in Hc.
  destruct (write_packet _ pkt n2) as [ok n3] eqn:E3.
  apply (f_equal (fun p => n_sessions (snd p))) in E3. rewrite sess_write_packet in E3. cbn in E3.
  destruct ok; [|discriminate Hc]. injection Hc as <-.
  assert (n_sessions (registerTakeRetry e key n3) = n_sessions n1) as E by (unfold registerTakeRetry; case_match; cbn; congruence).
  by rewrite E.
Qed.

(** A take is bound to the whole offer. Whatever amounts the Accepting packet
    carried, the session that dxTakeOrder commits accepts a Hold for the amounts of
    the whole order only: a hub that relays the smaller amounts of a partial take is
    ignored, so a partial take never gets past Hold. *)
Theorem take_expects_whole e key fromAddr toAddr pkt priv pub proofs usedCoins feeInputs n o n' s b e' :
  get_order n key = Some o -> key = hexEncode (o_ID o) ->
  commitTake e key fromAddr toAddr pkt priv pub proofs usedCoins feeInputs n = (Done, n') ->
  n_sessions n' !! key = Some s -> (Hold_FromAmount b, Hold_ToAmount b) <> (o_ToAmount o, o_FromAmount o) ->
  OnHold uni e' key s b n' = (n', None).
Proof.
  intros Ho Hkey Hc Hs Hne.
  destruct (done_session _ _ _ _ _ _ _ _ _ _ _ _ _ Ho Hkey Hc) as [gen E]. rewrite E in Hs. injection Hs as <-.
  destruct (taken_eq e gen key fromAddr toAddr priv pub proofs usedCoins feeInputs o) as (Hst & Hmk & Hsrc & Hdst).
  revert Hst Hmk Hsrc Hdst. generalize (taken_session e gen key fromAddr toAddr priv pub proofs usedCoins feeInputs o). intros s Hst Hmk Hsrc Hdst.
  unfold OnHold, verifyHold. rewrite Hst, Hmk, Hsrc, Hdst. cbn [cs_ge cs_num Z.leb Z.compare].
  destruct (Z.eqb_spec (Hold_FromAmount b) (o_ToAmount o)) as [E4|]; [|reflexivity].
  destruct (Z.eqb_spec (Hold_ToAmount b) (o_FromAmount o)) as [E5|]; [|reflexivity].
  by rewrite E4, E5 in Hne.
Qed.

End Take.

Definition offered : Order := sample_order <| o_PartialAllowed := true |> <| o_FromAmount := 1000000 |> <| o_ToAmount := 2000000 |>.
Definition offered_node : Node := empty_node <| n_store := Add offered NewStore |>.

Lemma take_expects_whole_witness : exists n' s,
  commitTake sample_env sample_key [] [] stray_cancel sample_priv (pub_of sample_priv) [] [] [] offered_node = (Done, n') /\
  OnHold no_unicode sample_env sample_key s (mkHoldBody (zeros 20) (repeat x01 32) 1000000 500000) n' = (n', None).
Proof.
  set (r := commitTake sample_env sample_key [] [] stray_cancel sample_priv (pub_of sample_priv) [] [] [] offered_node).
  assert (r = (Done, snd r)) as Hr by (vm_compute; reflexivity).
  assert (exists s, n_sessions (snd r) !! sample_key = Some s) as [s Hs].
  { assert (bool_decide (is_Some (n_sessions (snd r) !! sample_key)) = true) as H by (vm_compute; reflexivity).
    apply bool_decide_eq_true in H. exact H. }
  exists (snd r), s. split; [exact Hr|].
  refine (take_expects_whole no_unicode sample_env sample_key [] [] stray_cancel sample_priv (pub_of sample_priv) [] [] [] offered_node offered
    (snd r) s (mkHoldBody (zeros 20) (repeat x01 32) 1000000 500000) sample_env _ _ Hr Hs _).
  - vm_compute. reflexivity.
  - reflexivity.
  - discriminate.
Defined.

(** ** The stale snapshot *)

(** A newer durable write can be overwritten by an older snapshot. The writer
    takes the queued snapshot of [n] and is overtaken: whatever state [n2] the
    engine has written durably in the meantime, the writer then puts [n]'s snapshot
    on the disk. (The comments of persistNow and writeLatestPersist rule it out.) *)
Theorem stale_snapshot_wins e e2 n n2 :
  e_DataDir e = true -> n_io n2 = [] -> n_loopJob n2 = n_loopJob (writer_take (persist e n)) ->
  n_disk (snd (persistNow e2 n2)) = (if e_DataDir e2 then Some (file_of n2) else n_disk n2) /\
  n_disk (writer_write (snd (persistNow e2 n2))) = Some (file_of n).
Proof.
  intros Hd Hio Hj. unfold persist, writer_take in Hj. rewrite Hd in Hj. cbn in Hj.
  unfold persistNow. destruct (e_DataDir e2); cbn [negb].
  - unfold next_io. cbn. rewrite Hio. cbn. split; [done|]. unfold writer_write. cbn. rewrite Hj. unfold next_io. cbn. by rewrite Hio.
  - split; [done|]. unfold writer_write. cbn. rewrite Hj. unfold next_io. cbn. by rewrite Hio.
Qed.

Lemma stale_snapshot_wins_witness :
  let n2 := writer_take (persist sample_env sample_node) <| n_sessions := ∅ |> in
  n_disk (writer_write (snd (persistNow sample_env n2))) = Some (file_of sample_node).
Proof.
  intros n2. exact (proj2 (stale_snapshot_wins sample_env sample_env sample_node n2 eq_refl eq_refl eq_refl)).
Defined.

(** ** Results that come late *)

Section Late.
Context (mem : Z) {secp : Secp}.

Lemma deposit_sent_state e id st n s : n_sessions n !! id = Some s ->
  exists s', n_sessions (deposit_sent e id st n) !! id = Some s' /\ s_state s' = st /\ s_refundHex s' = s_refundHex s.
Proof. intros Hs. eexists. split; [unfold deposit_sent; cbn; by rewrite !lookup_alter_eq, Hs|]. done. Qed.

(** A late deposit result takes the swap back. When the broadcast of a maker's
    deposit is reported accepted, the session is set to CreatedA whatever its state:
    a swap that has claimed and finished in the meantime is open again, and its
    refund due. The comment on OnCreateA's state guard says a redelivery never
    rewinds; the result of a broadcast has no such guard. *)
Theorem late_deposit_rewinds e id s cur hex out txid n :
  n_sessions n !! id = Some s ->
  exists s', n_sessions (apply_result mem e (RBroadcast id (s_gen s) cur hex (BcDepositA out) (inl txid)) n) !! id = Some s' /\
    s_state s' = csCreatedA /\ s_refundHex s' = s_refundHex s.
Proof.
  intros Hs. cbn [apply_result]. unfold broadcast_done. cbv zeta.
  set (m := match txIDFromHex hex with Some _ => _ | None => _ end).
  assert (n_sessions m = n_sessions n) as Hm by (subst m; case_match; [apply sess_recordBroadcast | done]).
  clearbody m. set (m1 := updS id _ m).
  assert (n_sessions m1 !! id = Some (s <| s_lastProgress := e_now e |>)) as H1 by (subst m1; cbn; by rewrite lookup_alter_eq, Hm, Hs).
  clearbody m1. cbn [resume_broadcast]. unfold applyCreatedABroadcast.
  assert (sessionAlive m1 id (s_gen s) = true) as -> by (unfold sessionAlive; rewrite H1; apply Z.eqb_refl).
  cbn [negb]. cbv zeta.
  assert (n_sessions (updS id releaseAwait m1) !! id = Some (releaseAwait (s <| s_lastProgress := e_now e |>))) as H2
    by (cbn; by rewrite lookup_alter_eq, H1).
  destruct (deposit_sent_state e id csCreatedA _ _ H2) as (s' & Hs' & Hst & Hr).
  exists s'. split; [|done]. unfold reply. cbv zeta. autorewrite with sess. exact Hs'.
Qed.

(** The intent and the post touch the guard of the session, nothing else of it, and no order. *)
Lemma intent_effect e id gen conn cur hex k n :
  n_store (intent_then_broadcast e id gen conn cur hex k n) = n_store n /\
  (n_sessions (intent_then_broadcast e id gen conn cur hex k n) = n_sessions n \/
   n_sessions (intent_then_broadcast e id gen conn cur hex k n) = alter releaseAwait id (n_sessions n)).
Proof.
  unfold intent_then_broadcast. pose proof (sess_persistNow e n) as Es. pose proof (store_persistNow e n) as Et.
  destruct (persistNow e n) as [[] m]; cbn [fst snd] in *; [|cbn; rewrite Es; auto].
  unfold postBroadcastTask, postSwapTask, post. destruct (zlen (n_tasks m) <? task_queue); cbn; rewrite Es; auto.
Qed.

Definition has_refund (out : depositOutcome) (o : option SwapSession) : Prop :=
  exists s, o = Some s /\ s_refundHex s = do_refundHex out /\ s_ourDepositTxID s = do_txid out.

Lemma adopted_refund e id gen out n s o : n_sessions n !! id = Some s -> s_gen s = gen -> get_order n id = Some o ->
  let n' := apply_result mem e (RDepositA id gen (inl out)) n in
  has_refund out (n_sessions n' !! id) /\ exists o', get_order n' id = Some o' /\ o_RefundTx o' = do_refundHex out.
Proof.
  intros Hs Hg Ho n'. unfold n'. cbn [apply_result]. unfold applyCreatedA.
  assert (sessionAlive n id gen = true) as -> by (unfold sessionAlive; rewrite Hs; by apply Z.eqb_eq).
  cbn [negb]. cbv zeta. set (m := updO id _ _).
  assert (has_refund out (n_sessions m !! id)) as (s' & Hm & Hr & Hd).
  { eexists. split; [cbn; by rewrite lookup_alter_eq, Hs|]. split; reflexivity. }
  assert (exists o', get_order m id = Some o' /\ o_RefundTx o' = do_refundHex out) as Hom.
  { eexists. split; [unfold get_order, Store_Get in *; cbn; by rewrite lookup_alter_eq, Ho|]. reflexivity. }
  clearbody m. unfold get_order in *.
  match goal with |- context [intent_then_broadcast ?e ?id ?g ?c ?cu ?h ?k m] =>
    destruct (intent_effect e id g c cu h k m) as [-> [-> | ->]] end; (split; [|exact Hom]).
  - exists s'. done.
  - eexists. split; [by rewrite lookup_alter_eq, Hm|]. by split.
Qed.

(** A second deposit replaces the refund of the first. A maker whose deposit was
    built and handed to its wallet, and whose task guard is free again (the
    broadcast failed, timed out or was released as stuck), builds another deposit
    when the hub sends CreateA again; its result overwrites the recorded deposit
    and the only copy of the first one's refund, in the session and in the order. *)
Theorem rebuild_replaces_refund e e' id s b out o n :
  n_sessions n !! id = Some s -> s_isMaker s = true -> cs_lt (s_state s) csCreatedA = true -> s_await s = false ->
  CreateA_BPubKey b <> zeros 33 -> get_order n id = Some o -> zlen (n_tasks n) < task_queue ->
  let n1 := OnCreateA e id s b n in
  let n2 := apply_result mem e' (RDepositA id (s_gen s) (inl out)) n1 in
  (exists c, n_tasks n1 = n_tasks n ++ [TDepositA id (s_gen s) c]) /\
  has_refund out (n_sessions n2 !! id) /\
  (exists o2, get_order n2 id = Some o2 /\ o_RefundTx o2 = do_refundHex out).
Proof.
  intros Hs Hmk Hlt Haw Hpub Ho Hroom n1 n2.
  set (s1 := s <| s_theirPub := CreateA_BPubKey b |>).
  set (m1 := updO id (fun o => o <| o_OtherPubkey := hexEncode (CreateA_BPubKey b) |>) (updS id (fun s => s <| s_theirPub := CreateA_BPubKey b |>) n)).
  assert (n1 = start_task e id (TDepositA id) m1) as E1.
  { unfold n1, OnCreateA. rewrite Hmk, Haw. unfold cs_ge, cs_lt in *. destruct (Z.leb_spec (cs_num csCreatedA) (cs_num (s_state s))).
    - apply Z.ltb_lt in Hlt. lia.
    - cbn [negb]. by rewrite bool_decide_eq_false_2. }
  assert (n_sessions m1 !! id = Some s1) as Hm1 by (cbn; by rewrite lookup_alter_eq, Hs).
  assert (get_order m1 id = Some (o <| o_OtherPubkey := hexEncode (CreateA_BPubKey b) |>)) as Ho1.
  { unfold get_order, Store_Get in *. cbn. by rewrite lookup_alter_eq, Ho. }
  assert (s_gen s1 = s_gen s) as Hg by done. assert (n_tasks m1 = n_tasks n) as Htk by done. clearbody m1 s1.
  assert (exists c, n_tasks n1 = n_tasks n ++ [TDepositA id (s_gen s) c] /\ n_sessions n1 !! id = Some (holdAwait (e_now e) s1) /\
    get_order n1 id = get_order m1 id) as (c & Ht & Hs1 & Hst).
  { rewrite E1. unfold start_task, postSwapTask, post. rewrite Hm1. cbn. rewrite Htk. destruct (Z.ltb_spec (zlen (n_tasks n)) task_queue); [|lia].
    cbn. rewrite Hg, Htk, lookup_alter_eq, Hm1. eauto. }
  split; [by exists c|]. unfold n2. eapply adopted_refund; [exact Hs1 | exact Hg|]. rewrite Hst. exact Ho1.
Qed.

End Late.

(** The sample swap, finished while a first broadcast of its deposit hung. *)
Definition finished_node : Node := node_with (swap_order "finished" true) (swap_session csFinished).
Definition hung_deposit : depositOutcome :=
  mkDepositOutcome (sample_txid x0a) 800012 sample_refund sample_refund (sample_connector no_raw).

Lemma late_deposit_rewinds_witness :
  exists s', n_sessions (apply_result (2 ^ 27) sample_env
      (RBroadcast sample_key 1 tick_a sample_refund (BcDepositA hung_deposit) (inl (sample_txid x0a))) finished_node) !! sample_key = Some s' /\
    s_state s' = csCreatedA.
Proof.
  destruct (late_deposit_rewinds (2 ^ 27) sample_env sample_key (swap_session csFinished) tick_a sample_refund hung_deposit (sample_txid x0a)
    finished_node) as (s' & Hs' & Hst & _).
  - vm_compute. reflexivity.
  - exists s'. split; [exact Hs' | exact Hst].
Defined.

(** A maker whose deposit was built and whose broadcast failed. *)
Definition failed_node : Node := node_with (swap_order "initialized" false) (swap_session csInitialized).
Definition second_deposit : depositOutcome :=
  mkDepositOutcome (sample_txid x0b) 800100 (bytes_of "00") (bytes_of "01") (sample_connector no_raw).
Definition create_a : CreateABody := mkCreateABody (zeros 20) (repeat x01 32) (pub_of sample_priv').

Lemma rebuild_replaces_refund_witness :
  has_refund second_deposit (n_sessions (apply_result (2 ^ 27) sample_env (RDepositA sample_key 1 (inl second_deposit))
    (OnCreateA sample_env sample_key (swap_session csInitialized) create_a failed_node)) !! sample_key).
Proof.
  destruct (rebuild_replaces_refund (2 ^ 27) sample_env sample_env sample_key (swap_session csInitialized) create_a second_deposit
    (swap_order "initialized" false) failed_node) as (_ & H & _).
  - vm_compute. reflexivity.
  - reflexivity.
  - reflexivity.
  - reflexivity.
  - vm_compute. discriminate.
  - vm_compute. reflexivity.
  - vm_compute. reflexivity.
  - exact H.
Defined.

(** ** A cancel while the deposit is on its way *)

(** The hub cancels between the durable intent of the deposit and its broadcast. *)
Definition hub_cancel_packet : Packet :=
  match Sign (NewPacket 70710 1700000000 XbcTransactionCancel (CancelBody_Marshal (mkCancelBody (repeat x01 32) 1))) sample_priv' with
  | Ok pkt => pkt | _ => NewPacket 0 0 0 [] end.

Definition cancelled_in_flight : Node :=
  let n0 := node_with (swap_order "initialized" false) (holdAwait now0 (swap_session csInitialized)) in
  let step := engine_step sample_ripemd160 no_unicode (2 ^ 27) sample_env in
  let n1 := step (EvResult (RDepositA sample_key 1 (inl hung_deposit))) n0 in
  let n2 := step (EvPacket hub_cancel_packet) n1 in
  step (EvResult (RBroadcast sample_key 1 tick_a sample_refund (BcDepositA hung_deposit) (inl (sample_txid x0a)))) n2.

(** The deposit is out and the session holds it, but the order went to the history
    when the cancel came, so the next snapshot has no session and no sent deposit:
    after a restart nothing is left that would refund it. *)
Lemma cancel_in_flight_loses_refund :
  (exists s, n_sessions cancelled_in_flight !! sample_key = Some s /\ holding s = true) /\
  let n := restart sample_env (snd (persistNow sample_env cancelled_in_flight)) in
  n_sessions n !! sample_key = None /\ get_order n sample_key = None /\
  n_tasks (scanStoredRefunds (2 ^ 27) sample_env (scanRefunds sample_env n)) = [].
Proof.
  split; [|vm_compute; repeat split].
  assert (match n_sessions cancelled_in_flight !! sample_key with Some s => holding s | None => false end = true) as H by (vm_compute; reflexivity).
  destruct (n_sessions cancelled_in_flight !! sample_key) as [s|]; [by exists s | done].
Qed.

(** The hub cancels during the build of the deposit. *)
Definition cancelled_in_build : Node :=
  let n0 := node_with (swap_order "initialized" false) (holdAwait now0 (swap_session csInitialized)) in
  let step := engine_step sample_ripemd160 no_unicode (2 ^ 27) sample_env in
  step (EvResult (RDepositA sample_key 1 (inl hung_deposit))) (step (EvPacket hub_cancel_packet) n0).

(** The result of the build finds its session alive and is posted, but the file
    written first has the order as a historical record, without the session. *)
Lemma cancel_in_build_unrecorded :
  match n_tasks cancelled_in_build with
  | [TBroadcast id gen _ _ hex _] => id = sample_key /\ gen = 1 /\ hex = do_depositHex hung_deposit
  | _ => False
  end /\
  exists f, n_disk cancelled_in_build = Some f /\
    Forall (fun ps => ps_Historical ps = true /\ s_refundHex (ps_session ps) = [] /\ hasSessionData ps = false) (f_swaps f).
Proof.
  assert (match n_disk cancelled_in_build with
    | Some f => forallb (fun ps => ps_Historical ps && is_empty (s_refundHex (ps_session ps)) && negb (hasSessionData ps)) (f_swaps f)
    | None => false end = true) as Hd by (vm_compute; reflexivity).
  split.
  - vm_compute. split_and!; reflexivity.
  - destruct (n_disk cancelled_in_build) as [f|]; [|done]. exists f. split; [done|]. apply Forall_forall. intros ps Hps.
    rewrite forallb_forall in Hd. specialize (Hd ps (proj1 (list_elem_of_In _ _) Hps)).
    apply andb_true_iff in Hd as [[H1 H2]%andb_true_iff H3%negb_true_iff]. split_and!; [done| |done]. exact (bool_decide_eq_true_1 _ H2).
Qed.
